(* ===== verification/_CoqProject ===== *)
-Q . S2P
Prelude.v
Riscv.v
Mem.v
Kstring.v
Kalloc.v
Vm.v
VmPt.v
VmWalk.v
VmMap.v
VmUser.v
VmAlloc.v
VmFork.v
VmFree.v
VmCopy.v
VmProc.v
VmThms.v
VmKern.v
Block.v
Spinlock.v
Bio.v
BioClient.v
Log.v
LogThms.v
Store.v
LogStore.v
Fs.v
FsBlock.v
FsInode.v
FsFile.v
FsRead.v
FsWrite.v
FsUser.v
FsDir.v
FsPath.v
FsName.v
FsTrunc.v
FsThms.v
Kernel.v
Asm.v
AsmThms.v
Proc.v
Switch.v
Pipe.v
PipeThms.v
File.v
Fork.v
Syscall.v
Sysfile.v
Exec.v
Trap.v
FileThms.v
ProcThms.v
Isolation.v
ForkThms.v
IsolationThms.v
Sleeplock.v
Ring.v
Printf.v
Console.v
ConsoleThms.v
Virtio.v
VirtioThms.v
Sched.v
Sh.v
ShThms.v
Umalloc.v
UmallocThms.v
Grep.v
Ulib.v
User.v
UserThms.v
Mkfs.v
MkfsThms.v
Boot.v
BootThms.v
Booted.v
