(* ===== verification/Prelude.v ===== *)
(** * xv6 kernel and user programs: a verification development

    xv6 is a small Unix for RISC-V: a kernel (src/kernel) with paged virtual memory,
    processes on several harts, a logging file system on a virtio disk, pipes and a
    console, user programs (src/user) on its 21 system calls, and a program of the host
    that builds a disk image (src/mkfs).  This library
    translates the code into functions and step relations and proves what makes it
    correct.

    ** How code is modelled

    Stateful code is a function in the monad [M S A := S -> outcome S A] of this file:
    it returns a result and a new state, panics with the message of the code, or
    diverges.  [wp o Q] says that [o] returns and satisfies [Q], so every theorem stated
    with it includes termination and the absence of panics.  Memory is a finite map from
    addresses to bytes (Mem.v), and structures that the code keeps in memory (free list,
    page tables, trapframes, malloc headers) are in it.  Integers are in [Z], with
    [wrap w] where the C type wraps.  Structures in static tables (processes, files,
    inodes, buffers) are records, and pointers to them are indices.

    A section under a spin lock is one atomic step.  Spinlock.v justifies this: it
    interleaves the atomic instructions of [acquire] and [release] of several harts and
    shows mutual exclusion.  A routine that sleeps is modelled in one of two ways.  Where
    sleeping is the subject (pipes, [wait], sleep locks, console, disk driver) it is cut
    into passes that return or go to sleep, and a step relation interleaves the passes of
    all processes, kills and wake-ups.  In the sequential model of system calls a sleep
    that only another process can end is [diverge].

    Loops that are not structural take fuel.  The fuel is computed from the data at the
    call (bytes to copy, pages in the range, list length, characters of the line), and the
    [wp] theorems show that it is never used up.  Each file states its own choice.

    Code outside src is an argument: [Linker] (addresses of the kernel image), [Symbols],
    [Uart] and [Mmio] (device registers), [devsw] functions, the [grows] oracle of sbrk.
    User programs have the system calls as an interface, and how many bytes a [read]
    returns is open.  The witnesses instantiate them.

    ** Components

    - Machine: Riscv.v (kernel/riscv.h, memlayout.h, param.h): Sv39 macros, layout,
      control registers.  Mem.v, Block.v: bytes and words.  Kstring.v (kernel/string.c).
    - Physical memory: Kalloc.v (kernel/kalloc.c).
    - Virtual memory: Vm.v (kernel/vm.c, proc_pagetable, proc_freepagetable and
      proc_mapstacks of kernel/proc.c).  VmPt.v gives a page table in memory its meaning
      as a map from pages to entries; VmWalk.v, VmMap.v, VmUser.v, VmAlloc.v, VmFork.v,
      VmFree.v, VmCopy.v, VmProc.v and VmKern.v show what each routine does to that map;
      VmThms.v collects the results.
    - Locks: Spinlock.v (kernel/spinlock.c), Sleeplock.v (kernel/sleeplock.c).
    - Disk: Virtio.v, VirtioThms.v (kernel/virtio_disk.c) with a device that completes
      requests in any order; Bio.v, BioClient.v (kernel/bio.c); Log.v, LogThms.v
      (kernel/log.c).
    - File system: Store.v is the interface that kernel/fs.c uses, with its laws;
      LogStore.v shows that the log satisfies them; Fs.v is kernel/fs.c over the
      interface, and FsBlock.v, FsInode.v, FsFile.v, FsRead.v, FsWrite.v, FsUser.v,
      FsDir.v, FsPath.v, FsName.v, FsTrunc.v and FsThms.v are its theory.
    - Processes and system calls: Kernel.v (the state: kernel/proc.h, file.h), Proc.v,
      Fork.v, Switch.v, Sched.v (kernel/proc.c), Pipe.v (kernel/pipe.c), File.v (kernel/file.c),
      Syscall.v (kernel/syscall.c, sysproc.c), Sysfile.v (kernel/sysfile.c), Exec.v
      (kernel/exec.c), Trap.v (the table of calls and kernel/trap.c); their theory in
      PipeThms.v, FileThms.v, ProcThms.v, Isolation.v, ForkThms.v, IsolationThms.v.
    - Assembly: Asm.v, AsmThms.v (kernel/entry.S, swtch.S, trampoline.S, kernelvec.S).
    - Console: Ring.v, Printf.v, Console.v, ConsoleThms.v (kernel/console.c, uart.c,
      printf.c; user/printf.c).
    - Disk image: Mkfs.v, MkfsThms.v (mkfs/mkfs.c).
    - Boot: Boot.v, BootThms.v, Booted.v (kernel/start.c, main.c, plic.c; userinit).
    - User programs: Sh.v, ShThms.v (user/sh.c), Umalloc.v, UmallocThms.v
      (user/umalloc.c), Grep.v (user/grep.c), Ulib.v (strings and memory of user/ulib.c),
      User.v, UserThms.v (cat, wc, grep, echo, ls, kill, ln, mkdir, rm and init of
      src/user, and gets and stat of user/ulib.c, over an interface [Os] of system calls).

    ** What the theorems show

    - Memory: the pages of the machine are always split between the free list and their
      holders; no page belongs to two processes, whatever processes do; [fork] copies a
      process exactly; freeing returns every page once; the kernel's own table maps what
      it should with the permissions it should.
    - Crash safety: a crash at any disk write of a commit or of recovery leaves a disk
      that stands for the contents before or after the transaction.  The disk driver
      below returns the blocks asked for, and every request completes.
    - Files: name resolution follows the directories on the disk; writing, truncation and
      directory entries do what they say and nothing else; the reference counts of open
      files are right after every system call.
    - Concurrency: mutual exclusion of both kinds of lock, the lock exchange of [sleep]
      among other CPUs, no lost wake-ups in pipes, [wait], sleep locks and the disk driver,
      a pipe is a queue from the writers' memory to the readers', and a round of the
      scheduler on one CPU runs every process that was ready.
    - Assembly: traps and context switches give back the registers they found.
    - Boot: from the reset state, hart 0 ends with the kernel's page table in [satp], every
      table initialised, the disk driver ready and one runnable process, whose memory is
      initcode.
    - Disk image: the image that mkfs writes meets the hypotheses of the theorems about the
      file system, and each of its arguments is a file of the root directory.
    - Console: line discipline and output refine an abstract queue of lines.
    - User programs: the shell's parser terminates and inverts printing, and the
      processes it starts, and the shells that wait for them, have the descriptors the line
      asks for; [malloc]'s blocks never overlap;
      grep's matcher agrees with its pattern language; what cat, wc, grep and ls print is
      a function of the files' contents, however reads cut them into parts.
    - Faults: three theorems show states in which the code does not do what it should
      (the log's admission test, a wake-up left out after [kill], [kill(0)]).

    ** Not modelled

    The TLB and weak memory ordering: the fences of the code are no-ops on a sequentially
    consistent memory.  Real time: a device is a set of allowed steps.  The messages that
    the kernel prints on unexpected traps.  kernel/ramdisk.c, which is not part of the
    build.  The execution of initcode.S, and the
    test programs (user/usertests.c, grind.c, forktest.c, stressfs.c, zombie.c), which
    exercise the kernel.  The messages of mkfs, and its asserts on sizes of types. *)

From Stdlib Require Export ZArith Lia.
From stdpp Require Export strings gmap functions prelude.
#[export] Set Warnings "-clear-no-such-hyp".
Open Scope Z_scope.
Coercion Z.of_nat : nat >-> Z.

(** ** Tactics *)

(** [lia] with the defining equations of [/] and [mod]. *)
Ltac zdm := Z.div_mod_to_equations; lia.

(** Case on the head [match]/[if] of the goal, keeping the equation. *)
Ltac dmatch :=
  match goal with
  | |- context [match ?x with _ => _ end] => destruct x eqn:?
  end.

Ltac dmatch_in H :=
  match type of H with
  | context [match ?x with _ => _ end] => destruct x eqn:?
  end.

(** Turn the boolean comparisons of the context into propositions. *)
Ltac bool_prop :=
  repeat match goal with
  | H : (_ && _)%bool = true |- _ => apply andb_true_iff in H as [? ?]
  | H : (_ || _)%bool = false |- _ => apply orb_false_iff in H as [? ?]
  | H : (_ && _)%bool = false |- _ => apply andb_false_iff in H
  | H : (_ || _)%bool = true |- _ => apply orb_true_iff in H
  | H : negb _ = true |- _ => apply negb_true_iff in H
  | H : negb _ = false |- _ => apply negb_false_iff in H
  | H : (_ =? _) = true |- _ => apply Z.eqb_eq in H
  | H : (_ =? _) = false |- _ => apply Z.eqb_neq in H
  | H : (_ <? _) = true |- _ => apply Z.ltb_lt in H
  | H : (_ <? _) = false |- _ => apply Z.ltb_ge in H
  | H : (_ <=? _) = true |- _ => apply Z.leb_le in H
  | H : (_ <=? _) = false |- _ => apply Z.leb_gt in H
  end.

(** ** Machine integers

    A [uintN] of the C code is an integer in [0, 2^N); arithmetic that can
    leave the range is followed by [wrap N].  An [int] is an integer in
    [-2^31, 2^31), reached from a wider value by [to_int]. *)

Definition wrap (w x : Z) : Z := x mod 2 ^ w.

Abbreviation u64 := (wrap 64).
Abbreviation u32 := (wrap 32).
Abbreviation u16 := (wrap 16).
Abbreviation u8 := (wrap 8).

Definition in_range (w x : Z) : Prop := 0 <= x < 2 ^ w.

(** Conversion of an integer to a [w]-bit two's complement value. *)
Definition sint (w x : Z) : Z := (x + 2 ^ (w - 1)) mod 2 ^ w - 2 ^ (w - 1).
Abbreviation to_int := (sint 32).
Abbreviation to_short := (sint 16).
Abbreviation to_char := (sint 8).

Lemma wrap_range w x : 0 <= w -> in_range w (wrap w x).
Proof. intros. apply Z.mod_pos_bound. by apply Z.pow_pos_nonneg. Qed.

Lemma wrap_id w x : in_range w x -> wrap w x = x.
Proof. apply Z.mod_small. Qed.

Lemma wrap_wrap w x : 0 <= w -> wrap w (wrap w x) = wrap w x.
Proof. intros. by apply wrap_id, wrap_range. Qed.

Lemma sint_range w x : 0 < w -> - 2 ^ (w - 1) <= sint w x < 2 ^ (w - 1).
Proof.
  intros. unfold sint.
  assert (2 ^ w = 2 * 2 ^ (w - 1)) as E by (rewrite <- Z.pow_succ_r; [f_equal|]; lia).
  pose proof (Z.mod_pos_bound (x + 2 ^ (w - 1)) (2 ^ w)).
  pose proof (Z.pow_pos_nonneg 2 (w - 1)). lia.
Qed.

Lemma sint_id w x : 0 < w -> - 2 ^ (w - 1) <= x < 2 ^ (w - 1) -> sint w x = x.
Proof.
  intros. unfold sint.
  assert (2 ^ w = 2 * 2 ^ (w - 1)) as E by (rewrite <- Z.pow_succ_r; [f_equal|]; lia).
  rewrite Z.mod_small; lia.
Qed.

(** The single bits of [2^i] masks: [x & (1 << i)] is nonzero exactly when bit
    [i] is set. *)
Lemma land_pow2_testbit x i :
  0 <= i -> (Z.land x (2 ^ i) =? 0) = negb (Z.testbit x i).
Proof.
  intros Hi. destruct (Z.testbit x i) eqn:E; simpl.
  - apply Z.eqb_neq. intros E0.
    assert (Z.testbit (Z.land x (2 ^ i)) i = false) as E1 by (rewrite E0; apply Z.bits_0).
    rewrite Z.land_spec, E, Z.pow2_bits_true in E1 by lia. done.
  - apply Z.eqb_eq. apply Z.bits_inj'. intros j Hj.
    rewrite Z.land_spec, Z.bits_0, Z.pow2_bits_eqb by lia.
    destruct (Z.eqb_spec i j) as [->|]; [by rewrite E|by rewrite andb_false_r].
Qed.

(** ** Outcomes and the state monad

    Kernel code runs on an explicit state [S].  It either returns ([Ret]),
    stops the machine with [panic(msg)] ([Panic]), or, for the loops that are
    written with fuel, runs out of it ([Diverge]); the theorems show that the
    fuel each operation is given is enough. *)

Inductive outcome (S A : Type) : Type :=
| Ret (a : A) (s : S)
| Panic (msg : string)
| Diverge.
Arguments Ret {S A} a s.
Arguments Panic {S A} msg.
Arguments Diverge {S A}.

Definition M (S A : Type) : Type := S -> outcome S A.

Global Instance M_ret S : MRet (M S) := fun A a s => Ret a s.
Global Instance M_bind S : MBind (M S) := fun A B k c s =>
  match c s with
  | Ret a s' => k a s'
  | Panic msg => Panic msg
  | Diverge => Diverge
  end.

Definition panic {S A} (msg : string) : M S A := fun _ => Panic msg.
Definition diverge {S A} : M S A := fun _ => Diverge.
Definition gets {S A} (f : S -> A) : M S A := fun s => Ret (f s) s.
Definition modify {S} (f : S -> S) : M S unit := fun s => Ret tt (f s).

(** Run a computation of a component on its part of a larger state. *)
Definition zoom {S T A} (get : S -> T) (set : T -> S -> S) (c : M T A) : M S A := fun s =>
  match c (get s) with
  | Ret a t => Ret a (set t s)
  | Panic msg => Panic msg
  | Diverge => Diverge
  end.

(** Total correctness: the outcome is a return that satisfies [Q]. *)
Definition wp {S A} (o : outcome S A) (Q : A -> S -> Prop) : Prop :=
  match o with
  | Ret a s => Q a s
  | Panic _ | Diverge => False
  end.

Section wp.
Context {S A B : Type}.
Implicit Types (o : outcome S A) (P Q : A -> S -> Prop).

Lemma wp_ret (a : A) (s : S) Q : Q a s -> wp (Ret a s) Q.
Proof. done. Qed.

Lemma wp_mono o P Q : wp o P -> (forall a s, P a s -> Q a s) -> wp o Q.
Proof. destruct o; naive_solver. Qed.

Lemma wp_bind (c : M S A) (k : A -> M S B) s (Q : B -> S -> Prop) :
  wp (c s) (fun a s' => wp (k a s') Q) -> wp ((c ≫= k) s) Q.
Proof. unfold mbind, M_bind. by destruct (c s). Qed.

Lemma wp_gets (f : S -> A) (k : A -> M S B) s (Q : B -> S -> Prop) :
  wp (k (f s) s) Q -> wp ((gets f ≫= k) s) Q.
Proof. done. Qed.

Lemma wp_modify (f : S -> S) (k : unit -> M S B) s (Q : B -> S -> Prop) :
  wp (k tt (f s)) Q -> wp ((modify f ≫= k) s) Q.
Proof. done. Qed.

Lemma wp_inv o Q : wp o Q -> exists a s, o = Ret a s /\ Q a s.
Proof. destruct o; naive_solver. Qed.

Lemma bind_ret_eq (c : M S A) (k : A -> M S B) s a s' :
  c s = Ret a s' -> (c ≫= k) s = k a s'.
Proof. intros E. unfold mbind, M_bind. by rewrite E. Qed.

Lemma bind_panic_eq (c : M S A) (k : A -> M S B) s msg :
  c s = Panic msg -> (c ≫= k) s = Panic msg.
Proof. intros E. unfold mbind, M_bind. by rewrite E. Qed.

Lemma bind_inv (c : M S A) (k : A -> M S B) s b s2 :
  (c ≫= k) s = Ret b s2 -> exists a s1, c s = Ret a s1 /\ k a s1 = Ret b s2.
Proof. unfold mbind, M_bind. destruct (c s); naive_solver. Qed.
End wp.

(** Step through the first command of a monadic goal with a lemma about it. *)
Tactic Notation "wp_step" uconstr(H) := apply wp_bind; eapply wp_mono; [eapply H|].

(** Unfold the monad's primitives. *)
Ltac msimpl := unfold mbind, M_bind, mret, M_ret, gets, modify, panic, diverge, zoom; cbn beta match.

(** ** Generic lemmas *)

Lemma Z_mult_lt_cancel a b c : 0 < c -> a * c < b * c -> a < b.
Proof. nia. Qed.

Create HintDb xv6.
#[export] Hint Resolve wrap_range : xv6.
#[export] Hint Extern 1 (0 <= _) => lia : xv6.

(** A check of the first [n] integers, as a statement about them. *)
Lemma bounded_forall (P : Z -> bool) n : forallb (fun k : nat => P k) (seq 0 n) = true -> forall b, 0 <= b < n -> P b = true.
Proof.
  intros Hf b Hb. replace b with (Z.of_nat (Z.to_nat b)) by lia. apply (proj1 (forallb_forall _ _) Hf), in_seq. lia.
Qed.

(** The state a computation ends in, for running it on a concrete one. *)
Definition final {S A} (c : M S A) (s : S) : S := match c s with Ret _ s' => s' | _ => s end.
