(* ===== verification/Riscv.v ===== *)
(** * The RISC-V machine and the memory layout (kernel/riscv.h, kernel/memlayout.h)

    The address arithmetic of the Sv39 page tables, the page-table-entry
    macros, the physical and virtual memory layout, and the control and
    status registers a hart exposes to the kernel. *)

From S2P Require Import Prelude.

(** ** Pages *)

Definition PGSIZE : Z := 4096.
Definition PGSHIFT : Z := 12.

(** [((sz)+PGSIZE-1) & ~(PGSIZE-1)] on a [uint64]. *)
Definition PGROUNDUP (sz : Z) : Z := Z.land (u64 (sz + PGSIZE - 1)) (Z.lnot (PGSIZE - 1)).
Definition PGROUNDDOWN (a : Z) : Z := Z.land a (Z.lnot (PGSIZE - 1)).

(** ** Page-table entries *)

Definition PTE_V : Z := Z.shiftl 1 0.
Definition PTE_R : Z := Z.shiftl 1 1.
Definition PTE_W : Z := Z.shiftl 1 2.
Definition PTE_X : Z := Z.shiftl 1 3.
Definition PTE_U : Z := Z.shiftl 1 4.

Definition PA2PTE (pa : Z) : Z := u64 (Z.shiftl (Z.shiftr pa 12) 10).
Definition PTE2PA (pte : Z) : Z := u64 (Z.shiftl (Z.shiftr pte 10) 12).
Definition PTE_FLAGS (pte : Z) : Z := Z.land pte 1023.

(** The C test [pte & flag]. *)
Definition has (pte flag : Z) : bool := negb (Z.land pte flag =? 0).

(** ** Virtual addresses *)

Definition PXMASK : Z := 511.
Definition PXSHIFT (level : Z) : Z := PGSHIFT + 9 * level.
Definition PX (level va : Z) : Z := Z.land (Z.shiftr va (PXSHIFT level)) PXMASK.

Definition MAXVA : Z := Z.shiftl 1 (9 + 9 + 9 + 12 - 1).

Definition SATP_SV39 : Z := Z.shiftl 8 60.
Definition MAKE_SATP (pagetable : Z) : Z := Z.lor SATP_SV39 (Z.shiftr pagetable 12).

(** ** Memory layout *)

Definition UART0 : Z := 0x10000000.
Definition UART0_IRQ : Z := 10.
Definition VIRTIO0 : Z := 0x10001000.
Definition VIRTIO0_IRQ : Z := 1.
Definition CLINT : Z := 0x2000000.
Definition CLINT_MTIMECMP (hartid : Z) : Z := CLINT + 0x4000 + 8 * hartid.
Definition CLINT_MTIME : Z := CLINT + 0xBFF8.
Definition PLIC : Z := 0x0c000000.
Definition PLIC_SENABLE (hart : Z) : Z := PLIC + 0x2080 + hart * 0x100.
Definition PLIC_SPRIORITY (hart : Z) : Z := PLIC + 0x201000 + hart * 0x2000.
Definition PLIC_SCLAIM (hart : Z) : Z := PLIC + 0x201004 + hart * 0x2000.
Definition KERNBASE : Z := 0x80000000.
Definition PHYSTOP : Z := KERNBASE + 128 * 1024 * 1024.
Definition TRAMPOLINE : Z := MAXVA - PGSIZE.
Definition KSTACK (p : Z) : Z := TRAMPOLINE - (p + 1) * 2 * PGSIZE.
Definition TRAPFRAME : Z := TRAMPOLINE - PGSIZE.

(** kernel/param.h *)
Definition NPROC : Z := 64.
Definition NCPU : Z := 8.
Definition NOFILE : Z := 16.
Definition NFILE : Z := 100.
Definition NINODE : Z := 50.
Definition NDEV : Z := 10.
Definition ROOTDEV : Z := 1.
Definition MAXARG : Z := 32.
Definition MAXOPBLOCKS : Z := 10.
Definition LOGSIZE : Z := MAXOPBLOCKS * 3.
Definition NBUF : Z := MAXOPBLOCKS * 3.
Definition FSSIZE : Z := 2000.
Definition MAXPATH : Z := 128.

(** Replace the constants above by their values. *)
Ltac layout :=
  change PGSIZE with 4096 in *; change MAXVA with 274877906944 in *;
  change TRAMPOLINE with 274877902848 in *; change TRAPFRAME with 274877898752 in *;
  change KERNBASE with 2147483648 in *; change PHYSTOP with 2281701376 in *;
  change (2 ^ 64) with 18446744073709551616 in *;
  change (2 ^ 32) with 4294967296 in *.
Ltac plia := layout; zdm.

(** The symbols that kernel.ld and the assembly files define: [end] is the
    first address after the kernel, [etext] the end of its text, and
    [trampoline] the page of trap code inside that text. *)
Class Linker := {
  kend : Z;
  etext : Z;
  trampoline : Z;
  trampoline_range : KERNBASE <= trampoline /\ trampoline + PGSIZE <= etext;
  trampoline_aligned : trampoline mod PGSIZE = 0;
  etext_aligned : etext mod PGSIZE = 0;
  etext_kend : etext <= kend;
  kend_range : kend <= PHYSTOP;
}.

(** ** Control and status registers *)

Inductive csr :=
| mhartid | mstatus | mepc | sstatus | sip | sie | mie | sepc | medeleg | mideleg
| stvec | mtvec | pmpcfg0 | pmpaddr0 | satp | mscratch | sscratch | scause | stval | mcounteren
| time | sp | tp | ra.

Global Instance csr_eq_dec : EqDecision csr.
Proof. solve_decision. Defined.

(** The registers of one hart. *)
Definition hart : Type := csr -> Z.

Definition csrr (r : csr) : M hart Z := gets (fun h => h r).
Definition csrw (r : csr) (x : Z) : M hart unit := modify (fun h r' => if decide (r' = r) then x else h r').

Definition r_mhartid := csrr mhartid.
Definition r_mstatus := csrr mstatus.
Definition w_mstatus := csrw mstatus.
Definition w_mepc := csrw mepc.
Definition r_sstatus := csrr sstatus.
Definition w_sstatus := csrw sstatus.
Definition r_sip := csrr sip.
Definition w_sip := csrw sip.
Definition r_sie := csrr sie.
Definition w_sie := csrw sie.
Definition r_mie := csrr mie.
Definition w_mie := csrw mie.
Definition w_sepc := csrw sepc.
Definition r_sepc := csrr sepc.
Definition w_medeleg := csrw medeleg.
Definition w_mideleg := csrw mideleg.
Definition w_stvec := csrw stvec.
Definition w_mtvec := csrw mtvec.
Definition w_pmpcfg0 := csrw pmpcfg0.
Definition w_pmpaddr0 := csrw pmpaddr0.
Definition w_satp := csrw satp.
Definition r_satp := csrr satp.
Definition w_mscratch := csrw mscratch.
Definition r_scause := csrr scause.
Definition r_stval := csrr stval.
Definition r_tp := csrr tp.
Definition w_tp := csrw tp.

Definition MSTATUS_MPP_MASK : Z := Z.shiftl 3 11.
Definition MSTATUS_MPP_S : Z := Z.shiftl 1 11.
Definition MSTATUS_MIE : Z := Z.shiftl 1 3.
Definition SSTATUS_SPP : Z := Z.shiftl 1 8.
Definition SSTATUS_SPIE : Z := Z.shiftl 1 5.
Definition SSTATUS_SIE : Z := Z.shiftl 1 1.
Definition SIE_SEIE : Z := Z.shiftl 1 9.
Definition SIE_STIE : Z := Z.shiftl 1 5.
Definition SIE_SSIE : Z := Z.shiftl 1 1.
Definition MIE_MTIE : Z := Z.shiftl 1 7.

Definition intr_on : M hart unit := x ← r_sstatus; w_sstatus (Z.lor x SSTATUS_SIE).
Definition intr_off : M hart unit := x ← r_sstatus; w_sstatus (Z.land x (Z.lnot SSTATUS_SIE)).
Definition intr_get : M hart bool := x ← r_sstatus; mret (has x SSTATUS_SIE).

(** ** Rounding *)

Lemma land_lnot_4095 a : Z.land a (Z.lnot 4095) = a - a mod 4096.
Proof.
  change 4095 with (Z.ones 12). rewrite <- Z.ldiff_land.
  rewrite Z.ldiff_ones_r, Z.shiftl_mul_pow2, Z.shiftr_div_pow2 by lia.
  change (2 ^ 12) with 4096. zdm.
Qed.

Lemma PGROUNDDOWN_val a : PGROUNDDOWN a = a - a mod PGSIZE.
Proof. apply land_lnot_4095. Qed.

Lemma PGROUNDUP_val sz :
  0 <= sz <= 2 ^ 64 - PGSIZE -> PGROUNDUP sz = (sz + 4095) / 4096 * 4096.
Proof.
  intros. unfold PGROUNDUP. change (PGSIZE - 1) with 4095.
  rewrite land_lnot_4095, wrap_id by (unfold in_range; plia). plia.
Qed.

Lemma PGROUNDUP_bounds sz :
  0 <= sz <= 2 ^ 64 - PGSIZE ->
  sz <= PGROUNDUP sz < sz + PGSIZE /\ PGROUNDUP sz mod PGSIZE = 0.
Proof. intros. rewrite PGROUNDUP_val by done. plia. Qed.

Lemma PGROUNDUP_aligned sz :
  0 <= sz <= 2 ^ 64 - PGSIZE -> sz mod PGSIZE = 0 -> PGROUNDUP sz = sz.
Proof. intros. rewrite PGROUNDUP_val by done. plia. Qed.

(** ** Page-table indices *)

Lemma PX_val level va :
  0 <= level -> PX level va = va / 2 ^ (12 + 9 * level) mod 512.
Proof.
  intros. unfold PX, PXSHIFT, PGSHIFT. change PXMASK with (Z.ones 9).
  rewrite Z.land_ones, Z.shiftr_div_pow2 by lia. done.
Qed.

Lemma PX_range level va : 0 <= level -> 0 <= PX level va < 512.
Proof. intros. rewrite PX_val by done. apply Z.mod_pos_bound. lia. Qed.

(** ** Entries *)

Lemma PTE2PA_val pte : 0 <= pte < 2 ^ 62 -> PTE2PA pte = pte / 1024 * 4096.
Proof.
  intros. unfold PTE2PA. rewrite Z.shiftl_mul_pow2, Z.shiftr_div_pow2 by lia.
  change (2 ^ 10) with 1024. change (2 ^ 12) with 4096. change (2 ^ 62) with 4611686018427387904 in *.
  apply wrap_id. unfold in_range. plia.
Qed.

Lemma PA2PTE_val pa : 0 <= pa < 2 ^ 64 -> PA2PTE pa = pa / 4096 * 1024.
Proof.
  intros. unfold PA2PTE. rewrite Z.shiftl_mul_pow2, Z.shiftr_div_pow2 by lia.
  change (2 ^ 10) with 1024. change (2 ^ 12) with 4096.
  apply wrap_id. unfold in_range. plia.
Qed.

(** Or-ing flags into the low ten bits of an entry is addition. *)
Lemma lor_flags a f : 0 <= f < 1024 -> Z.lor (a * 1024) f = a * 1024 + f.
Proof.
  intros. change 1024 with (2 ^ 10) in *. rewrite <- Z.shiftl_mul_pow2 by lia.
  rewrite <- Z.lxor_lor, <- Z.add_nocarry_lxor; [done|..];
  (apply Z.bits_inj'; intros n Hn; rewrite Z.land_spec, Z.bits_0;
   destruct (Z.ltb_spec n 10);
   [rewrite Z.shiftl_spec_low by lia; done
   |rewrite andb_comm, (Z.bits_above_log2 f n); [done|lia|];
    destruct (Z.eq_dec f 0) as [->|]; [simpl; lia|];
    apply Z.log2_lt_pow2; [lia|]; apply Z.lt_le_trans with (2 ^ 10); [lia|];
    apply Z.pow_le_mono_r; lia]).
Qed.

Lemma lor_bound a b n :
  0 <= n -> 0 <= a < 2 ^ n -> 0 <= b < 2 ^ n -> 0 <= Z.lor a b < 2 ^ n.
Proof.
  intros Hn [Ha Ha'] [Hb Hb']. split; [by apply Z.lor_nonneg|].
  destruct (Z.eq_dec (Z.lor a b) 0) as [->|]; [lia|].
  assert (0 <= Z.lor a b) by by apply Z.lor_nonneg.
  apply Z.log2_lt_pow2; [lia|]. rewrite Z.log2_lor by done.
  destruct (Z.eq_dec a 0) as [->|], (Z.eq_dec b 0) as [->|]; simpl in *.
  - exfalso. by apply n0.
  - apply Z.max_lub_lt; [|apply Z.log2_lt_pow2; lia]. destruct (Z.eq_dec n 0) as [->|]; simpl in *; lia.
  - apply Z.max_lub_lt; [apply Z.log2_lt_pow2; lia|]. destruct (Z.eq_dec n 0) as [->|]; simpl in *; lia.
  - apply Z.max_lub_lt; apply Z.log2_lt_pow2; lia.
Qed.

(** The entry [PA2PTE(pa) | flags]. *)
Section mk_pte.
Context (pa flags : Z) (Hpa : 0 <= pa < 2 ^ 56) (Hal : pa mod PGSIZE = 0)
  (Hflags : 0 <= flags < 1024).

Lemma mk_pte_val : Z.lor (PA2PTE pa) flags = pa / 4096 * 1024 + flags.
Proof.
  rewrite PA2PTE_val by (change (2 ^ 56) with 72057594037927936 in *; plia). by apply lor_flags.
Qed.

Lemma mk_pte_range : 0 <= Z.lor (PA2PTE pa) flags < 2 ^ 62.
Proof.
  rewrite mk_pte_val. change (2 ^ 62) with 4611686018427387904.
  change (2 ^ 56) with 72057594037927936 in *. plia.
Qed.

Lemma mk_pte_pa : PTE2PA (Z.lor (PA2PTE pa) flags) = pa.
Proof. rewrite PTE2PA_val by apply mk_pte_range. rewrite mk_pte_val. plia. Qed.

Lemma mk_pte_flags : PTE_FLAGS (Z.lor (PA2PTE pa) flags) = flags.
Proof.
  unfold PTE_FLAGS. change 1023 with (Z.ones 10). rewrite Z.land_ones by lia.
  rewrite mk_pte_val. change (2 ^ 10) with 1024. plia.
Qed.
End mk_pte.

(** Flag tests only look at the low ten bits. *)
Lemma has_flags pte f : 0 <= f < 1024 -> has pte f = has (PTE_FLAGS pte) f.
Proof.
  intros. unfold has, PTE_FLAGS. rewrite <- Z.land_assoc.
  change 1023 with (Z.ones 10). rewrite (Z.land_comm (Z.ones 10)).
  rewrite (Z.land_ones f) by lia. by rewrite Z.mod_small.
Qed.

Lemma has_mk_pte pa flags f :
  0 <= pa < 2 ^ 56 -> pa mod PGSIZE = 0 -> 0 <= flags < 1024 -> 0 <= f < 1024 ->
  has (Z.lor (PA2PTE pa) flags) f = has flags f.
Proof. intros. rewrite has_flags, mk_pte_flags by done. done. Qed.

Lemma has_0 f : has 0 f = false.
Proof. done. Qed.

Lemma has_lor a b f : has (Z.lor a b) f = has a f || has b f.
Proof.
  unfold has. rewrite Z.land_lor_distr_l.
  destruct (Z.eqb_spec (Z.land a f) 0) as [->|Ha]; simpl; [done|].
  apply negb_true_iff, Z.eqb_neq. rewrite Z.lor_eq_0_iff. intros []. contradiction.
Qed.
