(* ===== verification/Mem.v ===== *)
(** * Physical memory

    Physical memory is a finite map from byte addresses to bytes; the kernel
    reads and writes it through its direct map.  This file holds the byte and
    word accesses, little-endian as on RISC-V, and the frame relation
    [same_except P m m'], which says that two memories differ at most inside
    the pages of [P]. *)

From S2P Require Import Prelude Riscv.

Abbreviation memory := (gmap Z Z).

(** ** Little-endian integers *)

Fixpoint le_bytes (n : nat) (v : Z) : list Z :=
  match n with
  | O => []
  | S n => v mod 256 :: le_bytes n (v / 256)
  end.

Fixpoint le_val (l : list Z) : Z :=
  match l with
  | [] => 0
  | b :: l => b mod 256 + 256 * le_val l
  end.

Lemma length_le_bytes n v : length (le_bytes n v) = n.
Proof. revert v; induction n; simpl; auto. Qed.

Lemma le_val_range l : 0 <= le_val l < 256 ^ Z.of_nat (length l).
Proof.
  induction l as [|b l IH]; simpl length; [simpl; lia|].
  rewrite Nat2Z.inj_succ, Z.pow_succ_r by lia. simpl.
  pose proof (Z.mod_pos_bound b 256). lia.
Qed.

Lemma le_val_bytes n v : le_val (le_bytes n v) = v mod 256 ^ Z.of_nat n.
Proof.
  revert v. induction n as [|n IH]; intros v; simpl le_bytes.
  - by rewrite Z.mod_1_r.
  - simpl le_val. rewrite IH, Nat2Z.inj_succ, Z.pow_succ_r by lia.
    rewrite Z.rem_mul_r, Z.mod_mod by lia. done.
Qed.

Lemma le_bytes_val l :
  Forall (fun b => 0 <= b < 256) l -> le_bytes (length l) (le_val l) = l.
Proof.
  induction 1 as [|b l Hb _ IH]; [done|]. cbn [length le_bytes le_val].
  rewrite (Z.mod_small b) by done.
  replace (b + 256 * le_val l) with (le_val l * 256 + b) by lia.
  rewrite Z.div_add_l, (Z.div_small b), Z.add_0_r by lia.
  rewrite Z.add_comm, Z.mod_add, Z.mod_small by lia. by rewrite IH.
Qed.

Lemma le_bytes_range n v : Forall (fun b => 0 <= b < 256) (le_bytes n v).
Proof.
  revert v. induction n; intros v; constructor; auto. apply Z.mod_pos_bound. lia.
Qed.

Lemma le_val_ext l l' :
  map (fun b => b mod 256) l = map (fun b => b mod 256) l' -> le_val l = le_val l'.
Proof.
  revert l'. induction l as [|b l IH]; intros [|b' l'] E; simplify_eq/=; [done|].
  f_equal; [done|]. f_equal. auto.
Qed.

(** ** Byte accesses *)

Fixpoint ld_bytes (m : memory) (a : Z) (n : nat) : list Z :=
  match n with
  | O => []
  | S n => (m !!! a) mod 256 :: ld_bytes m (a + 1) n
  end.

Fixpoint st_bytes (m : memory) (a : Z) (l : list Z) : memory :=
  match l with
  | [] => m
  | b :: l => st_bytes (<[a := b mod 256]> m) (a + 1) l
  end.

Definition ld8 (m : memory) (a : Z) : Z := (m !!! a) mod 256.
Definition ld64 (m : memory) (a : Z) : Z := le_val (ld_bytes m a 8).
Definition st64 (m : memory) (a v : Z) : memory := st_bytes m a (le_bytes 8 v).

Lemma length_ld_bytes m a n : length (ld_bytes m a n) = n.
Proof. revert a. induction n; simpl; auto. Qed.

Lemma lookup_ld_bytes m a n (i : nat) :
  (i < n)%nat -> ld_bytes m a n !! i = Some (ld8 m (a + i)).
Proof.
  revert a i. induction n as [|n IH]; intros a [|i] Hi; simpl; try lia.
  - by rewrite Z.add_0_r.
  - rewrite IH by lia. do 2 f_equal. lia.
Qed.

Lemma lookup_st_bytes m a l x :
  st_bytes m a l !!! x
  = if decide (a <= x < a + length l) then (l !!! Z.to_nat (x - a)) mod 256 else m !!! x.
Proof.
  revert m a. induction l as [|b l IH]; intros m a; simpl.
  { rewrite decide_False by lia. done. }
  rewrite IH. case_decide.
  - rewrite decide_True by lia.
    replace (Z.to_nat (x - a)) with (S (Z.to_nat (x - (a + 1)))) by lia. done.
  - destruct (decide (x = a)) as [->|].
    + rewrite decide_True, Z.sub_diag by lia. by rewrite lookup_total_insert_eq.
    + rewrite decide_False by lia. by rewrite lookup_total_insert_ne.
Qed.

Lemma lookup_st_bytes_out m a l x :
  x < a \/ a + length l <= x -> st_bytes m a l !!! x = m !!! x.
Proof. intros. rewrite lookup_st_bytes, decide_False by lia. done. Qed.

Lemma ld_bytes_ext m m' a n :
  (forall x, a <= x < a + Z.of_nat n -> m !!! x = m' !!! x) -> ld_bytes m a n = ld_bytes m' a n.
Proof.
  revert a. induction n as [|n IH]; intros a Hm; simpl; [done|].
  rewrite Hm by lia. f_equal. apply IH. intros. apply Hm. lia.
Qed.

Lemma ld_bytes_shift m m' a a' n :
  (forall i, 0 <= i < Z.of_nat n -> ld8 m (a + i) = ld8 m' (a' + i)) ->
  ld_bytes m a n = ld_bytes m' a' n.
Proof.
  intros Hm. apply list_eq. intros i. destruct (decide (i < n)%nat).
  - rewrite !lookup_ld_bytes by done. f_equal. apply Hm. lia.
  - rewrite !lookup_ge_None_2 by (rewrite length_ld_bytes; lia). done.
Qed.

Lemma ld_st_bytes m a l :
  ld_bytes (st_bytes m a l) a (length l) = map (fun b => b mod 256) l.
Proof.
  apply list_eq. intros i. destruct (decide (i < length l)%nat) as [Hi|].
  - rewrite lookup_ld_bytes by done. unfold ld8.
    rewrite lookup_st_bytes, decide_True by lia.
    replace (Z.to_nat (a + i - a)) with i by lia.
    destruct (lookup_lt_is_Some_2 l i Hi) as [b Hb].
    rewrite (list_lookup_total_correct _ _ _ Hb), Z.mod_mod by lia.
    rewrite list_lookup_fmap, Hb. done.
  - rewrite !lookup_ge_None_2; rewrite ?length_ld_bytes, ?length_map; [done|lia..].
Qed.

Lemma ld64_range m a : 0 <= ld64 m a < 2 ^ 64.
Proof.
  pose proof (le_val_range (ld_bytes m a 8)) as Hr.
  rewrite length_ld_bytes in Hr. exact Hr.
Qed.

Lemma ld64_st64_eq m a v : 0 <= v < 2 ^ 64 -> ld64 (st64 m a v) a = v.
Proof.
  intros Hv. unfold ld64, st64. rewrite <- (length_le_bytes 8 v) at 2.
  rewrite ld_st_bytes.
  rewrite (le_val_ext _ (le_bytes 8 v)).
  - rewrite le_val_bytes. by apply Z.mod_small.
  - rewrite map_map. apply map_ext. intros. apply Z.mod_mod. lia.
Qed.

Lemma ld64_ext m m' a :
  (forall x, a <= x < a + 8 -> m !!! x = m' !!! x) -> ld64 m a = ld64 m' a.
Proof. intros Hm. unfold ld64. f_equal. by apply ld_bytes_ext. Qed.

Lemma ld64_shift m m' a a' : (forall i, 0 <= i < 8 -> ld8 m (a + i) = ld8 m' (a' + i)) -> ld64 m a = ld64 m' a'.
Proof. intros Hm. unfold ld64. f_equal. by apply ld_bytes_shift. Qed.

Lemma lookup_st64_out m a v x : x < a \/ a + 8 <= x -> st64 m a v !!! x = m !!! x.
Proof. intros. apply lookup_st_bytes_out. rewrite length_le_bytes. lia. Qed.

Lemma ld64_st64_ne m a b v : a + 8 <= b \/ b + 8 <= a -> ld64 (st64 m a v) b = ld64 m b.
Proof. intros. apply ld64_ext. intros. apply lookup_st64_out. lia. Qed.

Global Opaque ld64 st64.

(** ** Pages and frames *)

(** The page an address lies in. *)
Definition pg (a : Z) : Z := a - a mod PGSIZE.

Definition aligned (p : Z) : Prop := p mod PGSIZE = 0.

Lemma pg_in p a : aligned p -> p <= a < p + PGSIZE -> pg a = p.
Proof. unfold aligned, pg. plia. Qed.

Lemma pg_out p a : aligned p -> pg a <> p -> a < p \/ p + PGSIZE <= a.
Proof. unfold aligned, pg. plia. Qed.

Lemma pg_bounds a : pg a <= a < pg a + PGSIZE.
Proof. unfold pg. plia. Qed.

Lemma pg_aligned a : aligned (pg a).
Proof. unfold aligned, pg. plia. Qed.

Lemma pg_id p : aligned p -> pg p = p.
Proof. unfold aligned, pg. plia. Qed.

(** [m] and [m'] agree outside the pages of [P]. *)
Definition same_except (P : gset Z) (m m' : memory) : Prop :=
  forall a, pg a ∉ P -> m' !!! a = m !!! a.

Lemma same_except_refl P m : same_except P m m.
Proof. done. Qed.

Lemma same_except_sym P m m' : same_except P m m' -> same_except P m' m.
Proof. intros Hs a Ha. by rewrite Hs. Qed.

Lemma same_except_trans P Q m1 m2 m3 :
  same_except P m1 m2 -> same_except Q m2 m3 -> same_except (P ∪ Q) m1 m3.
Proof. intros H1 H2 a Ha. rewrite H2, H1; set_solver. Qed.

Lemma same_except_mono P Q m1 m2 : P ⊆ Q -> same_except P m1 m2 -> same_except Q m1 m2.
Proof. intros HPQ H a Ha. apply H. set_solver. Qed.

Lemma same_except_st64 m a v :
  a mod 8 = 0 -> same_except {[pg a]} m (st64 m a v).
Proof.
  intros Ha8 x Hx. apply lookup_st64_out. assert (pg x <> pg a) as Hne by set_solver.
  unfold pg in Hne. plia.
Qed.

(** An aligned word of a page outside [P] is unchanged. *)
Lemma same_except_ld64 P m m' p i :
  same_except P m m' -> aligned p -> p ∉ P -> 0 <= i -> i + 8 <= PGSIZE ->
  ld64 m' (p + i) = ld64 m (p + i).
Proof.
  intros Hs Hp HP ? ?. apply ld64_ext. intros x Hx. apply Hs.
  rewrite (pg_in p); [done|done|lia].
Qed.

Lemma same_except_ld_bytes P m m' a n :
  same_except P m m' -> (forall x, a <= x < a + Z.of_nat n -> pg x ∉ P) ->
  ld_bytes m' a n = ld_bytes m a n.
Proof. intros Hs HP. apply ld_bytes_ext. auto. Qed.

#[export] Hint Resolve same_except_refl pg_aligned : xv6.
