(* ===== verification/Kstring.v ===== *)
(** * Memory and string routines (kernel/string.c)

    The byte loops of kernel/string.c on physical memory.  [char] cells hold
    bytes; [strncmp] compares them as [uchar], as the code casts them.  A
    count [n] of type [uint] or [int] drives each loop: a non-positive count
    runs no iteration. *)

From S2P Require Import Prelude Riscv Mem.

(** ** The routines *)

(** [for(i = 0; i < n; i++) cdst[i] = c;] *)
Fixpoint memset_loop (m : memory) (cdst c : Z) (n : nat) : memory :=
  match n with
  | O => m
  | S n => memset_loop (<[cdst := u8 c]> m) (cdst + 1) c n
  end.

Definition memset (m : memory) (dst c n : Z) : memory := memset_loop m dst c (Z.to_nat n).

(** [while(n-- > 0){ if( *s1 != *s2 ) return *s1 - *s2; s1++, s2++; } return 0;] *)
Fixpoint memcmp_loop (m : memory) (s1 s2 : Z) (n : nat) : Z :=
  match n with
  | O => 0
  | S n =>
      if negb (ld8 m s1 =? ld8 m s2) then ld8 m s1 - ld8 m s2
      else memcmp_loop m (s1 + 1) (s2 + 1) n
  end.

Definition memcmp (m : memory) (v1 v2 n : Z) : Z := memcmp_loop m v1 v2 (Z.to_nat n).

(** [while(n-- > 0) *--d = *--s;] from the ends of the two areas. *)
Fixpoint memmove_back (m : memory) (d s : Z) (n : nat) : memory :=
  match n with
  | O => m
  | S n => memmove_back (<[d - 1 := ld8 m (s - 1)]> m) (d - 1) (s - 1) n
  end.

(** [while(n-- > 0) *d++ = *s++;] *)
Fixpoint memmove_fwd (m : memory) (d s : Z) (n : nat) : memory :=
  match n with
  | O => m
  | S n => memmove_fwd (<[d := ld8 m s]> m) (d + 1) (s + 1) n
  end.

Definition memmove (m : memory) (dst src n : Z) : memory :=
  if n =? 0 then m
  else if (src <? dst) && (dst <? src + n)
  then memmove_back m (dst + n) (src + n) (Z.to_nat n)
  else memmove_fwd m dst src (Z.to_nat n).

Definition memcpy (m : memory) (dst src n : Z) : memory := memmove m dst src n.

Fixpoint strncmp_loop (m : memory) (p q : Z) (n : nat) : Z :=
  match n with
  | O => 0
  | S n =>
      if negb (ld8 m p =? 0) && (ld8 m p =? ld8 m q)
      then strncmp_loop m (p + 1) (q + 1) n
      else ld8 m p - ld8 m q
  end.

Definition strncmp (m : memory) (p q n : Z) : Z := strncmp_loop m p q (Z.to_nat n).

(** The first loop copies up to and including a NUL, the second pads. *)
Fixpoint strncpy_loop (m : memory) (s t : Z) (n : nat) : memory :=
  match n with
  | O => m
  | S n =>
      let c := ld8 m t in
      let m := <[s := c]> m in
      if c =? 0 then memset_loop m (s + 1) 0 n else strncpy_loop m (s + 1) (t + 1) n
  end.

Definition strncpy (m : memory) (s t n : Z) : memory := strncpy_loop m s t (Z.to_nat n).

(** [while(--n > 0 && ( *s++ = *t++ ) != 0) ; *s = 0;] *)
Fixpoint safestrcpy_loop (m : memory) (s t : Z) (n : nat) : memory :=
  match n with
  | O => <[s := 0]> m
  | S n =>
      let c := ld8 m t in
      let m := <[s := c]> m in
      if c =? 0 then <[s + 1 := 0]> m else safestrcpy_loop m (s + 1) (t + 1) n
  end.

Definition safestrcpy (m : memory) (s t n : Z) : memory :=
  if n <=? 0 then m else safestrcpy_loop m s t (Z.to_nat (n - 1)).

(** [for(n = 0; s[n]; n++) ;], with fuel for the number of bytes read. *)
Fixpoint strlen_loop (m : memory) (s : Z) (n : Z) (fuel : nat) : option Z :=
  match fuel with
  | O => None
  | S fuel => if ld8 m (s + n) =? 0 then Some n else strlen_loop m s (n + 1) fuel
  end.

Definition strlen (fuel : nat) (m : memory) (s : Z) : option Z := strlen_loop m s 0 fuel.

(** ** Lemmas *)

Lemma lookup_memset_loop m d c (n : nat) x :
  memset_loop m d c n !!! x = if decide (d <= x < d + n) then u8 c else m !!! x.
Proof.
  revert m d. induction n as [|n IH]; intros m d; simpl memset_loop.
  { rewrite decide_False by lia. done. }
  rewrite IH. destruct (decide (x = d)) as [->|].
  - rewrite decide_False, decide_True by lia. by rewrite lookup_total_insert_eq.
  - rewrite lookup_total_insert_ne by done. repeat case_decide; done || lia.
Qed.

Lemma lookup_memset m d c n x :
  memset m d c n !!! x = if decide (d <= x < d + n) then u8 c else m !!! x.
Proof. unfold memset. rewrite lookup_memset_loop. repeat case_decide; done || lia. Qed.

(** Filling a page changes that page only, and makes its words constant. *)
Lemma same_except_memset_page m p c : aligned p -> same_except {[p]} m (memset m p c PGSIZE).
Proof.
  intros Hp a Ha. rewrite lookup_memset, decide_False; [done|].
  intros ?. apply Ha. rewrite (pg_in p) by done. set_solver.
Qed.

Lemma ld64_memset_zero m d n a : d <= a -> a + 8 <= d + n -> ld64 (memset m d 0 n) a = 0.
Proof.
  intros. Transparent ld64. unfold ld64. simpl ld_bytes.
  rewrite !lookup_memset, !decide_True by lia. done. Opaque ld64.
Qed.

Lemma ld8_memset_zero m d n a : d <= a < d + n -> ld8 (memset m d 0 n) a = 0.
Proof. intros. unfold ld8. by rewrite lookup_memset, decide_True. Qed.

Lemma lookup_memmove_fwd m d s (n : nat) x :
  (s < d -> s + n <= d) ->
  memmove_fwd m d s n !!! x
  = if decide (d <= x < d + n) then ld8 m (s + (x - d)) else m !!! x.
Proof.
  revert m d s. induction n as [|n IH]; intros m d s Hov; simpl memmove_fwd.
  { rewrite decide_False by lia. done. }
  rewrite IH by lia. destruct (decide (x = d)) as [->|].
  - rewrite decide_False, decide_True, lookup_total_insert_eq by lia. f_equal. lia.
  - rewrite (lookup_total_insert_ne _ d x) by done.
    destruct (decide (d + 1 <= x < d + 1 + n)).
    + rewrite decide_True by lia. unfold ld8.
      rewrite lookup_total_insert_ne by lia. do 2 f_equal. lia.
    + rewrite decide_False by lia. done.
Qed.

Lemma lookup_memmove_back m d s (n : nat) x :
  s < d ->
  memmove_back m d s n !!! x
  = if decide (d - n <= x < d) then ld8 m (s - (d - x)) else m !!! x.
Proof.
  revert m d s. induction n as [|n IH]; intros m d s Hov; simpl memmove_back.
  { rewrite decide_False by lia. done. }
  rewrite IH by lia. destruct (decide (x = d - 1)) as [->|].
  - rewrite decide_False, decide_True, lookup_total_insert_eq by lia. f_equal. lia.
  - rewrite (lookup_total_insert_ne _ (d - 1) x) by done.
    destruct (decide (d - 1 - n <= x < d - 1)).
    + rewrite decide_True by lia. unfold ld8.
      rewrite lookup_total_insert_ne by lia. do 2 f_equal. lia.
    + rewrite decide_False by lia. done.
Qed.

Lemma lookup_memmove m dst src n x :
  0 <= n ->
  memmove m dst src n !!! x
  = if decide (dst <= x < dst + n) then ld8 m (src + (x - dst)) else m !!! x.
Proof.
  intros Hn. unfold memmove. destruct (Z.eqb_spec n 0) as [->|].
  { rewrite decide_False by lia. done. }
  destruct (_ && _) eqn:E; bool_prop.
  - rewrite lookup_memmove_back by lia.
    repeat case_decide; try lia; try done. f_equal. lia.
  - rewrite lookup_memmove_fwd; [repeat case_decide; try lia; done|].
    destruct E; bool_prop; lia.
Qed.

Lemma same_except_memmove_page m p src :
  aligned p -> same_except {[p]} m (memmove m p src PGSIZE).
Proof.
  intros Hp a Ha. rewrite lookup_memmove, decide_False; [done| |by layout].
  intros ?. apply Ha. rewrite (pg_in p) by done. set_solver.
Qed.

Lemma strlen_loop_spec m s k n fuel :
  0 <= n <= k -> (forall i, n <= i < k -> ld8 m (s + i) <> 0) -> ld8 m (s + k) = 0 ->
  (Z.to_nat (k - n) < fuel)%nat -> strlen_loop m s n fuel = Some k.
Proof.
  revert n. induction fuel as [|fuel IH]; intros n Hn Hnz Hz Hf; [lia|]. simpl.
  destruct (Z.eqb_spec (ld8 m (s + n)) 0) as [E|E].
  - f_equal. destruct (decide (n = k)); [done|]. exfalso. apply (Hnz n); [lia|done].
  - assert (n <> k) by (intros ->; done).
    apply IH; [lia|intros; apply Hnz; lia|done|lia].
Qed.

Lemma safestrcpy_loop_out m s t (n : nat) x :
  x < s \/ s + Z.of_nat n < x -> safestrcpy_loop m s t n !!! x = m !!! x.
Proof.
  revert m s t. induction n as [|n IH]; intros m s t Hx; simpl.
  { rewrite lookup_total_insert_ne by lia. done. }
  destruct (_ =? 0).
  - rewrite !lookup_total_insert_ne by lia. done.
  - rewrite IH by lia. by rewrite lookup_total_insert_ne by lia.
Qed.

(** The terminator [safestrcpy] leaves is the first NUL of [t] or the last
    byte of the buffer, whichever comes first. *)
Lemma safestrcpy_loop_spec m s t (n : nat) k :
  (forall i j, 0 <= i <= n -> 0 <= j <= n -> s + i <> t + j) ->
  0 <= k <= Z.of_nat n -> (forall i, 0 <= i < k -> ld8 m (t + i) <> 0) ->
  (k = n \/ ld8 m (t + k) = 0) ->
  ld8 (safestrcpy_loop m s t n) (s + k) = 0 /\
  (forall i, 0 <= i < k -> ld8 (safestrcpy_loop m s t n) (s + i) = ld8 m (t + i)).
Proof.
  revert m s t k. induction n as [|n IH]; intros m s t k Hdis Hk Hnz Hend; simpl.
  { assert (k = 0) as -> by lia. split; [|lia].
    unfold ld8. rewrite Z.add_0_r, lookup_total_insert_eq. done. }
  assert (forall i, 0 <= i <= Z.of_nat (S n) -> ld8 (<[s := ld8 m t]> m) (t + i) = ld8 m (t + i)) as Hm'.
  { intros i Hi. unfold ld8. rewrite lookup_total_insert_ne; [done|].
    specialize (Hdis 0 i). lia. }
  destruct (Z.eqb_spec (ld8 m t) 0) as [E|E].
  - assert (k = 0) as ->. { destruct (decide (k = 0)); [done|]. specialize (Hnz 0). rewrite Z.add_0_r in Hnz. lia. }
    split; [|lia]. unfold ld8 at 1. rewrite Z.add_0_r, lookup_total_insert_ne, lookup_total_insert_eq by lia.
    rewrite E. done.
  - assert (k <> 0) as Hk0. { intros ->. destruct Hend as [?|Hz]; [lia|]. by rewrite Z.add_0_r in Hz. }
    destruct (IH (<[s := ld8 m t]> m) (s + 1) (t + 1) (k - 1)) as [H1 H2]; [| | | |split].
    + intros i j ? ?. specialize (Hdis (i + 1) (j + 1)). lia.
    + lia.
    + intros i Hi. rewrite <- Z.add_assoc, Hm' by lia. apply Hnz. lia.
    + destruct Hend as [|Hz]; [left; lia|right]. rewrite <- Z.add_assoc, Hm' by lia.
      by replace (1 + (k - 1)) with k by lia.
    + by replace (s + k) with (s + 1 + (k - 1)) by lia.
    + intros i Hi. destruct (decide (i = 0)) as [->|].
      * unfold ld8 at 1. rewrite safestrcpy_loop_out, !Z.add_0_r, lookup_total_insert_eq by lia.
        unfold ld8. apply Z.mod_mod. lia.
      * replace (s + i) with (s + 1 + (i - 1)) by lia. rewrite H2 by lia.
        rewrite <- Z.add_assoc, Hm' by lia. f_equal. lia.
Qed.
