(* ===== verification/Kalloc.v ===== *)
(** * The physical page allocator (kernel/kalloc.c)

    [kmem.freelist] is a singly linked list threaded through the first word
    of each free page.  [kalloc_inv s L] relates the list in memory to the
    list [L] of free pages; the operations are shown to push and pop [L], to
    touch only the page they are given, and to panic exactly on the addresses
    the code rejects.  The critical sections of [kmem.lock] are atomic. *)

From S2P Require Import Prelude Riscv Mem Kstring.

(** Physical memory and the global [kmem.freelist]. *)
Record phys := mk_phys { mem : memory; freelist : Z }.

Definition set_mem (m : memory) (s : phys) : phys := mk_phys m (freelist s).
Definition set_freelist (p : Z) (s : phys) : phys := mk_phys (mem s) p.

(** Memory accesses of kernel code, as commands. *)
Definition load64 (a : Z) : M phys Z := gets (fun s => ld64 (mem s) a).
Definition store64 (a v : Z) : M phys unit := modify (fun s => set_mem (st64 (mem s) a v) s).
Definition do_memset (dst c n : Z) : M phys unit := modify (fun s => set_mem (memset (mem s) dst c n) s).
Definition do_memmove (dst src n : Z) : M phys unit := modify (fun s => set_mem (memmove (mem s) dst src n) s).

Section kalloc.
Context `{Linker}.

(** ** Operations *)

Definition kfree (pa : Z) : M phys unit :=
  if negb (pa mod PGSIZE =? 0) || (pa <? kend) || (PHYSTOP <=? pa)
  then panic "kfree"
  else
    do_memset pa 1 PGSIZE;;
    fl ← gets freelist;
    store64 pa fl;;
    modify (set_freelist pa).

Definition kalloc : M phys Z :=
  r ← gets freelist;
  (if negb (r =? 0) then next ← load64 r; modify (set_freelist next) else mret tt);;
  (if negb (r =? 0) then do_memset r 5 PGSIZE else mret tt);;
  mret r.

(** [for(; p + PGSIZE <= pa_end; p += PGSIZE) kfree(p);] *)
Fixpoint freerange_loop (fuel : nat) (p pa_end : Z) : M phys unit :=
  match fuel with
  | O => diverge
  | S fuel =>
      if p + PGSIZE <=? pa_end
      then kfree p;; freerange_loop fuel (p + PGSIZE) pa_end
      else mret tt
  end.

Definition freerange (pa_start pa_end : Z) : M phys unit :=
  let p := PGROUNDUP pa_start in
  freerange_loop (S (Z.to_nat ((pa_end - p) / PGSIZE))) p pa_end.

Definition kinit : M phys unit := freerange kend PHYSTOP.

(** ** Invariant *)

(** A page the allocator manages. *)
Definition kpage (p : Z) : Prop := aligned p /\ kend <= p < PHYSTOP.

(** The linked list from [head] holds the pages [L] in order. *)
Fixpoint fl_rep (m : memory) (head : Z) (L : list Z) : Prop :=
  match L with
  | [] => head = 0
  | p :: L => head = p /\ fl_rep m (ld64 m p) L
  end.

Record kalloc_inv (s : phys) (L : list Z) : Prop := {
  ki_list : fl_rep (mem s) (freelist s) L;
  ki_pages : Forall kpage L;
  ki_nodup : NoDup L;
}.

Lemma kpage_pos p : kpage p -> 0 < p.
Proof.
  intros [_ [Hp _]]. pose proof etext_kend. pose proof (proj1 trampoline_range).
  pose proof (proj2 trampoline_range). plia.
Qed.

Lemma kpage_range p : kpage p -> KERNBASE < p /\ p + PGSIZE <= PHYSTOP.
Proof.
  intros [Ha [Hp1 Hp2]]. pose proof etext_kend. pose proof trampoline_range.
  unfold aligned in Ha. split; plia.
Qed.

Lemma kpage_aligned p : kpage p -> aligned p.
Proof. by intros []. Qed.
Hint Resolve kpage_aligned kpage_pos : xv6.

Lemma kpage_pte_range p : kpage p -> 0 <= p < 2 ^ 56.
Proof.
  intros Hp. pose proof (kpage_range p Hp). change (2 ^ 56) with 72057594037927936. plia.
Qed.

Lemma fl_rep_frame P m m' h L :
  same_except P m m' -> Forall kpage L -> P ## list_to_set L -> fl_rep m h L -> fl_rep m' h L.
Proof.
  intros Hs. revert h. induction L as [|p L IH]; intros h HL HP; [done|].
  apply Forall_cons in HL as [Hp HL]. intros [-> Hrep]. split; [done|].
  pose proof (same_except_ld64 P m m' p 0 Hs (kpage_aligned p Hp)) as E.
  rewrite Z.add_0_r in E. rewrite E; [apply IH; set_solver|set_solver|done|by layout].
Qed.

(** Writes outside the free pages keep the allocator's invariant. *)
Lemma kalloc_inv_frame P m s L :
  kalloc_inv s L -> same_except P (mem s) m -> P ## list_to_set L ->
  kalloc_inv (set_mem m s) L.
Proof. intros [Hrep Hpages Hnd] Hs HP. split; [|done..]. by eapply fl_rep_frame. Qed.

Lemma kalloc_inv_app s L1 p L2 : kalloc_inv s (L1 ++ p :: L2) -> kpage p /\ p ∉ L1 ++ L2.
Proof.
  intros [_ Hp Hn]. split.
  - by apply Forall_app in Hp as [_ [? _]%Forall_cons].
  - rewrite <- Permutation_middle in Hn. by apply NoDup_cons in Hn as [? _].
Qed.

(** ** Operations on the invariant *)

Lemma kfree_spec p s L :
  kalloc_inv s L -> kpage p -> p ∉ L ->
  wp (kfree p s) (fun _ s' => kalloc_inv s' (p :: L) /\ same_except {[p]} (mem s) (mem s')).
Proof.
  intros Hinv Hp HpL. pose proof (kpage_aligned p Hp) as Hal. destruct Hinv as [Hrep Hpg Hnd].
  unfold kfree. destruct Hp as [Ha Hb].
  replace (negb (p mod PGSIZE =? 0)) with false by (symmetry; apply negb_false_iff, Z.eqb_eq, Ha).
  replace (p <? kend) with false by (symmetry; apply Z.ltb_ge; lia).
  replace (PHYSTOP <=? p) with false by (symmetry; apply Z.leb_gt; lia).
  unfold do_memset, store64. msimpl.
  assert (same_except {[p]} (mem s) (st64 (memset (mem s) p 1 PGSIZE) p (freelist s))) as Hs.
  { eapply same_except_mono; [|eapply same_except_trans;
      [by apply same_except_memset_page|apply same_except_st64]].
    - rewrite pg_id by done. set_solver.
    - unfold aligned in Hal. plia. }
  split; [|done]. split; simpl; [split; [done|]|by constructor|by apply NoDup_cons].
  rewrite ld64_st64_eq.
  - eapply fl_rep_frame; [done|done|set_solver|done].
  - destruct L as [|q L]; simpl in Hrep; [lia|]. destruct Hrep as [-> _].
    apply Forall_cons in Hpg as [Hq%kpage_range _]. plia.
Qed.

Lemma kalloc_spec s L :
  kalloc_inv s L ->
  wp (kalloc s) (fun r s' =>
    match L with
    | [] => r = 0 /\ s' = s
    | p :: L' => r = p /\ kalloc_inv s' L' /\ same_except {[p]} (mem s) (mem s')
                 /\ forall a, p <= a < p + PGSIZE -> ld8 (mem s') a = 5
    end).
Proof.
  intros [Hrep Hpg Hnd]. unfold kalloc, load64, do_memset. msimpl.
  destruct L as [|p L]; simpl in Hrep.
  { rewrite Hrep. done. }
  destruct Hrep as [-> Hrep]. apply Forall_cons in Hpg as [Hp Hpg].
  apply NoDup_cons in Hnd as [HpL Hnd]. pose proof (kpage_pos p Hp).
  replace (p =? 0) with false by (symmetry; apply Z.eqb_neq; lia). simpl.
  assert (same_except {[p]} (mem s) (memset (mem s) p 5 PGSIZE)) as Hs
    by (apply same_except_memset_page; eauto with xv6).
  split_and!; [done| |done|].
  - split; simpl; [|done|done]. eapply fl_rep_frame; [done|done|set_solver|done].
  - intros a Ha. simpl. unfold ld8. by rewrite lookup_memset, decide_True.
Qed.

Lemma kfree_panics p s : ~ kpage p -> kfree p s = Panic "kfree".
Proof.
  intros Hp. unfold kfree. destruct (_ || _) eqn:E; [done|]. exfalso. bool_prop.
  apply Hp. split; [by unfold aligned|lia].
Qed.

(** Pages [p, p + PGSIZE, ...] below [e]. *)
Definition pages_from (p : Z) (n : nat) : list Z := (fun i : nat => p + i * PGSIZE) <$> seq 0 n.

Lemma elem_of_pages_from p n x :
  x ∈ pages_from p n <-> exists i : nat, (i < n)%nat /\ x = p + i * PGSIZE.
Proof.
  unfold pages_from. rewrite list_elem_of_fmap. setoid_rewrite elem_of_seq.
  split; intros [i Hi]; exists i; naive_solver lia.
Qed.

Lemma freerange_loop_spec fuel p e s L :
  kalloc_inv s L -> aligned p -> kend <= p -> p <= e -> e <= PHYSTOP ->
  (Z.to_nat ((e - p) / PGSIZE) < fuel)%nat ->
  (forall q, q ∈ L -> q < p) ->
  wp (freerange_loop fuel p e s) (fun _ s' =>
    exists L', kalloc_inv s' (L' ++ L) /\
      forall q, q ∈ L' <-> aligned q /\ p <= q /\ q + PGSIZE <= e).
Proof.
  revert p s L. induction fuel as [|fuel IH]; intros p s L Hinv Hal Hp Hpe He Hf HL; [lia|].
  simpl. destruct (Z.leb_spec (p + PGSIZE) e).
  - wp_step (kfree_spec p s L); [done|split; [done|plia]|intros ?%HL; lia|].
    intros _ s' [Hinv' _]. eapply wp_mono.
    + apply IH; [exact Hinv'|unfold aligned in *; plia|plia|lia|done| |].
      * assert ((e - p) / PGSIZE = (e - (p + PGSIZE)) / PGSIZE + 1) as E
          by (replace (e - p) with (e - (p + PGSIZE) + 1 * PGSIZE) by lia; rewrite Z.div_add; plia).
        assert (0 <= (e - (p + PGSIZE)) / PGSIZE) by (apply Z.div_pos; plia). lia.
      * intros q [->|Hq%HL]%elem_of_cons; plia.
    + intros _ s'' (L' & Hinv'' & HL'). exists (L' ++ [p]). split.
      { by rewrite <- app_assoc. }
      intros q. rewrite elem_of_app, list_elem_of_singleton, HL'.
      unfold aligned in *. split; [intros [?| ->]; plia|].
      intros (? & ? & ?). destruct (decide (q = p)); [by right|left]. plia.
  - exists []. split; [done|]. intros q. split; [by intros ?%not_elem_of_nil|].
    intros (Hq & ? & ?). unfold aligned in *. exfalso. plia.
Qed.

(** ** Traces of allocations and frees *)

(** The kernel's use of the allocator: [live] are the pages handed out and not
    yet freed.  A client frees only pages it holds. *)
Inductive kstep : phys * list Z -> phys * list Z -> Prop :=
| kstep_alloc s live p s' :
    kalloc s = Ret p s' -> p <> 0 -> kstep (s, live) (s', p :: live)
| kstep_fail s live s' :
    kalloc s = Ret 0 s' -> kstep (s, live) (s', live)
| kstep_free s live1 p live2 s' :
    kfree p s = Ret tt s' -> kstep (s, live1 ++ p :: live2) (s', live1 ++ live2)
| kstep_write s live m :
    (** the holders of the live pages write them *)
    same_except (list_to_set live) (mem s) m -> kstep (s, live) (set_mem m s, live).

(** The pages of the machine are split between the free list and [live]. *)
Definition partitioned (all : list Z) (c : phys * list Z) : Prop :=
  exists L, kalloc_inv c.1 L /\ Forall kpage c.2 /\ NoDup (c.2 ++ L) /\ c.2 ++ L ≡ₚ all.

Lemma kstep_partitioned all c c' : kstep c c' -> partitioned all c -> partitioned all c'.
Proof.
  intros Hstep (L & Hinv & Hlive & Hnd & Hperm). destruct Hstep; simpl in *.
  - pose proof (kalloc_spec s L Hinv) as Hwp. rewrite H0 in Hwp. simpl in Hwp.
    destruct L as [|q L]; [destruct Hwp; done|]. destruct Hwp as (-> & Hinv' & _).
    exists L. simpl. split_and!; [done| | |].
    + constructor; [|done]. destruct Hinv as [_ [? _]%Forall_cons _]. done.
    + rewrite <- Permutation_middle in Hnd. done.
    + by rewrite Permutation_middle.
  - pose proof (kalloc_spec s L Hinv) as Hwp. rewrite H0 in Hwp. simpl in Hwp.
    destruct L as [|q L].
    + destruct Hwp as [_ ->]. exists []. done.
    + exfalso. destruct Hwp as (Hq & _), Hinv as [_ [?%kpage_pos _]%Forall_cons _]. lia.
  - rewrite Forall_app, Forall_cons in Hlive. destruct Hlive as (? & Hp & ?).
    rewrite <- app_assoc in Hnd, Hperm. simpl in Hnd, Hperm.
    rewrite <- Permutation_middle in Hnd, Hperm.
    apply NoDup_cons in Hnd as Hnd'. destruct Hnd' as [Hin _].
    assert (p ∉ L) as HpL by set_solver.
    pose proof (kfree_spec p s L Hinv Hp HpL) as Hwp. rewrite H0 in Hwp. destruct Hwp as [Hinv' _].
    exists (p :: L). simpl. split_and!; [done|by apply Forall_app| |].
    + rewrite <- app_assoc. rewrite app_assoc, <- Permutation_middle, <- app_assoc. done.
    + rewrite <- Permutation_middle, <- app_assoc. done.
  - exists L. simpl. split_and!; [|done..].
    eapply kalloc_inv_frame; [done|done|]. apply NoDup_app in Hnd as (_ & Hd & _).
    intros x. rewrite !elem_of_list_to_set. apply Hd.
Qed.
End kalloc.

#[export] Hint Resolve kpage_aligned kpage_pos : xv6.
Global Opaque kalloc kfree.
