(* ===== verification/Vm.v ===== *)
(** * Virtual memory (kernel/vm.c)

    The operations on Sv39 page tables and on user address spaces, on the
    physical memory they live in.  A [pagetable_t] is the physical address of
    a table page; a [pte_t *] is the physical address of an entry.  Kernel
    buffers ([src] of [copyout], [dst] of [copyin] and [copyinstr]) are lists
    of bytes; everything else is in memory. *)

From S2P Require Import Prelude Riscv Mem Kstring Kalloc.

Section vm.
Context `{Linker}.

(** Address of [pagetable[i]]. *)
Definition pte_at (pagetable i : Z) : Z := pagetable + 8 * i.

(** The loop [for(int level = 2; level > 0; level--)] of [walk]. *)
Fixpoint walk_level (level : nat) (pagetable va : Z) (alloc : bool) : M phys Z :=
  match level with
  | O => mret (pte_at pagetable (PX 0 va))
  | S level' =>
      let pte := pte_at pagetable (PX level va) in
      v ← load64 pte;
      if has v PTE_V then walk_level level' (PTE2PA v) va alloc
      else if negb alloc then mret 0
      else
        pt ← kalloc;
        if pt =? 0 then mret 0
        else
          do_memset pt 0 PGSIZE;;
          store64 pte (Z.lor (PA2PTE pt) PTE_V);;
          walk_level level' pt va alloc
  end.

Definition walk (pagetable va : Z) (alloc : bool) : M phys Z :=
  if MAXVA <=? va then panic "walk" else walk_level 2 pagetable va alloc.

Definition walkaddr (pagetable va : Z) : M phys Z :=
  if MAXVA <=? va then mret 0
  else
    pte ← walk pagetable va false;
    if pte =? 0 then mret 0
    else
      v ← load64 pte;
      if negb (has v PTE_V) then mret 0
      else if negb (has v PTE_U) then mret 0
      else mret (PTE2PA v).

(** The [for(;;)] loop of [mappages]; it makes [size / PGSIZE] iterations. *)
Fixpoint mappages_loop (fuel : nat) (pagetable a last pa perm : Z) : M phys Z :=
  match fuel with
  | O => diverge
  | S fuel =>
      pte ← walk pagetable a true;
      if pte =? 0 then mret (-1)
      else
        v ← load64 pte;
        if has v PTE_V then panic "mappages: remap"
        else
          store64 pte (Z.lor (Z.lor (PA2PTE pa) perm) PTE_V);;
          if a =? last then mret 0
          else mappages_loop fuel pagetable (u64 (a + PGSIZE)) last (u64 (pa + PGSIZE)) perm
  end.

Definition mappages (pagetable va size pa perm : Z) : M phys Z :=
  if negb (va mod PGSIZE =? 0) then panic "mappages: va not aligned"
  else if negb (size mod PGSIZE =? 0) then panic "mappages: size not aligned"
  else if size =? 0 then panic "mappages: size"
  else mappages_loop (Z.to_nat (size / PGSIZE)) pagetable va (u64 (va + size - PGSIZE)) pa perm.

Definition kvmmap (kpgtbl va pa sz perm : Z) : M phys unit :=
  r ← mappages kpgtbl va sz pa perm;
  if negb (r =? 0) then panic "kvmmap" else mret tt.

(** [for(a = va; a < va + npages*PGSIZE; a += PGSIZE)] *)
Fixpoint uvmunmap_loop (fuel : nat) (pagetable a aend : Z) (do_free : bool) : M phys unit :=
  match fuel with
  | O => diverge
  | S fuel =>
      if a <? aend then
        pte ← walk pagetable a false;
        if pte =? 0 then panic "uvmunmap: walk"
        else
          v ← load64 pte;
          if negb (has v PTE_V) then panic "uvmunmap: not mapped"
          else if PTE_FLAGS v =? PTE_V then panic "uvmunmap: not a leaf"
          else
            (if do_free then kfree (PTE2PA v) else mret tt);;
            store64 pte 0;;
            uvmunmap_loop fuel pagetable (u64 (a + PGSIZE)) aend do_free
      else mret tt
  end.

Definition uvmunmap (pagetable va npages : Z) (do_free : bool) : M phys unit :=
  if negb (va mod PGSIZE =? 0) then panic "uvmunmap: not aligned"
  else uvmunmap_loop (S (Z.to_nat npages)) pagetable va (u64 (va + npages * PGSIZE)) do_free.

Definition uvmcreate : M phys Z :=
  pagetable ← kalloc;
  if pagetable =? 0 then mret 0
  else do_memset pagetable 0 PGSIZE;; mret pagetable.

(** [memmove] from a kernel buffer. *)
Definition store_bytes (a : Z) (l : list Z) : M phys unit :=
  modify (fun s => set_mem (st_bytes (mem s) a l) s).
Definition load_bytes (a n : Z) : M phys (list Z) :=
  gets (fun s => ld_bytes (mem s) a (Z.to_nat n)).

Definition uvmfirst (pagetable : Z) (src : list Z) : M phys unit :=
  if PGSIZE <=? length src then panic "uvmfirst: more than a page"
  else
    mem ← kalloc;
    do_memset mem 0 PGSIZE;;
    mappages pagetable 0 PGSIZE mem (Z.lor (Z.lor (Z.lor PTE_W PTE_R) PTE_X) PTE_U);;
    store_bytes mem src.

(** [npages] is an [int] that [uvmunmap] takes as a [uint64]. *)
Definition uvmdealloc (pagetable oldsz newsz : Z) : M phys Z :=
  if oldsz <=? newsz then mret oldsz
  else
    (if PGROUNDUP newsz <? PGROUNDUP oldsz then
       let npages := to_int ((PGROUNDUP oldsz - PGROUNDUP newsz) / PGSIZE) in
       uvmunmap pagetable (PGROUNDUP newsz) (u64 npages) true
     else mret tt);;
    mret newsz.

(** [for(a = oldsz; a < newsz; a += PGSIZE)] *)
Fixpoint uvmalloc_loop (fuel : nat) (pagetable oldsz a newsz xperm : Z) : M phys Z :=
  match fuel with
  | O => diverge
  | S fuel =>
      if a <? newsz then
        mem ← kalloc;
        if mem =? 0 then uvmdealloc pagetable a oldsz;; mret 0
        else
          do_memset mem 0 PGSIZE;;
          r ← mappages pagetable a PGSIZE mem (Z.lor (Z.lor PTE_R PTE_U) xperm);
          if negb (r =? 0) then
            kfree mem;; uvmdealloc pagetable a oldsz;; mret 0
          else uvmalloc_loop fuel pagetable oldsz (u64 (a + PGSIZE)) newsz xperm
      else mret newsz
  end.

Definition uvmalloc (pagetable oldsz newsz xperm : Z) : M phys Z :=
  if newsz <? oldsz then mret oldsz
  else
    let oldsz := PGROUNDUP oldsz in
    uvmalloc_loop (S (Z.to_nat (PGROUNDUP (newsz - oldsz) / PGSIZE))) pagetable oldsz oldsz newsz xperm.

(** The loop over the 512 entries of a table; [rec] is the recursive call. *)
Fixpoint freewalk_loop (rec : Z -> M phys unit) (n : nat) (pagetable i : Z) : M phys unit :=
  match n with
  | O => mret tt
  | S n =>
      pte ← load64 (pte_at pagetable i);
      (if has pte PTE_V && (Z.land pte (Z.lor (Z.lor PTE_R PTE_W) PTE_X) =? 0) then
         rec (PTE2PA pte);; store64 (pte_at pagetable i) 0
       else if has pte PTE_V then panic "freewalk: leaf"
       else mret tt);;
      freewalk_loop rec n pagetable (i + 1)
  end.

(** [depth] bounds the recursion; page tables have three levels. *)
Fixpoint freewalk_depth (depth : nat) (pagetable : Z) : M phys unit :=
  match depth with
  | O => diverge
  | S depth => freewalk_loop (freewalk_depth depth) 512 pagetable 0;; kfree pagetable
  end.

Definition freewalk (pagetable : Z) : M phys unit := freewalk_depth 3 pagetable.

Definition uvmfree (pagetable sz : Z) : M phys unit :=
  (if 0 <? sz then uvmunmap pagetable 0 (PGROUNDUP sz / PGSIZE) true else mret tt);;
  freewalk pagetable.

(** [for(i = 0; i < sz; i += PGSIZE)], with the [err:] path. *)
Fixpoint uvmcopy_loop (fuel : nat) (old new i sz : Z) : M phys Z :=
  match fuel with
  | O => diverge
  | S fuel =>
      if i <? sz then
        pte ← walk old i false;
        if pte =? 0 then panic "uvmcopy: pte should exist"
        else
          v ← load64 pte;
          if negb (has v PTE_V) then panic "uvmcopy: page not present"
          else
            let pa := PTE2PA v in
            let flags := PTE_FLAGS v in
            mem ← kalloc;
            if mem =? 0 then uvmunmap new 0 (i / PGSIZE) true;; mret (-1)
            else
              do_memmove mem pa PGSIZE;;
              r ← mappages new i PGSIZE mem flags;
              if negb (r =? 0) then
                kfree mem;; uvmunmap new 0 (i / PGSIZE) true;; mret (-1)
              else uvmcopy_loop fuel old new (u64 (i + PGSIZE)) sz
      else mret 0
  end.

Definition uvmcopy (old new sz : Z) : M phys Z :=
  uvmcopy_loop (S (Z.to_nat (PGROUNDUP sz / PGSIZE))) old new 0 sz.

Definition uvmclear (pagetable va : Z) : M phys unit :=
  pte ← walk pagetable va false;
  if pte =? 0 then panic "uvmclear"
  else v ← load64 pte; store64 pte (Z.land v (Z.lnot PTE_U)).

(** ** Copying between the kernel and user space *)

(** [while(len > 0)]; [src] is what is left to copy. *)
Fixpoint copyout_loop (fuel : nat) (pagetable dstva : Z) (src : list Z) : M phys Z :=
  match fuel with
  | O => diverge
  | S fuel =>
      if 0 <? length src then
        let va0 := PGROUNDDOWN dstva in
        if MAXVA <=? va0 then mret (-1)
        else
          pte ← walk pagetable va0 false;
          if pte =? 0 then mret (-1)
          else
            v ← load64 pte;
            if negb (has v PTE_V) || negb (has v PTE_U) || negb (has v PTE_W) then mret (-1)
            else
              let pa0 := PTE2PA v in
              let n := PGSIZE - (dstva - va0) in
              let n := if length src <? n then Z.of_nat (length src) else n in
              store_bytes (pa0 + (dstva - va0)) (take (Z.to_nat n) src);;
              copyout_loop fuel pagetable (va0 + PGSIZE) (drop (Z.to_nat n) src)
      else mret 0
  end.

Definition copyout (pagetable dstva : Z) (src : list Z) : M phys Z :=
  copyout_loop (S (length src)) pagetable dstva src.

(** Returns the C result and the bytes written to [dst]. *)
Fixpoint copyin_loop (fuel : nat) (pagetable srcva len : Z) (dst : list Z) : M phys (Z * list Z) :=
  match fuel with
  | O => diverge
  | S fuel =>
      if 0 <? len then
        let va0 := PGROUNDDOWN srcva in
        pa0 ← walkaddr pagetable va0;
        if pa0 =? 0 then mret (-1, dst)
        else
          let n := PGSIZE - (srcva - va0) in
          let n := if len <? n then len else n in
          bs ← load_bytes (pa0 + (srcva - va0)) n;
          copyin_loop fuel pagetable (u64 (va0 + PGSIZE)) (len - n) (dst ++ bs)
      else mret (0, dst)
  end.

Definition copyin (pagetable srcva len : Z) : M phys (Z * list Z) :=
  copyin_loop (S (Z.to_nat len)) pagetable srcva len [].

(** The inner loop of [copyinstr] over the bytes of one page: the bytes
    written to [dst] and whether a NUL was found. *)
Fixpoint copyinstr_bytes (m : memory) (p : Z) (n : nat) : list Z * bool :=
  match n with
  | O => ([], false)
  | S n =>
      if ld8 m p =? 0 then ([0], true)
      else let '(bs, b) := copyinstr_bytes m (p + 1) n in (ld8 m p :: bs, b)
  end.

Fixpoint copyinstr_loop (fuel : nat) (pagetable srcva max : Z) (dst : list Z) : M phys (Z * list Z) :=
  match fuel with
  | O => diverge
  | S fuel =>
      if 0 <? max then
        let va0 := PGROUNDDOWN srcva in
        pa0 ← walkaddr pagetable va0;
        if pa0 =? 0 then mret (-1, dst)
        else
          let n := PGSIZE - (srcva - va0) in
          let n := if max <? n then max else n in
          r ← gets (fun s => copyinstr_bytes (mem s) (pa0 + (srcva - va0)) (Z.to_nat n));
          let '(bs, got_null) := r in
          if (got_null : bool) then mret (0, dst ++ bs)
          else copyinstr_loop fuel pagetable (u64 (va0 + PGSIZE)) (max - n) (dst ++ bs)
      else mret (-1, dst)
  end.

Definition copyinstr (pagetable srcva max : Z) : M phys (Z * list Z) :=
  copyinstr_loop (S (Z.to_nat max)) pagetable srcva max [].

(** ** The kernel page table *)

(** [proc_mapstacks] of kernel/proc.c: a stack page for each process. *)
Fixpoint proc_mapstacks_loop (n : nat) (kpgtbl p : Z) : M phys unit :=
  match n with
  | O => mret tt
  | S n =>
      pa ← kalloc;
      if pa =? 0 then panic "kalloc"
      else
        kvmmap kpgtbl (KSTACK p) pa PGSIZE (Z.lor PTE_R PTE_W);;
        proc_mapstacks_loop n kpgtbl (p + 1)
  end.

Definition proc_mapstacks (kpgtbl : Z) : M phys unit :=
  proc_mapstacks_loop (Z.to_nat NPROC) kpgtbl 0.

Definition kvmmake : M phys Z :=
  kpgtbl ← kalloc;
  do_memset kpgtbl 0 PGSIZE;;
  kvmmap kpgtbl UART0 UART0 PGSIZE (Z.lor PTE_R PTE_W);;
  kvmmap kpgtbl VIRTIO0 VIRTIO0 PGSIZE (Z.lor PTE_R PTE_W);;
  kvmmap kpgtbl PLIC PLIC 0x400000 (Z.lor PTE_R PTE_W);;
  kvmmap kpgtbl KERNBASE KERNBASE (etext - KERNBASE) (Z.lor PTE_R PTE_X);;
  kvmmap kpgtbl etext etext (PHYSTOP - etext) (Z.lor PTE_R PTE_W);;
  kvmmap kpgtbl TRAMPOLINE trampoline PGSIZE (Z.lor PTE_R PTE_X);;
  proc_mapstacks kpgtbl;;
  mret kpgtbl.

(** [sfence_vma] has no effect here: address translation is not cached. *)
Definition kvminithart (kernel_pagetable : Z) : M hart unit := w_satp (MAKE_SATP kernel_pagetable).
End vm.
