(* ===== verification/VmPt.v ===== *)
(** * Page tables: the tree in memory and the map it denotes

    A page table is a three-level tree of table pages.  [pt_inv m root T]
    says that the pages of [T] form that tree below [root]: [T] labels every
    table page with its level and with the prefix of the virtual addresses it
    serves, interior entries point to the page with the extended prefix, and
    every page but the root hangs off its parent.  [leaf m root va] is the
    entry the tree holds for [va] (0 when a table is missing): the abstract
    map that [walk], [mappages] and [uvmunmap] are specified against. *)

From S2P Require Import Prelude Riscv Mem Kstring Kalloc Vm.

(** ** The abstract map *)

(** The entry address [walk] reaches from table [p] at level [n]. *)
Fixpoint slot (n : nat) (m : memory) (p va : Z) : option Z :=
  match n with
  | O => Some (pte_at p (PX 0 va))
  | S n' =>
      let e := ld64 m (pte_at p (PX n va)) in
      if has e PTE_V then slot n' m (PTE2PA e) va else None
  end.

Definition leaf_at (n : nat) (m : memory) (p va : Z) : Z :=
  match slot n m p va with Some a => ld64 m a | None => 0 end.

Definition leaf (m : memory) (root va : Z) : Z := leaf_at 2 m root va.

(** The prefix of [va] that selects a table at level [n]. *)
Definition prefix (n : nat) (va : Z) : Z := va / 2 ^ (12 + 9 * (n + 1)).

(** Same virtual page. *)
Definition vpn (va : Z) : Z := va / PGSIZE.

Abbreviation tables := (gmap Z (nat * Z)).

Section pt.
Context `{Linker}.

Record pt_inv (m : memory) (root : Z) (T : tables) : Prop := {
  pi_root : T !! root = Some (2%nat, 0);
  pi_page p l : T !! p = Some l -> kpage p;
  pi_level p n pre : T !! p = Some (n, pre) -> (n <= 2)%nat /\ 0 <= pre /\ (n = 2%nat -> p = root);
  pi_bound p (n : nat) pre : T !! p = Some (n, pre) -> pre * 2 ^ (12 + 9 * (n + 1)) < MAXVA;
  pi_child p n pre i : T !! p = Some (S n, pre) -> 0 <= i < 512 ->
    has (ld64 m (pte_at p i)) PTE_V = true ->
    PTE_FLAGS (ld64 m (pte_at p i)) = PTE_V /\
    T !! PTE2PA (ld64 m (pte_at p i)) = Some (n, pre * 512 + i);
  pi_parent p n pre : T !! p = Some (n, pre) -> (n < 2)%nat ->
    exists q, T !! q = Some (S n, pre / 512) /\
      has (ld64 m (pte_at q (pre mod 512))) PTE_V = true /\
      PTE2PA (ld64 m (pte_at q (pre mod 512))) = p;
}.

(** ** Prefixes *)

Lemma prefix_step n va : 0 <= va -> prefix (S n) va * 512 + PX (S n) va = prefix n va.
Proof.
  intros. unfold prefix. rewrite PX_val by lia.
  replace (12 + 9 * (S n + 1)) with (12 + 9 * (n + 1) + 9) by lia.
  replace (12 + 9 * S n) with (12 + 9 * (n + 1)) by lia.
  rewrite Z.pow_add_r, <- Z.div_div by lia. change (2 ^ 9) with 512.
  set (x := va / 2 ^ (12 + 9 * (n + 1))). zdm.
Qed.

Lemma prefix_2 va : 0 <= va < MAXVA -> prefix 2 va = 0.
Proof. intros. unfold prefix. apply Z.div_small. simpl. plia. Qed.

Lemma prefix_PX0_vpn va : 0 <= va -> prefix 0 va * 512 + PX 0 va = vpn va.
Proof.
  intros. unfold prefix, vpn. rewrite PX_val by lia.
  change (2 ^ (12 + 9 * (0%nat + 1))) with (4096 * 512). change (2 ^ (12 + 9 * 0)) with 4096.
  rewrite <- Z.div_div by lia. layout. set (x := va / 4096). zdm.
Qed.

Lemma pte_at_8 p i : aligned p -> pte_at p i mod 8 = 0.
Proof. unfold aligned, pte_at. plia. Qed.

Lemma pte_at_pg p i : aligned p -> 0 <= i < 512 -> pg (pte_at p i) = p.
Proof. intros. apply pg_in; [done|]. unfold pte_at. plia. Qed.

Lemma pte_at_inj p q i j :
  aligned p -> aligned q -> 0 <= i < 512 -> 0 <= j < 512 ->
  pte_at p i = pte_at q j -> p = q /\ i = j.
Proof. unfold aligned, pte_at. plia. Qed.

(** Distinct entries do not overlap. *)
Lemma ld64_st64_pte m p q i j v :
  aligned p -> aligned q -> 0 <= i < 512 -> 0 <= j < 512 -> (p, i) <> (q, j) ->
  ld64 (st64 m (pte_at p i) v) (pte_at q j) = ld64 m (pte_at q j).
Proof.
  intros Hp Hq Hi Hj Hne. apply ld64_st64_ne.
  assert (p <> q \/ i <> j) by (destruct (decide (p = q)), (decide (i = j)); naive_solver).
  unfold aligned, pte_at in *. plia.
Qed.

Lemma same_except_pte P m m' p i :
  same_except P m m' -> aligned p -> p ∉ P -> 0 <= i < 512 ->
  ld64 m' (pte_at p i) = ld64 m (pte_at p i).
Proof. intros. eapply same_except_ld64; [done|done|done|lia|plia]. Qed.

(** ** Walking in a well-formed tree *)

Section inv.
Context {m : memory} {root : Z} {T : tables} (Hpt : pt_inv m root T).

Lemma pt_aligned p l : T !! p = Some l -> aligned p.
Proof. intros Hp. eapply kpage_aligned, pi_page; eauto. Qed.

(** A page has one place in the tree. *)
Lemma pt_label_inj p q l : T !! p = Some l -> T !! q = Some l -> p = q.
Proof.
  destruct l as [n pre]. intros Hp Hq.
  destruct (pi_level _ _ _ Hpt _ _ _ Hp) as (Hn & _ & Hr).
  destruct (pi_level _ _ _ Hpt _ _ _ Hq) as (_ & _ & Hr').
  assert (forall p q pre, T !! p = Some (1%nat, pre) -> T !! q = Some (1%nat, pre) -> p = q) as H1.
  { intros p1 q1 pre1 Hp1 Hq1.
    destruct (pi_parent _ _ _ Hpt _ _ _ Hp1) as (r & Hr1 & _ & <-); [lia|].
    destruct (pi_parent _ _ _ Hpt _ _ _ Hq1) as (r' & Hr1' & _ & <-); [lia|].
    apply (pi_level _ _ _ Hpt) in Hr1 as (_ & _ & ->); [|done].
    apply (pi_level _ _ _ Hpt) in Hr1' as (_ & _ & ->); done. }
  destruct n as [|[|[|]]]; [| |by rewrite Hr, Hr'|lia].
  - destruct (pi_parent _ _ _ Hpt _ _ _ Hp) as (r & Hr1 & _ & <-); [lia|].
    destruct (pi_parent _ _ _ Hpt _ _ _ Hq) as (r' & Hr1' & _ & <-); [lia|].
    by rewrite (H1 _ _ _ Hr1 Hr1').
  - by eapply H1.
Qed.

Lemma slot_label n p va a :
  0 <= va -> T !! p = Some (n, prefix n va) -> slot n m p va = Some a ->
  exists p0, T !! p0 = Some (0%nat, prefix 0 va) /\ a = pte_at p0 (PX 0 va).
Proof.
  intros Hva. revert p. induction n as [|n IH]; intros p Hp; simpl.
  { intros [= <-]. eauto. }
  destruct (has _ _) eqn:E; [|done]. apply IH.
  destruct (pi_child _ _ _ Hpt p n _ (PX (S n) va) Hp) as [_ Hc]; [apply PX_range; lia|done|].
  rewrite Hc. by rewrite prefix_step.
Qed.

Lemma slot_root_label va a :
  0 <= va < MAXVA -> slot 2 m root va = Some a ->
  exists p0, T !! p0 = Some (0%nat, prefix 0 va) /\ a = pte_at p0 (PX 0 va).
Proof.
  intros Hva. apply slot_label; [lia|]. rewrite prefix_2 by done. apply (pi_root _ _ _ Hpt).
Qed.

(** Every table is found by walking to it. *)
Lemma slot_up n q va :
  0 <= va -> (n < 2)%nat -> T !! q = Some (n, prefix n va) ->
  exists r, T !! r = Some (S n, prefix (S n) va) /\ slot (S n) m r va = slot n m q va.
Proof.
  intros Hva Hn Hq. destruct (pi_parent _ _ _ Hpt q n _ Hq Hn) as (r & Hr & Hv & Hpa).
  assert (0 <= PX (S n) va < 512) by (apply PX_range; lia).
  rewrite <- prefix_step in Hr, Hv, Hpa by lia.
  replace ((prefix (S n) va * 512 + PX (S n) va) / 512) with (prefix (S n) va) in Hr by zdm.
  replace ((prefix (S n) va * 512 + PX (S n) va) mod 512) with (PX (S n) va) in Hv, Hpa by zdm.
  exists r. split; [done|]. cbn [slot]. by rewrite Hv, Hpa.
Qed.

Lemma slot_of_table q va :
  0 <= va -> T !! q = Some (0%nat, prefix 0 va) -> slot 2 m root va = Some (pte_at q (PX 0 va)).
Proof.
  intros Hva Hq. destruct (slot_up 0 q va Hva ltac:(lia) Hq) as (r & Hr & E1).
  destruct (slot_up 1 r va Hva ltac:(lia) Hr) as (r' & Hr' & E2).
  destruct (pi_level _ _ _ Hpt _ _ _ Hr') as (_ & _ & Hroot).
  rewrite <- (Hroot eq_refl), E2, E1. done.
Qed.

(** [slot] reads only the interior entries. *)
Lemma slot_ext n p pre m' va :
  T !! p = Some (n, pre) ->
  (forall q k pre' i, T !! q = Some (S k, pre') -> 0 <= i < 512 ->
     ld64 m' (pte_at q i) = ld64 m (pte_at q i)) ->
  slot n m' p va = slot n m p va.
Proof.
  intros Hp Hm. revert p pre Hp. induction n as [|n IH]; intros p pre Hp; simpl; [done|].
  assert (0 <= PX (S n) va < 512) by (apply PX_range; lia).
  rewrite (Hm p n pre) by done. destruct (has _ _) eqn:E; [|done].
  eapply IH. apply (pi_child _ _ _ Hpt p n pre); done.
Qed.

(** Tables and leaves are untouched by writes to other pages. *)
Lemma pt_inv_frame P m' : same_except P m m' -> P ## dom T -> pt_inv m' root T.
Proof.
  intros Hs HP.
  assert (forall p l i, T !! p = Some l -> 0 <= i < 512 -> ld64 m' (pte_at p i) = ld64 m (pte_at p i)) as E.
  { intros p l i Hp Hi. eapply same_except_pte; [done|by eapply pt_aligned| |done].
    apply elem_of_dom_2 in Hp. set_solver. }
  split; [apply Hpt..| |].
  - intros p n pre i Hp Hi. rewrite (E p (S n, pre)) by done. by apply Hpt.
  - intros p n pre Hp Hn. destruct (pi_parent _ _ _ Hpt p n pre Hp Hn) as (q & Hq & ? & ?).
    exists q. rewrite (E q (S n, pre / 512)); [done|done|]. apply Z.mod_pos_bound. lia.
Qed.

Lemma leaf_frame P m' va :
  same_except P m m' -> P ## dom T -> 0 <= va < MAXVA -> leaf m' root va = leaf m root va.
Proof.
  intros Hs HP Hva. unfold leaf, leaf_at.
  rewrite (slot_ext 2 root 0 m' va (pi_root _ _ _ Hpt)).
  - destruct (slot 2 m root va) eqn:E; [|done].
    destruct (slot_root_label va z Hva E) as (p0 & Hp0 & ->).
    eapply same_except_pte; [done|by eapply pt_aligned| |apply PX_range; lia].
    apply elem_of_dom_2 in Hp0. set_solver.
  - intros q k pre i Hq Hi. eapply same_except_pte; [done|by eapply pt_aligned| |done].
    apply elem_of_dom_2 in Hq. set_solver.
Qed.

(** ** Writing a leaf entry *)

Context {va a : Z} (Hva : 0 <= va < MAXVA) (Ha : slot 2 m root va = Some a).

Lemma interior_st64 v q k pre i :
  T !! q = Some (S k, pre) -> 0 <= i < 512 ->
  ld64 (st64 m a v) (pte_at q i) = ld64 m (pte_at q i).
Proof.
  intros Hq Hi. destruct (slot_root_label va a Hva Ha) as (p0 & Hp0 & ->).
  apply ld64_st64_pte; [by eapply pt_aligned|by eapply pt_aligned|apply PX_range; lia|done|].
  intros [= -> _]. congruence.
Qed.

Lemma pt_inv_leaf v : pt_inv (st64 m a v) root T.
Proof.
  split; [apply Hpt..| |].
  - intros p n pre i Hp Hi. rewrite (interior_st64 v p n pre) by done. by apply Hpt.
  - intros p n pre Hp Hn. destruct (pi_parent _ _ _ Hpt p n pre Hp Hn) as (q & Hq & ? & ?).
    exists q. rewrite (interior_st64 v q n (pre / 512)); [done|done|]. apply Z.mod_pos_bound. lia.
Qed.

Lemma leaf_st64 v va' :
  0 <= v < 2 ^ 64 -> 0 <= va' < MAXVA ->
  leaf (st64 m a v) root va' = if decide (vpn va' = vpn va) then v else leaf m root va'.
Proof.
  intros Hv Hva'. unfold leaf, leaf_at.
  rewrite (slot_ext 2 root 0 (st64 m a v) va' (pi_root _ _ _ Hpt)) by (intros; by eapply interior_st64).
  destruct (slot_root_label va a Hva Ha) as (p0 & Hp0 & Ea).
  destruct (slot 2 m root va') as [a'|] eqn:E.
  - destruct (slot_root_label va' a' Hva' E) as (p0' & Hp0' & Ea').
    pose proof (prefix_PX0_vpn va ltac:(lia)). pose proof (prefix_PX0_vpn va' ltac:(lia)).
    pose proof (PX_range 0 va ltac:(lia)). pose proof (PX_range 0 va' ltac:(lia)).
    case_decide as Hd.
    + assert (prefix 0 va' = prefix 0 va /\ PX 0 va' = PX 0 va) as [E1 E2] by lia.
      rewrite E1 in Hp0'. rewrite (pt_label_inj _ _ _ Hp0' Hp0), E2, <- Ea in Ea'.
      subst a'. by apply ld64_st64_eq.
    + subst a a'. apply ld64_st64_pte; [by eapply pt_aligned|by eapply pt_aligned|done|done|].
      intros [= -> E2]. apply Hd. rewrite Hp0 in Hp0'. injection Hp0' as E1. lia.
  - case_decide as Hd; [|done]. exfalso.
    pose proof (prefix_PX0_vpn va ltac:(lia)). pose proof (prefix_PX0_vpn va' ltac:(lia)).
    pose proof (PX_range 0 va ltac:(lia)). pose proof (PX_range 0 va' ltac:(lia)).
    assert (slot 2 m root va' = slot 2 m root va) as E2; [|congruence].
    assert (va' / PGSIZE = va / PGSIZE) as Ev by done.
    assert (forall l, 0 <= l -> PX l va' = PX l va) as EPX.
    { intros l Hl. rewrite !PX_val by done. rewrite Z.pow_add_r by lia.
      rewrite <- !Z.div_div by lia. change (2 ^ 12) with PGSIZE. by rewrite Ev. }
    simpl. rewrite !EPX by lia. done.
Qed.

(** The entry a walk finds is an aligned word of a table page. *)
Lemma slot_pg : pg a ∈ dom T /\ a mod 8 = 0 /\ 0 < a.
Proof.
  destruct (slot_root_label va a Hva Ha) as (p0 & Hp0 & ->).
  pose proof (PX_range 0 va ltac:(lia)). pose proof (pt_aligned _ _ Hp0).
  rewrite pte_at_pg by done. split_and!; [by eapply elem_of_dom_2|by apply pte_at_8|].
  apply (pi_page _ _ _ Hpt) in Hp0 as ?%kpage_pos. unfold pte_at. lia.
Qed.

Lemma same_except_leaf v : same_except (dom T) m (st64 m a v).
Proof.
  destruct slot_pg as (? & ? & _).
  eapply same_except_mono; [|by apply same_except_st64]. set_solver.
Qed.
End inv.
End pt.
