(* ===== verification/VmWalk.v ===== *)
(** * [walk], [mappages] and [uvmunmap] against the abstract map

    [walk] without allocation is a read of the tree; with allocation it adds
    empty tables, which leaves the abstract map alone.  [mappages] and
    [uvmunmap] update exactly the entries of their range. *)

From S2P Require Import Prelude Riscv Mem Kstring Kalloc Vm VmPt.

Section walk.
Context `{Linker}.

(** Side conditions of the entry lemmas for a page of the allocator. *)
Ltac pte_side := first [by apply kpage_pte_range | by apply kpage_aligned | done].

Lemma walk_level_noalloc n p va s :
  walk_level n p va false s = Ret (default 0 (slot n (mem s) p va)) s.
Proof.
  revert p. induction n as [|n IH]; intros p; [done|].
  cbn [walk_level slot]. unfold load64. msimpl.
  destruct (has _ _); [apply IH|done].
Qed.

Lemma walk_noalloc root va s :
  va < MAXVA -> walk root va false s = Ret (default 0 (slot 2 (mem s) root va)) s.
Proof.
  intros Hva. unfold walk. replace (MAXVA <=? va) with false by (symmetry; apply Z.leb_gt; lia).
  apply walk_level_noalloc.
Qed.

(** ** Adding an empty table *)

Section new_table.
Context {m m0 : memory} {root : Z} {T : tables} (Hpt : pt_inv m root T).
Context {p i q pre : Z} {n : nat} (Hp : T !! p = Some (S n, pre)) (Hi : 0 <= i < 512)
  (Hfree : has (ld64 m (pte_at p i)) PTE_V = false)
  (Hq : kpage q) (HqT : q ∉ dom T) (Hm0 : same_except {[q]} m m0).

Let m1 := st64 (memset m0 q 0 PGSIZE) (pte_at p i) (Z.lor (PA2PTE q) PTE_V).
Let T1 : tables := <[q := (n, pre * 512 + i)]> T.

Lemma new_page_ne r l : T !! r = Some l -> r <> q.
Proof. intros Hr ->. by apply elem_of_dom_2 in Hr. Qed.

Lemma new_entry_range : 0 <= Z.lor (PA2PTE q) PTE_V < 2 ^ 64.
Proof.
  pose proof (mk_pte_range q PTE_V (kpage_pte_range q Hq) (kpage_aligned q Hq) ltac:(done)) as Hr.
  split; [apply Hr|]. eapply Z.lt_trans; [apply Hr|]. done.
Qed.

Lemma new_entry : ld64 m1 (pte_at p i) = Z.lor (PA2PTE q) PTE_V.
Proof. apply ld64_st64_eq, new_entry_range. Qed.

Lemma new_entry_pa : PTE2PA (Z.lor (PA2PTE q) PTE_V) = q.
Proof. apply mk_pte_pa; pte_side. Qed.

Lemma new_entry_flags : PTE_FLAGS (Z.lor (PA2PTE q) PTE_V) = PTE_V.
Proof. apply mk_pte_flags; pte_side. Qed.

Lemma new_entry_valid : has (Z.lor (PA2PTE q) PTE_V) PTE_V = true.
Proof. rewrite has_lor. change (has PTE_V PTE_V) with true. apply orb_true_r. Qed.

Lemma old_entry r l j :
  T !! r = Some l -> 0 <= j < 512 -> (r, j) <> (p, i) -> ld64 m1 (pte_at r j) = ld64 m (pte_at r j).
Proof.
  intros Hr Hj Hne. unfold m1.
  assert (aligned p) by by eapply pt_aligned. assert (aligned r) by by eapply pt_aligned.
  assert (r ∉ ({[q]} : gset Z)) by (rewrite elem_of_singleton; by eapply new_page_ne).
  rewrite ld64_st64_pte by (done || congruence).
  eapply same_except_pte; [|done|done|done].
  eapply same_except_mono; [|eapply same_except_trans;
    [exact Hm0|apply same_except_memset_page; by apply kpage_aligned]]. set_solver.
Qed.

Lemma zero_entry j : 0 <= j < 512 -> ld64 m1 (pte_at q j) = 0.
Proof.
  intros Hj. unfold m1. pose proof (kpage_aligned q Hq).
  assert (aligned p) by by eapply pt_aligned.
  pose proof (new_page_ne p _ Hp).
  rewrite ld64_st64_pte by (done || congruence).
  apply ld64_memset_zero; unfold pte_at; plia.
Qed.

Lemma leaf_at_zero k va : leaf_at k m1 q va = 0.
Proof.
  unfold leaf_at. destruct k as [|k]; simpl.
  - apply zero_entry, PX_range. lia.
  - rewrite zero_entry by (apply PX_range; lia). done.
Qed.

Lemma leaf_at_new k r l va :
  T !! r = Some (k, l) -> leaf_at k m1 r va = leaf_at k m r va.
Proof.
  revert r l. induction k as [|k IH]; intros r l Hr.
  - unfold leaf_at. simpl. apply (old_entry r _ _ Hr); [apply PX_range; lia|].
    intros [= -> _]. congruence.
  - assert (0 <= PX (S k) va < 512) as Hx by (apply PX_range; lia).
    destruct (decide ((r, PX (S k) va) = (p, i))) as [[= -> Ei]|Hne].
    + assert (k = n) as -> by congruence.
      unfold leaf_at at 2. simpl slot. rewrite Ei, Hfree.
      unfold leaf_at. simpl slot. rewrite Ei, new_entry, new_entry_valid, new_entry_pa.
      apply leaf_at_zero.
    + unfold leaf_at. simpl slot. rewrite (old_entry r _ _ Hr Hx Hne).
      destruct (has (ld64 m (pte_at r (PX (S k) va))) PTE_V) eqn:E; [|done].
      destruct (pi_child _ _ _ Hpt r k l _ Hr Hx E) as [_ Hc]. by eapply IH.
Qed.

Lemma pt_inv_new : (pre * 512 + i) * 2 ^ (12 + 9 * (n + 1)) < MAXVA -> pt_inv m1 root T1.
Proof.
  intros Hb.
  unfold T1.
  assert (forall r l, <[q:=(n, pre * 512 + i)]> T !! r = Some l ->
    (r = q /\ l = (n, pre * 512 + i)) \/ (r <> q /\ T !! r = Some l)) as Hcase.
  { intros r l. rewrite lookup_insert. case_decide; naive_solver. }
  destruct (pi_level _ _ _ Hpt p (S n) pre Hp) as (Hn & Hpre & _).
  split.
  - rewrite lookup_insert_ne; [apply Hpt|]. intros <-. eapply new_page_ne; [apply (pi_root _ _ _ Hpt)|done].
  - intros r l [[-> _]|[_ Hr]]%Hcase; [done|by eapply pi_page].
  - intros r k pre' [[-> [= -> ->]]|[_ Hr]]%Hcase; [split_and!; lia|by eapply pi_level].
  - intros r k pre' [[-> [= -> ->]]|[_ Hr]]%Hcase; [done|by eapply pi_bound].
  - intros r k pre' j [[-> _]|[Hne Hr]]%Hcase Hj.
    { rewrite zero_entry by done. done. }
    destruct (decide ((r, j) = (p, i))) as [[= -> ->]|Hne'].
    + intros _. assert (k = n /\ pre' = pre) as [-> ->] by (split; congruence).
      rewrite new_entry, new_entry_flags, new_entry_pa. split; [done|apply lookup_insert_eq].
    + rewrite (old_entry r _ j Hr Hj Hne'). intros Hv.
      destruct (pi_child _ _ _ Hpt r k pre' j Hr Hj Hv) as [? Hc]. split; [done|].
      rewrite lookup_insert_ne; [done|]. intros E. rewrite <- E in Hc. by eapply new_page_ne.
  - intros r k pre' [[-> [= -> ->]]|[Hne Hr]]%Hcase Hk.
    + exists p. replace ((pre * 512 + i) / 512) with pre by zdm.
      replace ((pre * 512 + i) mod 512) with i by zdm.
      rewrite new_entry, new_entry_pa, new_entry_valid. split_and!; [|done..].
      rewrite lookup_insert_ne; [done|]. by apply not_eq_sym, (new_page_ne p _ Hp).
    + destruct (pi_parent _ _ _ Hpt r k pre' Hr Hk) as (r' & Hr' & Hv & Hpa).
      exists r'. rewrite (old_entry r' _ _ Hr').
      * split_and!; [|done..]. rewrite lookup_insert_ne; [done|]. by apply not_eq_sym, (new_page_ne r' _ Hr').
      * apply Z.mod_pos_bound. lia.
      * intros [= -> E]. rewrite E in Hv. congruence.
Qed.

Lemma same_except_new : same_except (dom T1) m m1.
Proof.
  unfold m1, T1. rewrite dom_insert_L.
  assert (aligned p) by by eapply pt_aligned.
  eapply same_except_mono; [|eapply same_except_trans;
    [eapply same_except_trans; [exact Hm0|apply same_except_memset_page; by apply kpage_aligned]
    |apply same_except_st64; by apply pte_at_8]].
  rewrite pte_at_pg by done. apply elem_of_dom_2 in Hp. set_solver.
Qed.
End new_table.

(** ** Extensions of a page table *)

(** [s'] is [s] with more tables, taken from the front of the free list. *)
Record pt_ext (root : Z) (s s' : phys) (T T' : tables) (L L' : list Z) : Prop := {
  pe_pt : pt_inv (mem s') root T';
  pe_kalloc : kalloc_inv s' L';
  pe_sub : T ⊆ T';
  pe_used : exists L1, L = L1 ++ L' /\ dom T' = dom T ∪ list_to_set L1;
  pe_frame : same_except (dom T') (mem s) (mem s');
}.

Lemma pt_ext_refl root s T L : pt_inv (mem s) root T -> kalloc_inv s L -> pt_ext root s s T T L L.
Proof. intros. split; [done..| |done]. exists []. split; [done|]. set_solver. Qed.

Lemma pt_ext_trans root s1 s2 s3 T1 T2 T3 L1 L2 L3 :
  pt_ext root s1 s2 T1 T2 L1 L2 -> pt_ext root s2 s3 T2 T3 L2 L3 -> pt_ext root s1 s3 T1 T3 L1 L3.
Proof.
  intros [_ _ Hs1 (U1 & -> & Hd1) Hf1] [? ? Hs2 (U2 & -> & Hd2) Hf2]. split; [done|done|by etrans| |].
  - exists (U1 ++ U2). rewrite app_assoc. split; [done|]. rewrite Hd2, Hd1. set_solver.
  - eapply same_except_mono; [|by eapply same_except_trans]. rewrite Hd2. set_solver.
Qed.

Lemma pt_ext_disj root s s' T T' L L' :
  pt_ext root s s' T T' L L' -> NoDup L -> dom T ## list_to_set L -> dom T' ## list_to_set L'.
Proof.
  intros [_ _ _ (U & -> & ->) _] (_ & Hd & _)%NoDup_app HT. set_solver.
Qed.

(** Tables are added only on the way to addresses of [R]. *)
Definition new_at (R : Z -> Prop) (T T' : tables) : Prop :=
  forall q l, T' !! q = Some l -> T !! q = Some l \/ exists (k : nat) va, (k < 2)%nat /\ R va /\ l = (k, prefix k va).

Lemma new_at_refl R T : new_at R T T.
Proof. intros q l Hq. by left. Qed.

Lemma new_at_trans R T1 T2 T3 : new_at R T1 T2 -> new_at R T2 T3 -> new_at R T1 T3.
Proof. intros H1 H2 q l [Hq|?]%H2; [by apply H1|by right]. Qed.

Lemma new_at_mono (R R' : Z -> Prop) T T' : (forall va, R va -> R' va) -> new_at R T T' -> new_at R' T T'.
Proof. intros HR Hn q l [?|(k & va & ? & ? & ?)]%Hn; [by left|right; eauto 6]. Qed.

(** ** [walk] with allocation *)

Lemma walk_level_alloc n root p va s T L :
  kalloc_inv s L -> pt_inv (mem s) root T -> dom T ## list_to_set L ->
  0 <= va < MAXVA -> T !! p = Some (n, prefix n va) ->
  wp (walk_level n p va true s) (fun r s' => exists T' L',
    pt_ext root s s' T T' L L' /\
    (forall k q l va', T !! q = Some (k, l) -> leaf_at k (mem s') q va' = leaf_at k (mem s) q va') /\
    (forall q k l i, T !! q = Some (S k, l) -> 0 <= i < 512 ->
       has (ld64 (mem s) (pte_at q i)) PTE_V = true ->
       ld64 (mem s') (pte_at q i) = ld64 (mem s) (pte_at q i)) /\
    new_at (eq va) T T' /\
    ((r = 0 /\ L' = []) \/ slot n (mem s') p va = Some r)).
Proof.
  intros Hk Hpt Hdisj Hva. revert p s T L Hk Hpt Hdisj.
  induction n as [|n IH]; intros p s T L Hk Hpt Hdisj Hp.
  { simpl. exists T, L. split_and!; [by apply pt_ext_refl|done|done|apply new_at_refl|by right]. }
  assert (0 <= PX (S n) va < 512) as Hx by (apply PX_range; lia).
  cbn [walk_level]. unfold load64. msimpl. destruct (has _ _) eqn:E.
  - destruct (pi_child _ _ _ Hpt p n _ _ Hp Hx E) as [_ Hc]. rewrite prefix_step in Hc by lia.
    eapply wp_mono; [by eapply IH|].
    intros r s' (T' & L' & Hext & Hleaf & Hint & Hnew & Hr). exists T', L'. split_and!; [done..|].
    destruct Hr as [?|Hr]; [by left|right]. simpl. rewrite (Hint p n _ _ Hp Hx E), E. done.
  - fold (@mbind (M phys) _). apply wp_bind. eapply wp_mono; [by apply kalloc_spec|].
    intros q s1. destruct L as [|q' L].
    { intros [-> ->]. simpl. exists T, []. split_and!; [by apply pt_ext_refl|done|done|apply new_at_refl|by left]. }
    intros (-> & Hk1 & Hs1 & _). destruct (kalloc_inv_app _ [] _ _ Hk) as [Hq' HqL].
    simpl in HqL. pose proof (kpage_pos q' Hq').
    replace (q' =? 0) with false by (symmetry; apply Z.eqb_neq; lia).
    assert (q' ∉ dom T) as HqT by set_solver.
    unfold do_memset, store64. msimpl.
    set (s2 := set_mem _ _). set (T1 := <[q' := (n, prefix (S n) va * 512 + PX (S n) va)]> T : tables).
    assert ((prefix (S n) va * 512 + PX (S n) va) * 2 ^ (12 + 9 * (n + 1)) < MAXVA) as Hb.
    { rewrite prefix_step by lia. eapply Z.le_lt_trans; [|apply Hva]. unfold prefix.
      rewrite Z.mul_comm. apply Z.mul_div_le. lia. }
    pose proof (pt_inv_new Hpt Hp Hx E Hq' HqT Hs1 Hb) as Hpt2.
    pose proof (same_except_new Hpt Hp Hx E Hq' HqT Hs1) as Hs2.
    assert (kalloc_inv s2 L) as Hk2.
    { unfold s2. apply (kalloc_inv_frame (dom T1) _ s1); [done| |unfold T1; rewrite dom_insert_L; set_solver].
      simpl. eapply same_except_mono; [|eapply same_except_trans;
        [apply same_except_memset_page; by apply kpage_aligned
        |apply same_except_st64, pte_at_8, (pt_aligned Hpt p _ Hp)]].
      rewrite pte_at_pg by (done || apply (pt_aligned Hpt p _ Hp)). apply elem_of_dom_2 in Hp.
      unfold T1. rewrite dom_insert_L. set_solver. }
    assert (pt_ext root s s2 T T1 (q' :: L) L) as Hext1.
    { split; [done|done| | |done].
      - by apply insert_subseteq, not_elem_of_dom.
      - exists [q']. split; [done|]. unfold T1. rewrite dom_insert_L. set_solver. }
    eapply wp_mono.
    + apply (IH q' s2 T1 L); [done|done| |].
      * eapply pt_ext_disj; [done|by apply Hk|done].
      * unfold T1. rewrite lookup_insert_eq, prefix_step by lia. done.
    + intros r s3 (T' & L' & Hext & Hleaf & Hint & Hnew & Hr). exists T', L'.
      assert (forall q l, T !! q = Some l -> T1 !! q = Some l) as Hsub.
      { intros q l Hql. by eapply lookup_weaken, Hext1. }
      split_and!.
      * by eapply pt_ext_trans.
      * intros k q l va' Hql. rewrite (Hleaf k q l) by auto.
        by apply (leaf_at_new Hpt Hp Hx E Hq' HqT Hs1 k q l).
      * intros q k l j Hql Hj Hv.
        assert (ld64 (mem s2) (pte_at q j) = ld64 (mem s) (pte_at q j)) as E2.
        { apply (old_entry Hpt Hp Hx E Hq' HqT Hs1 q _ j Hql Hj). intros [= -> ->]. congruence. }
        rewrite (Hint q k l j) by (auto; by rewrite E2). done.
      * eapply new_at_trans; [|exact Hnew]. intros q l [[<- <-]|[_ Hq]]%lookup_insert_Some; [right|by left]. exists n, va. split_and!; [|done|by rewrite prefix_step by lia].
        destruct (pi_level _ _ _ Hpt _ _ _ Hp). lia.
      * destruct Hr as [?|Hr]; [by left|right]. simpl.
        assert (ld64 (mem s2) (pte_at p (PX (S n) va)) = Z.lor (PA2PTE q') PTE_V) as E2
          by (apply (new_entry Hq')).
        rewrite (Hint p n _ _ (Hsub _ _ Hp) Hx) by (rewrite E2; apply new_entry_valid).
        rewrite E2, new_entry_valid, new_entry_pa by done. done.
Qed.
End walk.
