(* ===== verification/VmMap.v ===== *)
(** * [mappages] and [uvmunmap] update the abstract map

    Over a range of pages [mappages] installs the entries
    [PA2PTE(pa) | perm | PTE_V] and [uvmunmap] clears them, both leaving every
    other virtual page alone; [uvmunmap] with [do_free] gives the pages back
    to the allocator. *)

From S2P Require Import Prelude Riscv Mem Kstring Kalloc Vm VmPt VmWalk.

Section map.
Context `{Linker}.

(** The entry [mappages] writes for the page at [pa]. *)
Definition mk_pte (pa perm : Z) : Z := Z.lor (Z.lor (PA2PTE pa) perm) PTE_V.

(** The virtual page of [va] lies in [n] pages from [a]. *)
Definition in_pages (a n va : Z) : Prop := a <= va < a + n * PGSIZE.
Global Instance in_pages_dec a n va : Decision (in_pages a n va).
Proof. unfold in_pages. apply _. Defined.

Lemma lor_V perm : 0 <= perm < 1024 -> 0 <= Z.lor perm PTE_V < 1024.
Proof. intros. apply (lor_bound _ _ 10); [lia|done|done]. Qed.

Lemma mk_pte_bound pa perm : 0 <= pa < 2 ^ 56 -> 0 <= perm < 1024 -> 0 <= mk_pte pa perm < 2 ^ 64.
Proof.
  intros Hpa Hperm. unfold mk_pte. rewrite <- Z.lor_assoc.
  pose proof (lor_V perm Hperm) as Hf.
  rewrite PA2PTE_val by (change (2 ^ 56) with 72057594037927936 in *; plia).
  rewrite lor_flags by done. change (2 ^ 56) with 72057594037927936 in *. plia.
Qed.

Lemma mk_pte_valid pa perm : has (mk_pte pa perm) PTE_V = true.
Proof. unfold mk_pte. rewrite has_lor. change (has PTE_V PTE_V) with true. apply orb_true_r. Qed.

Lemma mk_pte_PA pa perm :
  0 <= pa < 2 ^ 56 -> aligned pa -> 0 <= perm < 1024 -> PTE2PA (mk_pte pa perm) = pa.
Proof.
  intros. unfold mk_pte. rewrite <- Z.lor_assoc. apply mk_pte_pa; [done|done|by apply lor_V].
Qed.

Lemma mk_pte_FLAGS pa perm :
  0 <= pa < 2 ^ 56 -> aligned pa -> 0 <= perm < 1024 -> PTE_FLAGS (mk_pte pa perm) = Z.lor perm PTE_V.
Proof.
  intros. unfold mk_pte. rewrite <- Z.lor_assoc. apply mk_pte_flags; [done|by apply lor_V].
Qed.

Lemma mk_pte_has pa perm f :
  0 <= pa < 2 ^ 56 -> aligned pa -> 0 <= perm < 1024 -> 0 <= f < 1024 ->
  has (mk_pte pa perm) f = has perm f || has PTE_V f.
Proof.
  intros. unfold mk_pte. rewrite <- Z.lor_assoc, has_mk_pte by (done || by apply lor_V).
  apply has_lor.
Qed.

(** ** [walk] *)

Lemma walk_alloc root va s T L :
  kalloc_inv s L -> pt_inv (mem s) root T -> dom T ## list_to_set L -> 0 <= va < MAXVA ->
  wp (walk root va true s) (fun r s' => exists T' L',
    pt_ext root s s' T T' L L' /\
    (forall va', leaf (mem s') root va' = leaf (mem s) root va') /\ new_at (eq va) T T' /\
    ((r = 0 /\ L' = []) \/ (0 < r /\ slot 2 (mem s') root va = Some r))).
Proof.
  intros Hk Hpt Hd Hva. unfold walk.
  replace (MAXVA <=? va) with false by (symmetry; apply Z.leb_gt; lia).
  eapply wp_mono; [apply (walk_level_alloc 2 root root va s T L); [done..|]|].
  - rewrite prefix_2 by done. apply (pi_root _ _ _ Hpt).
  - intros r s' (T' & L' & Hext & Hleaf & _ & Hnew & Hr). exists T', L'. split_and!; [done| |done|].
    + intros va'. eapply Hleaf, (pi_root _ _ _ Hpt).
    + destruct Hr as [?|Hr]; [by left|right]. split; [|done].
      by destruct (slot_pg (pe_pt _ _ _ _ _ _ _ Hext) Hva Hr) as (_ & _ & ?).
Qed.

(** A leaf write through [walk] extends the table. *)
Lemma pt_ext_leaf root va a v s s' T T' L L' :
  pt_ext root s s' T T' L L' -> NoDup L -> dom T ## list_to_set L -> 0 <= va < MAXVA ->
  slot 2 (mem s') root va = Some a ->
  pt_ext root s (set_mem (st64 (mem s') a v) s') T T' L L'.
Proof.
  intros Hext HL Hd Hva Ha. pose proof (pt_ext_disj _ _ _ _ _ _ _ Hext HL Hd) as Hd'.
  destruct Hext as [Hpt Hk Hsub Hu Hf].
  assert (same_except (dom T') (mem s') (st64 (mem s') a v)) as Hw by by apply (same_except_leaf Hpt Hva Ha).
  split; [by apply (pt_inv_leaf Hpt Hva Ha)|by eapply kalloc_inv_frame|done|done|].
  eapply same_except_mono; [|by eapply same_except_trans]. set_solver.
Qed.

(** ** [mappages] *)

Lemma vpn_in_page a va : aligned a -> vpn va = vpn a <-> in_pages a 1 va.
Proof. unfold aligned, in_pages, vpn. plia. Qed.

Lemma mappages_loop_spec (n fuel : nat) root a pa perm s T L :
  (n < fuel)%nat ->
  kalloc_inv s L -> pt_inv (mem s) root T -> dom T ## list_to_set L ->
  aligned a -> 0 <= a -> a + S n * PGSIZE <= MAXVA ->
  aligned pa -> 0 <= pa -> pa + S n * PGSIZE <= 2 ^ 56 -> 0 <= perm < 1024 ->
  (forall va, in_pages a (S n) va -> has (leaf (mem s) root va) PTE_V = false) ->
  wp (mappages_loop fuel root a (a + n * PGSIZE) pa perm s) (fun r s' => exists T' L' (k : nat),
    pt_ext root s s' T T' L L' /\
    (forall va, 0 <= va < MAXVA -> leaf (mem s') root va =
       if decide (in_pages a k va) then mk_pte (pa + (pg va - a)) perm else leaf (mem s) root va) /\
    new_at (in_pages a (S n)) T T' /\
    ((r = 0 /\ k = S n) \/ (r = -1 /\ (k < S n)%nat /\ L' = []))).
Proof.
  revert fuel a pa s T L.
  induction n as [|n IH]; intros [|fuel] a pa s T L Hfuel Hk Hpt Hd Haa Ha0 HaM Hpa Hpa0 HpaM Hperm Hfree.
  1,3: lia.
  all: cbn [mappages_loop]; wp_step (walk_alloc root a s T L); [done|done|done|plia|];
    intros pte s1 (T1 & L1 & Hext & Hleaf & Hnew & [[-> ->]|[Hpos Hslot]]);
    pose proof (new_at_mono (eq a) (in_pages a 1) _ _ ltac:(intros ? <-; unfold in_pages; plia) Hnew) as Hnew'.
  1,3: apply wp_ret; exists T1, [], 0%nat; split_and!; [done| |eapply new_at_mono; [|exact Hnew']; unfold in_pages; plia|right; split_and!; [done|lia|done]];
    intros va Hva; rewrite decide_False by (unfold in_pages; lia); apply Hleaf.
  all: replace (pte =? 0) with false by (symmetry; apply Z.eqb_neq; lia); unfold load64, store64; msimpl;
    assert (ld64 (mem s1) pte = leaf (mem s1) root a) as -> by (unfold leaf, leaf_at; by rewrite Hslot);
    rewrite Hleaf, Hfree by (unfold in_pages; plia); fold (mk_pte pa perm);
    pose proof (mk_pte_bound pa perm ltac:(plia) Hperm) as Hb;
    assert (0 <= a < MAXVA) as HaM' by plia;
    pose proof (pt_ext_leaf _ _ _ (mk_pte pa perm) _ _ _ _ _ _ Hext (ki_nodup _ _ Hk) Hd HaM' Hslot) as Hext';
    assert (forall va, 0 <= va < MAXVA -> leaf (st64 (mem s1) pte (mk_pte pa perm)) root va =
       if decide (in_pages a 1 va) then mk_pte pa perm else leaf (mem s) root va) as Hleaf'
      by (intros va Hva; rewrite (leaf_st64 (pe_pt _ _ _ _ _ _ _ Hext) HaM' Hslot), <- Hleaf by done;
          pose proof (vpn_in_page a va Haa); repeat case_decide; tauto).
  - replace (a =? a + 0%nat * PGSIZE) with true by (symmetry; apply Z.eqb_eq; lia).
    exists T1, L1, 1%nat. split_and!; [done| |eapply new_at_mono; [|exact Hnew']; unfold in_pages; plia|by left].
    intros va Hva. simpl mem. rewrite Hleaf' by done. change (Z.of_nat 1) with 1.
    case_decide as Hin; [|done].
    rewrite (pg_in a) by (done || unfold in_pages in Hin; lia). by rewrite Z.sub_diag, Z.add_0_r.
  - replace (a =? a + S n * PGSIZE) with false by (symmetry; apply Z.eqb_neq; plia).
    rewrite !wrap_id by (unfold in_range; change (2 ^ 56) with 72057594037927936 in *; plia).
    replace (a + S n * PGSIZE) with (a + PGSIZE + n * PGSIZE) by lia.
    eapply wp_mono.
    + apply (IH fuel (a + PGSIZE) (pa + PGSIZE) _ T1 L1).
      * lia.
      * apply Hext'.
      * apply Hext'.
      * eapply pt_ext_disj; [exact Hext'|apply Hk|done].
      * unfold aligned in *. plia.
      * plia.
      * lia.
      * unfold aligned in *. plia.
      * plia.
      * lia.
      * done.
      * intros va Hin. simpl. unfold in_pages in Hin. rewrite Hleaf' by plia.
        rewrite decide_False by (unfold in_pages; plia). apply Hfree. unfold in_pages. plia.
    + intros r s2 (T2 & L2 & k & Hext2 & Hleaf2 & Hnew2 & Hr). exists T2, L2, (S k).
      split_and!; [by eapply pt_ext_trans| |eapply new_at_trans; [eapply new_at_mono; [|exact Hnew']; unfold in_pages; plia|eapply new_at_mono; [|exact Hnew2]; unfold in_pages; plia]|destruct Hr as [[-> ->]|(-> & ? & ->)]; [by left|right; split_and!; [done|lia|done]]].
      intros va Hva. rewrite Hleaf2 by done. simpl. rewrite Hleaf' by done.
      destruct (decide (in_pages (a + PGSIZE) k va)) as [Hi|Hi].
      * rewrite decide_True by (unfold in_pages in *; plia). f_equal. lia.
      * destruct (decide (in_pages a 1 va)) as [Hi1|Hi1].
        -- rewrite decide_True by (unfold in_pages in *; plia).
           rewrite (pg_in a) by (done || unfold in_pages in Hi1; lia). f_equal. lia.
        -- rewrite decide_False by (unfold in_pages in *; plia). done.
Qed.

Lemma mappages_full root va size pa perm s T L :
  kalloc_inv s L -> pt_inv (mem s) root T -> dom T ## list_to_set L ->
  aligned va -> size mod PGSIZE = 0 -> 0 < size -> 0 <= va -> va + size <= MAXVA ->
  aligned pa -> 0 <= pa -> pa + size <= 2 ^ 56 -> 0 <= perm < 1024 ->
  (forall va', va <= va' < va + size -> has (leaf (mem s) root va') PTE_V = false) ->
  wp (mappages root va size pa perm s) (fun r s' => exists T' L' (k : nat),
    pt_ext root s s' T T' L L' /\
    (forall va', 0 <= va' < MAXVA -> leaf (mem s') root va' =
       if decide (in_pages va k va') then mk_pte (pa + (pg va' - va)) perm else leaf (mem s) root va') /\
    new_at (fun va' => va <= va' < va + size) T T' /\
    ((r = 0 /\ k * PGSIZE = size) \/ (r = -1 /\ k * PGSIZE < size /\ L' = []))).
Proof.
  intros Hk Hpt Hd Hva Hsz Hsz0 Hva0 HvaM Hpa Hpa0 HpaM Hperm Hfree. unfold mappages.
  replace (negb (va mod PGSIZE =? 0)) with false by (symmetry; apply negb_false_iff, Z.eqb_eq, Hva).
  replace (negb (size mod PGSIZE =? 0)) with false by (symmetry; apply negb_false_iff, Z.eqb_eq, Hsz).
  replace (size =? 0) with false by (symmetry; apply Z.eqb_neq; lia).
  assert (exists n : nat, size = S n * PGSIZE) as [n Hn].
  { exists (Z.to_nat (size / PGSIZE - 1)). plia. }
  replace (Z.to_nat (size / PGSIZE)) with (S n) by plia.
  rewrite wrap_id by (unfold in_range; plia).
  replace (va + size - PGSIZE) with (va + n * PGSIZE) by lia.
  eapply wp_mono; [apply (mappages_loop_spec n (S n) root va pa perm s T L); rewrite <- ?Hn; try done; try lia|].
  - intros va' Hin. apply Hfree. unfold in_pages in Hin. lia.
  - intros r s' (T' & L' & k & ? & ? & Hnew & Hr). exists T', L', k. split_and!; [done|done|eapply new_at_mono; [|exact Hnew]; unfold in_pages; lia|].
    destruct Hr as [[-> ->]|(-> & ? & ->)]; [left; split; [done|lia]|right; split_and!; [done|plia|done]].
Qed.

Lemma mappages_spec root va size pa perm s T L :
  kalloc_inv s L -> pt_inv (mem s) root T -> dom T ## list_to_set L ->
  aligned va -> size mod PGSIZE = 0 -> 0 < size -> 0 <= va -> va + size <= MAXVA ->
  aligned pa -> 0 <= pa -> pa + size <= 2 ^ 56 -> 0 <= perm < 1024 ->
  (forall va', va <= va' < va + size -> has (leaf (mem s) root va') PTE_V = false) ->
  wp (mappages root va size pa perm s) (fun r s' => exists T' L' (k : nat),
    pt_ext root s s' T T' L L' /\
    (forall va', 0 <= va' < MAXVA -> leaf (mem s') root va' =
       if decide (in_pages va k va') then mk_pte (pa + (pg va' - va)) perm else leaf (mem s) root va') /\
    ((r = 0 /\ k * PGSIZE = size) \/ (r = -1 /\ k * PGSIZE < size /\ L' = []))).
Proof.
  intros. eapply wp_mono; [by apply (mappages_full root va size pa perm s T L)|]. intros r s' (T' & L' & k & ? & ? & _ & ?). exists T', L', k. done.
Qed.

(** ** [uvmunmap] *)

Lemma uvmunmap_loop_spec (n fuel : nat) root a do_free F s T L :
  kalloc_inv s L -> pt_inv (mem s) root T -> dom T ## list_to_set L ->
  aligned a -> 0 <= a -> a + n * PGSIZE <= MAXVA -> (n < fuel)%nat ->
  (forall i : nat, (i < n)%nat -> has (leaf (mem s) root (a + i * PGSIZE)) PTE_V = true
     /\ PTE_FLAGS (leaf (mem s) root (a + i * PGSIZE)) <> PTE_V) ->
  (if (do_free : bool) then
     F = (fun i : nat => PTE2PA (leaf (mem s) root (a + i * PGSIZE))) <$> seq 0 n /\
     Forall kpage F /\ NoDup (F ++ L) /\ list_to_set F ## dom T
   else F = []) ->
  wp (uvmunmap_loop fuel root a (a + n * PGSIZE) do_free s) (fun _ s' =>
    kalloc_inv s' (reverse F ++ L) /\ pt_inv (mem s') root T /\
    (forall va, 0 <= va < MAXVA -> leaf (mem s') root va =
       if decide (in_pages a n va) then 0 else leaf (mem s) root va) /\
    same_except (dom T ∪ list_to_set F) (mem s) (mem s')).
Proof.
  revert fuel a F s L. induction n as [|n IH]; intros fuel a F s L Hk Hpt Hd Haa Ha0 HaM Hf Hmap HF;
    (destruct fuel as [|fuel]; [lia|]); cbn [uvmunmap_loop].
  { replace (a <? a + 0%nat * PGSIZE) with false by (symmetry; apply Z.ltb_ge; lia).
    assert (F = []) as -> by (destruct do_free; [by destruct HF as [-> _]|done]).
    split_and!; [done|done| |done].
    intros va Hva. rewrite decide_False by (unfold in_pages; lia). done. }
  replace (a <? a + S n * PGSIZE) with true by (symmetry; apply Z.ltb_lt; plia).
  assert (0 <= a < MAXVA) as HaM' by plia.
  destruct (Hmap 0%nat ltac:(lia)) as [Hv Hfl]. rewrite Z.mul_0_l, Z.add_0_r in Hv, Hfl.
  assert (exists pte, slot 2 (mem s) root a = Some pte) as [pte Hslot].
  { unfold leaf, leaf_at in Hv. destruct (slot 2 (mem s) root a); [eauto|done]. }
  destruct (slot_pg Hpt HaM' Hslot) as (_ & _ & Hpos).
  rewrite (bind_ret_eq _ _ _ pte s) by (rewrite walk_noalloc, Hslot by lia; done).
  replace (pte =? 0) with false by (symmetry; apply Z.eqb_neq; lia).
  unfold load64 at 1. apply wp_bind. msimpl.
  assert (ld64 (mem s) pte = leaf (mem s) root a) as -> by (unfold leaf, leaf_at; by rewrite Hslot).
  cbn beta match delta [wp]. rewrite Hv.
  replace (PTE_FLAGS _ =? PTE_V) with false by (symmetry; by apply Z.eqb_neq). cbn beta match delta [negb].
  (** the free, if any *)
  set (pa := PTE2PA (leaf (mem s) root a)).
  assert (exists F', F = (if do_free then [pa] else []) ++ F' /\
    wp ((if do_free then kfree pa else mret tt) s) (fun _ s1 =>
      kalloc_inv s1 ((if do_free then [pa] else []) ++ L) /\
      same_except (list_to_set (if do_free then [pa] else [])) (mem s) (mem s1))) as (F' & HF' & Hfree).
  { destruct do_free; [|by exists F].
    destruct HF as (E & HFp & HFn & HFd). rewrite <- cons_seq in E. simpl in E.
    rewrite Z.mul_0_l, Z.add_0_r in E. fold pa in E. eexists. split; [exact E|].
    rewrite E in HFp, HFn. eapply wp_mono; [apply (kfree_spec pa s L)|].
    - done.
    - by apply Forall_cons in HFp as [? _].
    - apply NoDup_cons in HFn as [? _]. set_solver.
    - intros _ s1 [? ?]. split; [done|]. simpl. by rewrite (right_id_L ∅ (∪)). }
  apply wp_bind. eapply wp_mono; [exact Hfree|]. clear Hfree. intros _ s1 [Hk1 Hs1].
  assert ((list_to_set (if do_free then [pa] else []) : gset Z) ## dom T) as HdF.
  { destruct do_free; [|set_solver]. destruct HF as (_ & _ & _ & HFd). rewrite HF' in HFd. set_solver. }
  assert (dom T ## list_to_set ((if do_free then [pa] else []) ++ L)) as Hd1 by set_solver.
  pose proof (pt_inv_frame Hpt _ _ Hs1 HdF) as Hpt1.
  assert (slot 2 (mem s1) root a = Some pte) as Hslot1.
  { rewrite <- Hslot. eapply (slot_ext Hpt); [apply (pi_root _ _ _ Hpt)|].
    intros q k pre i Hq Hi. eapply same_except_pte; [done|by eapply (pt_aligned Hpt)| |done].
    apply elem_of_dom_2 in Hq. set_solver. }
  assert (same_except (dom T) (mem s1) (st64 (mem s1) pte 0)) as Hs2 by by apply (same_except_leaf Hpt1 HaM' Hslot1).
  unfold store64. msimpl. rewrite wrap_id by (unfold in_range; plia).
  replace (a + S n * PGSIZE) with (a + PGSIZE + n * PGSIZE) by lia.
  assert (forall va, 0 <= va < MAXVA -> leaf (st64 (mem s1) pte 0) root va =
       if decide (in_pages a 1 va) then 0 else leaf (mem s) root va) as Hleaf.
  { intros va Hva. rewrite (leaf_st64 Hpt1 HaM' Hslot1), (leaf_frame Hpt _ _ va Hs1 HdF) by done.
    pose proof (vpn_in_page a va Haa). repeat case_decide; tauto. }
  assert (forall i : nat, (i < n)%nat ->
    leaf (st64 (mem s1) pte 0) root (a + PGSIZE + i * PGSIZE) = leaf (mem s) root (a + S i * PGSIZE)) as Hshift.
  { intros i Hi. rewrite Hleaf by plia. rewrite decide_False by (unfold in_pages; plia). f_equal. lia. }
  eapply wp_mono.
  - apply (IH fuel (a + PGSIZE) F' _ ((if do_free then [pa] else []) ++ L)).
    + eapply kalloc_inv_frame; [done|exact Hs2|done].
    + by apply (pt_inv_leaf Hpt1 HaM' Hslot1).
    + done.
    + unfold aligned in *. plia.
    + plia.
    + lia.
    + lia.
    + intros i Hi. simpl. rewrite Hshift by done. apply Hmap. lia.
    + destruct do_free; [|simpl in *; congruence].
      destruct HF as (E & HFp & HFn & HFd). rewrite <- cons_seq in E. simpl in E.
      rewrite Z.mul_0_l, Z.add_0_r in E. fold pa in E. rewrite HF' in E, HFp, HFn, HFd. simpl in *.
      injection E as E. apply Forall_cons in HFp as [_ HFp]. split_and!.
      * rewrite E, <- fmap_S_seq, <- list_fmap_compose. apply list_fmap_ext. intros i x Hx.
        apply lookup_seq in Hx as [-> Hx]. simpl. by rewrite Hshift.
      * done.
      * by rewrite <- Permutation_middle.
      * set_solver.
  - intros _ s2 (Hk2 & Hpt2 & Hleaf2 & Hs3). split_and!.
    + rewrite HF', reverse_app, <- app_assoc. by destruct do_free.
    + done.
    + intros va Hva. rewrite Hleaf2 by done. simpl. rewrite Hleaf by done.
      repeat case_decide; unfold in_pages in *; plia || done.
    + rewrite HF'. eapply same_except_mono; [|eapply same_except_trans; [exact Hs1|eapply same_except_trans; [exact Hs2|exact Hs3]]].
      set_solver.
Qed.

Lemma uvmunmap_spec (n : nat) root a do_free F s T L :
  kalloc_inv s L -> pt_inv (mem s) root T -> dom T ## list_to_set L ->
  aligned a -> 0 <= a -> a + n * PGSIZE <= MAXVA ->
  (forall i : nat, (i < n)%nat -> has (leaf (mem s) root (a + i * PGSIZE)) PTE_V = true
     /\ PTE_FLAGS (leaf (mem s) root (a + i * PGSIZE)) <> PTE_V) ->
  (if (do_free : bool) then
     F = (fun i : nat => PTE2PA (leaf (mem s) root (a + i * PGSIZE))) <$> seq 0 n /\
     Forall kpage F /\ NoDup (F ++ L) /\ list_to_set F ## dom T
   else F = []) ->
  wp (uvmunmap root a n do_free s) (fun _ s' =>
    kalloc_inv s' (reverse F ++ L) /\ pt_inv (mem s') root T /\
    (forall va, 0 <= va < MAXVA -> leaf (mem s') root va =
       if decide (in_pages a n va) then 0 else leaf (mem s) root va) /\
    same_except (dom T ∪ list_to_set F) (mem s) (mem s')).
Proof.
  intros Hk Hpt Hd Ha Ha0 HaM Hmap HF. unfold uvmunmap.
  replace (negb (a mod PGSIZE =? 0)) with false by (symmetry; apply negb_false_iff, Z.eqb_eq, Ha).
  rewrite wrap_id by (unfold in_range; plia). rewrite Nat2Z.id.
  apply (uvmunmap_loop_spec n); try done. lia.
Qed.
End map.
