(* ===== verification/VmUser.v ===== *)
(** * User address spaces: growing and shrinking

    [as_inv m root T F] describes a process's address space: the page table
    below [root] maps the user pages [0, PGSIZE, ...] to the physical pages
    [F], each owned by this address space alone, and nothing else below the
    trapframe.  [proc_mem s root T F L] adds the allocator's free list [L].
    [uvmalloc] and [uvmdealloc] move pages between [L], [T] and [F] and lose
    none of them. *)

From S2P Require Import Prelude Riscv Mem Kstring Kalloc Vm VmPt VmWalk VmMap.

Section user.
Context `{Linker}.

Record as_inv (m : memory) (root : Z) (T : tables) (F : list Z) : Prop := {
  as_pt : pt_inv m root T;
  as_map (i : nat) pa : F !! i = Some pa ->
    has (leaf m root (i * PGSIZE)) PTE_V = true /\
    PTE_FLAGS (leaf m root (i * PGSIZE)) <> PTE_V /\
    PTE2PA (leaf m root (i * PGSIZE)) = pa;
  as_pages : Forall kpage F;
  as_nodup : NoDup F;
  as_disj : list_to_set F ## dom T;
  as_size : length F * PGSIZE <= TRAPFRAME;
  as_free va : length F * PGSIZE <= va < TRAPFRAME -> has (leaf m root va) PTE_V = false;
}.

Record proc_mem (s : phys) (root : Z) (T : tables) (F L : list Z) : Prop := {
  pm_k : kalloc_inv s L;
  pm_as : as_inv (mem s) root T F;
  pm_dT : dom T ## list_to_set L;
  pm_dF : (list_to_set F : gset Z) ## list_to_set L;
}.

(** The entries of the trapframe and the trampoline are the same. *)
Definition high_same (root : Z) (m m' : memory) : Prop :=
  forall va, TRAPFRAME <= va < MAXVA -> leaf m' root va = leaf m root va.

Lemma high_same_trans root m1 m2 m3 : high_same root m1 m2 -> high_same root m2 m3 -> high_same root m1 m3.
Proof. intros H1 H2 va Hva. by rewrite H2, H1. Qed.

(** All the pages of a process and the free list. *)
Definition all_pages (T : tables) (F L : list Z) : gset Z :=
  dom T ∪ list_to_set F ∪ list_to_set L.

Lemma as_inv_frame P m m' root T F :
  as_inv m root T F -> same_except P m m' -> P ## dom T -> as_inv m' root T F.
Proof.
  intros [Hpt Hmap Hp Hn Hd Hs Hf] Hse HP. split; try done.
  - by eapply pt_inv_frame.
  - intros i pa Hi. rewrite (leaf_frame Hpt P m'); [by apply Hmap|done..|].
    apply lookup_lt_Some in Hi. plia.
  - intros va Hva. rewrite (leaf_frame Hpt P m'); [by apply Hf|done..|]. plia.
Qed.

(** ** [uvmdealloc] *)

Lemma uvmunmap_tail s root T F L (n : nat) :
  proc_mem s root T F L -> (n <= length F)%nat ->
  wp (uvmunmap root (n * PGSIZE) (length F - n)%nat true s) (fun _ s' =>
    proc_mem s' root T (take n F) (reverse (drop n F) ++ L) /\
    (forall va, 0 <= va < MAXVA -> ~ in_pages (n * PGSIZE) (length F - n)%nat va ->
       leaf (mem s') root va = leaf (mem s) root va) /\
    same_except (dom T ∪ list_to_set (drop n F)) (mem s) (mem s')).
Proof.
  intros [Hk Has HdT HdF] Hn. destruct Has as [Hpt Hmap Hpg Hnd Hdisj Hsz Hfree].
  set (k := (length F - n)%nat).
  assert (forall i : nat, (i < k)%nat -> exists pa, F !! (n + i)%nat = Some pa) as Hlook.
  { intros i Hi. apply lookup_lt_is_Some_2. lia. }
  assert (forall i : nat, n * PGSIZE + i * PGSIZE = (n + i)%nat * PGSIZE) as Eidx by lia.
  eapply wp_mono; [apply (uvmunmap_spec k root (n * PGSIZE) true (drop n F) s T L)|].
  - done.
  - done.
  - done.
  - unfold aligned. plia.
  - plia.
  - plia.
  - intros i Hi. destruct (Hlook i Hi) as [pa Hpa]. rewrite Eidx. by destruct (Hmap _ _ Hpa) as (? & ? & _).
  - split_and!.
    + apply list_eq. intros i. rewrite lookup_drop, list_lookup_fmap.
      destruct (decide (i < k)%nat) as [Hi|Hi].
      * destruct (Hlook i Hi) as [pa Hpa]. rewrite Hpa, lookup_seq_lt by done. simpl.
        rewrite Eidx. by destruct (Hmap _ _ Hpa) as (_ & _ & ->).
      * rewrite lookup_seq_ge by lia. simpl. apply lookup_ge_None. lia.
    + by apply Forall_drop.
    + apply NoDup_app. split_and!; [by eapply sublist_NoDup, sublist_drop| |apply Hk].
      intros x Hx%(subseteq_drop n) Hx'. set_solver.
    + intros x Hx. apply elem_of_list_to_set, (subseteq_drop n) in Hx. set_solver.
  - intros _ s' (Hk' & Hpt' & Hleaf & Hs). split_and!; [|intros va Hva Hin; rewrite Hleaf by done; by rewrite decide_False|done].
    assert (length (take n F) = n) as Hlt by (rewrite length_take; lia).
    split; [done| | |].
    + split; [done|..].
      * intros i pa Hi. apply lookup_take_Some in Hi as [Hi Hin]. rewrite Hleaf by plia.
        rewrite decide_False by (unfold in_pages; plia). by apply Hmap.
      * by apply Forall_take.
      * by eapply sublist_NoDup, sublist_take.
      * intros x Hx. apply elem_of_list_to_set, (subseteq_take n) in Hx. set_solver.
      * rewrite Hlt. plia.
      * intros va Hva. rewrite Hlt in Hva. rewrite Hleaf by plia.
        case_decide as Hin; [done|]. apply Hfree. unfold in_pages in Hin. plia.
    + intros x Hx Hx'. rewrite list_to_set_app_L in Hx'. apply elem_of_union in Hx' as [Hx'|Hx']; [|set_solver].
      rewrite elem_of_list_to_set, elem_of_reverse in Hx'.
      apply (subseteq_drop n) in Hx'. set_solver.
    + intros x Hx Hx'. rewrite list_to_set_app_L in Hx'. rewrite <- (take_drop n F) in Hnd.
      apply NoDup_app in Hnd as (_ & Hnd & _). rewrite elem_of_list_to_set in Hx.
      apply elem_of_union in Hx' as [Hx'|Hx'].
      * rewrite elem_of_list_to_set, elem_of_reverse in Hx'. by eapply Hnd.
      * apply (subseteq_take n) in Hx. set_solver.
Qed.

(** The pages a size of [sz] bytes takes. *)
Definition npages (sz : Z) : nat := Z.to_nat (PGROUNDUP sz / PGSIZE).

Lemma npages_spec sz : 0 <= sz <= TRAPFRAME ->
  PGROUNDUP sz = npages sz * PGSIZE /\ sz <= npages sz * PGSIZE < sz + PGSIZE.
Proof.
  intros. destruct (PGROUNDUP_bounds sz) as [? ?]; [plia|]. unfold npages. plia.
Qed.

Lemma npages_aligned (n : nat) : n * PGSIZE <= TRAPFRAME -> npages (n * PGSIZE) = n.
Proof. intros. destruct (npages_spec (n * PGSIZE)); plia. Qed.

Lemma npages_mono a b : 0 <= a <= b -> b <= TRAPFRAME -> (npages a <= npages b)%nat.
Proof.
  intros. destruct (npages_spec a) as [_ ?], (npages_spec b) as [_ ?]; [plia..|].
  revert H2 H3. layout. lia.
Qed.

(** The number of user pages [uvmdealloc] keeps. *)
Definition kept (F : list Z) (oldsz newsz : Z) : nat :=
  if oldsz <=? newsz then length F else npages newsz.

Lemma uvmdealloc_spec s root T F L oldsz newsz :
  proc_mem s root T F L -> 0 <= newsz -> 0 <= oldsz <= TRAPFRAME -> npages oldsz = length F ->
  let n := kept F oldsz newsz in
  wp (uvmdealloc root oldsz newsz s) (fun r s' =>
    r = Z.min oldsz newsz /\
    proc_mem s' root T (take n F) (reverse (drop n F) ++ L) /\
    (forall va, 0 <= va < MAXVA -> ~ in_pages (n * PGSIZE) (length F - n)%nat va ->
       leaf (mem s') root va = leaf (mem s) root va) /\
    same_except (dom T ∪ list_to_set (drop n F)) (mem s) (mem s')).
Proof.
  intros Hpm Hnew Hold Hlen. unfold uvmdealloc, kept.
  destruct (Z.leb_spec oldsz newsz) as [Hle|Hlt]; cbv zeta.
  { apply wp_ret. split; [lia|]. rewrite take_ge, drop_ge by lia. by split_and!. }
  set (n := npages newsz). assert (n <= length F)%nat as Hn by (unfold n; rewrite <- Hlen; apply npages_mono; lia).
  destruct (npages_spec oldsz Hold) as [Eo Ho]. destruct (npages_spec newsz) as [En Hn']; [lia|].
  fold n in En, Hn'. rewrite Hlen in Eo, Ho. rewrite Eo, En.
  apply wp_bind. destruct (Z.ltb_spec (n * PGSIZE) (length F * PGSIZE)) as [Hlt'|Hge].
  - replace ((length F * PGSIZE - n * PGSIZE) / PGSIZE) with (Z.of_nat (length F - n)%nat).
    2:{ replace (length F * PGSIZE - n * PGSIZE) with ((length F - n)%nat * PGSIZE) by plia.
        by rewrite Z.div_mul. }
    pose proof (as_size _ _ _ _ (pm_as _ _ _ _ _ Hpm)).
    rewrite sint_id by (try change (2 ^ (32 - 1)) with 2147483648; plia).
    rewrite wrap_id by (unfold in_range; plia).
    eapply wp_mono; [by apply uvmunmap_tail|]. intros [] s' ?. apply wp_ret. split; [lia|done].
  - assert (n = length F) as E by (revert Hge; layout; lia). apply wp_ret, wp_ret. split; [lia|].
    rewrite E, take_ge, drop_ge by lia. by split_and!.
Qed.

(** ** Adding a page *)

Lemma proc_mem_frame P m s root T F L :
  proc_mem s root T F L -> same_except P (mem s) m -> P ## dom T -> P ## list_to_set L ->
  proc_mem (set_mem m s) root T F L.
Proof.
  intros [Hk Has HdT HdF] Hs HPT HPL. split; [|by eapply as_inv_frame|done|done].
  by eapply kalloc_inv_frame.
Qed.

(** A page that belongs to nobody the invariant knows of. *)
Definition loose (p : Z) (T : tables) (F L : list Z) : Prop :=
  kpage p /\ (p ∉ dom T) /\ (p ∉ F) /\ (p ∉ L).

Lemma kalloc_user s root T F L :
  proc_mem s root T F L ->
  wp (kalloc s) (fun p s' =>
    match L with
    | [] => p = 0 /\ s' = s
    | q :: L' => p = q /\ p <> 0 /\ proc_mem s' root T F L' /\ loose p T F L' /\
                 same_except {[p]} (mem s) (mem s')
    end).
Proof.
  intros [Hk Has HdT HdF]. eapply wp_mono; [by apply kalloc_spec|].
  intros p s'. destruct L as [|q L']; [done|]. intros (-> & Hk' & Hs & _).
  destruct (kalloc_inv_app _ [] _ _ Hk) as [Hq HqL]. pose proof (kpage_pos q Hq).
  split_and!; [done|lia| |split_and!; [done|set_solver..]|done].
  split; [done| |set_solver|set_solver]. eapply as_inv_frame; [done|done|set_solver].
Qed.

Lemma kfree_loose s root T F L p :
  proc_mem s root T F L -> loose p T F L ->
  wp (kfree p s) (fun _ s' => proc_mem s' root T F (p :: L) /\ same_except {[p]} (mem s) (mem s')).
Proof.
  intros [Hk Has HdT HdF] (Hp & HpT & HpF & HpL). eapply wp_mono; [by apply kfree_spec|].
  intros _ s' [Hk' Hs]. split; [|done]. split; [done| |set_solver|set_solver].
  eapply as_inv_frame; [done|done|set_solver].
Qed.

Lemma mappages_user s root T F L p perm :
  proc_mem s root T F L -> loose p T F L -> S (length F) * PGSIZE <= TRAPFRAME ->
  0 <= perm < 1024 -> Z.lor perm PTE_V <> PTE_V ->
  wp (mappages root (length F * PGSIZE) PGSIZE p perm s) (fun r s' => exists T' F' L',
    proc_mem s' root T' F' L' /\ T ⊆ T' /\ all_pages T' [] L' = all_pages T [] L /\
    same_except (dom T') (mem s) (mem s') /\
    (forall va, 0 <= va < MAXVA -> leaf (mem s') root va =
       if decide (r = 0 /\ in_pages (length F * PGSIZE) 1 va) then mk_pte p perm else leaf (mem s) root va) /\
    ((r = 0 /\ F' = F ++ [p]) \/ (r = -1 /\ F' = F /\ loose p T' F L'))).
Proof.
  intros [Hk Has HdT HdF] (Hp & HpT & HpF & HpL) Hsz Hperm Hpv.
  pose proof (kpage_pte_range p Hp) as Hpr. pose proof (kpage_range p Hp) as Hpr'.
  pose proof (kpage_aligned p Hp) as Hpa.
  destruct Has as [Hpt Hmap Hpg Hnd Hdisj Hs Hfree].
  eapply wp_mono; [apply (mappages_spec root (length F * PGSIZE) PGSIZE p perm s T L)|].
  - done.
  - done.
  - done.
  - unfold aligned. plia.
  - done.
  - done.
  - plia.
  - plia.
  - done.
  - lia.
  - change (2 ^ 56) with 72057594037927936 in *. plia.
  - done.
  - intros va Hva. apply Hfree. plia.
  - intros r s' (T' & L' & k & Hext & Hleaf & Hr).
    pose proof (pt_ext_disj _ _ _ _ _ _ _ Hext (ki_nodup _ _ Hk) HdT) as HdT'.
    destruct Hext as [Hpt' Hk' Hsub (U & HL & HdT1) Hf].
    assert (forall va, 0 <= va < MAXVA -> leaf (mem s') root va =
       if decide (r = 0 /\ in_pages (length F * PGSIZE) 1 va) then mk_pte p perm else leaf (mem s) root va) as Hleaf'.
    { intros va Hva. rewrite Hleaf by done. destruct Hr as [[-> Hk1]|(-> & Hk1 & _)].
      - assert (k = 1%nat) as -> by (revert Hk1; layout; lia). change (Z.of_nat 1) with 1.
        destruct (decide (in_pages (length F * PGSIZE) 1 va)) as [Hin|Hin];
          [rewrite decide_True by done|rewrite decide_False by tauto; done].
        rewrite (pg_in (length F * PGSIZE)); [f_equal; lia|unfold aligned; plia|].
        unfold in_pages in Hin. lia.
      - assert (k = 0%nat) as -> by (revert Hk1; layout; lia).
        rewrite !decide_False; [done|intros [? _]; lia|unfold in_pages; lia]. }
    assert (all_pages T' [] L' = all_pages T [] L) as Hall.
    { unfold all_pages. rewrite HdT1, HL, list_to_set_app_L. set_solver. }
    destruct Hr as [[-> _]|(-> & _ & ->)].
    + exists T', (F ++ [p]), L'. split_and!; [|done..|by left].
      assert (list_to_set (F ++ [p]) ## dom T') as Hd2.
      { rewrite HdT1. intros x Hx Hx'. rewrite elem_of_list_to_set, elem_of_app, list_elem_of_singleton in Hx.
        rewrite HL in HdF, HpL. set_solver. }
      split; [done| |done|].
      * split; [done|..].
        -- intros i pa Hi. rewrite Hleaf' by (apply lookup_lt_Some in Hi; rewrite length_app in Hi; simpl in Hi; plia).
           apply lookup_app_Some in Hi as [Hi|[Hi1 Hi]].
           ++ apply lookup_lt_Some in Hi as Hlt. rewrite decide_False by (unfold in_pages; plia). by apply Hmap.
           ++ apply list_lookup_singleton_Some in Hi as [Hi <-]. assert (i = length F) as -> by lia.
              rewrite decide_True by (unfold in_pages; split; [done|plia]).
              rewrite mk_pte_valid, mk_pte_PA, mk_pte_FLAGS by done. done.
        -- apply Forall_app. by rewrite Forall_singleton.
        -- apply NoDup_app. split_and!; [done| |apply NoDup_singleton].
           intros x Hx ->%list_elem_of_singleton. done.
        -- done.
        -- rewrite length_app. simpl. lia.
        -- intros va Hva. rewrite length_app in Hva. simpl in Hva. rewrite Hleaf' by plia.
           rewrite decide_False by (unfold in_pages; plia). apply Hfree. plia.
      * rewrite HL in HdF, HpL. set_solver.
    + exists T', F, []. split_and!; [|done..|right].
      * split; [done| |done|set_solver]. split; [done|..]; try done.
        -- intros i pa Hi. rewrite Hleaf' by (apply lookup_lt_Some in Hi; plia).
           rewrite decide_False by (intros [? _]; lia). by apply Hmap.
        -- rewrite HdT1. rewrite HL in HdF. set_solver.
        -- intros va Hva. rewrite Hleaf' by plia. rewrite decide_False by (intros [? _]; lia). by apply Hfree.
      * split_and!; [done|done|]. split_and!; [done| |done|set_solver].
        rewrite HdT1. rewrite HL in HpL. set_solver.
Qed.
End user.
