(* ===== verification/VmAlloc.v ===== *)
(** * [uvmalloc]

    [uvmalloc] either extends the address space with zeroed pages or, when
    memory runs out, gives back every user page it took. *)

From S2P Require Import Prelude Riscv Mem Kstring Kalloc Vm VmPt VmWalk VmMap VmUser.

Section alloc.
Context `{Linker}.

(** The pages at the end of an address space are given back. *)
Lemma uvmdealloc_undo s root T F0 New L :
  proc_mem s root T (F0 ++ New) L ->
  wp (uvmdealloc root (length (F0 ++ New) * PGSIZE) (length F0 * PGSIZE) s) (fun _ s' =>
    proc_mem s' root T F0 (reverse New ++ L) /\
    (forall va, 0 <= va < MAXVA -> ~ in_pages (length F0 * PGSIZE) (length New) va ->
       leaf (mem s') root va = leaf (mem s) root va) /\
    same_except (dom T ∪ list_to_set New) (mem s) (mem s')).
Proof.
  intros Hpm. pose proof (as_size _ _ _ _ (pm_as _ _ _ _ _ Hpm)) as Hsz.
  assert (length (F0 ++ New) = length F0 + length New)%nat as Hlen by apply length_app.
  assert (kept (F0 ++ New) (length (F0 ++ New) * PGSIZE) (length F0 * PGSIZE) = length F0) as Hkept.
  { unfold kept. destruct (Z.leb_spec (length (F0 ++ New) * PGSIZE) (length F0 * PGSIZE)) as [Hle|].
    - rewrite Hlen. revert Hle. rewrite Hlen. layout. lia.
    - apply npages_aligned. revert Hsz. rewrite Hlen. layout. lia. }
  eapply wp_mono; [apply (uvmdealloc_spec s root T (F0 ++ New) L); [done|plia|plia|by apply npages_aligned]|].
  intros r s'. rewrite Hkept, take_app_length, drop_app_length.
  replace (length (F0 ++ New) - length F0)%nat with (length New) by lia. tauto.
Qed.

Lemma zero_page_frame P m m' p :
  same_except P m m' -> aligned p -> p ∉ P ->
  (forall x, p <= x < p + PGSIZE -> ld8 m x = 0) -> forall x, p <= x < p + PGSIZE -> ld8 m' x = 0.
Proof.
  intros Hs Hp HP Hz x Hx. unfold ld8. rewrite Hs; [by apply Hz|]. by rewrite (pg_in p).
Qed.

(** What a call of [uvmalloc] leaves, seen from an iteration with the pages
    [New] already added. *)
Record grown (s s' : phys) (root : Z) (T T' : tables) (F0 New New' L L' : list Z) (xperm : Z) : Prop := {
  gr_frame : same_except (dom T' ∪ list_to_set L) (mem s) (mem s');
  gr_leaf va : 0 <= va < MAXVA -> ~ in_pages (length (F0 ++ New) * PGSIZE) (length New') va ->
    leaf (mem s') root va = leaf (mem s) root va;
  gr_new (i : nat) pa : New' !! i = Some pa ->
    leaf (mem s') root (length (F0 ++ New) * PGSIZE + i * PGSIZE)
      = mk_pte pa (Z.lor (Z.lor PTE_R PTE_U) xperm);
  gr_zero pa : pa ∈ New' -> forall x, pa <= x < pa + PGSIZE -> ld8 (mem s') x = 0;
}.

Record undone (s s' : phys) (root : Z) (T' : tables) (F0 New L : list Z) : Prop := {
  un_frame : same_except (dom T' ∪ list_to_set New ∪ list_to_set L) (mem s) (mem s');
  un_leaf va : 0 <= va < MAXVA -> va < length F0 * PGSIZE \/ TRAPFRAME <= va ->
    leaf (mem s') root va = leaf (mem s) root va;
}.

Definition uvmalloc_post root T F0 New L newsz xperm s : Z -> phys -> Prop := fun r s' =>
  exists T' F' L', proc_mem s' root T' F' L' /\ T ⊆ T' /\
    all_pages T' F' L' = all_pages T (F0 ++ New) L /\
    ((r = newsz /\ exists New', F' = (F0 ++ New) ++ New' /\
        length F' = Nat.max (length (F0 ++ New)) (npages newsz) /\
        grown s s' root T T' F0 New New' L L' xperm) \/
     (r = 0 /\ F' = F0 /\ undone s s' root T' F0 New L)).

Lemma uvmalloc_flags xperm :
  0 <= xperm < 1024 ->
  0 <= Z.lor (Z.lor PTE_R PTE_U) xperm < 1024 /\ Z.lor (Z.lor (Z.lor PTE_R PTE_U) xperm) PTE_V <> PTE_V.
Proof.
  intros Hx. split; [apply (lor_bound _ _ 10); [lia|done|done]|].
  intros E. apply (f_equal (fun z => has z PTE_R)) in E. rewrite !has_lor in E. done.
Qed.

Lemma uvmalloc_loop_spec fuel s root T F0 New L newsz xperm :
  proc_mem s root T (F0 ++ New) L -> 0 <= newsz <= TRAPFRAME -> 0 <= xperm < 1024 ->
  (npages newsz - length (F0 ++ New) < fuel)%nat ->
  wp (uvmalloc_loop fuel root (length F0 * PGSIZE) (length (F0 ++ New) * PGSIZE) newsz xperm s)
     (uvmalloc_post root T F0 New L newsz xperm s).
Proof.
  revert s T New L. induction fuel as [|fuel IH]; intros s T New L Hpm Hnew Hx Hf; [lia|].
  destruct (npages_spec newsz Hnew) as [_ Hnp]. destruct (uvmalloc_flags xperm Hx) as [Hfl1 Hfl2].
  pose proof (as_size _ _ _ _ (pm_as _ _ _ _ _ Hpm)) as Hsz.
  cbn [uvmalloc_loop]. destruct (Z.ltb_spec (length (F0 ++ New) * PGSIZE) newsz) as [Hlt|Hge].
  2:{ apply wp_ret. exists T, (F0 ++ New), L. split_and!; [done..|]. left. split; [done|].
      exists []. rewrite app_nil_r. split_and!; [done|revert Hge Hnp; layout; lia|].
      split; [done|done|done|by intros ? ?%not_elem_of_nil]. }
  assert (S (length (F0 ++ New)) * PGSIZE <= TRAPFRAME) as Hsz' by (revert Hlt Hnew; layout; lia).
  wp_step (kalloc_user s root T (F0 ++ New) L); [done|]. intros p s1. destruct L as [|q L].
  { (** out of memory *)
    intros [-> ->]. cbn [Z.eqb]. apply wp_bind. eapply wp_mono; [by apply uvmdealloc_undo|].
    intros r s' (Hpm' & Hleaf & Hs). apply wp_ret. exists T, F0, (reverse New ++ []).
    split_and!; [done|done| |].
    { unfold all_pages. rewrite !list_to_set_app_L. clear. set_solver. }
    right. split_and!; [done|done|]. pose proof (length_app F0 New). split.
    - eapply same_except_mono; [|done]. clear. set_solver.
    - intros va Hva Hout. apply Hleaf; [done|]. unfold in_pages. plia. }
  intros (-> & Hq0 & Hpm1 & Hloose & Hs1).
  replace (q =? 0) with false by (symmetry; by apply Z.eqb_neq).
  apply wp_modify.
  set (m2 := memset (mem s1) q 0 PGSIZE).
  assert (aligned q) as Hqa by apply kpage_aligned, Hloose.
  assert (same_except {[q]} (mem s1) m2) as Hs2 by by apply same_except_memset_page.
  assert (proc_mem (set_mem m2 s1) root T (F0 ++ New) L) as Hpm2.
  { destruct Hloose as (_ & ? & _ & ?). eapply proc_mem_frame; [done|done| |]; clear - H0 H1; set_solver. }
  wp_step (mappages_user _ root T (F0 ++ New) L q (Z.lor (Z.lor PTE_R PTE_U) xperm)); [done..|].
  intros r s3 (T3 & F3 & L3 & Hpm3 & Hsub3 & Hall3 & Hs3 & Hleaf3 & Hr).
  pose proof (as_pt _ _ _ _ (pm_as _ _ _ _ _ Hpm)) as Hpt0.
  assert (forall va, 0 <= va < MAXVA -> leaf m2 root va = leaf (mem s) root va) as Hleaf2.
  { intros va Hva. apply (leaf_frame Hpt0 {[q]}); [|destruct Hloose as (_ & ? & _); clear - H0; set_solver|done].
    eapply same_except_mono; [|eapply same_except_trans; [exact Hs1|exact Hs2]]. clear. set_solver. }
  assert (list_to_set L ⊆ all_pages T3 [] L3) as HL3 by (rewrite Hall3; unfold all_pages; clear; set_solver).
  destruct Hr as [[-> ->]|(-> & -> & Hloose3)].
  - (** the page is mapped *)
    cbn [Z.eqb negb]. rewrite wrap_id by (unfold in_range; plia).
    replace (length (F0 ++ New) * PGSIZE + PGSIZE) with (length (F0 ++ (New ++ [q])) * PGSIZE)
      by (rewrite app_assoc, (length_app _ [q]); simpl; lia).
    rewrite <- app_assoc in Hpm3.
    eapply wp_mono; [apply (IH s3 T3 (New ++ [q]) L3); [done..|]|].
    { rewrite app_assoc, (length_app _ [q]). simpl. revert Hf Hlt Hnp. layout. lia. }
    intros r s' (T' & F' & L' & Hpm' & Hsub' & Hall' & Hres). exists T', F', L'.
    assert (dom T3 ⊆ dom T') as HdomT by by apply subseteq_dom.
    split_and!; [done|by etrans| |].
    { rewrite Hall'. unfold all_pages in *. rewrite !list_to_set_app_L. clear - Hall3. set_solver. }
    assert (same_except (dom T' ∪ list_to_set (q :: L)) (mem s) (mem s3)) as Hs03.
    { eapply same_except_mono; [|eapply same_except_trans; [exact Hs1|eapply same_except_trans; [exact Hs2|exact Hs3]]].
      clear - HdomT. set_solver. }
    assert (list_to_set L3 ⊆ (dom T' ∪ list_to_set (q :: L) : gset Z)) as HL3'.
    { assert (list_to_set L3 ⊆ all_pages T [] L) by (rewrite <- Hall3; unfold all_pages; clear; set_solver).
      apply subseteq_dom in Hsub3. unfold all_pages in H0. clear - H0 Hsub3 HdomT. set_solver. }
    destruct Hres as [(-> & New' & -> & Hlen & [Hgf Hgl Hgn Hgz])|(-> & -> & [Huf Hul])].
    + left. split; [done|]. exists (q :: New').
      rewrite (app_assoc F0 New [q]), <- (app_assoc (F0 ++ New)) in Hlen |- *. simpl in Hlen |- *.
      split_and!; [done| |].
      { rewrite Hlen, (length_app _ [q]). simpl. revert Hlt Hnp. layout. lia. }
      assert (length (F0 ++ New ++ [q]) = S (length (F0 ++ New))) as Hlen1
        by (rewrite app_assoc, (length_app _ [q]); simpl; lia).
      rewrite Hlen1 in Hgl, Hgn.
      assert (q ∉ (dom T' ∪ list_to_set L3 : gset Z)) as HqT'.
      { pose proof (as_disj _ _ _ _ (pm_as _ _ _ _ _ Hpm')) as Hd. pose proof (pm_dF _ _ _ _ _ Hpm3) as Hd3.
        rewrite !list_to_set_app_L in Hd, Hd3. clear - Hd Hd3. set_solver. }
      split.
      * eapply same_except_mono; [|eapply same_except_trans; [exact Hs03|exact Hgf]].
        clear - HL3'. set_solver.
      * intros va Hva Hin. rewrite Hgl, Hleaf3, decide_False, Hleaf2; try done.
        -- intros [_ ?]. apply Hin. unfold in_pages in *. simpl. plia.
        -- intros ?. apply Hin. unfold in_pages in *. simpl. plia.
      * intros i pa Hi. apply lookup_lt_Some in Hi as Hil.
        assert (S (length (F0 ++ New)) + length New' <= npages newsz)%nat as Hbd.
        { rewrite (length_app _ (q :: New')), (length_app _ [q]) in Hlen. simpl in Hlen. revert Hlt Hnp. layout. lia. }
        destruct i as [|i]; simpl in Hi.
        -- injection Hi as <-. rewrite Z.mul_0_l, Z.add_0_r.
           rewrite Hgl by (unfold in_pages; plia). rewrite Hleaf3 by plia.
           rewrite decide_True by (unfold in_pages; split; [done|plia]). done.
        -- rewrite <- (Hgn i pa Hi). f_equal. lia.
      * intros pa [->|Hpa]%elem_of_cons; [|by apply Hgz].
        eapply zero_page_frame; [exact Hgf|done|done|].
        eapply zero_page_frame; [exact Hs3|done| |intros x Hx'; by apply ld8_memset_zero].
        clear - HqT' HdomT. set_solver.
    + right. split_and!; [done|done|]. split.
      * eapply same_except_mono; [|eapply same_except_trans; [exact Hs03|exact Huf]].
        rewrite list_to_set_app_L. clear - HL3'. set_solver.
      * intros va Hva Hout. pose proof (length_app F0 New) as HlFN.
        rewrite Hul, Hleaf3, decide_False, Hleaf2; try done. unfold in_pages. plia.
  - (** no memory for a table *)
    cbn [Z.eqb negb]. wp_step (kfree_loose _ root T3 (F0 ++ New) L3 q); [done..|].
    intros _ s4 [Hpm4 Hs4]. wp_step (uvmdealloc_undo _ root T3 F0 New (q :: L3)); [done|].
    intros r s5 (Hpm5 & Hleaf5 & Hs5). apply wp_ret. exists T3, F0, (reverse New ++ q :: L3).
    split_and!; [done|done| |].
    { unfold all_pages in *. rewrite !list_to_set_app_L. clear - Hall3. set_solver. }
    right. split_and!; [done|done|]. split.
    + eapply same_except_mono; [|eapply same_except_trans; [exact Hs1|eapply same_except_trans; [exact Hs2|
        eapply same_except_trans; [exact Hs3|eapply same_except_trans; [exact Hs4|exact Hs5]]]]].
      clear. set_solver.
    + intros va Hva Hout. pose proof (length_app F0 New) as HlFN.
      rewrite Hleaf5 by (done || unfold in_pages; plia).
      rewrite (leaf_frame (as_pt _ _ _ _ (pm_as _ _ _ _ _ Hpm3)) {[q]} _ _ Hs4); [|destruct Hloose3 as (_ & ? & _); clear - H0; set_solver|done].
      rewrite Hleaf3, decide_False by (done || intros [? _]; lia). by apply Hleaf2.
Qed.

Lemma uvmalloc_spec s root T F L oldsz newsz xperm :
  proc_mem s root T F L -> 0 <= oldsz <= newsz -> newsz <= TRAPFRAME -> 0 <= xperm < 1024 ->
  npages oldsz = length F ->
  wp (uvmalloc root oldsz newsz xperm s) (uvmalloc_post root T F [] L newsz xperm s).
Proof.
  intros Hpm Hold Hnew Hx Hlen. unfold uvmalloc.
  replace (newsz <? oldsz) with false by (symmetry; apply Z.ltb_ge; lia).
  destruct (npages_spec oldsz) as [-> Ho]; [lia|]. destruct (npages_spec newsz) as [_ Hn]; [lia|].
  rewrite Hlen in *.
  pose proof (fun fuel => uvmalloc_loop_spec fuel s root T F [] L newsz xperm) as Hl.
  rewrite app_nil_r in Hl. apply Hl; [done|lia|done|].
  assert (- PGSIZE < newsz - length F * PGSIZE <= TRAPFRAME) as Hr by plia.
  destruct (decide (newsz <= length F * PGSIZE)).
  - revert Hn Hr. layout. lia.
  - destruct (PGROUNDUP_bounds (newsz - length F * PGSIZE)) as [Hb Hb']; [plia|]. plia.
Qed.

End alloc.
