(* ===== verification/VmFork.v ===== *)
(** * [uvmcopy]

    [uvmcopy] gives the child fresh pages with the parent's contents and
    permissions, or leaves it without user pages; the parent's memory is not
    touched. *)

From S2P Require Import Prelude Riscv Mem Kstring Kalloc Vm VmPt VmWalk VmMap VmUser.

Section alloc.
Context `{Linker}.

(** ** [uvmcopy] *)

(** The page at [q] in [m'] has the contents of the page at [p] in [m]. *)
Definition page_eq (m m' : memory) (p q : Z) : Prop :=
  forall x, 0 <= x < PGSIZE -> ld8 m' (q + x) = ld8 m (p + x).

Lemma page_eq_frame P Q m1 m2 m1' m2' p q :
  same_except P m1 m1' -> same_except Q m2 m2' -> aligned p -> aligned q -> p ∉ P -> q ∉ Q ->
  page_eq m1 m2 p q -> page_eq m1' m2' p q.
Proof.
  intros H1 H2 Hp Hq HpP HqQ Heq x Hx. specialize (Heq x Hx). unfold ld8 in *.
  rewrite H1, H2; [done| |]; rewrite ?(pg_in p), ?(pg_in q) by (done || lia); done.
Qed.

Lemma page_eq_memmove m p q : page_eq m (memmove m q p PGSIZE) p q.
Proof.
  intros x Hx. unfold ld8 at 1. rewrite lookup_memmove, decide_True by plia.
  unfold ld8. rewrite Z.mod_mod by lia. do 2 f_equal. lia.
Qed.

Lemma flags_valid v : has v PTE_V = true -> Z.lor (PTE_FLAGS v) PTE_V = PTE_FLAGS v.
Proof.
  rewrite has_flags by done. unfold has. intros E%negb_true_iff%Z.eqb_neq.
  assert (Z.land (PTE_FLAGS v) PTE_V = PTE_V) as Hl; [|pose proof (Z.add_lor_land (PTE_FLAGS v) PTE_V); lia].
  change PTE_V with (Z.ones 1) in *. rewrite Z.land_ones in * by lia.
  change (2 ^ 1) with 2 in *. change (Z.ones 1) with 1. zdm.
Qed.

Lemma PTE_FLAGS_range v : 0 <= PTE_FLAGS v < 1024.
Proof.
  unfold PTE_FLAGS. change 1023 with (Z.ones 10). rewrite Z.land_ones by lia.
  apply Z.mod_pos_bound. done.
Qed.

(** [Fn] are copies of the first pages of [Fo], with the same flags. *)
Definition copied (m0 m : memory) (old new : Z) (Fo Fn : list Z) : Prop :=
  forall (k : nat) p q, Fo !! k = Some p -> Fn !! k = Some q ->
    page_eq m0 m p q /\ PTE_FLAGS (leaf m new (k * PGSIZE)) = PTE_FLAGS (leaf m0 old (k * PGSIZE)).

Definition uvmcopy_post m0 old Fo new Tn Fn L sz s : Z -> phys -> Prop := fun r s' =>
  exists Tn' Fn' L', proc_mem s' new Tn' Fn' L' /\ Tn ⊆ Tn' /\
    all_pages Tn' Fn' L' = all_pages Tn Fn L /\
    same_except (all_pages Tn Fn L) (mem s) (mem s') /\ high_same new (mem s) (mem s') /\
    ((r = 0 /\ length Fn' = npages sz /\ copied m0 (mem s') old new Fo Fn') \/
     (r = -1 /\ Fn' = [])).

Section copy.
Context (m0 : memory) (old new sz : Z) (To : tables) (Fo : list Z)
  (Hsz : 0 <= sz <= TRAPFRAME) (Hlen : npages sz = length Fo) (Has : as_inv m0 old To Fo).

(** The [err:] path. *)
Lemma uvmcopy_undo s Tn Fn L :
  proc_mem s new Tn Fn L ->
  wp ((uvmunmap new 0 (length Fn * PGSIZE / PGSIZE) true;; mret (-1)) s)
     (fun r s' => r = -1 /\ proc_mem s' new Tn [] (reverse Fn ++ L) /\
        same_except (dom Tn ∪ list_to_set Fn) (mem s) (mem s') /\ high_same new (mem s) (mem s')).
Proof.
  intros Hpm. pose proof (as_size _ _ _ _ (pm_as _ _ _ _ _ Hpm)). rewrite Z.div_mul by done. apply wp_bind.
  pose proof (uvmunmap_tail s new Tn Fn L 0 Hpm ltac:(lia)) as Hu.
  rewrite Nat.sub_0_r in Hu. eapply wp_mono; [exact Hu|].
  intros [] s' (Hpm' & Hl & Hs). rewrite drop_0 in Hpm', Hs. apply wp_ret. split_and!; [done..|].
  intros va Hva. apply Hl; [plia|]. unfold in_pages. plia.
Qed.

Lemma copied_snoc m m3 (P : gset Z) Fn q pa :
  copied m0 m old new Fo Fn -> Forall kpage Fn -> Fo !! length Fn = Some pa ->
  same_except P m m3 -> (forall p, p ∈ Fn -> p ∉ P) -> page_eq m0 m3 pa q ->
  (forall k : nat, (k < length Fn)%nat -> leaf m3 new (k * PGSIZE) = leaf m new (k * PGSIZE)) ->
  PTE_FLAGS (leaf m3 new (length Fn * PGSIZE)) = PTE_FLAGS (leaf m0 old (length Fn * PGSIZE)) ->
  copied m0 m3 old new Fo (Fn ++ [q]).
Proof.
  intros Hcop HFn Hpa Hs HP Hpg Hleaf Hfl k p q' Hp Hq.
  apply lookup_app_Some in Hq as [Hq|[Hk Hq]].
  - apply lookup_lt_Some in Hq as Hk. destruct (Hcop k p q' Hp Hq) as [Heq Hf].
    rewrite Hleaf by done. split; [|done].
    apply list_elem_of_lookup_2 in Hq as Hqin.
    eapply (page_eq_frame ∅ P m0 m); try done.
    + eapply kpage_aligned, Forall_lookup_1; [apply (as_pages _ _ _ _ Has)|done].
    + by eapply kpage_aligned, Forall_lookup_1.
    + by apply HP.
  - apply list_lookup_singleton_Some in Hq as [Hk0 <-]. assert (k = length Fn) as -> by lia.
    rewrite Hpa in Hp. by injection Hp as <-.
Qed.

(** One page: [q] is taken from the free list ([s1]), filled from [pa] and
    mapped, which gives [s3]. *)
Section page.
Context {s s1 s3 : phys} {Tn T3 : tables} {Fn L L3 : list Z} {q pa : Z}.
Let va := length Fn * PGSIZE.
Let m2 := memmove (mem s1) q pa PGSIZE.
Context (Hpm : proc_mem s new Tn Fn (q :: L)) (Hloose : loose q Tn Fn L)
  (Hs1 : same_except {[q]} (mem s) (mem s1)).

Lemma fork_page_frame : same_except {[q]} (mem s) m2.
Proof.
  eapply same_except_mono; [|eapply same_except_trans; [exact Hs1|apply same_except_memmove_page]];
    [set_solver|by apply kpage_aligned, Hloose].
Qed.

Lemma fork_page_leaf va' : 0 <= va' < MAXVA -> leaf m2 new va' = leaf (mem s) new va'.
Proof.
  intros Hva'. apply (leaf_frame (as_pt _ _ _ _ (pm_as _ _ _ _ _ Hpm)) {[q]}); [apply fork_page_frame| |done].
  destruct Hloose as (_ & HqT & _). clear - HqT. set_solver.
Qed.

Lemma copied_page :
  proc_mem s3 new T3 (Fn ++ [q]) L3 ->
  same_except (all_pages Tn Fn (q :: L)) m0 (mem s) ->
  dom To ∪ list_to_set Fo ## all_pages Tn Fn (q :: L) ->
  Fo !! length Fn = Some pa -> copied m0 (mem s) old new Fo Fn ->
  same_except (dom T3) m2 (mem s3) ->
  (forall va', 0 <= va' < MAXVA -> leaf (mem s3) new va' =
     if decide (in_pages va 1 va') then mk_pte q (PTE_FLAGS (leaf m0 old va)) else leaf m2 new va') ->
  copied m0 (mem s3) old new Fo (Fn ++ [q]).
Proof.
  intros Hpm3 Hs0 Hdis Hpa Hcop Hs3 Hleaf3.
  pose proof (as_disj _ _ _ _ (pm_as _ _ _ _ _ Hpm3)) as Hd3. rewrite list_to_set_app_L in Hd3.
  pose proof (as_size _ _ _ _ (pm_as _ _ _ _ _ Hpm3)) as Hsz3. rewrite length_app in Hsz3. simpl in Hsz3.
  destruct Hloose as (Hqk & HqT & HqF & _). pose proof (kpage_aligned q Hqk) as Hqa.
  assert (aligned pa) as Hpaa by (eapply kpage_aligned, Forall_lookup_1; [apply (as_pages _ _ _ _ Has)|done]).
  assert (same_except ({[q]} ∪ dom T3) (mem s) (mem s3)) as Hs
    by (eapply same_except_trans; [apply fork_page_frame|exact Hs3]).
  destruct (as_map _ _ _ _ Has _ _ Hpa) as (Hv & _).
  eapply (copied_snoc (mem s) (mem s3)); [done|apply (pm_as _ _ _ _ _ Hpm)|exact Hpa|exact Hs|..].
  - clear - Hd3 HqF. set_solver.
  - eapply (page_eq_frame ∅ (dom T3) m0 m2); [done|exact Hs3|done|done|set_solver|clear - Hd3; set_solver|].
    eapply (page_eq_frame (all_pages Tn Fn (q :: L)) ∅ (mem s1) m2); [|done|done|done| |set_solver|apply page_eq_memmove].
    + apply same_except_sym. eapply same_except_mono; [|eapply same_except_trans; [exact Hs0|exact Hs1]].
      unfold all_pages. clear. set_solver.
    + apply list_elem_of_lookup_2 in Hpa. clear - Hdis Hpa. set_solver.
  - intros k Hk. rewrite Hleaf3 by plia. rewrite decide_False by (unfold in_pages, va; plia).
    apply fork_page_leaf. plia.
  - fold va. rewrite Hleaf3 by (unfold va; plia). rewrite decide_True by (unfold in_pages; plia).
    pose proof (kpage_pte_range q Hqk). pose proof (PTE_FLAGS_range (leaf m0 old va)).
    rewrite mk_pte_FLAGS by done. by apply flags_valid.
Qed.
End page.

(** The parent's entry for the next page. *)
Lemma parent_entry s P (i : nat) pa :
  same_except P m0 (mem s) -> P ## dom To -> Fo !! i = Some pa ->
  exists pte, walk old (i * PGSIZE) false s = Ret pte s /\ pte <> 0 /\
    ld64 (mem s) pte = leaf m0 old (i * PGSIZE).
Proof.
  intros Hs0 HdT Hpa. destruct (as_map _ _ _ _ Has _ _ Hpa) as (Hv & _).
  pose proof (as_size _ _ _ _ Has) as HszFo. pose proof (as_pt _ _ _ _ Has) as Hpto.
  apply lookup_lt_Some in Hpa as Hi. set (va := i * PGSIZE) in *.
  assert (0 <= va < MAXVA) as Hva by (unfold va; plia).
  assert (leaf (mem s) old va = leaf m0 old va) as Eleaf by (by apply (leaf_frame Hpto P)).
  rewrite walk_noalloc by lia. rewrite <- Eleaf in *. unfold leaf, leaf_at in *.
  destruct (slot 2 (mem s) old va) as [pte|] eqn:Hslot; [|done].
  destruct (slot_pg (pt_inv_frame Hpto _ _ Hs0 HdT) Hva Hslot) as (_ & _ & Hpos).
  exists pte. split_and!; [done|lia|done].
Qed.

Lemma uvmcopy_loop_spec fuel s Tn Fn L :
  proc_mem s new Tn Fn L -> same_except (all_pages Tn Fn L) m0 (mem s) ->
  dom To ∪ list_to_set Fo ## all_pages Tn Fn L ->
  (length Fn <= length Fo)%nat -> copied m0 (mem s) old new Fo Fn ->
  (length Fo - length Fn < fuel)%nat ->
  wp (uvmcopy_loop fuel old new (length Fn * PGSIZE) sz s) (uvmcopy_post m0 old Fo new Tn Fn L sz s).
Proof.
  destruct (npages_spec sz Hsz) as [_ Hnp]. rewrite Hlen in Hnp.
  revert s Tn Fn L. induction fuel as [|fuel IH]; intros s Tn Fn L Hpm Hs0 Hdis HlenF Hcop Hf; [lia|].
  cbn [uvmcopy_loop]. destruct (Z.ltb_spec (length Fn * PGSIZE) sz) as [Hlt|Hge].
  2:{ apply wp_ret. exists Tn, Fn, L. split_and!; [done..|]. left. split_and!; [done| |done].
      rewrite Hlen. revert Hge Hnp HlenF. layout. lia. }
  assert (length Fn < length Fo)%nat as HltF by (revert Hlt Hnp; layout; lia).
  destruct (lookup_lt_is_Some_2 Fo (length Fn) HltF) as [pa Hpa].
  destruct (as_map _ _ _ _ Has _ _ Hpa) as (Hv & Hfl & HPA).
  pose proof (as_size _ _ _ _ Has) as HszFo.
  destruct (parent_entry s _ _ _ Hs0 ltac:(clear - Hdis; set_solver) Hpa) as (pte & Hwalk & Hpte & Hld).
  rewrite (bind_ret_eq _ _ _ _ _ Hwalk). replace (pte =? 0) with false by lia.
  apply wp_gets. rewrite Hld, Hv. cbn [negb]. rewrite HPA. set (va := length Fn * PGSIZE) in *.
  wp_step (kalloc_user s new Tn Fn L); [done|]. intros q s1. destruct L as [|q' L].
  { intros [-> ->]. cbn [Z.eqb]. eapply wp_mono; [by apply uvmcopy_undo|].
    intros r s' (-> & Hpm' & Hs' & Hh'). exists Tn, [], (reverse Fn ++ []). split_and!; [done|done| | |done|by right].
    - unfold all_pages. rewrite !list_to_set_app_L. clear. set_solver.
    - eapply same_except_mono; [|done]. unfold all_pages. clear. set_solver. }
  intros (-> & Hq0 & Hpm1 & Hloose & Hs1). replace (q' =? 0) with false by (symmetry; by apply Z.eqb_neq).
  apply wp_modify. pose proof (fork_page_frame (pa := pa) Hpm Hloose Hs1) as Hs2.
  set (m2 := memmove (mem s1) q' pa PGSIZE) in *.
  assert (proc_mem (set_mem m2 s1) new Tn Fn L) as Hpm2.
  { destruct Hloose as (Hq & ? & _ & ?).
    eapply proc_mem_frame; [done|apply same_except_memmove_page; by apply kpage_aligned| |]; clear - H0 H1; set_solver. }
  wp_step (mappages_user _ new Tn Fn L q' (PTE_FLAGS (leaf m0 old va))).
  1,2: done.
  { plia. }
  { apply PTE_FLAGS_range. }
  { by rewrite flags_valid. }
  intros r s3 (T3 & F3 & L3 & Hpm3 & Hsub3 & Hall3 & Hs3 & Hleaf3 & Hr).
  assert (dom T3 ⊆ all_pages Tn Fn (q' :: L)) as HT3.
  { unfold all_pages in *. clear - Hall3. set_solver. }
  assert (same_except (all_pages Tn Fn (q' :: L)) (mem s) (mem s3)) as Hs03.
  { eapply same_except_mono; [|eapply same_except_trans; [exact Hs2|exact Hs3]].
    unfold all_pages in *. clear - HT3. set_solver. }
  assert (high_same new (mem s) (mem s3)) as Hh3.
  { intros x Hx. rewrite Hleaf3 by plia. rewrite decide_False by (unfold in_pages; plia).
    apply (fork_page_leaf Hpm Hloose Hs1). plia. }
  destruct Hr as [[-> ->]|(-> & -> & Hloose3)].
  - cbn [Z.eqb negb]. rewrite wrap_id by (unfold in_range; plia).
    replace (va + PGSIZE) with (length (Fn ++ [q']) * PGSIZE) by (unfold va; rewrite length_app; simpl; lia).
    assert (all_pages T3 (Fn ++ [q']) L3 = all_pages Tn Fn (q' :: L)) as Hall.
    { unfold all_pages in *. rewrite !list_to_set_app_L. clear - Hall3. set_solver. }
    eapply wp_mono; [apply (IH s3 T3 (Fn ++ [q']) L3); rewrite ?Hall, ?length_app; simpl; try (done || lia)|].
    + eapply same_except_mono; [|eapply same_except_trans; [exact Hs0|exact Hs03]]. clear. set_solver.
    + eapply (copied_page Hpm Hloose Hs1); try done. intros x Hx. rewrite Hleaf3 by done.
      apply decide_ext. tauto.
    + intros r s' (Tn' & Fn' & L' & Hpm' & Hsub' & Hall' & Hs' & Hh' & Hres). exists Tn', Fn', L'.
      split_and!; [done|by etrans|congruence| |by eapply high_same_trans|done].
      rewrite <- Hall in *. eapply same_except_mono; [|eapply same_except_trans; [exact Hs03|exact Hs']]. clear. set_solver.
  - cbn [Z.eqb negb]. wp_step (kfree_loose _ new T3 Fn L3 q'); [done..|].
    intros [] s4 [Hpm4 Hs4]. eapply wp_mono; [by apply uvmcopy_undo|].
    intros r s5 (-> & Hpm5 & Hs5 & Hh5). exists T3, [], (reverse Fn ++ q' :: L3).
    split_and!; [done|done| | | |by right].
    + unfold all_pages in *. rewrite !list_to_set_app_L. clear - Hall3. set_solver.
    + eapply same_except_mono; [|eapply same_except_trans; [exact Hs03|eapply same_except_trans; [exact Hs4|exact Hs5]]].
      unfold all_pages in *. clear - HT3. set_solver.
    + eapply high_same_trans; [exact Hh3|]. eapply high_same_trans; [|exact Hh5].
      intros x Hx. destruct Hloose3 as (_ & HqT & _).
      apply (leaf_frame (as_pt _ _ _ _ (pm_as _ _ _ _ _ Hpm3)) {[q']}); [done|clear - HqT; set_solver|plia].
Qed.
End copy.

Lemma uvmcopy_spec s old To Fo new Tn L sz :
  0 <= sz <= TRAPFRAME -> npages sz = length Fo ->
  as_inv (mem s) old To Fo -> proc_mem s new Tn [] L ->
  dom To ∪ list_to_set Fo ## all_pages Tn [] L ->
  wp (uvmcopy old new sz s) (uvmcopy_post (mem s) old Fo new Tn [] L sz s).
Proof.
  intros Hsz Hlen Has Hpm Hdis. unfold uvmcopy. fold (npages sz). rewrite Hlen.
  apply (uvmcopy_loop_spec (mem s) old new sz To Fo Hsz Hlen Has (S (length Fo)) s Tn [] L);
    simpl; try done || lia.
Qed.
End alloc.
