(* ===== verification/VmFree.v ===== *)
(** * [freewalk] and [uvmfree]

    Once the leaves are gone, [freewalk] returns every table page of the tree
    to the allocator, and [uvmfree] all the pages of an address space. *)

From S2P Require Import Prelude Riscv Mem Kstring Kalloc Vm VmPt VmWalk VmMap VmUser.

(** The table pages at or below level [n] that serve prefix [pre]. *)
Definition desc (T : tables) (n : nat) (pre : Z) : gset Z :=
  dom (filter (fun kv => (kv.2.1 <= n)%nat /\ kv.2.2 / 512 ^ (n - kv.2.1)%nat = pre) T).

(** The descendants of the entries [i, i + c) of a table. *)
Fixpoint descs (T : tables) (n : nat) (pre i : Z) (c : nat) : gset Z :=
  match c with
  | O => ∅
  | S c => desc T n (pre * 512 + i) ∪ descs T n pre (i + 1) c
  end.

Lemma elem_of_desc T n pre q :
  q ∈ desc T n pre <->
  exists k pre', T !! q = Some (k, pre') /\ (k <= n)%nat /\ pre' / 512 ^ (n - k)%nat = pre.
Proof.
  unfold desc. rewrite elem_of_dom. split.
  - intros [[k pre'] Hq]. apply map_lookup_filter_Some in Hq as [Hq [? ?]]. eauto.
  - intros (k & pre' & Hq & ? & ?). exists (k, pre'). by apply map_lookup_filter_Some.
Qed.

Lemma elem_of_descs T n pre i c q :
  q ∈ descs T n pre i c <-> exists j, i <= j < i + c /\ q ∈ desc T n (pre * 512 + j).
Proof.
  revert i. induction c as [|c IH]; intros i; simpl descs.
  - split; [set_solver|intros (? & ? & _); lia].
  - rewrite elem_of_union, IH. split.
    + intros [?|(j & ? & ?)]; [exists i|exists j]; split; (done || lia).
    + intros (j & ? & ?). destruct (decide (j = i)) as [->|]; [by left|right; exists j; split; [lia|done]].
Qed.

Lemma desc_S T n pre q :
  q ∈ desc T (S n) pre <-> T !! q = Some (S n, pre) \/ q ∈ descs T n pre 0 512.
Proof.
  rewrite elem_of_desc, elem_of_descs. setoid_rewrite elem_of_desc. split.
  - intros (k & pre' & Hq & Hk & Hpre). destruct (decide (k = S n)) as [->|].
    + left. rewrite Nat.sub_diag in Hpre. simpl in Hpre. rewrite Z.div_1_r in Hpre. by subst.
    + right. replace (Z.of_nat (S n - k)) with (Z.of_nat (n - k) + 1) in Hpre by lia.
      rewrite Z.pow_add_r, <- Z.div_div in Hpre by lia. change (512 ^ 1) with 512 in Hpre.
      set (x := pre' / 512 ^ (n - k)%nat) in *. exists (x mod 512).
      split; [apply Z.mod_pos_bound; lia|]. exists k, pre'. split_and!; [done|lia|]. fold x. zdm.
  - intros [Hq|(j & Hj & k & pre' & Hq & Hk & Hpre)].
    + exists (S n), pre. rewrite Nat.sub_diag, Z.div_1_r. done.
    + exists k, pre'. split_and!; [done|lia|]. replace (Z.of_nat (S n - k)) with (Z.of_nat (n - k) + 1) by lia.
      rewrite Z.pow_add_r, <- Z.div_div, Hpre by lia. change (512 ^ 1) with 512. zdm.
Qed.

Lemma desc_disjoint T n x y : x <> y -> desc T n x ## desc T n y.
Proof.
  intros Hxy q. rewrite !elem_of_desc. intros (k & p & Hq & _ & Hx) (k' & p' & Hq' & _ & Hy).
  rewrite Hq in Hq'. injection Hq' as <- <-. congruence.
Qed.

Lemma desc_descs_disjoint T n pre i c : desc T n (pre * 512 + i) ## descs T n pre (i + 1) c.
Proof.
  intros q Hq (j & Hj & Hq')%elem_of_descs. by eapply desc_disjoint; [|exact Hq|exact Hq']; lia.
Qed.

Lemma desc_level T n pre p : T !! p = Some (S n, pre) -> p ∉ descs T n pre 0 512.
Proof.
  intros Hp (j & _ & (k & pre' & Hq & Hk & _)%elem_of_desc)%elem_of_descs.
  rewrite Hp in Hq. injection Hq as <- _. lia.
Qed.

Section free.
Context `{Linker} {m0 : memory} {root : Z} {T : tables} (Hpt : pt_inv m0 root T)
  (Hnoleaf : forall q pre j, T !! q = Some (0%nat, pre) -> 0 <= j < 512 ->
     has (ld64 m0 (pte_at q j)) PTE_V = false).

(** A nonempty set of descendants has its table at the top. *)
Lemma desc_top n x q : (n <= 2)%nat -> q ∈ desc T n x -> exists r, T !! r = Some (n, x).
Proof.
  intros Hn (k & pre & Hq & Hk & Hpre)%elem_of_desc. remember (n - k)%nat as d eqn:Ed.
  revert q k pre Hq Hk Hpre Ed. induction d as [|d IH]; intros q k pre Hq Hk Hpre Ed.
  - assert (k = n) as -> by lia. simpl in Hpre. rewrite Z.div_1_r in Hpre. subst. eauto.
  - destruct (pi_parent _ _ _ Hpt q k pre Hq) as (r & Hr & _); [lia|].
    apply (IH r (S k) (pre / 512) Hr); [lia| |lia].
    rewrite Z.div_div by lia. rewrite <- Hpre. f_equal.
    replace (Z.of_nat (S d)) with (Z.of_nat d + 1) by lia. rewrite Z.pow_add_r by lia. lia.
Qed.

(** An invalid entry has no descendants. *)
Lemma desc_invalid n p pre i :
  T !! p = Some (S n, pre) -> 0 <= i < 512 -> has (ld64 m0 (pte_at p i)) PTE_V = false ->
  desc T n (pre * 512 + i) = ∅.
Proof.
  intros Hp Hi Hv. apply set_eq. intros q. split; [|set_solver]. intros Hq. exfalso.
  destruct (pi_level _ _ _ Hpt _ _ _ Hp) as (Hn & _).
  destruct (desc_top n _ q ltac:(lia) Hq) as [r Hr].
  destruct (pi_parent _ _ _ Hpt r n _ Hr) as (p' & Hp' & Hv' & _); [lia|].
  replace ((pre * 512 + i) / 512) with pre in Hp' by zdm.
  replace ((pre * 512 + i) mod 512) with i in Hv' by zdm.
  rewrite (pt_label_inj Hpt _ _ _ Hp' Hp) in Hv'. congruence.
Qed.

(** The tables of [D] still have their original entries. *)
Definition intact (D : gset Z) (m : memory) : Prop :=
  forall q j, q ∈ D -> 0 <= j < 512 -> ld64 m (pte_at q j) = ld64 m0 (pte_at q j).

Lemma desc_aligned n x q : q ∈ desc T n x -> aligned q.
Proof. intros (k & pre & Hq & _)%elem_of_desc. by eapply pt_aligned. Qed.

Lemma intact_frame (D P : gset Z) m m' :
  (forall q, q ∈ D -> aligned q) -> intact D m -> same_except P m m' -> D ## P -> intact D m'.
Proof.
  intros Hal Hi Hs Hd q j Hq Hj. rewrite <- (Hi q j Hq Hj).
  eapply same_except_pte; [done|by apply Hal| |done]. set_solver.
Qed.

(** What freeing the tables [D] does. *)
Definition freed (D : gset Z) (L : list Z) (s s' : phys) : Prop :=
  exists R, kalloc_inv s' (R ++ L) /\ list_to_set R = D /\ same_except D (mem s) (mem s').

Lemma freewalk_loop_leaf rec p s c i :
  (forall j, i <= j < i + Z.of_nat c -> has (ld64 (mem s) (pte_at p j)) PTE_V = false) ->
  freewalk_loop rec c p i s = Ret tt s.
Proof.
  revert i. induction c as [|c IH]; intros i Hj; [done|]. cbn [freewalk_loop].
  rewrite (bind_ret_eq _ _ _ (ld64 (mem s) (pte_at p i)) s) by done.
  rewrite Hj by lia. apply IH. intros. apply Hj. lia.
Qed.

(** One level: if the recursive call frees a child's subtree, the loop frees
    the subtrees of the remaining entries. *)
Lemma freewalk_loop_node n p pre rec c i s L :
  T !! p = Some (S n, pre) -> 0 <= i -> i + Z.of_nat c <= 512 ->
  (forall q x s L, T !! q = Some (n, x) -> kalloc_inv s L -> intact (desc T n x) (mem s) ->
     desc T n x ## list_to_set L -> wp (rec q s) (fun _ s' => freed (desc T n x) L s s')) ->
  kalloc_inv s L -> intact (descs T n pre i c) (mem s) ->
  (forall j, i <= j < i + Z.of_nat c -> ld64 (mem s) (pte_at p j) = ld64 m0 (pte_at p j)) ->
  descs T n pre i c ∪ {[p]} ## list_to_set L -> p ∉ descs T n pre i c ->
  wp (freewalk_loop rec c p i s) (fun _ s' =>
    exists R, kalloc_inv s' (R ++ L) /\ list_to_set R = descs T n pre i c /\
      same_except (descs T n pre i c ∪ {[p]}) (mem s) (mem s')).
Proof.
  intros Hp Hi0 Hi1 Hrec. assert (aligned p) as Hpa by by eapply pt_aligned.
  revert i s L Hi0 Hi1. induction c as [|c IH]; intros i s L Hi0 Hi1 Hk Hint Hent Hd HpD.
  { apply wp_ret. exists []. split_and!; done. }
  cbn [freewalk_loop]. simpl descs in *. apply wp_gets. rewrite Hent by lia.
  pose proof (desc_descs_disjoint T n pre i c) as Hdd.
  destruct (has (ld64 m0 (pte_at p i)) PTE_V) eqn:Hv.
  - destruct (pi_child _ _ _ Hpt p n pre i Hp ltac:(lia) Hv) as [Hfl Hc].
    assert (Z.land (ld64 m0 (pte_at p i)) (Z.lor (Z.lor PTE_R PTE_W) PTE_X) = 0) as ->.
    { apply (f_equal (fun f => has f (Z.lor (Z.lor PTE_R PTE_W) PTE_X))) in Hfl.
      rewrite <- has_flags in Hfl by done. unfold has in Hfl.
      by apply negb_false_iff, Z.eqb_eq in Hfl. }
    cbn [andb Z.eqb]. apply wp_bind.
    wp_step (Hrec (PTE2PA (ld64 m0 (pte_at p i))) (pre * 512 + i) s L).
    1,2: done.
    { intros q j Hq Hj. apply Hint; [set_solver|done]. }
    { clear - Hd. set_solver. }
    intros [] s1 (R1 & Hk1 & HR1 & Hs1). apply wp_ret.
    assert (same_except {[p]} (mem s1) (st64 (mem s1) (pte_at p i) 0)) as Hs2.
    { rewrite <- (pte_at_pg p i) at 1 by (done || lia). by apply same_except_st64, pte_at_8. }
    set (s2 := set_mem _ _).
    assert (kalloc_inv s2 (R1 ++ L)) as Hk2.
    { eapply kalloc_inv_frame; [done|exact Hs2|]. rewrite list_to_set_app_L, HR1. clear - Hd HpD. set_solver. }
    eapply wp_mono; [apply (IH (i + 1) s2 (R1 ++ L))|].
    + lia.
    + lia.
    + done.
    + eapply (intact_frame _ (desc T n (pre * 512 + i) ∪ {[p]})); [| |eapply same_except_trans; [exact Hs1|exact Hs2]|].
      * intros q (j & _ & Hq)%elem_of_descs. by eapply desc_aligned.
      * intros q j Hq Hj. apply Hint; [set_solver|done].
      * clear - Hdd HpD. set_solver.
    + intros j Hj. simpl. rewrite ld64_st64_pte by (done || lia || (intros [= ?]; lia)).
      rewrite <- Hent by lia. eapply same_except_pte; [exact Hs1|done|clear - HpD; set_solver|lia].
    + rewrite list_to_set_app_L, HR1. clear - Hd Hdd HpD. set_solver.
    + clear - HpD. set_solver.
    + intros [] s3 (R2 & Hk3 & HR2 & Hs3). exists (R2 ++ R1). rewrite <- app_assoc.
      split_and!; [done|rewrite list_to_set_app_L, HR1, HR2; clear; set_solver|].
      eapply same_except_mono; [|eapply same_except_trans; [exact Hs1|eapply same_except_trans; [exact Hs2|exact Hs3]]].
      clear. set_solver.
  - cbn [andb]. apply wp_bind, wp_ret.
    rewrite (desc_invalid n p pre i Hp ltac:(lia) Hv) in *.
    eapply wp_mono; [apply (IH (i + 1) s L); [lia|lia|done|..]|].
    + intros q j Hq Hj. apply Hint; [set_solver|done].
    + intros j Hj. apply Hent. lia.
    + clear - Hd. set_solver.
    + clear - HpD. set_solver.
    + intros [] s3 (R2 & Hk3 & HR2 & Hs3). exists R2. rewrite (left_id_L ∅ (∪)). by split_and!.
Qed.

Lemma freewalk_depth_spec n p pre s L :
  T !! p = Some (n, pre) -> kalloc_inv s L -> intact (desc T n pre) (mem s) ->
  desc T n pre ## list_to_set L ->
  wp (freewalk_depth (S n) p s) (fun _ s' => freed (desc T n pre) L s s').
Proof.
  revert p pre s L. induction n as [|n IH]; intros p pre s L Hp Hk Hint Hd.
  - assert (desc T 0 pre = {[p]}) as E.
    { apply set_eq. intros q. rewrite elem_of_desc, elem_of_singleton. split.
      - intros (k & pre' & Hq & Hk' & Hpre). assert (k = 0%nat) as -> by lia.
        rewrite Z.div_1_r in Hpre. subst. by eapply pt_label_inj.
      - intros ->. exists 0%nat, pre. rewrite Z.div_1_r. done. }
    rewrite E in *. cbn [freewalk_depth].
    rewrite (bind_ret_eq _ _ _ tt s).
    + eapply wp_mono; [apply (kfree_spec p s L Hk); [by eapply pi_page|set_solver]|].
      intros [] s' [Hk' Hs']. exists [p]. split_and!; [done|set_solver|done].
    + apply freewalk_loop_leaf. intros j Hj. rewrite Hint by (set_solver || lia).
      eapply Hnoleaf; [exact Hp|lia].
  - assert (desc T (S n) pre = descs T n pre 0 512 ∪ {[p]}) as E.
    { apply set_eq. intros q. rewrite desc_S, elem_of_union, elem_of_singleton. split.
      - intros [Hq|?]; [right; by eapply pt_label_inj|by left].
      - intros [?| ->]; [by right|by left]. }
    pose proof (desc_level T n pre p Hp) as HpD.
    rewrite E in *. change (freewalk_depth (S (S n)) p) with
      (freewalk_loop (freewalk_depth (S n)) 512 p 0;; kfree p).
    wp_step (freewalk_loop_node n p pre (freewalk_depth (S n)) 512 0 s L Hp ltac:(lia) ltac:(lia)).
    + intros q x s' L' Hq Hk' Hi' Hd'. by apply IH.
    + done.
    + intros q j Hq Hj. apply Hint; [by apply elem_of_union_l|done].
    + intros j Hj. apply Hint; [by apply elem_of_union_r, elem_of_singleton|lia].
    + done.
    + done.
    + intros [] s1 (R & Hk1 & HR & Hs1).
      eapply wp_mono; [apply (kfree_spec p s1 (R ++ L) Hk1); [by eapply pi_page|]|].
      * rewrite elem_of_app. intros [Hx|Hx]; [|apply (Hd p); [by apply elem_of_union_r, elem_of_singleton|by apply elem_of_list_to_set]].
        apply HpD. rewrite <- HR. by apply elem_of_list_to_set.
      * intros [] s2 [Hk2 Hs2]. exists (p :: R). split_and!; [done| |].
        -- rewrite list_to_set_cons, HR. by rewrite (comm_L (∪)).
        -- eapply same_except_mono; [|eapply same_except_trans; [exact Hs1|exact Hs2]]. by rewrite <- (assoc_L (∪)), union_idemp_L.
Qed.

(** All the tables are below the root. *)
Lemma desc_all : desc T 2 0 = dom T.
Proof.
  apply set_eq. intros q. rewrite elem_of_desc, elem_of_dom. split; [intros (k & pre & Hq & _); eauto|].
  intros [[k pre] Hq]. exists k, pre. destruct (pi_level _ _ _ Hpt _ _ _ Hq) as (Hk & _ & Hr).
  split_and!; [done|done|].
  assert (forall k pre q, T !! q = Some (k, pre) -> (k <= 2)%nat -> pre / 512 ^ (2 - k)%nat = 0) as Hgen; [|by eapply Hgen].
  clear q k pre Hq Hk Hr. intros k. remember (2 - k)%nat as d eqn:Ed. revert k Ed.
  induction d as [|d IH]; intros k Ed pre q Hq Hk.
  - assert (k = 2%nat) as -> by lia. destruct (pi_level _ _ _ Hpt _ _ _ Hq) as (_ & _ & Hr).
    rewrite Hr in Hq by done. rewrite (pi_root _ _ _ Hpt) in Hq. injection Hq as <-. done.
  - destruct (pi_parent _ _ _ Hpt q k pre Hq) as (r & Hr & _); [lia|].
    replace (Z.of_nat (S d)) with (Z.of_nat d + 1) by lia.
    rewrite Z.add_comm, Z.pow_add_r, <- Z.div_div by lia. change (512 ^ 1) with 512.
    by apply (IH (S k) ltac:(lia) _ r Hr); lia.
Qed.
End free.

Section uvmfree.
Context `{Linker}.

(** A leaf entry is the [leaf] of some address. *)
Lemma leaf_entry m root T q pre j :
  pt_inv m root T -> T !! q = Some (0%nat, pre) -> 0 <= j < 512 ->
  exists va, 0 <= va < MAXVA /\ leaf m root va = ld64 m (pte_at q j).
Proof.
  intros Hpt Hq Hj. destruct (pi_level _ _ _ Hpt _ _ _ Hq) as (_ & Hpre & _).
  pose proof (pi_bound _ _ _ Hpt _ _ _ Hq) as Hb.
  change (2 ^ (12 + 9 * (0%nat + 1))) with (4096 * 512) in Hb.
  exists ((pre * 512 + j) * 4096). split; [split; [lia|revert Hb; layout; lia]|].
  assert (prefix 0 ((pre * 512 + j) * 4096) = pre) as Hpr.
  { unfold prefix. change (2 ^ (12 + 9 * (0%nat + 1))) with (4096 * 512). zdm. }
  assert (PX 0 ((pre * 512 + j) * 4096) = j) as Hx.
  { rewrite PX_val by lia. change (2 ^ (12 + 9 * 0)) with 4096. zdm. }
  unfold leaf, leaf_at. rewrite (slot_of_table Hpt q); [by rewrite Hx|lia|by rewrite Hpr].
Qed.

Lemma freewalk_spec s root T L :
  kalloc_inv s L -> pt_inv (mem s) root T -> dom T ## list_to_set L ->
  (forall va, 0 <= va < MAXVA -> has (leaf (mem s) root va) PTE_V = false) ->
  wp (freewalk root s) (fun _ s' => freed (dom T) L s s').
Proof.
  intros Hk Hpt Hd Hleaf. rewrite <- (desc_all Hpt). unfold freewalk.
  apply (freewalk_depth_spec Hpt).
  - intros q pre j Hq Hj. destruct (leaf_entry _ _ _ _ _ _ Hpt Hq Hj) as (va & Hva & <-). by apply Hleaf.
  - apply (pi_root _ _ _ Hpt).
  - done.
  - done.
  - by rewrite (desc_all Hpt).
Qed.

Lemma uvmfree_unmap s root T F L sz :
  proc_mem s root T F L -> 0 <= sz <= TRAPFRAME -> npages sz = length F ->
  wp ((if 0 <? sz then uvmunmap root 0 (PGROUNDUP sz / PGSIZE) true else mret tt) s) (fun _ s' =>
    proc_mem s' root T [] (reverse F ++ L) /\
    (forall va, TRAPFRAME <= va < MAXVA -> leaf (mem s') root va = leaf (mem s) root va) /\
    same_except (dom T ∪ list_to_set F) (mem s) (mem s')).
Proof.
  intros Hpm Hsz Hn. destruct (npages_spec sz Hsz) as (Hr & Hb). rewrite Hn in Hr, Hb.
  pose proof (as_size _ _ _ _ (pm_as _ _ _ _ _ Hpm)) as HF.
  destruct (Z.ltb_spec 0 sz).
  - rewrite Hr, Z.div_mul by done.
    pose proof (uvmunmap_tail s root T F L 0 Hpm ltac:(lia)) as Htl.
    rewrite drop_0, Nat.sub_0_r, take_0 in Htl. change (0%nat * PGSIZE) with 0 in Htl.
    eapply wp_mono; [exact Htl|]. intros [] s' (Hpm' & Hleaf & Hs). split_and!; [done| |done].
    intros va Hva. apply Hleaf; [plia|]. unfold in_pages. plia.
  - destruct F; [|simpl in Hb; revert Hb; layout; lia]. apply wp_ret. by split_and!.
Qed.

Lemma uvmfree_spec s root T F L sz :
  proc_mem s root T F L -> 0 <= sz <= TRAPFRAME -> npages sz = length F ->
  (forall va, TRAPFRAME <= va < MAXVA -> has (leaf (mem s) root va) PTE_V = false) ->
  wp (uvmfree root sz s) (fun _ s' => exists L',
    kalloc_inv s' L' /\ list_to_set L' = all_pages T F L /\
    same_except (dom T ∪ list_to_set F) (mem s) (mem s')).
Proof.
  intros Hpm Hsz Hn Hhi. unfold uvmfree. wp_step uvmfree_unmap; [done..|].
  intros [] s1 (Hpm1 & Hhi1 & Hs1).
  eapply wp_mono; [apply (freewalk_spec s1 root T (reverse F ++ L)); [apply Hpm1..|]|].
  - intros va Hva. destruct (decide (va < TRAPFRAME)); [|rewrite Hhi1; apply Hhi || idtac; lia].
    apply (as_free _ _ _ _ (pm_as _ _ _ _ _ Hpm1)). simpl. lia.
  - intros [] s2 (R & Hk & HR & Hs2). exists (R ++ reverse F ++ L). split_and!; [done| |].
    + unfold all_pages. rewrite !list_to_set_app_L, HR.
      assert (list_to_set (reverse F) =@{gset Z} list_to_set F) as -> by (apply set_eq; intros; rewrite !elem_of_list_to_set; apply elem_of_reverse).
      clear. set_solver.
    + eapply same_except_mono; [|eapply same_except_trans; [exact Hs1|exact Hs2]]. set_solver.
Qed.
End uvmfree.
