(* ===== verification/VmCopy.v ===== *)
(** * Copying between the kernel and user space

    The user's view of its memory is the sequence of bytes of the pages [F]:
    [ubyte F m va].  [copyin] and [copyinstr] read it, [copyout] writes it;
    each stops at the first byte the page table does not let the user reach. *)

From S2P Require Import Prelude Riscv Mem Kstring Kalloc Vm VmPt VmWalk VmMap VmUser.

(** ** The user's memory *)

Definition ubyte (F : list Z) (m : memory) (va : Z) : Z :=
  ld8 m (F !!! Z.to_nat (va / PGSIZE) + va mod PGSIZE).

Fixpoint ubytes (F : list Z) (m : memory) (va : Z) (n : nat) : list Z :=
  match n with
  | O => []
  | S n => ubyte F m va :: ubytes F m (va + 1) n
  end.

(** The user can read, or write, the byte at [va]. *)
Definition readable (m : memory) (root va : Z) : bool :=
  (va <? MAXVA) && has (leaf m root va) PTE_V && has (leaf m root va) PTE_U.

Definition writable (m : memory) (root va : Z) : bool :=
  readable m root va && has (leaf m root va) PTE_W.

(** [m'] is [m] with [bs] written at user address [va]. *)
Definition uwritten (F : list Z) (m m' : memory) (va : Z) (bs : list Z) : Prop :=
  forall x, 0 <= x < length F * PGSIZE ->
    ubyte F m' x = if decide (va <= x < va + length bs) then (bs !!! Z.to_nat (x - va)) mod 256
                   else ubyte F m x.

Lemma lookup_ubytes F m va n (i : nat) :
  (i < n)%nat -> ubytes F m va n !! i = Some (ubyte F m (va + i)).
Proof.
  revert va i. induction n as [|n IH]; intros va [|i] Hi; simpl; try lia.
  - by rewrite Z.add_0_r.
  - rewrite IH by lia. do 2 f_equal. lia.
Qed.

Lemma length_ubytes F m va n : length (ubytes F m va n) = n.
Proof. revert va. induction n; simpl; auto. Qed.

Lemma ubytes_app F m va a b : ubytes F m va (a + b) = ubytes F m va a ++ ubytes F m (va + a) b.
Proof.
  revert va. induction a as [|a IH]; intros va; simpl.
  - by rewrite Z.add_0_r.
  - rewrite IH. do 3 f_equal. lia.
Qed.

Lemma ubytes_add F m va a b :
  0 <= a -> 0 <= b ->
  ubytes F m va (Z.to_nat a) ++ ubytes F m (va + a) (Z.to_nat b) = ubytes F m va (Z.to_nat (a + b)).
Proof. intros. by rewrite Z2Nat.inj_add, ubytes_app, Z2Nat.id by lia. Qed.

(** Within a page, user bytes are the bytes of the physical page. *)
Lemma ubyte_page F m va i :
  0 <= va -> 0 <= i -> va mod PGSIZE + i < PGSIZE ->
  ubyte F m (va + i) = ld8 m (F !!! Z.to_nat (va / PGSIZE) + va mod PGSIZE + i).
Proof.
  intros Hva Hi Hoff. unfold ubyte.
  replace ((va + i) / PGSIZE) with (va / PGSIZE) by plia.
  replace ((va + i) mod PGSIZE) with (va mod PGSIZE + i) by plia. f_equal. lia.
Qed.

Lemma ubytes_page F m va (n : nat) :
  0 <= va -> va mod PGSIZE + n <= PGSIZE ->
  ld_bytes m (F !!! Z.to_nat (va / PGSIZE) + va mod PGSIZE) n = ubytes F m va n.
Proof.
  intros Hva Hn. apply list_eq. intros i. destruct (decide (i < n)%nat).
  - rewrite lookup_ld_bytes, lookup_ubytes, ubyte_page by (done || lia). done.
  - rewrite !lookup_ge_None_2 by (rewrite ?length_ubytes, ?length_ld_bytes; lia). done.
Qed.

(** ** Leaves and pages *)

Lemma leaf_vpn n m p va va' :
  0 <= va -> 0 <= va' -> vpn va = vpn va' -> slot n m p va = slot n m p va'.
Proof.
  intros Hva Hva' Hv. assert (forall k : nat, PX k va = PX k va') as HPX.
  { intros k. rewrite !PX_val by lia. unfold vpn in Hv. change PGSIZE with (2 ^ 12) in Hv.
    by rewrite !Z.pow_add_r, <- !Z.div_div, Hv by lia. }
  revert p. induction n as [|n IH]; intros p; simpl.
  - by rewrite (HPX 0%nat : PX 0 va = PX 0 va').
  - rewrite (HPX (S n)). destruct (has _ _); [apply IH|done].
Qed.

Lemma leaf_rounddown m root va :
  0 <= va < 2 ^ 64 -> leaf m root (PGROUNDDOWN va) = leaf m root va.
Proof.
  intros Hva. unfold leaf, leaf_at. rewrite PGROUNDDOWN_val.
  rewrite (leaf_vpn 2 m root _ va); [done|..]; unfold vpn; plia.
Qed.

Section copy.
Context `{Linker}.

(** Nothing at or above the trapframe is accessible to the user. *)
Definition high_private (m : memory) (root : Z) : Prop :=
  forall va, TRAPFRAME <= va < MAXVA -> readable m root va = false.

Section as_inv.
Context {m : memory} {root : Z} {T : tables} {F : list Z}
  (Has : as_inv m root T F) (Hhi : high_private m root).

(** A readable byte is on one of the user's pages. *)
Lemma readable_page va :
  0 <= va -> readable m root va = true ->
  va < length F * PGSIZE /\ F !! Z.to_nat (va / PGSIZE) = Some (PTE2PA (leaf m root va)).
Proof.
  intros Hva Hr. destruct (decide (va < length F * PGSIZE)) as [Hlt|].
  - split; [done|]. destruct (lookup_lt_is_Some_2 F (Z.to_nat (va / PGSIZE))) as [pa Hpa]; [plia|].
    rewrite Hpa. destruct (as_map _ _ _ _ Has _ _ Hpa) as (_ & _ & <-).
    unfold leaf, leaf_at. rewrite (leaf_vpn 2 m root _ va); [done|..]; unfold vpn; plia.
  - exfalso. assert (va < MAXVA) as HM by (unfold readable in Hr; bool_prop; lia).
    destruct (decide (va < TRAPFRAME)).
    + unfold readable in Hr. rewrite (as_free _ _ _ _ Has va) in Hr by lia. bool_prop. done.
    + rewrite Hhi in Hr by lia. done.
Qed.

Lemma readable_kpage va :
  0 <= va -> readable m root va = true -> kpage (PTE2PA (leaf m root va)).
Proof.
  intros Hva Hr. destruct (readable_page va Hva Hr) as [_ Hl].
  eapply Forall_lookup_1; [apply (as_pages _ _ _ _ Has)|done].
Qed.

Lemma readable_same_page va va' :
  0 <= va -> 0 <= va' -> va / PGSIZE = va' / PGSIZE -> readable m root va = readable m root va'.
Proof.
  intros Hva Hva' E. unfold readable, leaf, leaf_at. rewrite (leaf_vpn 2 m root va va') by done.
  f_equal. f_equal. apply eq_true_iff_eq. rewrite !Z.ltb_lt. plia.
Qed.

Lemma writable_same_page va va' :
  0 <= va -> 0 <= va' -> va / PGSIZE = va' / PGSIZE -> writable m root va = writable m root va'.
Proof.
  intros Hva Hva' E. unfold writable. rewrite (readable_same_page va va') by done.
  unfold leaf, leaf_at. by rewrite (leaf_vpn 2 m root va va').
Qed.
End as_inv.

(** ** [walkaddr] *)

Lemma walkaddr_eq s root T va :
  pt_inv (mem s) root T -> 0 <= va ->
  walkaddr root va s
  = Ret (if readable (mem s) root va then PTE2PA (leaf (mem s) root va) else 0) s.
Proof.
  intros Hpt Hva. unfold walkaddr, readable. rewrite Z.leb_antisym.
  destruct (Z.ltb_spec va MAXVA) as [Hlt|]; [|done]. cbn [negb andb].
  rewrite (bind_ret_eq _ _ _ _ _ (walk_noalloc root va s Hlt)). unfold leaf, leaf_at.
  destruct (slot 2 (mem s) root va) as [a|] eqn:Ea; cbn [from_option id].
  - destruct (slot_pg Hpt (conj Hva Hlt) Ea) as (_ & _ & Hpos). change (id a) with a.
    replace (a =? 0) with false by (symmetry; apply Z.eqb_neq; lia).
    unfold load64. msimpl. by destruct (has _ PTE_V), (has _ PTE_U).
  - rewrite has_0. done.
Qed.

(** ** Copying page by page *)

(** [k] is the number of bytes of [va, va + len) before the first one [P]
    does not accept. *)
Definition upto (P : Z -> bool) (va len k : Z) : Prop :=
  0 <= k <= len /\ (forall j, 0 <= j < k -> P (va + j) = true) /\ (k < len -> P (va + k) = false).

(** The bytes of one iteration. *)
Definition chunk (va len : Z) : Z :=
  let n := PGSIZE - (va - PGROUNDDOWN va) in if len <? n then len else n.

Lemma chunk_spec va len :
  0 <= va < 2 ^ 64 -> 0 < len ->
  0 < chunk va len <= len /\ va mod PGSIZE + chunk va len <= PGSIZE /\
  va - PGROUNDDOWN va = va mod PGSIZE /\
  (chunk va len < len -> va + chunk va len = PGROUNDDOWN va + PGSIZE).
Proof.
  intros Hva Hlen. unfold chunk. rewrite PGROUNDDOWN_val.
  destruct (Z.ltb_spec len (PGSIZE - (va - (va - va mod PGSIZE)))); split_and!; plia.
Qed.

Lemma upto_none P va len : 0 < len -> P va = false -> upto P va len 0.
Proof. intros. split_and!; [lia..|lia|]. by rewrite Z.add_0_r. Qed.

Lemma upto_chunk P va len k :
  (forall x y, 0 <= x -> 0 <= y -> x / PGSIZE = y / PGSIZE -> P x = P y) ->
  0 <= va < 2 ^ 64 -> 0 < len -> P va = true ->
  upto P (va + chunk va len) (len - chunk va len) k -> upto P va len (chunk va len + k).
Proof.
  intros HP Hva Hlen Hv (Hk & Hall & Hend). destruct (chunk_spec va len Hva Hlen) as (Hc & Hp & _ & _).
  split_and!; [lia..| |].
  - intros j Hj. destruct (decide (j < chunk va len)).
    + rewrite (HP _ va); [done|lia|lia|]. clear - Hva Hj Hp l. plia.
    + specialize (Hall (j - chunk va len) ltac:(lia)). rewrite <- Hall. f_equal. lia.
  - intros. rewrite <- Hend by lia. f_equal. lia.
Qed.

(** The result code. *)
Definition copy_ret (k len : Z) : Z := if k =? len then 0 else -1.

Section copyin.
Context {s : phys} {root : Z} {T : tables} {F : list Z}
  (Has : as_inv (mem s) root T F) (Hhi : high_private (mem s) root).

Lemma readable_rounddown va :
  0 <= va < 2 ^ 64 -> readable (mem s) root (PGROUNDDOWN va) = readable (mem s) root va.
Proof.
  intros Hva. apply (@readable_same_page _); [rewrite PGROUNDDOWN_val; plia|lia|].
  rewrite PGROUNDDOWN_val. plia.
Qed.

Lemma walkaddr_rounddown va :
  0 <= va < 2 ^ 64 ->
  walkaddr root (PGROUNDDOWN va) s
  = Ret (if readable (mem s) root va then F !!! Z.to_nat (va / PGSIZE) else 0) s.
Proof.
  intros Hva. rewrite (walkaddr_eq s root T _ (as_pt _ _ _ _ Has)).
  2:{ rewrite PGROUNDDOWN_val. plia. }
  rewrite readable_rounddown, leaf_rounddown by done.
  destruct (readable (mem s) root va) eqn:E; [|done].
  destruct (readable_page Has Hhi va ltac:(lia) E) as [_ Hl].
  by rewrite (list_lookup_total_correct _ _ _ Hl).
Qed.

Lemma user_page_pos va :
  0 <= va -> readable (mem s) root va = true -> 0 < F !!! Z.to_nat (va / PGSIZE).
Proof.
  intros Hva Hr. destruct (readable_page Has Hhi va Hva Hr) as [_ Hl].
  rewrite (list_lookup_total_correct _ _ _ Hl). apply kpage_pos. by apply (readable_kpage Has Hhi).
Qed.

Lemma copyin_loop_spec fuel va len dst :
  0 <= va < 2 ^ 64 -> 0 <= len < Z.of_nat fuel ->
  exists k, upto (readable (mem s) root) va len k /\
    copyin_loop fuel root va len dst s
    = Ret (copy_ret k len, dst ++ ubytes F (mem s) va (Z.to_nat k)) s.
Proof.
  revert va len dst. induction fuel as [|fuel IH]; intros va len dst Hva Hlen; [lia|].
  cbn [copyin_loop]. destruct (Z.ltb_spec 0 len) as [Hpos|].
  2:{ exists 0. assert (len = 0) as -> by lia. rewrite app_nil_r. split; [split_and!; lia|done]. }
  rewrite (bind_ret_eq _ _ _ _ _ (walkaddr_rounddown va Hva)).
  destruct (readable (mem s) root va) eqn:Hr.
  2:{ exists 0. split; [by apply upto_none|]. rewrite app_nil_r. unfold copy_ret.
      replace (0 =? len) with false by lia. done. }
  pose proof (user_page_pos va ltac:(lia) Hr).
  replace (F !!! Z.to_nat (va / PGSIZE) =? 0) with false by lia.
  fold (chunk va len). destruct (chunk_spec va len Hva Hpos) as (Hc & Hp & Hoff & Hnext).
  unfold load_bytes. rewrite (bind_ret_eq _ _ _ (ubytes F (mem s) va (Z.to_nat (chunk va len))) s).
  2:{ unfold gets. by rewrite Hoff, ubytes_page by lia. }
  assert (va < MAXVA) by (unfold readable in Hr; bool_prop; lia).
  rewrite PGROUNDDOWN_val in *.
  destruct (decide (chunk va len = len)) as [E|Hne].
  - destruct (IH (u64 (va - va mod PGSIZE + PGSIZE)) (len - chunk va len)
      (dst ++ ubytes F (mem s) va (Z.to_nat (chunk va len)))) as (k & Hk & ->).
    { apply wrap_range. lia. } { lia. }
    assert (k = 0) as -> by (destruct Hk as [? _]; lia). exists len. rewrite E, app_nil_r.
    split; [|unfold copy_ret; by rewrite Z.sub_diag, !Z.eqb_refl].
    replace len with (chunk va len + 0) at 2 by lia. apply upto_chunk; try done.
    + intros. by apply (@readable_same_page _).
    + split_and!; lia.
  - rewrite <- Hnext by lia. rewrite wrap_id by (unfold in_range; revert Hp; plia).
    destruct (IH (va + chunk va len) (len - chunk va len)
      (dst ++ ubytes F (mem s) va (Z.to_nat (chunk va len)))) as (k & Hk & ->).
    { revert Hp. plia. } { lia. }
    exists (chunk va len + k). split.
    + apply upto_chunk; try done. intros. by apply (@readable_same_page _).
    + destruct Hk as [Hk _]. rewrite <- app_assoc, ubytes_add by lia.
      unfold copy_ret. do 2 f_equal. 
      destruct (Z.eqb_spec k (len - chunk va len)), (Z.eqb_spec (chunk va len + k) len); lia.
Qed.

(** ** [copyinstr] *)

(** What [copyinstr] returns, from [va] and after [dst]: the bytes up to the
    first NUL, or an error at an unreadable byte or after [max] bytes. *)
Definition copyinstr_post (va max : Z) (dst : list Z) (r : Z * list Z) : Prop :=
  exists k, 0 <= k <= max /\
    (forall j, 0 <= j < k -> readable (mem s) root (va + j) = true /\ ubyte F (mem s) (va + j) <> 0) /\
    ((r = (0, dst ++ ubytes F (mem s) va (Z.to_nat (k + 1))) /\ k < max /\
      readable (mem s) root (va + k) = true /\ ubyte F (mem s) (va + k) = 0) \/
     (r = (-1, dst ++ ubytes F (mem s) va (Z.to_nat k)) /\
      (k < max -> readable (mem s) root (va + k) = false))).

Lemma copyinstr_bytes_spec m p n :
  match copyinstr_bytes m p n with
  | (bs, true) => exists k : nat, (k < n)%nat /\ ld8 m (p + k) = 0 /\
      (forall j, 0 <= j < k -> ld8 m (p + j) <> 0) /\ bs = ld_bytes m p (S k)
  | (bs, false) => bs = ld_bytes m p n /\ forall j, 0 <= j < n -> ld8 m (p + j) <> 0
  end.
Proof.
  revert p. induction n as [|n IH]; intros p; cbn [copyinstr_bytes]; [split; [done|lia]|].
  destruct (Z.eqb_spec (ld8 m p) 0) as [E|Hne].
  { exists 0%nat. rewrite Z.add_0_r. split_and!; [lia|done|lia|]. simpl. by f_equal. }
  specialize (IH (p + 1)). destruct (copyinstr_bytes m (p + 1) n) as [bs []].
  - destruct IH as (k & Hk & Hz & Hnz & ->). exists (S k). split_and!; [lia| | |done].
    + rewrite <- Hz. f_equal. lia.
    + intros j Hj. destruct (decide (j = 0)) as [->|]; [by rewrite Z.add_0_r|].
      replace (p + j) with (p + 1 + (j - 1)) by lia. apply Hnz. lia.
  - destruct IH as [-> Hnz]. split; [done|]. intros j Hj.
    destruct (decide (j = 0)) as [->|]; [by rewrite Z.add_0_r|].
    replace (p + j) with (p + 1 + (j - 1)) by lia. apply Hnz. lia.
Qed.

(** A page whose bytes are all nonzero is copied whole. *)
Lemma copyinstr_post_chunk va max n dst r :
  0 <= n <= max ->
  (forall j, 0 <= j < n -> readable (mem s) root (va + j) = true /\ ubyte F (mem s) (va + j) <> 0) ->
  copyinstr_post (va + n) (max - n) (dst ++ ubytes F (mem s) va (Z.to_nat n)) r ->
  copyinstr_post va max dst r.
Proof.
  intros Hn Hnz (k & Hk & Hall & Hr). exists (n + k). split; [lia|]. split.
  - intros j Hj. destruct (decide (j < n)); [apply Hnz; lia|].
    replace (va + j) with (va + n + (j - n)) by lia. apply Hall. lia.
  - rewrite <- !app_assoc, !ubytes_add, !Z.add_assoc in Hr by lia. rewrite Z.add_assoc.
    destruct Hr as [(? & ? & ? & ?)|[? ?]]; [left|right]; split_and!; (done || lia || auto with lia).
Qed.

Lemma copyinstr_loop_spec fuel va max dst :
  0 <= va < 2 ^ 64 -> 0 <= max < Z.of_nat fuel ->
  wp (copyinstr_loop fuel root va max dst s) (fun r s' => s' = s /\ copyinstr_post va max dst r).
Proof.
  revert va max dst. induction fuel as [|fuel IH]; intros va max dst Hva Hmax; [lia|].
  cbn [copyinstr_loop]. destruct (Z.ltb_spec 0 max) as [Hpos|].
  2:{ apply wp_ret. split; [done|]. exists 0. rewrite app_nil_r. split_and!; [lia..|]. right. split; [done|lia]. }
  rewrite (bind_ret_eq _ _ _ _ _ (walkaddr_rounddown va Hva)).
  destruct (readable (mem s) root va) eqn:Hr.
  2:{ apply wp_ret. split; [done|]. exists 0. rewrite app_nil_r, Z.add_0_r. split_and!; [lia..|]. by right. }
  pose proof (user_page_pos va ltac:(lia) Hr).
  replace (F !!! Z.to_nat (va / PGSIZE) =? 0) with false by lia.
  fold (chunk va max). destruct (chunk_spec va max Hva Hpos) as (Hc & Hp & Hoff & Hnext).
  apply wp_gets. rewrite Hoff. set (n := chunk va max) in *.
  assert (forall j, 0 <= j < n -> readable (mem s) root (va + j) = true) as Hrd.
  { intros j Hj. rewrite <- Hr. apply (@readable_same_page _); [lia..|]. clear - Hva Hj Hp. plia. }
  assert (forall j, 0 <= j < n -> ubyte F (mem s) (va + j)
    = ld8 (mem s) (F !!! Z.to_nat (va / PGSIZE) + va mod PGSIZE + j)) as Hub.
  { intros j Hj. apply ubyte_page; lia. }
  pose proof (copyinstr_bytes_spec (mem s) (F !!! Z.to_nat (va / PGSIZE) + va mod PGSIZE) (Z.to_nat n)) as Hb.
  destruct (copyinstr_bytes _ _ _) as [bs []].
  - destruct Hb as (k & Hk & Hz & Hnz & ->). apply wp_ret. split; [done|]. exists (Z.of_nat k).
    split; [lia|]. split.
    + intros j Hj. split; [apply Hrd; lia|]. rewrite Hub by lia. apply Hnz. lia.
    + left. rewrite ubytes_page by lia. split_and!; [|lia|apply Hrd; lia|by rewrite Hub by lia].
      do 3 f_equal. lia.
  - destruct Hb as [-> Hnz]. rewrite ubytes_page by lia.
    assert (va < MAXVA) by (unfold readable in Hr; bool_prop; lia).
    eapply wp_mono; [apply IH|].
    { apply wrap_range. lia. } { lia. }
    intros r s' [-> Hpost]. split; [done|]. apply (copyinstr_post_chunk va max n); [lia| |].
    + intros j Hj. split; [by apply Hrd|]. rewrite Hub by lia. apply Hnz. lia.
    + destruct (decide (n = max)) as [E|Hne].
      * rewrite E, Z.sub_diag in *. destruct Hpost as (k & Hk & _ & Hpost).
        assert (k = 0) as -> by lia. exists 0. split; [lia|]. split; [lia|].
        destruct Hpost as [(_ & ? & _)|[-> _]]; [lia|]. right. split; [done|lia].
      * rewrite PGROUNDDOWN_val in *. rewrite <- Hnext in Hpost by lia.
        rewrite wrap_id in Hpost by (unfold in_range; revert Hp; plia). done.
Qed.
End copyin.

(** ** [copyout] *)

Lemma uwritten_nil F m va : uwritten F m m va [].
Proof. intros x Hx. rewrite decide_False; [done|]. simpl. lia. Qed.

Lemma uwritten_app F m1 m2 m3 va a b :
  uwritten F m1 m2 va a -> uwritten F m2 m3 (va + length a) b -> uwritten F m1 m3 va (a ++ b).
Proof.
  intros H1 H2 x Hx. rewrite H2, H1, length_app by done. repeat case_decide; try lia; try done.
  - rewrite lookup_total_app_r by lia. do 2 f_equal. lia.
  - rewrite lookup_total_app_l by lia. done.
Qed.

Lemma uwritten_page F m va bs :
  NoDup F -> Forall aligned F -> 0 <= va -> va < length F * PGSIZE ->
  va mod PGSIZE + length bs <= PGSIZE ->
  uwritten F m (st_bytes m (F !!! Z.to_nat (va / PGSIZE) + va mod PGSIZE) bs) va bs.
Proof.
  intros Hnd Hal Hva HvF Hfit x Hx. unfold ubyte, ld8. rewrite lookup_st_bytes.
  assert (forall y, 0 <= y < length F * PGSIZE -> exists p, F !! Z.to_nat (y / PGSIZE) = Some p /\ aligned p) as Hget.
  { intros y Hy. destruct (lookup_lt_is_Some_2 F (Z.to_nat (y / PGSIZE))) as [p Hp]; [plia|].
    exists p. split; [done|]. by eapply Forall_lookup_1. }
  destruct (Hget va) as (p & Hp & Hpa); [lia|]. destruct (Hget x Hx) as (q & Hq & Hqa).
  rewrite (list_lookup_total_correct _ _ _ Hp), (list_lookup_total_correct _ _ _ Hq).
  destruct (decide (va / PGSIZE = x / PGSIZE)) as [E|Hne].
  - rewrite E in Hp. assert (q = p) as -> by congruence.
    assert (x mod PGSIZE - va mod PGSIZE = x - va) as E2 by (clear - E; plia).
    repeat case_decide; try lia; try done. rewrite Z.mod_mod by lia. do 2 f_equal. lia.
  - assert (p <> q) as Hpq.
    { intros ->. apply Hne. pose proof (NoDup_lookup _ _ _ _ Hnd Hp Hq). clear - H0 Hva Hx. plia. }
    rewrite !decide_False; [done|..].
    + intros ?. apply Hne. clear - H0 Hfit Hva. plia.
    + clear - Hpq Hpa Hqa Hfit. unfold aligned in *. plia.
Qed.

Lemma readable_frame P m m' root T va :
  pt_inv m root T -> same_except P m m' -> P ## dom T -> 0 <= va ->
  readable m' root va = readable m root va /\ writable m' root va = writable m root va.
Proof.
  intros Hpt Hs HP Hva. unfold writable, readable. destruct (Z.ltb_spec va MAXVA); [|done].
  by rewrite (leaf_frame Hpt P m').
Qed.

Lemma st_bytes_user F m va bs :
  Forall aligned F -> F !! Z.to_nat (va / PGSIZE) <> None -> 0 <= va ->
  va mod PGSIZE + length bs <= PGSIZE ->
  same_except (list_to_set F) m (st_bytes m (F !!! Z.to_nat (va / PGSIZE) + va mod PGSIZE) bs).
Proof.
  intros Hal Hin Hva Hfit x Hx. destruct (F !! Z.to_nat (va / PGSIZE)) as [p|] eqn:Hp; [|done].
  rewrite (list_lookup_total_correct _ _ _ Hp). rewrite lookup_st_bytes, decide_False; [done|].
  intros Hin'. apply Hx. assert (aligned p) as Hpa by by eapply Forall_lookup_1.
  rewrite (pg_in p) by (done || (clear - Hin' Hfit Hva; plia)).
  apply elem_of_list_to_set. by eapply list_elem_of_lookup_2.
Qed.

Lemma writable_page m root T F va :
  as_inv m root T F -> high_private m root -> 0 <= va -> writable m root va = true ->
  va < length F * PGSIZE /\ F !! Z.to_nat (va / PGSIZE) = Some (PTE2PA (leaf m root va)).
Proof. unfold writable. intros Has Hhi Hva Hw. bool_prop. by eapply readable_page. Qed.

(** One page of [copyout]. *)
Lemma copyout_access s root T va :
  pt_inv (mem s) root T -> 0 <= va < 2 ^ 64 ->
  forall (B : Type) (err : M phys B) (k : Z -> M phys B),
  (if MAXVA <=? PGROUNDDOWN va then err
   else pte ← walk root (PGROUNDDOWN va) false;
        if pte =? 0 then err
        else v ← load64 pte;
             if negb (has v PTE_V) || negb (has v PTE_U) || negb (has v PTE_W) then err
             else k v) s
  = (if writable (mem s) root va then k (leaf (mem s) root va) else err) s.
Proof.
  intros Hpt Hva B err k. unfold writable, readable.
  assert ((va <? MAXVA) = negb (MAXVA <=? PGROUNDDOWN va)) as ->.
  { rewrite <- Z.ltb_antisym. apply eq_true_iff_eq. rewrite !Z.ltb_lt, PGROUNDDOWN_val. plia. }
  destruct (Z.leb_spec MAXVA (PGROUNDDOWN va)) as [|Hlt]; [done|]. cbn [negb andb].
  rewrite (bind_ret_eq _ _ _ _ _ (walk_noalloc root _ s Hlt)).
  rewrite <- leaf_rounddown by done. unfold leaf, leaf_at.
  destruct (slot 2 (mem s) root (PGROUNDDOWN va)) as [a|] eqn:Ea; cbn [from_option id].
  - destruct (slot_pg Hpt (va := PGROUNDDOWN va) ltac:(rewrite PGROUNDDOWN_val in *; plia) Ea) as (_ & _ & Hpos).
    change (id a) with a. replace (a =? 0) with false by lia.
    unfold load64. msimpl. by destruct (has _ PTE_V), (has _ PTE_U), (has _ PTE_W).
  - rewrite has_0. done.
Qed.

Definition copyout_post (s : phys) (root : Z) (F : list Z) (va : Z) (src : list Z) (r : Z) (s' : phys) : Prop :=
  exists k, upto (writable (mem s) root) va (length src) k /\ r = copy_ret k (length src) /\
    uwritten F (mem s) (mem s') va (take (Z.to_nat k) src) /\
    same_except (list_to_set F) (mem s) (mem s') /\ freelist s' = freelist s.

Lemma copyout_post_none s root F va src :
  (0 < length src)%nat -> writable (mem s) root va = false -> copyout_post s root F va src (-1) s.
Proof.
  intros Hl Hw. exists 0. split_and!; [by apply upto_none; [lia|]| |apply uwritten_nil|done|done].
  unfold copy_ret. replace (0 =? length src) with false by lia. done.
Qed.

Lemma copyout_loop_spec fuel s root T F va src :
  as_inv (mem s) root T F -> high_private (mem s) root ->
  0 <= va < 2 ^ 64 -> (length src < fuel)%nat ->
  wp (copyout_loop fuel root va src s) (copyout_post s root F va src).
Proof.
  revert s va src. induction fuel as [|fuel IH]; intros s va src Has Hhi Hva Hf; [lia|].
  cbn [copyout_loop]. destruct (Z.ltb_spec 0 (length src)) as [Hpos|].
  2:{ apply wp_ret. exists 0. destruct src; [|simpl in *; lia].
      split_and!; [split_and!; simpl; lia|done|apply uwritten_nil|done|done]. }
  cbv zeta. rewrite (copyout_access s root T va (as_pt _ _ _ _ Has) Hva).
  destruct (writable (mem s) root va) eqn:Hw; [|by apply wp_ret, copyout_post_none; [lia|]].
  fold (chunk va (length src)).
  destruct (chunk_spec va (length src) Hva Hpos) as (Hc & Hp & Hoff & Hnext).
  destruct (writable_page _ _ _ _ va Has Hhi ltac:(lia) Hw) as [HvF Hl].
  assert (va < MAXVA) as HvM by (unfold writable, readable in Hw; bool_prop; lia).
  rewrite Hoff, <- (list_lookup_total_correct _ _ _ Hl). unfold store_bytes. apply wp_modify.
  set (n := chunk va (length src)) in *. set (bs := take (Z.to_nat n) src).
  assert (length bs = Z.to_nat n) as Hlbs by (unfold bs; rewrite length_take; lia).
  assert (Forall aligned F) as Hal.
  { eapply Forall_impl; [apply (as_pages _ _ _ _ Has)|]. intros; by apply kpage_aligned. }
  set (s1 := set_mem _ s).
  assert (same_except (list_to_set F) (mem s) (mem s1)) as Hs1
    by (apply st_bytes_user; [done|by rewrite Hl|lia|lia]).
  assert (uwritten F (mem s) (mem s1) va bs) as Hw1
    by (apply uwritten_page; [apply Has|done|lia|lia|lia]).
  pose proof (as_disj _ _ _ _ Has) as HFT.
  pose proof (fun x => readable_frame _ _ _ root T x (as_pt _ _ _ _ Has) Hs1 HFT) as Hfr.
  eapply wp_mono.
  { apply (IH s1); [by eapply as_inv_frame| | |].
    - intros x Hx. rewrite (proj1 (Hfr x ltac:(plia))). by apply Hhi.
    - rewrite PGROUNDDOWN_val. plia.
    - rewrite length_drop. lia. }
  intros r s' (k & Hk & -> & Hw2 & Hs2 & Hfl).
  rewrite length_drop, Nat2Z.inj_sub, Z2Nat.id in Hk by lia.
  exists (n + k). rewrite PGROUNDDOWN_val in *.
  assert (upto (writable (mem s) root) (va + n) (length src - n) k) as Hk'.
  { destruct (decide (n = length src)) as [E|Hne].
    - rewrite E in *. destruct Hk as [Hk _]. split_and!; lia.
    - rewrite Hnext by lia. destruct Hk as (Hkb & Hall & Hend). split; [done|].
      assert (0 <= va - va mod PGSIZE + PGSIZE) by plia.
      split; [intros j Hj; rewrite <- (proj2 (Hfr (va - va mod PGSIZE + PGSIZE + j) ltac:(lia))); by apply Hall|].
      intros; rewrite <- (proj2 (Hfr (va - va mod PGSIZE + PGSIZE + k) ltac:(lia))); by apply Hend. }
  split_and!.
  - apply upto_chunk; try done. intros. by apply writable_same_page.
  - rewrite length_drop, Nat2Z.inj_sub, Z2Nat.id by lia. unfold copy_ret.
    destruct (Z.eqb_spec k (length src - n)), (Z.eqb_spec (n + k) (length src)); lia.
  - destruct Hk' as [Hkb _]. rewrite Z2Nat.inj_add by lia.
    rewrite <- (take_drop (Z.to_nat n) src), take_app_add' by (fold bs; lia). fold bs.
    eapply uwritten_app; [exact Hw1|]. rewrite Hlbs, Z2Nat.id by lia.
    destruct (decide (n = length src)) as [E|Hne]; [|by rewrite Hnext by lia].
    assert (k = 0) as -> by lia. rewrite take_0 in *. intros x Hx. rewrite (Hw2 x Hx).
    simpl. rewrite !decide_False by lia. done.
  - eapply same_except_mono; [|eapply same_except_trans; [exact Hs1|exact Hs2]]. set_solver.
  - rewrite Hfl. done.
Qed.
End copy.
