(* ===== verification/VmProc.v ===== *)
(** * Process page tables: [proc_pagetable] and [proc_freepagetable]

    The two functions of kernel/proc.c that create and destroy the page table
    of a process: an empty address space with the trampoline and the trapframe
    mapped above it, out of the user's reach. *)

From S2P Require Import Prelude Riscv Mem Kstring Kalloc Vm VmPt VmWalk VmMap VmUser VmFree VmCopy.

Section procvm.
Context `{Linker}.

(** [trapframe] is [p->trapframe]. *)
Definition proc_pagetable (trapframe : Z) : M phys Z :=
  pagetable ← uvmcreate;
  if pagetable =? 0 then mret 0
  else
    r ← mappages pagetable TRAMPOLINE PGSIZE trampoline (Z.lor PTE_R PTE_X);
    if r <? 0 then uvmfree pagetable 0;; mret 0
    else
      r ← mappages pagetable TRAPFRAME PGSIZE trapframe (Z.lor PTE_R PTE_W);
      if r <? 0 then
        uvmunmap pagetable TRAMPOLINE 1 false;;
        uvmfree pagetable 0;;
        mret 0
      else mret pagetable.

Definition proc_freepagetable (pagetable sz : Z) : M phys unit :=
  uvmunmap pagetable TRAMPOLINE 1 false;;
  uvmunmap pagetable TRAPFRAME 1 false;;
  uvmfree pagetable sz.

(** ** [uvmcreate] *)

(** A zeroed page is an empty page table. *)
Lemma pt_inv_zero m root :
  kpage root -> (forall j, 0 <= j < 512 -> ld64 m (pte_at root j) = 0) ->
  pt_inv m root {[root := (2%nat, 0)]}.
Proof.
  intros Hr Hz. split.
  - apply lookup_singleton_eq.
  - by intros p l [<- _]%lookup_singleton_Some.
  - intros p n pre [<- [= <- <-]]%lookup_singleton_Some. done.
  - intros p n pre [<- [= <- <-]]%lookup_singleton_Some. done.
  - intros p n pre i [<- _]%lookup_singleton_Some Hi. by rewrite Hz.
  - intros p n pre [<- [= <- <-]]%lookup_singleton_Some Hn. lia.
Qed.

Lemma leaf_zero m root va :
  (forall j, 0 <= j < 512 -> ld64 m (pte_at root j) = 0) -> leaf m root va = 0.
Proof.
  intros Hz. unfold leaf, leaf_at. cbn [slot]. rewrite Hz by (apply (PX_range 2); lia). done.
Qed.

Lemma uvmcreate_spec s L :
  kalloc_inv s L ->
  wp (uvmcreate s) (fun r s' =>
    match L with
    | [] => r = 0 /\ s' = s
    | p :: L' => r = p /\ proc_mem s' p {[p := (2%nat, 0)]} [] L' /\
        same_except {[p]} (mem s) (mem s') /\ forall va, leaf (mem s') p va = 0
    end).
Proof.
  intros Hk. unfold uvmcreate. wp_step (kalloc_spec s L Hk). destruct L as [|p L].
  { intros r s' [-> ->]. by apply wp_ret. }
  intros r s1 (-> & Hk1 & Hs1 & _). destruct (kalloc_inv_app _ [] _ _ Hk) as [Hp HpL]. simpl in HpL.
  pose proof (kpage_pos p Hp). pose proof (kpage_aligned p Hp). replace (p =? 0) with false by lia.
  apply wp_modify, wp_ret. split; [done|].
  assert (forall j, 0 <= j < 512 -> ld64 (memset (mem s1) p 0 PGSIZE) (pte_at p j) = 0) as Hz.
  { intros j Hj. apply ld64_memset_zero; unfold pte_at; plia. }
  assert (same_except {[p]} (mem s1) (memset (mem s1) p 0 PGSIZE)) as Hs2 by by apply same_except_memset_page.
  split_and!.
  - split; simpl.
    + eapply kalloc_inv_frame; [done|done|set_solver].
    + split; [by apply pt_inv_zero|done|done|apply NoDup_nil_2|set_solver|done|].
      intros va _. by rewrite leaf_zero.
    + set_solver.
    + set_solver.
  - eapply same_except_mono; [|eapply same_except_trans; [exact Hs1|exact Hs2]]. set_solver.
  - intros va. by apply leaf_zero.
Qed.

(** ** Mapping and unmapping above the user's memory *)

Lemma mappages_high s root T L va pa perm :
  proc_mem s root T [] L -> aligned va -> TRAPFRAME <= va < MAXVA ->
  aligned pa -> 0 <= pa < PHYSTOP -> 0 <= perm < 1024 ->
  (forall x, in_pages va 1 x -> has (leaf (mem s) root x) PTE_V = false) ->
  wp (mappages root va PGSIZE pa perm s) (fun r s' => exists T' L',
    proc_mem s' root T' [] L' /\ T ⊆ T' /\ all_pages T' [] L' = all_pages T [] L /\
    same_except (dom T') (mem s) (mem s') /\ (r = 0 \/ r = -1) /\
    forall x, 0 <= x < MAXVA -> leaf (mem s') root x =
      if decide (r = 0 /\ in_pages va 1 x) then mk_pte pa perm else leaf (mem s) root x).
Proof.
  intros [Hk Has HdT HdF] Hva HvM Hpa Hpr Hperm Hfree.
  assert (va + PGSIZE <= MAXVA /\ pa + PGSIZE <= 2 ^ 56) as [? ?].
  { change (2 ^ 56) with 72057594037927936. unfold aligned in Hva. plia. }
  assert (0 <= va) by plia.
  eapply wp_mono; [apply (mappages_spec root va PGSIZE pa perm s T L); try (done || lia || apply Has)|].
  - intros r s' (T' & L' & k & Hext & Hleaf & Hr).
    pose proof (pt_ext_disj _ _ _ _ _ _ _ Hext (ki_nodup _ _ Hk) HdT) as HdT'.
    destruct Hext as [Hpt' Hk' Hsub (U & HL & HdT1) Hf].
    assert (forall x, 0 <= x < MAXVA -> leaf (mem s') root x =
      if decide (r = 0 /\ in_pages va 1 x) then mk_pte pa perm else leaf (mem s) root x) as Hleaf'.
    { intros x Hx. rewrite Hleaf by done. destruct Hr as [[-> Hk1]|(-> & Hk1 & _)].
      - assert (k = 1%nat) as -> by (revert Hk1; layout; lia). change (Z.of_nat 1) with 1.
        destruct (decide (in_pages va 1 x)) as [Hin|Hin];
          [rewrite decide_True by done|rewrite decide_False by tauto; done].
        rewrite (pg_in va); [f_equal; lia|done|]. unfold in_pages in Hin. lia.
      - assert (k = 0%nat) as -> by (revert Hk1; layout; lia).
        rewrite !decide_False; [done|intros [? _]; lia|unfold in_pages; lia]. }
    exists T', L'. split_and!; [|done| |done|destruct Hr as [[-> _]|[-> _]]; lia|done].
    + split; [done| |done|set_solver]. split; [done|done|done|apply NoDup_nil_2|set_solver|done|].
      intros x Hx. simpl in Hx. rewrite Hleaf' by plia. rewrite decide_False by (unfold in_pages; plia).
      apply (as_free _ _ _ _ Has). simpl. lia.
    + unfold all_pages. rewrite HdT1, HL, list_to_set_app_L. set_solver.
Qed.

Lemma uvmunmap_high s root T F L va :
  proc_mem s root T F L -> aligned va -> TRAPFRAME <= va < MAXVA ->
  has (leaf (mem s) root va) PTE_V = true -> PTE_FLAGS (leaf (mem s) root va) <> PTE_V ->
  wp (uvmunmap root va 1 false s) (fun _ s' =>
    proc_mem s' root T F L /\ same_except (dom T) (mem s) (mem s') /\
    forall x, 0 <= x < MAXVA -> leaf (mem s') root x =
      if decide (in_pages va 1 x) then 0 else leaf (mem s) root x).
Proof.
  intros [Hk [Hpt Hmap Hpg Hnd Hdisj Hsz Hfree] HdT HdF] Hva HvM Hv Hf.
  eapply wp_mono; [apply (uvmunmap_spec 1 root va false [] s T L); try (done || plia)|].
  - unfold aligned in Hva. plia.
  - intros i Hi. assert (i = 0%nat) as -> by lia. change (0%nat * PGSIZE) with 0. by rewrite Z.add_0_r.
  - intros [] s' (Hk' & Hpt' & Hleaf & Hs). rewrite list_to_set_nil, union_empty_r_L in Hs. split_and!; [|done|done].
    split; [done| |done|done]. split; try done.
    + intros i pa Hi. apply lookup_lt_Some in Hi as Hlt. rewrite Hleaf by plia.
      rewrite decide_False by (unfold in_pages; plia). by apply Hmap.
    + intros x Hx. rewrite Hleaf by plia. rewrite decide_False by (unfold in_pages; plia). by apply Hfree.
Qed.

(** ** The whole functions *)

(** The trapframe and the trampoline are mapped, without [PTE_U]. *)
Definition high_mapped (m : memory) (root tf : Z) : Prop :=
  forall va, TRAPFRAME <= va < MAXVA -> leaf m root va =
    if decide (va < TRAMPOLINE) then mk_pte tf (Z.lor PTE_R PTE_W)
    else mk_pte trampoline (Z.lor PTE_R PTE_X).

Lemma trampoline_pa : aligned trampoline /\ 0 <= trampoline < PHYSTOP.
Proof.
  split; [apply trampoline_aligned|].
  pose proof trampoline_range. pose proof etext_kend. pose proof kend_range. plia.
Qed.

Lemma high_mapped_private m root tf :
  aligned tf -> 0 <= tf < PHYSTOP -> high_mapped m root tf -> high_private m root.
Proof.
  intros Ha Hr Hm va Hva. unfold readable. rewrite (Hm va Hva). destruct trampoline_pa as [Ht Hrt].
  assert (2 ^ 56 > PHYSTOP) by done.
  case_decide; rewrite (mk_pte_has _ _ PTE_U) by (done || lia); by rewrite andb_false_r.
Qed.

(** Freeing an address space without user pages, where nothing is mapped. *)
Lemma uvmfree_empty s root T L :
  proc_mem s root T [] L -> (forall va, TRAPFRAME <= va < MAXVA -> leaf (mem s) root va = 0) ->
  wp ((uvmfree root 0;; mret 0) s) (fun r s' => r = 0 /\
    exists L', kalloc_inv s' L' /\ list_to_set L' = all_pages T [] L /\
      same_except (dom T) (mem s) (mem s')).
Proof.
  intros Hpm Hz. wp_step (uvmfree_spec s root T [] L 0); [done|done|done| |].
  - intros va Hva. by rewrite Hz.
  - intros [] s' (L' & Hk & HL & Hs). apply wp_ret. split; [done|]. exists L'.
    rewrite list_to_set_nil, union_empty_r_L in Hs. done.
Qed.

Definition proc_pagetable_post (tf : Z) (L : list Z) (s : phys) (r : Z) (s' : phys) : Prop :=
  same_except (list_to_set L) (mem s) (mem s') /\
  ((r = 0 /\ exists L', kalloc_inv s' L' /\ list_to_set L' =@{gset Z} list_to_set L) \/
   (r <> 0 /\ exists T L', proc_mem s' r T [] L' /\ all_pages T [] L' = list_to_set L /\
      high_mapped (mem s') r tf)).

Lemma proc_pagetable_spec tf s L :
  kalloc_inv s L -> aligned tf -> 0 <= tf < PHYSTOP ->
  wp (proc_pagetable tf s) (proc_pagetable_post tf L s).
Proof.
  intros Hk Htf Htr. unfold proc_pagetable. destruct trampoline_pa as [Ht Hrt].
  wp_step (uvmcreate_spec s L Hk). intros root s1. destruct L as [|p L].
  { intros [-> ->]. apply wp_ret. split; [done|]. left. split; [done|]. by exists []. }
  intros (-> & Hpm1 & Hs1 & Hz1). destruct (kalloc_inv_app _ [] _ _ Hk) as [Hp _].
  pose proof (kpage_pos p Hp). replace (p =? 0) with false by lia.
  wp_step (mappages_high s1 p _ L TRAMPOLINE trampoline (Z.lor PTE_R PTE_X)); try done.
  { intros x _. by rewrite Hz1. }
  intros r s2 (T2 & L2 & Hpm2 & Hsub2 & Hall2 & Hs2 & Hr & Hleaf2).
  assert (all_pages T2 [] L2 = list_to_set (p :: L)) as Hall2'.
  { rewrite Hall2. unfold all_pages. rewrite dom_singleton_L. set_solver. }
  assert (dom T2 ⊆ list_to_set (p :: L)) as Hd2 by (rewrite <- Hall2'; unfold all_pages; set_solver).
  assert (same_except (list_to_set (p :: L)) (mem s) (mem s2)) as Hs02.
  { eapply same_except_mono; [|eapply same_except_trans; [exact Hs1|exact Hs2]]. set_solver. }
  destruct Hr as [-> | ->]; cbn [Z.ltb Z.compare].
  2:{ eapply wp_mono; [apply (uvmfree_empty s2 p T2 L2 Hpm2)|].
      - intros va Hva. rewrite Hleaf2 by plia. rewrite decide_False by (intros [? _]; lia). apply Hz1.
      - intros r s3 (-> & L3 & Hk3 & HL3 & Hs3). split; [|left; split; [done|exists L3; by rewrite HL3]].
        eapply same_except_mono; [|eapply same_except_trans; [exact Hs02|exact Hs3]]. set_solver. }
  wp_step (mappages_high s2 p T2 L2 TRAPFRAME tf (Z.lor PTE_R PTE_W)); try done.
  { intros x Hx. unfold in_pages in Hx. rewrite Hleaf2 by plia.
    rewrite decide_False by (unfold in_pages; plia). by rewrite Hz1. }
  intros r s3 (T3 & L3 & Hpm3 & Hsub3 & Hall3 & Hs3 & Hr & Hleaf3).
  assert (dom T3 ⊆ list_to_set (p :: L)) as Hd3 by (rewrite <- Hall2', <- Hall3; unfold all_pages; set_solver).
  assert (same_except (list_to_set (p :: L)) (mem s) (mem s3)) as Hs03.
  { eapply same_except_mono; [|eapply same_except_trans; [exact Hs02|exact Hs3]]. set_solver. }
  destruct Hr as [-> | ->]; cbn [Z.ltb Z.compare].
  - apply wp_ret. split; [done|]. right. split; [lia|]. exists T3, L3. split_and!; [done|by rewrite Hall3|].
    intros va Hva. rewrite Hleaf3, Hleaf2 by plia.
    repeat case_decide; try done; exfalso; unfold in_pages in *; plia.
  - assert (forall x, 0 <= x < MAXVA -> leaf (mem s3) p x =
      if decide (in_pages TRAMPOLINE 1 x) then mk_pte trampoline (Z.lor PTE_R PTE_X) else 0) as Hl.
    { intros x Hx. rewrite Hleaf3, Hleaf2 by done. rewrite decide_False by (intros [? _]; lia).
      rewrite Hz1. apply decide_ext. tauto. }
    assert (2 ^ 56 > PHYSTOP) by done.
    wp_step (uvmunmap_high s3 p T3 [] L3 TRAMPOLINE); try done.
    { rewrite Hl, decide_True by done. apply mk_pte_valid; (done || lia). }
    { rewrite Hl, decide_True by done. rewrite mk_pte_FLAGS by (done || lia). done. }
    intros [] s4 (Hpm4 & Hs4 & Hleaf4). eapply wp_mono; [apply (uvmfree_empty s4 p T3 L3 Hpm4)|].
    + intros va Hva. rewrite Hleaf4, Hl by plia. by repeat case_decide.
    + intros r s5 (-> & L5 & Hk5 & HL5 & Hs5). split.
      * eapply same_except_mono; [|eapply same_except_trans; [exact Hs03|eapply same_except_trans; [exact Hs4|exact Hs5]]].
        set_solver.
      * left. split; [done|]. exists L5. by rewrite HL5, Hall3.
Qed.

Lemma proc_freepagetable_spec s root T F L sz tf :
  proc_mem s root T F L -> 0 <= sz <= TRAPFRAME -> npages sz = length F ->
  aligned tf -> 0 <= tf < PHYSTOP -> high_mapped (mem s) root tf ->
  wp (proc_freepagetable root sz s) (fun _ s' => exists L',
    kalloc_inv s' L' /\ list_to_set L' = all_pages T F L /\
    same_except (dom T ∪ list_to_set F) (mem s) (mem s')).
Proof.
  intros Hpm Hsz Hn Htf Htr Hhi. unfold proc_freepagetable. destruct trampoline_pa as [Ht Hrt].
  assert (2 ^ 56 > PHYSTOP) by done.
  wp_step (uvmunmap_high s root T F L TRAMPOLINE); try done.
  { rewrite Hhi by plia. rewrite decide_False by done. apply mk_pte_valid; (done || lia). }
  { rewrite Hhi by plia. rewrite decide_False by done. rewrite mk_pte_FLAGS by (done || lia). done. }
  intros [] s1 (Hpm1 & Hs1 & Hleaf1).
  assert (leaf (mem s1) root TRAPFRAME = mk_pte tf (Z.lor PTE_R PTE_W)) as E1.
  { rewrite Hleaf1, Hhi by plia. rewrite decide_False, decide_True by (unfold in_pages; plia). done. }
  wp_step (uvmunmap_high s1 root T F L TRAPFRAME); try done.
  { rewrite E1. apply mk_pte_valid; (done || lia). }
  { rewrite E1, mk_pte_FLAGS by (done || lia). done. }
  intros [] s2 (Hpm2 & Hs2 & Hleaf2).
  eapply wp_mono; [apply (uvmfree_spec s2 root T F L sz); [done..|]|].
  - intros va Hva. rewrite Hleaf2, Hleaf1 by plia.
    repeat case_decide; try done; exfalso; unfold in_pages in *; plia.
  - intros [] s3 (L3 & Hk3 & HL3 & Hs3). exists L3. split_and!; [done|done|].
    eapply same_except_mono; [|eapply same_except_trans; [exact Hs1|eapply same_except_trans; [exact Hs2|exact Hs3]]].
    set_solver.
Qed.
End procvm.
