(* ===== verification/VmThms.v ===== *)
(** * What the memory subsystem guarantees

    The properties of kernel/string.c, kernel/kalloc.c, kernel/vm.c and of the
    page-table functions of kernel/proc.c, each with an execution of the model
    on a small machine that meets its hypotheses. *)

From S2P Require Import Prelude Riscv Mem Kstring Kalloc Vm VmPt VmWalk VmMap VmUser VmAlloc VmFork VmFree VmCopy VmProc.

(** ** A small machine *)

(** A kernel image that leaves sixteen pages to the allocator. *)
Definition demo_linker : Linker.
Proof.
  refine {| kend := PHYSTOP - 16 * PGSIZE; etext := KERNBASE + 8 * PGSIZE;
            trampoline := KERNBASE + 7 * PGSIZE |}; abstract done.
Defined.

Definition demo0 : phys := mk_phys ∅ 0.

(** Boot the allocator, create a process with a page and a half of memory,
    and a second one with none. *)
Definition demo_run : M phys (Z * Z * Z) :=
  @kinit demo_linker;;
  tf ← kalloc;
  root ← @proc_pagetable demo_linker tf;
  if root =? 0 then mret (0, 0, 0)
  else
    r ← @uvmalloc demo_linker root 0 5000 PTE_W;
    if r =? 0 then mret (root, 0, 0)
    else
      tf2 ← kalloc;
      if tf2 =? 0 then mret (root, r, 0)
      else
        root2 ← @proc_pagetable demo_linker tf2;
        mret (root, r, root2).

Lemma demo_run_ok :
  match demo_run demo0 with
  | Ret (root, r, root2) s => negb (root =? 0) && (r =? 5000) && negb (root2 =? 0) &&
      forallb (fun j : nat => writable (mem s) root (4090 + j)) (seq 0 20)
  | _ => false
  end = true.
Proof. vm_compute. reflexivity. Qed.

Section thms.
Context `{Linker}.

(** ** The allocator *)

Lemma kinit_spec s :
  freelist s = 0 ->
  wp (kinit s) (fun _ s' => exists L, kalloc_inv s' L /\ forall p, p ∈ L <-> kpage p).
Proof.
  intros Hf. unfold kinit, freerange.
  assert (0 <= kend <= PHYSTOP) as Hk.
  { pose proof etext_kend. pose proof kend_range. pose proof trampoline_range. plia. }
  destruct (PGROUNDUP_bounds kend) as [[Hb1 Hb2] Hal]; [plia|].
  assert (PGROUNDUP kend <= PHYSTOP) as Hle by (revert Hal Hb1 Hb2; plia).
  eapply wp_mono; [apply (freerange_loop_spec _ (PGROUNDUP kend) PHYSTOP s []); try done|].
  - split; [done|done|apply NoDup_nil_2].
  - lia.
  - by intros q ?%not_elem_of_nil.
  - intros [] s' (L & Hinv & HL). rewrite app_nil_r in Hinv. exists L. split; [done|].
    intros p. rewrite HL. unfold kpage, aligned in *. plia.
Qed.

(** C10: in every run of the allocator that starts with [kinit], and whatever
    the holders of the pages write into them, the pages of the machine are
    split between the free list and the pages handed out: no page is handed
    out twice, none is lost, and [kalloc] fails only when all are in use. *)
Theorem kalloc_partition s s0 s1 live :
  freelist s = 0 -> kinit s = Ret tt s0 -> rtc kstep (s0, []) (s1, live) ->
  exists L, kalloc_inv s1 L /\ NoDup (live ++ L) /\ (forall p, (p ∈ live ++ L) <-> kpage p) /\
    match L with
    | [] => kalloc s1 = Ret 0 s1
    | p :: L' => exists s2, kalloc s1 = Ret p s2 /\ (p ∉ live) /\ p <> 0
    end.
Proof.
  intros Hf Hk Hsteps. pose proof (kinit_spec s Hf) as Hwp. rewrite Hk in Hwp.
  destruct Hwp as (L0 & Hinv0 & HL0).
  assert (partitioned L0 (s1, live)) as (L & Hinv & Hlive & Hnd & Hperm).
  { remember (s0, []) as c0 eqn:E0. remember (s1, live) as c1 eqn:E1.
    assert (partitioned L0 c0) as Hp0.
    { subst. exists L0. simpl. split_and!; [done|done| |done]. apply Hinv0. }
    clear - Hp0 Hsteps. induction Hsteps; [done|]. apply IHHsteps. by eapply kstep_partitioned. }
  simpl in *. exists L. split_and!; [done|done| |].
  - intros p. by rewrite Hperm.
  - pose proof (kalloc_spec s1 L Hinv) as Hw. apply wp_inv in Hw as (r & s2 & E & Hw). destruct L as [|p L].
    + destruct Hw as [-> ->]. done.
    + destruct Hw as (-> & _). exists s2. split_and!; [done| |].
      * apply NoDup_app in Hnd as (_ & Hd & _). intros Hp. apply (Hd p Hp). by left.
      * destruct Hinv as [_ [?%kpage_pos _]%Forall_cons _]. lia.
Qed.

(** ** Fork *)

(** [uvmcopy] gives the child its own copy of every page of the parent,
    byte for byte and with the same permissions, in pages that were free; it
    changes nothing outside those pages, so the parent keeps its memory.  When
    memory runs out it returns -1 with every page it took given back or in the
    child's table. *)
Theorem uvmcopy_correct s old To Fo new Tn L sz :
  0 <= sz <= TRAPFRAME -> npages sz = length Fo ->
  as_inv (mem s) old To Fo -> proc_mem s new Tn [] L ->
  dom To ∪ list_to_set Fo ## all_pages Tn [] L ->
  wp (uvmcopy old new sz s) (fun r s' => exists Tn' Fn L',
    proc_mem s' new Tn' Fn L' /\ all_pages Tn' Fn L' = all_pages Tn [] L /\
    as_inv (mem s') old To Fo /\
    (forall p x, p ∈ Fo -> 0 <= x < PGSIZE -> ld8 (mem s') (p + x) = ld8 (mem s) (p + x)) /\
    ((r = 0 /\ length Fn = npages sz /\
      forall (k : nat) p q, Fo !! k = Some p -> Fn !! k = Some q ->
        (q ∉ Fo) /\
        PTE_FLAGS (leaf (mem s') new (k * PGSIZE)) = PTE_FLAGS (leaf (mem s) old (k * PGSIZE)) /\
        forall x, 0 <= x < PGSIZE -> ld8 (mem s') (q + x) = ld8 (mem s) (p + x)) \/
     (r = -1 /\ Fn = []))).
Proof.
  intros Hsz Hlen Has Hpm Hd. eapply wp_mono; [by eapply uvmcopy_spec|].
  intros r s' (Tn' & Fn & L' & Hpm' & _ & Hall & Hs & _ & Hr). exists Tn', Fn, L'.
  split_and!; [done|done| | |].
  - eapply as_inv_frame; [done|done|]. clear - Hd. set_solver.
  - intros p x Hp Hx. unfold ld8. rewrite Hs; [done|]. rewrite (pg_in p); [clear - Hd Hp; set_solver| |lia].
    eapply kpage_aligned, Forall_forall; [apply (as_pages _ _ _ _ Has)|done].
  - destruct Hr as [(-> & Hl & Hcop)|[-> ->]]; [left|by right]. split_and!; [done|done|].
    intros k p q Hp Hq. destruct (Hcop k p q Hp Hq) as [Heq Hfl]. split_and!; [|done|done].
    apply list_elem_of_lookup_2 in Hq. assert (q ∈ all_pages Tn' Fn L') as Hqa
      by (unfold all_pages; clear - Hq; set_solver).
    rewrite Hall in Hqa. clear - Hd Hqa. set_solver.
Qed.

(** ** Growing, shrinking and freeing *)

(** [uvmalloc] either extends the address space to [newsz] with zeroed
    pages that the user can read, keeping the old pages and their entries, or
    returns 0 and leaves the user memory as it was; no page is lost. *)
Theorem uvmalloc_correct s root T F L oldsz newsz xperm :
  proc_mem s root T F L -> 0 <= oldsz <= newsz -> newsz <= TRAPFRAME -> 0 <= xperm < 1024 ->
  npages oldsz = length F ->
  wp (uvmalloc root oldsz newsz xperm s) (fun r s' => exists T' F' L',
    proc_mem s' root T' F' L' /\ all_pages T' F' L' = all_pages T F L /\
    (forall p x, p ∈ F -> 0 <= x < PGSIZE -> ld8 (mem s') (p + x) = ld8 (mem s) (p + x)) /\
    (forall va, 0 <= va < MAXVA -> va < length F * PGSIZE \/ TRAPFRAME <= va ->
       leaf (mem s') root va = leaf (mem s) root va) /\
    ((r = newsz /\ length F' = npages newsz /\ take (length F) F' = F /\
      forall (i : nat) pa, (length F <= i)%nat -> F' !! i = Some pa ->
        leaf (mem s') root (i * PGSIZE) = mk_pte pa (Z.lor (Z.lor PTE_R PTE_U) xperm) /\
        forall x, 0 <= x < PGSIZE -> ld8 (mem s') (pa + x) = 0) \/
     (r = 0 /\ F' = F))).
Proof.
  intros Hpm Hold Hnew Hx Hlen. pose proof (pm_as _ _ _ _ _ Hpm) as Has.
  eapply wp_mono; [by eapply uvmalloc_spec|].
  intros r s' (T' & F' & L' & Hpm' & Hsub & Hall & Hr). exists T', F', L'. rewrite app_nil_r in *.
  pose proof (as_disj _ _ _ _ (pm_as _ _ _ _ _ Hpm')) as Hd'. pose proof (pm_dF _ _ _ _ _ Hpm) as HdF.
  pose proof (as_size _ _ _ _ (pm_as _ _ _ _ _ Hpm')) as Hsz'.
  assert (forall P, same_except P (mem s) (mem s') -> (list_to_set F : gset Z) ## P ->
    forall p x, p ∈ F -> 0 <= x < PGSIZE -> ld8 (mem s') (p + x) = ld8 (mem s) (p + x)) as Hkeep.
  { intros P Hs HP p x Hp Hx'. unfold ld8. rewrite Hs; [done|]. rewrite (pg_in p); [set_solver| |lia].
    eapply kpage_aligned, Forall_forall; [apply (as_pages _ _ _ _ Has)|done]. }
  destruct Hr as [(-> & New & -> & HlF & [Hfr Hlf Hnw Hz])|(-> & -> & [Hfr Hlf])].
  - rewrite app_nil_r in *. rewrite length_app in *.
    assert (length New = npages newsz - length F)%nat as HlN by lia.
    assert (length F <= npages newsz)%nat by (rewrite <- Hlen; apply npages_mono; lia).
    split_and!; [done|done| | |left; split_and!; [done| |apply take_app_length|]].
    + eapply Hkeep; [exact Hfr|]. rewrite list_to_set_app_L in Hd'. clear - Hd' HdF. set_solver.
    + intros va Hva Hout. apply Hlf; [done|]. unfold in_pages. plia.
    + lia.
    + intros i pa Hi Hpa. rewrite lookup_app_r in Hpa by done. split.
      * rewrite <- (Hnw _ _ Hpa). f_equal. rewrite Nat2Z.inj_sub by done. plia.
      * intros x Hx'. apply (Hz pa); [by eapply list_elem_of_lookup_2|lia].
  - split_and!; [done|done| |done|by right]. eapply Hkeep; [exact Hfr|]. clear - Hd' HdF. set_solver.
Qed.

(** [uvmdealloc] keeps exactly the pages up to [newsz], with their entries
    and contents, and returns the others to the allocator. *)
Theorem uvmdealloc_correct s root T F L oldsz newsz :
  proc_mem s root T F L -> 0 <= newsz -> 0 <= oldsz <= TRAPFRAME -> npages oldsz = length F ->
  wp (uvmdealloc root oldsz newsz s) (fun r s' => exists n L',
    r = Z.min oldsz newsz /\ n = npages r /\
    proc_mem s' root T (take n F) L' /\ all_pages T (take n F) L' = all_pages T F L /\
    (forall va, 0 <= va < n * PGSIZE \/ TRAPFRAME <= va < MAXVA ->
       leaf (mem s') root va = leaf (mem s) root va) /\
    (forall p x, p ∈ take n F -> 0 <= x < PGSIZE -> ld8 (mem s') (p + x) = ld8 (mem s) (p + x))).
Proof.
  intros Hpm Hnew Hold Hlen. pose proof (pm_as _ _ _ _ _ Hpm) as Has.
  pose proof (as_size _ _ _ _ Has) as Hsz.
  assert (kept F oldsz newsz = npages (Z.min oldsz newsz) /\ (npages (Z.min oldsz newsz) <= length F)%nat) as [Hkept Hn].
  { rewrite <- Hlen. split; [|apply npages_mono; lia]. unfold kept.
    destruct (Z.leb_spec oldsz newsz); [rewrite Z.min_l by lia|rewrite Z.min_r by lia]; congruence. }
  pose proof (uvmdealloc_spec s root T F L oldsz newsz Hpm Hnew Hold Hlen) as Hwp.
  cbv zeta in Hwp. rewrite Hkept in Hwp. set (n := npages (Z.min oldsz newsz)) in *.
  eapply wp_mono; [exact Hwp|]. intros r s' (-> & Hpm' & Hl & Hs).
  exists n, (reverse (drop n F) ++ L). split_and!; [done|done|done| | |].
  - assert (list_to_set F =@{gset Z} list_to_set (take n F) ∪ list_to_set (drop n F)) as E
      by (rewrite <- list_to_set_app_L; by rewrite take_drop).
    assert (list_to_set (reverse (drop n F)) =@{gset Z} list_to_set (drop n F)) as Er
      by (apply set_eq; intros; rewrite !elem_of_list_to_set; apply elem_of_reverse).
    unfold all_pages. rewrite list_to_set_app_L, E, Er. clear. set_solver.
  - intros va Hva. apply Hl; [plia|]. unfold in_pages. plia.
  - intros p x Hp Hx. unfold ld8. rewrite Hs; [done|]. rewrite (pg_in p); [| |lia].
    + pose proof (as_nodup _ _ _ _ Has) as Hnd. rewrite <- (take_drop n F) in Hnd.
      apply NoDup_app in Hnd as (_ & Hnd & _). pose proof (Hnd p Hp).
      pose proof (as_disj _ _ _ _ (pm_as _ _ _ _ _ Hpm')). clear - Hp H0 H1. set_solver.
    + eapply kpage_aligned, Forall_forall; [apply (as_pages _ _ _ _ (pm_as _ _ _ _ _ Hpm'))|done].
Qed.

(** [proc_pagetable] makes an empty address space with the trampoline and
    the trapframe mapped out of the user's reach, or fails; in both cases no
    page is lost and nothing but free pages is written. *)
Theorem proc_pagetable_correct tf s L :
  kalloc_inv s L -> kpage tf ->
  wp (proc_pagetable tf s) (fun r s' =>
    same_except (list_to_set L) (mem s) (mem s') /\
    ((r = 0 /\ exists L', kalloc_inv s' L' /\ list_to_set L' =@{gset Z} list_to_set L) \/
     (r <> 0 /\ exists T L', proc_mem s' r T [] L' /\ all_pages T [] L' = list_to_set L /\
        high_private (mem s') r /\
        PTE2PA (leaf (mem s') r TRAPFRAME) = tf /\
        PTE2PA (leaf (mem s') r TRAMPOLINE) = trampoline))).
Proof.
  intros Hk Htf. pose proof (kpage_range tf Htf). pose proof (kpage_aligned tf Htf) as Hal.
  assert (0 <= tf < PHYSTOP) as Hr by plia. destruct trampoline_pa as [Ht Hrt].
  eapply wp_mono; [by eapply proc_pagetable_spec|]. intros r s' [Hs Hpost]. split; [done|].
  destruct Hpost as [?|(Hr0 & T & L' & Hpm & Hall & Hm)]; [by left|right]. split; [done|].
  assert (2 ^ 56 > PHYSTOP) by done.
  exists T, L'. split_and!; [done|done|by apply (high_mapped_private _ _ tf)|..]; rewrite Hm by plia.
  - rewrite decide_True by done. apply mk_pte_PA; (done || lia).
  - rewrite decide_False by done. apply mk_pte_PA; (done || lia).
Qed.

(** C11: freeing a process's page table returns every user page and every table
    page to the allocator, exactly once each, and panics nowhere. *)
Theorem proc_freepagetable_correct s root T F L sz tf :
  proc_mem s root T F L -> 0 <= sz <= TRAPFRAME -> npages sz = length F ->
  aligned tf -> 0 <= tf < PHYSTOP -> high_mapped (mem s) root tf ->
  wp (proc_freepagetable root sz s) (fun _ s' => exists L',
    kalloc_inv s' L' /\ NoDup L' /\ list_to_set L' = all_pages T F L).
Proof.
  intros Hpm Hsz Hn Ha Hr Hm. eapply wp_mono; [by eapply proc_freepagetable_spec|].
  intros [] s' (L' & Hk & HL & _). exists L'. split_and!; [done|apply Hk|done].
Qed.

(** ** Copying to and from user space *)

(** [copyin] returns exactly the user bytes at [srcva], and succeeds
    exactly when the page table lets the user read all of them. *)
Theorem copyin_correct s root T F srcva len :
  as_inv (mem s) root T F -> high_private (mem s) root ->
  0 <= srcva < 2 ^ 64 -> 0 <= len ->
  exists k, upto (readable (mem s) root) srcva len k /\
    copyin root srcva len s = Ret (copy_ret k len, ubytes F (mem s) srcva (Z.to_nat k)) s.
Proof.
  intros Has Hhi Hva Hlen. unfold copyin.
  destruct (copyin_loop_spec Has Hhi (S (Z.to_nat len)) srcva len []) as (k & Hk & E); [done|lia|].
  by exists k.
Qed.

(** [copyinstr] returns the user's string with its terminating NUL when it
    ends within [max] readable bytes, and -1 otherwise. *)
Theorem copyinstr_correct s root T F srcva max :
  as_inv (mem s) root T F -> high_private (mem s) root ->
  0 <= srcva < 2 ^ 64 -> 0 <= max ->
  exists k r, copyinstr root srcva max s = Ret r s /\ 0 <= k <= max /\
    (forall j, 0 <= j < k -> readable (mem s) root (srcva + j) = true /\ ubyte F (mem s) (srcva + j) <> 0) /\
    ((r.1 = 0 /\ k < max /\ readable (mem s) root (srcva + k) = true /\
      ubyte F (mem s) (srcva + k) = 0 /\ r.2 = ubytes F (mem s) srcva (Z.to_nat k) ++ [0]) \/
     (r.1 = -1 /\ (k < max -> readable (mem s) root (srcva + k) = false))).
Proof.
  intros Has Hhi Hva Hmax. unfold copyinstr.
  pose proof (copyinstr_loop_spec Has Hhi (S (Z.to_nat max)) srcva max [] Hva ltac:(lia)) as Hw.
  apply wp_inv in Hw as (r & s' & E & -> & k & Hk & Hall & Hr). exists k, r. split_and!; [done|lia|lia|done|].
  destruct Hr as [(-> & ? & ? & Hz)|[-> ?]]; [left|by right]. split_and!; [done..|].
  simpl. rewrite <- ubytes_add by lia. simpl. by rewrite Hz.
Qed.

(** [copyout] writes exactly the bytes of [src] at [dstva], up to the first
    byte the user may not write, and nothing else of the machine's memory. *)
Theorem copyout_correct s root T F dstva src :
  as_inv (mem s) root T F -> high_private (mem s) root -> 0 <= dstva < 2 ^ 64 ->
  wp (copyout root dstva src s) (fun r s' => exists k,
    upto (writable (mem s) root) dstva (length src) k /\ r = copy_ret k (length src) /\
    uwritten F (mem s) (mem s') dstva (take (Z.to_nat k) src) /\
    as_inv (mem s') root T F /\
    same_except (list_to_set F) (mem s) (mem s') /\ freelist s' = freelist s).
Proof.
  intros Has Hhi Hva. eapply wp_mono; [eapply copyout_loop_spec; try done; lia|].
  intros r s' (k & Hk & -> & Hw & Hs & Hf). exists k. split_and!; try done.
  eapply as_inv_frame; [done|done|apply (as_disj _ _ _ _ Has)].
Qed.

(** What a successful [copyout] wrote, [copyin] reads back. *)
Theorem copyout_copyin s root T F va src :
  as_inv (mem s) root T F -> high_private (mem s) root -> 0 <= va < 2 ^ 64 ->
  wp (copyout root va src s) (fun r s' =>
    (r = 0 \/ r = -1) /\
    (r = 0 -> copyin root va (length src) s' = Ret (0, (fun b => b mod 256) <$> src) s')).
Proof.
  intros Has Hhi Hva. eapply wp_mono; [eapply copyout_loop_spec; try done; lia|].
  intros r s' (k & Hk & -> & Hw & Hs & Hf). split; [unfold copy_ret; destruct (_ =? _); auto|].
  unfold copy_ret. destruct (Z.eqb_spec k (length src)) as [->|]; [intros _|done].
  rewrite Nat2Z.id, firstn_all in Hw. pose proof (as_disj _ _ _ _ Has) as Hd.
  pose proof (fun x => readable_frame _ _ _ root T x (as_pt _ _ _ _ Has) Hs Hd) as Hfr.
  assert (as_inv (mem s') root T F) as Has' by by eapply as_inv_frame.
  assert (high_private (mem s') root) as Hhi'.
  { intros x Hx. rewrite (proj1 (Hfr x ltac:(plia))). by apply Hhi. }
  destruct Hk as (_ & Hall & _).
  assert (forall j, 0 <= j < length src -> readable (mem s') root (va + j) = true) as Hrd.
  { intros j Hj. rewrite (proj1 (Hfr (va + j) ltac:(lia))). specialize (Hall j Hj).
    unfold writable in Hall. by bool_prop. }
  unfold copyin.
  destruct (copyin_loop_spec Has' Hhi' (S (Z.to_nat (length src))) va (length src) []) as (k & Hk & E); [done|lia|].
  assert (k = length src) as ->.
  { destruct Hk as (Hk1 & _ & Hk2). destruct (decide (k = length src)); [done|].
    rewrite Hrd in Hk2 by lia. assert (k < length src) as Hlt by lia. by specialize (Hk2 Hlt). }
  rewrite E. unfold copy_ret. rewrite Z.eqb_refl, Nat2Z.id. do 2 f_equal.
  apply list_eq. intros i. destruct (decide (i < length src)%nat) as [Hi|].
  - simpl. rewrite lookup_ubytes by done. rewrite list_lookup_fmap.
    destruct (lookup_lt_is_Some_2 src i Hi) as [b Hb]. rewrite Hb. simpl. f_equal.
    destruct (readable_page Has' Hhi' (va + i) ltac:(lia) ltac:(apply Hrd; lia)) as [HF _].
    rewrite Hw, decide_True by lia. replace (Z.to_nat (va + i - va)) with i by lia.
    by rewrite (list_lookup_total_correct _ _ _ Hb).
  - simpl. rewrite !lookup_ge_None_2; [done|rewrite length_fmap; lia|rewrite length_ubytes; lia].
Qed.

(** ** Mapping *)

(** [mappages] adds exactly the entries for [va, va + size) to the map the
    page table denotes, taking table pages from the free list; it fails only
    when the free list is empty, with a prefix of the range mapped. *)
Theorem mappages_correct root va size pa perm s T L :
  kalloc_inv s L -> pt_inv (mem s) root T -> dom T ## list_to_set L ->
  aligned va -> size mod PGSIZE = 0 -> 0 < size -> 0 <= va -> va + size <= MAXVA ->
  aligned pa -> 0 <= pa -> pa + size <= 2 ^ 56 -> 0 <= perm < 1024 ->
  (forall va', va <= va' < va + size -> has (leaf (mem s) root va') PTE_V = false) ->
  wp (mappages root va size pa perm s) (fun r s' => exists T' L1 L' (k : nat),
    L = L1 ++ L' /\ kalloc_inv s' L' /\
    pt_inv (mem s') root T' /\ T ⊆ T' /\ dom T' = dom T ∪ list_to_set L1 /\
    (forall va', 0 <= va' < MAXVA -> leaf (mem s') root va' =
       if decide (va <= va' < va + k * PGSIZE) then mk_pte (pa + (pg va' - va)) perm
       else leaf (mem s) root va') /\
    same_except (dom T') (mem s) (mem s') /\
    ((r = 0 /\ k * PGSIZE = size) \/ (r = -1 /\ k * PGSIZE < size /\ L' = []))).
Proof.
  intros. eapply wp_mono; [by apply (mappages_spec root va size pa perm s T L)|].
  intros r s' (T' & L' & k & [Hpt Hk Hsub (L1 & HL & Hdom) Hs] & Hleaf & Hr).
  exists T', L1, L', k. by split_and!.
Qed.

(** The three page-table indices and the offset identify a virtual address:
    [walk] sends two addresses below [MAXVA] to the same entry exactly when
    they are on the same page. *)
Theorem PX_vpn va va' :
  0 <= va < MAXVA -> 0 <= va' < MAXVA ->
  (forall level, 0 <= level <= 2 -> PX level va = PX level va') <-> va / PGSIZE = va' / PGSIZE.
Proof.
  intros Hva Hva'. split.
  - intros HPX. assert (forall n : nat, (n <= 3)%nat -> va / 2 ^ (39 - 9 * n) = va' / 2 ^ (39 - 9 * n)) as Hn.
    { intros n. induction n as [|n IH]; intros Hle.
      { simpl. rewrite !Z.div_small by plia. done. }
      specialize (IH ltac:(lia)). specialize (HPX (2 - n) ltac:(lia)). rewrite !PX_val in HPX by lia.
      replace (12 + 9 * (2 - n)) with (39 - 9 * S n) in HPX by lia.
      replace (39 - 9 * n) with (39 - 9 * S n + 9) in IH by lia.
      rewrite !Z.pow_add_r, <- !Z.div_div in IH by lia. change (2 ^ 9) with 512 in IH. zdm. }
    exact (Hn 3%nat ltac:(lia)).
  - intros E level Hl. rewrite !PX_val by lia. change PGSIZE with (2 ^ 12) in E.
    by rewrite !Z.pow_add_r, <- !Z.div_div, E by lia.
Qed.
End thms.

(** ** Strings *)

(** [memmove] copies as if through a buffer, however the two areas
    overlap, and changes nothing else. *)
Theorem memmove_correct m dst src n x :
  0 <= n ->
  ld8 (memmove m dst src n) x
  = if decide (dst <= x < dst + n) then ld8 m (src + (x - dst)) else ld8 m x.
Proof.
  intros Hn. unfold ld8 at 1. rewrite lookup_memmove by done. case_decide; [|done].
  unfold ld8. apply Z.mod_mod. lia.
Qed.

(** [safestrcpy] with [n > 0] leaves in [s] the longest prefix of the
    string [t] that fits in [n - 1] bytes, always NUL-terminated within the
    buffer, and writes nowhere else. *)
Theorem safestrcpy_correct m s t n :
  0 < n -> (s + n <= t \/ t + n <= s) ->
  exists k, 0 <= k < n /\ (forall i, 0 <= i < k -> ld8 m (t + i) <> 0) /\
    (k = n - 1 \/ ld8 m (t + k) = 0) /\
    ld8 (safestrcpy m s t n) (s + k) = 0 /\
    (forall i, 0 <= i < k -> ld8 (safestrcpy m s t n) (s + i) = ld8 m (t + i)) /\
    (forall x, x < s \/ s + n <= x -> ld8 (safestrcpy m s t n) x = ld8 m x).
Proof.
  intros Hn Hd. unfold safestrcpy. replace (n <=? 0) with false by lia.
  set (N := Z.to_nat (n - 1)).
  assert (exists k, 0 <= k <= N /\ (forall i, 0 <= i < k -> ld8 m (t + i) <> 0) /\ (k = N \/ ld8 m (t + k) = 0))
    as (k & Hk & Hnz & Hend).
  { clearbody N. clear. induction N as [|N (k & Hk & Hnz & Hend)].
    - exists 0. split_and!; [lia|lia|lia|by left].
    - destruct (decide (ld8 m (t + k) = 0)) as [Hz|Hz].
      + exists k. split_and!; [lia|lia|done|by right].
      + destruct Hend as [->|]; [|done]. exists (S N). split_and!; [lia|lia| |by left].
        intros i Hi. destruct (decide (i = N)) as [->|]; [done|]. apply Hnz. lia. }
  destruct (safestrcpy_loop_spec m s t N k) as [Hz Hc]; [lia|done|done|done|].
  exists k. split_and!; [lia|lia|done|destruct Hend; [left; lia|by right]|done|done|].
  intros x Hx. unfold ld8. by rewrite safestrcpy_loop_out by lia.
Qed.

(** ** The properties at work *)

#[local] Existing Instance demo_linker.

(** The state [demo_run] leaves. *)
Record demo_state (s : phys) (tf root : Z) (T : tables) (F : list Z) (tf2 root2 : Z) (T2 : tables)
    (L : list Z) : Prop := {
  ds_tf : kpage tf;
  ds_as : as_inv (mem s) root T F;
  ds_len : length F = 2%nat;
  ds_high : high_mapped (mem s) root tf;
  ds_tf2 : kpage tf2;
  ds_pm2 : proc_mem s root2 T2 [] L;
  ds_high2 : high_mapped (mem s) root2 tf2;
  ds_disj : dom T ∪ list_to_set F ## all_pages T2 [] L;
  ds_apart : (tf2 ∉ dom T) /\ (tf2 ∉ dom T2);
}.

Lemma demo_run_spec :
  wp (demo_run demo0) (fun r s => r.1.1 = 0 \/ r.1.2 = 0 \/ r.2 = 0 \/
    exists tf T F tf2 T2 L, demo_state s tf r.1.1 T F tf2 r.2 T2 L).
Proof.
  unfold demo_run. wp_step (kinit_spec demo0 eq_refl). intros [] s1 (L1 & Hk1 & HL1).
  wp_step (kalloc_spec s1 L1 Hk1). intros tf s2. destruct L1 as [|tf' L1].
  { intros _. exfalso. apply (not_elem_of_nil (PHYSTOP - PGSIZE)). by apply HL1. }
  intros (-> & Hk2 & _). destruct (kalloc_inv_app _ [] _ _ Hk1) as [Htf _].
  assert (0 <= tf' < PHYSTOP /\ aligned tf') as [Hr Ha]
    by (pose proof (kpage_range tf' Htf); pose proof (kpage_aligned tf' Htf); split; [plia|done]).
  wp_step (proc_pagetable_spec tf' s2 L1 Hk2 Ha Hr). intros root s3 [_ [[-> _]|(Hr0 & T & L2 & Hpm & Hall & Hm)]].
  { apply wp_ret. by left. }
  replace (root =? 0) with false by lia.
  wp_step (uvmalloc_spec s3 root T [] L2 0 5000 PTE_W Hpm); [done|done|done|done|].
  intros r s4 (T4 & F4 & L4 & Hpm4 & _ & _ & [(-> & New & -> & Hlen & Hg)|(-> & _)]).
  2:{ apply wp_ret. right. by left. }
  pose proof (as_size _ _ _ _ (pm_as _ _ _ _ _ Hpm4)) as Hsz.
  assert (high_mapped (mem s4) root tf') as Hm4.
  { intros va Hva. rewrite (gr_leaf _ _ _ _ _ _ _ _ _ _ _ Hg); [by apply Hm|plia|unfold in_pages; simpl in *; plia]. }
  cbn [Z.eqb]. wp_step (kalloc_spec s4 L4 (pm_k _ _ _ _ _ Hpm4)). intros tf2 s5. destruct L4 as [|tf2' L4].
  { intros [-> ->]. apply wp_ret. right. right. by left. }
  intros (-> & Hk5 & Hs5 & _). destruct (kalloc_inv_app _ [] _ _ (pm_k _ _ _ _ _ Hpm4)) as [Htf2 Hni2].
  pose proof (kpage_pos _ Htf2). replace (tf2' =? 0) with false by lia.
  assert (0 <= tf2' < PHYSTOP /\ aligned tf2') as [Hr2 Ha2]
    by (pose proof (kpage_range _ Htf2); pose proof (kpage_aligned _ Htf2); split; [plia|done]).
  wp_step (proc_pagetable_spec tf2' s5 L4 Hk5 Ha2 Hr2).
  intros root2 s6 [Hs6 [[-> _]|(Hr02 & T2 & L6 & Hpm6 & Hall6 & Hm6)]].
  { apply wp_ret. right. right. by left. }
  apply wp_ret. right. right. right. exists tf', T4, ([] ++ [] ++ New), tf2', T2, L6.
  destruct Hpm4 as [Hk4 Has4 HdT4 HdF4].
  assert (same_except ({[tf2']} ∪ list_to_set L4) (mem s4) (mem s6)) as Hs46 by by eapply same_except_trans.
  assert ({[tf2']} ∪ list_to_set L4 ## dom T4) as Hd by (clear - HdT4; set_solver).
  split; try done.
  - by eapply as_inv_frame.
  - intros va Hva. rewrite (leaf_frame (as_pt _ _ _ _ Has4) _ _ _ Hs46 Hd) by plia. by apply Hm4.
  - rewrite Hall6. simpl in *. clear - HdT4 HdF4. set_solver.
  - split; [clear - HdT4; set_solver|]. assert (tf2' ∉ all_pages T2 [] L6) as Hni by (rewrite Hall6; simpl in Hni2; clear - Hni2; set_solver). unfold all_pages in Hni. clear - Hni. set_solver.
Qed.

(** The first process can write its memory around the page boundary. *)
Lemma demo_user : exists s tf root T F tf2 root2 T2 L, demo_state s tf root T F tf2 root2 T2 L /\
  forall j, 0 <= j < 20%nat -> writable (mem s) root (4090 + j) = true.
Proof.
  pose proof demo_run_ok as Hok. destruct (wp_inv _ _ demo_run_spec) as ([[root r] root2] & s & E & Hpost).
  rewrite E in Hok. apply andb_true_iff in Hok as [Hok Hw]. bool_prop. simpl in Hpost.
  destruct Hpost as [?|[?|[?|(tf & T & F & tf2 & T2 & L & Hd)]]]; [lia..|].
  exists s, tf, root, T, F, tf2, root2, T2, L. split; [done|]. apply bounded_forall. exact Hw.
Qed.

Lemma demo_exists : exists s tf root T F tf2 root2 T2 L, demo_state s tf root T F tf2 root2 T2 L.
Proof. destruct demo_user as (s & tf & root & T & F & tf2 & root2 & T2 & L & Hd & _). eauto 10. Qed.

Lemma demo_private s tf root T F tf2 root2 T2 L :
  demo_state s tf root T F tf2 root2 T2 L -> high_private (mem s) root.
Proof.
  intros Hd. pose proof (kpage_range _ (ds_tf _ _ _ _ _ _ _ _ _ Hd)).
  apply (high_mapped_private _ _ tf); [apply kpage_aligned|plia|]; apply Hd.
Qed.

Lemma demo_pm s tf root T F tf2 root2 T2 L :
  demo_state s tf root T F tf2 root2 T2 L -> proc_mem s root T F L.
Proof.
  intros []. split; [apply ds_pm3|done|..]; clear - ds_disj0; unfold all_pages in *; set_solver.
Qed.

(** A page is taken from the free list and written to. *)
Lemma kalloc_partition_witness : exists s0 p s1 s2 L, kinit demo0 = Ret tt s0 /\ kalloc s0 = Ret p s1 /\ rtc kstep (s0, []) (s2, [p]) /\ ld8 (mem s2) p = 9 /\
  kalloc_inv s2 L /\ NoDup ([p] ++ L) /\ (forall q, (q ∈ [p] ++ L) <-> kpage q).
Proof.
  destruct (wp_inv _ _ (kinit_spec demo0 eq_refl)) as ([] & s0 & E & L0 & Hi & HL).
  destruct (wp_inv _ _ (kalloc_spec s0 L0 Hi)) as (p & s1 & Ek & Hk). destruct L0 as [|p0 L0].
  { assert (kpage (PHYSTOP - PGSIZE)) as Hp by (split; [done|vm_compute; split; [discriminate|reflexivity]]). apply HL in Hp. by apply not_elem_of_nil in Hp. }
  destruct Hk as (-> & _). assert (p0 <> 0) as Hp0 by (destruct Hi as [_ [?%kpage_pos _]%Forall_cons _]; lia).
  assert (same_except (list_to_set [p0]) (mem s1) (<[p0 := 9]> (mem s1))) as Hs.
  { assert (kpage p0) as [Hal _] by (apply HL; by left). intros a Ha. apply lookup_total_insert_ne. intros <-. apply Ha.
    rewrite <- (Z.add_0_r p0) at 1. rewrite (pg_in p0) by (done || plia). set_solver. }
  assert (rtc kstep (s0, []) (set_mem (<[p0 := 9]> (mem s1)) s1, [p0])) as Hr.
  { eapply rtc_l; [by apply (kstep_alloc s0 [] p0 s1)|]. apply rtc_once. by apply kstep_write. }
  destruct (kalloc_partition demo0 s0 _ [p0] eq_refl E Hr) as (L & H1 & H2 & H3 & _). exists s0, p0, s1, (set_mem (<[p0 := 9]> (mem s1)) s1), L.
  split; [exact E|]. split; [exact Ek|]. split; [exact Hr|]. split; [unfold ld8; cbn [mem set_mem]; rewrite lookup_total_insert_eq; reflexivity|]. split; [exact H1|]. split; [exact H2|exact H3].
Defined.

Lemma uvmcopy_correct_witness : exists s old new (Fo : list Z) r s',
  length Fo = 2%nat /\ uvmcopy old new 5000 s = Ret r s' /\ (r = 0 \/ r = -1).
Proof.
  destruct demo_exists as (s & tf & root & T & F & tf2 & root2 & T2 & L & Hd).
  pose proof (uvmcopy_correct s root T F root2 T2 L 5000 ltac:(done)
    ltac:(by rewrite (ds_len _ _ _ _ _ _ _ _ _ Hd)) (ds_as _ _ _ _ _ _ _ _ _ Hd)
    (ds_pm2 _ _ _ _ _ _ _ _ _ Hd) (ds_disj _ _ _ _ _ _ _ _ _ Hd)) as Hw.
  apply wp_inv in Hw as (r & s' & E & Tn & Fn & L' & _ & _ & _ & _ & Hr).
  exists s, root, root2, F, r, s'. split_and!; [apply Hd|done|]. destruct Hr as [[? _]|[? _]]; auto.
Defined.

Lemma uvmalloc_correct_witness : exists s root r s',
  uvmalloc root 0 5000 PTE_W s = Ret r s' /\ (r = 5000 \/ r = 0).
Proof.
  destruct demo_exists as (s & tf & root & T & F & tf2 & root2 & T2 & L & Hd).
  pose proof (uvmalloc_correct s root2 T2 [] L 0 5000 PTE_W (ds_pm2 _ _ _ _ _ _ _ _ _ Hd)
    ltac:(done) ltac:(done) ltac:(done) eq_refl) as Hw.
  apply wp_inv in Hw as (r & s' & E & T' & F' & L' & _ & _ & _ & _ & Hr).
  exists s, root2, r, s'. split; [done|]. destruct Hr as [[? _]|[? _]]; auto.
Defined.

Lemma uvmdealloc_correct_witness : exists s root T F r s',
  length F = 2%nat /\ uvmdealloc root 5000 100 s = Ret r s' /\ r = 100 /\
  exists L, proc_mem s' root T (take 1 F) L.
Proof.
  destruct demo_exists as (s & tf & root & T & F & tf2 & root2 & T2 & L & Hd).
  pose proof (uvmdealloc_correct s root T F L 5000 100 (demo_pm _ _ _ _ _ _ _ _ _ Hd)
    ltac:(done) ltac:(done) ltac:(by rewrite (ds_len _ _ _ _ _ _ _ _ _ Hd))) as Hw.
  apply wp_inv in Hw as (r & s' & E & n & L' & -> & -> & Hpm & _).
  exists s, root, T, F, 100, s'. split_and!; [apply Hd|done|done|]. by exists L'.
Defined.

Lemma proc_pagetable_correct_witness : exists s tf r s', proc_pagetable tf s = Ret r s' /\ kpage tf.
Proof.
  destruct demo_exists as (s & tf & root & T & F & tf2 & root2 & T2 & L & Hd).
  pose proof (proc_pagetable_correct tf s L (pm_k _ _ _ _ _ (demo_pm _ _ _ _ _ _ _ _ _ Hd))
    (ds_tf _ _ _ _ _ _ _ _ _ Hd)) as Hw.
  apply wp_inv in Hw as (r & s' & E & _). exists s, tf, r, s'. split; [done|apply Hd].
Defined.

Lemma proc_freepagetable_correct_witness : exists s root s' L,
  proc_freepagetable root 5000 s = Ret tt s' /\ kalloc_inv s' L.
Proof.
  destruct demo_exists as (s & tf & root & T & F & tf2 & root2 & T2 & L & Hd).
  pose proof (kpage_range _ (ds_tf _ _ _ _ _ _ _ _ _ Hd)).
  pose proof (proc_freepagetable_correct s root T F L 5000 tf (demo_pm _ _ _ _ _ _ _ _ _ Hd)
    ltac:(done) ltac:(by rewrite (ds_len _ _ _ _ _ _ _ _ _ Hd))
    (kpage_aligned _ (ds_tf _ _ _ _ _ _ _ _ _ Hd)) ltac:(plia) (ds_high _ _ _ _ _ _ _ _ _ Hd)) as Hw.
  apply wp_inv in Hw as ([] & s' & E & L' & Hk & _). exists s, root, s', L'. done.
Defined.

Lemma copyin_correct_witness : exists s root r, copyin root 4090 20 s = Ret r s.
Proof.
  destruct demo_exists as (s & tf & root & T & F & tf2 & root2 & T2 & L & Hd).
  destruct (copyin_correct s root T F 4090 20 (ds_as _ _ _ _ _ _ _ _ _ Hd)
    (demo_private _ _ _ _ _ _ _ _ _ Hd) ltac:(done) ltac:(done)) as (k & _ & E). eauto.
Defined.

Lemma copyinstr_correct_witness : exists s root r, copyinstr root 4090 20 s = Ret r s.
Proof.
  destruct demo_exists as (s & tf & root & T & F & tf2 & root2 & T2 & L & Hd).
  destruct (copyinstr_correct s root T F 4090 20 (ds_as _ _ _ _ _ _ _ _ _ Hd)
    (demo_private _ _ _ _ _ _ _ _ _ Hd) ltac:(done) ltac:(done)) as (k & r & E & _). eauto.
Defined.

Lemma copyout_correct_witness : exists s root r s' T F,
  copyout root 4090 [1; 2; 3; 4; 5; 6; 7; 8] s = Ret r s' /\ as_inv (mem s') root T F /\ length F = 2%nat.
Proof.
  destruct demo_exists as (s & tf & root & T & F & tf2 & root2 & T2 & L & Hd).
  pose proof (copyout_correct s root T F 4090 [1; 2; 3; 4; 5; 6; 7; 8] (ds_as _ _ _ _ _ _ _ _ _ Hd)
    (demo_private _ _ _ _ _ _ _ _ _ Hd) ltac:(done)) as Hw.
  apply wp_inv in Hw as (r & s' & E & k & _ & _ & _ & Has & _).
  exists s, root, r, s', T, F. split_and!; [done|done|apply Hd].
Defined.

Lemma copyout_copyin_witness : exists s root r s',
  copyout root 4090 [1; 2; 3; 4; 5; 6; 7; 300] s = Ret r s' /\
  (r = 0 -> copyin root 4090 8 s' = Ret (0, [1; 2; 3; 4; 5; 6; 7; 44]) s').
Proof.
  destruct demo_exists as (s & tf & root & T & F & tf2 & root2 & T2 & L & Hd).
  pose proof (copyout_copyin s root T F 4090 [1; 2; 3; 4; 5; 6; 7; 300] (ds_as _ _ _ _ _ _ _ _ _ Hd)
    (demo_private _ _ _ _ _ _ _ _ _ Hd) ltac:(done)) as Hw.
  apply wp_inv in Hw as (r & s' & E & _ & Hr). exists s, root, r, s'. split; [done|exact Hr].
Defined.

Lemma mappages_correct_witness : exists s root r s', mappages root 0 (2 * PGSIZE) KERNBASE (Z.lor PTE_R PTE_W) s = Ret r s'.
Proof.
  destruct demo_exists as (s & tf & root & T & F & tf2 & root2 & T2 & L & Hd).
  destruct (ds_pm2 _ _ _ _ _ _ _ _ _ Hd) as [Hk Has HdT _].
  pose proof (mappages_correct root2 0 (2 * PGSIZE) KERNBASE (Z.lor PTE_R PTE_W) s T2 L Hk
    (as_pt _ _ _ _ Has) HdT ltac:(done) ltac:(done) ltac:(done) ltac:(done) ltac:(done)
    ltac:(done) ltac:(done) ltac:(done) ltac:(done)
    ltac:(intros; apply (as_free _ _ _ _ Has); simpl; plia)) as Hw.
  apply wp_inv in Hw as (r & s' & E & _). eauto.
Defined.

Lemma PX_vpn_witness : PX 1 0x3ffffff008 = PX 1 0x3ffffffff8.
Proof. apply (PX_vpn 0x3ffffff008 0x3ffffffff8 ltac:(done) ltac:(done)); [reflexivity|done]. Defined.

Lemma memmove_correct_witness :
  ld8 (memmove (st_bytes ∅ 100 [1; 2; 3; 4]) 102 100 4) 105 = 4.
Proof. rewrite (memmove_correct _ 102 100 4 105 ltac:(done)). reflexivity. Defined.

Lemma safestrcpy_correct_witness : exists k, 0 <= k < 3 /\
  ld8 (safestrcpy (st_bytes ∅ 100 [97; 98; 99; 100; 0]) 200 100 3) (200 + k) = 0.
Proof.
  destruct (safestrcpy_correct (st_bytes ∅ 100 [97; 98; 99; 100; 0]) 200 100 3 ltac:(done) ltac:(right; done))
    as (k & ? & _ & _ & ? & _). eauto.
Defined.
