(* ===== verification/VmKern.v ===== *)
(** * The kernel's page table (kernel/vm.c: kvmmake, kvmmap; kernel/proc.c: proc_mapstacks)

    What the table that [kvmmake] builds maps: the devices, the kernel's text
    and data at their own addresses, the trampoline, and a stack for each
    process with an unmapped page below it. *)

From S2P Require Import Prelude Riscv Mem Kstring Kalloc Vm VmPt VmWalk VmMap VmUser VmProc VmThms.

(** A region: its address and size, where it is in memory, and its permissions. *)
Record region := mk_region { r_va : Z; r_size : Z; r_pa : Z; r_perm : Z }.

(** Linear arithmetic with the values of the layout. *)
Ltac kdev := cbn [r_va r_size r_pa r_perm]; unfold KSTACK in *; change UART0 with 268435456 in *; change VIRTIO0 with 268439552 in *; change PLIC with 201326592 in *; plia.

Section kern.
Context `{Linker}.

Definition inside (r : region) (va : Z) : Prop := r_va r <= va < r_va r + r_size r.
#[global] Instance inside_dec r va : Decision (inside r va).
Proof. unfold inside. apply _. Defined.

(** The entry of a table with these regions for the page of [va]. *)
Fixpoint kmap (R : list region) (va : Z) : Z :=
  match R with
  | [] => 0
  | r :: R => if decide (inside r va) then mk_pte (r_pa r + (pg va - r_va r)) (r_perm r) else kmap R va
  end.

Definition RW : Z := Z.lor PTE_R PTE_W.
Definition RX : Z := Z.lor PTE_R PTE_X.
Definition kregions : list region :=
  [mk_region TRAMPOLINE PGSIZE trampoline RX; mk_region etext (PHYSTOP - etext) etext RW; mk_region KERNBASE (etext - KERNBASE) KERNBASE RX;
   mk_region PLIC 0x400000 PLIC RW; mk_region VIRTIO0 PGSIZE VIRTIO0 RW; mk_region UART0 PGSIZE UART0 RW].

(** The stacks [S] of processes [0 ..]; the last one first. *)
Definition stack_regions (S : list Z) : list region := reverse (imap (fun p pa => mk_region (KSTACK (Z.of_nat p)) PGSIZE pa RW) S).

(** ** How many tables there can be *)

(** The addresses the kernel maps. *)
Definition kernel_va (va : Z) : Prop :=
  PLIC <= va < PLIC + 0x400000 \/ UART0 <= va < UART0 + 2 * PGSIZE \/ KERNBASE <= va < PHYSTOP \/ KSTACK 63 <= va < MAXVA.

(** The tables on the way to them: one for each 2MB, each 1GB, and the root. *)
Definition klabels : list (nat * Z) :=
  (2%nat, 0) :: ((1%nat,.) <$> [0; 2; 255]) ++ ((0%nat,.) <$> ([96; 97; 128] ++ seqZ 1024 64 ++ [131071])).

Lemma prefix_values va : prefix 0 va = va / 2097152 /\ prefix 1 va = va / 1073741824.
Proof. done. Qed.

Lemma kernel_label va (k : nat) : kernel_va va -> (k < 2)%nat -> (k, prefix k va) ∈ klabels.
Proof.
  intros Hv Hk. destruct (prefix_values va) as [E0 E1]. unfold kernel_va, KSTACK in Hv. change UART0 with 268435456 in Hv. change PLIC with 201326592 in Hv.
  apply elem_of_cons. right. apply elem_of_app. destruct k as [|[|k]]; [right|left|lia]; apply list_elem_of_fmap.
  - exists (prefix 0 va). split; [done|]. rewrite E0, !elem_of_app, elem_of_seqZ, !elem_of_cons, elem_of_nil. plia.
  - exists (prefix 1 va). split; [done|]. rewrite E1, !elem_of_cons, elem_of_nil. plia.
Qed.

(** No more tables than labels. *)
Lemma tables_few m root T : pt_inv m root T -> (forall q l, T !! q = Some l -> l ∈ klabels) -> (size T <= 72)%nat.
Proof.
  intros Hpt Hl. assert (length ((map_to_list T).*2) <= length klabels)%nat as Hle.
  { apply submseteq_length, NoDup_submseteq.
    - apply NoDup_fmap_2_strong; [|apply NoDup_map_to_list]. intros [q l] [q' l'] H1%elem_of_map_to_list H2%elem_of_map_to_list E. simpl in E. subst l'.
      by rewrite (pt_label_inj Hpt q q' l H1 H2).
    - intros l ([q l'] & -> & Hq%elem_of_map_to_list)%list_elem_of_fmap. by eapply Hl. }
  by rewrite length_fmap, length_map_to_list in Hle.
Qed.

(** ** The table while it is made *)

Record kbuild (s : phys) (root : Z) (T : tables) (L : list Z) (R : list region) (S : list Z) (L0 : list Z) : Prop := {
  kb_kalloc : kalloc_inv s L;
  kb_pt : pt_inv (mem s) root T;
  kb_pages : NoDup (S ++ L) /\ list_to_set (S ++ L) ## dom T;
  kb_all : list_to_set L0 = dom T ∪ list_to_set (S ++ L);
  kb_count : (size T + length S + length L = length L0)%nat;
  kb_stacks : Forall kpage S;
  kb_map va : 0 <= va < MAXVA -> leaf (mem s) root va = kmap R va;
  kb_labels q l : T !! q = Some l -> l ∈ klabels;
}.

Definition free_in (R : list region) (r : region) : Prop := forall va, inside r va -> has (kmap R va) PTE_V = false.

Record region_ok (r : region) : Prop := {
  ro_va : aligned (r_va r) /\ aligned (r_pa r) /\ r_size r mod PGSIZE = 0 /\ 0 < r_size r;
  ro_range : 0 <= r_va r /\ r_va r + r_size r <= MAXVA /\ 0 <= r_pa r /\ r_pa r + r_size r <= 2 ^ 56;
  ro_perm : 0 <= r_perm r < 1024;
  ro_kernel va : inside r va -> kernel_va va;
}.

Lemma kvmmap_spec s root T L R S L0 r : kbuild s root T L R S L0 -> region_ok r -> free_in R r -> (length S <= 64)%nat -> (136 < length L0)%nat ->
  wp (kvmmap root (r_va r) (r_pa r) (r_size r) (r_perm r) s) (fun _ s' => exists T' L', kbuild s' root T' L' (r :: R) S L0).
Proof.
  intros [Hk Hpt [Hnd Hd] Hall Hc HS Hm Hl] [(V1 & V2 & V3 & V4) (V5 & V6 & V7 & V8) V9 V10] Hf Hs HL. unfold kvmmap.
  apply NoDup_app in Hnd as (HndS & HSL & HndL). assert (dom T ## list_to_set L) as HdL by set_solver. assert (dom T ## list_to_set S) as HdS by set_solver.
  wp_step (mappages_full root (r_va r) (r_size r) (r_pa r) (r_perm r) s T L Hk Hpt HdL V1 V3 V4 V5 V6 V2 V7 V8 V9).
  { intros va Hva. rewrite Hm by lia. by apply Hf. }
  intros x s' (T' & L' & k & Hext & Hleaf & Hnew & Hr). pose proof (pt_ext_disj _ _ _ _ _ _ _ Hext HndL HdL) as Hd'. destruct Hext as [Hpt' Hk' Hsub (U & -> & HdT) _].
  assert (forall q l, T' !! q = Some l -> l ∈ klabels) as Hl' by (intros q l [?|(j & va & Hj & Hv & ->)]%Hnew; [by eapply Hl|apply kernel_label; [by apply V10|done]]).
  assert (size T' = (size T + length U)%nat) as Esz.
  { rewrite <- !(size_dom (D := gset Z)), HdT, size_union by set_solver. f_equal. rewrite size_list_to_set; [done|]. by apply NoDup_app in HndL as (? & _). }
  pose proof (tables_few _ _ _ Hpt' Hl') as Hfew. rewrite length_app in Hc. destruct Hr as [[-> Ek]|(-> & _ & ->)]; [|simpl in Hc; lia].
  cbn [Z.eqb negb]. apply wp_ret. exists T', L'. apply NoDup_app in HndL as (_ & HUL & HndL). split; try done.
  - split; [apply NoDup_app; split_and!; set_solver|]. rewrite HdT. set_solver.
  - rewrite Hall, HdT. set_solver.
  - rewrite Esz. lia.
  - intros va Hva. rewrite Hleaf by done. cbn [kmap]. assert (in_pages (r_va r) k va <-> inside r va) as Hin by (unfold in_pages, inside; lia).
    repeat case_decide; try tauto. by apply Hm.
Qed.

(** ** The stacks *)

Lemma kmap_app R1 R2 va : (forall r, r ∈ R1 -> ~ inside r va) -> kmap (R1 ++ R2) va = kmap R2 va.
Proof.
  induction R1 as [|r R1 IH]; intros Hn; [done|]. cbn [app kmap]. rewrite decide_False by (apply Hn; by left). apply IH. intros r' Hr'. apply Hn. by right.
Qed.

Lemma stack_region S r : r ∈ stack_regions S -> exists p : nat, (p < length S)%nat /\ r_va r = KSTACK p /\ r_size r = PGSIZE.
Proof. unfold stack_regions. rewrite elem_of_reverse. intros (p & pa & -> & Hp)%elem_of_lookup_imap_1. exists p. split; [by eapply lookup_lt_Some|done]. Qed.

(** Nothing but stacks lies in their range. *)
Lemma kregions_low va r : KSTACK 63 <= va < TRAMPOLINE -> r ∈ kregions -> ~ inside r va.
Proof.
  intros Hva Hr. pose proof etext_kend. pose proof kend_range. pose proof trampoline_range. unfold kregions, KSTACK, inside in *.
  rewrite !elem_of_cons, elem_of_nil in Hr. change UART0 with 268435456 in *. change VIRTIO0 with 268439552 in *. change PLIC with 201326592 in *.
  destruct Hr as [->|[->|[->|[->|[->|[->|[]]]]]]]; cbn [r_va r_size]; plia.
Qed.

Lemma stack_apart (p q : nat) va : (p < 64)%nat -> (q < 64)%nat -> p <> q -> KSTACK p <= va < KSTACK p + PGSIZE -> ~ KSTACK q <= va < KSTACK q + PGSIZE.
Proof. unfold KSTACK. plia. Qed.

Lemma stack_free (p : nat) S pa : length S = p -> (p < 64)%nat -> free_in (stack_regions S ++ kregions) (mk_region (KSTACK p) PGSIZE pa RW).
Proof.
  intros Hl Hp va Hin. unfold inside in Hin. cbn [r_va r_size] in Hin. rewrite kmap_app.
  - rewrite <- (app_nil_r kregions), kmap_app; [done|]. intros r. apply kregions_low. unfold KSTACK in *. plia.
  - intros r Hr. apply stack_region in Hr as (q & Hq & E1 & E2). unfold inside. rewrite E1, E2. apply (stack_apart p q); (done || lia).
Qed.

Lemma stack_ok (p : nat) pa : (p < 64)%nat -> kpage pa -> region_ok (mk_region (KSTACK p) PGSIZE pa RW).
Proof.
  intros Hp Hk. pose proof (kpage_aligned _ Hk). pose proof (kpage_range _ Hk) as [? ?]. split; cbn [r_va r_pa r_size r_perm]; unfold KSTACK, inside, kernel_va; cbn [r_va r_size].
  - split_and!; [unfold aligned; plia|done|done|done].
  - change (2 ^ 56) with 72057594037927936. plia.
  - done.
  - intros va Hva. right; right; right. unfold KSTACK. plia.
Qed.

Lemma stack_regions_snoc S pa : stack_regions (S ++ [pa]) = mk_region (KSTACK (length S)) PGSIZE pa RW :: stack_regions S.
Proof. unfold stack_regions. rewrite imap_app. cbn [imap]. rewrite reverse_app, Nat.add_0_r. done. Qed.

Lemma proc_mapstacks_loop_spec n s root T L S L0 : kbuild s root T L (stack_regions S ++ kregions) S L0 -> (length S + n = 64)%nat -> (136 < length L0)%nat ->
  wp (proc_mapstacks_loop n root (length S) s) (fun _ s' => exists T' L' S', kbuild s' root T' L' (stack_regions S' ++ kregions) S' L0 /\ length S' = 64%nat).
Proof.
  revert s T L S. induction n as [|n IH]; intros s T L S Hb Hn HL0; cbn [proc_mapstacks_loop]; [apply wp_ret; exists T, L, S; split; [done|lia]|].
  pose proof Hb as [Hk Hpt [Hnd Hd] Hall Hc HS Hm Hl]. wp_step (kalloc_spec s L Hk). intros pa s1. pose proof (tables_few _ _ _ Hpt Hl). destruct L as [|p L]; [simpl in Hc; lia|].
  intros (-> & Hk1 & Hs1 & _). destruct (kalloc_inv_app _ [] _ _ Hk) as [Hp HpL]. simpl in HpL. pose proof (kpage_pos p Hp). rewrite (proj2 (Z.eqb_neq p 0)) by lia.
  assert ({[p]} ## dom T) as HpT by set_solver. assert (p ∉ S) as HpS by (apply NoDup_app in Hnd as (_ & Hsl & _); set_solver).
  assert (kbuild s1 root T L (stack_regions S ++ kregions) (S ++ [p]) L0) as Hb1.
  { split; try done.
    - eapply pt_inv_frame; done.
    - rewrite <- app_assoc. simpl. split; [done|]. set_solver.
    - rewrite Hall, <- app_assoc. done.
    - rewrite length_app. simpl in *. lia.
    - apply Forall_app. split; [done|]. by apply Forall_singleton.
    - intros va Hva. rewrite <- Hm by done. by eapply leaf_frame. }
  wp_step (kvmmap_spec s1 root T L _ (S ++ [p]) L0 (mk_region (KSTACK (length S)) PGSIZE p RW) Hb1 (stack_ok (length S) p ltac:(lia) Hp) (stack_free (length S) S p eq_refl ltac:(lia))).
  { rewrite length_app. simpl. lia. }
  { done. }
  intros [] s2 (T2 & L2 & Hb2). replace (length S + 1) with (Z.of_nat (length (S ++ [p]))) by (rewrite length_app; simpl; lia).
  apply (IH s2 T2 L2 (S ++ [p])); [by rewrite stack_regions_snoc|rewrite length_app; simpl; lia|done].
Qed.

(** ** [kvmmake] *)

Lemma kregion_ok r : r ∈ kregions -> r_size r <> 0 -> region_ok r.
Proof.
  pose proof etext_kend. pose proof kend_range. pose proof trampoline_range. pose proof trampoline_aligned. pose proof etext_aligned.
  intros Hr Hz. unfold kregions in Hr. rewrite !elem_of_cons, elem_of_nil in Hr.
  destruct Hr as [->|[->|[->|[->|[->|[->|[]]]]]]]; (split; cbn [r_va r_pa r_size r_perm] in *; unfold aligned, inside, kernel_va, KSTACK in *; cbn [r_va r_size] in *;
    change UART0 with 268435456 in *; change VIRTIO0 with 268439552 in *; change PLIC with 201326592 in *; change (2 ^ 56) with 72057594037927936; change RW with 6; change RX with 10; plia).
Qed.

(** The regions do not overlap. *)
Lemma kregions_free R1 r R2 : kregions = R1 ++ r :: R2 -> free_in R2 r.
Proof.
  pose proof etext_kend. pose proof kend_range. pose proof trampoline_range. unfold kregions. intros E va Hin. rewrite <- (app_nil_r R2), kmap_app; [done|]. intros r' Hr'.
  unfold inside in *. destruct R1 as [|x1 [|x2 [|x3 [|x4 [|x5 [|x6 [|x7 R1]]]]]]]; injection E; intros; subst; try done; rewrite ?elem_of_cons, ?elem_of_nil in Hr'; cbn [r_va r_size] in *;
    change UART0 with 268435456 in *; change VIRTIO0 with 268439552 in *; change PLIC with 201326592 in *;
    repeat match goal with H : _ \/ _ |- _ => destruct H as [->|H] end; try done; cbn [r_va r_size]; plia.
Qed.

Lemma kregion_step s root T L L0 r R R1 : kbuild s root T L R [] L0 -> kregions = R1 ++ r :: R -> r_size r <> 0 -> (136 < length L0)%nat ->
  wp (kvmmap root (r_va r) (r_pa r) (r_size r) (r_perm r) s) (fun _ s' => exists T' L', kbuild s' root T' L' (r :: R) [] L0).
Proof. intros Hb E Hz HL. apply (kvmmap_spec s root T L R [] L0 r Hb); [apply kregion_ok; [rewrite E; set_solver|done]|by eapply kregions_free|simpl; lia|done]. Qed.

Lemma kvmmake_spec s L0 : kalloc_inv s L0 -> (136 < length L0)%nat ->
  wp (kvmmake s) (fun root s' => exists T L S, kbuild s' root T L (stack_regions S ++ kregions) S L0 /\ length S = 64%nat).
Proof.
  intros Hk HL0. destruct L0 as [|p L]; [simpl in HL0; lia|]. destruct (kalloc_inv_app _ [] _ _ Hk) as [Hp HpL]. simpl in HpL.
  assert (PHYSTOP - etext <> 0 /\ etext - KERNBASE <> 0) as [Z1 Z2].
  { destruct Hp as [_ Hp]. pose proof etext_kend. pose proof trampoline_range. plia. }
  unfold kvmmake. wp_step (kalloc_spec s (p :: L) Hk). intros r s1 (-> & Hk1 & Hs1 & _). apply wp_modify. pose proof (kpage_aligned p Hp) as Hap. set (s2 := set_mem _ s1).
  assert (forall j, 0 <= j < 512 -> ld64 (mem s2) (pte_at p j) = 0) as Hz by (intros j Hj; simpl; apply ld64_memset_zero; unfold pte_at, aligned in *; plia).
  assert (kbuild s2 p {[p := (2%nat, 0)]} L [] [] (p :: L)) as Hb.
  { split.
    - eapply (kalloc_inv_frame {[p]}); [done|by apply same_except_memset_page|set_solver].
    - by apply pt_inv_zero.
    - simpl. rewrite dom_singleton_L. split; [apply Hk1|set_solver].
    - simpl. by rewrite dom_singleton_L.
    - rewrite map_size_singleton. simpl. lia.
    - constructor.
    - intros va Hva. by rewrite leaf_zero.
    - intros q l [_ <-]%lookup_singleton_Some. by left. }
  wp_step (kregion_step s2 p _ L (p :: L) (mk_region UART0 PGSIZE UART0 RW) [] (take 5 kregions) Hb eq_refl ltac:(done) HL0). intros [] s3 (T3 & L3 & H3).
  wp_step (kregion_step s3 p T3 L3 (p :: L) (mk_region VIRTIO0 PGSIZE VIRTIO0 RW) _ (take 4 kregions) H3 eq_refl ltac:(done) HL0). intros [] s4 (T4 & L4 & H4).
  wp_step (kregion_step s4 p T4 L4 (p :: L) (mk_region PLIC 0x400000 PLIC RW) _ (take 3 kregions) H4 eq_refl ltac:(done) HL0). intros [] s5 (T5 & L5 & H5).
  wp_step (kregion_step s5 p T5 L5 (p :: L) (mk_region KERNBASE (etext - KERNBASE) KERNBASE RX) _ (take 2 kregions) H5 eq_refl Z2 HL0). intros [] s6 (T6 & L6 & H6).
  wp_step (kregion_step s6 p T6 L6 (p :: L) (mk_region etext (PHYSTOP - etext) etext RW) _ (take 1 kregions) H6 eq_refl Z1 HL0). intros [] s7 (T7 & L7 & H7).
  wp_step (kregion_step s7 p T7 L7 (p :: L) (mk_region TRAMPOLINE PGSIZE trampoline RX) _ [] H7 eq_refl ltac:(done) HL0). intros [] s8 (T8 & L8 & H8).
  unfold proc_mapstacks. wp_step (proc_mapstacks_loop_spec 64 s8 p T8 L8 [] (p :: L) H8 eq_refl HL0). intros [] s9 (T9 & L9 & S & H9 & HS). apply wp_ret. eauto.
Qed.

(** ** What the table maps *)

Lemma kmap_region R1 r R2 va : (forall r', r' ∈ R1 -> ~ inside r' va) -> inside r va -> kmap (R1 ++ r :: R2) va = mk_pte (r_pa r + (pg va - r_va r)) (r_perm r).
Proof. intros Hn Hin. rewrite kmap_app by done. cbn [kmap]. by rewrite decide_True. Qed.

Lemma kmap_none R va : (forall r, r ∈ R -> ~ inside r va) -> kmap R va = 0.
Proof. intros Hn. rewrite <- (app_nil_r R), kmap_app by done. done. Qed.

Lemma stack_above S r va : (length S <= 64)%nat -> r ∈ stack_regions S -> inside r va -> KSTACK 63 <= va < TRAMPOLINE.
Proof. intros Hl (p & Hp & E1 & E2)%stack_region Hin. unfold inside in Hin. rewrite E1, E2 in Hin. unfold KSTACK in *. plia. Qed.

Lemma stack_map S va (p : nat) : (length S <= 64)%nat -> (p < length S)%nat -> KSTACK p <= va < KSTACK p + PGSIZE -> kmap (stack_regions S ++ kregions) va = mk_pte (S !!! p) RW.
Proof.
  induction S as [|pa S IH] using rev_ind; intros Hl Hp Hva; [simpl in Hp; lia|]. rewrite length_app in *. simpl in Hl, Hp. rewrite stack_regions_snoc. cbn [app kmap].
  destruct (decide (p = length S)) as [->|Hne].
  - rewrite decide_True by done. cbn [r_pa r_va r_perm]. rewrite (pg_in (KSTACK (length S))) by (done || (unfold aligned, KSTACK; plia)). rewrite Z.sub_diag, Z.add_0_r.
    by rewrite (list_lookup_total_middle S [] pa (length S)).
  - rewrite decide_False by (apply (stack_apart p (length S)); (done || lia)). rewrite IH by (done || lia). f_equal. rewrite lookup_total_app_l; [done|lia].
Qed.

Lemma kregion_map S r va k : (length S <= 64)%nat -> kregions !! k = Some r -> inside r va -> ~ KSTACK 63 <= va < TRAMPOLINE ->
  kmap (stack_regions S ++ kregions) va = mk_pte (r_pa r + (pg va - r_va r)) (r_perm r).
Proof.
  intros Hl Hr Hin Hhi. rewrite kmap_app by (intros r' Hr' Hin'; apply Hhi; by eapply stack_above).
  rewrite <- (take_drop_middle kregions k r Hr). apply kmap_region; [|done]. intros r' Hr' Hin'.
  apply list_elem_of_lookup in Hr' as (j & Hj). assert (j < k)%nat as Hlt by (apply lookup_lt_Some in Hj; rewrite length_take in Hj; lia). rewrite lookup_take_lt in Hj by done.
  pose proof (kregions_free (take j kregions) r' (drop (Datatypes.S j) kregions) ltac:(by rewrite take_drop_middle) va Hin') as Hf.
  assert (r ∈ drop (Datatypes.S j) kregions) as Hrd by (apply (list_elem_of_lookup_2 _ (k - Datatypes.S j)); rewrite lookup_drop; by replace (Datatypes.S j + (k - Datatypes.S j))%nat with k by lia).
  revert Hf Hrd. generalize (drop (Datatypes.S j) kregions). induction l as [|x l IH]; [by intros _ ?%elem_of_nil|]. cbn [kmap]. intros Hf [->|Hx]%elem_of_cons.
  - rewrite decide_True, mk_pte_valid in Hf by done. done.
  - case_decide; [by rewrite mk_pte_valid in Hf|by apply IH].
Qed.

(** C18: With more than 136 free pages [kvmmake] builds the kernel's page table:
    text executable and not writable, data and all free memory writable and not
    executable, devices readable and writable, each at its physical address; the
    trampoline at the top; a stack of its own for each process, above a page
    that is not mapped; and nothing else is mapped. *)
Theorem kvmmake_correct s L0 : kalloc_inv s L0 -> (136 < length L0)%nat ->
  wp (kvmmake s) (fun root s' => exists L S, kalloc_inv s' L /\ length S = Z.to_nat NPROC /\ NoDup (S ++ L) /\ (root ∉ S ++ L) /\ (forall p, p ∈ root :: S ++ L -> p ∈ L0) /\
    let pte := leaf (mem s') root in
    (forall va, KERNBASE <= va < etext -> pte va = mk_pte (pg va) RX) /\
    (forall va, etext <= va < PHYSTOP -> pte va = mk_pte (pg va) RW) /\
    (forall va, PLIC <= va < PLIC + 0x400000 \/ UART0 <= va < UART0 + PGSIZE \/ VIRTIO0 <= va < VIRTIO0 + PGSIZE -> pte va = mk_pte (pg va) RW) /\
    (forall va, TRAMPOLINE <= va < MAXVA -> pte va = mk_pte trampoline RX) /\
    (forall (p : nat) va, (p < 64)%nat -> KSTACK p <= va < KSTACK p + PGSIZE -> pte va = mk_pte (S !!! p) RW) /\
    (forall (p : nat) va, (p < 64)%nat -> KSTACK p - PGSIZE <= va < KSTACK p -> pte va = 0) /\
    (forall va, 0 <= va < MAXVA -> ~ kernel_va va -> pte va = 0)).
Proof.
  intros Hk HL0. eapply wp_mono; [by apply kvmmake_spec|]. intros root s' (T & L & S & [Hk' Hpt [Hnd Hd] Hall Hc HS Hm Hlab] & El). exists L, S.
  pose proof (pi_root _ _ _ Hpt) as Hroot%elem_of_dom_2. pose proof etext_kend. pose proof kend_range. pose proof trampoline_range. pose proof trampoline_aligned. pose proof etext_aligned.
  assert (forall k r va, kregions !! k = Some r -> inside r va -> 0 <= va < MAXVA -> ~ KSTACK 63 <= va < TRAMPOLINE -> leaf (mem s') root va = mk_pte (r_pa r + (pg va - r_va r)) (r_perm r)) as Hreg
    by (intros k r va Hkr Hin Hva Hno; rewrite Hm by done; eapply kregion_map; [lia|done..]).
  assert (forall a va, a + (pg va - a) = pg va) as Epg by (intros; lia). unfold inside in Hreg. cbv zeta. split_and!; [done|done|done|set_solver| | | | | | | |].
  - intros p Hp. apply elem_of_cons in Hp. assert (p ∈ (list_to_set L0 : gset Z)) as Hin by (rewrite Hall; set_solver). by apply elem_of_list_to_set in Hin.
  - intros va Hva. rewrite (Hreg 2%nat _ va eq_refl), Epg by kdev. done.
  - intros va Hva. rewrite (Hreg 1%nat _ va eq_refl), Epg by kdev. done.
  - change UART0 with 268435456 in *. change VIRTIO0 with 268439552 in *. change PLIC with 201326592 in *. intros va [Hva|[Hva|Hva]].
    + rewrite (Hreg 3%nat _ va eq_refl), Epg by kdev. done.
    + rewrite (Hreg 5%nat _ va eq_refl), Epg by kdev. done.
    + rewrite (Hreg 4%nat _ va eq_refl), Epg by kdev. done.
  - intros va Hva. rewrite (Hreg 0%nat _ va eq_refl) by kdev. cbn [r_pa r_va r_perm].
    rewrite (pg_in TRAMPOLINE) by (done || plia). by rewrite Z.sub_diag, Z.add_0_r.
  - intros p va Hp Hva. rewrite Hm by (unfold KSTACK in *; plia). apply stack_map; lia.
  - intros p va Hp Hva. rewrite Hm by (unfold KSTACK in *; plia). apply kmap_none. intros r [Hr|Hr]%elem_of_app; [|destruct (decide (p = 63%nat)) as [->|]].
    + destruct (stack_region _ _ Hr) as (q & Hq & E1 & E2). unfold inside. rewrite E1, E2. unfold KSTACK in *. plia.
    + unfold kregions, inside in *. rewrite !elem_of_cons, elem_of_nil in Hr. change UART0 with 268435456 in *. change VIRTIO0 with 268439552 in *. change PLIC with 201326592 in *.
      unfold KSTACK in *. destruct Hr as [->|[->|[->|[->|[->|[->|[]]]]]]]; cbn [r_va r_size]; plia.
    + apply kregions_low; [|done]. unfold KSTACK in *. plia.
  - intros va Hva Hno. rewrite Hm by done. apply kmap_none. intros r [Hr|Hr]%elem_of_app Hin; apply Hno.
    + right; right; right. pose proof (stack_above S r va ltac:(lia) Hr Hin). plia.
    + eapply ro_kernel; [|exact Hin]. apply kregion_ok; [done|]. unfold inside in Hin. lia.
Qed.
End kern.

(** ** At work *)

(** A kernel image of two megabytes. *)
Definition big_linker : Linker.
Proof. refine {| kend := KERNBASE + 512 * PGSIZE; etext := KERNBASE + 8 * PGSIZE; trampoline := KERNBASE + 7 * PGSIZE |}; abstract done. Defined.

Lemma kvmmake_correct_witness : exists s root s', @kinit big_linker demo0 = Ret tt s /\ @kvmmake big_linker s = Ret root s' /\ leaf (mem s') root KERNBASE = mk_pte KERNBASE RX.
Proof.
  destruct (wp_inv _ _ (@kinit_spec big_linker demo0 eq_refl)) as ([] & s & E & L & Hk & HL).
  assert (136 < length L)%nat as Hlen.
  { assert (length ((fun i : nat => (KERNBASE + (512 + i) * PGSIZE)%Z) <$> seq 0 137) <= length L)%nat as Hle; [|rewrite length_fmap, length_seq in Hle; lia].
    apply submseteq_length, NoDup_submseteq; [apply NoDup_fmap_2; [intros i j; plia|apply NoDup_seq]|]. intros p (i & -> & Hi%elem_of_seq)%list_elem_of_fmap. apply HL.
    clear - Hi. unfold kpage, aligned. cbn [kend big_linker]. plia. }
  destruct (wp_inv _ _ (@kvmmake_correct big_linker s L Hk Hlen)) as (root & s' & E' & L' & S & _ & _ & _ & _ & _ & Ht & _). exists s, root, s'. split; [exact E|]. split; [exact E'|]. exact (Ht KERNBASE ltac:(cbn [etext big_linker]; plia)).
Defined.
