(* ===== verification/Block.v ===== *)
(** * Fields of byte arrays

    Disk blocks, inodes and directory entries are arrays of bytes with
    little-endian fields.  [sub d off n] reads, [splice d off l] overwrites. *)

From S2P Require Import Prelude Mem.

Definition sub (d : list Z) (off n : nat) : list Z := take n (drop off d).
Definition splice (d : list Z) (off : nat) (l : list Z) : list Z :=
  take off d ++ l ++ drop (off + length l) d.

(** An unsigned field of [n] bytes. *)
Definition rd (n : nat) (d : list Z) (off : nat) : Z := le_val (sub d off n).
Definition wr (n : nat) (d : list Z) (off : nat) (v : Z) : list Z := splice d off (le_bytes n v).

(** A signed 32-bit field. *)
Definition rd32 (d : list Z) (off : nat) : Z := to_int (rd 4 d off).
Definition wr32 (d : list Z) (off : nat) (v : Z) : list Z := wr 4 d off v.

Lemma length_sub d off n : (off + n <= length d)%nat -> length (sub d off n) = n.
Proof. intros. unfold sub. rewrite length_take, length_drop. lia. Qed.

Lemma lookup_sub d off n (i : nat) : (i < n)%nat -> sub d off n !! i = d !! (off + i)%nat.
Proof. intros. unfold sub. by rewrite lookup_take_lt, lookup_drop by done. Qed.

Lemma sub_ext d d' off off' n :
  (forall i, (i < n)%nat -> d !! (off + i)%nat = d' !! (off' + i)%nat) -> sub d off n = sub d' off' n.
Proof.
  intros He. apply list_eq. intros i. destruct (decide (i < n)%nat).
  - rewrite !lookup_sub by done. auto.
  - unfold sub. by rewrite !lookup_take_ge by lia.
Qed.

Lemma length_splice d off l : (off + length l <= length d)%nat -> length (splice d off l) = length d.
Proof. intros. unfold splice. rewrite !length_app, length_take, length_drop. lia. Qed.

Lemma lookup_splice_in d off l (i : nat) :
  (off + length l <= length d)%nat -> (off <= i < off + length l)%nat -> splice d off l !! i = l !! (i - off)%nat.
Proof.
  intros Hl Hi. unfold splice. rewrite lookup_app_r by (rewrite length_take; lia).
  rewrite length_take, lookup_app_l by lia. f_equal. lia.
Qed.

Lemma lookup_splice_out d off l (i : nat) :
  (off + length l <= length d)%nat -> (i < off \/ off + length l <= i)%nat -> splice d off l !! i = d !! i.
Proof.
  intros Hl [Hi|Hi]; unfold splice.
  - rewrite lookup_app_l by (rewrite length_take; lia). by rewrite lookup_take_lt.
  - rewrite lookup_app_r by (rewrite length_take; lia). rewrite length_take, lookup_app_r by lia.
    rewrite lookup_drop. f_equal. lia.
Qed.

Lemma sub_splice d off l : (off + length l <= length d)%nat -> sub (splice d off l) off (length l) = l.
Proof.
  intros Hl. apply list_eq. intros i. destruct (decide (i < length l)%nat).
  - rewrite lookup_sub, lookup_splice_in by lia. f_equal. lia.
  - rewrite (lookup_ge_None_2 l) by lia. unfold sub. apply lookup_take_ge. lia.
Qed.

Lemma sub_splice_ne d off l off' n :
  (off + length l <= length d)%nat -> (off' + n <= off \/ off + length l <= off')%nat ->
  sub (splice d off l) off' n = sub d off' n.
Proof. intros Hl Hne. apply sub_ext. intros i Hi. apply lookup_splice_out; lia. Qed.

(** A field inside the spliced bytes. *)
Lemma sub_splice_in d off l off' n :
  (off + length l <= length d)%nat -> (off <= off' /\ off' + n <= off + length l)%nat ->
  sub (splice d off l) off' n = sub l (off' - off) n.
Proof. intros Hl Hin. apply sub_ext. intros i Hi. rewrite lookup_splice_in by lia. f_equal. lia. Qed.

Lemma sub_sub d off n off' n' : (off' + n' <= n)%nat -> sub (sub d off n) off' n' = sub d (off + off') n'.
Proof. intros. apply sub_ext. intros i Hi. rewrite lookup_sub by lia. f_equal. lia. Qed.

Lemma splice_sub d off n : (off + n <= length d)%nat -> splice d off (sub d off n) = d.
Proof.
  intros Hl. apply list_eq. intros i. pose proof (length_sub d off n Hl) as E.
  destruct (decide (off <= i < off + n)%nat).
  - rewrite lookup_splice_in, lookup_sub by (rewrite ?E; lia). f_equal. lia.
  - by rewrite lookup_splice_out by (rewrite ?E; lia).
Qed.

Lemma sub_full d : sub d 0 (length d) = d.
Proof. unfold sub. rewrite drop_0. by apply take_ge. Qed.

Lemma length_wr n d off v : (off + n <= length d)%nat -> length (wr n d off v) = length d.
Proof. intros. apply length_splice. by rewrite length_le_bytes. Qed.

Lemma rd_wr n d off v : (off + n <= length d)%nat -> rd n (wr n d off v) off = v mod 256 ^ Z.of_nat n.
Proof.
  intros Hl. unfold rd, wr. rewrite <- le_val_bytes. f_equal.
  rewrite <- (sub_splice d off (le_bytes n v)) at 2 by (by rewrite length_le_bytes). by rewrite length_le_bytes.
Qed.

Lemma rd_wr_ne n d off v n' off' :
  (off + n <= length d)%nat -> (off' + n' <= off \/ off + n <= off')%nat ->
  rd n' (wr n d off v) off' = rd n' d off'.
Proof. intros Hl Hne. unfold rd, wr. by rewrite sub_splice_ne by (rewrite length_le_bytes; lia). Qed.

Lemma rd_range n d off : 0 <= rd n d off < 256 ^ Z.of_nat n.
Proof.
  unfold rd. pose proof (le_val_range (sub d off n)) as Hr.
  assert (length (sub d off n) <= n)%nat as Hl by (unfold sub; rewrite length_take; lia).
  assert (256 ^ Z.of_nat (length (sub d off n)) <= 256 ^ Z.of_nat n) by (apply Z.pow_le_mono_r; lia). lia.
Qed.

Lemma length_wr32 d off v : (off + 4 <= length d)%nat -> length (wr32 d off v) = length d.
Proof. apply length_wr. Qed.

Lemma rd32_wr32 d off v :
  (off + 4 <= length d)%nat -> - 2 ^ 31 <= v < 2 ^ 31 -> rd32 (wr32 d off v) off = v.
Proof.
  intros Hl Hv. unfold rd32, wr32. rewrite rd_wr by done.
  change (256 ^ Z.of_nat 4) with (2 ^ 32). unfold sint. change (32 - 1) with 31.
  rewrite <- Z.add_mod_idemp_l, Z.mod_mod, Z.add_mod_idemp_l by lia. rewrite Z.mod_small; lia.
Qed.

Lemma rd32_wr32_ne d off off' v :
  (off + 4 <= length d)%nat -> (off' + 4 <= off \/ off + 4 <= off')%nat ->
  rd32 (wr32 d off v) off' = rd32 d off'.
Proof. intros. unfold rd32, wr32. by rewrite rd_wr_ne. Qed.

Lemma splice_adj d off l1 l2 :
  (off + length l1 + length l2 <= length d)%nat ->
  splice (splice d off l1) (off + length l1) l2 = splice d off (l1 ++ l2).
Proof.
  intros Hl. pose proof (length_splice d off l1 ltac:(lia)) as E1. apply list_eq. intros i.
  pose proof (length_app l1 l2) as E2.
  destruct (decide (off <= i < off + length (l1 ++ l2))%nat) as [Hi|Hi].
  - rewrite (lookup_splice_in d) by lia.
    destruct (decide (i < off + length l1)%nat).
    + rewrite lookup_splice_out, lookup_splice_in, lookup_app_l by lia. done.
    + rewrite lookup_splice_in, lookup_app_r by lia. f_equal. lia.
  - rewrite !lookup_splice_out by lia. done.
Qed.

Lemma Forall_splice (P : Z -> Prop) d off l : Forall P d -> Forall P l -> Forall P (splice d off l).
Proof. intros Hd Hl. unfold splice. repeat apply Forall_app_2; auto using Forall_take, Forall_drop. Qed.

(** ** Arrays of 32-bit words *)

Definition words (l : list Z) : list Z := concat (le_bytes 4 <$> l).

Lemma length_words l : length (words l) = (4 * length l)%nat.
Proof. unfold words. induction l as [|a l IH]; [done|]. cbn [fmap list_fmap concat]. rewrite length_app, IH. simpl. lia. Qed.

Lemma sub_words l k a : l !! k = Some a -> sub (words l) (4 * k) 4 = le_bytes 4 a.
Proof.
  revert k. induction l as [|b l IH]; intros [|k] E; [done|done|..]; simpl in E.
  - injection E as ->. unfold words, sub. cbn [fmap list_fmap concat]. rewrite Nat.mul_0_r, drop_0.
    rewrite take_app_le, take_ge; rewrite ?length_le_bytes; done || lia.
  - rewrite <- (IH k E). unfold words. cbn [fmap list_fmap concat]. apply sub_ext. intros i Hi.
    rewrite lookup_app_r; rewrite length_le_bytes; [|lia]. f_equal. lia.
Qed.

Lemma rd_words l k a : l !! k = Some a -> 0 <= a < 2 ^ 32 -> rd 4 (words l) (4 * k) = a.
Proof.
  intros E Ha. unfold rd. rewrite (sub_words l k a E), le_val_bytes.
  change (256 ^ Z.of_nat 4) with (2 ^ 32). by apply Z.mod_small.
Qed.

Lemma bytes_words l : Forall (fun x => 0 <= x < 256) (words l).
Proof. unfold words. induction l; [constructor|]. cbn [fmap list_fmap concat]. apply Forall_app_2; [apply le_bytes_range|done]. Qed.
