(* ===== verification/Spinlock.v ===== *)
(** * Spinlocks (kernel/spinlock.c)

    Each CPU has its registers, the depth [noff] of its [push_off] nesting and
    the interrupt state [intena] to restore.  The operations below run on CPU
    [c]; [lstep] interleaves them over all CPUs, one atomic action at a time,
    and gives mutual exclusion and the interrupt discipline that keeps a
    holder from being interrupted. *)

From S2P Require Import Prelude Riscv.

(** ** State *)

Record cpu := mk_cpu { chart : hart; noff : Z; intena : bool }.

(** [lcpu] is [lk->cpu]: the index in [cpus], or none. *)
Record spinlock := mk_spinlock { locked : Z; lcpu : option nat }.

Record smp := mk_smp { cpus : nat -> cpu; locks : Z -> spinlock }.

Definition set_cpu (c : nat) (x : cpu) (s : smp) : smp := mk_smp (<[c := x]> (cpus s)) (locks s).
Definition set_lock (l : Z) (x : spinlock) (s : smp) : smp := mk_smp (cpus s) (<[l := x]> (locks s)).

Definition on_hart {A} (c : nat) (k : M hart A) : M smp A :=
  zoom (fun s => chart (cpus s c))
       (fun h s => set_cpu c (mk_cpu h (noff (cpus s c)) (intena (cpus s c))) s) k.

(** ** Operations *)

(** [lk->name] is left out. *)
Definition initlock (l : Z) : M smp unit := modify (set_lock l (mk_spinlock 0 None)).

Definition push_off (c : nat) : M smp unit :=
  old ← on_hart c intr_get;
  on_hart c intr_off;;
  n ← gets (fun s => noff (cpus s c));
  (if n =? 0 then modify (fun s => set_cpu c (mk_cpu (chart (cpus s c)) n old) s) else mret tt);;
  modify (fun s => set_cpu c (mk_cpu (chart (cpus s c)) (n + 1) (intena (cpus s c))) s).

Definition pop_off (c : nat) : M smp unit :=
  i ← on_hart c intr_get;
  if (i : bool) then panic "pop_off - interruptible"
  else
    n ← gets (fun s => noff (cpus s c));
    if n <? 1 then panic "pop_off"
    else
      modify (fun s => set_cpu c (mk_cpu (chart (cpus s c)) (n - 1) (intena (cpus s c))) s);;
      e ← gets (fun s => intena (cpus s c));
      if (n - 1 =? 0) && e then on_hart c intr_on else mret tt.

Definition holding (c : nat) (l : Z) : M smp bool :=
  gets (fun s => negb (locked (locks s l) =? 0) && bool_decide (lcpu (locks s l) = Some c)).

(** [__sync_lock_test_and_set(&lk->locked, 1)]: an atomic swap. *)
Definition test_and_set (l : Z) : M smp Z :=
  old ← gets (fun s => locked (locks s l));
  modify (fun s => set_lock l (mk_spinlock 1 (lcpu (locks s l))) s);;
  mret old.

(** The steps of [acquire] up to the loop, one round of the loop, and the rest. *)
Definition acquire_enter (c : nat) (l : Z) : M smp unit :=
  push_off c;;
  h ← holding c l;
  if (h : bool) then panic "acquire" else mret tt.

Definition acquire_record (c : nat) (l : Z) : M smp unit :=
  modify (fun s => set_lock l (mk_spinlock (locked (locks s l)) (Some c)) s).

(** [while(test_and_set != 0) ;] run alone, with fuel for its rounds. *)
Fixpoint acquire_spin (fuel : nat) (l : Z) : M smp unit :=
  match fuel with
  | O => diverge
  | S fuel => old ← test_and_set l; if negb (old =? 0) then acquire_spin fuel l else mret tt
  end.

Definition acquire (fuel : nat) (c : nat) (l : Z) : M smp unit :=
  acquire_enter c l;; acquire_spin fuel l;; acquire_record c l.

Definition release_enter (c : nat) (l : Z) : M smp unit :=
  h ← holding c l;
  if negb h then panic "release"
  else modify (fun s => set_lock l (mk_spinlock (locked (locks s l)) None) s).

(** [__sync_lock_release(&lk->locked)] *)
Definition sync_lock_release (l : Z) : M smp unit :=
  modify (fun s => set_lock l (mk_spinlock 0 (lcpu (locks s l))) s).

Definition release (c : nat) (l : Z) : M smp unit :=
  release_enter c l;; sync_lock_release l;; pop_off c.

(** ** Interleaved execution *)

(** Where CPU [c] is inside [acquire] or [release]. *)
Inductive lpc :=
| Run
| Spin (l : Z)       (** in the [while] loop *)
| Won (l : Z)        (** swap done, [lk->cpu] not yet recorded *)
| Unlocking (l : Z)  (** [lk->cpu = 0] done *)
| Unlocked (l : Z).  (** [lk->locked = 0] done, [pop_off] left *)

(** [held c]: locks whose [acquire] has returned and whose [release] has not
    been called; [bare c]: calls of [push_off] outside [acquire], not yet
    matched. *)
Record lsys := mk_lsys { sm : smp; pcs : nat -> lpc; held : nat -> list Z; bare : nat -> nat }.

(** The kernel enables or disables interrupts directly only with no
    [push_off] outstanding: [scheduler], [usertrap] and [usertrapret]. *)
Inductive lstep : lsys -> lsys -> Prop :=
| ls_acquire s c l m :
    pcs s c = Run -> acquire_enter c l (sm s) = Ret tt m ->
    lstep s (mk_lsys m (<[c := Spin l]> (pcs s)) (held s) (bare s))
| ls_spin s c l old m :
    pcs s c = Spin l -> test_and_set l (sm s) = Ret old m ->
    lstep s (mk_lsys m (<[c := if old =? 0 then Won l else Spin l]> (pcs s)) (held s) (bare s))
| ls_record s c l m :
    pcs s c = Won l -> acquire_record c l (sm s) = Ret tt m ->
    lstep s (mk_lsys m (<[c := Run]> (pcs s)) (<[c := l :: held s c]> (held s)) (bare s))
| ls_release s c l m h1 h2 :
    pcs s c = Run -> held s c = h1 ++ l :: h2 -> release_enter c l (sm s) = Ret tt m ->
    lstep s (mk_lsys m (<[c := Unlocking l]> (pcs s)) (<[c := h1 ++ h2]> (held s)) (bare s))
| ls_unlock s c l m :
    pcs s c = Unlocking l -> sync_lock_release l (sm s) = Ret tt m ->
    lstep s (mk_lsys m (<[c := Unlocked l]> (pcs s)) (held s) (bare s))
| ls_done s c l m :
    pcs s c = Unlocked l -> pop_off c (sm s) = Ret tt m ->
    lstep s (mk_lsys m (<[c := Run]> (pcs s)) (held s) (bare s))
| ls_push s c m :
    pcs s c = Run -> push_off c (sm s) = Ret tt m ->
    lstep s (mk_lsys m (pcs s) (held s) (<[c := S (bare s c)]> (bare s)))
| ls_pop s c n m :
    pcs s c = Run -> bare s c = S n -> pop_off c (sm s) = Ret tt m ->
    lstep s (mk_lsys m (pcs s) (held s) (<[c := n]> (bare s)))
| ls_intr s c m (on : bool) :
    pcs s c = Run -> noff (cpus (sm s) c) = 0 ->
    on_hart c (if on then intr_on else intr_off) (sm s) = Ret tt m ->
    lstep s (mk_lsys m (pcs s) (held s) (bare s)).

(** After [initlock] of every lock, with no CPU inside a critical section. *)
Definition linit (s : lsys) : Prop :=
  (forall l, locks (sm s) l = mk_spinlock 0 None) /\
  (forall c, noff (cpus (sm s) c) = 0 /\ pcs s c = Run /\ held s c = [] /\ bare s c = 0%nat).

(** CPU [c] has lock [l]: from its successful swap to its store of 0. *)
Definition owns (s : lsys) (c : nat) (l : Z) : Prop :=
  l ∈ held s c \/ pcs s c = Won l \/ pcs s c = Unlocking l.

(** Interrupts are enabled on CPU [c]. *)
Definition interruptible (s : smp) (c : nat) : bool := has (chart (cpus s c) sstatus) SSTATUS_SIE.

(** ** Interrupts and nesting *)

Lemma SIE_clear x : has (Z.land x (Z.lnot SSTATUS_SIE)) SSTATUS_SIE = false.
Proof.
  unfold has. rewrite <- Z.land_assoc, (Z.land_comm (Z.lnot _)), Z.land_lnot_diag, Z.land_0_r. done.
Qed.

Lemma SIE_set x : has (Z.lor x SSTATUS_SIE) SSTATUS_SIE = true.
Proof. rewrite has_lor. change (has SSTATUS_SIE SSTATUS_SIE) with true. apply orb_true_r. Qed.

(** Clearing and setting the bit again gives the register back. *)
Lemma SIE_restore x :
  has x SSTATUS_SIE = true -> Z.lor (Z.land x (Z.lnot SSTATUS_SIE)) SSTATUS_SIE = x.
Proof.
  unfold has. intros Hx. apply negb_true_iff, Z.eqb_neq in Hx.
  change SSTATUS_SIE with (2 ^ 1) in *. apply Z.bits_inj'. intros i Hi.
  rewrite Z.lor_spec, Z.land_spec, Z.lnot_spec, Z.pow2_bits_eqb by lia.
  destruct (Z.eqb_spec 1 i) as [<-|].
  - rewrite orb_true_r. symmetry. pose proof (land_pow2_testbit x 1 ltac:(lia)) as E.
    destruct (Z.testbit x 1); [done|]. simpl in E. by apply Z.eqb_eq in E.
  - by rewrite andb_true_r, orb_false_r.
Qed.

Lemma SIE_off x : has x SSTATUS_SIE = false -> Z.land x (Z.lnot SSTATUS_SIE) = x.
Proof.
  unfold has. intros Hx. apply negb_false_iff, Z.eqb_eq in Hx.
  change SSTATUS_SIE with (2 ^ 1) in *. apply Z.bits_inj'. intros i Hi.
  rewrite Z.land_spec, Z.lnot_spec, Z.pow2_bits_eqb by lia.
  destruct (Z.eqb_spec 1 i) as [<-|]; [|apply andb_true_r].
  rewrite andb_false_r. symmetry. pose proof (land_pow2_testbit x 1 ltac:(lia)) as E.
  rewrite Hx in E. by destruct (Z.testbit x 1).
Qed.

(** What a change of CPU [c] alone keeps. *)
Definition only_cpu (c : nat) (s m : smp) : Prop :=
  locks m = locks s /\ forall c', c' <> c -> cpus m c' = cpus s c'.

Ltac solve_cpu :=
  (split; [split; [done|intros c' Hc; cbn [cpus]; by rewrite ?fn_lookup_insert_ne by done]|]);
  cbn [cpus]; rewrite ?fn_lookup_insert; cbn [chart noff intena];
  rewrite ?decide_True by done; split_and!;
  first [done | apply SIE_clear | intros r Hr; by rewrite !decide_False].

Lemma push_off_spec c s :
  wp (push_off c s) (fun _ m =>
    only_cpu c s m /\ noff (cpus m c) = noff (cpus s c) + 1 /\ interruptible m c = false /\
    intena (cpus m c) = (if noff (cpus s c) =? 0 then interruptible s c else intena (cpus s c)) /\
    chart (cpus m c) sstatus = Z.land (chart (cpus s c) sstatus) (Z.lnot SSTATUS_SIE) /\
    forall r, r <> sstatus -> chart (cpus m c) r = chart (cpus s c) r).
Proof.
  unfold push_off, on_hart, intr_get, intr_off, r_sstatus, w_sstatus, csrr, csrw, interruptible. msimpl.
  unfold set_cpu. simpl. rewrite !fn_lookup_insert. simpl.
  destruct (Z.eqb_spec (noff (cpus s c)) 0) as [E|E]; cbn [chart cpus noff intena locks];
    repeat (rewrite fn_lookup_insert; cbn [chart noff intena]); rewrite ?E; solve_cpu.
Qed.

Lemma pop_off_spec c s :
  interruptible s c = false -> 1 <= noff (cpus s c) ->
  wp (pop_off c s) (fun _ m =>
    only_cpu c s m /\ noff (cpus m c) = noff (cpus s c) - 1 /\ intena (cpus m c) = intena (cpus s c) /\
    chart (cpus m c) sstatus =
      (if (noff (cpus s c) =? 1) && intena (cpus s c)
       then Z.lor (chart (cpus s c) sstatus) SSTATUS_SIE else chart (cpus s c) sstatus) /\
    forall r, r <> sstatus -> chart (cpus m c) r = chart (cpus s c) r).
Proof.
  intros Hi Hn. unfold pop_off, on_hart, intr_get, intr_on, r_sstatus, w_sstatus, csrr, csrw. msimpl.
  unfold interruptible in Hi. rewrite Hi. unfold set_cpu. simpl. rewrite !fn_lookup_insert. simpl.
  replace (noff (cpus s c) <? 1) with false by lia. simpl. rewrite !fn_lookup_insert. simpl.
  replace (noff (cpus s c) - 1 =? 0) with (noff (cpus s c) =? 1) by lia.
  destruct (_ && _) eqn:E; cbn [chart cpus noff intena locks];
    repeat (rewrite fn_lookup_insert; cbn [chart noff intena]); solve_cpu.
Qed.

(** ** Invariant of the interleaved execution *)

Definition in_call (pc : lpc) : Z := match pc with Run => 0 | _ => 1 end.

Record linv (s : lsys) : Prop := {
  li_noff c : noff (cpus (sm s) c) = length (held s c) + bare s c + in_call (pcs s c);
  li_intr c : 0 < noff (cpus (sm s) c) -> interruptible (sm s) c = false;
  li_locked l : (locked (locks (sm s) l) = 0 /\ forall c, ~ owns s c l) \/
    (locked (locks (sm s) l) = 1 /\ exists c, owns s c l);
  li_uniq c c' l : owns s c l -> owns s c' l -> c = c';
  li_cpu c l : lcpu (locks (sm s) l) = Some c <-> l ∈ held s c;
  li_nodup c : NoDup (held s c);
  li_pc c l : pcs s c = Won l \/ pcs s c = Unlocking l -> l ∉ held s c;
}.

Lemma linit_inv s : linit s -> linv s.
Proof.
  intros [Hl Hc].
  assert (forall c l, ~ owns s c l) as Hno.
  { intros c l. destruct (Hc c) as (_ & Hpc & Hh & _). unfold owns. rewrite Hpc, Hh. set_solver. }
  split.
  - intros c. destruct (Hc c) as (-> & -> & -> & ->). done.
  - intros c. destruct (Hc c) as (-> & _). lia.
  - intros l. left. rewrite Hl. done.
  - intros c c' l H1. by apply Hno in H1.
  - intros c l. rewrite Hl. destruct (Hc c) as (_ & _ & -> & _). set_solver.
  - intros c. destruct (Hc c) as (_ & _ & -> & _). apply NoDup_nil_2.
  - intros c l. destruct (Hc c) as (_ & -> & _). naive_solver.
Qed.

(** Steps that only move CPU [c]'s nesting and control point, without
    changing what it owns. *)
Lemma linv_cpu_step s s' c :
  linv s -> (forall l, locks (sm s') l = locks (sm s) l) ->
  (forall c', c' <> c -> cpus (sm s') c' = cpus (sm s) c' /\ pcs s' c' = pcs s c' /\ bare s' c' = bare s c') ->
  (forall c', held s' c' = held s c') ->
  (forall l, (pcs s' c = Won l \/ pcs s' c = Unlocking l) <-> (pcs s c = Won l \/ pcs s c = Unlocking l)) ->
  noff (cpus (sm s') c) = length (held s c) + bare s' c + in_call (pcs s' c) ->
  (0 < noff (cpus (sm s') c) -> interruptible (sm s') c = false) ->
  linv s'.
Proof.
  intros Hinv Hl Hc Hh Hpc Hn Hi.
  assert (forall c' l, (pcs s' c' = Won l \/ pcs s' c' = Unlocking l) <-> (pcs s c' = Won l \/ pcs s c' = Unlocking l)) as Hpc'.
  { intros c' l. destruct (decide (c' = c)) as [->|Hne]; [done|]. by destruct (Hc c' Hne) as (_ & -> & _). }
  assert (forall c' l, owns s' c' l <-> owns s c' l) as Ho.
  { intros c' l. unfold owns. by rewrite (Hpc' c' l), Hh. }
  split.
  - intros c'. rewrite Hh. destruct (decide (c' = c)) as [->|Hne]; [done|].
    destruct (Hc c' Hne) as (-> & -> & ->). apply Hinv.
  - intros c'. destruct (decide (c' = c)) as [->|Hne]; [done|].
    unfold interruptible. destruct (Hc c' Hne) as (-> & _). apply Hinv.
  - intros l. rewrite Hl. setoid_rewrite Ho. apply Hinv.
  - intros c1 c2 l. rewrite !Ho. apply Hinv.
  - intros c' l. rewrite Hl, Hh. apply Hinv.
  - intros c'. rewrite Hh. apply Hinv.
  - intros c' l. rewrite Hh, Hpc'. apply (li_pc _ Hinv).
Qed.

(** Steps that only change lock [l] and what CPU [c] holds of it; [b] says
    whether [c] owns [l] afterwards. *)
Lemma linv_lock_step s s' c l (b : bool) :
  linv s -> (forall c', cpus (sm s') c' = cpus (sm s) c' /\ bare s' c' = bare s c') ->
  (forall c', c' <> c -> pcs s' c' = pcs s c' /\ held s' c' = held s c') ->
  (forall l', l' <> l -> locks (sm s') l' = locks (sm s) l') ->
  length (held s' c) + in_call (pcs s' c) = length (held s c) + in_call (pcs s c) ->
  (forall l', l' <> l -> (l' ∈ held s' c <-> l' ∈ held s c) /\
     ((pcs s' c = Won l' \/ pcs s' c = Unlocking l') <-> (pcs s c = Won l' \/ pcs s c = Unlocking l'))) ->
  (forall c', c' <> c -> ~ owns s c' l) ->
  locked (locks (sm s') l) = (if b then 1 else 0) -> (owns s' c l <-> b = true) ->
  (lcpu (locks (sm s') l) = if decide (l ∈ held s' c) then Some c else None) ->
  NoDup (held s' c) -> (pcs s' c = Won l \/ pcs s' c = Unlocking l -> l ∉ held s' c) ->
  linv s'.
Proof.
  intros Hinv Hcpu Hsame Hlk Hn Hoth Hno Hb Hown Hlcpu Hnd Hpc.
  assert (forall c' l', l' <> l -> owns s' c' l' <-> owns s c' l') as Ho.
  { intros c' l' Hne. unfold owns. destruct (decide (c' = c)) as [->|Hc].
    - destruct (Hoth l' Hne). tauto.
    - by destruct (Hsame c' Hc) as [-> ->]. }
  assert (forall c', owns s' c' l <-> b = true /\ c' = c) as Hol.
  { intros c'. destruct (decide (c' = c)) as [->|Hc]; [naive_solver|].
    specialize (Hno c' Hc). unfold owns in *. destruct (Hsame c' Hc) as [-> ->]. naive_solver. }
  split.
  - intros c'. destruct (Hcpu c') as [-> ->]. rewrite (li_noff _ Hinv). destruct (decide (c' = c)) as [->|Hc]; [lia|].
    by destruct (Hsame c' Hc) as [-> ->].
  - intros c'. unfold interruptible. destruct (Hcpu c') as [-> _]. apply Hinv.
  - intros l'. destruct (decide (l' = l)) as [->|Hne].
    + rewrite Hb. setoid_rewrite Hol. destruct b; [right; eauto|left; naive_solver].
    + rewrite Hlk by done. setoid_rewrite (fun c' => Ho c' l' Hne). apply Hinv.
  - intros c1 c2 l'. destruct (decide (l' = l)) as [->|Hne].
    + rewrite !Hol. naive_solver.
    + rewrite !Ho by done. apply Hinv.
  - intros c' l'. destruct (decide (l' = l)) as [->|Hne].
    + rewrite Hlcpu. destruct (decide (c' = c)) as [->|Hc]; [case_decide; naive_solver|].
      specialize (Hno c' Hc). destruct (Hsame c' Hc) as [_ ->]. unfold owns in Hno. case_decide; naive_solver.
    + rewrite Hlk, (li_cpu _ Hinv) by done. destruct (decide (c' = c)) as [->|Hc].
      * symmetry. by apply Hoth.
      * by destruct (Hsame c' Hc) as [_ ->].
  - intros c'. destruct (decide (c' = c)) as [->|Hc]; [done|].
    destruct (Hsame c' Hc) as [_ ->]. apply Hinv.
  - intros c' l'. destruct (decide (c' = c)) as [->|Hc].
    + destruct (decide (l' = l)) as [->|Hne]; [done|].
      destruct (Hoth l' Hne) as [-> ->]. apply Hinv.
    + destruct (Hsame c' Hc) as [-> ->]. apply Hinv.
Qed.

Lemma wp_ret_inv {S A} (o : outcome S A) Q a s : wp o Q -> o = Ret a s -> Q a s.
Proof. by intros H ->. Qed.

(** Side conditions about updated functions. *)
Ltac solve_upd :=
  intros; simpl; rewrite ?fn_lookup_insert, ?fn_lookup_insert_ne by done; try done;
  try match goal with H : _ \/ _ |- _ => by destruct H end.

Lemma lstep_acquire s c l m :
  linv s -> pcs s c = Run -> acquire_enter c l (sm s) = Ret tt m ->
  linv (mk_lsys m (<[c := Spin l]> (pcs s)) (held s) (bare s)).
Proof.
  intros Hinv Hpc E. apply bind_inv in E as ([] & m1 & E1 & E2).
  pose proof (wp_ret_inv _ _ _ _ (push_off_spec c (sm s)) E1) as ([Hl Hc] & Hnf & Hi & _).
  apply bind_inv in E2 as (h & m2 & E2 & E3). injection E2 as <- <-.
  destruct (_ && _); [done|]. injection E3 as <-.
  apply (linv_cpu_step s _ c Hinv); solve_upd.
  - by rewrite Hl.
  - by rewrite Hc.
  - rewrite Hpc. naive_solver.
  - rewrite Hnf, (li_noff _ Hinv), Hpc. simpl. lia.
Qed.

Lemma lstep_spin s c l old m :
  linv s -> pcs s c = Spin l -> test_and_set l (sm s) = Ret old m ->
  linv (mk_lsys m (<[c := if old =? 0 then Won l else Spin l]> (pcs s)) (held s) (bare s)).
Proof.
  intros Hinv Hpc E. unfold test_and_set in E. revert E. msimpl. intros [= <- <-].
  destruct (li_locked _ Hinv l) as [[-> Hno]|[El [c0 Ho]]].
  - assert (l ∉ held s c) by (intros ?; apply (Hno c); by left).
    apply (linv_lock_step s _ c l true Hinv); solve_upd.
    + by rewrite Hpc.
    + rewrite Hpc. naive_solver.
    + unfold owns. simpl. rewrite fn_lookup_insert. naive_solver.
    + rewrite decide_False by done. destruct (lcpu (locks (sm s) l)) as [c1|] eqn:E1; [|done].
      apply (li_cpu _ Hinv) in E1. exfalso. apply (Hno c1). by left.
    + apply Hinv.
  - rewrite El. apply (linv_cpu_step s _ c Hinv); solve_upd.
    + destruct (decide (l0 = l)) as [->|]; solve_upd. destruct (locks (sm s) l). simpl in *. by subst.
    + rewrite Hpc. naive_solver.
    + rewrite (li_noff _ Hinv), Hpc. done.
    + by apply Hinv.
Qed.

Lemma lstep_record s c l m :
  linv s -> pcs s c = Won l -> acquire_record c l (sm s) = Ret tt m ->
  linv (mk_lsys m (<[c := Run]> (pcs s)) (<[c := l :: held s c]> (held s)) (bare s)).
Proof.
  intros Hinv Hpc [= <-]. assert (owns s c l) as Ho by (right; by left).
  pose proof (li_pc _ Hinv c l (or_introl Hpc)) as Hnh.
  apply (linv_lock_step s _ c l true Hinv); solve_upd.
  - rewrite Hpc. simpl. lia.
  - rewrite Hpc, elem_of_cons. naive_solver.
  - intros Ho'. by apply H, (li_uniq _ Hinv _ _ l).
  - destruct (li_locked _ Hinv l) as [[_ Hno]|[? _]]; [by apply Hno in Ho|done].
  - unfold owns. simpl. rewrite fn_lookup_insert. set_solver.
  - rewrite decide_True by set_solver. done.
  - apply NoDup_cons. split; [done|apply Hinv].
  - match goal with H : _ \/ _ |- _ => revert H end. simpl. rewrite !fn_lookup_insert. by intros [?|?].
Qed.

Lemma lstep_release s c l m h1 h2 :
  linv s -> pcs s c = Run -> held s c = h1 ++ l :: h2 -> release_enter c l (sm s) = Ret tt m ->
  linv (mk_lsys m (<[c := Unlocking l]> (pcs s)) (<[c := h1 ++ h2]> (held s)) (bare s)).
Proof.
  intros Hinv Hpc Hh E. apply bind_inv in E as (h & m1 & E1 & E2). injection E1 as <- <-.
  destruct (negb _); [done|]. injection E2 as <-.
  assert (l ∈ held s c) as Hl by (rewrite Hh; set_solver). assert (owns s c l) as Ho by by left.
  pose proof (li_nodup _ Hinv c) as Hnd. rewrite Hh, <- Permutation_middle in Hnd.
  apply NoDup_cons in Hnd as [Hnl Hnd].
  apply (linv_lock_step s _ c l true Hinv); solve_upd.
  - rewrite Hpc, Hh, !length_app. simpl. lia.
  - rewrite Hpc, Hh. set_solver.
  - intros Ho'. by apply H, (li_uniq _ Hinv _ _ l).
  - destruct (li_locked _ Hinv l) as [[_ Hno]|[? _]]; [by apply Hno in Ho|done].
  - split; [done|]. intros _. right. right. simpl. by rewrite fn_lookup_insert.
  - by rewrite decide_False.
Qed.

Lemma lstep_unlock s c l m :
  linv s -> pcs s c = Unlocking l -> sync_lock_release l (sm s) = Ret tt m ->
  linv (mk_lsys m (<[c := Unlocked l]> (pcs s)) (held s) (bare s)).
Proof.
  intros Hinv Hpc [= <-]. assert (owns s c l) as Ho by (right; by right).
  pose proof (li_pc _ Hinv c l (or_intror Hpc)) as Hnh.
  apply (linv_lock_step s _ c l false Hinv); solve_upd.
  - by rewrite Hpc.
  - rewrite Hpc. naive_solver.
  - intros Ho'. by apply H, (li_uniq _ Hinv _ _ l).
  - unfold owns. simpl. rewrite fn_lookup_insert. naive_solver.
  - rewrite decide_False by done. destruct (lcpu (locks (sm s) l)) as [c1|] eqn:E1; [|done].
    apply (li_cpu _ Hinv) in E1 as E2. assert (c1 = c) as -> by (apply (li_uniq _ Hinv _ _ l); [by left|done]). done.
  - apply Hinv.
Qed.

(** [push_off] and [pop_off] on CPU [c], away from the moments it wins or
    gives up a lock. *)
Definition neutral (pc : lpc) : Prop := forall l, pc <> Won l /\ pc <> Unlocking l.

Lemma lstep_push s s' c :
  linv s -> push_off c (sm s) = Ret tt (sm s') ->
  (forall c', c' <> c -> pcs s' c' = pcs s c' /\ bare s' c' = bare s c') ->
  (forall c', held s' c' = held s c') -> neutral (pcs s c) -> neutral (pcs s' c) ->
  bare s' c + in_call (pcs s' c) = bare s c + in_call (pcs s c) + 1 -> linv s'.
Proof.
  intros Hinv E Hoth Hh Hpc Hpc' Hb. pose proof (li_noff _ Hinv c) as Hn.
  pose proof (wp_ret_inv _ _ _ _ (push_off_spec c (sm s)) E) as ([Hl Hc] & Hnf & Hi & _).
  apply (linv_cpu_step s _ c Hinv); [by rewrite Hl| |done| |lia|done].
  - intros c' Hne. rewrite Hc by done. by destruct (Hoth c' Hne).
  - intros l. specialize (Hpc l). specialize (Hpc' l). tauto.
Qed.

Lemma lstep_pop s s' c :
  linv s -> pop_off c (sm s) = Ret tt (sm s') ->
  (forall c', c' <> c -> pcs s' c' = pcs s c' /\ bare s' c' = bare s c') ->
  (forall c', held s' c' = held s c') -> neutral (pcs s c) -> neutral (pcs s' c) ->
  bare s' c + in_call (pcs s' c) = bare s c + in_call (pcs s c) - 1 -> linv s'.
Proof.
  intros Hinv E Hoth Hh Hpc Hpc' Hb. pose proof (li_noff _ Hinv c) as Hn.
  assert (0 <= in_call (pcs s' c)) by (destruct (pcs s' c); simpl; lia).
  assert (1 <= noff (cpus (sm s) c)) as Hn1 by lia.
  pose proof (li_intr _ Hinv c ltac:(lia)) as Hi.
  pose proof (wp_ret_inv _ _ _ _ (pop_off_spec c (sm s) Hi Hn1) E) as ([Hl Hc] & Hnf & _ & Hss & _).
  apply (linv_cpu_step s _ c Hinv); [by rewrite Hl| |done| |lia|].
  - intros c' Hne. rewrite Hc by done. by destruct (Hoth c' Hne).
  - intros l. specialize (Hpc l). specialize (Hpc' l). tauto.
  - intros Hpos. unfold interruptible. rewrite Hss. by replace (noff (cpus (sm s) c) =? 1) with false by lia.
Qed.

Lemma lstep_intr s c m (on : bool) :
  linv s -> pcs s c = Run -> noff (cpus (sm s) c) = 0 ->
  on_hart c (if on then intr_on else intr_off) (sm s) = Ret tt m ->
  linv (mk_lsys m (pcs s) (held s) (bare s)).
Proof.
  intros Hinv Hpc Hn E. pose proof (li_noff _ Hinv c) as Hnc.
  assert (locks m = locks (sm s) /\ noff (cpus m c) = 0 /\ forall c', c' <> c -> cpus m c' = cpus (sm s) c')
    as (Hl & Hn' & Hc).
  { revert E. unfold on_hart, intr_on, intr_off, r_sstatus, w_sstatus, csrr, csrw.
    destruct on; msimpl; intros [= <-]; simpl; rewrite fn_lookup_insert; (split_and!; [done|done|]);
      intros c' Hne; by rewrite fn_lookup_insert_ne. }
  apply (linv_cpu_step s _ c Hinv); simpl; [by rewrite Hl| |done|done|lia|lia].
  intros c' Hne. by rewrite Hc.
Qed.

Lemma lstep_inv s s' : lstep s s' -> linv s -> linv s'.
Proof.
  intros Hstep Hinv. destruct Hstep as
    [s c l m Hpc E|s c l old m Hpc E|s c l m Hpc E|s c l m h1 h2 Hpc Hh E|s c l m Hpc E
    |s c l m Hpc E|s c m Hpc E|s c n m Hpc Hb E|s c m on Hpc Hn E].
  - by eapply lstep_acquire.
  - by eapply lstep_spin.
  - by eapply lstep_record.
  - by eapply lstep_release.
  - by eapply lstep_unlock.
  - eapply (lstep_pop s _ c Hinv); [exact E|..]; solve_upd; rewrite ?Hpc; try done. simpl. lia.
  - eapply (lstep_push s _ c Hinv); [exact E|..]; solve_upd; rewrite ?Hpc; try done. simpl. lia.
  - eapply (lstep_pop s _ c Hinv); [exact E|..]; solve_upd; rewrite ?Hpc, ?Hb; try done. simpl. lia.
  - by eapply lstep_intr.
Qed.

(** Running alone on CPU [c]. *)
Fixpoint repeatM {S} (n : nat) (k : M S unit) : M S unit :=
  match n with O => mret tt | S n => k;; repeatM n k end.

Lemma push_offs_spec c n s :
  0 <= noff (cpus s c) ->
  wp (repeatM (S n) (push_off c) s) (fun _ m =>
    noff (cpus m c) = noff (cpus s c) + S n /\ interruptible m c = false /\
    intena (cpus m c) = (if noff (cpus s c) =? 0 then interruptible s c else intena (cpus s c)) /\
    chart (cpus m c) sstatus = Z.land (chart (cpus s c) sstatus) (Z.lnot SSTATUS_SIE) /\
    forall r, r <> sstatus -> chart (cpus m c) r = chart (cpus s c) r).
Proof.
  revert s. induction n as [|n IH]; intros s Hn.
  - wp_step push_off_spec. intros [] m (_ & Hnf & Hi & He & Hs & Hr). apply wp_ret. split_and!; try done.
  - change (repeatM (S (S n)) (push_off c)) with (push_off c;; repeatM (S n) (push_off c)).
    wp_step push_off_spec. intros [] m (_ & Hnf & Hi & He & Hs & Hr).
    eapply wp_mono; [apply IH; lia|]. intros [] m' (Hnf' & Hi' & He' & Hs' & Hr'). split_and!.
    + lia.
    + done.
    + rewrite He'. replace (noff (cpus m c) =? 0) with false by lia. done.
    + rewrite Hs', SIE_off by done. done.
    + intros r Hne. by rewrite Hr', Hr.
Qed.

Lemma pop_offs_spec c n s :
  interruptible s c = false -> noff (cpus s c) = S n ->
  wp (repeatM (S n) (pop_off c) s) (fun _ m =>
    noff (cpus m c) = 0 /\
    chart (cpus m c) sstatus = (if intena (cpus s c) then Z.lor (chart (cpus s c) sstatus) SSTATUS_SIE
                                else chart (cpus s c) sstatus) /\
    forall r, r <> sstatus -> chart (cpus m c) r = chart (cpus s c) r).
Proof.
  revert s. induction n as [|n IH]; intros s Hi Hn.
  - wp_step pop_off_spec; [done|lia|]. intros [] m (_ & Hnf & He & Hs & Hr). apply wp_ret.
    rewrite Hn in Hs. split_and!; [lia|done|done].
  - change (repeatM (S (S n)) (pop_off c)) with (pop_off c;; repeatM (S n) (pop_off c)).
    wp_step pop_off_spec; [done|lia|]. intros [] m (_ & Hnf & He & Hs & Hr).
    rewrite Hn in Hs. rewrite (proj2 (Z.eqb_neq (S (S n)) 1)) in Hs by lia. simpl in Hs.
    eapply wp_mono; [apply IH; [unfold interruptible; by rewrite Hs|lia]|].
    intros [] m' (Hnf' & Hs' & Hr'). rewrite He, Hs in Hs'. split_and!; [done|done|].
    intros r Hne. by rewrite Hr', Hr.
Qed.

(** ** Properties *)

(** C13: whatever the interleaving of the CPUs, at most one of them has a given
    lock; a CPU that has a lock runs with interrupts disabled; taking a lock
    twice panics instead of spinning for ever, and a holder's [release] never
    panics. *)
Theorem spinlock_mutual_exclusion s0 s :
  linit s0 -> rtc lstep s0 s ->
  (forall c c' l, owns s c l -> owns s c' l -> c = c') /\
  (forall c l, owns s c l -> interruptible (sm s) c = false /\ locked (locks (sm s) l) = 1) /\
  (forall c l, l ∈ held s c -> acquire_enter c l (sm s) = Panic "acquire") /\
  (forall c l, l ∈ held s c -> pcs s c = Run -> wp (release c l (sm s)) (fun _ m =>
     locked (locks m l) = 0 /\ lcpu (locks m l) = None)).
Proof.
  intros H0 Hsteps. assert (linv s) as Hinv.
  { apply linit_inv in H0. clear - H0 Hsteps. induction Hsteps; [done|]. apply IHHsteps. by eapply lstep_inv. }
  assert (forall c l, owns s c l -> 1 <= noff (cpus (sm s) c) /\ locked (locks (sm s) l) = 1) as Ho.
  { intros c l Ho. split.
    - rewrite (li_noff _ Hinv). destruct Ho as [Hin|Hpc].
      + apply list_elem_of_split in Hin as (h1 & h2 & ->). rewrite length_app. simpl. destruct (pcs s c); simpl; lia.
      + destruct Hpc as [-> | ->]; simpl; lia.
    - destruct (li_locked _ Hinv l) as [[_ Hno]|[? _]]; [by apply Hno in Ho|done]. }
  split_and!.
  - apply Hinv.
  - intros c l Hl. destruct (Ho c l Hl) as [Hn Hk]. split; [apply Hinv; lia|done].
  - intros c l Hl. destruct (Ho c l (or_introl Hl)) as [_ Hk]. apply (li_cpu _ Hinv) in Hl.
    unfold acquire_enter. destruct (wp_inv _ _ (push_off_spec c (sm s))) as ([] & m & E & [Hlk _] & _).
    rewrite (bind_ret_eq _ _ _ _ _ E). unfold holding. msimpl. rewrite Hlk, Hk, Hl.
    by rewrite bool_decide_true.
  - intros c l Hl Hpc. destruct (Ho c l (or_introl Hl)) as [Hn Hk].
    pose proof (li_intr _ Hinv c ltac:(lia)) as Hi. apply (li_cpu _ Hinv) in Hl.
    unfold release, release_enter, holding, sync_lock_release.
    apply wp_bind, wp_gets. rewrite Hk, Hl, (bool_decide_true (Some c = Some c)) by done. cbn [Z.eqb negb andb].
    apply wp_ret, wp_bind, wp_ret. set (m := set_lock l _ _).
    eapply wp_mono; [apply (pop_off_spec c m Hi Hn)|]. intros [] m' [[Hlk _] _]. rewrite Hlk.
    unfold m, set_lock. simpl. rewrite !fn_lookup_insert. done.
Qed.

(** [push_off] and [pop_off] nest: any number of [push_off]s followed by as
    many [pop_off]s leave every register of the CPU as it was, interrupts are
    off in between, and no panic occurs. *)
Theorem push_off_pop_off c n s :
  noff (cpus s c) = 0 ->
  wp (repeatM (S n) (push_off c) s) (fun _ m =>
    interruptible m c = false /\
    wp (repeatM (S n) (pop_off c) m) (fun _ m' =>
      noff (cpus m' c) = 0 /\ forall r, chart (cpus m' c) r = chart (cpus s c) r)).
Proof.
  intros Hn. eapply wp_mono; [apply push_offs_spec; lia|].
  intros [] m (Hnf & Hi & He & Hs & Hr). rewrite Hn in *. cbn [Z.eqb] in He. split; [done|].
  eapply wp_mono; [apply (pop_offs_spec c n m Hi); lia|]. intros [] m' (Hn' & Hs' & Hr'). split; [done|].
  intros r. destruct (decide (r = sstatus)) as [->|]; [|by rewrite Hr', Hr].
  rewrite Hs', He, Hs. unfold interruptible. destruct (has _ _) eqn:E; [by apply SIE_restore|by apply SIE_off].
Qed.

(** Two CPUs with interrupts on; CPU 0 takes lock 7. *)
Definition demo_smp : smp :=
  mk_smp (fun _ => mk_cpu (fun r => if decide (r = sstatus) then 2 else 0) 0 false) (fun _ => mk_spinlock 0 None).

Definition demo_lsys : lsys := mk_lsys demo_smp (fun _ => Run) (fun _ => []) (fun _ => 0%nat).

Lemma spinlock_mutual_exclusion_witness : exists s, rtc lstep demo_lsys s /\ owns s 0 7 /\
  interruptible (sm s) 0 = false /\ acquire_enter 0 7 (sm s) = Panic "acquire".
Proof.
  assert (linit demo_lsys) as H0 by (split; intros; done).
  assert (exists s, rtc lstep demo_lsys s /\ 7 ∈ held s 0%nat) as (s & Hr & Hl).
  { eexists. split.
    - eapply rtc_l; [apply (ls_acquire demo_lsys 0 7); reflexivity|].
      eapply rtc_l; [eapply (ls_spin _ 0 7); reflexivity|].
      eapply rtc_l; [eapply (ls_record _ 0 7); reflexivity|]. apply rtc_refl.
    - simpl. rewrite fn_lookup_insert. by left. }
  destruct (spinlock_mutual_exclusion _ _ H0 Hr) as (_ & Hi & Ha & _).
  exists s. split_and!; [done|by left|apply (Hi 0%nat 7); by left|by apply Ha].
Defined.

Lemma push_off_pop_off_witness : exists m, repeatM 3 (push_off 0) demo_smp = Ret tt m /\ interruptible m 0 = false.
Proof.
  destruct (wp_inv _ _ (push_off_pop_off 0 2 demo_smp eq_refl)) as ([] & m & E & Hi & _). by exists m.
Defined.
