(* ===== verification/Bio.v ===== *)
(** * The buffer cache (kernel/bio.c)

    Buffers are numbered [0 .. NBUF-1]; [HEAD] stands for [bcache.head].  The
    LRU list is the doubly linked list of the code, [next] and [prev] being the
    two pointer fields.  [bcache.lock] makes each critical section one step.
    Device blocks are addressed by block number alone, as in
    [virtio_disk_rw]; a block is written atomically, and [writes] records the
    writes in order. *)

From S2P Require Import Prelude Riscv.

Definition BSIZE : Z := 1024.

(** [b->lock] is [block_pid], the pid of its holder, or 0 when free. *)
Record buf := mk_buf {
  valid : bool; bdev : Z; blockno : Z; block_pid : Z; refcnt : Z; data : list Z }.

Definition HEAD : nat := Z.to_nat NBUF.

Record bio := mk_bio {
  bufs : nat -> buf;
  next : nat -> nat;
  prev : nat -> nat;
  disk : Z -> list Z;
  writes : list (Z * list Z) }.

Definition set_buf (i : nat) (b : buf) (s : bio) : bio :=
  mk_bio (<[i := b]> (bufs s)) (next s) (prev s) (disk s) (writes s).
Definition set_next (i j : nat) (s : bio) : bio :=
  mk_bio (bufs s) (<[i := j]> (next s)) (prev s) (disk s) (writes s).
Definition set_prev (i j : nat) (s : bio) : bio :=
  mk_bio (bufs s) (next s) (<[i := j]> (prev s)) (disk s) (writes s).

Definition with_valid (v : bool) (b : buf) := mk_buf v (bdev b) (blockno b) (block_pid b) (refcnt b) (data b).
Definition with_pid (p : Z) (b : buf) := mk_buf (valid b) (bdev b) (blockno b) p (refcnt b) (data b).
Definition with_refcnt (n : Z) (b : buf) := mk_buf (valid b) (bdev b) (blockno b) (block_pid b) n (data b).
Definition with_data (d : list Z) (b : buf) := mk_buf (valid b) (bdev b) (blockno b) (block_pid b) (refcnt b) d.

Definition upd_buf (i : nat) (f : buf -> buf) : M bio unit := modify (fun s => set_buf i (f (bufs s i)) s).

(** ** The driver's contract

    [virtio_disk_rw] transfers a buffer and waits for the device. *)
Definition virtio_disk_rw (i : nat) (write : bool) : M bio unit :=
  modify (fun s =>
    let b := bufs s i in
    if write then mk_bio (bufs s) (next s) (prev s) (<[blockno b := data b]> (disk s))
                    (writes s ++ [(blockno b, data b)])
    else set_buf i (with_data (disk s (blockno b)) b) s).

(** ** Operations *)

(** Insert [b] after the head. *)
Definition push_front (b : nat) : M bio unit :=
  modify (fun s => set_next b (next s HEAD) s);;
  modify (set_prev b HEAD);;
  modify (fun s => set_prev (next s HEAD) b s);;
  modify (set_next HEAD b).

Fixpoint binit_loop (n : nat) (b : nat) : M bio unit :=
  match n with
  | O => mret tt
  | S n =>
      modify (fun s => set_next b (next s HEAD) s);;
      modify (set_prev b HEAD);;
      upd_buf b (with_pid 0);;
      modify (fun s => set_prev (next s HEAD) b s);;
      modify (set_next HEAD b);;
      binit_loop n (S b)
  end.

Definition binit : M bio unit :=
  modify (set_prev HEAD HEAD);;
  modify (set_next HEAD HEAD);;
  binit_loop (Z.to_nat NBUF) 0.

(** [acquiresleep(&b->lock)]: a process that finds the lock taken sleeps until
    its holder runs, which this sequential run never does. *)
Definition acquiresleep_buf (pid : Z) (i : nat) : M bio unit :=
  p ← gets (fun s => block_pid (bufs s i));
  if negb (p =? 0) then diverge else upd_buf i (with_pid pid).

(** First loop of [bget], along [next]. *)
Fixpoint bget_cached (fuel : nat) (dev no : Z) (b : nat) (s : bio) : option nat :=
  match fuel with
  | O => None
  | S fuel =>
      if decide (b = HEAD) then None
      else if (bdev (bufs s b) =? dev) && (blockno (bufs s b) =? no) then Some b
      else bget_cached fuel dev no (next s b) s
  end.

(** Second loop, along [prev]. *)
Fixpoint bget_lru (fuel : nat) (b : nat) (s : bio) : option nat :=
  match fuel with
  | O => None
  | S fuel =>
      if decide (b = HEAD) then None
      else if refcnt (bufs s b) =? 0 then Some b
      else bget_lru fuel (prev s b) s
  end.

Definition bget (pid dev no : Z) : M bio nat :=
  c ← gets (fun s => bget_cached (S HEAD) dev no (next s HEAD) s);
  match c with
  | Some b =>
      upd_buf b (fun x => with_refcnt (u32 (refcnt x + 1)) x);;
      acquiresleep_buf pid b;;
      mret b
  | None =>
      c ← gets (fun s => bget_lru (S HEAD) (prev s HEAD) s);
      match c with
      | Some b =>
          upd_buf b (fun x => mk_buf false dev no (block_pid x) 1 (data x));;
          acquiresleep_buf pid b;;
          mret b
      | None => panic "bget: no buffers"
      end
  end.

Definition bread (pid dev no : Z) : M bio nat :=
  b ← bget pid dev no;
  v ← gets (fun s => valid (bufs s b));
  (if negb v then virtio_disk_rw b false;; upd_buf b (with_valid true) else mret tt);;
  mret b.

Definition holdingsleep_buf (pid : Z) (i : nat) (s : bio) : bool :=
  negb (block_pid (bufs s i) =? 0) && (block_pid (bufs s i) =? pid).

Definition bwrite (pid : Z) (b : nat) : M bio unit :=
  h ← gets (holdingsleep_buf pid b);
  if negb h then panic "bwrite" else virtio_disk_rw b true.

Definition brelse (pid : Z) (b : nat) : M bio unit :=
  h ← gets (holdingsleep_buf pid b);
  if negb h then panic "brelse"
  else
    upd_buf b (with_pid 0);;
    upd_buf b (fun x => with_refcnt (u32 (refcnt x - 1)) x);;
    n ← gets (fun s => refcnt (bufs s b));
    if n =? 0 then
      modify (fun s => set_prev (next s b) (prev s b) s);;
      modify (fun s => set_next (prev s b) (next s b) s);;
      push_front b
    else mret tt.

Definition bpin (b : nat) : M bio unit := upd_buf b (fun x => with_refcnt (u32 (refcnt x + 1)) x).
Definition bunpin (b : nat) : M bio unit := upd_buf b (fun x => with_refcnt (u32 (refcnt x - 1)) x).

(** ** The linked list *)

(** From [x], [next] leads through [l] to [y], and [prev] back. *)
Fixpoint linked (nx pv : nat -> nat) (x : nat) (l : list nat) (y : nat) : Prop :=
  match l with
  | [] => nx x = y /\ pv y = x
  | z :: l => nx x = z /\ pv z = x /\ linked nx pv z l y
  end.

Lemma linked_app nx pv x l1 b l2 y :
  linked nx pv x (l1 ++ b :: l2) y <-> linked nx pv x l1 b /\ linked nx pv b l2 y.
Proof. revert x. induction l1 as [|z l1 IH]; intros x; simpl; [tauto|rewrite IH; tauto]. Qed.

Lemma linked_frame nx pv nx' pv' x l y :
  linked nx pv x l y -> (forall z, z ∈ x :: l -> nx' z = nx z) -> (forall z, z ∈ l ++ [y] -> pv' z = pv z) ->
  linked nx' pv' x l y.
Proof.
  revert x. induction l as [|z l IH]; intros x; simpl.
  - intros [? ?] Hn Hp. rewrite Hn, Hp by set_solver. done.
  - intros (? & ? & Hl) Hn Hp. rewrite Hn, Hp by set_solver. split_and!; [done..|].
    apply IH; [done|intros; apply Hn; set_solver|intros; apply Hp; set_solver].
Qed.

Lemma linked_prev_in nx pv x l y : linked nx pv x l y -> pv y ∈ x :: l.
Proof.
  revert x. induction l as [|z l IH]; intros x; simpl.
  - intros [_ ->]. set_solver.
  - intros (_ & _ & Hl%IH). set_solver.
Qed.

Lemma linked_next nx pv x l y : linked nx pv x l y -> nx x = hd y l.
Proof. destruct l; simpl; tauto. Qed.

(** The end of a list can be redirected. *)
Lemma linked_relink nx pv nx' pv' x l b c :
  linked nx pv x l b -> NoDup (x :: l) ->
  (forall z, z ∈ x :: l -> z <> pv b -> nx' z = nx z) -> (forall z, z ∈ l -> pv' z = pv z) ->
  nx' (pv b) = c -> pv' c = pv b -> linked nx' pv' x l c.
Proof.
  revert x. induction l as [|z l IH]; intros x; simpl.
  - intros [_ Hb] _ _ _ Hn Hp. by rewrite Hb in Hn, Hp.
  - intros (? & Hz & Hl) [Hx Hnd]%NoDup_cons Hn Hp Hc Hc'.
    pose proof (linked_prev_in _ _ _ _ _ Hl) as Hin.
    rewrite (Hn x), (Hp z); [|by left|by left|by intros ->].
    split_and!; [done..|]. apply IH; [done|done| | |done|done]; intros; [apply Hn|apply Hp]; by try right.
Qed.

Definition lru_rep (s : bio) (l : list nat) : Prop :=
  linked (next s) (prev s) HEAD l HEAD /\ l ≡ₚ seq 0 HEAD.

Lemma lru_rep_nodup s l : lru_rep s l -> NoDup (HEAD :: l).
Proof.
  intros [_ Hp]. apply NoDup_cons. rewrite Hp. split; [rewrite elem_of_seq; lia|apply NoDup_seq].
Qed.

Lemma lru_rep_elem s l i : lru_rep s l -> i ∈ l <-> (i < HEAD)%nat.
Proof. intros [_ Hp]. rewrite Hp, elem_of_seq. lia. Qed.

(** Unlinking [b] from a list. *)
Lemma unlink_spec nx pv x l1 b l2 y :
  linked nx pv x (l1 ++ b :: l2) y -> NoDup (x :: l1 ++ b :: l2) -> NoDup (l1 ++ b :: l2 ++ [y]) ->
  let pv1 := <[nx b := pv b]> pv in
  linked (<[pv1 b := nx b]> nx) pv1 x (l1 ++ l2) y.
Proof.
  intros Hl Hnd Hnd' pv1. apply linked_app in Hl as [H1 H2].
  pose proof (linked_prev_in _ _ _ _ _ H1) as Hin.
  assert (nx b <> b) as Hnb.
  { rewrite (linked_next _ _ _ _ _ H2). apply NoDup_app in Hnd' as (_ & _ & [Hb _]%NoDup_cons).
    destruct l2; simpl; set_solver. }
  assert (pv1 b = pv b) as -> by (unfold pv1; by rewrite fn_lookup_insert_ne).
  change (x :: l1 ++ b :: l2) with ((x :: l1) ++ b :: l2) in Hnd.
  apply NoDup_app in Hnd as (Hnd1 & Hd & Hnd2).
  assert (linked (<[pv b := nx b]> nx) pv1 x l1 (nx b)) as H1'.
  { eapply linked_relink; [exact H1|done|..].
    - intros z _ Hz. by rewrite fn_lookup_insert_ne.
    - intros z Hz. unfold pv1. rewrite fn_lookup_insert_ne; [done|].
      rewrite (linked_next _ _ _ _ _ H2). intros <-.
      apply NoDup_app in Hnd' as (_ & Hd' & _). apply (Hd' _ Hz). destruct l2; simpl; set_solver.
    - by rewrite fn_lookup_insert.
    - unfold pv1. by rewrite fn_lookup_insert. }
  destruct l2 as [|z l2]; simpl in *.
  - destruct H2 as [E _]. rewrite app_nil_r. by rewrite E in *.
  - destruct H2 as (E & Ez & H2). rewrite E in *. apply linked_app. split; [done|].
    apply NoDup_app in Hnd' as (_ & _ & [_ [Hz _]%NoDup_cons]%NoDup_cons).
    eapply linked_frame; [exact H2|..].
    + intros w Hw. rewrite fn_lookup_insert_ne; [done|]. intros <-. apply (Hd _ Hin). set_solver.
    + intros w Hw. unfold pv1. rewrite E, fn_lookup_insert_ne; [done|]. intros <-. done.
Qed.

(** Linking [b] in after the head. *)
Lemma link_spec nx pv x l b y :
  linked nx pv x l y -> b <> x -> b ∉ l -> b <> y -> x ∉ l -> NoDup (l ++ [y]) ->
  let nx1 := <[b := nx x]> nx in
  let pv1 := <[b := x]> pv in
  let pv2 := <[nx1 x := b]> pv1 in
  linked (<[x := b]> nx1) pv2 x (b :: l) y.
Proof.
  intros Hl Hbx Hbl Hby Hxl Hnd nx1 pv1 pv2. assert (nx1 x = nx x) as E by (unfold nx1; by rewrite fn_lookup_insert_ne).
  assert (nx x <> b) as Hxb by (rewrite (linked_next _ _ _ _ _ Hl); destruct l; simpl; set_solver).
  simpl. split_and!.
  - by rewrite fn_lookup_insert.
  - unfold pv2. rewrite E, fn_lookup_insert_ne by done. unfold pv1. by rewrite fn_lookup_insert.
  - assert (pv2 (nx x) = b) as Ep by (unfold pv2; rewrite E; by rewrite fn_lookup_insert).
    assert (<[x:=b]> nx1 b = nx x) as En by (rewrite fn_lookup_insert_ne by done; unfold nx1; by rewrite fn_lookup_insert).
    destruct l as [|z l]; simpl in *.
    + destruct Hl as [Ey _]. by rewrite En, <- Ey.
    + destruct Hl as (Ez & _ & Hl). rewrite Ez in Ep, En. split_and!; [done..|].
      eapply linked_frame; [exact Hl|..].
      * intros w Hw. rewrite fn_lookup_insert_ne by set_solver. unfold nx1. rewrite fn_lookup_insert_ne by set_solver. done.
      * intros w Hw. unfold pv2, pv1. rewrite E, Ez. rewrite !fn_lookup_insert_ne; [done| |].
        -- intros <-. apply elem_of_app in Hw. set_solver.
        -- intros <-. by apply NoDup_cons in Hnd as [? _].
Qed.

Lemma linked_rev nx pv x l y : linked nx pv x l y -> linked pv nx y (rev l) x.
Proof.
  revert x. induction l as [|z l IH]; intros x; simpl; [tauto|].
  intros (? & ? & Hl%IH). apply linked_app. by split.
Qed.

(** The loops of [bget] search the list. *)
Lemma bget_cached_spec fuel dev no x l s :
  linked (next s) (prev s) x l HEAD -> HEAD ∉ l -> (length l < fuel)%nat ->
  bget_cached fuel dev no (next s x) s
  = List.find (fun b => (bdev (bufs s b) =? dev) && (blockno (bufs s b) =? no)) l.
Proof.
  revert x fuel. induction l as [|z l IH]; intros x [|fuel] Hl Hh Hf; simpl in *; try lia.
  - destruct Hl as [-> _]. by rewrite decide_True.
  - destruct Hl as (-> & _ & Hl). rewrite decide_False by set_solver.
    destruct (_ && _); [done|]. apply IH; [done|set_solver|lia].
Qed.

Lemma bget_lru_spec fuel x l s :
  linked (prev s) (next s) x l HEAD -> HEAD ∉ l -> (length l < fuel)%nat ->
  bget_lru fuel (prev s x) s = List.find (fun b => refcnt (bufs s b) =? 0) l.
Proof.
  revert x fuel. induction l as [|z l IH]; intros x [|fuel] Hl Hh Hf; simpl in *; try lia.
  - destruct Hl as [-> _]. by rewrite decide_True.
  - destruct Hl as (-> & _ & Hl). rewrite decide_False by set_solver.
    destruct (_ =? _); [done|]. apply IH; [done|set_solver|lia].
Qed.

(** ** Invariant *)

(** A buffer nobody uses holds nothing that the disk does not have: the
    obligation of whoever releases it last. *)
Record bio_inv (s : bio) (l : list nat) : Prop := {
  bi_lru : lru_rep s l;
  bi_uniq i j : (i < HEAD)%nat -> (j < HEAD)%nat -> bdev (bufs s i) <> 0 ->
    bdev (bufs s i) = bdev (bufs s j) -> blockno (bufs s i) = blockno (bufs s j) -> i = j;
  bi_ref i : (i < HEAD)%nat -> 0 <= refcnt (bufs s i) /\ (block_pid (bufs s i) <> 0 -> 1 <= refcnt (bufs s i));
  bi_clean i : (i < HEAD)%nat -> refcnt (bufs s i) = 0 -> valid (bufs s i) = true ->
    data (bufs s i) = disk s (blockno (bufs s i));
}.

(** The buffer of a block. *)
Definition caches (s : bio) (dev no : Z) (i : nat) : Prop :=
  (i < HEAD)%nat /\ bdev (bufs s i) = dev /\ blockno (bufs s i) = no.

Global Instance caches_dec s dev no i : Decision (caches s dev no i).
Proof. unfold caches. apply _. Defined.

(** The contents of block [no] as the kernel sees it: the cached copy if there
    is a valid one, the disk otherwise. *)
Definition content (s : bio) (dev no : Z) : list Z :=
  match list_find (caches s dev no) (seq 0 HEAD) with
  | Some (_, i) => if valid (bufs s i) then data (bufs s i) else disk s no
  | None => disk s no
  end.

Lemma content_cached s l dev no i :
  bio_inv s l -> dev <> 0 -> caches s dev no i ->
  content s dev no = if valid (bufs s i) then data (bufs s i) else disk s no.
Proof.
  intros Hinv Hdev Hi. unfold content.
  destruct (list_find (caches s dev no) (seq 0 HEAD)) as [[k j]|] eqn:E.
  - apply list_find_Some in E as (_ & Hj & _). destruct Hi as (Hi & Hd & Hn), Hj as (Hj & Hd' & Hn').
    rewrite (bi_uniq _ _ Hinv i j); [done|done|done|by rewrite Hd|congruence|congruence].
  - apply list_find_None in E. rewrite Forall_forall in E. exfalso. apply (E i); [|done].
    apply elem_of_seq. destruct Hi. lia.
Qed.

Lemma content_uncached s dev no : (forall i, ~ caches s dev no i) -> content s dev no = disk s no.
Proof.
  intros Hno. unfold content. destruct (list_find _ _) as [[k j]|] eqn:E; [|done].
  apply list_find_Some in E as (_ & Hj & _). by apply Hno in Hj.
Qed.

Lemma find_cached s l dev no :
  lru_rep s l ->
  match bget_cached (S HEAD) dev no (next s HEAD) s with
  | Some b => caches s dev no b
  | None => forall i, ~ caches s dev no i
  end.
Proof.
  intros Hl. pose proof (lru_rep_nodup _ _ Hl) as [Hh _]%NoDup_cons.
  rewrite (bget_cached_spec _ _ _ _ l); [|apply Hl|done|].
  2:{ destruct Hl as [_ Hp]. apply Permutation_length in Hp. rewrite length_seq in Hp. lia. }
  destruct (List.find _ _) as [b|] eqn:E.
  - apply List.find_some in E as [Hb Hm]. bool_prop. split; [|done].
    apply (lru_rep_elem _ _ _ Hl). by apply list_elem_of_In.
  - intros i (Hi & Hd & Hn). apply (List.find_none _ _) with (x := i) in E.
    + rewrite Hd, Hn, !Z.eqb_refl in E. done.
    + apply list_elem_of_In. by apply (lru_rep_elem _ _ _ Hl).
Qed.

(** The victim is the least recently used of the unused buffers. *)
Definition lru_victim (s : bio) (l : list nat) (b : nat) : Prop :=
  exists l1 l2, l = l1 ++ b :: l2 /\ refcnt (bufs s b) = 0 /\ forall i, i ∈ l2 -> refcnt (bufs s i) <> 0.

Lemma find_last {A} (P : A -> bool) l x :
  List.find P (rev l) = Some x -> exists l1 l2, l = l1 ++ x :: l2 /\ P x = true /\ forall y, y ∈ l2 -> P y = false.
Proof.
  induction l as [|z l IH] using rev_ind; [done|].
  rewrite rev_app_distr. simpl. destruct (P z) eqn:Ez.
  - intros [= <-]. exists l, []. split_and!; [done|done|set_solver].
  - intros Hf. destruct (IH Hf) as (l1 & l2 & -> & Hx & Hl2). exists l1, (l2 ++ [z]).
    split_and!; [by rewrite <- app_assoc|done|]. intros y [Hy| ->%list_elem_of_singleton]%elem_of_app; auto.
Qed.

Lemma find_victim s l :
  lru_rep s l ->
  match bget_lru (S HEAD) (prev s HEAD) s with
  | Some b => lru_victim s l b
  | None => forall i, (i < HEAD)%nat -> refcnt (bufs s i) <> 0
  end.
Proof.
  intros Hl. pose proof (lru_rep_nodup _ _ Hl) as [Hh _]%NoDup_cons.
  rewrite (bget_lru_spec _ _ (rev l)).
  - destruct (List.find _ _) as [b|] eqn:E.
    + apply find_last in E as (l1 & l2 & -> & Hb & Hl2). exists l1, l2. split_and!; [done|lia|].
      intros i Hi%Hl2. lia.
    + intros i Hi. apply (List.find_none _ _) with (x := i) in E; [lia|].
      apply in_rev. rewrite rev_involutive. apply list_elem_of_In. by apply (lru_rep_elem _ _ _ Hl).
  - apply linked_rev, Hl.
  - rewrite list_elem_of_In, <- in_rev, <- list_elem_of_In. done.
  - destruct Hl as [_ Hp]. apply Permutation_length in Hp. rewrite length_seq in Hp. rewrite length_rev. lia.
Qed.

(** ** Specifications of the operations *)

Lemma caches_em s dev no : (exists i, caches s dev no i) \/ (forall i, ~ caches s dev no i).
Proof.
  destruct (decide (Exists (caches s dev no) (seq 0 HEAD))) as [(i & _ & Hi)%Exists_exists|Hn]; [eauto|].
  right. intros i Hi. apply Hn, Exists_exists. exists i. split; [|done]. apply elem_of_seq. destruct Hi. lia.
Qed.

Lemma content_eq s s' l l' dev no :
  bio_inv s l -> bio_inv s' l' -> dev <> 0 -> disk s' = disk s ->
  (forall i, caches s' dev no i <-> caches s dev no i) ->
  (forall i, caches s dev no i -> valid (bufs s' i) = valid (bufs s i) /\ data (bufs s' i) = data (bufs s i)) ->
  content s' dev no = content s dev no.
Proof.
  intros Hinv Hinv' Hdev Hd Hc Heq. destruct (caches_em s dev no) as [[i Hi]|Hno].
  - rewrite (content_cached s' l' dev no i) by (try done; by apply Hc).
    rewrite (content_cached s l dev no i) by done. destruct (Heq i Hi) as [-> ->]. by rewrite Hd.
  - rewrite !content_uncached; [by rewrite Hd|done|]. intros i Hi%Hc. by apply (Hno i).
Qed.

(** A state that differs from [s] in buffer [b] only. *)
Definition only_buf (b : nat) (s s' : bio) : Prop :=
  (forall i, i <> b -> bufs s' i = bufs s i) /\ next s' = next s /\ prev s' = prev s /\
  disk s' = disk s /\ writes s' = writes s.

Lemma only_buf_refl b s : only_buf b s s.
Proof. done. Qed.

Lemma only_buf_trans b s1 s2 s3 : only_buf b s1 s2 -> only_buf b s2 s3 -> only_buf b s1 s3.
Proof.
  intros (Hb1 & ? & ? & ? & ?) (Hb2 & ? & ? & ? & ?). split_and!; try congruence.
  intros i Hi. by rewrite Hb2, Hb1.
Qed.

Lemma upd_buf_spec b f s :
  wp (upd_buf b f s) (fun _ s' => only_buf b s s' /\ bufs s' b = f (bufs s b)).
Proof.
  unfold upd_buf. msimpl. unfold set_buf. simpl. rewrite fn_lookup_insert. split; [|done].
  split_and!; [|done..]. intros i Hi. simpl. by rewrite fn_lookup_insert_ne.
Qed.

(** The invariant after buffer [b] got the identity [dev, no]. *)
Lemma bio_inv_buf s s' l b :
  bio_inv s l -> only_buf b s s' -> (b < HEAD)%nat ->
  bdev (bufs s' b) <> 0 ->
  (forall i, i <> b -> ~ caches s (bdev (bufs s' b)) (blockno (bufs s' b)) i) ->
  1 <= refcnt (bufs s' b) -> bio_inv s' l.
Proof.
  intros Hinv (Ho & Hnx & Hpv & Hd & _) Hb Hdev Hno Href. split.
  - destruct (bi_lru _ _ Hinv) as [Hl Hp]. split; [by rewrite Hnx, Hpv|done].
  - intros i j Hi Hj. destruct (decide (i = b)) as [->|Hib], (decide (j = b)) as [->|Hjb].
    + done.
    + rewrite (Ho j) by done. intros _ E1 E2. exfalso. apply (Hno j Hjb). by split_and!.
    + rewrite (Ho i) by done. intros _ E1 E2. exfalso. apply (Hno i Hib). by split_and!.
    + rewrite !Ho by done. by apply Hinv.
  - intros i Hi. destruct (decide (i = b)) as [->|Hib]; [lia|]. rewrite Ho by done. by apply Hinv.
  - intros i Hi. destruct (decide (i = b)) as [->|Hib]; [lia|]. rewrite Ho, Hd by done. by apply Hinv.
Qed.

(** Which buffer [bget] chooses: the one that caches the block, or the least
    recently used of the unused ones; [r] is its reference count before. *)
Definition bget_choice (s : bio) (l : list nat) (dev no : Z) (b : nat) (r : Z) : Prop :=
  (caches s dev no b /\ r = refcnt (bufs s b)) \/
  ((forall i, ~ caches s dev no i) /\ lru_victim s l b /\ r = 0).

(** The buffer can be had without waiting. *)
Record available (s : bio) (dev no : Z) : Prop := {
  av_free i : caches s dev no i -> block_pid (bufs s i) = 0 /\ refcnt (bufs s i) < 2 ^ 32 - 1;
  av_room : exists i, caches s dev no i \/ ((i < HEAD)%nat /\ refcnt (bufs s i) = 0);
}.

Record bread_post (s : bio) (l : list nat) (pid dev no : Z) (b : nat) (s' : bio) (r : Z) : Prop := {
  br_choice : bget_choice s l dev no b r;
  br_lt : (b < HEAD)%nat;
  br_inv : bio_inv s' l;
  br_buf : bufs s' b = mk_buf true dev no pid (r + 1) (content s dev no);
  br_only : only_buf b s s';
  br_content dev' no' : dev' <> 0 -> content s' dev' no' = content s dev' no';
}.

Lemma bread_finish s s' l pid dev no b r :
  bio_inv s l -> dev <> 0 -> bget_choice s l dev no b r -> (b < HEAD)%nat -> 0 <= r ->
  only_buf b s s' -> bufs s' b = mk_buf true dev no pid (r + 1) (content s dev no) ->
  bread_post s l pid dev no b s' r.
Proof.
  intros Hinv Hdev Hch Hb Hr Ho E.
  assert (bio_inv s' l) as Hinv'.
  { eapply bio_inv_buf; [done|done|done|by rewrite E|rewrite E; simpl|rewrite E; simpl; lia].
    intros i Hi Hc. destruct Hch as [[Hb' _]|[Hno _]]; [|by apply (Hno i)].
    destruct Hc as (? & ? & ?), Hb' as (? & ? & ?). apply Hi. apply (bi_uniq _ _ Hinv); congruence. }
  assert (caches s' dev no b) as Hcb by (split_and!; [done|by rewrite E|by rewrite E]).
  split; try done. intros dev' no' Hdev'.
  destruct (decide (dev' = dev /\ no' = no)) as [[-> ->]|Hne].
  { rewrite (content_cached s' l dev no b) by done. by rewrite E. }
  destruct Ho as (Ho & _ & _ & Hd & _).
  assert (forall i, i <> b -> caches s' dev' no' i <-> caches s dev' no' i) as Hci
    by (intros i Hi; unfold caches; by rewrite Ho).
  assert (~ caches s' dev' no' b) as Hnb by (unfold caches; rewrite E; naive_solver).
  destruct (decide (caches s dev' no' b)) as [Hvb|Hvb].
  - (** the victim was caching [no'] *)
    destruct Hch as [[Hcb' _]|(_ & (l1 & l2 & _ & Hr0 & _) & _)].
    { exfalso. destruct Hvb as (? & ? & ?), Hcb' as (? & ? & ?). apply Hne. split; congruence. }
    rewrite (content_cached s l dev' no' b) by done. rewrite content_uncached.
    + rewrite Hd. destruct (valid (bufs s b)) eqn:Ev; [|done]. rewrite (bi_clean _ _ Hinv b) by done.
      destruct Hvb as (_ & _ & ->). done.
    + intros i Hi. destruct (decide (i = b)) as [->|Hib]; [done|]. apply Hci in Hi; [|done].
      destruct Hi as (? & Hi1 & ?), Hvb as (? & ? & ?). apply Hib. apply (bi_uniq _ _ Hinv); congruence.
  - apply (content_eq s s' l l); try done.
    + intros i. destruct (decide (i = b)) as [->|Hib]; [tauto|by apply Hci].
    + intros i Hi. destruct (decide (i = b)) as [->|Hib]; [done|by rewrite Ho].
Qed.

(** Reading the block in, if the buffer is not valid. *)
Lemma bread_fill s b v dev no pid r d :
  bufs s b = mk_buf v dev no pid r d ->
  wp ((v ← gets (fun s => valid (bufs s b));
       (if negb v then virtio_disk_rw b false;; upd_buf b (with_valid true) else mret tt);;
       mret b) s)
     (fun b' s' => b' = b /\ only_buf b s s' /\
        bufs s' b = mk_buf true dev no pid r (if v then d else disk s no)).
Proof.
  intros E. apply wp_gets. rewrite E. destruct v; cbn [valid negb].
  - apply wp_bind, wp_ret, wp_ret. split_and!; [done|apply only_buf_refl|done].
  - apply wp_bind, wp_modify. rewrite E. cbn [blockno]. set (s1 := set_buf _ _ _).
    eapply wp_mono; [apply upd_buf_spec|]. intros [] s2 [Ho2 E2]. apply wp_ret. split_and!; [done| |].
    + eapply only_buf_trans; [|exact Ho2]. split_and!; [|done..]. intros i Hi. simpl. by rewrite fn_lookup_insert_ne.
    + rewrite E2. unfold s1. simpl. by rewrite fn_lookup_insert.
Qed.

(** Taking a free buffer's lock. *)
Lemma acquiresleep_buf_spec pid b s :
  block_pid (bufs s b) = 0 ->
  wp (acquiresleep_buf pid b s) (fun _ s' => only_buf b s s' /\ bufs s' b = with_pid pid (bufs s b)).
Proof.
  intros Hp. unfold acquiresleep_buf. apply wp_gets. rewrite Hp. apply upd_buf_spec.
Qed.

Lemma bread_spec s l pid dev no :
  bio_inv s l -> dev <> 0 -> pid <> 0 -> available s dev no ->
  wp (bread pid dev no s) (fun b s' => exists r, bread_post s l pid dev no b s' r).
Proof.
  intros Hinv Hdev Hpid [Hav Hroom]. unfold bread, bget.
  pose proof (find_cached s l dev no (bi_lru _ _ Hinv)) as Hc.
  pose proof (find_victim s l (bi_lru _ _ Hinv)) as Hv.
  apply wp_bind, wp_gets. destruct (bget_cached _ _ _ _ _) as [b|].
  - destruct (Hav b Hc) as [Hp Hr]. destruct (bi_ref _ _ Hinv b) as [Hr0 _]; [apply Hc|].
    wp_step upd_buf_spec. intros [] s1 [Ho1 E1].
    wp_step acquiresleep_buf_spec; [by rewrite E1|]. intros [] s2 [Ho2 E2]. apply wp_ret.
    rewrite E1, wrap_id in E2 by (unfold in_range; lia).
    assert (only_buf b s s2) as Ho by by eapply only_buf_trans.
    pose proof (content_cached s l dev no b Hinv Hdev Hc) as Ect.
    destruct Hc as (Hb & Ed & En). unfold with_pid, with_refcnt in E2. simpl in E2. rewrite Ed, En in E2.
    eapply wp_mono; [by eapply bread_fill|]. intros b' s' (-> & Ho' & E'). exists (refcnt (bufs s b)).
    apply bread_finish; try done.
    + by left.
    + by eapply only_buf_trans.
    + rewrite E', Ect. destruct Ho as (_ & _ & _ & -> & _). done.
  - apply wp_bind, wp_gets. destruct (bget_lru _ _ _) as [b|].
    2:{ exfalso. destruct Hroom as (i & [Hi|[Hi Hr]]); [by apply (Hc i)|by apply (Hv i)]. }
    assert (b < HEAD)%nat as Hb.
    { destruct Hv as (l1 & l2 & -> & _). apply (lru_rep_elem _ _ _ (bi_lru _ _ Hinv)). set_solver. }
    assert (refcnt (bufs s b) = 0) as Hr by (by destruct Hv as (? & ? & _ & ? & _)).
    assert (block_pid (bufs s b) = 0) as Hp.
    { destruct (bi_ref _ _ Hinv b Hb) as [_ Hl]. destruct (decide (block_pid (bufs s b) = 0)); [done|].
      specialize (Hl n). lia. }
    wp_step upd_buf_spec. intros [] s1 [Ho1 E1].
    wp_step acquiresleep_buf_spec; [by rewrite E1|]. intros [] s2 [Ho2 E2]. apply wp_ret.
    rewrite E1 in E2. assert (only_buf b s s2) as Ho by by eapply only_buf_trans.
    unfold with_pid in E2. simpl in E2.
    eapply wp_mono; [by eapply bread_fill|]. intros b' s' (-> & Ho' & E'). exists 0.
    apply bread_finish; try done.
    + by right.
    + by eapply only_buf_trans.
    + rewrite E', content_uncached by done. destruct Ho as (_ & _ & _ & -> & _). done.
Qed.

(** The invariant after a change of buffer [b] that keeps its identity. *)
Lemma bio_inv_upd s s' l l' b :
  bio_inv s l -> lru_rep s' l' -> (forall i, i <> b -> bufs s' i = bufs s i) ->
  (forall i, (i < HEAD)%nat -> i <> b -> refcnt (bufs s i) = 0 -> valid (bufs s i) = true ->
     disk s' (blockno (bufs s i)) = disk s (blockno (bufs s i))) ->
  bdev (bufs s' b) = bdev (bufs s b) -> blockno (bufs s' b) = blockno (bufs s b) ->
  (0 <= refcnt (bufs s' b) /\ (block_pid (bufs s' b) <> 0 -> 1 <= refcnt (bufs s' b))) ->
  (refcnt (bufs s' b) = 0 -> valid (bufs s' b) = true -> data (bufs s' b) = disk s' (blockno (bufs s b))) ->
  bio_inv s' l'.
Proof.
  intros Hinv Hl Ho Hd Edev Eno Href Hcl.
  assert (forall i, bdev (bufs s' i) = bdev (bufs s i) /\ blockno (bufs s' i) = blockno (bufs s i)) as Hid.
  { intros i. destruct (decide (i = b)) as [->|]; [done|by rewrite Ho]. }
  split; [done|..].
  - intros i j. destruct (Hid i) as [-> ->], (Hid j) as [-> ->]. apply Hinv.
  - intros i Hi. destruct (decide (i = b)) as [->|]; [done|]. rewrite Ho by done. by apply Hinv.
  - intros i Hi. destruct (decide (i = b)) as [->|Hib].
    + intros. rewrite Eno. by apply Hcl.
    + rewrite Ho by done. intros. rewrite Hd by done. by apply Hinv.
Qed.

(** The pointer manipulation of [brelse] moves [b] to the front. *)
Lemma move_front_spec s l1 b l2 :
  lru_rep s (l1 ++ b :: l2) ->
  wp ((modify (fun s => set_prev (next s b) (prev s b) s);;
       modify (fun s => set_next (prev s b) (next s b) s);;
       push_front b) s)
     (fun _ s' => lru_rep s' (b :: l1 ++ l2) /\ bufs s' = bufs s /\ disk s' = disk s /\ writes s' = writes s).
Proof.
  intros Hl. pose proof (lru_rep_nodup _ _ Hl) as Hnd. destruct Hl as [Hl Hp].
  assert (NoDup (l1 ++ b :: l2 ++ [HEAD])) as Hnd'.
  { change (l1 ++ b :: l2 ++ [HEAD]) with (l1 ++ (b :: l2) ++ [HEAD]). rewrite app_assoc.
    by rewrite <- Permutation_cons_append. }
  pose proof (unlink_spec _ _ _ _ _ _ _ Hl Hnd Hnd') as Hu. cbv zeta in Hu.
  apply NoDup_cons in Hnd as [Hh Hnd]. rewrite <- Permutation_middle in Hnd.
  apply NoDup_cons in Hnd as [Hb Hnd].
  assert (b <> HEAD) as HbH by set_solver.
  do 2 apply wp_modify. unfold push_front. do 3 apply wp_modify. apply wp_ret. split; [|done].
  split; [|by rewrite <- Hp, Permutation_middle]. simpl.
  apply (link_spec _ _ HEAD (l1 ++ l2) b HEAD Hu); [done|done|done|set_solver|].
  rewrite <- Permutation_cons_append. apply NoDup_cons. split; [set_solver|done].
Qed.

Definition brelse_lru (s : bio) (b : nat) (l l' : list nat) : Prop :=
  (refcnt (bufs s b) <> 1 /\ l' = l) \/
  (refcnt (bufs s b) = 1 /\ exists l1 l2, l = l1 ++ b :: l2 /\ l' = b :: l1 ++ l2).

Record brelse_post (s : bio) (l : list nat) (b : nat) (s' : bio) (l' : list nat) : Prop := {
  rl_lru : brelse_lru s b l l';
  rl_inv : bio_inv s' l';
  rl_buf : bufs s' b = with_refcnt (refcnt (bufs s b) - 1) (with_pid 0 (bufs s b));
  rl_other i : i <> b -> bufs s' i = bufs s i;
  rl_disk : disk s' = disk s /\ writes s' = writes s;
  rl_content dev no : dev <> 0 -> content s' dev no = content s dev no;
}.

Lemma brelse_spec s l pid b :
  bio_inv s l -> (b < HEAD)%nat -> block_pid (bufs s b) = pid -> pid <> 0 ->
  refcnt (bufs s b) < 2 ^ 32 ->
  (refcnt (bufs s b) = 1 -> valid (bufs s b) = true -> data (bufs s b) = disk s (blockno (bufs s b))) ->
  wp (brelse pid b s) (fun _ s' => exists l', brelse_post s l b s' l').
Proof.
  intros Hinv Hb Hp Hpid Hr Hcl. unfold brelse, holdingsleep_buf. apply wp_gets. rewrite Hp.
  replace (pid =? 0) with false by lia. rewrite Z.eqb_refl. cbn [negb andb].
  destruct (bi_ref _ _ Hinv b Hb) as [_ Hr1]. specialize (Hr1 ltac:(lia)).
  wp_step upd_buf_spec. intros [] s1 [Ho1 E1]. wp_step upd_buf_spec. intros [] s2 [Ho2 E2].
  rewrite E1 in E2. cbn [refcnt with_pid] in E2. rewrite wrap_id in E2 by (unfold in_range; lia).
  assert (only_buf b s s2) as (Ho & Hnx & Hpv & Hd & Hw) by by eapply only_buf_trans.
  apply wp_gets. rewrite E2. cbn [refcnt with_refcnt].
  assert (forall s' l', lru_rep s' l' -> brelse_lru s b l l' -> bufs s' = bufs s2 -> disk s' = disk s2 ->
    writes s' = writes s2 -> exists l', brelse_post s l b s' l') as Hfin.
  { intros s' l' Hl' Hlr Hbu Hdi Hwr. exists l'.
    assert (bio_inv s' l') as Hinv'.
    { eapply (bio_inv_upd s s' l l' b); try done; rewrite ?Hbu, ?E2, ?Hdi, ?Hd; try done.
      - simpl. split; [lia|done].
      - simpl. intros. apply Hcl; [lia|done]. }
    split; try done.
    - by rewrite Hbu.
    - intros i Hi. by rewrite Hbu, Ho.
    - by rewrite Hdi, Hwr.
    - intros dev no Hdev.
      assert (forall i, bdev (bufs s' i) = bdev (bufs s i) /\ blockno (bufs s' i) = blockno (bufs s i) /\
        valid (bufs s' i) = valid (bufs s i) /\ data (bufs s' i) = data (bufs s i)) as Hid.
      { intros i. rewrite Hbu. destruct (decide (i = b)) as [->|]; [by rewrite E2|by rewrite Ho]. }
      apply (content_eq s s' l l'); try done; [by rewrite Hdi| |].
      + intros i. unfold caches. by destruct (Hid i) as (-> & -> & _).
      + intros i _. by destruct (Hid i) as (_ & _ & -> & ->). }
  assert (lru_rep s2 l) as Hl2 by (destruct (bi_lru _ _ Hinv); split; [by rewrite Hnx, Hpv|done]).
  destruct (Z.eqb_spec (refcnt (bufs s b) - 1) 0) as [E|E].
  - assert (b ∈ l) as (l1 & l2 & ->)%list_elem_of_split by by apply (lru_rep_elem _ _ _ Hl2).
    eapply wp_mono; [by apply move_front_spec|]. intros [] s' (Hl' & ? & ? & ?).
    eapply Hfin; [exact Hl'| |done..]. right. split; [lia|eauto].
  - apply wp_ret. eapply Hfin; [exact Hl2| |done..]. left. split; [lia|done].
Qed.

(** ** Writing *)

Lemma bwrite_spec s l pid b :
  bio_inv s l -> (b < HEAD)%nat -> block_pid (bufs s b) = pid -> pid <> 0 -> bdev (bufs s b) <> 0 ->
  (forall i, (i < HEAD)%nat -> i <> b -> valid (bufs s i) = true -> blockno (bufs s i) <> blockno (bufs s b)) ->
  wp (bwrite pid b s) (fun _ s' => bio_inv s' l /\ bufs s' = bufs s /\
    disk s' = <[blockno (bufs s b) := data (bufs s b)]> (disk s) /\
    writes s' = writes s ++ [(blockno (bufs s b), data (bufs s b))]).
Proof.
  intros Hinv Hb Hp Hpid Hdev Huniq. unfold bwrite, holdingsleep_buf. apply wp_gets. rewrite Hp.
  replace (pid =? 0) with false by lia. rewrite Z.eqb_refl. cbn [negb andb].
  unfold virtio_disk_rw. apply wp_ret. split; [|done].
  destruct (bi_ref _ _ Hinv b Hb) as [_ Hr1]. specialize (Hr1 ltac:(lia)).
  eapply (bio_inv_upd s _ l l b); try done.
  - apply Hinv.
  - intros i Hi Hib Hr Hv. simpl. rewrite fn_lookup_insert_ne; [done|]. by apply not_eq_sym, Huniq.
  - simpl. lia.
  - simpl. lia.
Qed.

(** ** Initialisation *)

Lemma binit_loop_spec n b s l :
  linked (next s) (prev s) HEAD l HEAD -> (forall i, i ∈ l -> (i < b)%nat) -> NoDup l -> (b + n = HEAD)%nat ->
  wp (binit_loop n b s) (fun _ s' =>
    linked (next s') (prev s') HEAD (rev (seq b n) ++ l) HEAD /\
    (forall i, bufs s' i = if decide (b <= i < HEAD)%nat then with_pid 0 (bufs s i) else bufs s i) /\
    disk s' = disk s /\ writes s' = writes s).
Proof.
  revert b s l. induction n as [|n IH]; intros b s l Hl Hlt Hnd Hn.
  { apply wp_ret. split_and!; [done| |done|done]. intros i. rewrite decide_False by lia. done. }
  assert (b ∉ l) as Hb by (intros ?%Hlt; lia). assert (HEAD ∉ l) as Hh by (intros ?%Hlt; lia).
  cbn [binit_loop]. do 2 apply wp_modify. unfold upd_buf. do 3 apply wp_modify.
  set (s1 := set_next HEAD b _).
  assert (linked (next s1) (prev s1) HEAD (b :: l) HEAD) as Hl1.
  { apply (link_spec (next s) (prev s) HEAD l b HEAD); try (done || lia).
    rewrite <- Permutation_cons_append. by apply NoDup_cons. }
  eapply wp_mono; [apply (IH (S b) s1 (b :: l) Hl1)|].
  - intros i [->|Hi%Hlt]%elem_of_cons; lia.
  - by apply NoDup_cons.
  - lia.
  - intros [] s' (Hl' & Hbu & Hd & Hw). split_and!; [|..].
    + simpl. by rewrite <- app_assoc.
    + intros i. rewrite Hbu. unfold s1. simpl. destruct (decide (i = b)) as [->|].
      * rewrite fn_lookup_insert, decide_False, decide_True by lia. done.
      * rewrite fn_lookup_insert_ne by done. repeat case_decide; done || lia.
    + by rewrite Hd.
    + by rewrite Hw.
Qed.

(** The cache is static data: all zero before [binit]. *)
Definition bss_buf : buf := mk_buf false 0 0 0 0 [].

Lemma binit_spec s :
  (forall i, bufs s i = bss_buf) ->
  wp (binit s) (fun _ s' => bio_inv s' (rev (seq 0 HEAD)) /\ disk s' = disk s /\ writes s' = writes s /\
    forall i, bufs s' i = bss_buf).
Proof.
  intros Hz. unfold binit. do 2 apply wp_modify. set (s1 := set_next _ _ _).
  assert (linked (next s1) (prev s1) HEAD [] HEAD) as Hl1 by (unfold s1; simpl; by rewrite !fn_lookup_insert).
  eapply wp_mono; [apply (binit_loop_spec HEAD 0 s1 [] Hl1)|].
  - by intros i ?%not_elem_of_nil.
  - apply NoDup_nil_2.
  - done.
  - intros [] s' (Hl & Hbu & Hd & Hw). rewrite app_nil_r in Hl.
    assert (forall i, bufs s' i = bss_buf) as Hb.
    { intros i. rewrite Hbu. unfold s1. simpl. rewrite Hz. by case_decide. }
    split_and!; [|by rewrite Hd|by rewrite Hw|done]. split.
    + split; [done|]. symmetry. apply Permutation_rev.
    + intros i j _ _. by rewrite Hb.
    + intros i _. by rewrite Hb.
    + intros i _ _. by rewrite Hb.
Qed.

(** ** Properties *)

(** C29: [bread] returns a locked buffer with the block's current contents: the
    buffer that already caches the block or else the least recently used of
    the unused ones; no other buffer and no block's contents change. *)
Theorem bread_correct s l pid dev no :
  bio_inv s l -> dev <> 0 -> pid <> 0 -> available s dev no ->
  wp (bread pid dev no s) (fun b s' =>
    bio_inv s' l /\ (caches s dev no b \/ ((forall i, ~ caches s dev no i) /\ lru_victim s l b)) /\
    caches s' dev no b /\ valid (bufs s' b) = true /\ block_pid (bufs s' b) = pid /\
    data (bufs s' b) = content s dev no /\
    (forall i, i <> b -> bufs s' i = bufs s i) /\ disk s' = disk s /\
    (forall dev' no', dev' <> 0 -> content s' dev' no' = content s dev' no')).
Proof.
  intros Hinv Hdev Hpid Hav. eapply wp_mono; [by eapply bread_spec|].
  intros b s' (r & [Hch Hb Hinv' Hbuf (Ho & _ & _ & Hd & _) Hct]).
  unfold caches at 3. rewrite Hbuf. split_and!; try done. destruct Hch as [[? _]|(? & ? & _)]; auto.
Qed.

(** [brelse] gives the buffer back: the last user's release makes it the
    most recently used one, the relative order of the others stays, and no
    block's contents change. *)
Theorem brelse_correct s l pid b :
  bio_inv s l -> (b < HEAD)%nat -> block_pid (bufs s b) = pid -> pid <> 0 ->
  refcnt (bufs s b) < 2 ^ 32 ->
  (refcnt (bufs s b) = 1 -> valid (bufs s b) = true -> data (bufs s b) = disk s (blockno (bufs s b))) ->
  wp (brelse pid b s) (fun _ s' => exists l', bio_inv s' l' /\
    block_pid (bufs s' b) = 0 /\ refcnt (bufs s' b) = refcnt (bufs s b) - 1 /\
    (refcnt (bufs s b) = 1 -> exists l1 l2, l = l1 ++ b :: l2 /\ l' = b :: l1 ++ l2) /\
    (refcnt (bufs s b) <> 1 -> l' = l) /\
    (forall dev no, dev <> 0 -> content s' dev no = content s dev no)).
Proof.
  intros. eapply wp_mono; [by eapply brelse_spec|]. intros [] s' (l' & [Hl Hinv' Hbuf Ho Hd Hct]).
  exists l'. rewrite Hbuf. split_and!; try done; destruct Hl as [[? ->]|[? ?]]; done.
Qed.

(** A disk of zeros behind a fresh cache. *)
Definition demo_bio : bio :=
  mk_bio (fun _ => bss_buf) (fun _ => 0%nat) (fun _ => 0%nat) (fun _ => repeat 0 (Z.to_nat BSIZE)) [].

Lemma demo_bio_inv : exists s l, binit demo_bio = Ret tt s /\ bio_inv s l /\ forall i, bufs s i = bss_buf.
Proof.
  destruct (wp_inv _ _ (binit_spec demo_bio ltac:(done))) as ([] & s & E & Hinv & _ & _ & Hb). eauto.
Qed.

Lemma demo_available s dev no : (forall i, bufs s i = bss_buf) -> dev <> 0 -> available s dev no.
Proof.
  intros Hb Hdev. split; [intros i (_ & E & _); rewrite Hb in E; by simpl in E|].
  exists 0%nat. right. rewrite Hb. split; [apply Nat.ltb_lt; reflexivity|done].
Qed.

Lemma bread_correct_witness : exists s b s', bread 1 1 33 s = Ret b s' /\ valid (bufs s' b) = true.
Proof.
  destruct demo_bio_inv as (s & l & _ & Hinv & Hb).
  pose proof (demo_available s 1 33 Hb ltac:(done)) as Hav.
  destruct (wp_inv _ _ (bread_correct s l 1 1 33 Hinv ltac:(done) ltac:(done) Hav)) as (b & s' & E & _ & _ & _ & Hv & _).
  eauto.
Defined.

Lemma brelse_correct_witness : exists s b s', brelse 1 b s = Ret tt s' /\ block_pid (bufs s' b) = 0.
Proof.
  destruct demo_bio_inv as (s & l & _ & Hinv & Hb).
  pose proof (demo_available s 1 33 Hb ltac:(done)) as Hav.
  destruct (wp_inv _ _ (bread_spec s l 1 1 33 Hinv ltac:(done) ltac:(done) Hav)) as (b & s' & _ & r & Hpost).
  destruct Hpost as [Hch Hlt Hinv' Hbuf Ho Hct].
  assert (r = 0) as -> by (destruct Hch as [[_ Hr]|(_ & _ & Hr)]; rewrite Hr, ?Hb; done).
  destruct (wp_inv _ _ (brelse_correct s' l 1 b Hinv' Hlt ltac:(by rewrite Hbuf) ltac:(done)
    ltac:(by rewrite Hbuf) ltac:(rewrite Hbuf; simpl; intros _ _; destruct Ho as (_ & _ & _ & -> & _);
      apply content_uncached; intros i (_ & E & _); by rewrite Hb in E)))
    as ([] & s2 & E & l' & _ & Hp & _).
  eauto.
Defined.
