(* ===== verification/BioClient.v ===== *)
(** * Using the buffer cache

    A client of one device that opens a few buffers at a time and pins some
    blocks: [cache_ok s l pid dev P O] says that [P] are the pinned blocks and
    [O] the buffers the process has locked.  Under it each operation of
    kernel/bio.c is total, and [content] tells what it does to the blocks. *)

From S2P Require Import Prelude Riscv Bio.

Record cache_ok (s : bio) (l : list nat) (pid dev : Z) (P : gset Z) (O : gset nat) : Prop := {
  co_inv : bio_inv s l;
  co_dev : dev <> 0;
  co_pid : pid <> 0;
  co_lock i : (i < HEAD)%nat -> block_pid (bufs s i) = if decide (i ∈ O) then pid else 0;
  co_ref i : (i < HEAD)%nat -> refcnt (bufs s i) =
    (if decide (bdev (bufs s i) = dev /\ blockno (bufs s i) ∈ P) then 1 else 0) + (if decide (i ∈ O) then 1 else 0);
  co_open i : i ∈ O -> (i < HEAD)%nat /\ bdev (bufs s i) = dev /\ valid (bufs s i) = true;
  co_pin no : no ∈ P -> exists i, caches s dev no i /\ valid (bufs s i) = true;
  co_only i : (i < HEAD)%nat -> valid (bufs s i) = true -> bdev (bufs s i) = dev;
}.

(** A block is open. *)
Definition opened (s : bio) (O : gset nat) (no : Z) : Prop := exists i, i ∈ O /\ blockno (bufs s i) = no.

Section client.
Context {pid dev : Z}.
Implicit Types (P : gset Z) (O : gset nat).

Lemma co_range s l P O i : cache_ok s l pid dev P O -> (i < HEAD)%nat -> 0 <= refcnt (bufs s i) <= 2.
Proof. intros Hco Hi. rewrite (co_ref _ _ _ _ _ _ Hco i Hi). repeat case_decide; lia. Qed.

(** A block that is neither pinned nor open is on the disk. *)
Lemma content_clean s l P O no :
  cache_ok s l pid dev P O -> no ∉ P -> ~ opened s O no -> content s dev no = disk s no.
Proof.
  intros Hco HP HO. destruct (caches_em s dev no) as [[i Hi]|Hno]; [|by apply content_uncached].
  rewrite (content_cached s l dev no i) by (done || apply Hco). destruct (valid (bufs s i)) eqn:Ev; [|done].
  destruct Hi as (Hi & Hd & Hn).
  assert (i ∉ O) as HiO by (intros ?; apply HO; by exists i).
  rewrite (bi_clean _ _ (co_inv _ _ _ _ _ _ Hco) i Hi), Hn; [done| |done].
  rewrite (co_ref _ _ _ _ _ _ Hco i Hi), !decide_False; [done|done|]. rewrite Hn. tauto.
Qed.

(** Buffers in use are open or pinned, and pinned buffers hold different blocks. *)
Lemma co_room s l P O :
  cache_ok s l pid dev P O -> (size P + size O < HEAD)%nat ->
  exists i, (i < HEAD)%nat /\ refcnt (bufs s i) = 0.
Proof.
  intros Hco Hsz.
  destruct (decide (Exists (fun i => refcnt (bufs s i) = 0) (seq 0 HEAD))) as [(i & Hi & Hr)%Exists_exists|Hn].
  { exists i. apply elem_of_seq in Hi. split; [lia|done]. }
  exfalso. set (Y := filter (fun i => bdev (bufs s i) = dev /\ blockno (bufs s i) ∈ P) (seq 0 HEAD)).
  assert (length Y <= size P)%nat as HY.
  { assert (NoDup ((fun i => blockno (bufs s i)) <$> Y)) as Hnd.
    { apply NoDup_fmap_2_strong; [|apply NoDup_filter, NoDup_seq].
      intros i j (Hi & Hi')%list_elem_of_filter (Hj & Hj')%list_elem_of_filter E.
      apply elem_of_seq in Hi', Hj'. pose proof (co_dev _ _ _ _ _ _ Hco).
      apply (bi_uniq _ _ (co_inv _ _ _ _ _ _ Hco)); [lia|lia|by destruct Hi as [-> _]| |done].
      destruct Hi as [-> _], Hj as [-> _]. done. }
    rewrite <- (length_fmap (fun i => blockno (bufs s i))), <- (size_list_to_set (C := gset Z) _ Hnd).
    apply subseteq_size. intros x. rewrite elem_of_list_to_set, list_elem_of_fmap.
    intros (i & -> & [[_ Hi] _]%list_elem_of_filter). done. }
  assert (seq 0 HEAD ⊆+ Y ++ elements O) as Hsub.
  { apply NoDup_submseteq; [apply NoDup_seq|]. intros i Hi. rewrite elem_of_app, elem_of_elements.
    assert (i < HEAD)%nat as Hlt by (apply elem_of_seq in Hi; lia).
    assert (refcnt (bufs s i) <> 0) as Hr by (intros ?; apply Hn, Exists_exists; eauto).
    rewrite (co_ref _ _ _ _ _ _ Hco i Hlt) in Hr. unfold Y. rewrite list_elem_of_filter.
    destruct (decide (i ∈ O)); [by right|left]. case_decide; [done|lia]. }
  apply submseteq_length in Hsub. rewrite length_seq, length_app in Hsub.
  change (length (elements O)) with (size O) in Hsub. lia.
Qed.

Lemma co_avail s l P O no :
  cache_ok s l pid dev P O -> ~ opened s O no -> no ∈ P \/ (size P + size O < HEAD)%nat ->
  available s dev no.
Proof.
  intros Hco HO Hroom. split.
  - intros i (Hi & Hd & Hn). rewrite (co_lock _ _ _ _ _ _ Hco i Hi), decide_False.
    + pose proof (co_range _ _ _ _ i Hco Hi). split; [done|lia].
    + intros ?. apply HO. by exists i.
  - destruct Hroom as [HP|Hsz].
    + destruct (co_pin _ _ _ _ _ _ Hco no HP) as (i & Hi & _). exists i. by left.
    + destruct (co_room _ _ _ _ Hco Hsz) as (i & Hi). exists i. by right.
Qed.

(** ** The operations *)

Lemma bread_ok s l P O no :
  cache_ok s l pid dev P O -> ~ opened s O no -> no ∈ P \/ (size P + size O < HEAD)%nat ->
  wp (bread pid dev no s) (fun b s' =>
    (b ∉ O) /\ cache_ok s' l pid dev P ({[b]} ∪ O) /\ blockno (bufs s' b) = no /\
    data (bufs s' b) = content s dev no /\
    (forall i, i ∈ O -> bufs s' i = bufs s i) /\ disk s' = disk s /\ writes s' = writes s /\
    forall no', content s' dev no' = content s dev no').
Proof.
  intros Hco HO Hroom. pose proof (co_dev _ _ _ _ _ _ Hco) as Hdev. pose proof (co_pid _ _ _ _ _ _ Hco) as Hpid.
  pose proof (co_inv _ _ _ _ _ _ Hco) as Hinv.
  eapply wp_mono; [by eapply bread_spec, co_avail|].
  intros b s' (r & [Hch Hb Hinv' Hbuf (Ho & _ & _ & Hd & Hw) Hct]).
  assert (b ∉ O) as HbO.
  { intros HbO. destruct Hch as [[(_ & _ & Hn) _]|(_ & (l1 & l2 & _ & Hr & _) & _)].
    - apply HO. by exists b.
    - rewrite (co_ref _ _ _ _ _ _ Hco b Hb), (decide_True (P := b ∈ O)) in Hr by done. repeat case_decide; lia. }
  assert (r = if decide (no ∈ P) then 1 else 0) as Hr.
  { destruct Hch as [[(_ & Hdb & Hnb) ->]|(Hno & _ & ->)].
    - rewrite (co_ref _ _ _ _ _ _ Hco b Hb), Hdb, Hnb, (decide_False (P := b ∈ O)) by done.
      repeat case_decide; naive_solver lia.
    - rewrite decide_False; [done|]. intros HP. destruct (co_pin _ _ _ _ _ _ Hco no HP) as (i & Hi & _). by apply (Hno i). }
  split_and!; try done; rewrite ?Hbuf; try done.
  - split; try done.
    + intros i Hi. destruct (decide (i = b)) as [->|Hib].
      * rewrite Hbuf, decide_True by set_solver. done.
      * rewrite Ho, (co_lock _ _ _ _ _ _ Hco i Hi) by done. repeat case_decide; done || set_solver.
    + intros i Hi. destruct (decide (i = b)) as [->|Hib].
      * rewrite Hbuf, (decide_True (P := b ∈ _)) by set_solver. simpl. rewrite Hr. repeat case_decide; naive_solver lia.
      * rewrite Ho, (co_ref _ _ _ _ _ _ Hco i Hi) by done. f_equal. repeat case_decide; done || set_solver.
    + intros i Hi. destruct (decide (i = b)) as [->|Hib]; [by rewrite Hbuf|]. rewrite Ho by done.
      apply (co_open _ _ _ _ _ _ Hco). set_solver.
    + intros no' HP. destruct (co_pin _ _ _ _ _ _ Hco no' HP) as (i & Hi & Hv).
      destruct (decide (i = b)) as [->|Hib]; [|exists i; unfold caches; by rewrite Ho].
      destruct Hch as [[(_ & _ & E) _]|(_ & (l1 & l2 & _ & Hr0 & _) & _)].
      * destruct Hi as (_ & _ & <-). exists b. unfold caches. by rewrite Hbuf, E.
      * rewrite (co_ref _ _ _ _ _ _ Hco b Hb) in Hr0. destruct Hi as (_ & E1 & E2).
        rewrite E1, E2, (decide_True (P := dev = dev /\ no' ∈ P)) in Hr0 by done. repeat case_decide; lia.
    + intros i Hi Hv. destruct (decide (i = b)) as [->|Hib]; [by rewrite Hbuf|]. rewrite Ho in * by done.
      by apply (co_only _ _ _ _ _ _ Hco).
  - intros i Hi. apply Ho. by intros ->.
  - intros no'. by apply Hct.
Qed.

(** What two states share when only open buffer [b] changes, and keeps its
    identity and validity. *)
Definition same_ident (b : nat) (s s' : bio) : Prop :=
  (forall i, i <> b -> bufs s' i = bufs s i) /\
  bdev (bufs s' b) = bdev (bufs s b) /\ blockno (bufs s' b) = blockno (bufs s b) /\
  valid (bufs s' b) = valid (bufs s b).

Lemma same_ident_all b s s' : same_ident b s s' ->
  forall i, bdev (bufs s' i) = bdev (bufs s i) /\ blockno (bufs s' i) = blockno (bufs s i) /\
    valid (bufs s' i) = valid (bufs s i).
Proof. intros (Ho & ? & ? & ?) i. destruct (decide (i = b)) as [->|]; [done|by rewrite Ho]. Qed.

Lemma cache_ok_upd s s' l l' P P' O O' b :
  cache_ok s l pid dev P O -> bio_inv s' l' -> same_ident b s s' -> b ∈ O -> (b < HEAD)%nat ->
  block_pid (bufs s' b) = (if decide (b ∈ O') then pid else 0) ->
  refcnt (bufs s' b) = (if decide (blockno (bufs s b) ∈ P') then 1 else 0) + (if decide (b ∈ O') then 1 else 0) ->
  (forall i, i <> b -> i ∈ O' <-> i ∈ O) ->
  (forall no, no <> blockno (bufs s b) -> no ∈ P' <-> no ∈ P) ->
  cache_ok s' l' pid dev P' O'.
Proof.
  intros Hco Hinv' Hsi HbO Hb Hp Hr HO HP. pose proof (same_ident_all _ _ _ Hsi) as Hid.
  destruct (co_open _ _ _ _ _ _ Hco b HbO) as (_ & Hbd & Hbv). destruct Hsi as (Ho & _).
  assert (forall i, (i < HEAD)%nat -> i <> b -> bdev (bufs s i) = dev -> blockno (bufs s i) <> blockno (bufs s b)) as Hu.
  { intros i Hi Hib Hd E. apply Hib. pose proof (co_dev _ _ _ _ _ _ Hco).
    apply (bi_uniq _ _ (co_inv _ _ _ _ _ _ Hco)); congruence. }
  split; [done|apply Hco|apply Hco|..].
  - intros i Hi. destruct (decide (i = b)) as [->|Hib]; [done|].
    rewrite Ho, (co_lock _ _ _ _ _ _ Hco i Hi) by done. specialize (HO i Hib). repeat case_decide; tauto.
  - intros i Hi. destruct (decide (i = b)) as [->|Hib].
    + destruct (Hid b) as (-> & -> & _). rewrite Hr, Hbd. f_equal. repeat case_decide; tauto.
    + rewrite Ho, (co_ref _ _ _ _ _ _ Hco i Hi) by done. specialize (HO i Hib). f_equal.
      * destruct (decide (bdev (bufs s i) = dev)) as [Hd|Hd]; [|by rewrite !decide_False by tauto].
        specialize (HP _ (Hu i Hi Hib Hd)). repeat case_decide; tauto.
      * repeat case_decide; tauto.
  - intros i Hi. destruct (decide (i = b)) as [->|Hib].
    + destruct (Hid b) as (-> & _ & ->). done.
    + rewrite Ho by done. apply (co_open _ _ _ _ _ _ Hco). by apply HO.
  - intros no Hno. destruct (decide (no = blockno (bufs s b))) as [->|Hne].
    + exists b. unfold caches. destruct (Hid b) as (-> & -> & ->). done.
    + apply HP in Hno; [|done]. destruct (co_pin _ _ _ _ _ _ Hco no Hno) as (i & Hi & Hv).
      exists i. unfold caches. destruct (Hid i) as (-> & -> & ->). done.
  - intros i Hi. destruct (Hid i) as (-> & _ & ->). by apply (co_only _ _ _ _ _ _ Hco).
Qed.

Lemma content_upd s s' l l' b no :
  bio_inv s l -> bio_inv s' l' -> dev <> 0 -> same_ident b s s' -> disk s' = disk s ->
  no <> blockno (bufs s b) \/ data (bufs s' b) = data (bufs s b) ->
  content s' dev no = content s dev no.
Proof.
  intros Hinv Hinv' Hdev Hsi Hd Hno. pose proof (same_ident_all _ _ _ Hsi) as Hid. destruct Hsi as (Ho & _).
  apply (content_eq s s' l l'); try done.
  - intros i. unfold caches. by destruct (Hid i) as (-> & -> & _).
  - intros i (_ & _ & Hi). destruct (Hid i) as (_ & _ & ->). split; [done|].
    destruct (decide (i = b)) as [->|]; [by destruct Hno|by rewrite Ho].
Qed.

Lemma set_data_ok s l P O b d :
  cache_ok s l pid dev P O -> b ∈ O ->
  wp (upd_buf b (with_data d) s) (fun _ s' =>
    cache_ok s' l pid dev P O /\ bufs s' b = with_data d (bufs s b) /\
    (forall i, i <> b -> bufs s' i = bufs s i) /\ disk s' = disk s /\ writes s' = writes s /\
    content s' dev (blockno (bufs s b)) = d /\
    forall no, no <> blockno (bufs s b) -> content s' dev no = content s dev no).
Proof.
  intros Hco HbO. pose proof (co_inv _ _ _ _ _ _ Hco) as Hinv. pose proof (co_dev _ _ _ _ _ _ Hco) as Hdev.
  destruct (co_open _ _ _ _ _ _ Hco b HbO) as (Hb & Hbd & Hbv).
  eapply wp_mono; [apply upd_buf_spec|]. intros [] s' [Hob E].
  assert (same_ident b s s') as Hsi by (split_and!; [apply Hob|by rewrite E..]).
  pose proof (co_ref _ _ _ _ _ _ Hco b Hb) as Hrf. rewrite (decide_True (P := b ∈ O)), Hbd in Hrf by done.
  assert (bio_inv s' l) as Hinv'.
  { eapply bio_inv_buf; [done|exact Hob|done|by rewrite E; simpl; rewrite Hbd|..]; rewrite E; simpl.
    - intros i Hi (? & ? & ?). apply Hi. apply (bi_uniq _ _ Hinv); congruence.
    - rewrite Hrf. repeat case_decide; lia. }
  destruct Hob as (Ho & _ & _ & Hd & Hw).
  split_and!; try done.
  - eapply (cache_ok_upd s s' l l P P O O b); try done; rewrite E; simpl.
    + by apply (co_lock _ _ _ _ _ _ Hco).
    + rewrite Hrf, (decide_True (P := b ∈ O)) by done. f_equal. repeat case_decide; tauto.
  - rewrite (content_cached s' l dev _ b Hinv' Hdev) by (unfold caches; by rewrite E).
    rewrite E. simpl. by rewrite Hbv.
  - intros no Hno. eapply content_upd; try done. by left.
Qed.

Lemma bwrite_ok s l P O b :
  cache_ok s l pid dev P O -> b ∈ O ->
  wp (bwrite pid b s) (fun _ s' =>
    cache_ok s' l pid dev P O /\ bufs s' = bufs s /\
    disk s' = <[blockno (bufs s b) := data (bufs s b)]> (disk s) /\
    writes s' = writes s ++ [(blockno (bufs s b), data (bufs s b))] /\
    forall no, content s' dev no = content s dev no).
Proof.
  intros Hco HbO. pose proof (co_inv _ _ _ _ _ _ Hco) as Hinv. pose proof (co_dev _ _ _ _ _ _ Hco) as Hdev.
  destruct (co_open _ _ _ _ _ _ Hco b HbO) as (Hb & Hbd & Hbv).
  eapply wp_mono; [apply (bwrite_spec s l pid b Hinv Hb)|].
  - by rewrite (co_lock _ _ _ _ _ _ Hco b Hb), decide_True.
  - apply Hco.
  - by rewrite Hbd.
  - intros i Hi Hib Hv E. apply Hib. pose proof (co_only _ _ _ _ _ _ Hco i Hi Hv).
    apply (bi_uniq _ _ Hinv); congruence.
  - intros [] s' (Hinv' & Hbu & Hd & Hw). split_and!; try done.
    + destruct Hco. split; rewrite ?Hbu; try done. intros no Hno. unfold caches. rewrite Hbu. by apply co_pin0.
    + intros no. destruct (caches_em s dev no) as [[i Hi]|Hno].
      * rewrite (content_cached s l dev no i), (content_cached s' l dev no i) by (done || (unfold caches; by rewrite Hbu)).
        rewrite Hbu. destruct (valid (bufs s i)) eqn:Ev; [done|]. rewrite Hd, fn_lookup_insert_ne; [done|].
        intros E. destruct Hi as (Hi & Hdi & Hni). assert (i = b) as ->; [|congruence].
        apply (bi_uniq _ _ Hinv); congruence.
      * rewrite !content_uncached; [|done|unfold caches; by rewrite Hbu]. rewrite Hd, fn_lookup_insert_ne; [done|].
        intros <-. apply (Hno b). by split_and!.
Qed.

Lemma brelse_ok s l P O b :
  cache_ok s l pid dev P O -> b ∈ O ->
  blockno (bufs s b) ∈ P \/ data (bufs s b) = disk s (blockno (bufs s b)) ->
  wp (brelse pid b s) (fun _ s' => exists l',
    cache_ok s' l' pid dev P (O ∖ {[b]}) /\ (forall i, i <> b -> bufs s' i = bufs s i) /\
    blockno (bufs s' b) = blockno (bufs s b) /\
    disk s' = disk s /\ writes s' = writes s /\ forall no, content s' dev no = content s dev no).
Proof.
  intros Hco HbO Hcl. pose proof (co_inv _ _ _ _ _ _ Hco) as Hinv. pose proof (co_dev _ _ _ _ _ _ Hco) as Hdev.
  destruct (co_open _ _ _ _ _ _ Hco b HbO) as (Hb & Hbd & Hbv).
  pose proof (co_ref _ _ _ _ _ _ Hco b Hb) as Hrf. rewrite (decide_True (P := b ∈ O)), Hbd in Hrf by done.
  eapply wp_mono; [apply (brelse_spec s l pid b Hinv Hb)|].
  - by rewrite (co_lock _ _ _ _ _ _ Hco b Hb), decide_True.
  - apply Hco.
  - pose proof (co_range _ _ _ _ b Hco Hb). lia.
  - intros Hr _. destruct Hcl as [HP|]; [|done]. rewrite Hr, decide_True in Hrf by done. lia.
  - intros [] s' (l' & [_ Hinv' Hbuf Ho [Hd Hw] Hct]). exists l'.
    assert (same_ident b s s') as Hsi by (split_and!; [done|by rewrite Hbuf..]).
    split_and!; try done.
    + eapply (cache_ok_upd s s' l l' P P O (O ∖ {[b]}) b); try done; rewrite ?Hbuf; simpl.
      * rewrite decide_False; [done|set_solver].
      * rewrite Hrf, (decide_False (P := b ∈ O ∖ {[b]})) by set_solver. repeat case_decide; naive_solver lia.
      * set_solver.
    + by rewrite Hbuf.
    + intros no. by apply Hct.
Qed.

Lemma refcnt_ok s l P O b (n : Z) P' (f : buf -> buf) :
  cache_ok s l pid dev P O -> b ∈ O -> (forall x, refcnt x = refcnt (bufs s b) -> f x = with_refcnt n x) ->
  n = (if decide (blockno (bufs s b) ∈ P') then 1 else 0) + 1 ->
  (forall no, no <> blockno (bufs s b) -> no ∈ P' <-> no ∈ P) ->
  wp (upd_buf b f s) (fun _ s' =>
    cache_ok s' l pid dev P' O /\ (forall i, i <> b -> bufs s' i = bufs s i) /\
    blockno (bufs s' b) = blockno (bufs s b) /\ data (bufs s' b) = data (bufs s b) /\
    disk s' = disk s /\ writes s' = writes s /\ forall no, content s' dev no = content s dev no).
Proof.
  intros Hco HbO Hf Hn HP. pose proof (co_inv _ _ _ _ _ _ Hco) as Hinv. pose proof (co_dev _ _ _ _ _ _ Hco) as Hdev.
  destruct (co_open _ _ _ _ _ _ Hco b HbO) as (Hb & Hbd & Hbv).
  eapply wp_mono; [apply upd_buf_spec|]. intros [] s' [Hob E]. rewrite Hf in E by done.
  assert (same_ident b s s') as Hsi by (split_and!; [apply Hob|by rewrite E..]).
  assert (1 <= n) by (repeat case_decide; lia).
  assert (bio_inv s' l) as Hinv'.
  { eapply bio_inv_buf; [done|exact Hob|done|by rewrite E; simpl; rewrite Hbd|..]; rewrite E; simpl; [|done].
    intros i Hi (? & ? & ?). apply Hi. apply (bi_uniq _ _ Hinv); congruence. }
  destruct Hob as (Ho & _ & _ & Hd & Hw). split_and!; try done; rewrite ?E; try done.
  - eapply (cache_ok_upd s s' l l P P' O O b); try done; rewrite E; simpl.
    + by apply (co_lock _ _ _ _ _ _ Hco).
    + by rewrite (decide_True (P := b ∈ O)).
  - intros no. eapply content_upd; try done. right. by rewrite E.
Qed.

Lemma bpin_ok s l P O b :
  cache_ok s l pid dev P O -> b ∈ O -> blockno (bufs s b) ∉ P ->
  wp (bpin b s) (fun _ s' =>
    cache_ok s' l pid dev ({[blockno (bufs s b)]} ∪ P) O /\ (forall i, i <> b -> bufs s' i = bufs s i) /\
    blockno (bufs s' b) = blockno (bufs s b) /\ data (bufs s' b) = data (bufs s b) /\
    disk s' = disk s /\ writes s' = writes s /\ forall no, content s' dev no = content s dev no).
Proof.
  intros Hco HbO HP. destruct (co_open _ _ _ _ _ _ Hco b HbO) as (Hb & Hbd & Hbv).
  pose proof (co_ref _ _ _ _ _ _ Hco b Hb) as Hrf. rewrite (decide_True (P := b ∈ O)), decide_False in Hrf by tauto.
  apply (refcnt_ok s l P O b 2); [done|done| | |set_solver].
  - intros x Hx. by rewrite Hx, Hrf.
  - rewrite decide_True by set_solver. done.
Qed.

Lemma bunpin_ok s l P O b :
  cache_ok s l pid dev P O -> b ∈ O -> blockno (bufs s b) ∈ P ->
  wp (bunpin b s) (fun _ s' =>
    cache_ok s' l pid dev (P ∖ {[blockno (bufs s b)]}) O /\ (forall i, i <> b -> bufs s' i = bufs s i) /\
    blockno (bufs s' b) = blockno (bufs s b) /\ data (bufs s' b) = data (bufs s b) /\
    disk s' = disk s /\ writes s' = writes s /\ forall no, content s' dev no = content s dev no).
Proof.
  intros Hco HbO HP. destruct (co_open _ _ _ _ _ _ Hco b HbO) as (Hb & Hbd & Hbv).
  pose proof (co_ref _ _ _ _ _ _ Hco b Hb) as Hrf. rewrite !decide_True in Hrf by done.
  apply (refcnt_ok s l P O b 1); [done|done| | |set_solver].
  - intros x Hx. by rewrite Hx, Hrf.
  - rewrite decide_False by set_solver. done.
Qed.

(** A fresh cache. *)
Lemma cache_ok_init s l :
  bio_inv s l -> (forall i, bufs s i = bss_buf) -> dev <> 0 -> pid <> 0 -> cache_ok s l pid dev ∅ ∅.
Proof.
  intros Hinv Hb Hdev Hpid. split; try done; intros i; rewrite ?Hb; try set_solver.
  intros _. simpl. by rewrite decide_False by set_solver.
Qed.
End client.
