(* ===== verification/Log.v ===== *)
(** * The write-ahead log (kernel/log.c)

    The in-memory log header, group commit, and recovery, over the buffer
    cache.  [log.lock] makes each critical section one step; the calls that
    sleep ([begin_op]) are one attempt that says whether to wait. *)

From S2P Require Import Prelude Riscv Block Bio BioClient.

(** ** State *)

Record logst := mk_logst {
  lbio : bio;
  lstart : Z;
  lsize : Z;
  outstanding : Z;
  committing : bool;
  ldev : Z;
  lh_n : Z;
  lh_block : list Z }.  (** [LOGSIZE] entries *)

Definition set_bio (b : bio) (s : logst) : logst :=
  mk_logst b (lstart s) (lsize s) (outstanding s) (committing s) (ldev s) (lh_n s) (lh_block s).
Definition set_lh (n : Z) (bl : list Z) (s : logst) : logst :=
  mk_logst (lbio s) (lstart s) (lsize s) (outstanding s) (committing s) (ldev s) n bl.
Definition set_ops (o : Z) (c : bool) (s : logst) : logst :=
  mk_logst (lbio s) (lstart s) (lsize s) o c (ldev s) (lh_n s) (lh_block s).

Definition on_bio {A} (k : M bio A) : M logst A := zoom lbio set_bio k.

Section log.
Context (pid : Z).  (** the running process *)

(** ** Recovery and commit *)

(** [for (tail = 0; tail < log.lh.n; tail++)], [k] iterations left. *)
Fixpoint install_trans_loop (k : nat) (recovering : bool) (tail : nat) : M logst unit :=
  match k with
  | O => mret tt
  | S k =>
      s ← gets id;
      lbuf ← on_bio (bread pid (ldev s) (lstart s + tail + 1));
      dbuf ← on_bio (bread pid (ldev s) (lh_block s !!! tail));
      d ← gets (fun s => data (bufs (lbio s) lbuf));
      on_bio (upd_buf dbuf (with_data d));;
      on_bio (bwrite pid dbuf);;
      (if recovering then mret tt else on_bio (bunpin dbuf));;
      on_bio (brelse pid lbuf);;
      on_bio (brelse pid dbuf);;
      install_trans_loop k recovering (S tail)
  end.

Definition install_trans (recovering : bool) : M logst unit :=
  n ← gets lh_n;
  install_trans_loop (Z.to_nat n) recovering 0.

(** [for (i = 0; i < log.lh.n; i++) log.lh.block[i] = lh->block[i];] *)
Fixpoint read_blocks (k : nat) (d : list Z) (i : nat) (bl : list Z) : list Z :=
  match k with
  | O => bl
  | S k => read_blocks k d (S i) (<[i := rd32 d (4 + 4 * i)]> bl)
  end.

Definition read_head : M logst unit :=
  s ← gets id;
  b ← on_bio (bread pid (ldev s) (lstart s));
  d ← gets (fun s => data (bufs (lbio s) b));
  modify (fun s => set_lh (rd32 d 0) (read_blocks (Z.to_nat (rd32 d 0)) d 0 (lh_block s)) s);;
  on_bio (brelse pid b).

(** [for (i = 0; i < log.lh.n; i++) hb->block[i] = log.lh.block[i];] *)
Fixpoint write_blocks (k : nat) (bl : list Z) (i : nat) (d : list Z) : list Z :=
  match k with
  | O => d
  | S k => write_blocks k bl (S i) (wr32 d (4 + 4 * i) (bl !!! i))
  end.

Definition write_head : M logst unit :=
  s ← gets id;
  b ← on_bio (bread pid (ldev s) (lstart s));
  on_bio (upd_buf b (fun x => with_data (write_blocks (Z.to_nat (lh_n s)) (lh_block s) 0 (wr32 (data x) 0 (lh_n s))) x));;
  on_bio (bwrite pid b);;
  on_bio (brelse pid b).

Definition recover_from_log : M logst unit :=
  read_head;;
  install_trans true;;
  modify (fun s => set_lh 0 (lh_block s) s);;
  write_head.

(** [sizeof(struct logheader) >= BSIZE] is decided at compile time. *)
Definition initlog (dev logstart nlog : Z) : M logst unit :=
  if BSIZE <=? 4 + 4 * LOGSIZE then panic "initlog: too big logheader"
  else
    modify (fun s => mk_logst (lbio s) logstart nlog (outstanding s) (committing s) dev (lh_n s) (lh_block s));;
    recover_from_log.

Fixpoint write_log_loop (k : nat) (tail : nat) : M logst unit :=
  match k with
  | O => mret tt
  | S k =>
      s ← gets id;
      to ← on_bio (bread pid (ldev s) (lstart s + tail + 1));
      from ← on_bio (bread pid (ldev s) (lh_block s !!! tail));
      d ← gets (fun s => data (bufs (lbio s) from));
      on_bio (upd_buf to (with_data d));;
      on_bio (bwrite pid to);;
      on_bio (brelse pid from);;
      on_bio (brelse pid to);;
      write_log_loop k (S tail)
  end.

Definition write_log : M logst unit :=
  n ← gets lh_n;
  write_log_loop (Z.to_nat n) 0.

Definition commit : M logst unit :=
  n ← gets lh_n;
  if 0 <? n then
    write_log;;
    write_head;;
    install_trans false;;
    modify (fun s => set_lh 0 (lh_block s) s);;
    write_head
  else mret tt.

(** ** System-call interface *)

(** One pass of the [while(1)] loop: [false] when the caller must sleep on
    [log]. *)
Definition begin_op : M logst bool :=
  s ← gets id;
  if committing s then mret false
  else if LOGSIZE <? lh_n s + (outstanding s + 1) * MAXOPBLOCKS then mret false
  else modify (fun s => set_ops (outstanding s + 1) (committing s) s);; mret true.

(** [wakeup(&log)] is the caller's cue to run the sleepers again. *)
Definition end_op : M logst unit :=
  modify (fun s => set_ops (outstanding s - 1) (committing s) s);;
  s ← gets id;
  if committing s then panic "log.committing"
  else if outstanding s =? 0 then
    modify (fun s => set_ops (outstanding s) true s);;
    commit;;
    modify (fun s => set_ops (outstanding s) false s)
  else mret tt.

(** [for (i = 0; i < log.lh.n; i++) if (log.lh.block[i] == b->blockno) break;] *)
Fixpoint log_find (k : nat) (i : nat) (no : Z) (bl : list Z) : nat :=
  match k with
  | O => i
  | S k => if bl !!! i =? no then i else log_find k (S i) no bl
  end.

Definition log_write (b : nat) : M logst unit :=
  s ← gets id;
  if (LOGSIZE <=? lh_n s) || (lsize s - 1 <=? lh_n s) then panic "too big a transaction"
  else if outstanding s <? 1 then panic "log_write outside of trans"
  else
    let no := blockno (bufs (lbio s) b) in
    let i := log_find (Z.to_nat (lh_n s)) 0 no (lh_block s) in
    modify (fun s => set_lh (lh_n s) (<[i := no]> (lh_block s)) s);;
    if i =? lh_n s then
      on_bio (bpin b);;
      modify (fun s => set_lh (lh_n s + 1) (lh_block s) s)
    else mret tt.
End log.
