(* ===== verification/LogThms.v ===== *)
(** * The log: commit, crash and recovery

    A transaction's blocks sit pinned in the cache.  [commit] copies them to
    the log, writes the header, copies them home and clears the header, in
    that order; [recover_from_log] replays what the header says.  The crash
    theorem says that after a crash at any point of a commit, recovery gives
    the disk either all of the transaction or none of it. *)

From S2P Require Import Prelude Riscv Block Bio BioClient Log.

(** The header block [h] says that the blocks [bl] are in the log. *)
Record hdr_ok (h : list Z) (bl : list Z) : Prop := {
  ho_len : length h = Z.to_nat BSIZE;
  ho_n : rd32 h 0 = length bl;
  ho_blk (i : nat) b : bl !! i = Some b -> rd32 h (4 + 4 * i) = b;
}.

Lemma write_blocks_spec k bl (i : nat) d n :
  length d = Z.to_nat BSIZE -> (i + k = n)%nat -> (n <= Z.to_nat LOGSIZE)%nat -> (n <= length bl)%nat ->
  Forall (fun b => - 2 ^ 31 <= b < 2 ^ 31) bl ->
  length (write_blocks k bl i d) = Z.to_nat BSIZE /\
  rd32 (write_blocks k bl i d) 0 = rd32 d 0 /\
  (forall j, (j < i)%nat -> rd32 (write_blocks k bl i d) (4 + 4 * j) = rd32 d (4 + 4 * j)) /\
  (forall j, (i <= j < n)%nat -> rd32 (write_blocks k bl i d) (4 + 4 * j) = bl !!! j).
Proof.
  change (Z.to_nat BSIZE) with 1024%nat. change (Z.to_nat LOGSIZE) with 30%nat.
  revert i d. induction k as [|k IH]; intros i d Hl Hn Hn' Hbl Hr; cbn [write_blocks]; [split_and!; (done || lia)|].
  assert (length (wr32 d (4 + 4 * i) (bl !!! i)) = 1024%nat) as Hl' by (rewrite length_wr32; lia).
  destruct (lookup_lt_is_Some_2 bl i) as [b Hb]; [lia|].
  pose proof (Forall_lookup_1 _ _ _ _ Hr Hb) as Hbr. rewrite (list_lookup_total_correct _ _ _ Hb) in *.
  destruct (IH (S i) (wr32 d (4 + 4 * i) b)) as (H1 & H2 & H3 & H4); [done|lia|lia|lia|done|].
  split_and!.
  - done.
  - rewrite H2, rd32_wr32_ne by lia. done.
  - intros j Hj. rewrite H3, rd32_wr32_ne by lia. done.
  - intros j Hj. destruct (decide (j = i)) as [->|]; [|apply H4; lia].
    rewrite H3 by lia. rewrite rd32_wr32 by (lia || exact Hbr). by rewrite (list_lookup_total_correct _ _ _ Hb).
Qed.

Lemma read_blocks_spec k d (i : nat) bl :
  (i + k <= length bl)%nat ->
  length (read_blocks k d i bl) = length bl /\
  (forall j, (j < i \/ i + k <= j)%nat -> read_blocks k d i bl !! j = bl !! j) /\
  (forall j, (i <= j < i + k)%nat -> read_blocks k d i bl !! j = Some (rd32 d (4 + 4 * j))).
Proof.
  revert i bl. induction k as [|k IH]; intros i bl Hl; cbn [read_blocks]; [split_and!; (done || lia)|].
  destruct (IH (S i) (<[i := rd32 d (4 + 4 * i)]> bl)) as (H1 & H2 & H3); [rewrite length_insert; lia|].
  rewrite length_insert in H1. split_and!.
  - done.
  - intros j Hj. rewrite H2, list_lookup_insert_ne by lia. done.
  - intros j Hj. destruct (decide (j = i)) as [->|]; [|apply H3; lia].
    rewrite H2, list_lookup_insert_eq by lia. done.
Qed.

(** ** Copying one block *)

Lemma wp_on_bio {A B} (k : M bio A) (f : A -> M logst B) s Q :
  wp (k (lbio s)) (fun a b => wp (f a (set_bio b s)) Q) -> wp ((on_bio k ≫= f) s) Q.
Proof. intros Hw. unfold on_bio, zoom, mbind, M_bind. by destruct (k (lbio s)). Qed.

Ltac on_bio_step := apply wp_on_bio; cbn [lbio set_bio].

Lemma bind_ret_r_on_bio (k : M bio unit) s : (on_bio k;; mret tt) s = on_bio k s.
Proof. unfold on_bio, zoom, mbind, M_bind. by destruct (k (lbio s)) as [[] ?| |]. Qed.

Lemma opened_empty s no : ~ opened s ∅ no.
Proof. intros (i & Hi & _). set_solver. Qed.

Lemma opened_one s b no : blockno (bufs s b) <> no -> ~ opened s ({[b]} ∪ ∅) no.
Proof. intros Hne (i & Hi & E). assert (i = b) as -> by set_solver. done. Qed.

Section copy.
Context {pid dev : Z}.

(** The effect of a step on the disk, the write history and the contents. *)
Record wrote (s s' : bio) (no : Z) (d : list Z) : Prop := {
  wr_disk : disk s' = <[no := d]> (disk s);
  wr_writes : writes s' = writes s ++ [(no, d)];
  wr_content : content s' dev no = d;
  wr_other no' : no' <> no -> content s' dev no' = content s dev no';
}.

(** The body of [write_log]: the cached block [hb] to the log block [lb]. *)
Lemma log_copy_spec s l P lb hb (k : M logst unit) Q :
  cache_ok (lbio s) l pid dev P ∅ -> lb ∉ P -> hb ∈ P -> lb <> hb -> (size P < HEAD)%nat ->
  (forall b' l', cache_ok b' l' pid dev P ∅ -> wrote (lbio s) b' lb (content (lbio s) dev hb) ->
     wp (k (set_bio b' s)) Q) ->
  wp ((to ← on_bio (bread pid dev lb);
       from ← on_bio (bread pid dev hb);
       d ← gets (fun s => data (bufs (lbio s) from));
       on_bio (upd_buf to (with_data d));;
       on_bio (bwrite pid to);;
       on_bio (brelse pid from);;
       on_bio (brelse pid to);;
       k) s) Q.
Proof.
  intros Hco HlP HhP Hne Hsz Hk.
  on_bio_step. eapply wp_mono; [apply (bread_ok _ _ _ _ lb Hco (opened_empty _ _)); right; rewrite size_empty; lia|].
  intros to s1 (_ & Hco1 & Hn1 & Hd1 & _ & Hdk1 & Hw1 & Hc1).
  on_bio_step. eapply wp_mono; [apply (bread_ok _ _ _ _ hb Hco1); [apply opened_one; congruence|by left]|].
  intros from s2 (Hft & Hco2 & Hn2 & Hd2 & Ho2 & Hdk2 & Hw2 & Hc2).
  assert (to <> from) as Htf by set_solver. specialize (Ho2 to ltac:(set_solver)).
  apply wp_gets. cbn [lbio set_bio]. rewrite Hd2, Hc1.
  on_bio_step.
  eapply wp_mono; [apply (set_data_ok s2 l P _ to _ Hco2); set_solver|].
  intros [] s3 (Hco3 & Hb3 & Ho3 & Hdk3 & Hw3 & Hct3 & Hc3). rewrite Ho2, Hn1 in Hct3, Hc3.
  on_bio_step.
  eapply wp_mono; [apply (bwrite_ok s3 l P _ to Hco3); set_solver|].
  intros [] s4 (Hco4 & Hb4 & Hdk4 & Hw4 & Hc4). rewrite Hb3, Ho2 in Hdk4, Hw4. simpl in Hdk4, Hw4. rewrite Hn1 in Hdk4, Hw4.
  on_bio_step.
  assert (blockno (bufs s4 from) = hb) as Hfn by (by rewrite Hb4, Ho3).
  eapply wp_mono; [apply (brelse_ok s4 l P _ from Hco4); [set_solver|left; by rewrite Hfn]|].
  intros [] s5 (l5 & Hco5 & Ho5 & _ & Hdk5 & Hw5 & Hc5).
  on_bio_step.
  assert (bufs s5 to = with_data (content (lbio s) dev hb) (bufs s1 to)) as Hto by (by rewrite Ho5, Hb4, Hb3, Ho2).
  eapply wp_mono; [apply (brelse_ok s5 l5 P _ to Hco5); [set_solver|right]|].
  { rewrite Hto. simpl. rewrite Hn1, Hdk5, Hdk4. by rewrite fn_lookup_insert. }
  intros [] s6 (l6 & Hco6 & _ & _ & Hdk6 & Hw6 & Hc6).
  apply (Hk s6 l6).
  - replace ((({[from]} ∪ ({[to]} ∪ ∅)) ∖ {[from]}) ∖ {[to]}) with (∅ : gset nat) in Hco6 by set_solver. done.
  - split.
    + rewrite Hdk6, Hdk5, Hdk4, Hdk3, Hdk2, Hdk1. done.
    + rewrite Hw6, Hw5, Hw4, Hw3, Hw2, Hw1. done.
    + rewrite Hc6, Hc5, Hc4. done.
    + intros no Hno. rewrite Hc6, Hc5, Hc4, Hc3, Hc2, Hc1 by done. done.
Qed.

(** The body of [install_trans]: the log block [lb] to its home [hb]. *)
Lemma install_copy_spec s l P lb hb (recovering : bool) (k : M logst unit) Q :
  cache_ok (lbio s) l pid dev P ∅ -> lb ∉ P -> lb <> hb -> (size P < HEAD)%nat ->
  (recovering = true -> (size P + 1 < HEAD)%nat) ->
  (recovering = false -> hb ∈ P) -> (recovering = true -> hb ∉ P) ->
  (forall b' l', cache_ok b' l' pid dev (P ∖ {[hb]}) ∅ -> wrote (lbio s) b' hb (content (lbio s) dev lb) ->
     wp (k (set_bio b' s)) Q) ->
  wp ((lbuf ← on_bio (bread pid dev lb);
       dbuf ← on_bio (bread pid dev hb);
       d ← gets (fun s => data (bufs (lbio s) lbuf));
       on_bio (upd_buf dbuf (with_data d));;
       on_bio (bwrite pid dbuf);;
       (if recovering then mret tt else on_bio (bunpin dbuf));;
       on_bio (brelse pid lbuf);;
       on_bio (brelse pid dbuf);;
       k) s) Q.
Proof.
  intros Hco HlP Hne Hsz Hsz1 Hr0 Hr1 Hk.
  on_bio_step. eapply wp_mono; [apply (bread_ok _ _ _ _ lb Hco (opened_empty _ _)); right; rewrite size_empty; lia|].
  intros lb' s1 (_ & Hco1 & Hn1 & Hd1 & _ & Hdk1 & Hw1 & Hc1).
  on_bio_step. eapply wp_mono; [apply (bread_ok _ _ _ _ hb Hco1); [apply opened_one; congruence|]|].
  { destruct recovering; [right|left; auto]. rewrite union_empty_r_L, size_singleton. auto. }
  intros db s2 (Hft & Hco2 & Hn2 & Hd2 & Ho2 & Hdk2 & Hw2 & Hc2).
  assert (lb' <> db) as Htf by set_solver. specialize (Ho2 lb' ltac:(set_solver)).
  apply wp_gets. cbn [lbio set_bio]. rewrite Ho2, Hd1.
  on_bio_step.
  eapply wp_mono; [apply (set_data_ok s2 l P _ db _ Hco2); set_solver|].
  intros [] s3 (Hco3 & Hb3 & Ho3 & Hdk3 & Hw3 & Hct3 & Hc3). rewrite Hn2 in Hct3, Hc3.
  on_bio_step.
  eapply wp_mono; [apply (bwrite_ok s3 l P _ db Hco3); set_solver|].
  intros [] s4 (Hco4 & Hb4 & Hdk4 & Hw4 & Hc4). rewrite Hb3 in Hdk4, Hw4. simpl in Hdk4, Hw4. rewrite Hn2 in Hdk4, Hw4.
  assert (blockno (bufs s4 db) = hb /\ data (bufs s4 db) = content (lbio s) dev lb) as [Hn4 Hd4]
    by (rewrite Hb4, Hb3; simpl; done).
  set (st := set_bio s4 _).
  assert (wp ((if recovering then mret tt else on_bio (bunpin db)) st) (fun _ s' => exists s5, s' = set_bio s5 st /\
    cache_ok s5 l pid dev (P ∖ {[hb]}) ({[db]} ∪ ({[lb']} ∪ ∅)) /\ bufs s5 lb' = bufs s4 lb' /\
    blockno (bufs s5 db) = hb /\ data (bufs s5 db) = content (lbio s) dev lb /\
    disk s5 = disk s4 /\ writes s5 = writes s4 /\ forall no, content s5 dev no = content s4 dev no)) as Hu.
  { destruct recovering.
    - apply wp_ret. exists s4. rewrite difference_disjoint_L by set_solver. by split_and!.
    - rewrite <- (bind_ret_r_on_bio (bunpin db) st).
      on_bio_step. eapply wp_mono; [apply (bunpin_ok s4 l P _ db Hco4); [set_solver|rewrite Hn4; auto]|].
      intros [] s5 (Hco5 & Ho5 & Hn5 & Hd5 & ? & ? & ?). apply wp_ret. exists s5. rewrite Hn4 in *.
      split_and!; try done; [by apply Ho5|congruence]. }
  apply wp_bind. eapply wp_mono; [exact Hu|]. clear Hu.
  intros [] s' (s5 & -> & Hco5 & Hb5 & Hn5 & Hd5 & Hdk5 & Hw5 & Hc5). 
  on_bio_step.
  assert (bufs s5 lb' = bufs s1 lb') as Hl5 by (by rewrite Hb5, Hb4, Ho3, Ho2).
  eapply wp_mono; [apply (brelse_ok s5 l _ _ lb' Hco5); [set_solver|right]|].
  { rewrite Hl5, Hn1, Hd1, Hdk5, Hdk4, fn_lookup_insert_ne, Hdk3, Hdk2, Hdk1 by done.
    by apply (content_clean _ _ _ _ _ Hco), opened_empty. }
  intros [] s6 (l6 & Hco6 & Ho6 & _ & Hdk6 & Hw6 & Hc6).
  on_bio_step. specialize (Ho6 db ltac:(done)).
  eapply wp_mono; [apply (brelse_ok s6 l6 _ _ db Hco6); [set_solver|right]|].
  { rewrite Ho6, Hn5, Hd5, Hdk6, Hdk5, Hdk4. by rewrite fn_lookup_insert. }
  intros [] s7 (l7 & Hco7 & _ & _ & Hdk7 & Hw7 & Hc7).
  apply (Hk s7 l7).
  - replace ((({[db]} ∪ ({[lb']} ∪ ∅)) ∖ {[lb']}) ∖ {[db]}) with (∅ : gset nat) in Hco7 by set_solver. done.
  - split.
    + rewrite Hdk7, Hdk6, Hdk5, Hdk4, Hdk3, Hdk2, Hdk1. done.
    + rewrite Hw7, Hw6, Hw5, Hw4, Hw3, Hw2, Hw1. done.
    + rewrite Hc7, Hc6, Hc5, Hc4. done.
    + intros no Hno. rewrite Hc7, Hc6, Hc5, Hc4, Hc3, Hc2, Hc1 by done. done.
Qed.
End copy.

(** ** Sequences of writes *)

Definition apply_writes (d : Z -> list Z) (ws : list (Z * list Z)) : Z -> list Z :=
  foldl (fun d w => <[w.1 := w.2]> d) d ws.

(** [s'] is [s] after the device writes [ws]. *)
Definition ran (b b' : bio) (ws : list (Z * list Z)) : Prop :=
  disk b' = apply_writes (disk b) ws /\ writes b' = writes b ++ ws.

Lemma ran_nil b : ran b b [].
Proof. split; [done|by rewrite app_nil_r]. Qed.

Lemma ran_app b1 b2 b3 w1 w2 : ran b1 b2 w1 -> ran b2 b3 w2 -> ran b1 b3 (w1 ++ w2).
Proof.
  intros [D1 W1] [D2 W2]. split.
  - rewrite D2, D1. unfold apply_writes. by rewrite foldl_app.
  - by rewrite W2, W1, app_assoc.
Qed.

Lemma apply_writes_app d w1 w2 : apply_writes d (w1 ++ w2) = apply_writes (apply_writes d w1) w2.
Proof. unfold apply_writes. by rewrite foldl_app. Qed.

Lemma apply_writes_cons d w ws : apply_writes d (w :: ws) = apply_writes (<[w.1:=w.2]> d) ws.
Proof. done. Qed.

Lemma apply_writes_other d ws no : (forall w, w ∈ ws -> w.1 <> no) -> apply_writes d ws no = d no.
Proof.
  revert d. induction ws as [|w ws IH]; intros d Hw; [done|]. cbn [apply_writes foldl].
  fold (apply_writes (<[w.1:=w.2]> d) ws). rewrite IH by set_solver.
  rewrite fn_lookup_insert_ne; [done|]. apply Hw. set_solver.
Qed.

Lemma apply_writes_nodup d ws no v :
  NoDup ws.*1 -> (no, v) ∈ ws -> apply_writes d ws no = v.
Proof.
  revert d. induction ws as [|w ws IH]; intros d; [set_solver|]. rewrite fmap_cons, NoDup_cons.
  intros [Ha Hnd] Hin. change (apply_writes d (w :: ws)) with (apply_writes (<[w.1:=w.2]> d) ws).
  apply elem_of_cons in Hin as [<-|Hin]; [|by apply IH].
  rewrite apply_writes_other; [apply fn_lookup_insert|]. intros w' Hw' E. apply Ha.
  apply list_elem_of_fmap. by exists w'.
Qed.

(** ** The loops *)

Section commit.
Context {pid dev start : Z} {bl : list Z} (Hnd : NoDup bl)
  (Hhome : forall b, b ∈ bl -> b < start \/ start + length bl < b)
  (Hlen : (length bl < HEAD)%nat).

(** The in-memory header describes [bl]. *)
Definition header (s : logst) : Prop :=
  ldev s = dev /\ lstart s = start /\ length (lh_block s) = Z.to_nat LOGSIZE /\ take (length bl) (lh_block s) = bl.

Lemma header_lookup s i b : header s -> bl !! i = Some b -> lh_block s !!! i = b.
Proof.
  intros (_ & _ & _ & Ht) Hi. rewrite <- Ht, lookup_take_Some in Hi. by apply list_lookup_total_correct, Hi.
Qed.

(** The writes of [write_log] and of [install_trans] from index [i]. *)
Definition log_ws (c : Z -> list Z) (i k : nat) : list (Z * list Z) :=
  (fun j : nat => (start + j + 1, c (bl !!! j))) <$> seq i k.
Definition home_ws (vals : nat -> list Z) (i k : nat) : list (Z * list Z) :=
  (fun j : nat => (bl !!! j, vals j)) <$> seq i k.

Lemma log_block_home (tail : nat) b : (tail < length bl)%nat -> b ∈ bl -> start + tail + 1 <> b.
Proof. intros Ht Hb. specialize (Hhome b Hb). lia. Qed.

Lemma size_bl : size (list_to_set bl : gset Z) = length bl.
Proof. by apply size_list_to_set. Qed.

Lemma write_log_loop_spec k tail s l (c : Z -> list Z) :
  (tail + k = length bl)%nat -> header s -> cache_ok (lbio s) l pid dev (list_to_set bl) ∅ ->
  (forall b, b ∈ bl -> content (lbio s) dev b = c b) ->
  wp (write_log_loop pid k tail s) (fun _ s' => exists b' l', s' = set_bio b' s /\
    cache_ok b' l' pid dev (list_to_set bl) ∅ /\ ran (lbio s) b' (log_ws c tail k) /\
    (forall b, b ∈ bl -> content b' dev b = c b)).
Proof.
  revert tail s l. induction k as [|k IH]; intros tail s l Hk Hh Hco Hc.
  { apply wp_ret. exists (lbio s), l. split_and!; [by destruct s|done|apply ran_nil|done]. }
  cbn [write_log_loop]. apply wp_gets. cbn [id].
  destruct (lookup_lt_is_Some_2 bl tail) as [hb Hhb]; [lia|].
  pose proof (list_elem_of_lookup_2 _ _ _ Hhb) as Hin.
  pose proof Hh as (Hd & Hs & Hh3 & Hh4).
  change (ldev (id s)) with (ldev s). change (lstart (id s)) with (lstart s). change (lh_block (id s)) with (lh_block s).
  rewrite Hd, Hs, (header_lookup _ _ _ Hh Hhb).
  apply (log_copy_spec s l (list_to_set bl)); [done| | | | |].
  - rewrite elem_of_list_to_set. intros Hb. by apply (log_block_home tail _ ltac:(lia) Hb).
  - by apply elem_of_list_to_set.
  - by apply log_block_home; [lia|].
  - rewrite size_bl. lia.
  - intros b' l' Hco' [Hdk Hw Hct Hoth].
    eapply wp_mono; [apply (IH (S tail) (set_bio b' s) l'); [lia|by split_and!|done|]|].
    + intros b Hb. simpl. rewrite Hoth; [by apply Hc|]. by apply not_eq_sym, log_block_home; [lia|].
    + intros [] s' (b2 & l2 & -> & Hco2 & Hr2 & Hc2). exists b2, l2. split_and!; try done.
      rewrite (Hc hb Hin) in Hdk, Hw.
      change (log_ws c tail (S k)) with ((start + tail + 1, c (bl !!! tail)) :: log_ws c (S tail) k).
      rewrite (list_lookup_total_correct _ _ _ Hhb).
      apply (ran_app (lbio s) b' b2 [_]); [|done]. split; [done|done].
Qed.

Lemma install_loop_spec k tail s l (recovering : bool) (vals : nat -> list Z) :
  (tail + k = length bl)%nat -> header s -> (recovering = true -> (1 < HEAD)%nat) ->
  cache_ok (lbio s) l pid dev (if recovering then ∅ else list_to_set (drop tail bl)) ∅ ->
  (forall j : nat, (j < length bl)%nat -> disk (lbio s) (start + j + 1) = vals j) ->
  wp (install_trans_loop pid k recovering tail s) (fun _ s' => exists b' l', s' = set_bio b' s /\
    cache_ok b' l' pid dev ∅ ∅ /\ ran (lbio s) b' (home_ws vals tail k)).
Proof.
  revert tail s l. induction k as [|k IH]; intros tail s l Hk Hh HH Hco Hv.
  { apply wp_ret. exists (lbio s), l. split_and!; [by destruct s| |apply ran_nil].
    rewrite drop_ge in Hco by lia. by destruct recovering. }
  cbn [install_trans_loop]. apply wp_gets. cbn [id].
  destruct (lookup_lt_is_Some_2 bl tail) as [hb Hhb]; [lia|].
  pose proof (list_elem_of_lookup_2 _ _ _ Hhb) as Hin.
  pose proof Hh as (Hd & Hs & Hh3 & Hh4).
  change (ldev (id s)) with (ldev s). change (lstart (id s)) with (lstart s). change (lh_block (id s)) with (lh_block s).
  rewrite Hd, Hs, (header_lookup _ _ _ Hh Hhb).
  assert (forall b, b ∈ drop tail bl -> b ∈ bl) as Hsub by (intros b Hb; rewrite <- (take_drop tail bl); set_solver).
  pose proof (drop_S bl hb tail Hhb) as Hdrop.
  set (P := if recovering then ∅ else list_to_set (drop tail bl) : gset Z) in *.
  assert (start + tail + 1 ∉ P) as HlP.
  { unfold P. destruct recovering; [set_solver|]. rewrite elem_of_list_to_set. intros Hb%Hsub.
    by apply (log_block_home tail _ ltac:(lia) Hb). }
  apply (install_copy_spec s l P); [done|done|by apply log_block_home; [lia|]|..].
  - unfold P. destruct recovering; [rewrite size_empty; lia|].
    rewrite size_list_to_set by (rewrite <- (take_drop tail bl) in Hnd; by apply NoDup_app in Hnd as (_ & _ & ?)).
    rewrite length_drop. lia.
  - intros ->. unfold P. rewrite size_empty. auto.
  - intros ->. unfold P. rewrite Hdrop. set_solver.
  - intros ->. unfold P. set_solver.
  - intros b' l' Hco' [Hdk Hw Hct Hoth].
    rewrite (content_clean _ _ _ _ _ Hco HlP (opened_empty _ _)), Hv in Hdk, Hw by lia.
    eapply wp_mono; [apply (IH (S tail) (set_bio b' s) l'); [lia|by split_and!|done| |]|].
    + simpl. replace (if recovering then ∅ else list_to_set (drop (S tail) bl)) with (P ∖ {[hb]}); [done|].
      unfold P. destruct recovering; [set_solver|]. rewrite Hdrop, list_to_set_cons.
      assert (hb ∉ drop (S tail) bl); [|set_solver].
      rewrite <- (take_drop tail bl), Hdrop in Hnd. apply NoDup_app in Hnd as (_ & _ & [? _]%NoDup_cons). done.
    + intros j Hj. simpl. rewrite Hdk, fn_lookup_insert_ne; [by apply Hv|]. by apply not_eq_sym, log_block_home.
    + intros [] s' (b2 & l2 & -> & Hco2 & Hr2). exists b2, l2. split_and!; try done.
      change (home_ws vals tail (S k)) with ((bl !!! tail, vals tail) :: home_ws vals (S tail) k).
      rewrite (list_lookup_total_correct _ _ _ Hhb).
      apply (ran_app (lbio s) b' b2 [_]); [|done]. split; [done|done].
Qed.

End commit.

Section head.
Context {pid dev start : Z}.

Lemma write_head_spec s l P bl' :
  ldev s = dev -> lstart s = start -> cache_ok (lbio s) l pid dev P ∅ -> start ∉ P -> (size P < HEAD)%nat ->
  length (content (lbio s) dev start) = Z.to_nat BSIZE ->
  lh_n s = length bl' -> take (length bl') (lh_block s) = bl' -> (length bl' <= Z.to_nat LOGSIZE)%nat ->
  length (lh_block s) = Z.to_nat LOGSIZE -> Forall (fun b => - 2 ^ 31 <= b < 2 ^ 31) (lh_block s) ->
  wp (write_head pid s) (fun _ s' => exists b' l' h, s' = set_bio b' s /\ hdr_ok h bl' /\
    cache_ok b' l' pid dev P ∅ /\ ran (lbio s) b' [(start, h)] /\
    content b' dev start = h /\ (forall no, no <> start -> content b' dev no = content (lbio s) dev no)).
Proof.
  intros Hd Hs Hco HsP Hsz Hl Hn Ht Hl' Hlb Hr. unfold write_head. apply wp_gets. cbn [id].
  change (ldev (id s)) with (ldev s). change (lstart (id s)) with (lstart s).
  change (lh_block (id s)) with (lh_block s). change (lh_n (id s)) with (lh_n s). rewrite Hd, Hs.
  on_bio_step. eapply wp_mono; [apply (bread_ok _ _ _ _ start Hco (opened_empty _ _)); right; rewrite size_empty; lia|].
  intros b s1 (_ & Hco1 & Hn1 & Hd1 & _ & Hdk1 & Hw1 & Hc1).
  set (h := write_blocks (Z.to_nat (lh_n s)) (lh_block s) 0 (wr32 (data (bufs s1 b)) 0 (lh_n s))).
  assert (hdr_ok h bl') as Hh.
  { unfold h. rewrite Hd1, Hn, Nat2Z.id. change (Z.to_nat LOGSIZE) with 30%nat in *.
    assert (length (wr32 (content (lbio s) dev start) 0 (length bl')) = Z.to_nat BSIZE) as Hl0
      by (rewrite length_wr32; rewrite Hl; [done|change (Z.to_nat BSIZE) with 1024%nat; lia]).
    destruct (write_blocks_spec (length bl') (lh_block s) 0 _ (length bl') Hl0) as (H1 & H2 & _ & H4); [done|done|lia|done|].
    split; [done| |].
    - rewrite H2, rd32_wr32; [done|rewrite Hl; change (Z.to_nat BSIZE) with 1024%nat; lia|].
      change (2 ^ 31) with 2147483648. lia.
    - intros i x Hx. rewrite H4 by (apply lookup_lt_Some in Hx; lia).
      rewrite <- Ht, lookup_take_Some in Hx. by apply list_lookup_total_correct, Hx. }
  on_bio_step. change (upd_buf b _ s1) with (upd_buf b (with_data h) s1). clearbody h.
  eapply wp_mono; [apply (set_data_ok s1 l P _ b h Hco1); set_solver|].
  intros [] s2 (Hco2 & Hb2 & _ & Hdk2 & Hw2 & Hct2 & Hc2). rewrite Hn1 in Hct2, Hc2.
  on_bio_step. eapply wp_mono; [apply (bwrite_ok s2 l P _ b Hco2); set_solver|].
  intros [] s3 (Hco3 & Hb3 & Hdk3 & Hw3 & Hc3). rewrite Hb2 in Hdk3, Hw3. simpl in Hdk3, Hw3. rewrite Hn1 in Hdk3, Hw3.
  rewrite <- bind_ret_r_on_bio. on_bio_step.
  eapply wp_mono; [apply (brelse_ok s3 l P _ b Hco3); [set_solver|right]|].
  { rewrite Hb3, Hb2. simpl. rewrite Hn1, Hdk3. by rewrite fn_lookup_insert. }
  intros [] s4 (l4 & Hco4 & _ & _ & Hdk4 & Hw4 & Hc4). apply wp_ret. exists s4, l4, h. split_and!; try done.
  - by replace (({[b]} ∪ ∅) ∖ {[b]}) with (∅ : gset nat) in Hco4 by set_solver.
  - split; [by rewrite Hdk4, Hdk3, Hdk2, Hdk1|by rewrite Hw4, Hw3, Hw2, Hw1].
  - by rewrite Hc4, Hc3.
  - intros no Hno. by rewrite Hc4, Hc3, Hc2, Hc1.
Qed.
End head.

(** ** Commit *)

(** Between system calls: [bl] are the blocks of the current transaction, the
    header on disk is empty. *)
Record log_ready (s : logst) (l : list nat) (pid : Z) (bl : list Z) : Prop := {
  lr_cache : cache_ok (lbio s) l pid (ldev s) (list_to_set bl) ∅;
  lr_nodup : NoDup bl;
  lr_home b : b ∈ bl -> b < lstart s \/ lstart s + lsize s <= b;
  lr_size : length bl < lsize s <= LOGSIZE;
  lr_n : lh_n s = length bl;
  lr_len : length (lh_block s) = Z.to_nat LOGSIZE;
  lr_bl : take (length bl) (lh_block s) = bl;
  lr_int : Forall (fun b => - 2 ^ 31 <= b < 2 ^ 31) (lh_block s);
  lr_clear : hdr_ok (disk (lbio s) (lstart s)) [];
}.

Definition commit_ws (s : logst) (bl : list Z) (ws : list (Z * list Z)) : Prop :=
  let c := content (lbio s) (ldev s) in
  (bl = [] /\ ws = []) \/
  (bl <> [] /\ exists h1 h0, hdr_ok h1 bl /\ hdr_ok h0 [] /\
    ws = log_ws (start := lstart s) (bl := bl) c 0 (length bl) ++
         (lstart s, h1) :: home_ws (bl := bl) (fun j => c (bl !!! j)) 0 (length bl) ++ [(lstart s, h0)]).

Lemma log_ws_at start bl (c : Z -> list Z) d (j n : nat) :
  (j < n)%nat ->
  apply_writes d (log_ws (start := start) (bl := bl) c 0 n) (start + j + 1) = c (bl !!! j).
Proof.
  intros Hj. apply apply_writes_nodup.
  - unfold log_ws. rewrite <- list_fmap_compose. apply NoDup_fmap_2; [|apply NoDup_seq].
    intros x y. simpl. lia.
  - unfold log_ws. apply list_elem_of_fmap. exists j. split; [done|]. apply elem_of_seq. lia.
Qed.

Lemma log_ws_other start bl c d (n : nat) no :
  no < start + 1 \/ start + n < no -> apply_writes d (log_ws (start := start) (bl := bl) c 0 n) no = d no.
Proof.
  intros Hno. apply apply_writes_other. unfold log_ws. intros w (j & -> & Hj%elem_of_seq)%list_elem_of_fmap. simpl. lia.
Qed.

Lemma home_ws_at bl vals d (j : nat) b :
  NoDup bl -> bl !! j = Some b -> apply_writes d (home_ws (bl := bl) vals 0 (length bl)) b = vals j.
Proof.
  intros Hnd Hj. apply apply_writes_nodup.
  - unfold home_ws. rewrite <- list_fmap_compose. apply NoDup_fmap_2_strong; [|apply NoDup_seq].
    intros x y Hx%elem_of_seq Hy%elem_of_seq. simpl. intros E.
    destruct (lookup_lt_is_Some_2 bl x) as [bx Hbx]; [lia|]. destruct (lookup_lt_is_Some_2 bl y) as [by' Hby]; [lia|].
    rewrite (list_lookup_total_correct _ _ _ Hbx), (list_lookup_total_correct _ _ _ Hby) in E. subst.
    by eapply NoDup_lookup.
  - unfold home_ws. apply list_elem_of_fmap. exists j. rewrite (list_lookup_total_correct _ _ _ Hj).
    split; [done|]. apply elem_of_seq. apply lookup_lt_Some in Hj. lia.
Qed.

Lemma home_ws_in bl vals (i k : nat) w :
  (i + k <= length bl)%nat -> w ∈ home_ws (bl := bl) vals i k -> w.1 ∈ bl.
Proof.
  intros Hk (j & -> & Hj%elem_of_seq)%list_elem_of_fmap. simpl.
  destruct (lookup_lt_is_Some_2 bl j) as [b Hb]; [lia|]. rewrite (list_lookup_total_correct _ _ _ Hb).
  by eapply list_elem_of_lookup_2.
Qed.

Lemma home_ws_other bl vals d (i k : nat) no :
  (i + k <= length bl)%nat -> no ∉ bl -> apply_writes d (home_ws (bl := bl) vals i k) no = d no.
Proof. intros Hk Hno. apply apply_writes_other. intros w Hw <-. by apply home_ws_in in Hw. Qed.

Lemma lr_start s l pid bl : log_ready s l pid bl -> lstart s ∉ bl.
Proof. intros Hlr Hin. pose proof (lr_home _ _ _ _ Hlr _ Hin). pose proof (lr_size _ _ _ _ Hlr). lia. Qed.

Lemma commit_spec s l pid bl :
  log_ready s l pid bl ->
  wp (commit pid s) (fun _ s' => exists b' l' ws,
    s' = set_lh 0 (lh_block s) (set_bio b' s) /\ log_ready s' l' pid [] /\
    ran (lbio s) b' ws /\ commit_ws s bl ws).
Proof.
  intros Hlr. pose proof Hlr as [Hco Hnd Hhome Hsz Hn Hlen Hbl Hint Hcl]. pose proof (lr_start _ _ _ _ Hlr) as Hst.
  unfold commit. apply wp_gets. rewrite Hn. destruct (Z.ltb_spec 0 (length bl)) as [Hpos|].
  2:{ destruct bl; [|simpl in *; lia]. apply wp_ret. exists (lbio s), l, [].
      replace (set_lh 0 (lh_block s) (set_bio (lbio s) s)) with s by (destruct s; simpl in *; by subst).
      split_and!; [done|done|apply ran_nil|by left]. }
  change LOGSIZE with 30 in *. change (Z.to_nat 30) with 30%nat in *.
  set (c := content (lbio s) (ldev s)).
  assert (forall b, b ∈ bl -> b < lstart s \/ lstart s + length bl < b) as Hhome'
    by (intros b Hb; specialize (Hhome b Hb); lia).
  assert (length bl < HEAD)%nat as HlH by (change HEAD with 30%nat; lia).
  assert (header (dev := ldev s) (start := lstart s) (bl := bl) s) as Hh by by split_and!.
  (** the blocks to the log *)
  unfold write_log. apply wp_bind, wp_gets. rewrite Hn, Nat2Z.id.
  eapply wp_mono; [apply (write_log_loop_spec (pid := pid) (dev := ldev s) (start := lstart s) Hnd Hhome' HlH (length bl) 0 s l c); done|].
  intros [] s1 (b1 & l1 & -> & Hco1 & Hr1 & Hc1).
  (** the header *)
  assert (disk b1 (lstart s) = disk (lbio s) (lstart s)) as Ed1
    by (destruct Hr1 as [-> _]; apply log_ws_other; lia).
  wp_step (write_head_spec (pid := pid) (dev := ldev s) (start := lstart s) (set_bio b1 s) l1 (list_to_set bl) bl); try done.
  { by rewrite elem_of_list_to_set. }
  { rewrite size_list_to_set; done. }
  { simpl. rewrite (content_clean _ _ _ _ _ Hco1), Ed1; [apply Hcl|by rewrite elem_of_list_to_set|apply opened_empty]. }
  { change (Z.to_nat LOGSIZE) with 30%nat. lia. }
  intros [] s2 (b2 & l2 & h1 & -> & Hh1 & Hco2 & Hr2 & _). cbn [lbio set_bio] in Hr2.
  (** the blocks home *)
  unfold install_trans. apply wp_bind, wp_gets. simpl lh_n. rewrite Hn, Nat2Z.id.
  eapply wp_mono; [apply (install_loop_spec (pid := pid) (dev := ldev s) (start := lstart s) Hnd Hhome' HlH (length bl) 0 _ l2 false (fun j => c (bl !!! j))); try done|].
  { intros j Hj. simpl. destruct Hr2 as [-> _], Hr1 as [E1 _]. simpl. rewrite fn_lookup_insert_ne, E1 by lia. by apply log_ws_at. }
  intros [] s3 (b3 & l3 & -> & Hco3 & Hr3). cbn [lbio set_bio] in Hr3.
  (** clear the header *)
  apply wp_modify.
  assert (disk b3 (lstart s) = h1) as Ed3.
  { destruct Hr3 as [-> _]. rewrite home_ws_other by (done || lia). destruct Hr2 as [-> _]. simpl. by rewrite fn_lookup_insert. }
  eapply wp_mono; [apply (write_head_spec (pid := pid) (dev := ldev s) (start := lstart s) _ l3 ∅ []); try done|].
  { rewrite size_empty. lia. }
  { simpl. rewrite (content_clean _ _ _ _ _ Hco3), Ed3; [apply Hh1|set_solver|apply opened_empty]. }
  { simpl. lia. }
  intros [] s4 (b4 & l4 & h0 & -> & Hh0 & Hco4 & Hr4 & _). cbn [lbio set_bio set_lh] in Hr4.
  exists b4, l4. eexists. split; [done|]. split; [|split].
  - split; simpl; try done; [apply NoDup_nil_2|by intros b ?%not_elem_of_nil|change LOGSIZE with 30; lia|]. destruct Hr4 as [-> _]. simpl. by rewrite fn_lookup_insert.
  - eapply ran_app; [exact Hr1|]. eapply (ran_app b1 b2 b4 [_]); [exact Hr2|].
    eapply ran_app; [exact Hr3|exact Hr4].
  - right. split; [by destruct bl|]. exists h1, h0. done.
Qed.

(** ** Recovery *)

(** A disk whose header is [bl], and a machine that has just booted from it. *)
Record bootable (s : logst) (l : list nat) (pid : Z) (bl : list Z) : Prop := {
  bt_cache : cache_ok (lbio s) l pid (ldev s) ∅ ∅;
  bt_nodup : NoDup bl;
  bt_home b : b ∈ bl -> b < lstart s \/ lstart s + lsize s <= b;
  bt_size : length bl < lsize s <= LOGSIZE;
  bt_len : length (lh_block s) = Z.to_nat LOGSIZE;
  bt_int : Forall (fun b => - 2 ^ 31 <= b < 2 ^ 31) (lh_block s);
  bt_blk : Forall (fun b => - 2 ^ 31 <= b < 2 ^ 31) bl;
  bt_hdr : hdr_ok (disk (lbio s) (lstart s)) bl;
}.

Lemma read_head_spec s l pid bl :
  bootable s l pid bl ->
  wp (read_head pid s) (fun _ s' => exists b' l' bk, s' = set_lh (length bl) bk (set_bio b' s) /\
    cache_ok b' l' pid (ldev s) ∅ ∅ /\ disk b' = disk (lbio s) /\ writes b' = writes (lbio s) /\
    length bk = Z.to_nat LOGSIZE /\ take (length bl) bk = bl /\
    Forall (fun b => - 2 ^ 31 <= b < 2 ^ 31) bk).
Proof.
  intros [Hco Hnd Hhome Hsz Hlen Hint Hblk [Hh1 Hh2 Hh3]]. unfold read_head. apply wp_gets.
  change (id s) with s. on_bio_step.
  eapply wp_mono; [apply (bread_ok _ _ _ _ (lstart s) Hco (opened_empty _ _)); right; by apply Nat.ltb_lt|].
  intros b s1 (_ & Hco1 & Hn1 & Hd1 & _ & Hdk1 & Hw1 & Hc1).
  assert (content (lbio s) (ldev s) (lstart s) = disk (lbio s) (lstart s)) as Ec
    by (apply (content_clean _ _ _ _ _ Hco); [set_solver|apply opened_empty]).
  apply wp_gets. cbn [lbio set_bio]. rewrite Hd1, Ec. apply wp_modify.
  rewrite <- bind_ret_r_on_bio. on_bio_step. cbn [lbio set_lh].
  eapply wp_mono; [apply (brelse_ok s1 l ∅ _ b Hco1); [set_solver|right]|].
  { by rewrite Hn1, Hd1, Ec, Hdk1. }
  intros [] s2 (l2 & Hco2 & _ & _ & Hdk2 & Hw2 & _). apply wp_ret. rewrite Hh2, Nat2Z.id.
  change (Z.to_nat LOGSIZE) with 30%nat in *. change LOGSIZE with 30 in *.
  destruct (read_blocks_spec (length bl) (disk (lbio s) (lstart s)) 0 (lh_block s)) as (Hl1 & Hl2 & Hl3); [lia|].
  exists s2, l2, (read_blocks (length bl) (disk (lbio s) (lstart s)) 0 (lh_block s)). split; [done|]. split_and!.
  - by replace (({[b]} ∪ ∅) ∖ {[b]}) with (∅ : gset nat) in Hco2 by set_solver.
  - by rewrite Hdk2, Hdk1.
  - by rewrite Hw2, Hw1.
  - by rewrite Hl1.
  - apply list_eq. intros i.
    destruct (decide (i < length bl)%nat) as [Hi|Hi].
    + rewrite lookup_take_lt, Hl3 by lia. destruct (lookup_lt_is_Some_2 bl i Hi) as [x Hx]. by rewrite Hx, (Hh3 i x Hx).
    + rewrite lookup_take_ge, lookup_ge_None_2 by lia. done.
  - apply Forall_lookup_2. intros i x Hx.
    destruct (decide (i < length bl)%nat) as [Hi|Hi].
    + rewrite Hl3 in Hx by lia. apply (inj Some) in Hx as <-. destruct (lookup_lt_is_Some_2 bl i Hi) as [y Hy].
      rewrite (Hh3 i y Hy). by eapply (Forall_lookup_1 _ _ _ _ Hblk).
    + rewrite Hl2 in Hx by lia. by eapply Forall_lookup_1 in Hint.
Qed.

Lemma recover_spec s l pid bl :
  bootable s l pid bl ->
  wp (recover_from_log pid s) (fun _ s' => exists b' l' bk h0,
    s' = set_lh 0 bk (set_bio b' s) /\ log_ready s' l' pid [] /\ hdr_ok h0 [] /\
    ran (lbio s) b' (home_ws (bl := bl) (fun j => disk (lbio s) (lstart s + j + 1)) 0 (length bl) ++ [(lstart s, h0)])).
Proof.
  intros Hb. pose proof Hb as [Hco Hnd Hhome Hsz Hlen Hint Hblk Hhdr]. unfold recover_from_log.
  assert (lstart s ∉ bl) as Hst by (intros Hin; specialize (Hhome _ Hin); lia).
  wp_step (read_head_spec s l pid bl Hb). intros [] s1 (b1 & l1 & bk & -> & Hco1 & Hd1 & Hw1 & Hl1 & Ht1 & Hi1).
  assert (forall b, b ∈ bl -> b < lstart s \/ lstart s + length bl < b) as Hhome'
    by (intros b Hin; specialize (Hhome b Hin); lia).
  change LOGSIZE with 30 in *. change (Z.to_nat 30) with 30%nat in *.
  assert (length bl < HEAD)%nat as HlH by (change HEAD with 30%nat; lia).
  unfold install_trans. apply wp_bind, wp_gets. cbn [lh_n set_lh]. rewrite Nat2Z.id.
  eapply wp_mono; [apply (install_loop_spec (pid := pid) (dev := ldev s) (start := lstart s) Hnd Hhome' HlH
    (length bl) 0 _ l1 true (fun j => disk (lbio s) (lstart s + j + 1))); try done|].
  { intros _. by apply Nat.ltb_lt. }
  { intros j Hj. simpl. by rewrite Hd1. }
  intros [] s2 (b2 & l2 & -> & Hco2 & Hr2). cbn [lbio set_lh set_bio] in Hr2.
  apply wp_modify.
  assert (disk b2 (lstart s) = disk (lbio s) (lstart s)) as Ed2.
  { destruct Hr2 as [-> _]. rewrite home_ws_other by (done || lia). by rewrite Hd1. }
  eapply wp_mono; [apply (write_head_spec (pid := pid) (dev := ldev s) (start := lstart s) _ l2 ∅ []); try done|].
  { rewrite size_empty. by apply Nat.ltb_lt. }
  { simpl. rewrite (content_clean _ _ _ _ _ Hco2), Ed2; [apply Hhdr|set_solver|apply opened_empty]. }
  { simpl. lia. }
  intros [] s3 (b3 & l3 & h0 & -> & Hh0 & Hco3 & Hr3 & _). cbn [lbio set_lh set_bio] in Hr3.
  exists b3, l3, bk, h0. split; [done|]. split; [|split; [done|]].
  - split; simpl; try done; [apply NoDup_nil_2|by intros b ?%not_elem_of_nil|change LOGSIZE with 30; lia|].
    destruct Hr3 as [-> _]. simpl. by rewrite fn_lookup_insert.
  - eapply ran_app; [|exact Hr3]. destruct Hr2 as [E1 E2]. split; [by rewrite E1, Hd1|by rewrite E2, Hw1].
Qed.

(** ** Crashes *)

(** What recovery makes of disk [d] with header [bl]. *)
Definition recovered (start : Z) (bl : list Z) (d : Z -> list Z) : Z -> list Z :=
  apply_writes d (home_ws (bl := bl) (fun j => d (start + j + 1)) 0 (length bl)).

(** The blocks of a log of [size] blocks at [start]; all others are home blocks. *)
Definition in_log (start size no : Z) : Prop := start <= no < start + size.

Record logged (start size : Z) (bl : list Z) : Prop := {
  lg_nodup : NoDup bl;
  lg_home b : b ∈ bl -> ~ in_log start size b;
  lg_size : length bl < size <= LOGSIZE;
  lg_int : Forall (fun b => - 2 ^ 31 <= b < 2 ^ 31) bl;
}.

(** Disk [d] stands for the logical disk [D]: after recovery its home blocks are those of [D]. *)
Definition represents (start size : Z) (d D : Z -> list Z) : Prop :=
  exists bl, logged start size bl /\ hdr_ok (d start) bl /\
    forall no, ~ in_log start size no -> recovered start bl d no = D no.

Lemma prefix_app_cases {A} (p l1 l2 : list A) :
  p `prefix_of` l1 ++ l2 -> p `prefix_of` l1 \/ exists x l2' p', l2 = x :: l2' /\ p = l1 ++ x :: p' /\ p' `prefix_of` l2'.
Proof.
  revert p. induction l1 as [|x l1 IH]; intros p; simpl.
  - destruct p as [|y p]; [left; apply prefix_nil|]. intros [k ->]. right. exists y, (p ++ k), p.
    split_and!; [done|done|by apply prefix_app_r].
  - destruct p as [|y p]; [left; apply prefix_nil|]. intros Hp.
    pose proof (prefix_cons_inv_1 _ _ _ _ Hp) as ->. apply prefix_cons_inv_2, IH in Hp as [Hp|(y & l2' & p' & -> & -> & Hp)].
    + left. by apply prefix_cons.
    + right. by exists y, l2', p'.
Qed.

Lemma elem_of_prefix {A} (p l : list A) x : p `prefix_of` l -> x ∈ p -> x ∈ l.
Proof. intros [k ->] ?. apply elem_of_app. by left. Qed.

Section disks.
Context {start size : Z} {bl : list Z} (Hlg : logged start size bl).

Lemma lg_start : start ∉ bl.
Proof. destruct Hlg as [_ Hh Hs _]. intros Hin%Hh. apply Hin. unfold in_log. lia. Qed.

Lemma lg_log (j : nat) : (j < length bl)%nat -> start + j + 1 ∉ bl.
Proof. destruct Hlg as [_ Hh Hs _]. intros Hj Hin%Hh. apply Hin. unfold in_log. lia. Qed.

(** Installing any part of the log does not change what the disk stands for. *)
Lemma home_prefix d vals p :
  p `prefix_of` home_ws (bl := bl) vals 0 (length bl) ->
  (forall j : nat, (j < length bl)%nat -> d (start + j + 1) = vals j) ->
  apply_writes d p start = d start /\
  (forall j : nat, (j < length bl)%nat -> apply_writes d p (start + j + 1) = vals j) /\
  (forall no, recovered start bl (apply_writes d p) no = if decide (no ∈ bl) then recovered start bl d no else d no).
Proof.
  intros Hp Hv. assert (forall no, no ∉ bl -> apply_writes d p no = d no) as Ho.
  { intros no Hno. apply apply_writes_other. intros w Hw <-.
    apply (elem_of_prefix _ _ _ Hp) in Hw. by apply home_ws_in in Hw. }
  assert (forall j : nat, (j < length bl)%nat -> apply_writes d p (start + j + 1) = vals j) as Hj
    by (intros j Hj; rewrite Ho by (by apply lg_log); auto).
  split_and!; [apply Ho, lg_start|done|]. intros no. unfold recovered. case_decide as Hno.
  - apply list_elem_of_lookup_1 in Hno as [j Hno]. pose proof (lookup_lt_Some _ _ _ Hno).
    erewrite !home_ws_at by (apply Hlg || done). by rewrite Hj, Hv.
  - rewrite home_ws_other by (done || lia). by apply Ho.
Qed.

Lemma recovered_nil d : recovered start [] d = d.
Proof. done. Qed.

Lemma logged_nil : logged start size [].
Proof. destruct Hlg as [_ _ Hs _]. split; [apply NoDup_nil_2|by intros ? ?%not_elem_of_nil|simpl; lia|done]. Qed.

(** Clearing the header after the log is installed keeps what the disk stands for. *)
Lemma cleared d D h0 :
  hdr_ok h0 [] -> (forall no, ~ in_log start size no -> d no = D no) ->
  represents start size (apply_writes d [(start, h0)]) D.
Proof.
  intros Hh Hd. exists []. split; [apply logged_nil|]. simpl. split; [by rewrite fn_lookup_insert|].
  intros no Hno. rewrite recovered_nil, fn_lookup_insert_ne; [by apply Hd|].
  intros <-. apply Hno. destruct Hlg as [_ _ Hs _]. unfold in_log. lia.
Qed.

(** Recovery can crash anywhere. *)
Lemma recovery_prefix d D h0 p :
  hdr_ok (d start) bl -> hdr_ok h0 [] -> (forall no, ~ in_log start size no -> recovered start bl d no = D no) ->
  p `prefix_of` home_ws (bl := bl) (fun j => d (start + j + 1)) 0 (length bl) ++ [(start, h0)] ->
  represents start size (apply_writes d p) D.
Proof.
  intros Hh Hh0 HD [Hp|(x & l2 & p' & [= <- <-] & -> & Hp')]%prefix_app_cases.
  - destruct (home_prefix d _ p Hp) as (E1 & _ & E2); [done|]. exists bl. split; [done|]. rewrite E1.
    split; [done|]. intros no Hno. rewrite E2. case_decide; [by apply HD|]. rewrite <- HD by done.
    unfold recovered. by rewrite home_ws_other by (done || lia).
  - apply prefix_nil_inv in Hp' as ->. rewrite apply_writes_app. by apply cleared.
Qed.

(** So can a commit: before the header write the disk is the old one, from then on the new one. *)
Lemma commit_prefix d (c : Z -> list Z) h1 h0 p :
  hdr_ok (d start) [] -> hdr_ok h1 bl -> hdr_ok h0 [] -> (forall no, no ∉ bl -> c no = d no) ->
  p `prefix_of` log_ws (start := start) (bl := bl) c 0 (length bl) ++
     (start, h1) :: home_ws (bl := bl) (fun j => c (bl !!! j)) 0 (length bl) ++ [(start, h0)] ->
  represents start size (apply_writes d p) d \/ represents start size (apply_writes d p) c.
Proof.
  intros Hd Hh1 Hh0 Hc [Hp|(x & l2 & p' & [= <- <-] & -> & Hp)]%prefix_app_cases.
  - left. assert (forall no, no = start \/ ~ in_log start size no -> apply_writes d p no = d no) as Ho.
    { intros no Hno. apply apply_writes_other. intros w Hw.
      apply (elem_of_prefix _ _ _ Hp), list_elem_of_fmap in Hw as (j & -> & Hj%elem_of_seq).
      destruct Hlg as [_ _ Hs _]. unfold in_log in Hno. simpl. lia. }
    exists []. split; [apply logged_nil|]. rewrite Ho by auto. split; [done|]. intros no Hno.
    rewrite recovered_nil. auto.
  - right. rewrite apply_writes_app. change ((start, h1) :: p') with ([(start, h1)] ++ p'). rewrite apply_writes_app.
    set (d1 := apply_writes (apply_writes d _) [(start, h1)]).
    assert (d1 start = h1) as E1 by (unfold d1; simpl; by rewrite fn_lookup_insert).
    assert (forall j : nat, (j < length bl)%nat -> d1 (start + j + 1) = c (bl !!! j)) as Hj.
    { intros j Hj. unfold d1. cbn [apply_writes foldl fst snd]. rewrite fn_lookup_insert_ne by lia. by apply log_ws_at. }
    assert (forall no, ~ in_log start size no -> recovered start bl d1 no = c no) as Hr.
    { intros no Hno. unfold recovered. destruct (decide (no ∈ bl)) as [Hin|Hin].
      - apply list_elem_of_lookup_1 in Hin as [j Hin]. pose proof (lookup_lt_Some _ _ _ Hin).
        erewrite home_ws_at by (apply Hlg || done). rewrite Hj by done. by rewrite (list_lookup_total_correct _ _ _ Hin).
      - rewrite home_ws_other by (done || lia). unfold d1. cbn [apply_writes foldl fst snd].
        destruct Hlg as [_ _ Hs _]. unfold in_log in Hno.
        rewrite fn_lookup_insert_ne by lia. fold (apply_writes d (log_ws (start := start) (bl := bl) c 0 (length bl))).
        rewrite log_ws_other by lia. symmetry. by apply Hc. }
    eapply recovery_prefix; [by rewrite E1|exact Hh0|done|].
    replace (home_ws (λ j, d1 (start + j + 1)) 0 (length bl)) with (home_ws (bl := bl) (λ j, c (bl !!! j)) 0 (length bl)); [done|].
    apply list_fmap_ext. intros i x [E Hi]%lookup_seq. simpl. rewrite Hj by lia. done.
Qed.
End disks.

(** ** Transactions *)

(** An open transaction: the blocks [bl] are pinned and listed in the header,
    [O] are the buffers the process holds. *)
Record log_txn (s : logst) (l : list nat) (pid : Z) (bl : list Z) (O : gset nat) : Prop := {
  lt_cache : cache_ok (lbio s) l pid (ldev s) (list_to_set bl) O;
  lt_logged : logged (lstart s) (lsize s) bl;
  lt_n : lh_n s = length bl;
  lt_len : length (lh_block s) = Z.to_nat LOGSIZE;
  lt_bl : take (length bl) (lh_block s) = bl;
  lt_int : Forall (fun b => - 2 ^ 31 <= b < 2 ^ 31) (lh_block s);
  lt_clear : hdr_ok (disk (lbio s) (lstart s)) [];
}.

Lemma log_txn_ready s l pid bl : log_txn s l pid bl ∅ -> log_ready s l pid bl.
Proof.
  intros [Hco [Hnd Hhome Hsz Hint'] Hn Hlen Hbl Hint Hcl]. split; try done. intros b Hb%Hhome.
  unfold in_log in Hb. lia.
Qed.

Lemma log_ready_txn s l pid : log_ready s l pid [] -> log_txn s l pid [] ∅.
Proof.
  intros [Hco Hnd Hhome Hsz Hn Hlen Hbl Hint Hcl]. split; try done. split; try done.
  by intros b ?%not_elem_of_nil.
Qed.

(** [log_find] returns the entry of the block, or the first free one. *)
Lemma log_find_spec bl rest k i no :
  (i + k = length bl)%nat -> no ∉ take i bl ->
  if decide (no ∈ bl) then bl !! log_find k i no (bl ++ rest) = Some no
  else log_find k i no (bl ++ rest) = length bl.
Proof.
  revert i. induction k as [|k IH]; intros i Hk Hno; cbn [log_find].
  - rewrite take_ge in Hno by lia. rewrite decide_False by done. lia.
  - destruct (lookup_lt_is_Some_2 bl i) as [x Hx]; [lia|].
    rewrite (list_lookup_total_correct _ _ x) by (by apply lookup_app_l_Some).
    destruct (Z.eqb_spec x no) as [->|Hne].
    + rewrite decide_True by (by eapply list_elem_of_lookup_2). done.
    + apply IH; [lia|]. rewrite (take_S_r _ _ _ Hx). set_solver.
Qed.

(** The blocks in the log after [no] is added. *)
Definition log_add (bl : list Z) (no : Z) : list Z := if decide (no ∈ bl) then bl else bl ++ [no].

Lemma log_write_spec s l pid bl O b :
  let no := blockno (bufs (lbio s) b) in
  log_txn s l pid bl O -> b ∈ O -> ~ in_log (lstart s) (lsize s) no -> - 2 ^ 31 <= no < 2 ^ 31 ->
  length bl < lsize s - 1 -> 1 <= outstanding s ->
  wp (log_write b s) (fun _ s' => exists b' bk, s' = set_lh (length (log_add bl no)) bk (set_bio b' s) /\
    log_txn s' l pid (log_add bl no) O /\ disk b' = disk (lbio s) /\ writes b' = writes (lbio s) /\
    (forall i, blockno (bufs b' i) = blockno (bufs (lbio s) i) /\ data (bufs b' i) = data (bufs (lbio s) i)) /\
    forall no', content b' (ldev s) no' = content (lbio s) (ldev s) no').
Proof.
  intros no Htx Hb Hnl Hni Hsz Hout. pose proof Htx as [Hco [Hnd Hhome Hsz' Hint'] Hn Hlen Hbl Hint Hcl].
  unfold log_write. apply wp_gets. change LOGSIZE with 30 in *. cbn [id]. rewrite Hn.
  destruct (Z.leb_spec 30 (length bl)); [lia|]. destruct (Z.leb_spec (lsize s - 1) (length bl)); [lia|].
  cbn [orb]. destruct (Z.ltb_spec (outstanding s) 1); [lia|]. rewrite Nat2Z.id. fold no.
  pose proof (log_find_spec bl (drop (length bl) (lh_block s)) (length bl) 0 no eq_refl ltac:(set_solver)) as Hf.
  assert (bl ++ drop (length bl) (lh_block s) = lh_block s) as Esp by (rewrite <- Hbl at 1; apply take_drop).
  rewrite Esp in Hf.
  set (i := log_find (length bl) 0 no (lh_block s)) in *. apply wp_modify. unfold log_add.
  change (Z.to_nat 30) with 30%nat in *.
  destruct (decide (no ∈ bl)) as [Hin|Hin].
  - pose proof (lookup_lt_Some _ _ _ Hf). rewrite (proj2 (Z.eqb_neq _ _)) by lia. apply wp_ret.
    assert (<[i := no]> (lh_block s) = lh_block s) as E.
    { apply list_insert_id. rewrite <- Hbl in Hf. by apply lookup_take_Some in Hf as [? _]. }
    exists (lbio s), (lh_block s). rewrite E, Hn.
    replace (set_lh (length bl) (lh_block s) (set_bio (lbio s) s)) with s by (destruct s; simpl in *; by subst).
    replace (set_lh (length bl) (lh_block s) s) with s by (destruct s; simpl in *; by subst). done.
  - rewrite Hf, Z.eqb_refl. on_bio_step. cbn [lbio set_lh].
    eapply wp_mono; [apply (bpin_ok _ _ _ _ b Hco Hb); by rewrite elem_of_list_to_set|].
    intros [] b1 (Hco1 & Ho1 & Hn1 & Hda1 & Hd1 & Hw1 & Hc1). apply (wp_ret (S := logst) tt).
    exists b1, (<[length bl := no]> (lh_block s)). rewrite length_app. cbn [length].
    assert (length bl < length (lh_block s))%nat as Hlt by lia.
    assert (take (length (bl ++ [no])) (<[length bl := no]> (lh_block s)) = bl ++ [no]) as Htk.
    { rewrite length_app. simpl. replace (length bl + 1)%nat with (S (length bl)) by lia.
      erewrite take_S_r by (by apply list_lookup_insert_eq). by rewrite take_insert_ge, Hbl by lia. }
    split; [unfold set_lh, set_bio; simpl; f_equal; lia|]. split; [|split_and!; try done].
    + split; simpl; rewrite ?length_insert, ?length_app; simpl; try done; try lia.
      * replace (list_to_set (bl ++ [no]) : gset Z) with ({[no]} ∪ list_to_set bl : gset Z) by set_solver. done.
      * split.
        -- apply NoDup_app. split_and!; [done|set_solver|apply NoDup_singleton].
        -- intros x [Hx| ->%list_elem_of_singleton]%elem_of_app; [by apply Hhome|done].
        -- rewrite length_app. simpl. change LOGSIZE with 30. lia.
        -- apply Forall_app. split; [done|by apply Forall_singleton].
      * by rewrite length_app in Htk.
      * by apply Forall_insert.
      * by rewrite Hd1.
    + intros j. destruct (decide (j = b)) as [->|]; [done|by rewrite Ho1].
Qed.

(** The tables of a kernel that has just booted, before [initlog]. *)
Definition fresh (s : logst) : Prop :=
  length (lh_block s) = Z.to_nat LOGSIZE /\ Forall (fun b => - 2 ^ 31 <= b < 2 ^ 31) (lh_block s).

Lemma commit_txn s l pid bl :
  log_txn s l pid bl ∅ ->
  wp (commit pid s) (fun _ s' => exists b' l' ws, s' = set_lh 0 (lh_block s) (set_bio b' s) /\
    log_txn s' l' pid [] ∅ /\ ran (lbio s) b' ws /\
    (forall no, ~ in_log (lstart s) (lsize s) no -> disk b' no = content (lbio s) (ldev s) no) /\
    forall p, p `prefix_of` ws ->
      represents (lstart s) (lsize s) (apply_writes (disk (lbio s)) p) (disk (lbio s)) \/
      represents (lstart s) (lsize s) (apply_writes (disk (lbio s)) p) (content (lbio s) (ldev s))).
Proof.
  intros Htx. pose proof Htx as [Hco Hlg Hn Hlen Hbl Hint Hcl].
  eapply wp_mono; [eapply commit_spec, log_txn_ready, Htx|].
  intros [] s' (b' & l' & ws & -> & Hr' & Hran & Hws). exists b', l', ws.
  assert (forall no, no ∉ bl -> content (lbio s) (ldev s) no = disk (lbio s) no) as Hcc.
  { intros no Hno. apply (content_clean _ _ _ _ _ Hco); [by rewrite elem_of_list_to_set|apply opened_empty]. }
  split; [done|]. split; [by apply log_ready_txn|]. split; [done|].
  destruct Hran as [Hd _]. destruct Hws as [[-> ->]|(Hne & h1 & h0 & Hh1 & Hh0 & ->)].
  - split; [intros no _; rewrite Hd; simpl; rewrite Hcc; [done|apply not_elem_of_nil]|].
    intros p ->%prefix_nil_inv. left. exists []. done.
  - split; [|intros p Hp; by eapply (commit_prefix Hlg)].
    intros no Hno. rewrite Hd. set (c := content (lbio s) (ldev s)) in *.
    rewrite apply_writes_app, apply_writes_cons, apply_writes_app. cbn [apply_writes foldl fst snd].
    pose proof (lg_size _ _ _ Hlg) as Hsz. unfold in_log in Hno. rewrite fn_lookup_insert_ne by lia.
    destruct (decide (no ∈ bl)) as [Hin|Hin].
    + apply list_elem_of_lookup_1 in Hin as [j Hin].
      unfold apply_writes at 1. rewrite (home_ws_at _ _ _ j no) by (done || apply Hlg). by rewrite (list_lookup_total_correct _ _ _ Hin).
    + rewrite (home_ws_other bl) by (done || lia). rewrite fn_lookup_insert_ne by lia. rewrite log_ws_other by lia.
      symmetry. by apply Hcc.
Qed.

(** ** The operations of a transaction *)

Section txn.
Context {pid : Z}.

Lemma log_txn_bio s l bl O b' l' O' :
  log_txn s l pid bl O -> cache_ok b' l' pid (ldev s) (list_to_set bl) O' -> disk b' = disk (lbio s) ->
  log_txn (set_bio b' s) l' pid bl O'.
Proof. intros [Hco Hlg Hn Hlen Hbl Hint Hcl] Hco' Hd. split; simpl; try done. by rewrite Hd. Qed.

Lemma log_txn_room s l bl O :
  log_txn s l pid bl O -> length bl + size O < 30 ->
  (size (list_to_set bl : gset Z) + size O < HEAD)%nat.
Proof.
  intros [_ [Hnd _ _ _] _ _ _ _ _] Hr. rewrite size_list_to_set by done.
  change HEAD with 30%nat. lia.
Qed.
End txn.

(** Inside a transaction, reading a block, changing it, logging it and
    releasing it changes that block for every later reader, changes no other
    block, and writes nothing to the disk; a block that is already in the
    transaction takes no second log slot. *)
Lemma log_update_spec s l pid bl no d :
  log_txn s l pid bl ∅ -> ~ in_log (lstart s) (lsize s) no -> - 2 ^ 31 <= no < 2 ^ 31 ->
  length bl < lsize s - 1 -> 1 <= outstanding s ->
  wp ((b ← on_bio (bread pid (ldev s) no);
       on_bio (upd_buf b (with_data d));; log_write b;; on_bio (brelse pid b)) s)
    (fun _ s' => exists l', log_txn s' l' pid (log_add bl no) ∅ /\
      content (lbio s') (ldev s) no = d /\
      (forall no', no' <> no -> content (lbio s') (ldev s) no' = content (lbio s) (ldev s) no') /\
      disk (lbio s') = disk (lbio s) /\ writes (lbio s') = writes (lbio s) /\
      s' = set_lh (lh_n s') (lh_block s') (set_bio (lbio s') s)).
Proof.
  intros Htx Hno Hni Hsz Hout. pose proof (lg_size _ _ _ (lt_logged _ _ _ _ _ Htx)) as Hsz'.
  change LOGSIZE with 30 in Hsz'. on_bio_step.
  eapply wp_mono; [apply (bread_ok _ _ _ _ no (lt_cache _ _ _ _ _ Htx) (opened_empty _ _)); right|].
  { eapply log_txn_room; [done|]. rewrite size_empty. lia. }
  intros b b1 (_ & Hco1 & Hn1 & _ & _ & Hd1 & Hw1 & Hc1). on_bio_step. cbn [lbio set_bio].
  eapply wp_mono; [apply (set_data_ok _ _ _ _ b d Hco1); set_solver|].
  intros [] b2 (Hco2 & Hb2 & _ & Hd2 & Hw2 & Hc2 & Hc2'). rewrite Hn1 in Hc2, Hc2'.
  assert (log_txn (set_bio b2 (set_bio b1 s)) l pid bl ({[b]} ∪ ∅)) as Htx2.
  { apply (log_txn_bio s l bl ∅ b2 l); [done|done|congruence]. }
  assert (blockno (bufs b2 b) = no) as En by (by rewrite Hb2).
  apply wp_bind. eapply wp_mono; [apply (log_write_spec _ l pid bl _ b Htx2); simpl; rewrite ?En; (done || set_solver)|].
  simpl. rewrite En. intros [] s3 (b3 & bk & -> & Htx3 & Hd3 & Hw3 & Hid3 & Hc3). cbn [lbio set_bio ldev] in *.
  rewrite <- bind_ret_r_on_bio. on_bio_step. cbn [lbio set_bio set_lh].
  assert (blockno (bufs b3 b) = no) as En3 by (destruct (Hid3 b) as [-> _]; done).
  eapply wp_mono; [apply (brelse_ok _ _ _ _ b (lt_cache _ _ _ _ _ Htx3)); [set_solver|left]|].
  { simpl. rewrite En3, elem_of_list_to_set. unfold log_add. case_decide; set_solver. }
  intros [] b4 (l4 & Hco4 & _ & _ & Hd4 & Hw4 & Hc4). simpl in Hco4, Hd4, Hw4, Hc4. apply wp_ret. exists l4.
  split; [|split; [|split; [|split; [|split]]]]; simpl.
  - apply (log_txn_bio _ _ _ _ b4 l4 ∅ Htx3); [|done]. simpl.
    by replace (∅ : gset nat) with (({[b]} ∪ ∅) ∖ {[b]} : gset nat) by set_solver.
  - by rewrite Hc4, Hc3.
  - intros no' Hne. by rewrite Hc4, Hc3, Hc2', Hc1.
  - congruence.
  - congruence.
  - done.
Qed.

(** C1: [end_op] of the last outstanding operation commits atomically.  When
    it returns, every block outside the log is on the disk as the cache had
    it, and the log is empty.  If the machine stops after any number of its
    disk writes, the disk stands for either the old or the new contents of
    all blocks, never for a mixture. *)
Theorem end_op_atomic s l pid bl :
  log_txn s l pid bl ∅ -> outstanding s = 1 -> committing s = false ->
  wp (end_op pid s) (fun _ s' => exists l' ws,
    log_txn s' l' pid [] ∅ /\ outstanding s' = 0 /\ committing s' = false /\
    (forall no, ~ in_log (lstart s) (lsize s) no -> disk (lbio s') no = content (lbio s) (ldev s) no) /\
    writes (lbio s') = writes (lbio s) ++ ws /\
    forall p, p `prefix_of` ws ->
      represents (lstart s) (lsize s) (apply_writes (disk (lbio s)) p) (disk (lbio s)) \/
      represents (lstart s) (lsize s) (apply_writes (disk (lbio s)) p) (content (lbio s) (ldev s))).
Proof.
  intros Htx Ho Hc. unfold end_op. apply wp_modify, wp_gets. cbn [id committing outstanding set_ops]. rewrite Hc, Ho.
  apply wp_modify. cbn [Z.sub Z.add Z.opp Z.pos_sub Z.eqb outstanding set_ops].
  assert (log_txn (set_ops 0 true s) l pid bl ∅) as Htx' by (destruct Htx; by split).
  wp_step (commit_txn _ _ _ _ Htx'). intros [] s' (b' & l' & ws & -> & Htx2 & [_ Hw] & Hd & Hp).
  apply (wp_ret (S := logst) tt). exists l', ws. split; [destruct Htx2; by split|]. done.
Qed.

(** C5: booting from a disk that stands for [D] gives [D]: [initlog] installs
    what the log holds, clears it, and leaves every block outside the log as
    in [D].  It may itself be cut short after any of its disk writes, any
    number of times: the disk still stands for [D]. *)
Theorem initlog_recovers s l pid dev start size D :
  cache_ok (lbio s) l pid dev ∅ ∅ -> fresh s -> represents start size (disk (lbio s)) D ->
  wp (initlog pid dev start size s) (fun _ s' => exists l' ws,
    log_txn s' l' pid [] ∅ /\ ldev s' = dev /\ lstart s' = start /\ lsize s' = size /\
    (forall no, ~ in_log start size no -> disk (lbio s') no = D no) /\
    writes (lbio s') = writes (lbio s) ++ ws /\
    forall p, p `prefix_of` ws -> represents start size (apply_writes (disk (lbio s)) p) D).
Proof.
  intros Hco [Hfl Hfi] (bl & Hlg & Hh & HD). pose proof Hlg as [Hnd Hhome Hsz Hint]. unfold initlog.
  change (BSIZE <=? 4 + 4 * LOGSIZE) with false. cbn iota. apply wp_modify.
  eapply wp_mono; [apply (recover_spec _ l pid bl)|].
  { split; try done. intros b Hb%Hhome. unfold in_log in Hb. simpl. lia. }
  intros [] s' (b' & l' & bk & h0 & -> & Hlr & Hh0 & Hd & Hw). exists l'. eexists.
  split; [by apply log_ready_txn|]. do 3 (split; [done|]). simpl in *. split; [|split; [exact Hw|]].
  - intros no Hno. rewrite Hd, apply_writes_app. unfold in_log in Hno. cbn [apply_writes foldl fst snd].
    rewrite fn_lookup_insert_ne by lia. by apply HD.
  - intros p Hp. by eapply (recovery_prefix Hlg).
Qed.

(** ** A log in use *)

Definition zero_block : list Z := repeat 0 (Z.to_nat BSIZE).

(** Tables before [initlog]: [log] is zero except for the cache. *)
Definition log_bss (b : bio) : logst := mk_logst b 0 0 0 false 0 0 (repeat 0 (Z.to_nat LOGSIZE)).

Lemma fresh_bss b : fresh (log_bss b).
Proof. split; [done|]. simpl. by repeat constructor. Qed.

Lemma represents_zero start size D :
  0 < size <= LOGSIZE -> D start = zero_block -> represents start size D D.
Proof.
  intros Hs E. exists []. split; [|split; [rewrite E; split; [done|reflexivity|done]|done]].
  split; [apply NoDup_nil_2|by intros ? ?%not_elem_of_nil|simpl; lia|done].
Qed.

(** A 30-block log at block 2 as mkfs makes it, with nothing in it. *)
Lemma demo_log : exists b l, binit demo_bio = Ret tt b /\ cache_ok b l 1 1 ∅ ∅ /\
  represents 2 30 (disk b) (fun _ => zero_block).
Proof.
  destruct (wp_inv _ _ (binit_spec demo_bio ltac:(done))) as ([] & s & E & Hinv & Hd & _ & Hb).
  exists s, (rev (seq 0 HEAD)). split; [done|]. split; [by apply cache_ok_init|].
  rewrite Hd. apply represents_zero; [change LOGSIZE with 30; lia|done].
Qed.

Lemma demo_log_ready : exists s l, log_txn s l 1 [] ∅ /\ lstart s = 2 /\ lsize s = 30 /\ ldev s = 1 /\
  outstanding s = 0 /\ committing s = false.
Proof.
  destruct demo_log as (b & l & _ & Hco & (bl & Hlg & Hh & _)).
  pose proof Hlg as [Hnd Hhome Hsz Hint].
  set (s0 := mk_logst b 2 30 0 false 1 0 (repeat 0 (Z.to_nat LOGSIZE))).
  assert (bootable s0 l 1 bl) as Hb.
  { destruct (fresh_bss b). split; try done. intros x Hx%Hhome. unfold in_log in Hx. simpl. lia. }
  destruct (wp_inv _ _ (recover_spec s0 l 1 bl Hb)) as ([] & s' & _ & b' & l' & bk & h0 & -> & Hlr & _).
  exists (set_lh 0 bk (set_bio b' s0)), l'. split; [by apply log_ready_txn|]. done.
Qed.

Lemma demo_txn : exists s l, log_txn s l 1 [100] ∅ /\ outstanding s = 1 /\ committing s = false /\
  content (lbio s) (ldev s) 100 = repeat 7 (Z.to_nat BSIZE) /\ lstart s = 2 /\ lsize s = 30.
Proof.
  destruct demo_log_ready as (s & l & Htx & H2 & H30 & H1 & Ho & Hc).
  assert (log_txn (set_ops 1 false s) l 1 [] ∅) as Htx1 by (destruct Htx; by split).
  destruct (wp_inv _ _ (log_update_spec _ _ _ _ 100 (repeat 7 (Z.to_nat BSIZE)) Htx1
    ltac:(simpl; rewrite H2, H30; unfold in_log; lia) ltac:(lia) ltac:(simpl; lia) ltac:(simpl; lia)))
    as ([] & s' & E & l' & Htx2 & Hct & Hk).
  exists s', l'. destruct Hk as (_ & _ & _ & E'). split; [done|]. rewrite E'. simpl. done.
Qed.

Lemma end_op_atomic_witness : exists s s', end_op 1 s = Ret tt s' /\
  content (lbio s) (ldev s) 100 = repeat 7 (Z.to_nat BSIZE) /\ disk (lbio s') 100 = repeat 7 (Z.to_nat BSIZE).
Proof.
  destruct demo_txn as (s & l & Htx & Ho & Hc & H7 & H2 & H30).
  destruct (wp_inv _ _ (end_op_atomic s l 1 [100] Htx Ho Hc)) as ([] & s' & E & l' & ws & _ & _ & _ & Hd & _).
  exists s, s'. split; [done|]. split; [done|]. rewrite Hd; [done|]. rewrite H2, H30. unfold in_log. lia.
Defined.

(** A disk whose log holds a committed transaction: block 100 is to be all sevens. *)
Definition sevens : list Z := repeat 7 (Z.to_nat BSIZE).
Definition demo_header : list Z := [1; 0; 0; 0; 100; 0; 0; 0] ++ repeat 0 (Z.to_nat BSIZE - 8).
Definition demo_crashed : bio :=
  mk_bio (fun _ => bss_buf) (fun _ => 0%nat) (fun _ => 0%nat) (fun no => if no =? 2 then demo_header else if no =? 3 then sevens else zero_block) [].

Lemma demo_crashed_represents : represents 2 30 (disk demo_crashed) (<[100 := sevens]> (fun _ => zero_block)).
Proof.
  exists [100]. split; [|split].
  - split; [apply NoDup_singleton|intros b ->%list_elem_of_singleton; unfold in_log; lia|change LOGSIZE with 30; simpl; lia|repeat constructor; lia].
  - split; [by vm_compute|by vm_compute|]. intros [|i] b Hb; [|done]. injection Hb as <-. by vm_compute.
  - intros no Hno. unfold in_log in Hno. unfold recovered, home_ws, apply_writes. cbn [length seq fmap list_fmap foldl fst snd]. change ([100] !!! 0%nat) with 100.
    destruct (decide (no = 100)) as [->|]; [by rewrite !fn_lookup_insert|]. rewrite !fn_lookup_insert_ne by done. cbn [disk demo_crashed].
    rewrite (proj2 (Z.eqb_neq no 2)), (proj2 (Z.eqb_neq no 3)) by lia. done.
Qed.

Lemma initlog_recovers_witness : exists s s', initlog 1 1 2 30 s = Ret tt s' /\ disk (lbio s) 100 = zero_block /\ disk (lbio s') 100 = sevens /\ disk (lbio s') 40 = zero_block.
Proof.
  destruct (wp_inv _ _ (binit_spec demo_crashed ltac:(done))) as ([] & b & _ & Hinv & Hdk & _ & Hb).
  assert (cache_ok b (rev (seq 0 HEAD)) 1 1 ∅ ∅) as Hco by (by apply cache_ok_init).
  assert (represents 2 30 (disk b) (<[100 := sevens]> (fun _ => zero_block))) as Hr by (rewrite Hdk; exact demo_crashed_represents).
  destruct (wp_inv _ _ (initlog_recovers (log_bss b) _ 1 1 2 30 _ Hco (fresh_bss b) Hr))
    as ([] & s' & E & l' & ws & _ & _ & _ & _ & Hd & _).
  exists (log_bss b), s'. split; [exact E|]. split; [cbn [lbio log_bss]; rewrite Hdk; reflexivity|]. split.
  - rewrite (Hd 100) by (unfold in_log; lia). apply fn_lookup_insert.
  - rewrite (Hd 40) by (unfold in_log; lia). by rewrite fn_lookup_insert_ne.
Defined.

(** ** The reservation *)

(** One block of a system call's share: read, log, release. *)
Definition log_blocks (pid dev no : Z) : nat -> M logst unit :=
  fix go k := match k with
  | O => mret tt
  | S k => b ← on_bio (bread pid dev (no + k)); log_write b;; on_bio (brelse pid b);; go k
  end.

(** [n] operations that [begin_op] admits together, each logging [MAXOPBLOCKS] blocks. *)
Definition log_ops (pid dev no : Z) : nat -> M logst unit :=
  fix go n := match n with
  | O => mret tt
  | S n => log_blocks pid dev (no + MAXOPBLOCKS * n) (Z.to_nat MAXOPBLOCKS);; go n
  end.

Definition begin_ops : nat -> M logst bool :=
  fix go n := match n with
  | O => mret true
  | S n => ok ← begin_op; rest ← go n; mret (ok && rest)
  end.

Definition reservation_test : bool :=
  match zoom lbio set_bio binit (log_bss demo_bio) with
  | Ret _ s1 =>
    match initlog 1 1 2 LOGSIZE s1 with
    | Ret _ s2 =>
      match begin_ops 3 s2 with
      | Ret true s3 => match log_ops 1 1 100 3 s3 with Panic m => bool_decide (m = "too big a transaction") | _ => false end
      | _ => false
      end &&
      match begin_ops 2 s2 with
      | Ret true s3 => match log_ops 1 1 100 2 s3 with Ret _ _ => true | _ => false end
      | _ => false
      end
    | _ => false
    end
  | _ => false
  end.

Lemma reservation_run : reservation_test = true.
Proof. vm_compute. reflexivity. Qed.

(** C38: the admission test of [begin_op] promises more than a log of
    [LOGSIZE] blocks holds.  On the log that mkfs makes, three operations are
    admitted together, each entitled to [MAXOPBLOCKS] blocks; when each uses
    its share, the kernel panics.  Two operations are within the log. *)
Theorem log_reservation_gap :
  exists s1 s2, zoom lbio set_bio binit (log_bss demo_bio) = Ret tt s1 /\ initlog 1 1 2 LOGSIZE s1 = Ret tt s2 /\
    (exists s3, begin_ops 3 s2 = Ret true s3 /\ log_ops 1 1 100 3 s3 = Panic "too big a transaction") /\
    (exists s3 s4, begin_ops 2 s2 = Ret true s3 /\ log_ops 1 1 100 2 s3 = Ret tt s4).
Proof.
  pose proof reservation_run as Hrun. unfold reservation_test in Hrun.
  destruct (zoom lbio set_bio binit _) as [[] s1| |]; [|done|done].
  destruct (initlog 1 1 2 LOGSIZE s1) as [[] s2| |] eqn:E2; [|done|done].
  destruct (begin_ops 3 s2) as [[] s3| |] eqn:E3; try done.
  destruct (log_ops 1 1 100 3 s3) as [|m|] eqn:E4; try done.
  destruct (begin_ops 2 s2) as [[] s5| |] eqn:E5; try (rewrite andb_false_r in Hrun; done).
  destruct (log_ops 1 1 100 2 s5) as [[] s6| |] eqn:E6; try (rewrite andb_false_r in Hrun; done).
  rewrite andb_true_r in Hrun. apply bool_decide_eq_true in Hrun as ->.
  exists s1, s2. split; [done|]. split; [done|]. split; [by exists s3|by exists s5, s6].
Qed.
