(* ===== verification/Store.v ===== *)
(** * What the file system asks of the disk layer

    kernel/fs.c works on buffers: it reads a block with [bread], looks at and
    changes [bp->data], logs it with [log_write] and gives it back with
    [brelse].  [Store] is that interface and [StoreSpec] its contract inside a
    transaction: there is one array of blocks [D], the caller holds the
    buffers [O], each clean or changed since it was logged, and the
    transaction has logged the blocks [L], at most [sp_cap] of them.  The
    log over the buffer cache implements the contract (LogStore.v); so does a
    plain array of blocks, on which the file system can be run. *)

From S2P Require Import Prelude.

Class Store (S : Type) := {
  st_bread : Z -> Z -> M S nat;
  st_data : S -> nat -> list Z;
  st_write : nat -> list Z -> M S unit;  (** [bp->data = ...] *)
  st_log : nat -> M S unit;
  st_brelse : nat -> M S unit;
  st_init : Z -> Z -> Z -> M S unit;     (** [initlog] *)
  st_begin : M S bool;                   (** [begin_op]; [false]: must sleep *)
  st_end : M S unit;                     (** [end_op] *)
}.

(** Held buffers: block number, and whether it was changed since it was logged. *)
Abbreviation opens := (gmap nat (Z * bool)).

Definition not_open (O : opens) (no : Z) : Prop := forall b x, O !! b = Some x -> x.1 <> no.

Class StoreSpec (S : Type) {ST : Store S} := {
  sp_dev : Z;
  sp_cap : Z;
  sp_loggable : Z -> Prop;
  holds : S -> (Z -> list Z) -> opens -> gset Z -> Prop;
  sp_ext s D D' O L : holds s D O L -> (forall no, D no = D' no) -> holds s D' O L;
  sp_data s D O L b no d : holds s D O L -> O !! b = Some (no, d) -> st_data s b = D no;
  sp_bread s D O L no :
    holds s D O L -> 0 <= no -> not_open O no -> size L + size O <= sp_cap ->
    wp (st_bread sp_dev no s) (fun b s' => O !! b = None /\ holds s' D (<[b := (no, false)]> O) L);
  sp_write s D O L b no d v :
    holds s D O L -> O !! b = Some (no, d) ->
    wp (st_write b v s) (fun _ s' => holds s' (<[no := v]> D) (<[b := (no, true)]> O) L);
  sp_log s D O L b no d :
    holds s D O L -> O !! b = Some (no, d) -> sp_loggable no -> size L < sp_cap ->
    wp (st_log b s) (fun _ s' => holds s' D (<[b := (no, false)]> O) ({[no]} ∪ L));
  sp_brelse s D O L b no :
    holds s D O L -> O !! b = Some (no, false) ->
    wp (st_brelse b s) (fun _ s' => holds s' D (delete b O) L);
}.

(** ** An array of blocks *)

Definition ram : Type := Z -> list Z.

#[export] Instance ram_store : Store ram := {|
  st_bread _ no := mret (Z.to_nat no);
  st_data s b := s (Z.of_nat b);
  st_write b v := modify (fun s => <[Z.of_nat b := v]> s);
  st_log _ := mret tt;
  st_brelse _ := mret tt;
  st_init _ _ _ := mret tt;
  st_begin := mret true;
  st_end := mret tt |}.

Definition ram_holds (s : ram) (D : Z -> list Z) (O : opens) (L : gset Z) : Prop :=
  (forall no, s no = D no) /\ forall b x, O !! b = Some x -> x.1 = Z.of_nat b.

Program Definition ram_spec (dev cap : Z) : StoreSpec ram :=
  {| sp_dev := dev; sp_cap := cap; sp_loggable _ := True; holds := ram_holds |}.
Next Obligation. intros dev cap s D D' O L [H1 H2] He. split; [|done]. intros no. by rewrite H1. Qed.
Next Obligation. intros dev cap s D O L b no d [H1 H2] Hb. simpl. rewrite H1. by rewrite <- (H2 _ _ Hb). Qed.
Next Obligation.
  intros dev cap s D O L no [H1 H2] Hno Hop _. simpl. split.
  - destruct (O !! Z.to_nat no) as [x|] eqn:E; [|done]. exfalso. apply (Hop _ _ E). rewrite (H2 _ _ E). lia.
  - split; [done|]. intros b x [[<- <-]|[_ Hb]]%lookup_insert_Some; [simpl; lia|by apply H2].
Qed.
Next Obligation.
  intros dev cap s D O L b no d v [H1 H2] Hb. simpl. pose proof (H2 _ _ Hb) as E. simpl in E. rewrite <- E. split.
  - intros no'. destruct (decide (no' = no)) as [->|]; [by rewrite !fn_lookup_insert|by rewrite !fn_lookup_insert_ne].
  - intros b' x [[<- <-]|[_ Hb']]%lookup_insert_Some; [done|by apply H2].
Qed.
Next Obligation.
  intros dev cap s D O L b no d [H1 H2] Hb _ _. split; [done|].
  intros b' x [[<- <-]|[_ Hb']]%lookup_insert_Some; [by apply (H2 _ _ Hb)|by apply H2].
Qed.
Next Obligation.
  intros dev cap s D O L b no [H1 H2] Hb. split; [done|]. intros b' x [_ Hb']%lookup_delete_Some. by apply H2.
Qed.
