(* ===== verification/LogStore.v ===== *)
(** * The log implements the file system's disk interface

    [bread], [log_write] and [brelse] of a process inside a transaction
    satisfy the contract of Store.v, with the cache's contents as the blocks. *)

From S2P Require Import Prelude Riscv Block Bio BioClient Log LogThms Store.

#[export] Instance log_store (pid : Z) : Store logst := {|
  st_bread dev no := on_bio (bread pid dev no);
  st_data s b := data (bufs (lbio s) b);
  st_write b v := on_bio (upd_buf b (with_data v));
  st_log b := log_write b;
  st_brelse b := on_bio (brelse pid b);
  st_init := initlog pid;
  st_begin := begin_op;
  st_end := end_op pid |}.

Section store.
(** The log's place, the operations outstanding, and what is on the disk
    itself: a transaction does not write it before it commits. *)
Context (pid dev start lsz out : Z) (d0 : Z -> list Z) (w0 : list (Z * list Z)).

Record log_holds (s : logst) (D : Z -> list Z) (O : opens) (L : gset Z) : Prop := {
  lh_txn : exists l bl, log_txn s l pid bl (dom O) /\ L = list_to_set bl;
  lh_at : ldev s = dev /\ lstart s = start /\ lsize s = lsz;
  lh_ops : outstanding s = out /\ committing s = false;
  lh_disk : disk (lbio s) = d0 /\ writes (lbio s) = w0;
  lh_content no : content (lbio s) dev no = D no;
  lh_open b no d : O !! b = Some (no, d) -> blockno (bufs (lbio s) b) = no /\
    (d = false -> no ∈ L \/ data (bufs (lbio s) b) = disk (lbio s) no);
}.

Definition log_loggable (no : Z) : Prop := 1 <= out /\ ~ in_log start lsz no /\ - 2 ^ 31 <= no < 2 ^ 31.

Lemma dom_opened s D O L no : log_holds s D O L -> not_open O no -> ~ opened (lbio s) (dom O) no.
Proof.
  intros Hh Hop (i & [[no' d] Hi]%elem_of_dom & Hb). apply (Hop _ _ Hi). simpl.
  destruct (lh_open _ _ _ _ Hh _ _ _ Hi) as [<- _]. done.
Qed.

Lemma opened_content s l P O b :
  cache_ok s l pid dev P O -> b ∈ O -> content s dev (blockno (bufs s b)) = data (bufs s b).
Proof.
  intros Hco Hb. destruct (co_open _ _ _ _ _ _ Hco b Hb) as (Hlt & Hd & Hv).
  rewrite (content_cached s l dev (blockno (bufs s b)) b), Hv; [done| | |]; [apply Hco|apply Hco|done].
Qed.

Lemma log_holds_data s D O L b no d : log_holds s D O L -> O !! b = Some (no, d) -> data (bufs (lbio s) b) = D no.
Proof.
  intros Hh Hb. destruct (lh_txn _ _ _ _ Hh) as (l & bl & Htx & _).
  destruct (lh_open _ _ _ _ Hh _ _ _ Hb) as [<- _]. rewrite <- (lh_content _ _ _ _ Hh).
  pose proof (lt_cache _ _ _ _ _ Htx) as Hco. destruct (lh_at _ _ _ _ Hh) as (Hdev & _). rewrite Hdev in Hco.
  symmetry. eapply opened_content; [done|]. by eapply elem_of_dom_2.
Qed.

Lemma wp_on_bio_val {A} (k : M bio A) s Q :
  wp (k (lbio s)) (fun a b => Q a (set_bio b s)) -> wp (on_bio k s) Q.
Proof. unfold on_bio, zoom. by destruct (k (lbio s)). Qed.

Lemma log_bread s D O L no :
  log_holds s D O L -> not_open O no -> size L + size O <= lsz - 1 ->
  wp (st_bread (Store := log_store pid) dev no s) (fun b s' => O !! b = None /\ log_holds s' D (<[b := (no, false)]> O) L).
Proof.
  intros Hh Hno Hsz. pose proof Hh as [(l & bl & Htx & ->) (Hdev & Hst & Hls) [Hout Hcm] [Hdk Hwr] Hct Hop].
  pose proof (dom_opened _ _ _ _ _ Hh Hno) as Hnop. pose proof (lt_cache _ _ _ _ _ Htx) as Hco. rewrite Hdev in Hco.
  pose proof (lg_size _ _ _ (lt_logged _ _ _ _ _ Htx)) as Hl. change LOGSIZE with 30 in Hl.
  apply wp_on_bio_val. eapply wp_mono; [apply (bread_ok _ _ _ _ no Hco Hnop); right|].
  { rewrite size_dom. change HEAD with 30%nat. lia. }
  intros b b1 (HbO & Hco1 & Hn1 & Hd1 & Ho1 & Hdk1 & Hw1 & Hc1).
  split; [by apply not_elem_of_dom|]. split; simpl; try done; try (split; congruence).
  - exists l, bl. split; [|done]. rewrite dom_insert_L. eapply log_txn_bio; [done| |done]. by rewrite Hdev.
  - intros no'. by rewrite Hc1.
  - intros b' no' d [[<- [= <- <-]]|[Hne Hb']]%lookup_insert_Some.
    + split; [done|]. intros _. destruct (decide (no ∈ bl)) as [Hin|Hin]; [left; by apply elem_of_list_to_set|right].
      rewrite Hd1, Hdk1. eapply content_clean; [done|by rewrite elem_of_list_to_set|done].
    + rewrite Ho1 by (by eapply elem_of_dom_2). rewrite Hdk1. by apply Hop.
Qed.

Lemma log_set s D O L b no d v :
  log_holds s D O L -> O !! b = Some (no, d) ->
  wp (st_write (Store := log_store pid) b v s) (fun _ s' => log_holds s' (<[no := v]> D) (<[b := (no, true)]> O) L).
Proof.
  intros Hh Hb. pose proof Hh as [(l & bl & Htx & ->) (Hdev & Hst & Hls) [Hout Hcm] [Hdk Hwr] Hct Hop].
  pose proof (lt_cache _ _ _ _ _ Htx) as Hco. rewrite Hdev in Hco.
  assert (b ∈ dom O) as HbO by (by eapply elem_of_dom_2). destruct (Hop _ _ _ Hb) as [Hn _].
  apply wp_on_bio_val. eapply wp_mono; [apply (set_data_ok _ _ _ _ b v Hco HbO)|].
  intros [] b1 (Hco1 & Hb1 & Ho1 & Hdk1 & Hw1 & Hc1 & Hc1'). rewrite Hn in Hc1, Hc1'. split; simpl; try done; try (split; congruence).
  - exists l, bl. split; [|done]. replace (dom (<[b:=(no, true)]> O)) with (dom O) by (rewrite dom_insert_L; set_solver).
    eapply log_txn_bio; [done| |done]. by rewrite Hdev.
  - intros no'. destruct (decide (no' = no)) as [->|]; [by rewrite fn_lookup_insert|].
    by rewrite fn_lookup_insert_ne, Hc1'.
  - intros b' no' d' [[<- [= <- <-]]|[Hne Hb']]%lookup_insert_Some; [by rewrite Hb1|].
    rewrite Ho1, Hdk1 by done. by apply Hop.
Qed.

Lemma log_log s D O L b no d :
  log_holds s D O L -> O !! b = Some (no, d) -> log_loggable no -> size L < lsz - 1 ->
  wp (st_log (Store := log_store pid) b s) (fun _ s' => log_holds s' D (<[b := (no, false)]> O) ({[no]} ∪ L)).
Proof.
  intros Hh Hb (Hout1 & Hnl & Hni) Hsz. pose proof Hh as [(l & bl & Htx & ->) (Hdev & Hst & Hls) [Hout Hcm] [Hdk Hwr] Hct Hop].
  assert (b ∈ dom O) as HbO by (by eapply elem_of_dom_2). destruct (Hop _ _ _ Hb) as [Hn _].
  rewrite size_list_to_set in Hsz by apply (lt_logged _ _ _ _ _ Htx).
  eapply wp_mono; [apply (log_write_spec s l pid bl (dom O) b Htx HbO)|];
    [by rewrite Hn, Hst, Hls|by rewrite Hn|lia|lia|].
  intros [] s' (b' & bk & -> & Htx' & Hd & Hw & Hid & Hc). rewrite Hn, Hdev in *. split; simpl; try done; try (split; congruence).
  - exists l, (log_add bl no). replace (dom (<[b:=(no, false)]> O)) with (dom O) by (rewrite dom_insert_L; set_solver).
    split; [done|]. unfold log_add. case_decide; set_solver.
  - intros no'. by rewrite Hc.
  - intros b2 no' d' [[<- [= <- <-]]|[Hne Hb']]%lookup_insert_Some.
    + destruct (Hid b) as [-> _]. split; [done|]. set_solver.
    + destruct (Hid b2) as [-> ->]. rewrite Hd. destruct (Hop _ _ _ Hb') as [? Hcl]. split; [done|].
      intros Hd'. destruct (Hcl Hd'); [left; set_solver|by right].
Qed.

Lemma log_rel s D O L b no :
  log_holds s D O L -> O !! b = Some (no, false) ->
  wp (st_brelse (Store := log_store pid) b s) (fun _ s' => log_holds s' D (delete b O) L).
Proof.
  intros Hh Hb. pose proof Hh as [(l & bl & Htx & ->) (Hdev & Hst & Hls) [Hout Hcm] [Hdk Hwr] Hct Hop].
  pose proof (lt_cache _ _ _ _ _ Htx) as Hco. rewrite Hdev in Hco.
  assert (b ∈ dom O) as HbO by (by eapply elem_of_dom_2). destruct (Hop _ _ _ Hb) as [Hn Hcl].
  apply wp_on_bio_val. eapply wp_mono; [apply (brelse_ok _ _ _ _ b Hco HbO)|].
  { rewrite Hn. by apply Hcl. }
  intros [] b1 (l1 & Hco1 & Ho1 & Hn1 & Hdk1 & Hw1 & Hc1). split; simpl; try done; try (split; congruence).
  - exists l1, bl. split; [|done]. rewrite dom_delete_L. eapply log_txn_bio; [done| |done]. by rewrite Hdev.
  - intros no'. by rewrite Hc1.
  - intros b' no' d' [Hne Hb']%lookup_delete_Some. rewrite Ho1, Hdk1 by done. by apply Hop.
Qed.

Lemma log_ext s D D' O L : log_holds s D O L -> (forall no, D no = D' no) -> log_holds s D' O L.
Proof. intros [H1 H2 H3 H3' H4 H5] He. split; try done. intros no. by rewrite H4. Qed.

#[export] Instance log_spec : @StoreSpec logst (log_store pid) :=
  Build_StoreSpec logst (log_store pid) dev (lsz - 1) log_loggable log_holds log_ext log_holds_data
    (fun s D O L no Hh _ => log_bread s D O L no Hh) log_set log_log log_rel.
End store.
