(* ===== verification/Fs.v ===== *)
(** * The file system (kernel/fs.c, kernel/fs.h)

    Block allocation, the inode table, inode contents, directories and path
    names, over the disk interface of Store.v.  An inode pointer is its index
    in [itable]; a sleep lock is the pid that holds it, 0 for none, and
    sleeping on a held one is [diverge].  Names and paths are lists of bytes
    without the terminating NUL. *)

From S2P Require Import Prelude Riscv Mem Kalloc Vm Block Bio Store.

(** ** On-disk format (fs.h) *)

Definition ROOTINO : Z := 1.
Definition FSMAGIC : Z := 0x10203040.
Definition NDIRECT : Z := 12.
Definition NINDIRECT : Z := BSIZE / 4.
Definition MAXFILE : Z := NDIRECT + NINDIRECT.

Record superblock := mk_superblock {
  magic : Z; sb_size : Z; nblocks : Z; ninodes : Z; nlog : Z; logstart : Z; inodestart : Z; bmapstart : Z }.

(** [sizeof(struct dinode)] is 64. *)
Definition IPB : Z := BSIZE / 64.
Definition IBLOCK (i : Z) (sb : superblock) : Z := i / IPB + inodestart sb.
Definition BPB : Z := BSIZE * 8.
Definition BBLOCK (b : Z) (sb : superblock) : Z := b / BPB + bmapstart sb.
Definition DIRSIZ : nat := 14.

(** File types (stat.h). *)
Definition T_DIR : Z := 1.
Definition T_FILE : Z := 2.
Definition T_DEVICE : Z := 3.

(** ** State *)

(** The fields of [struct inode] (file.h). *)
Record inode := mk_inode {
  idev : Z; inum : Z; iref : Z; ilk : Z; ivalid : bool;
  itype : Z; imajor : Z; iminor : Z; nlink : Z; isize : Z; addrs : list Z }.

#[export] Instance inode_inhabited : Inhabited inode :=
  populate (mk_inode 0 0 0 0 false 0 0 0 0 0 (repeat 0 13)).

Definition NINODEn : nat := Z.to_nat NINODE.

Record fsst (St : Type) := mk_fsst {
  store : St; km : phys; itable : list inode; sb : superblock }.
Arguments mk_fsst {_}.
Arguments store {_}.
Arguments km {_}.
Arguments itable {_}.
Arguments sb {_}.

Definition set_store {St} (x : St) (s : fsst St) : fsst St := mk_fsst x (km s) (itable s) (sb s).
Definition set_km {St} (x : phys) (s : fsst St) : fsst St := mk_fsst (store s) x (itable s) (sb s).
Definition set_itable {St} (x : list inode) (s : fsst St) : fsst St := mk_fsst (store s) (km s) x (sb s).
Definition set_sb {St} (x : superblock) (s : fsst St) : fsst St := mk_fsst (store s) (km s) (itable s) x.

Definition with_ref (n : Z) (i : inode) : inode :=
  mk_inode (idev i) (inum i) n (ilk i) (ivalid i) (itype i) (imajor i) (iminor i) (nlink i) (isize i) (addrs i).
Definition with_lk (p : Z) (i : inode) : inode :=
  mk_inode (idev i) (inum i) (iref i) p (ivalid i) (itype i) (imajor i) (iminor i) (nlink i) (isize i) (addrs i).
Definition with_ivalid (v : bool) (i : inode) : inode :=
  mk_inode (idev i) (inum i) (iref i) (ilk i) v (itype i) (imajor i) (iminor i) (nlink i) (isize i) (addrs i).
Definition with_type (t : Z) (i : inode) : inode :=
  mk_inode (idev i) (inum i) (iref i) (ilk i) (ivalid i) t (imajor i) (iminor i) (nlink i) (isize i) (addrs i).
Definition with_dev (ma mi : Z) (i : inode) : inode :=
  mk_inode (idev i) (inum i) (iref i) (ilk i) (ivalid i) (itype i) ma mi (nlink i) (isize i) (addrs i).
Definition with_nlink (n : Z) (i : inode) : inode :=
  mk_inode (idev i) (inum i) (iref i) (ilk i) (ivalid i) (itype i) (imajor i) (iminor i) n (isize i) (addrs i).
Definition with_size (n : Z) (i : inode) : inode :=
  mk_inode (idev i) (inum i) (iref i) (ilk i) (ivalid i) (itype i) (imajor i) (iminor i) (nlink i) n (addrs i).
Definition with_addr (k : nat) (a : Z) (i : inode) : inode :=
  mk_inode (idev i) (inum i) (iref i) (ilk i) (ivalid i) (itype i) (imajor i) (iminor i) (nlink i) (isize i)
    (<[k := a]> (addrs i)).

(** The copy of a disk inode in its block: [(struct dinode* )bp->data + inum%IPB]. *)
Definition dip_off (ino : Z) : nat := Z.to_nat (64 * (ino mod IPB)).

(** [ip->type = dip->type; ...] *)
Definition load_dinode (d : list Z) (o : nat) (i : inode) : inode :=
  mk_inode (idev i) (inum i) (iref i) (ilk i) (ivalid i)
    (to_short (rd 2 d o)) (to_short (rd 2 d (o + 2))) (to_short (rd 2 d (o + 4))) (to_short (rd 2 d (o + 6)))
    (rd 4 d (o + 8)) ((fun k : nat => rd 4 d (o + 12 + 4 * k)) <$> seq 0 13).

(** [dip->type = ip->type; ...] *)
Definition store_dinode (i : inode) (o : nat) (d : list Z) : list Z :=
  let d := wr 2 d o (itype i) in
  let d := wr 2 d (o + 2) (imajor i) in
  let d := wr 2 d (o + 4) (iminor i) in
  let d := wr 2 d (o + 6) (nlink i) in
  let d := wr 4 d (o + 8) (isize i) in
  splice d (o + 12) (concat (le_bytes 4 <$> addrs i)).

(** Where [readi] and [writei] copy to and from: [user_dst] with its address,
    or a kernel buffer. *)
Inductive dest := KBuf | UDst (pagetable dst : Z).
Inductive source := KSrc (bytes : list Z) | USrc (pagetable src : Z).

(** ** Strings in kernel buffers *)

Fixpoint strncmp_l (n : nat) (p q : list Z) : Z :=
  match n with
  | O => 0
  | S n =>
      let a := hd 0 p in
      let b := hd 0 q in
      if negb (a =? 0) && (a =? b) then strncmp_l n (drop 1 p) (drop 1 q) else a - b
  end.

Definition namecmp (s t : list Z) : Z := strncmp_l DIRSIZ s t.

(** [strncpy(s, t, n)]: the [n] bytes of [s]. *)
Fixpoint strncpy_l (n : nat) (t : list Z) : list Z :=
  match n with
  | O => []
  | S n' =>
      let c := hd 0 t in
      if c =? 0 then repeat 0 n else c :: strncpy_l n' (drop 1 t)
  end.

(** ** Paths *)

Definition SLASH : Z := 47.

(** [while( *path == '/') path++;] *)
Fixpoint skip_slashes (path : list Z) : list Z :=
  match path with
  | c :: p => if c =? SLASH then skip_slashes p else path
  | [] => []
  end.

(** [while( *path != '/' && *path != 0) path++;]: the element and what follows. *)
Fixpoint span_elem (path : list Z) : list Z * list Z :=
  match path with
  | c :: p => if c =? SLASH then ([], path) else let (e, r) := span_elem p in (c :: e, r)
  | [] => ([], [])
  end.

(** The returned path and the array [name]; [None] when there is no element. *)
Definition skipelem (path name : list Z) : option (list Z * list Z) :=
  let path := skip_slashes path in
  match path with
  | [] => None
  | _ =>
      let (e, rest) := span_elem path in
      let len := length e in
      let name := if (DIRSIZ <=? len)%nat then take DIRSIZ e
                  else e ++ 0 :: drop (len + 1) name in
      Some (skip_slashes rest, name)
  end.

(** ** Operations *)

Section fs.
Context `{Linker} {St : Type} {ST : Store St} (pid : Z).
Implicit Types (ip dp b : nat).

Definition on_store {A} (k : M St A) : M (fsst St) A := zoom store set_store k.
Definition on_km {A} (k : M phys A) : M (fsst St) A := zoom km set_km k.

Definition upd_inode ip (f : inode -> inode) : M (fsst St) unit :=
  modify (fun s => set_itable (<[ip := f (itable s !!! ip)]> (itable s)) s).
Definition get_inode ip : M (fsst St) inode := gets (fun s => itable s !!! ip).
Definition get_data b : M (fsst St) (list Z) := gets (fun s => st_data (store s) b).

Definition readsb (dev : Z) : M (fsst St) superblock :=
  bp ← on_store (st_bread dev 1);
  d ← get_data bp;
  on_store (st_brelse bp);;
  mret (mk_superblock (rd 4 d 0) (rd 4 d 4) (rd 4 d 8) (rd 4 d 12) (rd 4 d 16) (rd 4 d 20) (rd 4 d 24) (rd 4 d 28)).

Definition fsinit (dev : Z) : M (fsst St) unit :=
  x ← readsb dev;
  modify (set_sb x);;
  if negb (magic x =? FSMAGIC) then panic "invalid file system"
  else on_store (st_init dev (logstart x) (nlog x)).

Definition bzero (dev bno : Z) : M (fsst St) unit :=
  bp ← on_store (st_bread dev bno);
  on_store (st_write bp (repeat 0 (Z.to_nat BSIZE)));;
  on_store (st_log bp);;
  on_store (st_brelse bp).

(** *** Blocks *)

(** [bp->data[bi/8] & (1 << (bi % 8))] *)
Definition bit_set (d : list Z) (bi : Z) : bool :=
  negb (Z.land (d !!! Z.to_nat (bi / 8)) (Z.shiftl 1 (bi mod 8)) =? 0).
(** [|= m] and [&= ~m] *)
Definition set_bit (d : list Z) (bi : Z) : list Z :=
  <[Z.to_nat (bi / 8) := Z.lor (d !!! Z.to_nat (bi / 8)) (Z.shiftl 1 (bi mod 8))]> d.
Definition clear_bit (d : list Z) (bi : Z) : list Z :=
  <[Z.to_nat (bi / 8) := Z.ldiff (d !!! Z.to_nat (bi / 8)) (Z.shiftl 1 (bi mod 8))]> d.

(** The inner loop of [balloc]: the first clear bit among the next [k]. *)
Fixpoint find_free (k : nat) (d : list Z) (bi : Z) : option Z :=
  match k with
  | O => None
  | S k => if bit_set d bi then find_free k d (bi + 1) else Some bi
  end.

(** [for(b = 0; b < sb.size; b += BPB)], [k] iterations left. *)
Fixpoint balloc_loop (k : nat) (dev b : Z) : M (fsst St) Z :=
  match k with
  | O => mret 0
  | S k =>
      x ← gets sb;
      bp ← on_store (st_bread dev (BBLOCK b x));
      d ← get_data bp;
      match find_free (Z.to_nat (Z.min BPB (sb_size x - b))) d 0 with
      | Some bi =>
          on_store (st_write bp (set_bit d bi));;
          on_store (st_log bp);;
          on_store (st_brelse bp);;
          bzero dev (b + bi);;
          mret (b + bi)
      | None =>
          on_store (st_brelse bp);;
          balloc_loop k dev (b + BPB)
      end
  end.

Definition balloc (dev : Z) : M (fsst St) Z :=
  x ← gets sb;
  balloc_loop (Z.to_nat ((sb_size x + BPB - 1) / BPB)) dev 0.

Definition bfree (dev b : Z) : M (fsst St) unit :=
  x ← gets sb;
  bp ← on_store (st_bread dev (BBLOCK b x));
  d ← get_data bp;
  let bi := b mod BPB in
  if negb (bit_set d bi) then panic "freeing free block"
  else
    on_store (st_write bp (clear_bit d bi));;
    on_store (st_log bp);;
    on_store (st_brelse bp).

(** *** The inode table *)

Fixpoint iinit_loop (k : nat) (i : nat) : M (fsst St) unit :=
  match k with
  | O => mret tt
  | S k => upd_inode i (with_lk 0);; iinit_loop k (i + 1)
  end.
Definition iinit : M (fsst St) unit := iinit_loop NINODEn 0.

(** The scan of [iget]: a match, or else the first empty slot. *)
Fixpoint iget_scan (k : nat) (i : nat) (t : list inode) (dev ino : Z) (empty : option nat) : nat + option nat :=
  match k with
  | O => inr empty
  | S k =>
      if (0 <? iref (t !!! i)) && (idev (t !!! i) =? dev) && (inum (t !!! i) =? ino) then inl i
      else iget_scan k (i + 1) t dev ino
             (match empty with None => if iref (t !!! i) =? 0 then Some i else None | Some _ => empty end)
  end.

Definition iget (dev ino : Z) : M (fsst St) nat :=
  t ← gets itable;
  match iget_scan NINODEn 0 t dev ino None with
  | inl ip => upd_inode ip (fun i => with_ref (to_int (iref i + 1)) i);; mret ip
  | inr None => panic "iget: no inodes"
  | inr (Some ip) =>
      upd_inode ip (fun i => mk_inode dev ino 1 (ilk i) false (itype i) (imajor i) (iminor i) (nlink i) (isize i) (addrs i));;
      mret ip
  end.

Fixpoint ialloc_loop (k : nat) (dev type ino : Z) : M (fsst St) (option nat) :=
  match k with
  | O => mret None
  | S k =>
      x ← gets sb;
      bp ← on_store (st_bread dev (IBLOCK ino x));
      d ← get_data bp;
      if to_short (rd 2 d (dip_off ino)) =? 0 then
        on_store (st_write bp (wr 2 (splice d (dip_off ino) (repeat 0 64)) (dip_off ino) type));;
        on_store (st_log bp);;
        on_store (st_brelse bp);;
        ip ← iget dev ino;
        mret (Some ip)
      else
        on_store (st_brelse bp);;
        ialloc_loop k dev type (ino + 1)
  end.

Definition ialloc (dev type : Z) : M (fsst St) (option nat) :=
  x ← gets sb;
  ialloc_loop (Z.to_nat (ninodes x - 1)) dev type 1.

Definition iupdate ip : M (fsst St) unit :=
  x ← gets sb;
  i ← get_inode ip;
  bp ← on_store (st_bread (idev i) (IBLOCK (inum i) x));
  d ← get_data bp;
  on_store (st_write bp (store_dinode i (dip_off (inum i)) d));;
  on_store (st_log bp);;
  on_store (st_brelse bp).

Definition idup ip : M (fsst St) nat :=
  upd_inode ip (fun i => with_ref (to_int (iref i + 1)) i);; mret ip.

Definition acquiresleep_inode ip : M (fsst St) unit :=
  i ← get_inode ip;
  if ilk i =? 0 then upd_inode ip (with_lk pid) else diverge.

Definition ilock ip : M (fsst St) unit :=
  i ← get_inode ip;
  if iref i <? 1 then panic "ilock"
  else
    acquiresleep_inode ip;;
    i ← get_inode ip;
    if negb (ivalid i) then
      x ← gets sb;
      bp ← on_store (st_bread (idev i) (IBLOCK (inum i) x));
      d ← get_data bp;
      upd_inode ip (load_dinode d (dip_off (inum i)));;
      on_store (st_brelse bp);;
      upd_inode ip (with_ivalid true);;
      i ← get_inode ip;
      if itype i =? 0 then panic "ilock: no type" else mret tt
    else mret tt.

(** [ilk] is the pid of the lock's holder, 0 when it is free; pids are not 0, so
    [holdingsleep] is a comparison. *)
Definition iunlock ip : M (fsst St) unit :=
  i ← get_inode ip;
  if negb (ilk i =? pid) || (iref i <? 1) then panic "iunlock"
  else upd_inode ip (with_lk 0).

(** *** Inode contents *)

Definition bmap ip (bn : Z) : M (fsst St) Z :=
  i ← get_inode ip;
  if bn <? NDIRECT then
    let addr := addrs i !!! Z.to_nat bn in
    if addr =? 0 then
      addr ← balloc (idev i);
      if addr =? 0 then mret 0
      else upd_inode ip (with_addr (Z.to_nat bn) addr);; mret addr
    else mret addr
  else
    let bn := bn - NDIRECT in
    if bn <? NINDIRECT then
      addr ← (if addrs i !!! Z.to_nat NDIRECT =? 0 then
                addr ← balloc (idev i);
                if addr =? 0 then mret 0
                else upd_inode ip (with_addr (Z.to_nat NDIRECT) addr);; mret addr
              else mret (addrs i !!! Z.to_nat NDIRECT));
      if addr =? 0 then mret 0
      else
        bp ← on_store (st_bread (idev i) addr);
        a ← get_data bp;
        let addr := rd 4 a (Z.to_nat (4 * bn)) in
        if addr =? 0 then
          addr ← balloc (idev i);
          (if negb (addr =? 0) then
             a ← get_data bp;
             on_store (st_write bp (wr 4 a (Z.to_nat (4 * bn)) addr));;
             on_store (st_log bp)
           else mret tt);;
          on_store (st_brelse bp);;
          mret addr
        else
          on_store (st_brelse bp);;
          mret addr
    else panic "bmap: out of range".

Fixpoint itrunc_direct (k : nat) ip (i : nat) : M (fsst St) unit :=
  match k with
  | O => mret tt
  | S k =>
      x ← get_inode ip;
      (if negb (addrs x !!! i =? 0) then
         bfree (idev x) (addrs x !!! i);;
         upd_inode ip (with_addr i 0)
       else mret tt);;
      itrunc_direct k ip (i + 1)
  end.

(** [if(a[j]) bfree(ip->dev, a[j]);] *)
Fixpoint itrunc_indirect (k : nat) (dev : Z) bp (j : nat) : M (fsst St) unit :=
  match k with
  | O => mret tt
  | S k =>
      a ← get_data bp;
      (if negb (rd 4 a (4 * j) =? 0) then bfree dev (rd 4 a (4 * j)) else mret tt);;
      itrunc_indirect k dev bp (j + 1)
  end.

Definition itrunc ip : M (fsst St) unit :=
  itrunc_direct (Z.to_nat NDIRECT) ip 0;;
  i ← get_inode ip;
  (if negb (addrs i !!! Z.to_nat NDIRECT =? 0) then
     bp ← on_store (st_bread (idev i) (addrs i !!! Z.to_nat NDIRECT));
     itrunc_indirect (Z.to_nat NINDIRECT) (idev i) bp 0;;
     on_store (st_brelse bp);;
     bfree (idev i) (addrs i !!! Z.to_nat NDIRECT);;
     upd_inode ip (with_addr (Z.to_nat NDIRECT) 0)
   else mret tt);;
  upd_inode ip (with_size 0);;
  iupdate ip.

Definition iput ip : M (fsst St) unit :=
  i ← get_inode ip;
  (if (iref i =? 1) && ivalid i && (nlink i =? 0) then
     acquiresleep_inode ip;;
     itrunc ip;;
     upd_inode ip (with_type 0);;
     iupdate ip;;
     upd_inode ip (with_ivalid false);;
     upd_inode ip (with_lk 0)
   else mret tt);;
  upd_inode ip (fun i => with_ref (to_int (iref i - 1)) i).

Definition iunlockput ip : M (fsst St) unit := iunlock ip;; iput ip.

(** [struct stat]: dev, ino, type, nlink, size. *)
Definition stati ip : M (fsst St) (Z * Z * Z * Z * Z) :=
  i ← get_inode ip; mret (idev i, inum i, itype i, nlink i, isize i).

(** [either_copyout] and [either_copyin] (proc.c): the C result, and the bytes
    that reached a kernel buffer. *)
Definition either_copyout (d : dest) (src : list Z) : M phys (Z * list Z) :=
  match d with
  | KBuf => mret (0, src)
  | UDst pagetable dst => r ← copyout pagetable dst src; mret (r, [])
  end.

Definition either_copyin (d : source) (len : Z) : M phys (Z * list Z) :=
  match d with
  | KSrc bytes => mret (0, take (Z.to_nat len) bytes)
  | USrc pagetable src => copyin pagetable src len
  end.

(** [dst += m], [src += m] *)
Definition dest_add (d : dest) (m : Z) : dest :=
  match d with KBuf => KBuf | UDst p dst => UDst p (u64 (dst + m)) end.
Definition source_add (d : source) (m : Z) : source :=
  match d with KSrc l => KSrc (drop (Z.to_nat m) l) | USrc p src => USrc p (u64 (src + m)) end.

(** The loop of [readi]; [acc] is what has reached a kernel buffer. *)
Fixpoint readi_loop (fuel : nat) ip (dst : dest) (off n tot : Z) (acc : list Z) : M (fsst St) (Z * list Z) :=
  match fuel with
  | O => diverge
  | S fuel =>
      if tot <? n then
        addr ← bmap ip (off / BSIZE);
        if addr =? 0 then mret (tot, acc)
        else
          i ← get_inode ip;
          bp ← on_store (st_bread (idev i) addr);
          let m := Z.min (n - tot) (BSIZE - off mod BSIZE) in
          d ← get_data bp;
          '(r, bs) ← on_km (either_copyout dst (sub d (Z.to_nat (off mod BSIZE)) (Z.to_nat m)));
          on_store (st_brelse bp);;
          if r =? -1 then mret (u32 (-1), acc ++ bs)
          else readi_loop fuel ip (dest_add dst m) (u32 (off + m)) n (tot + m) (acc ++ bs)
      else mret (tot, acc)
  end.

Definition readi ip (dst : dest) (off n : Z) : M (fsst St) (Z * list Z) :=
  i ← get_inode ip;
  if (isize i <? off) || (u32 (off + n) <? off) then mret (0, [])
  else
    let n := if isize i <? u32 (off + n) then isize i - off else n in
    '(tot, bs) ← readi_loop (S (Z.to_nat n)) ip dst off n 0 [];
    mret (to_int tot, bs).

(** The loop of [writei]: the final [tot] and [off]. *)
Fixpoint writei_loop (fuel : nat) ip (src : source) (off n tot : Z) : M (fsst St) (Z * Z) :=
  match fuel with
  | O => diverge
  | S fuel =>
      if tot <? n then
        addr ← bmap ip (off / BSIZE);
        if addr =? 0 then mret (tot, off)
        else
          i ← get_inode ip;
          bp ← on_store (st_bread (idev i) addr);
          let m := Z.min (n - tot) (BSIZE - off mod BSIZE) in
          '(r, bs) ← on_km (either_copyin src m);
          d ← get_data bp;
          on_store (st_write bp (splice d (Z.to_nat (off mod BSIZE)) bs));;
          if r =? -1 then
            on_store (st_brelse bp);;
            mret (tot, off)
          else
            on_store (st_log bp);;
            on_store (st_brelse bp);;
            writei_loop fuel ip (source_add src m) (u32 (off + m)) n (tot + m)
      else mret (tot, off)
  end.

Definition writei ip (src : source) (off n : Z) : M (fsst St) Z :=
  i ← get_inode ip;
  if (isize i <? off) || (u32 (off + n) <? off) then mret (-1)
  else if MAXFILE * BSIZE <? u32 (off + n) then mret (-1)
  else
    '(tot, off) ← writei_loop (S (Z.to_nat n)) ip src off n 0;
    i ← get_inode ip;
    (if isize i <? off then upd_inode ip (with_size off) else mret tt);;
    iupdate ip;;
    mret (to_int tot).

(** *** Directories *)

(** [sizeof(struct dirent)] is 16. *)
Fixpoint dirlookup_loop (k : nat) dp (name : list Z) (off : Z) : M (fsst St) (option (nat * Z)) :=
  match k with
  | O => mret None
  | S k =>
      '(r, de) ← readi dp KBuf off 16;
      if negb (r =? 16) then panic "dirlookup read"
      else if rd 2 de 0 =? 0 then dirlookup_loop k dp name (off + 16)
      else if namecmp name (sub de 2 DIRSIZ) =? 0 then
        i ← get_inode dp;
        ip ← iget (idev i) (rd 2 de 0);
        mret (Some (ip, off))
      else dirlookup_loop k dp name (off + 16)
  end.

(** Number of iterations of [for(off = 0; off < dp->size; off += sizeof(de))]. *)
Definition ndirents (size : Z) : nat := Z.to_nat ((size + 15) / 16).

(** The inode and [*poff]. *)
Definition dirlookup dp (name : list Z) : M (fsst St) (option (nat * Z)) :=
  i ← get_inode dp;
  if negb (itype i =? T_DIR) then panic "dirlookup not DIR"
  else dirlookup_loop (ndirents (isize i)) dp name 0.

(** The offset of the first empty entry, or the end. *)
Fixpoint dirlink_loop (k : nat) dp (off : Z) : M (fsst St) Z :=
  match k with
  | O => mret off
  | S k =>
      '(r, de) ← readi dp KBuf off 16;
      if negb (r =? 16) then panic "dirlink read"
      else if rd 2 de 0 =? 0 then mret off
      else dirlink_loop k dp (off + 16)
  end.

Definition dirlink dp (name : list Z) (ino : Z) : M (fsst St) Z :=
  found ← dirlookup dp name;
  match found with
  | Some (ip, _) => iput ip;; mret (-1)
  | None =>
      i ← get_inode dp;
      off ← dirlink_loop (ndirents (isize i)) dp 0;
      let de := le_bytes 2 ino ++ strncpy_l DIRSIZ name in
      r ← writei dp (KSrc de) off 16;
      if negb (r =? 16) then mret (-1) else mret 0
  end.

(** *** Path names *)

(** [cwd] is [myproc()->cwd]; the result carries the array [name]. *)
Fixpoint namex_loop (fuel : nat) ip (path : list Z) (nameiparent : bool) (name : list Z)
    : M (fsst St) (option nat * list Z) :=
  match fuel with
  | O => diverge
  | S fuel =>
      match skipelem path name with
      | None =>
          if nameiparent then iput ip;; mret (None, name)
          else mret (Some ip, name)
      | Some (path, name) =>
          ilock ip;;
          i ← get_inode ip;
          if negb (itype i =? T_DIR) then iunlockput ip;; mret (None, name)
          else if nameiparent && (match path with [] => true | _ => false end) then
            iunlock ip;; mret (Some ip, name)
          else
            next ← dirlookup ip name;
            match next with
            | None => iunlockput ip;; mret (None, name)
            | Some (next, _) => iunlockput ip;; namex_loop fuel next path nameiparent name
            end
      end
  end.

Definition namex (cwd : nat) (path : list Z) (nameiparent : bool) (name : list Z)
    : M (fsst St) (option nat * list Z) :=
  ip ← (match path with
        | c :: _ => if c =? SLASH then iget ROOTDEV ROOTINO else idup cwd
        | [] => idup cwd
        end);
  namex_loop (S (length path)) ip path nameiparent name.

Definition namei (cwd : nat) (path : list Z) : M (fsst St) (option nat) :=
  '(r, _) ← namex cwd path false (repeat 0 DIRSIZ); mret r.

Definition nameiparent (cwd : nat) (path name : list Z) : M (fsst St) (option nat * list Z) :=
  namex cwd path true name.
End fs.
