(* ===== verification/FsBlock.v ===== *)
(** * Block allocation (kernel/fs.c)

    The free bitmap as a set of used blocks: [balloc] gives out a block that
    was free, zeroed, and [bfree] takes it back. *)

From S2P Require Import Prelude Riscv Mem Kalloc Vm Block Bio Store Fs.

(** ** Bits *)

Lemma land_pow2 x k : 0 <= k -> (Z.land x (Z.shiftl 1 k) =? 0) = negb (Z.testbit x k).
Proof.
  intros Hk. rewrite Z.shiftl_mul_pow2, Z.mul_1_l by done.
  assert (forall i, Z.testbit (Z.land x (2 ^ k)) i = Z.testbit x k && (k =? i)) as Ht.
  { intros i. rewrite Z.land_spec, Z.pow2_bits_eqb by done. destruct (Z.eqb_spec k i) as [->|]; [done|].
    by rewrite !andb_false_r. }
  destruct (Z.testbit x k) eqn:E; simpl.
  - apply Z.eqb_neq. intros E0. specialize (Ht k). rewrite E0, Z.bits_0, Z.eqb_refl in Ht. done.
  - apply Z.eqb_eq, Z.bits_inj'. intros i _. by rewrite Ht, Z.bits_0.
Qed.

Lemma bit_set_testbit d bi : 0 <= bi -> bit_set d bi = Z.testbit (d !!! Z.to_nat (bi / 8)) (bi mod 8).
Proof. intros. unfold bit_set. rewrite land_pow2, negb_involutive; [done|]. apply Z.mod_pos_bound. lia. Qed.

Lemma byte_bits x : 0 <= x < 256 <-> forall i, i < 0 \/ 8 <= i -> Z.testbit x i = false.
Proof.
  split.
  - intros Hx i [Hi|Hi]; [by apply Z.testbit_neg_r|]. destruct (decide (x = 0)) as [->|]; [apply Z.bits_0|].
    apply Z.bits_above_log2; [lia|]. apply Z.log2_lt_pow2; [lia|].
    apply Z.lt_le_trans with (2 ^ 8); [lia|]. by apply Z.pow_le_mono_r.
  - intros Hb. assert (x = x mod 2 ^ 8) as ->.
    { apply Z.bits_inj'. intros i Hi. rewrite Z.testbit_mod_pow2 by lia.
      destruct (Z.ltb_spec i 8); [done|]. simpl. apply Hb. lia. }
    apply Z.mod_pos_bound. lia.
Qed.

(** A disk block: [BSIZE] bytes. *)
Definition block_ok (d : list Z) : Prop := length d = Z.to_nat BSIZE /\ Forall (fun x => 0 <= x < 256) d.

Section bits.
Context (d : list Z) (Hd : block_ok d) (bi : Z) (Hbi : 0 <= bi < BPB).

Lemma bit_index : (Z.to_nat (bi / 8) < length d)%nat.
Proof.
  destruct Hd as [-> _]. unfold BPB, BSIZE in *. pose proof (Z.div_pos bi 8).
  pose proof (Z.div_lt_upper_bound bi 8 1024). lia.
Qed.

Lemma bit_byte : 0 <= d !!! Z.to_nat (bi / 8) < 256.
Proof.
  destruct Hd as [_ Hr]. destruct (lookup_lt_is_Some_2 d _ bit_index) as [x Hx].
  rewrite (list_lookup_total_correct _ _ _ Hx). by apply (Forall_lookup_1 _ _ _ _ Hr Hx).
Qed.

Lemma bit_upd_ok v : 0 <= v < 256 -> block_ok (<[Z.to_nat (bi / 8) := v]> d).
Proof. destruct Hd. intros. split; [by rewrite length_insert|by apply Forall_insert]. Qed.

Lemma bit_set_upd v bi' :
  0 <= bi' -> bit_set (<[Z.to_nat (bi / 8) := v]> d) bi' =
    if decide (bi' / 8 = bi / 8) then Z.testbit v (bi' mod 8) else bit_set d bi'.
Proof.
  intros Hb. rewrite !bit_set_testbit by done. pose proof (Z.div_pos bi' 8). pose proof (Z.div_pos bi 8). case_decide as E.
  - rewrite E, list_lookup_total_insert_eq; [done|apply bit_index].
  - rewrite list_lookup_total_insert_ne; [done|lia].
Qed.

Lemma bit_same bi' : bi' / 8 = bi / 8 -> (bi' mod 8 = bi mod 8 <-> bi' = bi).
Proof. intros E. split; [|by intros ->]. pose proof (Z.div_mod bi' 8). pose proof (Z.div_mod bi 8). lia. Qed.

Lemma set_bit_ok : block_ok (set_bit d bi).
Proof.
  apply bit_upd_ok. rewrite byte_bits. intros i Hi. pose proof (Z.mod_pos_bound bi 8).
  rewrite Z.lor_spec, (proj1 (byte_bits _) bit_byte), Z.shiftl_mul_pow2, Z.mul_1_l, Z.pow2_bits_eqb by lia.
  simpl. apply Z.eqb_neq. lia.
Qed.

Lemma clear_bit_ok : block_ok (clear_bit d bi).
Proof.
  apply bit_upd_ok. rewrite byte_bits. intros i Hi. by rewrite Z.ldiff_spec, (proj1 (byte_bits _) bit_byte).
Qed.

Lemma bit_set_set bi' : 0 <= bi' -> bit_set (set_bit d bi) bi' = bool_decide (bi' = bi) || bit_set d bi'.
Proof.
  intros Hb. unfold set_bit. rewrite bit_set_upd by done. pose proof (Z.mod_pos_bound bi 8). case_decide as E.
  - rewrite Z.lor_spec, Z.shiftl_mul_pow2, Z.mul_1_l, Z.pow2_bits_eqb, (bit_set_testbit d), E, orb_comm by lia.
    f_equal. case_bool_decide as E'; [subst; apply Z.eqb_refl|]. apply Z.eqb_neq. intros E2. apply E', bit_same; auto.
  - rewrite bool_decide_eq_false_2; [done|]. by intros ->.
Qed.

Lemma bit_set_clear bi' : 0 <= bi' -> bit_set (clear_bit d bi) bi' = negb (bool_decide (bi' = bi)) && bit_set d bi'.
Proof.
  intros Hb. unfold clear_bit. rewrite bit_set_upd by done. pose proof (Z.mod_pos_bound bi 8). case_decide as E.
  - rewrite Z.ldiff_spec, Z.shiftl_mul_pow2, Z.mul_1_l, Z.pow2_bits_eqb, (bit_set_testbit d), E, andb_comm by lia.
    do 2 f_equal. case_bool_decide as E'; [subst; apply Z.eqb_refl|]. apply Z.eqb_neq. intros E2. apply E', bit_same; auto.
  - rewrite bool_decide_eq_false_2; [done|]. by intros ->.
Qed.
End bits.

Lemma find_free_spec k d bi : 0 <= bi ->
  match find_free k d bi with
  | Some r => bi <= r < bi + k /\ bit_set d r = false
  | None => forall i, bi <= i < bi + k -> bit_set d i = true
  end.
Proof.
  revert bi. induction k as [|k IH]; intros bi Hb; cbn [find_free]; [intros; lia|].
  destruct (bit_set d bi) eqn:E; [|split; [lia|done]]. specialize (IH (bi + 1) ltac:(lia)).
  destruct (find_free k d (bi + 1)) as [r|]; [split; [lia|tauto]|].
  intros i Hi. destruct (decide (i = bi)) as [->|]; [done|]. apply IH. lia.
Qed.

(** ** The layout of the disk *)

(** The first block after the metadata, as mkfs lays out the disk. *)
Definition datastart (x : superblock) : Z := bmapstart x + sb_size x / BPB + 1.

(** The blocks of the free bitmap. *)
Definition bm (x : superblock) : gset Z :=
  list_to_set ((fun i : nat => bmapstart x + i) <$> seq 0 (Z.to_nat (sb_size x / BPB + 1))).

(** Block [b] is marked in use. *)
Definition used (x : superblock) (D : Z -> list Z) (b : Z) : bool := bit_set (D (BBLOCK b x)) (b mod BPB).

(** Every block is a block, and the metadata is marked in use. *)
Record fs_disk (x : superblock) (D : Z -> list Z) : Prop := {
  fd_blk b : 0 <= b < sb_size x -> block_ok (D b);
  fd_meta b : 0 <= b < datastart x -> used x D b = true;
}.

(** Held buffers of blocks that are in use and not metadata. *)
Definition open_ok (x : superblock) (D : Z -> list Z) (O : opens) : Prop :=
  forall b y, O !! b = Some y -> datastart x <= y.1 < sb_size x /\ used x D y.1 = true.

Definition zeros : list Z := repeat 0 (Z.to_nat BSIZE).

(** The disk after block [b] was allocated, and after it was freed. *)
Definition balloc_D (x : superblock) (D : Z -> list Z) (b : Z) : Z -> list Z :=
  <[b := zeros]> (<[BBLOCK b x := set_bit (D (BBLOCK b x)) (b mod BPB)]> D).
Definition bfree_D (x : superblock) (D : Z -> list Z) (b : Z) : Z -> list Z :=
  <[BBLOCK b x := clear_bit (D (BBLOCK b x)) (b mod BPB)]> D.

Section layout.
Context {St : Type} {ST : Store St} {SP : StoreSpec St}.

Record layout (x : superblock) : Prop := {
  ly_inodes : 0 <= ninodes x;
  ly_start : 1 < inodestart x;
  ly_bmap : inodestart x + ninodes x / IPB + 1 <= bmapstart x;
  ly_data : datastart x <= sb_size x < 2 ^ 31;
  ly_log b : inodestart x <= b < sb_size x -> sp_loggable b;
}.

(** The transaction can log [k] blocks beside the bitmap. *)
Definition room (x : superblock) (L : gset Z) (k : Z) : Prop := size (L ∪ bm x) + k <= sp_cap.

Lemma wp_store {A B} (k : M St A) (f : A -> M (fsst St) B) (s : fsst St) Q :
  wp (k (store s)) (fun a x => wp (f a (set_store x s)) Q) -> wp ((on_store k ≫= f) s) Q.
Proof. intros Hw. unfold on_store, zoom, mbind, M_bind. by destruct (k (store s)). Qed.

Lemma wp_store_last {A} (k : M St A) (s : fsst St) Q :
  wp (k (store s)) (fun a x => Q a (set_store x s)) -> wp (on_store k s) Q.
Proof. unfold on_store, zoom. by destruct (k (store s)). Qed.

Lemma set_store_store (s : fsst St) x y : set_store x (set_store y s) = set_store x s.
Proof. done. Qed.

Lemma not_open_empty no : not_open ∅ no.
Proof. intros b y Hy. by rewrite lookup_empty in Hy. Qed.

Section ops.
Context {D : Z -> list Z} {O : opens} {L : gset Z}.

Lemma wp_bread {B} (s : fsst St) no (f : nat -> M (fsst St) B) Q :
  holds (store s) D O L -> 0 <= no -> not_open O no -> size L + size O <= sp_cap ->
  (forall b st, O !! b = None -> holds st D (<[b := (no, false)]> O) L -> st_data st b = D no ->
    wp (f b (set_store st s)) Q) ->
  wp ((on_store (st_bread sp_dev no) ≫= f) s) Q.
Proof.
  intros Hh Hno Hop Hsz Hf. apply wp_store. eapply wp_mono; [by apply sp_bread|].
  intros b st [Hb Hh']. apply Hf; try done. eapply sp_data; [done|]. by rewrite lookup_insert_eq.
Qed.

Lemma wp_rel {B} (s : fsst St) b no (f : unit -> M (fsst St) B) Q :
  O !! b = None -> holds (store s) D (<[b := (no, false)]> O) L ->
  (forall st, holds st D O L -> wp (f tt (set_store st s)) Q) ->
  wp ((on_store (st_brelse b) ≫= f) s) Q.
Proof.
  intros Hb Hh Hf. apply wp_store. eapply wp_mono; [eapply sp_brelse; [done|by rewrite lookup_insert_eq]|].
  intros [] st Hh'. apply Hf. by rewrite delete_insert_eq, delete_id in Hh'.
Qed.

End ops.

Section upd.
Context {D : Z -> list Z} {O : opens} {L : gset Z}.

(** Change a held block and log it. *)
Lemma wp_setlog {B} (s : fsst St) b no d v (f : unit -> M (fsst St) B) Q :
  O !! b = None -> holds (store s) D (<[b := (no, d)]> O) L -> sp_loggable no -> size L < sp_cap ->
  (forall st, holds st (<[no := v]> D) (<[b := (no, false)]> O) ({[no]} ∪ L) -> wp (f tt (set_store st s)) Q) ->
  wp ((on_store (st_write b v);; on_store (st_log b) ≫= f) s) Q.
Proof.
  intros Hb Hh Hlg Hsz Hf. apply wp_store. eapply wp_mono; [eapply sp_write; [done|by rewrite lookup_insert_eq]|].
  intros [] st Hh1. apply wp_store. eapply wp_mono; [eapply sp_log; [done|by rewrite lookup_insert_eq|done|done]|].
  intros [] st2 Hh2. rewrite set_store_store. apply Hf. by rewrite !insert_insert_eq in Hh2.
Qed.

Lemma wp_setlog_rel {B} (s : fsst St) b no d v (f : unit -> M (fsst St) B) Q :
  O !! b = None -> holds (store s) D (<[b := (no, d)]> O) L -> sp_loggable no -> size L < sp_cap ->
  (forall st, holds st (<[no := v]> D) O ({[no]} ∪ L) -> wp (f tt (set_store st s)) Q) ->
  wp ((on_store (st_write b v);; on_store (st_log b);; on_store (st_brelse b) ≫= f) s) Q.
Proof.
  intros Hb Hh Hlg Hsz Hf. eapply wp_setlog; try done. intros st Hh1. eapply wp_store, wp_mono.
  - eapply sp_brelse; [done|by rewrite lookup_insert_eq].
  - intros [] st2 Hh2. rewrite set_store_store. apply Hf. by rewrite delete_insert_eq, delete_id in Hh2.
Qed.

Lemma wp_setlog_rel_last (s : fsst St) b no d v (Q : unit -> fsst St -> Prop) :
  O !! b = None -> holds (store s) D (<[b := (no, d)]> O) L -> sp_loggable no -> size L < sp_cap ->
  (forall st, holds st (<[no := v]> D) O ({[no]} ∪ L) -> Q tt (set_store st s)) ->
  wp ((on_store (st_write b v);; on_store (st_log b);; on_store (st_brelse b)) s) Q.
Proof.
  intros Hb Hh Hlg Hsz Hf.
  assert (forall s', on_store (st_brelse b) s' = (on_store (st_brelse b) ≫= mret) s') as E.
  { intros s'. unfold mbind, M_bind. by destruct (on_store _ s'). }
  eapply wp_setlog; try done. intros st Hh1. rewrite E. eapply wp_rel; [done|exact Hh1|].
  intros st2 Hh2. apply wp_ret. by apply Hf.
Qed.

Lemma bzero_spec (s : fsst St) bno :
  holds (store s) D O L -> 0 <= bno -> not_open O bno -> size L + size O <= sp_cap -> size L < sp_cap ->
  sp_loggable bno ->
  wp (bzero sp_dev bno s) (fun _ s' => exists st, s' = set_store st s /\
    holds st (<[bno := repeat 0 (Z.to_nat BSIZE)]> D) O ({[bno]} ∪ L)).
Proof.
  intros Hh Hno Hop Hsz Hsz' Hlg. unfold bzero. eapply wp_bread; try done. intros b st Hb Hh1 _.
  eapply wp_setlog_rel_last; try done. intros st' Hh2. rewrite set_store_store. eauto.
Qed.
End upd.

Lemma room_bm x L k no : room x L k -> no ∈ bm x -> room x ({[no]} ∪ L) k.
Proof. unfold room. intros Hr Hno. by replace ({[no]} ∪ L ∪ bm x) with (L ∪ bm x) by set_solver. Qed.

Lemma room_log x L k no : room x L k -> room x ({[no]} ∪ L) (k - 1).
Proof.
  unfold room. intros Hr. replace ({[no]} ∪ L ∪ bm x) with ({[no]} ∪ (L ∪ bm x)) by set_solver.
  pose proof (size_union_alt {[no]} (L ∪ bm x)) as E. rewrite size_singleton in E.
  assert (size ((L ∪ bm x) ∖ {[no]}) <= size (L ∪ bm x))%nat by (apply subseteq_size; set_solver). lia.
Qed.

Lemma room_size x L k : room x L k -> size L + k <= sp_cap.
Proof. unfold room. intros Hr. assert (size L <= size (L ∪ bm x))%nat by (apply subseteq_size; set_solver). lia. Qed.
(** ** The bitmap *)

Section bitmap.
Context (x : superblock) (Hly : layout x).

Lemma BBLOCK_range b : 0 <= b < sb_size x -> bmapstart x <= BBLOCK b x < datastart x.
Proof.
  intros Hb. unfold BBLOCK, datastart. change BPB with 8192.
  pose proof (Z.div_pos b 8192). pose proof (Z.div_le_mono b (sb_size x) 8192). lia.
Qed.

Lemma BBLOCK_bm b : 0 <= b < sb_size x -> BBLOCK b x ∈ bm x.
Proof.
  intros Hb. pose proof (BBLOCK_range b Hb) as Hr. apply elem_of_list_to_set, list_elem_of_fmap.
  exists (Z.to_nat (BBLOCK b x - bmapstart x)). unfold datastart in Hr. split; [lia|]. apply elem_of_seq. lia.
Qed.

Lemma ly_order : 1 < inodestart x < bmapstart x /\ bmapstart x < datastart x <= sb_size x.
Proof.
  destruct Hly as [? ? Hb ? _]. change IPB with 16 in Hb. unfold datastart in *. change BPB with 8192 in *.
  pose proof (Z.div_pos (ninodes x) 16). pose proof (Z.div_mod (sb_size x) 8192).
  pose proof (Z.mod_pos_bound (sb_size x) 8192). lia.
Qed.

Lemma bitmap_ok D b : fs_disk x D -> 0 <= b < sb_size x -> block_ok (D (BBLOCK b x)).
Proof. intros Hd Hb. apply Hd. pose proof (BBLOCK_range b Hb). pose proof ly_order. lia. Qed.

Lemma same_bit b b' : BBLOCK b' x = BBLOCK b x -> (b' mod BPB = b mod BPB <-> b' = b).
Proof.
  unfold BBLOCK. intros E. split; [|by intros ->]. change BPB with 8192 in *.
  pose proof (Z.div_mod b' 8192). pose proof (Z.div_mod b 8192). lia.
Qed.

Lemma used_upd D b d b' :
  used x (<[BBLOCK b x := d]> D) b' =
    if decide (BBLOCK b' x = BBLOCK b x) then bit_set d (b' mod BPB) else used x D b'.
Proof. unfold used. case_decide as E; [by rewrite E, fn_lookup_insert|by rewrite fn_lookup_insert_ne]. Qed.

Lemma used_set D b b' :
  fs_disk x D -> 0 <= b < sb_size x -> 0 <= b' ->
  used x (<[BBLOCK b x := set_bit (D (BBLOCK b x)) (b mod BPB)]> D) b' = bool_decide (b' = b) || used x D b'.
Proof.
  intros Hd Hb Hb'. pose proof (Z.mod_pos_bound b BPB). pose proof (Z.mod_pos_bound b' BPB).
  rewrite used_upd. case_decide as E.
  - rewrite bit_set_set by (by apply bitmap_ok || done || (change BPB with 8192 in *; lia)). unfold used. rewrite E.
    f_equal. apply bool_decide_ext. by apply same_bit.
  - rewrite bool_decide_eq_false_2; [done|by intros ->].
Qed.

Lemma used_clear D b b' :
  fs_disk x D -> 0 <= b < sb_size x -> 0 <= b' ->
  used x (<[BBLOCK b x := clear_bit (D (BBLOCK b x)) (b mod BPB)]> D) b' = negb (bool_decide (b' = b)) && used x D b'.
Proof.
  intros Hd Hb Hb'. pose proof (Z.mod_pos_bound b BPB). pose proof (Z.mod_pos_bound b' BPB).
  rewrite used_upd. case_decide as E.
  - rewrite bit_set_clear by (by apply bitmap_ok || done || (change BPB with 8192 in *; lia)). unfold used. rewrite E.
    do 2 f_equal. apply bool_decide_ext. by apply same_bit.
  - rewrite bool_decide_eq_false_2; [done|by intros ->].
Qed.

(** Blocks outside the bitmap do not matter to it. *)
Lemma used_other D no d b : 0 <= b < sb_size x -> ~ bmapstart x <= no < datastart x -> used x (<[no := d]> D) b = used x D b.
Proof.
  intros Hb Hno. unfold used. rewrite fn_lookup_insert_ne; [done|]. intros ->. apply Hno. by apply BBLOCK_range.
Qed.

Lemma zeros_ok : block_ok zeros.
Proof. split; [done|]. unfold zeros. apply Forall_forall. intros y Hy. apply list_elem_of_In, repeat_spec in Hy. lia. Qed.

Lemma fs_disk_upd D b d :
  fs_disk x D -> block_ok d -> ~ bmapstart x <= b < datastart x -> fs_disk x (<[b := d]> D).
Proof.
  intros Hd Hb Hn. pose proof ly_order. split.
  - intros b' Hb'. destruct (decide (b' = b)) as [->|]; [by rewrite fn_lookup_insert|].
    rewrite fn_lookup_insert_ne by done. by apply Hd.
  - intros b' Hb'. rewrite used_other by (done || lia). by apply Hd.
Qed.

Section alloc.
Context (D : Z -> list Z) (Hd : fs_disk x D) (b : Z) (Hb : datastart x <= b < sb_size x).

Lemma data_not_bm no : 0 <= no < sb_size x -> BBLOCK no x <> b.
Proof. intros Hno. pose proof (BBLOCK_range no Hno). lia. Qed.

Lemma data_in : 0 <= b < sb_size x.
Proof. pose proof ly_order. lia. Qed.

Lemma fs_disk_bm d : block_ok d ->
  (forall b', 0 <= b' < datastart x -> used x (<[BBLOCK b x := d]> D) b' = true) -> fs_disk x (<[BBLOCK b x := d]> D).
Proof.
  intros Hok Hu. split; [|done]. intros b' Hb'. destruct (decide (b' = BBLOCK b x)) as [->|]; [by rewrite fn_lookup_insert|].
  rewrite fn_lookup_insert_ne by done. by apply Hd.
Qed.

Lemma balloc_D_used b' : 0 <= b' < sb_size x -> used x (balloc_D x D b) b' = bool_decide (b' = b) || used x D b'.
Proof.
  intros Hb'. pose proof data_in. unfold balloc_D. rewrite used_other by (done || lia). apply used_set; done || lia.
Qed.

Lemma balloc_D_ok : fs_disk x (balloc_D x D b).
Proof.
  pose proof data_in. pose proof ly_order. apply fs_disk_upd; [|apply zeros_ok|lia]. apply fs_disk_bm.
  - apply set_bit_ok; [by apply bitmap_ok|apply Z.mod_pos_bound; done].
  - intros b' Hb'. rewrite used_set by (done || lia). rewrite (fd_meta _ _ Hd) by done. apply orb_true_r.
Qed.

Lemma balloc_D_at : balloc_D x D b b = zeros.
Proof. unfold balloc_D. by rewrite fn_lookup_insert. Qed.

Lemma balloc_D_other no : no <> b -> ~ bmapstart x <= no < datastart x -> balloc_D x D b no = D no.
Proof.
  intros Hne Hno. unfold balloc_D. rewrite !fn_lookup_insert_ne; [done| |done].
  intros E. apply Hno. rewrite <- E. apply BBLOCK_range, data_in.
Qed.

Lemma bfree_D_used b' : 0 <= b' < sb_size x -> used x (bfree_D x D b) b' = negb (bool_decide (b' = b)) && used x D b'.
Proof. intros Hb'. pose proof data_in. apply used_clear; done || lia. Qed.

Lemma bfree_D_ok : fs_disk x (bfree_D x D b).
Proof.
  pose proof data_in. pose proof ly_order. apply fs_disk_bm.
  - apply clear_bit_ok; [by apply bitmap_ok|apply Z.mod_pos_bound; done].
  - intros b' Hb'. rewrite used_clear by (done || lia). rewrite (fd_meta _ _ Hd) by done.
    rewrite bool_decide_eq_false_2 by lia. done.
Qed.

Lemma bfree_D_other no : ~ bmapstart x <= no < datastart x -> bfree_D x D b no = D no.
Proof.
  intros Hno. unfold bfree_D. rewrite fn_lookup_insert_ne; [done|].
  intros E. apply Hno. rewrite <- E. apply BBLOCK_range, data_in.
Qed.
End alloc.

End bitmap.

(** ** [balloc] and [bfree] *)

Lemma open_not_open x D O no : open_ok x D O -> used x D no = false \/ ~ datastart x <= no < sb_size x -> not_open O no.
Proof. intros Ho Hno b y Hy <-. destruct (Ho b y Hy) as [? Hu]. rewrite Hu in Hno. naive_solver. Qed.

Section alloc_ops.
Context (s0 : fsst St) (x := sb s0) (Hly : layout x) {D : Z -> list Z} (Hd : fs_disk x D)
  {O : opens} (HO : open_ok x D O) (HsO : (size O <= 1)%nat) {L : gset Z} (Hroom : room x L 1).

Lemma bm_not_open b : 0 <= b < sb_size x -> not_open O (BBLOCK b x).
Proof. intros Hb. eapply open_not_open; [done|]. right. pose proof (BBLOCK_range x b Hb). lia. Qed.

Lemma bm_loggable b : 0 <= b < sb_size x -> sp_loggable (BBLOCK b x) /\ 0 <= BBLOCK b x.
Proof.
  intros Hb. pose proof (BBLOCK_range x b Hb). pose proof (ly_order x Hly). split; [apply Hly|]; lia.
Qed.

Definition balloc_post (from : Z) (b : Z) (s' : fsst St) : Prop := exists st, s' = set_store st s0 /\
  ((b = 0 /\ holds st D O L /\ forall b', from <= b' < sb_size x -> used x D b' = true) \/
   (datastart x <= b < sb_size x /\ used x D b = false /\
    holds st (balloc_D x D b) O ({[b]} ∪ ({[BBLOCK b x]} ∪ L)))).

Lemma balloc_loop_spec (k : nat) (j : Z) st :
  0 <= j -> j + k = (sb_size x + BPB - 1) / BPB -> holds st D O L ->
  wp (balloc_loop k sp_dev (j * BPB) (set_store st s0)) (balloc_post (j * BPB)).
Proof.
  pose proof (room_size _ _ _ Hroom) as Hcap. pose proof (ly_order x Hly) as Hord.
  revert j st. induction k as [|k IH]; intros j st Hj Hk Hh; cbn [balloc_loop]; change BPB with 8192 in *.
  { apply wp_ret. exists st. split; [done|]. left. split; [done|]. split; [done|]. intros b' Hb'.
    pose proof (Z.div_mod (sb_size x + 8192 - 1) 8192). pose proof (Z.mod_pos_bound (sb_size x + 8192 - 1) 8192). lia. }
  apply wp_gets. cbn [sb set_store]. fold x.
  assert (0 <= j * 8192 < sb_size x) as Hjx.
  { pose proof (Z.div_mod (sb_size x + 8192 - 1) 8192). pose proof (Z.mod_pos_bound (sb_size x + 8192 - 1) 8192). lia. }
  assert (forall bi, 0 <= bi < 8192 -> BBLOCK (j * 8192 + bi) x = BBLOCK (j * 8192) x /\ (j * 8192 + bi) mod 8192 = bi) as Hbb.
  { intros bi Hbi. unfold BBLOCK. change BPB with 8192. rewrite Z.div_add_l, Z.div_mul, Z.div_small by lia.
    split; [lia|]. rewrite Z.add_comm, Z.mod_add, Z.mod_small; lia. }
  destruct (bm_loggable _ Hjx) as [Hlg Hge].
  eapply wp_bread; [exact Hh|done|by apply bm_not_open|lia|]. intros bp st1 Hbp Hh1 Hd1. apply wp_gets.
  cbn [store set_store]. rewrite Hd1.
  pose proof (find_free_spec (Z.to_nat (Z.min 8192 (sb_size x - j * 8192))) (D (BBLOCK (j * 8192) x)) 0 ltac:(lia)) as Hff.
  destruct (find_free _ _ _) as [bi|].
  - destruct Hff as [Hbi Hfree]. destruct (Hbb bi ltac:(lia)) as [Eb Em].
    assert (used x D (j * 8192 + bi) = false) as Hun by (unfold used; change BPB with 8192; by rewrite Eb, Em).
    assert (datastart x <= j * 8192 + bi) as Hdata.
    { destruct (Z.lt_ge_cases (j * 8192 + bi) (datastart x)) as [Hlt|]; [|done].
      rewrite (fd_meta _ _ Hd) in Hun by lia. done. }
    eapply wp_setlog_rel; [done|exact Hh1|done|lia|]. intros st2 Hh2. cbn [set_store].
    pose proof (room_bm x L 1 _ Hroom (BBLOCK_bm x _ Hjx)) as Hroom'. pose proof (room_size _ _ _ Hroom').
    apply wp_bind. eapply wp_mono; [eapply bzero_spec; [exact Hh2|lia| |lia|lia|apply Hly; lia]|].
    { eapply open_not_open; [done|by left]. }
    intros [] s' (st3 & -> & Hh3). apply wp_ret. exists st3. split; [done|]. right. split; [lia|]. split; [done|].
    unfold balloc_D. change BPB with 8192. by rewrite Eb, Em.
  - eapply wp_rel; [done|exact Hh1|]. intros st2 Hh2. rewrite !set_store_store.
    replace (j * 8192 + 8192) with ((j + 1) * 8192) by lia.
    eapply wp_mono; [apply IH; [lia|lia|done]|]. intros b s' (st3 & -> & [(-> & Hh3 & Hall)|Hr]); exists st3; split; try done.
    + left. split; [done|]. split; [done|]. intros b' Hb'. destruct (Z.lt_ge_cases b' ((j + 1) * 8192)); [|apply Hall; lia].
      destruct (Hbb (b' - j * 8192) ltac:(lia)) as [Eb Em]. replace (j * 8192 + (b' - j * 8192)) with b' in * by lia.
      unfold used. change BPB with 8192. rewrite Eb, Em. apply Hff. lia.
    + by right.
Qed.

Lemma balloc_spec : holds (store s0) D O L -> wp (balloc sp_dev s0) (balloc_post 0).
Proof.
  intros Hh. unfold balloc. apply wp_gets. fold x. pose proof (ly_order x Hly) as Hord.
  replace s0 with (set_store (store s0) s0) at 1 by (by destruct s0).
  change 0 with (0 * BPB) at 2. change 0 with (0 * BPB) at 1.
  apply balloc_loop_spec; [done| |done]. change BPB with 8192.
  rewrite Z2Nat.id; [lia|]. apply Z.div_pos; lia.
Qed.

Lemma bfree_spec b :
  holds (store s0) D O L -> datastart x <= b < sb_size x -> used x D b = true ->
  wp (bfree sp_dev b s0) (fun _ s' => exists st, s' = set_store st s0 /\
    holds st (bfree_D x D b) O ({[BBLOCK b x]} ∪ L)).
Proof.
  intros Hh Hb Hu. pose proof (ly_order x Hly) as Hord. assert (0 <= b < sb_size x) as Hb' by lia.
  pose proof (room_size _ _ _ Hroom). destruct (bm_loggable _ Hb') as [Hlg Hge].
  unfold bfree. apply wp_gets. fold x. eapply wp_bread; [exact Hh|done|by apply bm_not_open|lia|].
  intros bp st1 Hbp Hh1 Hd1. apply wp_gets. cbn [store set_store]. rewrite Hd1. unfold used in Hu. rewrite Hu. cbn [negb].
  eapply wp_setlog_rel_last; [done|exact Hh1|done|lia|]. intros st2 Hh2. rewrite set_store_store. eauto.
Qed.
End alloc_ops.
End layout.
