(* ===== verification/FsInode.v ===== *)
(** * Inodes on disk and in the table (kernel/fs.c)

    The 64 bytes of a disk inode, [iupdate] and [ilock] as writing and
    reading them, and the inode table, which never holds the same inode
    twice. *)

From S2P Require Import Prelude Riscv Mem Kalloc Vm Block Bio Store Fs FsBlock.

(** ** The disk inode *)

Definition dinode_bytes (i : inode) : list Z :=
  le_bytes 2 (itype i) ++ le_bytes 2 (imajor i) ++ le_bytes 2 (iminor i) ++ le_bytes 2 (nlink i) ++
  le_bytes 4 (isize i) ++ words (addrs i).

(** The values fit the fields of [struct dinode]. *)
Record inode_fits (i : inode) : Prop := {
  if_type : - 2 ^ 15 <= itype i < 2 ^ 15;
  if_major : - 2 ^ 15 <= imajor i < 2 ^ 15;
  if_minor : - 2 ^ 15 <= iminor i < 2 ^ 15;
  if_nlink : - 2 ^ 15 <= nlink i < 2 ^ 15;
  if_size : 0 <= isize i < 2 ^ 32;
  if_addrs : Forall (fun a => 0 <= a < 2 ^ 32) (addrs i);
  if_len : length (addrs i) = 13%nat;
}.

Lemma length_dinode_bytes i : length (addrs i) = 13%nat -> length (dinode_bytes i) = 64%nat.
Proof. intros E. unfold dinode_bytes. rewrite !length_app, !length_le_bytes, length_words, E. done. Qed.

Lemma store_dinode_splice i o d :
  length (addrs i) = 13%nat -> (o + 64 <= length d)%nat -> store_dinode i o d = splice d o (dinode_bytes i).
Proof.
  intros E Hl. unfold store_dinode, wr, dinode_bytes. fold (words (addrs i)).
  pose proof (length_words (addrs i)) as Ew. rewrite E in Ew.
  rewrite !app_assoc. 
  rewrite <- !splice_adj; rewrite ?length_app, ?length_le_bytes, ?Ew; try lia.
  rewrite ?Nat.add_assoc. simpl. f_equal; [|lia]. repeat (f_equal; try lia).
Qed.

Lemma to_short_bytes v : - 2 ^ 15 <= v < 2 ^ 15 -> to_short (le_val (le_bytes 2 v)) = v.
Proof.
  intros Hv. rewrite le_val_bytes. change (256 ^ Z.of_nat 2) with (2 ^ 16). unfold sint. change (16 - 1) with 15.
  rewrite <- Z.add_mod_idemp_l, Z.mod_mod, Z.add_mod_idemp_l by lia. rewrite Z.mod_small; lia.
Qed.

(** [i] with the fields kept only in memory taken from [j]. *)
Definition on_mem (i j : inode) : inode :=
  mk_inode (idev j) (inum j) (iref j) (ilk j) (ivalid j)
    (itype i) (imajor i) (iminor i) (nlink i) (isize i) (addrs i).

Lemma load_dinode_sub d o j : (o + 64 <= length d)%nat -> load_dinode d o j = load_dinode (sub d o 64) 0 j.
Proof.
  intros Hl. unfold load_dinode, rd. rewrite !sub_sub by lia. rewrite Nat.add_0_r. f_equal.
  apply list_fmap_ext. intros i k [-> Hk]%lookup_seq. by rewrite sub_sub, Nat.add_assoc by lia.
Qed.

(** Reading back what [iupdate] wrote. *)
Lemma load_dinode_bytes i j : inode_fits i -> load_dinode (dinode_bytes i) 0 j = on_mem i j.
Proof.
  intros [H1 H2 H3 H4 H5 H6 H7]. unfold load_dinode, on_mem.
  change (rd 2 (dinode_bytes i) 0) with (le_val (le_bytes 2 (itype i))).
  change (rd 2 (dinode_bytes i) (0 + 2)) with (le_val (le_bytes 2 (imajor i))).
  change (rd 2 (dinode_bytes i) (0 + 4)) with (le_val (le_bytes 2 (iminor i))).
  change (rd 2 (dinode_bytes i) (0 + 6)) with (le_val (le_bytes 2 (nlink i))).
  change (rd 4 (dinode_bytes i) (0 + 8)) with (le_val (le_bytes 4 (isize i))).
  rewrite !to_short_bytes, le_val_bytes by done. change (256 ^ Z.of_nat 4) with (2 ^ 32).
  rewrite (Z.mod_small (isize i)) by done. f_equal. apply list_eq. intros k. rewrite list_lookup_fmap.
  destruct (decide (k < 13)%nat) as [Hk|Hk].
  - destruct (lookup_lt_is_Some_2 (addrs i) k) as [a Ha]; [lia|]. rewrite Ha, lookup_seq_lt by done. simpl.
    f_equal. apply rd_words; [done|]. by apply (Forall_lookup_1 _ _ _ _ H6 Ha).
  - rewrite !lookup_ge_None_2 by (rewrite ?length_seq; lia). done.
Qed.

(** The disk inode at offset [o] of a block. *)
Definition dinode_at (d : list Z) (o : nat) (i : inode) : Prop := sub d o 64 = dinode_bytes i.

Lemma load_store_dinode i j o d :
  inode_fits i -> (o + 64 <= length d)%nat -> load_dinode (store_dinode i o d) o j = on_mem i j.
Proof.
  intros Hi Hl. pose proof (length_dinode_bytes i (if_len _ Hi)) as E.
  rewrite store_dinode_splice by (done || apply Hi).
  rewrite load_dinode_sub by (rewrite length_splice; rewrite ?E; lia).
  rewrite <- E, sub_splice by lia. by apply load_dinode_bytes.
Qed.

Lemma dip_off_range ino : (dip_off ino + 64 <= Z.to_nat BSIZE)%nat.
Proof. unfold dip_off. change IPB with 16. change BSIZE with 1024. pose proof (Z.mod_pos_bound ino 16). lia. Qed.

(** Two inodes of one block do not overlap. *)
Lemma dip_off_disjoint ino ino' :
  ino / IPB = ino' / IPB -> ino <> ino' -> (dip_off ino + 64 <= dip_off ino' \/ dip_off ino' + 64 <= dip_off ino)%nat.
Proof.
  unfold dip_off. change IPB with 16. intros E Hne. pose proof (Z.mod_pos_bound ino 16). pose proof (Z.mod_pos_bound ino' 16).
  pose proof (Z.div_mod ino 16). pose proof (Z.div_mod ino' 16). lia.
Qed.

Lemma store_dinode_ok i ino d : length (addrs i) = 13%nat -> block_ok d -> block_ok (store_dinode i (dip_off ino) d).
Proof.
  intros E [Hl Hr]. pose proof (dip_off_range ino). pose proof (length_dinode_bytes i E) as El.
  rewrite store_dinode_splice by lia. split; [rewrite length_splice by lia; done|]. apply Forall_splice; [done|].
  unfold dinode_bytes. repeat apply Forall_app_2; apply le_bytes_range || apply bytes_words.
Qed.

(** ** [iupdate] and [ilock] *)

(** What the disk says of inode [ino]. *)
Definition disk_inode (x : superblock) (D : Z -> list Z) (ino : Z) (j : inode) : inode :=
  load_dinode (D (IBLOCK ino x)) (dip_off ino) j.

(** The disk after inode [ino] was written. *)
Definition iupdate_D (x : superblock) (D : Z -> list Z) (i : inode) : Z -> list Z :=
  <[IBLOCK (inum i) x := store_dinode i (dip_off (inum i)) (D (IBLOCK (inum i) x))]> D.

Section inode.
Context {St : Type} {ST : Store St} {SP : StoreSpec St}.

Section layout.
Context (x : superblock) (Hly : layout x).

Lemma IBLOCK_range ino : 0 <= ino < ninodes x -> inodestart x <= IBLOCK ino x < bmapstart x.
Proof.
  intros Hi. destruct Hly as [_ _ Hb _ _]. unfold IBLOCK. change IPB with 16 in *.
  pose proof (Z.div_pos ino 16). pose proof (Z.div_le_mono ino (ninodes x) 16). lia.
Qed.

Lemma iblock_ok D ino : fs_disk x D -> 0 <= ino < ninodes x -> block_ok (D (IBLOCK ino x)).
Proof. intros Hd Hi. apply Hd. pose proof (IBLOCK_range ino Hi). pose proof (ly_order x Hly). lia. Qed.

Section upd.
Context (D : Z -> list Z) (Hd : fs_disk x D) (i : inode) (Hi : 0 <= inum i < ninodes x) (Hf : inode_fits i).

Lemma iupdate_D_ok : fs_disk x (iupdate_D x D i).
Proof.
  pose proof (IBLOCK_range _ Hi). apply fs_disk_upd; [done|done| |lia].
  apply store_dinode_ok; [apply Hf|by apply iblock_ok].
Qed.

Lemma iupdate_D_inode ino j : 0 <= ino < ninodes x ->
  disk_inode x (iupdate_D x D i) ino j = if decide (ino = inum i) then on_mem i j else disk_inode x D ino j.
Proof.
  intros Hino. unfold disk_inode, iupdate_D. destruct (iblock_ok D (inum i) Hd Hi) as [Hl _].
  pose proof (dip_off_range (inum i)). pose proof (dip_off_range ino). pose proof (length_dinode_bytes i (if_len _ Hf)) as El.
  case_decide as E; [subst; rewrite fn_lookup_insert; apply load_store_dinode; [done|lia]|].
  destruct (decide (IBLOCK ino x = IBLOCK (inum i) x)) as [Eb|Eb]; [|by rewrite fn_lookup_insert_ne].
  rewrite Eb, fn_lookup_insert. assert (ino / IPB = inum i / IPB) as Eq by (unfold IBLOCK in Eb; lia).
  pose proof (dip_off_disjoint _ _ Eq E). rewrite store_dinode_splice by (lia || apply Hf).
  rewrite load_dinode_sub by (rewrite length_splice; rewrite ?El; lia).
  rewrite sub_splice_ne by lia. symmetry. apply load_dinode_sub. lia.
Qed.

Lemma iupdate_D_other no : no <> IBLOCK (inum i) x -> iupdate_D x D i no = D no.
Proof. intros. unfold iupdate_D. by rewrite fn_lookup_insert_ne. Qed.

Lemma iupdate_D_used b : 0 <= b < sb_size x -> used x (iupdate_D x D i) b = used x D b.
Proof. intros Hb. apply used_other; [done|]. pose proof (IBLOCK_range _ Hi). lia. Qed.
End upd.
End layout.

Section ops.
Context (s : fsst St) (x := sb s) (Hly : layout x) {D : Z -> list Z} (Hd : fs_disk x D) {L : gset Z}
  (ip : nat) (i := itable s !!! ip) (Hdev : idev i = sp_dev) (Hino : 0 <= inum i < ninodes x).

Lemma iupdate_spec :
  holds (store s) D ∅ L -> room x L 1 ->
  wp (iupdate ip s) (fun _ s' => exists st, s' = set_store st s /\
    holds st (iupdate_D x D i) ∅ ({[IBLOCK (inum i) x]} ∪ L)).
Proof.
  intros Hh Hr. pose proof (room_size _ _ _ Hr). pose proof (IBLOCK_range x Hly _ Hino). pose proof (ly_order x Hly).
  unfold iupdate. do 2 apply wp_gets. fold x i. rewrite Hdev.
  eapply wp_bread; [exact Hh|lia|apply not_open_empty|rewrite map_size_empty; lia|].
  intros bp st Hbp Hh1 Hd1. apply wp_gets. cbn [store set_store]. rewrite Hd1.
  eapply wp_setlog_rel_last; [done|exact Hh1|apply Hly; lia|lia|]. intros st' Hh2. rewrite set_store_store. eauto.
Qed.

(** Locking an inode that nobody holds; the first time, it is read from disk. *)
Definition locked_inode (pid : Z) : inode :=
  with_lk pid (if ivalid i then i else with_ivalid true (disk_inode x D (inum i) i)).

Lemma ilock_spec pid :
  (ip < length (itable s))%nat -> holds (store s) D ∅ L -> size L <= sp_cap ->
  1 <= iref i -> ilk i = 0 -> (ivalid i = false -> itype (disk_inode x D (inum i) i) <> 0) ->
  wp (ilock pid ip s) (fun _ s' => exists st,
    s' = set_itable (<[ip := locked_inode pid]> (itable s)) (set_store st s) /\ holds st D ∅ L).
Proof.
  intros Hip Hh Hsz Href Hlk Hty. pose proof (IBLOCK_range x Hly _ Hino). pose proof (ly_order x Hly).
  unfold ilock, acquiresleep_inode. apply wp_gets. fold i. destruct (Z.ltb_spec (iref i) 1); [lia|].
  apply wp_bind, wp_gets. fold i. rewrite Hlk. apply wp_ret, wp_gets.
  cbn [itable set_itable]. rewrite list_lookup_total_insert_eq by done. fold i. cbn [ivalid with_lk]. unfold locked_inode.
  destruct (ivalid i) eqn:Ev; cbn [negb].
  { apply wp_ret. exists (store s). split; [|done]. by destruct s. }
  apply wp_gets. change (sb _) with x. cbn [idev with_lk inum]. rewrite Hdev.
  eapply wp_bread; [exact Hh|lia|apply not_open_empty|rewrite map_size_empty; lia|].
  intros bp st Hbp Hh1 Hd1. apply wp_gets, wp_modify. cbn [store set_store set_itable itable]. rewrite Hd1.
  eapply wp_rel; [exact Hbp|exact Hh1|]. intros st2 Hh2. apply wp_modify, wp_gets.
  cbn [itable set_itable set_store]. rewrite !list_lookup_total_insert_eq by (rewrite ?length_insert; done).
  fold i. specialize (Hty eq_refl). cbn [itype with_ivalid].
  change (itype (load_dinode _ _ (with_lk pid i))) with (itype (disk_inode x D (inum i) i)).
  rewrite (proj2 (Z.eqb_neq _ _)) by done. apply wp_ret. exists st2. split; [|done].
  unfold set_itable, set_store. simpl. f_equal. by rewrite !list_insert_insert_eq.
Qed.
End ops.
End inode.

(** ** The inode table *)

Definition in_use (t : list inode) (ip : nat) (dev ino : Z) : Prop :=
  (ip < NINODEn)%nat /\ 0 < iref (t !!! ip) /\ idev (t !!! ip) = dev /\ inum (t !!! ip) = ino.

(** No two entries in use are the same inode. *)
Record itable_inv (t : list inode) : Prop := {
  iti_len : length t = NINODEn;
  iti_ref ip : (ip < NINODEn)%nat -> 0 <= iref (t !!! ip);
  iti_uniq ip ip' dev ino : in_use t ip dev ino -> in_use t ip' dev ino -> ip = ip';
}.

Lemma iget_scan_spec t dev ino k i (empty : option nat) :
  (k + i = NINODEn)%nat ->
  match iget_scan k i t dev ino empty with
  | inl ip => (i <= ip)%nat /\ in_use t ip dev ino
  | inr e => (forall ip, (i <= ip)%nat -> ~ in_use t ip dev ino) /\
      (match e with
       | Some ip => empty = Some ip \/ (i <= ip < NINODEn)%nat /\ iref (t !!! ip) = 0
       | None => empty = None /\ forall ip, (i <= ip < NINODEn)%nat -> iref (t !!! ip) <> 0
       end)
  end.
Proof.
  revert i empty. induction k as [|k IH]; intros i empty Hk; cbn [iget_scan].
  - split; [unfold in_use; intros; lia|]. destruct empty; [by left|]. split; [done|]. intros. lia.
  - destruct ((0 <? iref (t !!! i)) && (idev (t !!! i) =? dev) && (inum (t !!! i) =? ino)) eqn:E; bool_prop.
    { split; [lia|]. unfold in_use. split; [lia|]. lia. }
    specialize (IH (i + 1)%nat (match empty with None => if iref (t !!! i) =? 0 then Some i else None | Some _ => empty end) ltac:(lia)).
    destruct (iget_scan k (i + 1) _ _ _ _) as [ip|e]; [split; [lia|tauto]|]. destruct IH as [Hno He]. split.
    + intros ip Hip Hu. destruct (decide (ip = i)) as [->|]; [|by apply (Hno ip); [lia|]].
      destruct Hu as (_ & ? & ? & ?). lia.
    + destruct e as [ip|].
      * destruct He as [He|[He ?]]; [|right; split; [lia|done]]. destruct empty; [by left|].
        destruct (Z.eqb_spec (iref (t !!! i)) 0); [|done]. injection He as <-. right. split; [lia|done].
      * destruct He as [He Hne]. destruct empty; [done|]. destruct (Z.eqb_spec (iref (t !!! i)) 0); [done|].
        split; [done|]. intros ip Hip. destruct (decide (ip = i)) as [->|]; [done|]. apply Hne. lia.
Qed.

Section iget.
Context {St : Type} {ST : Store St}.

Lemma in_use_upd t ip j ip' dev ino : length t = NINODEn -> (ip < NINODEn)%nat ->
  in_use (<[ip := j]> t) ip' dev ino <->
  if decide (ip' = ip) then 0 < iref j /\ idev j = dev /\ inum j = ino else in_use t ip' dev ino.
Proof.
  intros Hl Hip. unfold in_use. case_decide as E; [subst; rewrite list_lookup_total_insert_eq by lia; naive_solver|].
  by rewrite list_lookup_total_insert_ne.
Qed.

(** Changing one entry keeps the invariant when it stays the same inode, or is
    an inode that no other entry is. *)
Lemma itable_inv_upd t ip j :
  itable_inv t -> (ip < NINODEn)%nat -> 0 <= iref j ->
  (forall ip', ip' <> ip -> 0 < iref j -> ~ in_use t ip' (idev j) (inum j)) -> itable_inv (<[ip := j]> t).
Proof.
  intros [Hl Hr Hu] Hip Hj Hno. split; [by rewrite length_insert| |].
  - intros ip' Hip'. destruct (decide (ip' = ip)) as [->|]; [by rewrite list_lookup_total_insert_eq by lia|].
    rewrite list_lookup_total_insert_ne by done. by apply Hr.
  - intros ip1 ip2 dev ino. rewrite !in_use_upd by done.
    repeat case_decide; subst; try done; [|naive_solver|by apply Hu]; naive_solver.
Qed.

(** A reference to inode [ino]: its entry when it has one, else a free entry. *)
Definition iget_entry (t : list inode) (ip : nat) (dev ino : Z) (j : inode) : Prop :=
  (in_use t ip dev ino /\ j = with_ref (to_int (iref (t !!! ip) + 1)) (t !!! ip)) \/
  ((forall ip', ~ in_use t ip' dev ino) /\ iref (t !!! ip) = 0 /\
   j = mk_inode dev ino 1 (ilk (t !!! ip)) false (itype (t !!! ip)) (imajor (t !!! ip)) (iminor (t !!! ip))
     (nlink (t !!! ip)) (isize (t !!! ip)) (addrs (t !!! ip))).

Lemma iget_spec (s : fsst St) dev ino :
  itable_inv (itable s) -> (exists ip, (ip < NINODEn)%nat /\ (in_use (itable s) ip dev ino \/ iref (itable s !!! ip) = 0)) ->
  (forall ip, (ip < NINODEn)%nat -> iref (itable s !!! ip) < 2 ^ 31 - 1) ->
  wp (iget dev ino s) (fun ip s' => exists j, s' = set_itable (<[ip := j]> (itable s)) s /\
    iget_entry (itable s) ip dev ino j /\ itable_inv (itable s') /\ in_use (itable s') ip dev ino).
Proof.
  intros Hinv (ip0 & Hip0 & Hfree) Hmax. pose proof Hinv as [Hl Hr Hu]. unfold iget. apply wp_gets.
  pose proof (iget_scan_spec (itable s) dev ino NINODEn 0 None ltac:(lia)) as Hsc.
  assert (forall n, 0 <= n < 2 ^ 31 -> to_int n = n) as Hint
    by (intros n Hn; unfold sint; change (32 - 1) with 31; rewrite Z.mod_small; lia).
  destruct (iget_scan _ _ _ _ _ _) as [ip|[ip|]].
  - destruct Hsc as [_ Hip]. apply wp_modify, wp_ret. eexists. split; [done|].
    assert (ip < NINODEn)%nat as Hlt by apply Hip. specialize (Hmax ip Hlt). specialize (Hr ip Hlt).
    split; [by left|]. cbn [itable set_itable]. rewrite Hint by lia. split.
    + apply itable_inv_upd; simpl; try done; [lia|]. intros ip' Hne _ Hip'. apply Hne.
      apply (Hu _ _ _ _ Hip' ). destruct Hip as (_ & ? & ? & ?). done.
    + apply in_use_upd; [done|done|]. rewrite decide_True by done. destruct Hip as (_ & ? & ? & ?). simpl. split; [lia|done].
  - destruct Hsc as [Hno [?|[Hlt H0]]]; [done|]. apply wp_modify, wp_ret. eexists. split; [done|]. split.
    { right. split; [intros ip'; apply Hno; lia|done]. }
    cbn [itable set_itable]. split.
    + apply itable_inv_upd; simpl; try done; [lia|]. intros ip' _ _. apply Hno. lia.
    + apply in_use_upd; [done|lia|]. by rewrite decide_True.
  - destruct Hsc as [Hno [_ Hne]]. exfalso. destruct Hfree as [Hf|Hf]; [by apply (Hno ip0); [lia|]|].
    apply (Hne ip0); [lia|done].
Qed.
End iget.
