(* ===== verification/FsFile.v ===== *)
(** * File contents (kernel/fs.c)

    An inode's blocks, the bytes of a file as a function of the position, and
    [bmap], [readi], [writei] and [itrunc] in those terms.  A file owns its
    data blocks and its indirect block: they are marked in use, lie in the
    data area and are pairwise different; blocks that it does not own keep
    their contents through every operation on it. *)

From S2P Require Import Prelude Riscv Mem Kalloc Vm Block Bio Store Fs FsBlock FsInode.

(** ** The blocks of a file *)

(** [ip->addrs[NDIRECT]] *)
Definition ind (i : inode) : Z := addrs i !!! 12%nat.

(** The address of block [bn], 0 when there is none. *)
Definition blk (D : Z -> list Z) (i : inode) (bn : Z) : Z :=
  if bn <? 12 then addrs i !!! Z.to_nat bn
  else if ind i =? 0 then 0 else rd 4 (D (ind i)) (Z.to_nat (4 * (bn - 12))).

Definition in_file (bn : Z) : Prop := 0 <= bn < MAXFILE.

(** In use and in the data area. *)
Definition data_ok (x : superblock) (D : Z -> list Z) (a : Z) : Prop :=
  datastart x <= a < sb_size x /\ used x D a = true.

Record file_ok (x : superblock) (D : Z -> list Z) (i : inode) : Prop := {
  fk_len : length (addrs i) = 13%nat;
  fk_blk bn : in_file bn -> blk D i bn <> 0 -> data_ok x D (blk D i bn);
  fk_ind : ind i <> 0 -> data_ok x D (ind i);
  fk_inj bn bn' : in_file bn -> in_file bn' -> blk D i bn <> 0 -> blk D i bn = blk D i bn' -> bn = bn';
  fk_ind_ne bn : in_file bn -> ind i <> 0 -> blk D i bn <> ind i;
}.

Definition owns (D : Z -> list Z) (i : inode) (no : Z) : Prop :=
  no <> 0 /\ (no = ind i \/ exists bn, in_file bn /\ no = blk D i bn).

(** The byte at position [pos]; a block that is not there reads as zeros. *)
Definition fbyte (D : Z -> list Z) (i : inode) (pos : Z) : Z :=
  let a := blk D i (pos / BSIZE) in
  if a =? 0 then 0 else D a !!! Z.to_nat (pos mod BSIZE).

(** Blocks that hold something else. *)
Definition foreign (x : superblock) (D : Z -> list Z) (i : inode) (no : Z) : Prop :=
  (0 <= no < bmapstart x \/ data_ok x D no) /\ ~ owns D i no.

(** A change of the file: it stays well formed, and nothing else changes. *)
Record file_step (x : superblock) (D : Z -> list Z) (i : inode) (D' : Z -> list Z) (i' : inode) : Prop := {
  fs_ok : fs_disk x D';
  fs_file : file_ok x D' i';
  fs_rest : i' = mk_inode (idev i) (inum i) (iref i) (ilk i) (ivalid i) (itype i) (imajor i) (iminor i)
                   (nlink i) (isize i) (addrs i');
  fs_foreign no : foreign x D i no -> D' no = D no /\ foreign x D' i' no;
}.

Lemma file_step_refl x D i : fs_disk x D -> file_ok x D i -> file_step x D i D i.
Proof. intros Hd Hf. split; try done. by destruct i. Qed.

Lemma file_step_trans x D i D1 i1 D2 i2 :
  file_step x D i D1 i1 -> file_step x D1 i1 D2 i2 -> file_step x D i D2 i2.
Proof.
  intros [? ? Hr1 Hf1] [? ? Hr2 Hf2]. split; try done; [by rewrite Hr2, Hr1|].
  intros no Hno. destruct (Hf1 no Hno) as [<- Hno1]. by apply Hf2.
Qed.

(** Reaching the address of an existing block does not need the in-memory data. *)
Lemma blk_direct D i bn : bn < 12 -> blk D i bn = addrs i !!! Z.to_nat bn.
Proof. intros. unfold blk. by rewrite (proj2 (Z.ltb_lt _ _)). Qed.

Lemma blk_indirect D i bn : 12 <= bn -> ind i <> 0 -> blk D i bn = rd 4 (D (ind i)) (Z.to_nat (4 * (bn - 12))).
Proof. intros. unfold blk. rewrite (proj2 (Z.ltb_ge _ _)), (proj2 (Z.eqb_neq _ _)); done. Qed.

Lemma blk_none D i bn : 12 <= bn -> ind i = 0 -> blk D i bn = 0.
Proof. intros ? E. unfold blk. by rewrite (proj2 (Z.ltb_ge _ _)), E. Qed.

Lemma blk_ext D D' i bn : (ind i <> 0 -> D' (ind i) = D (ind i)) -> blk D' i bn = blk D i bn.
Proof. intros E. unfold blk. destruct (bn <? 12); [done|]. destruct (Z.eqb_spec (ind i) 0); [done|]. by rewrite E. Qed.

Lemma rd_zeros n off : rd n zeros off = 0.
Proof.
  unfold rd. assert (Forall (eq 0) (sub zeros off n)) as Hz.
  { apply Forall_take, Forall_drop. unfold zeros. apply Forall_forall. intros y Hy%list_elem_of_In%repeat_spec. done. }
  induction Hz as [|y l <- _ IH]; [done|]. simpl. by rewrite IH.
Qed.

Lemma zeros_lookup k : (k < Z.to_nat BSIZE)%nat -> zeros !!! k = 0.
Proof.
  unfold zeros. generalize (Z.to_nat BSIZE) as n. intros n. revert k.
  induction n as [|n IH]; intros [|k] Hk; [lia|lia|done|]. apply IH. lia.
Qed.

Section file.
Context {St : Type} {ST : Store St} {SP : StoreSpec St} (x : superblock) (Hly : layout x).

Lemma owns_data D i no : file_ok x D i -> owns D i no -> data_ok x D no.
Proof.
  intros Hf (Hne & [->|(bn & Hbn & ->)]); [by apply (fk_ind _ _ _ Hf)|by apply (fk_blk _ _ _ Hf)].
Qed.

(** *** Taking a free block *)

Section alloc.
Context (D : Z -> list Z) (Hd : fs_disk x D) (i : inode) (Hf : file_ok x D i) (b : Z)
  (Hb : datastart x <= b < sb_size x) (Hfree : used x D b = false).

Lemma data_ne a : data_ok x D a -> a <> b.
Proof. intros [_ Hu] ->. by rewrite Hfree in Hu. Qed.

Lemma balloc_D_data a : data_ok x D a -> balloc_D x D b a = D a /\ data_ok x (balloc_D x D b) a.
Proof.
  intros Ha. pose proof (ly_order x Hly). split.
  - apply balloc_D_other; try done; [by apply data_ne|]. destruct Ha. lia.
  - destruct Ha as [Hr Hu]. split; [done|]. rewrite balloc_D_used by (done || lia). by rewrite Hu, orb_true_r.
Qed.

Lemma balloc_D_new : data_ok x (balloc_D x D b) b.
Proof. pose proof (ly_order x Hly). split; [done|]. rewrite balloc_D_used by (done || lia). by rewrite bool_decide_eq_true_2. Qed.

Lemma balloc_D_blk bn : blk (balloc_D x D b) i bn = blk D i bn.
Proof. apply blk_ext. intros Hi. by apply balloc_D_data, Hf. Qed.

Lemma b_pos : b <> 0.
Proof. pose proof (ly_order x Hly). lia. Qed.

Lemma balloc_D_foreign no : foreign x D i no -> balloc_D x D b no = D no /\
  ((0 <= no < bmapstart x \/ data_ok x (balloc_D x D b) no) /\ no <> b).
Proof.
  intros [[Hm|Hn] Hno].
  - pose proof (ly_order x Hly). split; [|split; [by left|lia]]. apply balloc_D_other; try done; lia.
  - destruct (balloc_D_data no Hn). split; [done|]. split; [by right|by apply data_ne].
Qed.

(** A change that makes the block one of the file's: block [bn], or the
    indirect block when [bn] is [None]. *)
Record added (bn : option Z) (D' : Z -> list Z) (i' : inode) : Prop := {
  ad_ok : fs_disk x D';
  ad_len : length (addrs i') = 13%nat;
  ad_rest : i' = mk_inode (idev i) (inum i) (iref i) (ilk i) (ivalid i) (itype i) (imajor i) (iminor i)
                   (nlink i) (isize i) (addrs i');
  ad_blk bn' : in_file bn' -> blk D' i' bn' = if decide (bn = Some bn') then b else blk D i bn';
  ad_ind : ind i' = if decide (bn = None) then b else ind i;
  ad_used a : 0 <= a < sb_size x -> used x D' a = used x (balloc_D x D b) a;
  ad_other a : (ind i <> 0 -> a <> ind i) -> D' a = balloc_D x D b a;
}.

Section added.
Context (bn : option Z) (D' : Z -> list Z) (i' : inode) (Ha : added bn D' i')
  (Hz : match bn with Some bn => in_file bn /\ blk D i bn = 0 | None => ind i = 0 end).

Lemma added_data a : data_ok x D a -> data_ok x D' a.
Proof.
  intros Hda. destruct (balloc_D_data a Hda) as [_ [Hr Hu]]. split; [done|]. pose proof (ly_order x Hly).
  by rewrite (ad_used _ _ _ Ha) by lia.
Qed.

Lemma added_new : data_ok x D' b.
Proof. destruct balloc_D_new as [Hr Hu]. split; [done|]. pose proof (ly_order x Hly). by rewrite (ad_used _ _ _ Ha) by lia. Qed.

Lemma old_blk_ne bn' : in_file bn' -> blk D i bn' <> b.
Proof.
  intros Hr E. destruct (decide (blk D i bn' = 0)) as [E0|E0]; [apply b_pos; congruence|].
  by apply (data_ne _ (fk_blk _ _ _ Hf bn' Hr E0)).
Qed.

Lemma old_ind_ne : ind i <> b.
Proof.
  intros E. apply (data_ne (ind i)); [|done]. apply (fk_ind _ _ _ Hf). rewrite E. apply b_pos.
Qed.

Lemma added_file : file_ok x D' i'.
Proof.
  pose proof b_pos as Hb0. destruct Ha as [Hok Hlen Hrest Hblk Hind Hused Hoth]. split; [done|..].
  - intros bn' Hr. rewrite Hblk by done. destruct (decide (bn = Some bn')); [intros; apply added_new|].
    intros Hne. by apply added_data, Hf.
  - rewrite Hind. destruct (decide (bn = None)); [intros; apply added_new|]. intros Hne. by apply added_data, Hf.
  - intros b1 b2 H1 H2. rewrite !Hblk by done.
    destruct (decide (bn = Some b1)), (decide (bn = Some b2)); try congruence.
    + intros _ E. by apply (old_blk_ne b2) in H2.
    + intros _ E. by apply (old_blk_ne b1) in H1.
    + by apply Hf.
  - intros bn' Hr. rewrite Hblk, Hind by done.
    destruct (decide (bn = Some bn')), (decide (bn = None)); try congruence.
    + intros _ E. symmetry in E. by apply old_ind_ne.
    + intros _. by apply old_blk_ne.
    + by apply Hf.
Qed.

Lemma added_step : file_step x D i D' i'.
Proof.
  pose proof Ha as [Hok Hlen Hrest Hblk Hind Hused Hoth]. split; [done|apply added_file|done|].
  intros no Hno. destruct (balloc_D_foreign no Hno) as (E & Hr & Hne). destruct Hno as [Hno1 Hno].
  assert (D' no = D no) as E'.
  { rewrite Hoth, E; [done|]. intros Hi0 ->. apply Hno. split; [done|by left]. }
  split; [done|]. split; [destruct Hno1 as [?|?]; [by left|right]; by apply added_data|].
  intros (Hn0 & [E2|(bn' & Hr' & E2)]).
  - rewrite Hind in E2. destruct (decide (bn = None)); [done|]. apply Hno. split; [done|]. by left.
  - rewrite Hblk in E2 by done. destruct (decide (bn = Some bn')); [done|]. apply Hno. split; [done|]. right. by exists bn'.
Qed.

(** The contents of the file stay: the new block is zero. *)
Lemma added_bytes pos : in_file (pos / BSIZE) -> fbyte D' i' pos = fbyte D i pos.
Proof.
  pose proof b_pos as Hb0. pose proof Ha as [Hok Hlen Hrest Hblk Hind Hused Hoth]. intros Hr. unfold fbyte.
  rewrite Hblk by done. destruct (decide (bn = Some (pos / BSIZE))) as [E|E].
  - subst bn. destruct Hz as [_ ->]. rewrite (proj2 (Z.eqb_neq b 0)) by done. rewrite Hoth.
    + rewrite balloc_D_at. apply zeros_lookup. pose proof (Z.mod_pos_bound pos BSIZE). unfold BSIZE in *. lia.
    + intros _ E. symmetry in E. by apply old_ind_ne.
  - destruct (Z.eqb_spec (blk D i (pos / BSIZE)) 0) as [|Hne]; [done|].
    rewrite Hoth; [|intros Hi E2; by apply (fk_ind_ne _ _ _ Hf _ Hr Hi)].
    by rewrite (proj1 (balloc_D_data _ (fk_blk _ _ _ Hf _ Hr Hne))).
Qed.

Lemma added_kept bn' : in_file bn' -> blk D i bn' <> 0 -> blk D' i' bn' = blk D i bn'.
Proof.
  intros Hr Hne. rewrite (ad_blk _ _ _ Ha) by done. case_decide as E; [|done]. subst bn. by destruct Hz.
Qed.
End added.

(** *** The three places for a new block *)

Lemma added_rest (k : nat) : with_addr k b i = mk_inode (idev i) (inum i) (iref i) (ilk i) (ivalid i) (itype i) (imajor i)
  (iminor i) (nlink i) (isize i) (addrs (with_addr k b i)).
Proof. done. Qed.

Lemma added_direct bn : 0 <= bn < 12 -> added (Some bn) (balloc_D x D b) (with_addr (Z.to_nat bn) b i).
Proof.
  intros Hbn. pose proof (fk_len _ _ _ Hf) as Hl.
  assert (ind (with_addr (Z.to_nat bn) b i) = ind i) as Ei
    by (unfold ind; simpl; rewrite list_lookup_total_insert_ne by lia; done).
  split; try done; [by apply balloc_D_ok|simpl; by rewrite length_insert|].
  intros bn' Hr. unfold in_file in Hr. destruct (Z.lt_ge_cases bn' 12).
  - rewrite blk_direct by done. simpl. case_decide as E; simplify_eq.
    + by rewrite list_lookup_total_insert_eq by lia.
    + rewrite list_lookup_total_insert_ne by (intros E'; apply E; f_equal; lia). by rewrite blk_direct.
  - rewrite decide_False by (intros [=]; lia). rewrite <- balloc_D_blk. unfold blk. by rewrite Ei, !(proj2 (Z.ltb_ge bn' 12)).
Qed.

Lemma added_ind : ind i = 0 -> added None (balloc_D x D b) (with_addr 12 b i).
Proof.
  intros E0. pose proof (fk_len _ _ _ Hf) as Hl. pose proof b_pos as Hb0.
  assert (ind (with_addr 12 b i) = b) as Ei by (unfold ind; simpl; rewrite list_lookup_total_insert_eq by lia; done).
  split; try done; [by apply balloc_D_ok|simpl; by rewrite length_insert|].
  intros bn' Hr. unfold in_file in Hr. rewrite decide_False by done. destruct (Z.lt_ge_cases bn' 12).
  - rewrite !blk_direct by done. simpl. by rewrite list_lookup_total_insert_ne by lia.
  - rewrite blk_indirect, Ei by (rewrite ?Ei; done). rewrite balloc_D_at, rd_zeros. by rewrite blk_none.
Qed.

Lemma added_entry bn : 12 <= bn < MAXFILE -> ind i <> 0 ->
  added (Some bn) (<[ind i := wr 4 (D (ind i)) (Z.to_nat (4 * (bn - 12))) b]> (balloc_D x D b)) i.
Proof.
  intros Hbn Hi. pose proof (ly_order x Hly) as Hord. change MAXFILE with 268 in Hbn.
  destruct (fk_ind _ _ _ Hf Hi) as [Hir Hiu].
  destruct (fd_blk _ _ Hd (ind i) ltac:(lia)) as [Hil Hib]. change (Z.to_nat BSIZE) with 1024%nat in Hil.
  assert (block_ok (wr 4 (D (ind i)) (Z.to_nat (4 * (bn - 12))) b)) as Hwok.
  { split; [rewrite length_wr by lia; done|]. apply Forall_splice; [done|apply le_bytes_range]. }
  split; try done; [..|].
  - apply fs_disk_upd; [done|by apply balloc_D_ok|done|lia].
  - apply Hf.
  - by destruct i.
  - intros bn' Hr. unfold in_file in Hr. change MAXFILE with 268 in Hr. destruct (Z.lt_ge_cases bn' 12).
    + rewrite decide_False by (intros [=]; lia). by rewrite !blk_direct.
    + rewrite !blk_indirect, fn_lookup_insert by done. case_decide as E; simplify_eq.
      * rewrite rd_wr by lia. change (256 ^ Z.of_nat 4) with (2 ^ 32). destruct Hly as [_ _ _ [_ ?] _]. apply Z.mod_small. lia.
      * assert (bn' <> bn) by (intros ->; done). by rewrite rd_wr_ne by lia.
  - intros a Har. rewrite used_other by (done || lia). done.
  - intros a Hne. rewrite fn_lookup_insert_ne; [done|]. intros <-. by apply Hne.
Qed.
End alloc.

(** ** [bmap] *)

(** The file may have got blocks; its contents are the same. *)
Record grown (D : Z -> list Z) (i : inode) (D' : Z -> list Z) (i' : inode) : Prop := {
  gr_step : file_step x D i D' i';
  gr_bytes pos : in_file (pos / BSIZE) -> fbyte D' i' pos = fbyte D i pos;
  gr_kept bn : in_file bn -> blk D i bn <> 0 -> blk D' i' bn = blk D i bn;
}.

Lemma grown_refl D i : fs_disk x D -> file_ok x D i -> grown D i D i.
Proof. intros. split; [by apply file_step_refl|done|done]. Qed.

Lemma grown_trans D i D1 i1 D2 i2 : grown D i D1 i1 -> grown D1 i1 D2 i2 -> grown D i D2 i2.
Proof.
  intros [S1 B1 K1] [S2 B2 K2]. split; [by eapply file_step_trans|intros; rewrite B2; auto|].
  intros bn Hr Hne. rewrite <- (K1 bn Hr Hne). apply K2; [done|]. by rewrite K1.
Qed.

Lemma added_grown D i b bn D' i' :
  fs_disk x D -> file_ok x D i -> datastart x <= b < sb_size x -> used x D b = false -> added D i b bn D' i' ->
  match bn with Some bn => in_file bn /\ blk D i bn = 0 | None => ind i = 0 end -> grown D i D' i'.
Proof.
  intros Hd Hf Hb Hu Ha Hz. split; [by eapply added_step|intros; by eapply added_bytes|intros; by eapply added_kept].
Qed.

(** No block is free. *)
Definition disk_full (D : Z -> list Z) : Prop := forall b, 0 <= b < sb_size x -> used x D b = true.

Lemma bind_ret_on_store (c : M St unit) (k0 : M St unit) (s : fsst St) :
  (on_store c;; on_store k0 ≫= mret) s = (on_store c;; on_store k0) s.
Proof.
  unfold mbind, M_bind. destruct (on_store c s); [|done|done]. by destruct (on_store k0 s0).
Qed.

(** The state [s] with inode [ip] changed to [i'] and the disk layer at [st]. *)
Definition at_inode (s : fsst St) (ip : nat) (i' : inode) (st : St) : fsst St :=
  set_itable (<[ip := i']> (itable s)) (set_store st s).

Lemma at_inode_id (s : fsst St) ip st : at_inode s ip (itable s !!! ip) st = set_store st s.
Proof.
  unfold at_inode, set_itable, set_store. simpl. f_equal. destruct (decide (ip < length (itable s))%nat) as [Hip|Hip].
  - destruct (lookup_lt_is_Some_2 _ _ Hip) as [i Hi]. rewrite (list_lookup_total_correct _ _ _ Hi). by apply list_insert_id.
  - apply list_insert_ge. lia.
Qed.

Section bmap.
Context (s : fsst St) (Hx : sb s = x) (ip : nat) (Hip : (ip < length (itable s))%nat) (i := itable s !!! ip)
  (Hdev : idev i = sp_dev) (D : Z -> list Z) (Hd : fs_disk x D) (Hf : file_ok x D i) (L : gset Z) (k : Z)
  (Hroom : room x L k).

(** [addr = balloc(ip->dev); if(addr == 0) return 0; ip->addrs[slot] = addr;] *)
Lemma take_slot (slot : nat) (bn : option Z) :
  1 <= k -> holds (store s) D ∅ L ->
  (forall b, datastart x <= b < sb_size x -> used x D b = false -> added D i b bn (balloc_D x D b) (with_addr slot b i)) ->
  match bn with Some bn => in_file bn /\ blk D i bn = 0 | None => ind i = 0 end ->
  wp ((addr ← balloc sp_dev;
       if addr =? 0 then mret 0 else upd_inode ip (with_addr slot addr);; mret addr) s)
    (fun addr s' => exists st i' D' L', s' = at_inode s ip i' st /\ holds st D' ∅ L' /\ grown D i D' i' /\
      ((addr = 0 /\ disk_full D' /\ L' = L /\ i' = i /\ D' = D) \/
       (addr <> 0 /\ added D i addr bn D' i' /\ room x L' (k - 1) /\ addr ∈ L'))).
Proof.
  intros Hk Hh Hadd Hz. assert (room x L 1) as Hr1 by (unfold room in *; lia).
  apply wp_bind. eapply wp_mono.
  { apply (balloc_spec s); rewrite ?Hx; try done; [intros b y Hy; by rewrite lookup_empty in Hy|rewrite map_size_empty; lia]. }
  unfold balloc_post. rewrite Hx. intros b s' (st & -> & [(-> & Hh' & Hall)|(Hb & Hfree & Hh')]).
  - apply wp_ret. exists st, i, D, L. unfold i. rewrite at_inode_id. split_and!; [done|done|by apply grown_refl|left].
    split_and!; done.
  - pose proof (ly_order x Hly). rewrite (proj2 (Z.eqb_neq b 0)) by lia. apply wp_modify, wp_ret. eexists st, _, _, _.
    split; [done|]. split; [exact Hh'|]. split; [eapply added_grown; eauto|]. right. split; [lia|]. split; [by apply Hadd|].
    split; [|set_solver]. apply room_log, room_bm; [done|]. apply BBLOCK_bm. lia.
Qed.

Definition bmap_entry (bn : Z) (addr : Z) : M (fsst St) Z :=
  bp ← on_store (st_bread sp_dev addr);
  a ← get_data bp;
  let addr := rd 4 a (Z.to_nat (4 * bn)) in
  if addr =? 0 then
    addr ← balloc sp_dev;
    (if negb (addr =? 0) then
       a ← get_data bp;
       on_store (st_write bp (wr 4 a (Z.to_nat (4 * bn)) addr));;
       on_store (st_log bp)
     else mret tt);;
    on_store (st_brelse bp);;
    mret addr
  else
    on_store (st_brelse bp);;
    mret addr.

Definition bmap_post (bn : Z) (k' : Z) (addr : Z) (s' : fsst St) : Prop := exists st i' D' L',
  s' = at_inode s ip i' st /\ holds st D' ∅ L' /\ grown D i D' i' /\ room x L' k' /\
  (addr = 0 -> disk_full D') /\ (addr <> 0 -> blk D' i' bn = addr).

Lemma bmap_entry_spec bn :
  12 <= bn < MAXFILE -> 2 <= k -> ind i <> 0 -> holds (store s) D ∅ L ->
  wp (bmap_entry (bn - 12) (ind i) s) (bmap_post bn (k - 1 - if decide (ind i ∈ L) then 0 else 1)).
Proof.
  intros Hbn Hk Hi Hh. pose proof (ly_order x Hly) as Hord. destruct (fk_ind _ _ _ Hf Hi) as [Hir Hiu].
  assert (in_file bn) as Hinf by (unfold in_file; lia). pose proof (room_size _ _ _ Hroom) as Hsz.
  assert (room x L (k - 1 - if decide (ind i ∈ L) then 0 else 1)) as Hroom' by (unfold room in *; case_decide; lia).
  unfold bmap_entry. eapply wp_bread; [exact Hh|lia|apply not_open_empty|rewrite map_size_empty; lia|].
  intros bp st Hbp Hh1 Hd1. apply wp_gets. cbn [store set_store]. rewrite Hd1.
  rewrite <- (blk_indirect D i bn) by (done || lia). destruct (Z.eqb_spec (blk D i bn) 0) as [E0|E0].
  2:{ eapply wp_rel; [exact Hbp|exact Hh1|]. intros st2 Hh2. apply wp_ret. exists st2, i, D, L. unfold i at 1.
      rewrite at_inode_id. split_and!; try done. by apply grown_refl. }
  apply wp_bind. eapply wp_mono.
  { apply (balloc_spec (set_store st s)); cbn [sb set_store store]; rewrite ?Hx; try done.
    - intros b y [[<- <-]|[_ Hy]]%lookup_insert_Some; [done|by rewrite lookup_empty in Hy].
    - rewrite map_size_insert_None, map_size_empty by done. lia.
    - unfold room in *. lia. }
  unfold balloc_post. cbn [sb set_store]. rewrite Hx. intros b s' (st' & -> & [(-> & Hh' & Hall)|(Hb & Hfree & Hh')]).
  - apply wp_bind, wp_ret. eapply wp_rel; [exact Hbp|exact Hh'|]. intros st2 Hh2. apply wp_ret. exists st2, i, D, L.
    unfold i at 1. rewrite at_inode_id. split_and!; try done. by apply grown_refl.
  - rewrite (proj2 (Z.eqb_neq b 0)) by lia. cbn [negb]. apply wp_bind, wp_gets. cbn [store set_store].
    erewrite sp_data; [|exact Hh'|by rewrite lookup_insert_eq].
    rewrite (balloc_D_other x Hly D b Hb (ind i)) by (lia || by apply (data_ne D b Hfree), Hf).
    pose proof (room_log x _ _ b (room_bm x L k _ Hroom (BBLOCK_bm x b ltac:(lia)))) as Hr2.
    pose proof (room_size _ _ _ Hr2) as Hsz2.
    rewrite <- (bind_ret_on_store). eapply wp_setlog; [exact Hbp|exact Hh'|apply Hly; lia|lia|].
    intros st2 Hh2. apply wp_ret. eapply wp_rel; [exact Hbp|exact Hh2|]. intros st3 Hh3. apply wp_ret.
    pose proof (added_entry D Hd i Hf b Hb bn Hbn Hi) as Hadd.
    eexists st3, i, _, _. unfold i at 1. rewrite at_inode_id. split; [done|]. split; [exact Hh3|].
    split; [by eapply added_grown|]. split; [|split; [lia|]].
    + case_decide as Ein; [|by apply room_log].
      replace ({[ind i]} ∪ ({[b]} ∪ ({[BBLOCK b x]} ∪ L))) with ({[b]} ∪ ({[BBLOCK b x]} ∪ L)) by set_solver.
      by rewrite Z.sub_0_r.
    + intros _. rewrite (ad_blk _ _ _ _ _ _ Hadd) by done. by rewrite decide_True.
Qed.
End bmap.

Lemma at_inode_at (s : fsst St) ip i1 st1 i2 st2 : at_inode (at_inode s ip i1 st1) ip i2 st2 = at_inode s ip i2 st2.
Proof. unfold at_inode, set_itable, set_store. simpl. by rewrite list_insert_insert_eq. Qed.

Lemma at_inode_get (s : fsst St) ip i1 st1 : (ip < length (itable s))%nat -> itable (at_inode s ip i1 st1) !!! ip = i1.
Proof. intros. by apply list_lookup_total_insert_eq. Qed.

Lemma bmap_spec (s : fsst St) ip (i := itable s !!! ip) D L k bn :
  sb s = x -> (ip < length (itable s))%nat -> idev i = sp_dev -> fs_disk x D -> file_ok x D i ->
  in_file bn -> 3 <= k -> room x L k -> holds (store s) D ∅ L ->
  wp (bmap ip bn s) (bmap_post s ip D bn (k - 2)).
Proof.
  intros Hx Hip Hdev Hd Hf Hr Hk Hroom Hh. unfold in_file in Hr. unfold bmap. apply wp_gets. fold i.
  rewrite Hdev. change NDIRECT with 12. change (Z.to_nat 12) with 12%nat. change NINDIRECT with 256. change MAXFILE with 268 in Hr.
  assert (room x L (k - 2)) as Hroom2 by (unfold room in *; lia).
  destruct (Z.ltb_spec bn 12) as [Hlt|Hge].
  - rewrite <- (blk_direct D) by done. destruct (Z.eqb_spec (blk D i bn) 0) as [E0|E0].
    + eapply wp_mono; [apply (take_slot s Hx ip Hip Hdev D Hd Hf L k Hroom (Z.to_nat bn) (Some bn)); try done; [lia|..]|].
      * intros b Hb Hfree. apply added_direct; done || lia.
      * intros addr s' (st & i' & D' & L' & -> & Hh' & Hg & [(-> & Hfull & -> & -> & ->)|(Hne & Ha & Hro & _)]).
        -- exists st, i, D, L. done.
        -- exists st, i', D', L'. split_and!; try done; [unfold room in *; lia|].
           intros _. rewrite (ad_blk _ _ _ _ _ _ Ha) by done. by rewrite decide_True.
    + apply wp_ret. exists (store s), i, D, L. unfold i at 1. rewrite at_inode_id. split_and!; try done; [by destruct s|].
      by apply grown_refl.
  - rewrite (proj2 (Z.ltb_lt (bn - 12) 256)) by lia. apply wp_bind. fold (ind i).
    destruct (Z.eqb_spec (ind i) 0) as [E0|E0].
    + eapply wp_mono; [apply (take_slot s Hx ip Hip Hdev D Hd Hf L k Hroom 12 None); try done; [lia|..]|].
      * intros b Hb Hfree. by apply added_ind.
      * intros addr s' (st & i' & D' & L' & -> & Hh' & Hg & [(-> & Hfull & -> & -> & ->)|(Hne & Ha & Hro & Hin)]).
        { apply wp_ret. exists st, i, D, L. done. }
        rewrite (proj2 (Z.eqb_neq addr 0)) by done.
        assert (ind i' = addr) as Ei by (rewrite (ad_ind _ _ _ _ _ _ Ha); by rewrite decide_True).
        assert (idev i' = sp_dev) as Hdev' by (rewrite (ad_rest _ _ _ _ _ _ Ha); done).
        fold (bmap_entry (bn - 12) addr). rewrite <- Ei.
        pose proof (at_inode_get s ip i' st Hip) as Eg.
        pose proof (bmap_entry_spec (at_inode s ip i' st) Hx ip) as Hspec. rewrite Eg in Hspec.
        eapply wp_mono; [apply (Hspec ltac:(simpl; rewrite length_insert; lia) Hdev' D' ltac:(apply Hg) ltac:(apply Hg) L' (k - 1) Hro bn);
          (done || change MAXFILE with 268; lia)|].
        rewrite Ei, decide_True by done.
        intros a s' (st2 & i2 & D2 & L2 & -> & Hh2 & Hg2 & Hro2 & H1 & H2). rewrite Eg in *.
        exists st2, i2, D2, L2. rewrite at_inode_at. split_and!; try done; [by eapply grown_trans|unfold room in *; lia].
    + apply wp_ret. rewrite (proj2 (Z.eqb_neq (ind i) 0)) by done. fold (bmap_entry (bn - 12) (ind i)).
      eapply wp_mono; [apply (bmap_entry_spec s Hx ip Hip Hdev D Hd Hf L k Hroom bn); try done; change MAXFILE with 268; lia|].
      intros a s' (st2 & i2 & D2 & L2 & -> & Hh2 & Hg2 & Hro2 & H1 & H2). exists st2, i2, D2, L2. split_and!; try done.
      unfold room in *. case_decide; lia.
Qed.

(** A block that is there is found without touching anything. *)
Lemma bmap_present (s : fsst St) ip (i := itable s !!! ip) D L bn :
  idev i = sp_dev -> file_ok x D i -> in_file bn -> size L <= sp_cap -> holds (store s) D ∅ L -> blk D i bn <> 0 ->
  wp (bmap ip bn s) (fun addr s' => exists st, s' = set_store st s /\ holds st D ∅ L /\ addr = blk D i bn).
Proof.
  intros Hdev Hf Hr Hsz Hh Hne. pose proof (ly_order x Hly). unfold in_file in Hr. unfold bmap. apply wp_gets. fold i.
  rewrite Hdev. change NDIRECT with 12. change (Z.to_nat 12) with 12%nat. change NINDIRECT with 256. change MAXFILE with 268 in Hr.
  destruct (Z.ltb_spec bn 12) as [Hlt|Hge].
  - rewrite <- (blk_direct D) by done. rewrite (proj2 (Z.eqb_neq (blk D i bn) 0)) by done. apply wp_ret.
    exists (store s). split; [by destruct s|done].
  - rewrite (proj2 (Z.ltb_lt (bn - 12) 256)) by lia. fold (ind i).
    destruct (Z.eqb_spec (ind i) 0) as [E0|E0]; [by rewrite blk_none in Hne|]. apply wp_bind, wp_ret.
    rewrite (proj2 (Z.eqb_neq (ind i) 0)) by done. destruct (fk_ind _ _ _ Hf E0) as [Hir _].
    eapply wp_bread; [exact Hh|lia|apply not_open_empty|rewrite map_size_empty; lia|].
    intros bp st Hbp Hh1 Hd1. apply wp_gets. cbn [store set_store]. rewrite Hd1, <- blk_indirect by done.
    rewrite (proj2 (Z.eqb_neq (blk D i bn) 0)) by done. eapply wp_rel; [exact Hbp|exact Hh1|]. intros st2 Hh2. apply wp_ret. eauto.
Qed.
End file.
