(* ===== verification/FsRead.v ===== *)
(** * Reading files (kernel/fs.c, [readi])

    [readi] delivers the bytes of the file from the offset on, as many as
    asked for or as there are, to a kernel buffer or to user memory, and
    changes nothing on the disk. *)

From S2P Require Import Prelude Riscv Mem Kalloc Vm Block Bio Store Fs FsBlock FsInode FsFile.

(** A file without holes. *)
Record file_full (D : Z -> list Z) (i : inode) : Prop := {
  ff_size : 0 <= isize i <= MAXFILE * BSIZE;
  ff_blk bn : 0 <= bn -> bn * BSIZE < isize i -> blk D i bn <> 0;
}.

Definition file_bytes (D : Z -> list Z) (i : inode) (off : Z) (n : nat) : list Z :=
  (fun k : nat => fbyte D i (off + k)) <$> seq 0 n.

Lemma length_file_bytes D i off n : length (file_bytes D i off n) = n.
Proof. unfold file_bytes. by rewrite length_fmap, length_seq. Qed.

Lemma lookup_file_bytes D i off n k : (k < n)%nat -> file_bytes D i off n !! k = Some (fbyte D i (off + k)).
Proof. intros Hk. unfold file_bytes. by rewrite list_lookup_fmap, lookup_seq_lt. Qed.

Lemma file_bytes_app D i off n m : file_bytes D i off (n + m) = file_bytes D i off n ++ file_bytes D i (off + n) m.
Proof.
  apply list_eq. intros k. destruct (decide (k < n)%nat).
  - rewrite lookup_app_l by (rewrite length_file_bytes; lia). by rewrite !lookup_file_bytes by lia.
  - rewrite lookup_app_r, length_file_bytes by (rewrite length_file_bytes; lia). destruct (decide (k < n + m)%nat).
    + rewrite !lookup_file_bytes by lia. do 2 f_equal. lia.
    + rewrite !lookup_ge_None_2 by (rewrite length_file_bytes; lia). done.
Qed.

Lemma file_bytes_ext D i D' i' off n :
  (forall k : nat, (k < n)%nat -> fbyte D' i' (off + k) = fbyte D i (off + k)) -> file_bytes D' i' off n = file_bytes D i off n.
Proof. intros E. apply list_fmap_ext. intros k y [-> Hk]%lookup_seq. by apply E. Qed.

(** What lands in a kernel buffer. *)
Definition kernel_part (d : dest) (l : list Z) : list Z := match d with KBuf => l | UDst _ _ => [] end.

Lemma kernel_part_app d l l' : kernel_part d (l ++ l') = kernel_part d l ++ kernel_part d l'.
Proof. by destruct d. Qed.

(** The positions of one block. *)
Lemma off_block off : 0 <= off -> off / BSIZE * BSIZE <= off /\ off = off / BSIZE * BSIZE + off mod BSIZE /\ 0 <= off mod BSIZE < BSIZE.
Proof. change BSIZE with 1024. intros. pose proof (Z.div_mod off 1024). pose proof (Z.mod_pos_bound off 1024). lia. Qed.

Lemma off_block_same off k : 0 <= k < BSIZE - off mod BSIZE -> (off + k) / BSIZE = off / BSIZE /\ (off + k) mod BSIZE = off mod BSIZE + k.
Proof.
  change BSIZE with 1024. intros Hk. pose proof (Z.div_mod off 1024). pose proof (Z.mod_pos_bound off 1024).
  assert ((off + k) / 1024 = off / 1024) as E by (symmetry; apply (Z.div_unique_pos _ _ _ (off mod 1024 + k)); lia).
  pose proof (Z.div_mod (off + k) 1024). lia.
Qed.

(** A part of a block is a part of the file. *)
Lemma sub_file_bytes D i off m :
  0 <= off -> 0 <= m <= BSIZE - off mod BSIZE -> blk D i (off / BSIZE) <> 0 -> length (D (blk D i (off / BSIZE))) = Z.to_nat BSIZE ->
  sub (D (blk D i (off / BSIZE))) (Z.to_nat (off mod BSIZE)) (Z.to_nat m) = file_bytes D i off (Z.to_nat m).
Proof.
  intros Hoff Hm Hne Hl. destruct (off_block off Hoff) as (_ & _ & Hmod). apply list_eq. intros k.
  destruct (decide (k < Z.to_nat m)%nat) as [Hk|Hk].
  - rewrite lookup_sub, lookup_file_bytes by done. destruct (off_block_same off k ltac:(lia)) as [E1 E2].
    unfold fbyte. rewrite E1, E2, (proj2 (Z.eqb_neq _ _)) by done.
    replace (Z.to_nat (off mod BSIZE + k)) with (Z.to_nat (off mod BSIZE) + k)%nat by lia.
    rewrite (list_lookup_lookup_total_lt (D (blk D i (off / BSIZE)))); [done|]. rewrite Hl. lia.
  - rewrite lookup_ge_None_2 by (unfold sub; rewrite length_take; lia). rewrite lookup_ge_None_2; [done|].
    rewrite length_file_bytes. lia.
Qed.

Section readi.
Context `{Linker} {St : Type} {ST : Store St} {SP : StoreSpec St} (s : fsst St) (x := sb s) (Hly : layout x)
  (ip : nat) (i := itable s !!! ip) (Hdev : idev i = sp_dev) (D : Z -> list Z) (Hd : fs_disk x D)
  (Hf : file_ok x D i) (Hfull : file_full D i) (L : gset Z) (HL : size L <= sp_cap).

(** The destination takes [N] bytes; [I p d l] says that [l] has reached it. *)
Context (N : nat) (I : phys -> dest -> list Z -> Prop)
  (Hcopy : forall p d pre l, I p d pre -> (length (pre ++ l) <= N)%nat ->
    wp (either_copyout d l p) (fun r p' => r = (0, kernel_part d l) /\ I p' (dest_add d (length l)) (pre ++ l))).

Abbreviation at_ st p := (set_km p (set_store st s)).

Lemma size_u32 : MAXFILE * BSIZE < 2 ^ 32.
Proof. done. Qed.

Lemma wp_km {A B} (k : M phys A) (f : A -> M (fsst St) B) (s' : fsst St) Q :
  wp (k (km s')) (fun a p => wp (f a (set_km p s')) Q) -> wp ((on_km k ≫= f) s') Q.
Proof. intros Hw. unfold on_km, zoom, mbind, M_bind. by destruct (k (km s')). Qed.

Lemma readi_loop_spec fuel d off n tot acc st p pre :
  (Z.to_nat (n - tot) < fuel)%nat -> 0 <= off -> 0 <= tot <= n -> off + (n - tot) <= isize i ->
  (length pre + Z.to_nat (n - tot) <= N)%nat -> holds st D ∅ L -> I p d pre ->
  wp (readi_loop fuel ip d off n tot acc (at_ st p)) (fun r s' => exists st' p' d', s' = at_ st' p' /\
    r = (n, acc ++ kernel_part d (file_bytes D i off (Z.to_nat (n - tot)))) /\ holds st' D ∅ L /\
    I p' d' (pre ++ file_bytes D i off (Z.to_nat (n - tot)))).
Proof.
  pose proof (ly_order x Hly) as Hord. destruct Hfull as [Hsz Hblk].
  revert d off tot acc st p pre. induction fuel as [|fuel IH]; intros d off tot acc st p pre Hfu Hoff Htot Hoffn Hpre Hh HI; [lia|].
  cbn [readi_loop]. destruct (Z.ltb_spec tot n) as [Hlt|Hge].
  2:{ apply wp_ret. replace (n - tot) with 0 by lia. exists st, p, d. split_and!; [done| |done|]; simpl.
      - destruct d; simpl; rewrite app_nil_r; f_equal; lia.
      - by rewrite app_nil_r. }
  destruct (off_block off Hoff) as (Hb1 & Hb2 & Hb3).
  assert (in_file (off / BSIZE)) as Hr.
  { unfold in_file. change BSIZE with 1024 in *. change MAXFILE with 268 in *. pose proof (Z.div_pos off 1024). lia. }
  assert (blk D i (off / BSIZE) <> 0) as Hne by (apply Hblk; [apply Hr|lia]).
  destruct (fk_blk _ _ _ Hf _ Hr Hne) as [Har _]. destruct (fd_blk _ _ Hd (blk D i (off / BSIZE)) ltac:(lia)) as [Hal _].
  apply wp_bind. eapply wp_mono; [apply (bmap_present x Hly (at_ st p) ip D L); try done|].
  intros addr s1 (st1 & -> & Hh1 & ->). change (itable (at_ st p) !!! ip) with i.
  rewrite (proj2 (Z.eqb_neq _ 0)) by done. apply wp_gets. change (itable (set_store st1 (at_ st p)) !!! ip) with i.
  rewrite Hdev. eapply wp_bread; [exact Hh1|lia|apply not_open_empty|rewrite map_size_empty; lia|].
  intros bp st2 Hbp Hh2 Hd2. apply wp_gets. cbn [store set_store]. rewrite Hd2.
  set (m := Z.min (n - tot) (BSIZE - off mod BSIZE)).
  rewrite sub_file_bytes by (done || unfold m; lia). apply wp_km. cbn [km set_store set_km].
  assert (length (file_bytes D i off (Z.to_nat m)) = Z.to_nat m) as Elen by apply length_file_bytes.
  eapply wp_mono; [apply (Hcopy p d pre); [done|rewrite length_app, Elen; unfold m; lia]|].
  intros r p' [-> HI']. rewrite Elen in HI'.
  eapply wp_rel; [exact Hbp|exact Hh2|]. intros st3 Hh3.
  assert (n - tot = m + (n - (tot + m))) as Esp by lia. assert (0 < m <= n - tot) as Hm by (unfold m; lia).
  replace (Z.of_nat (Z.to_nat m)) with m in HI' by lia.
  assert (u32 (off + m) = off + m) as -> by (pose proof size_u32; unfold wrap; apply Z.mod_small; lia).
  eapply wp_mono; [apply (IH (dest_add d m) (off + m) (tot + m) _ st3 p'); try done; try lia; rewrite length_app, Elen; lia|].
  intros r s' (st' & p2 & d' & -> & -> & Hh' & HI2). exists st', p2, d'. split; [done|].
  rewrite <- app_assoc in HI2.
  replace (file_bytes D i off (Z.to_nat (n - tot))) with
    (file_bytes D i off (Z.to_nat m) ++ file_bytes D i (off + m) (Z.to_nat (n - (tot + m)))).
  2:{ rewrite Esp, Z2Nat.inj_add by lia. rewrite file_bytes_app. do 3 f_equal. lia. }
  split_and!; try done. rewrite kernel_part_app, <- app_assoc. by destruct d.
Qed.

(** How many bytes [readi] delivers. *)
Definition readable_len (size off n : Z) : Z :=
  if (size <? off) || (u32 (off + n) <? off) then 0 else Z.min n (size - off).

Lemma readi_spec d off n :
  0 <= off < 2 ^ 32 -> 0 <= n < 2 ^ 32 -> (Z.to_nat (readable_len (isize i) off n) <= N)%nat ->
  holds (store s) D ∅ L -> I (km s) d [] ->
  let bs := file_bytes D i off (Z.to_nat (readable_len (isize i) off n)) in
  wp (readi ip d off n s) (fun r s' => exists st' p' d', s' = at_ st' p' /\
    r = (readable_len (isize i) off n, kernel_part d bs) /\ holds st' D ∅ L /\ I p' d' bs).
Proof.
  intros Hoff Hn HN Hh HI bs. unfold readi. apply wp_gets. fold i. unfold bs, readable_len in *. clear bs.
  destruct ((isize i <? off) || (u32 (off + n) <? off)) eqn:E.
  { apply wp_ret. exists (store s), (km s), d. split_and!; [by destruct s|by destruct d|done|done]. }
  apply orb_false_iff in E as [E1%Z.ltb_ge E2%Z.ltb_ge]. destruct Hfull as [Hsz _].
  assert (u32 (off + n) = off + n) as Eu.
  { unfold wrap in *. destruct (Z.lt_ge_cases (off + n) (2 ^ 32)); [apply Z.mod_small; lia|].
    rewrite <- (Z.mod_unique_pos (off + n) (2 ^ 32) 1 (off + n - 2 ^ 32)) in E2 by lia. lia. }
  rewrite Eu. set (n' := if isize i <? off + n then isize i - off else n).
  assert (n' = Z.min n (isize i - off)) as En by (unfold n'; destruct (Z.ltb_spec (isize i) (off + n)); lia).
  rewrite <- En in *. apply wp_bind. replace s with (at_ (store s) (km s)) at 1 by (by destruct s).
  eapply wp_mono; [apply (readi_loop_spec (S (Z.to_nat n')) d off n' 0 [] (store s) (km s) []); try done; rewrite ?Z.sub_0_r; simpl; lia|].
  intros r s' (st' & p' & d' & -> & -> & Hh' & HI'). rewrite Z.sub_0_r in *. apply wp_ret. exists st', p', d'.
  split; [done|]. split; [|done]. f_equal. unfold sint. change (32 - 1) with 31. pose proof size_u32.
  assert (MAXFILE * BSIZE < 2 ^ 31) by done. rewrite Z.mod_small; lia.
Qed.
End readi.
