(* ===== verification/FsWrite.v ===== *)
(** * Writing files (kernel/fs.c, [writei])

    [writei] puts the source bytes at the offset, grows the file when they
    reach past its end, leaves every other byte of it and every other file
    alone, and records the inode on disk.  It writes fewer bytes than asked
    for only when the disk is full. *)

From S2P Require Import Prelude Riscv Mem Kalloc Vm Block Bio Store Fs FsBlock FsInode FsFile FsRead.

(** Number of blocks that [n] bytes at offset [off] touch. *)
Definition nblk (off n : Z) : Z := if n =? 0 then 0 else (off mod BSIZE + n + BSIZE - 1) / BSIZE.

Lemma nblk_step off n :
  0 <= off -> 0 < n -> let m := Z.min n (BSIZE - off mod BSIZE) in nblk off n = 1 + nblk (off + m) (n - m).
Proof.
  intros Hoff Hn m. destruct (off_block off Hoff) as (_ & Hb & Hm). unfold nblk. rewrite (proj2 (Z.eqb_neq n 0)) by lia.
  change BSIZE with 1024 in *. destruct (Z.min_spec n (1024 - off mod 1024)) as [[Hlt E]|[Hge E]]; fold m in E; rewrite E.
  - rewrite Z.sub_diag. simpl. symmetry. apply (Z.div_unique_pos _ _ _ (off mod 1024 + n - 1)); lia.
  - replace ((off + (1024 - off mod 1024)) mod 1024) with 0.
    2:{ replace (off + (1024 - off mod 1024)) with ((off / 1024 + 1) * 1024) by lia. by rewrite Z.mod_mul. }
    destruct (Z.eqb_spec (n - (1024 - off mod 1024)) 0) as [E0|E0].
    + replace n with (1024 - off mod 1024) by lia. symmetry. apply (Z.div_unique_pos _ _ _ 1023); lia.
    + replace (off mod 1024 + n + 1024 - 1) with (1 * 1024 + (0 + (n - (1024 - off mod 1024)) + 1024 - 1)) by lia.
      by rewrite Z.div_add_l.
Qed.

Lemma nblk_pos off n : 0 <= n -> 0 <= nblk off n.
Proof.
  intros. unfold nblk. destruct (n =? 0); [done|]. pose proof (Z.mod_pos_bound off BSIZE).
  change BSIZE with 1024 in *. apply Z.div_pos; lia.
Qed.

Lemma fsst_eta {St} (s : fsst St) : set_km (km s) (set_store (store s) s) = s.
Proof. by destruct s. Qed.

Section step.
Context {St : Type} {ST : Store St} {SP : StoreSpec St} (x : superblock) (Hly : layout x) (D : Z -> list Z) (Hd : fs_disk x D) (i : inode)
  (Hf : file_ok x D i) (bn : Z) (Hr : in_file bn) (Hne : blk D i bn <> 0) (v : list Z) (Hv : block_ok v).

Abbreviation a := (blk D i bn).
Abbreviation D' := (<[a := v]> D).

Lemma write_blk bn' : in_file bn' -> blk D' i bn' = blk D i bn'.
Proof. intros Hr'. apply blk_ext. intros Hi. rewrite fn_lookup_insert_ne; [done|]. by apply (fk_ind_ne _ _ _ Hf). Qed.

Lemma write_data no : data_ok x D no -> data_ok x D' no.
Proof.
  intros [Hn Hu]. split; [done|]. pose proof (ly_order x Hly). destruct (fk_blk _ _ _ Hf _ Hr Hne). rewrite used_other; [done|lia|lia].
Qed.

Lemma write_step : file_step x D i D' i.
Proof.
  pose proof (ly_order x Hly). destruct (fk_blk _ _ _ Hf _ Hr Hne) as [Har _]. split.
  - apply fs_disk_upd; [done|done|done|lia].
  - split; [apply Hf|..].
    + intros bn' Hr'. rewrite write_blk by done. intros Hn. by apply write_data, Hf.
    + intros Hi. by apply write_data, Hf.
    + intros b1 b2 H1 H2. rewrite !write_blk by done. by apply Hf.
    + intros bn' Hr'. rewrite write_blk by done. by apply Hf.
  - by destruct i.
  - intros no [Hno Hown]. assert (no <> a) as Hna by (intros ->; apply Hown; split; [done|right; by exists bn]). split.
    + by rewrite fn_lookup_insert_ne.
    + split; [destruct Hno; [by left|right; by apply write_data]|]. intros (Hn0 & [E|(bn' & Hr' & E)]); apply Hown.
      * split; [done|by left].
      * rewrite write_blk in E by done. split; [done|right; by exists bn'].
Qed.

Lemma write_byte pos : in_file (pos / BSIZE) -> fbyte D' i pos = if decide (pos / BSIZE = bn) then v !!! Z.to_nat (pos mod BSIZE) else fbyte D i pos.
Proof.
  intros Hp. unfold fbyte. rewrite write_blk by done. destruct (Z.eqb_spec (blk D i (pos / BSIZE)) 0) as [E0|E0].
  - rewrite decide_False; [done|]. intros E. apply Hne. by rewrite <- E.
  - destruct (decide (pos / BSIZE = bn)) as [E|E]; [subst bn; by rewrite fn_lookup_insert|]. rewrite fn_lookup_insert_ne; [done|].
    intros E'. apply E. by apply (fk_inj _ _ _ Hf).
Qed.
End step.

Section written.
Context (x : superblock) (i0 : inode) (D0 : Z -> list Z) (off0 n : Z) (w : list Z).

(** The first [tot] bytes of [w] are in the file. *)
Record written_ (D : Z -> list Z) (i : inode) (tot : Z) : Prop := {
  wr_step : file_step x D0 i0 D i;
  wr_byte pos : in_file (pos / BSIZE) ->
    fbyte D i pos = if decide (off0 <= pos < off0 + tot) then w !!! Z.to_nat (pos - off0) else fbyte D0 i0 pos;
  wr_kept bn : in_file bn -> blk D0 i0 bn <> 0 -> blk D i bn = blk D0 i0 bn;
  wr_there pos : off0 <= pos < off0 + tot -> blk D i (pos / BSIZE) <> 0;
}.

(** The inode and the disk when [tot] bytes have been written. *)
Record writei_done_ (D : Z -> list Z) (i : inode) (tot : Z) : Prop := {
  wd_tot : 0 <= tot <= n;
  wd_disk : fs_disk x D;
  wd_file : file_ok x D i;
  wd_full : file_full D i;
  wd_rest : i = mk_inode (idev i0) (inum i0) (iref i0) (ilk i0) (ivalid i0) (itype i0) (imajor i0) (iminor i0)
                  (nlink i0) (Z.max (isize i0) (off0 + tot)) (addrs i);
  wd_byte pos : 0 <= pos < isize i ->
    fbyte D i pos = if decide (off0 <= pos < off0 + tot) then w !!! Z.to_nat (pos - off0) else fbyte D0 i0 pos;
  wd_foreign no : foreign x D0 i0 no -> no <> IBLOCK (inum i0) x -> D no = D0 no /\ foreign x D i no;
  wd_inode ino j : 0 <= ino < ninodes x ->
    disk_inode x D ino j = if decide (ino = inum i0) then on_mem i j else disk_inode x D0 ino j;
  wd_short : tot < n -> disk_full x D;
}.

End written.

(** The inode of a well-formed file fits its fields on the disk. *)
Lemma fits_with_size {St : Type} {ST : Store St} {SP : StoreSpec St} x (Hly : layout x) D i i0 sz : inode_fits i0 -> file_ok x D i ->
  i = mk_inode (idev i0) (inum i0) (iref i0) (ilk i0) (ivalid i0) (itype i0) (imajor i0) (iminor i0) (nlink i0) (isize i0) (addrs i) ->
  0 <= sz <= MAXFILE * BSIZE -> inode_fits (with_size sz i).
Proof.
  intros [? ? ? ? ? ? ?] Hf Hrest Hsz. change BSIZE with 1024 in *. change MAXFILE with 268 in *. split; simpl; try (rewrite Hrest; done); [lia| |apply Hf].
  apply Forall_lookup_2. intros k a Ha. destruct (decide (a = 0)) as [->|Hne]; [lia|].
  pose proof (ly_order x Hly). pose proof (ly_data _ Hly) as [_ ?]. pose proof (lookup_lt_Some _ _ _ Ha) as Hk. rewrite (fk_len _ _ _ Hf) in Hk.
  apply list_lookup_total_correct in Ha. destruct (decide (k = 12%nat)) as [->|].
  - destruct (fk_ind _ _ _ Hf) as [Hb _]; unfold ind in *; [by rewrite Ha|]. rewrite Ha in Hb. lia.
  - assert (blk D i k = a) as Eb by (rewrite blk_direct, Nat2Z.id by lia; done).
    destruct (fk_blk _ _ _ Hf k) as [Hb _]; [unfold in_file; change MAXFILE with 268; lia|by rewrite Eb|]. lia.
Qed.

Section writei.
Context `{Linker} {St : Type} {ST : Store St} {SP : StoreSpec St} (s : fsst St) (x := sb s) (Hly : layout x)
  (ip : nat) (Hip : (ip < length (itable s))%nat) (i0 := itable s !!! ip) (Hdev : idev i0 = sp_dev)
  (D0 : Z -> list Z) (off0 n : Z) (w : list Z) (Hoff : 0 <= off0) (Hn : 0 <= n) (Hmax : off0 + n <= MAXFILE * BSIZE)
  (Hw : length w = Z.to_nat n) (Hwb : Forall (fun b => 0 <= b < 256) w).

Abbreviation written := (written_ x i0 D0 off0 w).

Lemma pos_in_file pos : 0 <= pos < off0 + n -> in_file (pos / BSIZE).
Proof.
  clear Hw Hwb. intros Hp. unfold in_file. change BSIZE with 1024 in *. change MAXFILE with 268 in *.
  pose proof (Z.div_pos pos 1024). pose proof (Z.div_lt_upper_bound pos 1024 268). lia.
Qed.

(** One turn of the loop: the next block has an address, and [m] bytes go in. *)
Lemma written_block D i tot D1 i1 m :
  written D i tot -> grown x D i D1 i1 -> 0 <= tot < n ->
  let off := off0 + tot in let a := blk D1 i1 (off / BSIZE) in
  m = Z.min (n - tot) (BSIZE - off mod BSIZE) -> a <> 0 ->
  written (<[a := splice (D1 a) (Z.to_nat (off mod BSIZE)) (take (Z.to_nat m) (drop (Z.to_nat tot) w))]> D1) i1 (tot + m).
Proof.
  intros [Hst Hby Hke Hth] [Gst Gby Gke] Htot off a Hm Ha.
  destruct (off_block off ltac:(unfold off; lia)) as (Ho1 & Ho2 & Ho3).
  assert (in_file (off / BSIZE)) as Hr by (apply pos_in_file; unfold off; lia).
  pose proof (fs_ok _ _ _ _ _ Gst) as Hd1. pose proof (fs_file _ _ _ _ _ Gst) as Hf1. pose proof (ly_order x Hly).
  destruct (fk_blk _ _ _ Hf1 _ Hr Ha) as [Har _]. destruct (fd_blk _ _ Hd1 a ltac:(unfold a; lia)) as [Hal Hab].
  set (chunk := take (Z.to_nat m) (drop (Z.to_nat tot) w)).
  assert (length chunk = Z.to_nat m) as Hcl by (unfold chunk; rewrite length_take, length_drop; lia).
  assert (Z.to_nat (off mod BSIZE) + length chunk <= length (D1 a))%nat as Hfit by (rewrite Hal, Hcl; lia).
  set (v := splice (D1 a) (Z.to_nat (off mod BSIZE)) chunk).
  assert (block_ok v) as Hv.
  { split; [unfold v; by rewrite length_splice|]. apply Forall_splice; [done|]. by apply Forall_take, Forall_drop. }
  assert (0 < m) as Hm0 by lia. split.
  - eapply file_step_trans; [exact Hst|]. eapply file_step_trans; [exact Gst|]. by apply write_step.
  - intros pos Hp. unfold a. rewrite (write_byte x D1 i1 Hf1) by done. fold a.
    destruct (decide (pos / BSIZE = off / BSIZE)) as [Eb|Eb].
    + assert (pos = off + (pos mod BSIZE - off mod BSIZE)) as Epos.
      { change BSIZE with 1024 in *. pose proof (Z.div_mod pos 1024). pose proof (Z.div_mod off 1024). lia. }
      assert (0 <= pos mod BSIZE < BSIZE) as Hpm by (by apply Z.mod_pos_bound).
      destruct (decide (off mod BSIZE <= pos mod BSIZE < off mod BSIZE + m)) as [Hin|Hin].
      * rewrite decide_True by (unfold off in *; lia). rewrite !list_lookup_total_alt. unfold v.
        rewrite lookup_splice_in by lia. unfold chunk. rewrite lookup_take_lt, lookup_drop by lia. do 2 f_equal. unfold off in *. lia.
      * transitivity (fbyte D1 i1 pos).
        { unfold fbyte. rewrite Eb. fold a. rewrite (proj2 (Z.eqb_neq a 0)) by done. rewrite !list_lookup_total_alt.
          unfold v. by rewrite lookup_splice_out by lia. }
        rewrite Gby, Hby by done. unfold off in *. destruct (decide _), (decide _); done || lia.
    + rewrite Gby, Hby by done. unfold off in *.
      destruct (decide (off0 <= pos < off0 + tot)), (decide (off0 <= pos < off0 + (tot + m))); try done; [lia|].
      exfalso. apply Eb. destruct (off_block_same (off0 + tot) (pos - (off0 + tot)) ltac:(lia)) as [E _].
      rewrite <- E. f_equal. lia.
  - intros bn Hbn Hne. unfold a. rewrite (write_blk x D1 i1 Hf1) by done. rewrite Gke, Hke; try done. by rewrite Hke.
  - intros pos Hp. assert (in_file (pos / BSIZE)) as Hpf by (apply pos_in_file; unfold off in *; lia).
    unfold a. rewrite (write_blk x D1 i1 Hf1) by done. destruct (decide (pos < off0 + tot)).
    + rewrite Gke; [apply Hth; lia|done|apply Hth; lia].
    + destruct (off_block_same off (pos - off) ltac:(unfold off in *; lia)) as [E _].
      replace (off + (pos - off)) with pos in E by lia. by rewrite E.
Qed.

(** The source yields the bytes of [w] in turn. *)
Context (J : phys -> source -> list Z -> Prop)
  (Hsrc : forall p src l m, J p src l -> 0 <= m <= length l ->
    wp (either_copyin src m p) (fun r p' => r = (0, take (Z.to_nat m) l) /\ J p' (source_add src m) (drop (Z.to_nat m) l))).

Lemma writei_loop_spec k0 fuel D i st p L src tot :
  (Z.to_nat (n - tot) < fuel)%nat -> 0 <= tot <= n -> 0 <= k0 -> written D i tot -> holds st D ∅ L ->
  room x L (3 * nblk (off0 + tot) (n - tot) + k0) -> J p src (drop (Z.to_nat tot) w) ->
  wp (writei_loop fuel ip src (off0 + tot) n tot (set_km p (at_inode s ip i st))) (fun r s' =>
    exists st' p' i' D' L' tot', s' = set_km p' (at_inode s ip i' st') /\ r = (tot', off0 + tot') /\
      tot <= tot' <= n /\ written D' i' tot' /\ holds st' D' ∅ L' /\ room x L' k0 /\ (tot' < n -> disk_full x D') /\
      exists src' l, J p' src' l).
Proof.
  revert D i st p L src tot. induction fuel as [|fuel IH]; intros D i st p L src tot Hfu Htot Hk0 Hwr Hh Hroom HJ; [lia|].
  cbn [writei_loop]. destruct (Z.ltb_spec tot n) as [Hlt|Hge].
  2:{ apply wp_ret. exists st, p, i, D, L, tot. assert (tot = n) as -> by lia. rewrite Z.sub_diag in Hroom.
      split_and!; try done; eauto; lia. }
  set (off := off0 + tot) in *. assert (in_file (off / BSIZE)) as Hr by (apply pos_in_file; unfold off; lia).
  pose proof Hwr as [Hst _ _ _]. pose proof (fs_ok _ _ _ _ _ Hst) as Hd. pose proof (fs_file _ _ _ _ _ Hst) as Hf.
  assert (idev i = sp_dev) as Hdev1 by (rewrite (fs_rest _ _ _ _ _ Hst); exact Hdev).
  pose proof (nblk_step off (n - tot) ltac:(unfold off; lia) ltac:(lia)) as Hnb. cbn zeta in Hnb.
  set (m := Z.min (n - tot) (BSIZE - off mod BSIZE)) in *.
  pose proof (nblk_pos (off + m) (n - tot - m) ltac:(unfold m; lia)) as Hnp.
  set (s1 := set_km p (at_inode s ip i st)).
  assert (itable s1 !!! ip = i) as E1 by (by apply at_inode_get).
  apply wp_bind. eapply wp_mono.
  { apply (bmap_spec x Hly s1 ip D L (3 * nblk off (n - tot) + k0)); rewrite ?E1; try done; [simpl; by rewrite length_insert|lia]. }
  intros addr s2 (st2 & i2 & D2 & L2 & -> & Hh2 & Hg2 & Hr2 & Hz2 & Ha2). rewrite E1 in Hg2.
  assert (at_inode s1 ip i2 st2 = set_km p (at_inode s ip i2 st2)) as ->.
  { unfold s1, at_inode, set_km, set_itable, set_store. simpl. by rewrite list_insert_insert_eq. }
  pose proof Hg2 as [Gst Gby Gke]. destruct (Z.eqb_spec addr 0) as [->|Hne].
  { apply wp_ret. exists st2, p, i2, D2, L2, tot. split_and!; try done; try lia.
    - destruct Hwr as [W1 W2 W3 W4]. split.
      + by eapply file_step_trans.
      + intros pos Hp. rewrite Gby by done. by apply W2.
      + intros bn Hbn Hn0. rewrite Gke, W3; try done. by rewrite W3.
      + intros pos Hp. rewrite Gke; [by apply W4|apply pos_in_file; lia|by apply W4].
    - unfold room in *. lia.
    - intros _. by apply Hz2.
    - eauto. }
  specialize (Ha2 Hne). apply wp_gets.
  change (itable (set_km p (at_inode s ip i2 st2)) !!! ip) with (itable (at_inode s ip i2 st2) !!! ip).
  rewrite at_inode_get by done. assert (idev i2 = sp_dev) as -> by (rewrite (fs_rest _ _ _ _ _ Gst); exact Hdev1).
  pose proof (ly_order x Hly) as Hord. pose proof (fs_file _ _ _ _ _ Gst) as Hf2. pose proof (fs_ok _ _ _ _ _ Gst) as Hd2.
  assert (blk D2 i2 (off / BSIZE) <> 0) as Hbne by (by rewrite Ha2).
  destruct (fk_blk _ _ _ Hf2 _ Hr Hbne) as [Har _]. rewrite Ha2 in Har.
  pose proof (room_size _ _ _ Hr2) as Hs2.
  eapply wp_bread; [exact Hh2|lia|apply not_open_empty|rewrite map_size_empty; lia|].
  intros bp st3 Hbp Hh3 Hd3. apply wp_km. cbn [km set_store set_km]. fold m.
  eapply wp_mono; [apply (Hsrc p src _ m HJ); rewrite length_drop; unfold m; destruct (off_block off ltac:(unfold off; lia)); lia|].
  intros r p' [-> HJ']. apply wp_gets. cbn [store set_store set_km]. rewrite Hd3. cbn [Z.eqb].
  change (0 =? -1) with false. cbn iota.
  eapply wp_setlog_rel; [exact Hbp|exact Hh3|apply Hly; lia|lia|]. intros st4 Hh4.
  rewrite drop_drop in HJ'.
  destruct (off_block off ltac:(unfold off; lia)) as (Ho1 & Ho2 & Ho3). assert (0 < m <= n - tot) as Hm by (unfold m; lia).
  assert (u32 (off + m) = off0 + (tot + m)) as ->.
  { pose proof size_u32. unfold wrap, off. rewrite Z.mod_small; lia. }
  pose proof (written_block D i tot D2 i2 m Hwr Hg2 ltac:(lia) ltac:(done)) as Hwb2. cbn zeta in Hwb2. fold off in Hwb2.
  rewrite Ha2 in Hwb2. specialize (Hwb2 Hne).
  eapply wp_mono; [eapply (IH _ i2 st4 p'); [lia|lia|done|exact Hwb2|exact Hh4| |]|].
  - replace (n - (tot + m)) with (n - tot - m) by lia. replace (off0 + (tot + m)) with (off + m) by (unfold off; lia).
    replace (3 * nblk (off + m) (n - tot - m) + k0) with (3 * nblk off (n - tot) + k0 - 2 - 1) by lia. by apply room_log.
  - replace (Z.to_nat (tot + m)) with (Z.to_nat tot + Z.to_nat m)%nat by lia. done.
  - intros r s' (st' & p2 & i' & D' & L' & tot' & -> & -> & Ht' & Hrest). exists st', p2, i', D', L', tot'.
    split_and!; try done; try lia; apply Hrest.
Qed.

Abbreviation writei_done := (writei_done_ x i0 D0 off0 n w).

Context (Hino : 0 <= inum i0 < ninodes x) (Hfits : inode_fits i0) (Hfull : file_full D0 i0) (Hoffsz : off0 <= isize i0).

Lemma isize_in_file i pos : 0 <= isize i <= MAXFILE * BSIZE -> 0 <= pos < isize i -> in_file (pos / BSIZE).
Proof.
  intros Hi Hp. unfold in_file. change BSIZE with 1024 in *. change MAXFILE with 268 in *.
  pose proof (Z.div_pos pos 1024). pose proof (Z.div_lt_upper_bound pos 1024 268). lia.
Qed.

Lemma writei_done_intro D i tot :
  file_ok x D0 i0 -> 0 <= tot <= n -> written D i tot -> (tot < n -> disk_full x D) ->
  let i' := with_size (Z.max (isize i0) (off0 + tot)) i in writei_done (iupdate_D x D i') i' tot.
Proof.
  intros Hf0 Htot [[Hd Hf Hrest Hfor] Hby Hke Hth] Hsh i'. pose proof (ly_order x Hly) as Hord.
  pose proof (IBLOCK_range x Hly _ Hino) as Hib. destruct Hfull as [Hsz0 Hblk0].
  assert (inum i' = inum i0) as Ei by (simpl; by rewrite Hrest).
  assert (forall no, no <> IBLOCK (inum i0) x -> iupdate_D x D i' no = D no) as Hoth
    by (intros no Hno; apply iupdate_D_other; by rewrite Ei).
  assert (forall bn, blk (iupdate_D x D i') i' bn = blk D i bn) as Hbk.
  { intros bn. change (blk (iupdate_D x D i') i' bn) with (blk (iupdate_D x D i') i bn). apply blk_ext.
    intros Hi. apply Hoth. destruct (fk_ind _ _ _ Hf Hi). lia. }
  assert (forall a, data_ok x D a -> data_ok x (iupdate_D x D i') a) as Hdata.
  { intros a [Ha Hu]. split; [done|]. rewrite iupdate_D_used; [done|done|by rewrite Ei|lia]. }
  assert (inode_fits i') as Hfits' by (apply (fits_with_size x Hly D i i0); [done|done|done|lia]).
  assert (0 <= isize i' <= MAXFILE * BSIZE) as Hsz' by (simpl; lia).
  split.
  - done.
  - apply iupdate_D_ok; [done|done|by rewrite Ei|done].
  - split; [apply Hf|..].
    + intros bn Hr. rewrite Hbk. intros Hne. by apply Hdata, Hf.
    + intros Hne. apply Hdata. by apply (fk_ind _ _ _ Hf).
    + intros bn bn'. rewrite !Hbk. apply (fk_inj _ _ _ Hf).
    + intros bn. rewrite Hbk. apply (fk_ind_ne _ _ _ Hf).
  - split; [simpl; lia|]. intros bn Hbn Hlt. rewrite Hbk. simpl in Hlt.
    assert (in_file bn) as Hr. { unfold in_file. change BSIZE with 1024 in *. change MAXFILE with 268 in *. lia. }
    destruct (decide (bn * BSIZE < isize i0)) as [Hl|Hl]; [rewrite Hke; auto|].
    rewrite <- (Z.div_mul bn BSIZE) by done. apply Hth. lia.
  - unfold i', with_size. simpl. rewrite Hrest. reflexivity.
  - intros pos Hp. rewrite <- Hby.
    + unfold fbyte. rewrite Hbk. destruct (Z.eqb_spec (blk D i (pos / BSIZE)) 0) as [|Hne]; [done|].
      rewrite Hoth; [done|]. destruct (fk_blk _ _ _ Hf _ (isize_in_file i' pos Hsz' Hp) Hne). lia.
    + by apply (isize_in_file i').
  - intros no Hno Hne. destruct (Hfor no Hno) as [E [Hn1 Hn2]]. split; [by rewrite Hoth|].
    split; [destruct Hn1; [by left|right; by apply Hdata]|]. intros (H0 & [E2|(bn & Hr & E2)]); apply Hn2; (split; [done|]).
    + by left.
    + right. exists bn. by rewrite Hbk in E2.
  - intros ino j Hr. rewrite iupdate_D_inode by (done || by rewrite Ei). rewrite Ei. case_decide; [done|].
    pose proof (IBLOCK_range x Hly _ Hr) as Hir.
    assert (foreign x D0 i0 (IBLOCK ino x)) as Hio
      by (split; [left; lia|]; intros Ho; destruct (owns_data x _ _ _ Hf0 Ho); lia).
    unfold disk_inode. by rewrite (proj1 (Hfor _ Hio)).
  - intros Hlt b Hb. rewrite iupdate_D_used; [by apply Hsh|done|by rewrite Ei|done].
Qed.

Lemma set_km_at_inode (s' : fsst St) p i1 st1 i2 st2 :
  at_inode (set_km p (at_inode s' ip i1 st1)) ip i2 st2 = set_km p (at_inode s' ip i2 st2).
Proof. unfold at_inode, set_km, set_itable, set_store. simpl. by rewrite list_insert_insert_eq. Qed.

Lemma writei_spec L k src :
  file_ok x D0 i0 -> fs_disk x D0 -> holds (store s) D0 ∅ L -> 0 <= k -> room x L (3 * nblk off0 n + (k + 1)) -> J (km s) src w ->
  wp (writei ip src off0 n s) (fun r s' => exists st p i D L', s' = set_km p (at_inode s ip i st) /\
    writei_done D i r /\ holds st D ∅ L' /\ room x L' k /\ exists src' l, J p src' l).
Proof.
  intros Hf0 Hd0 Hh Hk Hroom HJ. assert (MAXFILE * BSIZE < 2 ^ 31) as Hmx by done. unfold writei. apply wp_gets. fold i0.
  assert (u32 (off0 + n) = off0 + n) as -> by (unfold wrap; apply Z.mod_small; lia).
  rewrite (proj2 (Z.ltb_ge _ _)), (proj2 (Z.ltb_ge (off0 + n) off0)), (proj2 (Z.ltb_ge (MAXFILE * BSIZE) _)) by lia. cbn [orb].
  assert (written D0 i0 0) as Hw0.
  { split; [by apply file_step_refl| |done|intros; lia]. intros pos Hp. by rewrite decide_False by lia. }
  assert (s = set_km (km s) (at_inode s ip i0 (store s))) as Es by (unfold i0; by rewrite at_inode_id, fsst_eta).
  apply wp_bind. rewrite Es at 1. replace off0 with (off0 + 0) at 1 by lia.
  eapply wp_mono; [eapply (writei_loop_spec (k + 1)); [|split; [done|lia]|lia|exact Hw0|exact Hh| |exact HJ]|].
  { rewrite Z.sub_0_r. lia. }
  { by rewrite Z.add_0_r, Z.sub_0_r. }
  intros r s1 (st & p & i & D & L' & tot & -> & -> & Htot & Hwr & Hh' & Hroom' & Hsh & HJ'). apply wp_gets.
  change (itable (set_km p (at_inode s ip i st))) with (itable (at_inode s ip i st)).
  rewrite at_inode_get by done. pose proof (wr_step _ _ _ _ _ _ _ _ Hwr) as [Hd Hf Hrest _].
  set (i' := with_size (Z.max (isize i0) (off0 + tot)) i).
  assert (isize i = isize i0) as Esz by (by rewrite Hrest).
  apply wp_bind. eapply (wp_mono _ (fun _ s1 => s1 = set_km p (at_inode s ip i' st))).
  { rewrite Esz. destruct (Z.ltb_spec (isize i0) (off0 + tot)) as [Hlt|Hge].
    - apply wp_ret. change (itable (set_km p (at_inode s ip i st))) with (itable (at_inode s ip i st)).
      rewrite at_inode_get by done.
      transitivity (at_inode (set_km p (at_inode s ip i st)) ip (with_size (off0 + tot) i) st); [done|].
      rewrite set_km_at_inode. unfold i'. by rewrite Z.max_r by lia.
    - apply wp_ret. do 2 f_equal. unfold i'. rewrite Z.max_l by lia. destruct i; simpl in *; by subst. }
  intros [] s1 ->. set (s1 := set_km p (at_inode s ip i' st)). assert (itable s1 !!! ip = i') as E1 by (by apply at_inode_get).
  pose proof (writei_done_intro D i tot Hf0 ltac:(lia) Hwr Hsh) as Hdone. cbn zeta in Hdone. fold i' in Hdone.
  assert (inum i' = inum i0 /\ idev i' = idev i0) as [Ei Ed] by (by simpl; rewrite Hrest).
  apply wp_bind. eapply wp_mono; [apply (iupdate_spec s1 Hly ip (D := D) (L := L'))|].
  - by rewrite E1, Ed.
  - by rewrite E1, Ei.
  - done.
  - change (sb s1) with x. unfold room in *. lia.
  - intros [] s2 (st2 & -> & Hh2). rewrite E1 in Hh2. apply wp_ret. eexists st2, p, i', _, _. split; [done|].
    split; [|split; [exact Hh2|split; [|done]]].
    + replace (to_int tot) with tot; [done|]. unfold sint. change (32 - 1) with 31. rewrite Z.mod_small; lia.
    + replace k with (k + 1 - 1) by lia. by apply room_log.
Qed.
End writei.
