(* ===== verification/FsUser.v ===== *)
(** * File data in user memory (kernel/proc.c, [either_copyin] and [either_copyout])

    User memory as the source of [writei] and the destination of [readi]. *)

From S2P Require Import Prelude Riscv Mem Kalloc Vm VmPt VmUser VmCopy Block Bio Store Fs FsBlock FsInode FsFile FsRead FsWrite.

Lemma ubytes_range F m va n : Forall (fun b => 0 <= b < 256) (ubytes F m va n).
Proof. revert va. induction n as [|n IH]; intros va; constructor; [by apply Z.mod_pos_bound|done]. Qed.

Section user.
Context `{Linker} (p0 : phys) (root : Z) (T : tables) (F : list Z) (Has : as_inv (mem p0) root T F)
  (Hhi : high_private (mem p0) root) (va : Z) (n : nat) (Hva : 0 <= va) (Hend : va + n <= MAXVA).

Lemma MAXVA_64 : MAXVA < 2 ^ 64.
Proof. done. Qed.

(** ** As a source *)

Definition user_src (p : phys) (src : source) (l : list Z) : Prop :=
  p = p0 /\ exists c : nat, (c <= n)%nat /\ src = USrc root (va + c) /\ l = ubytes F (mem p0) (va + c) (n - c).

Lemma user_src_step (Hrd : forall j, 0 <= j < n -> readable (mem p0) root (va + j) = true) p src l m :
  user_src p src l -> 0 <= m <= length l ->
  wp (either_copyin src m p) (fun r p' => r = (0, take (Z.to_nat m) l) /\ user_src p' (source_add src m) (drop (Z.to_nat m) l)).
Proof.
  pose proof MAXVA_64 as Hmx. intros (-> & c & Hc & -> & ->) Hm. rewrite length_ubytes in Hm. simpl. unfold copyin.
  destruct (copyin_loop_spec Has Hhi (S (Z.to_nat m)) (va + c) m []) as (k & (Hk & Hall & Hne) & ->); [lia|lia|].
  assert (k = m) as ->.
  { destruct (decide (k = m)); [done|]. exfalso. specialize (Hne ltac:(lia)).
    replace (va + c + k) with (va + (c + k)) in Hne by lia. rewrite Hrd in Hne by lia. done. }
  assert (ubytes F (mem p0) (va + c) (n - c) = ubytes F (mem p0) (va + c) (Z.to_nat m) ++
    ubytes F (mem p0) (va + c + m) (n - c - Z.to_nat m)) as E.
  { replace (n - c)%nat with (Z.to_nat m + (n - c - Z.to_nat m))%nat at 1 by lia. rewrite ubytes_app. do 2 f_equal. lia. }
  apply wp_ret. unfold copy_ret. rewrite Z.eqb_refl. rewrite E. split.
  - by rewrite take_app_length' by (by rewrite length_ubytes).
  - split; [done|]. exists (c + Z.to_nat m)%nat. rewrite drop_app_length' by (by rewrite length_ubytes).
    assert (va + c + m = va + (c + Z.to_nat m)%nat) as Ea by lia.
    split; [lia|]. split.
    + f_equal. unfold wrap. rewrite Z.mod_small; lia.
    + rewrite Ea. f_equal. lia.
Qed.

Lemma user_src_start : user_src p0 (USrc root va) (ubytes F (mem p0) va n).
Proof. split; [done|]. exists 0%nat. rewrite Z.add_0_r, Nat.sub_0_r. split; [lia|done]. Qed.

(** ** As a destination *)

Definition user_dst (p : phys) (d : dest) (l : list Z) : Prop :=
  d = UDst root (va + length l) /\ uwritten F (mem p0) (mem p) va l /\
  same_except (list_to_set F) (mem p0) (mem p) /\ freelist p = freelist p0.

Lemma user_dst_step (Hwr : forall j, 0 <= j < n -> writable (mem p0) root (va + j) = true) p d pre l :
  user_dst p d pre -> (length (pre ++ l) <= n)%nat ->
  wp (either_copyout d l p) (fun r p' => r = (0, kernel_part d l) /\ user_dst p' (dest_add d (length l)) (pre ++ l)).
Proof.
  pose proof MAXVA_64 as Hmx. intros (-> & Hw & Hs & Hfl) Hl. rewrite length_app in Hl.
  assert (list_to_set F ## dom T) as Hdis by apply (as_disj _ _ _ _ Has).
  assert (forall a, 0 <= a -> readable (mem p) root a = readable (mem p0) root a /\ writable (mem p) root a = writable (mem p0) root a)
    as Hfr by (intros a Ha; by apply (readable_frame (list_to_set F) (mem p0) (mem p) root T a (as_pt _ _ _ _ Has))).
  assert (as_inv (mem p) root T F) as Has' by (by eapply as_inv_frame).
  assert (high_private (mem p) root) as Hhi'
    by (intros a Ha; rewrite (proj1 (Hfr a ltac:(assert (0 <= TRAPFRAME) by done; lia))); by apply Hhi).
  simpl. apply wp_bind. eapply wp_mono; [apply (copyout_loop_spec _ p root T F); try done; lia|].
  intros r p' (k & (Hk & Hall & Hne) & -> & Hw' & Hs' & Hfl'). apply wp_ret.
  assert (k = length l) as ->.
  { destruct (decide (k = length l)); [done|]. exfalso. specialize (Hne ltac:(lia)).
    rewrite (proj2 (Hfr (va + length pre + k) ltac:(lia))) in Hne. replace (va + length pre + k) with (va + (length pre + k)) in Hne by lia.
    rewrite Hwr in Hne by lia. done. }
  unfold copy_ret. rewrite Z.eqb_refl. split; [done|]. rewrite Nat2Z.id, take_ge in Hw' by done. split; [|split; [|split]].
  - rewrite length_app. f_equal. unfold wrap. rewrite Z.mod_small; lia.
  - by eapply uwritten_app.
  - intros a Ha. by rewrite Hs', Hs.
  - congruence.
Qed.

Lemma user_dst_start : user_dst p0 (UDst root va) [].
Proof. split; [by rewrite Z.add_0_r|]. split; [apply uwritten_nil|done]. Qed.
End user.
