(* ===== verification/FsDir.v ===== *)
(** * Directories (kernel/fs.c, [dirlookup] and [dirlink])

    A directory is a file of 16-byte entries; an entry with inode number 0 is
    free.  Names are compared up to [DIRSIZ] bytes or the first NUL. *)

From S2P Require Import Prelude Riscv Mem Kalloc Vm Block Bio Store Fs FsBlock FsInode FsFile FsRead FsWrite.

(** ** Names *)

(** What [strncmp] and [strncpy] see of an array: up to [n] bytes, up to a NUL. *)
Fixpoint cstr (n : nat) (l : list Z) : list Z :=
  match n with
  | O => []
  | S n => if hd 0 l =? 0 then [] else hd 0 l :: cstr n (drop 1 l)
  end.

Lemma strncmp_cstr n p q : strncmp_l n p q = 0 <-> cstr n p = cstr n q.
Proof.
  revert p q. induction n as [|n IH]; intros p q; [done|]. cbn [strncmp_l cstr].
  destruct (Z.eqb_spec (hd 0 p) 0) as [E|E], (Z.eqb_spec (hd 0 q) 0) as [E'|E']; cbn [negb andb].
  - split; [done|]. intros _. lia.
  - split; [lia|done].
  - destruct (Z.eqb_spec (hd 0 p) (hd 0 q)); [lia|]. split; [lia|done].
  - destruct (Z.eqb_spec (hd 0 p) (hd 0 q)) as [Eq|Hne].
    + rewrite IH, Eq. split; [by intros ->|by intros [=]].
    + split; [lia|by intros [=]].
Qed.

Lemma length_strncpy n t : length (strncpy_l n t) = n.
Proof.
  revert t. induction n as [|n IH]; intros t; [done|]. cbn [strncpy_l].
  destruct (hd 0 t =? 0); [apply repeat_length|]. simpl. by rewrite IH.
Qed.

Lemma cstr_zeros n m : cstr n (repeat 0 m) = [].
Proof. destruct n, m; done. Qed.

Lemma cstr_idem n l : cstr n (cstr n l) = cstr n l.
Proof.
  revert l. induction n as [|n IH]; intros l; [done|]. cbn [cstr]. destruct (Z.eqb_spec (hd 0 l) 0) as [E|E]; [done|].
  cbn [hd drop]. by rewrite (proj2 (Z.eqb_neq _ _)), drop_0, IH.
Qed.

Lemma cstr_strncpy n t : cstr n (strncpy_l n t) = cstr n t.
Proof.
  revert t. induction n as [|n IH]; intros t; [done|]. cbn [strncpy_l cstr].
  destruct (Z.eqb_spec (hd 0 t) 0) as [E|E]; [done|].
  cbn [hd drop]. rewrite (proj2 (Z.eqb_neq _ 0)) by done. by rewrite drop_0, IH.
Qed.

Lemma strncpy_bytes n t : Forall (fun b => 0 <= b < 256) t -> Forall (fun b => 0 <= b < 256) (strncpy_l n t).
Proof.
  revert t. induction n as [|n IH]; intros t Ht; [constructor|]. cbn [strncpy_l]. destruct (hd 0 t =? 0).
  - apply Forall_forall. intros y Hy%list_elem_of_In%repeat_spec. lia.
  - constructor; [destruct Ht; simpl; [lia|done]|]. apply IH. by apply Forall_drop.
Qed.

(** ** Entries *)

Definition de_inum (de : list Z) : Z := rd 2 de 0.
Definition de_name (de : list Z) : list Z := sub de 2 DIRSIZ.

(** The entry at offset [16 * k]. *)
Definition dirent (D : Z -> list Z) (i : inode) (k : nat) : list Z := file_bytes D i (16 * k) 16.

(** Entry [k] binds [name]. *)
Definition binds (D : Z -> list Z) (i : inode) (name : list Z) (k : nat) : Prop :=
  de_inum (dirent D i k) <> 0 /\ cstr DIRSIZ name = cstr DIRSIZ (de_name (dirent D i k)).

#[export] Instance binds_dec D i name k : Decision (binds D i name k).
Proof. unfold binds. apply _. Defined.

Definition mk_dirent (ino : Z) (name : list Z) : list Z := le_bytes 2 ino ++ strncpy_l DIRSIZ name.

Lemma de_inum_mk ino name : 0 <= ino < 2 ^ 16 -> de_inum (mk_dirent ino name) = ino.
Proof.
  intros Hi. change (de_inum (mk_dirent ino name)) with (le_val (le_bytes 2 ino)). rewrite le_val_bytes.
  by apply Z.mod_small.
Qed.

Lemma de_name_mk ino name : de_name (mk_dirent ino name) = strncpy_l DIRSIZ name.
Proof.
  change (de_name (mk_dirent ino name)) with (take DIRSIZ (strncpy_l DIRSIZ name)). apply take_ge.
  by rewrite length_strncpy.
Qed.

Lemma length_mk_dirent ino name : length (mk_dirent ino name) = 16%nat.
Proof. unfold mk_dirent. by rewrite length_app, length_le_bytes, length_strncpy. Qed.

(** A directory: whole entries. *)
Record dir_ok (x : superblock) (D : Z -> list Z) (i : inode) (nde : nat) : Prop := {
  do_type : itype i = T_DIR;
  do_size : isize i = 16 * nde;
  do_file : file_ok x D i;
  do_full : file_full D i;
}.

Lemma ndirents_exact (n : nat) : ndirents (16 * n) = n.
Proof. unfold ndirents. rewrite Z.mul_comm, Z.div_add_l, Z.div_small by lia. lia. Qed.

Section dir.
Context `{Linker} {St : Type} {ST : Store St} {SP : StoreSpec St} (s : fsst St) (x := sb s) (Hly : layout x)
  (dp : nat) (i := itable s !!! dp) (Hdev : idev i = sp_dev) (D : Z -> list Z) (Hd : fs_disk x D)
  (nde : nat) (Hdir : dir_ok x D i nde) (L : gset Z) (HL : size L <= sp_cap).

(** One entry read into a kernel buffer. *)
Lemma read_dirent st (k : nat) : (k < nde)%nat -> holds st D ∅ L ->
  wp (readi dp KBuf (16 * k) 16 (set_store st s)) (fun r s' => exists st', s' = set_store st' s /\
    r = (16, dirent D i k) /\ holds st' D ∅ L).
Proof.
  destruct Hdir as [_ Hsz Hf Hfull]. intros Hk Hh. pose proof (ff_size _ _ Hfull) as Hmx.
  assert (MAXFILE * BSIZE < 2 ^ 31) by done.
  assert (readable_len (isize i) (16 * k) 16 = 16) as El.
  { unfold readable_len, wrap. rewrite (Z.mod_small (16 * k + 16)), Hsz by lia.
    rewrite !(proj2 (Z.ltb_ge _ _)) by lia. simpl. lia. }
  eapply wp_mono; [apply (readi_spec (set_store st s) Hly dp Hdev D Hd Hf Hfull L HL 16
    (fun p d l => d = KBuf /\ p = km s))|].
  - intros p d pre l [-> ->] _. simpl. done.
  - lia.
  - lia.
  - change (itable (set_store st s) !!! dp) with i. by rewrite El.
  - done.
  - done.
  - cbn zeta. change (itable (set_store st s) !!! dp) with i. rewrite El. intros r s' (st' & p' & d' & -> & -> & Hh' & _ & ->). exists st'.
    split; [|done]. rewrite <- (fsst_eta s) at 3. done.
Qed.

Lemma namecmp_spec name de : (namecmp name (de_name de) =? 0) = true <-> cstr DIRSIZ name = cstr DIRSIZ (de_name de).
Proof. rewrite Z.eqb_eq. apply strncmp_cstr. Qed.

(** The inode table has room for one more reference. *)
Record itable_room (t : list inode) : Prop := {
  itr_inv : itable_inv t;
  itr_slot : exists ip, (ip < NINODEn)%nat /\ iref (t !!! ip) = 0;
  itr_max ip : (ip < NINODEn)%nat -> iref (t !!! ip) < 2 ^ 31 - 1;
}.

Definition lookup_post (j : nat) (name : list Z) (r : option (nat * Z)) (s' : fsst St) : Prop :=
  match r with
  | None => exists st', s' = set_store st' s /\ holds st' D ∅ L /\
      forall k, (j <= k < nde)%nat -> ~ binds D i name k
  | Some (ip, off) => exists st' (k : nat) e, s' = set_itable (<[ip := e]> (itable s)) (set_store st' s) /\ holds st' D ∅ L /\
      off = 16 * k /\ (j <= k < nde)%nat /\ binds D i name k /\ (forall k', (j <= k' < k)%nat -> ~ binds D i name k') /\
      iget_entry (itable s) ip sp_dev (de_inum (dirent D i k)) e /\ itable_inv (itable s') /\
      in_use (itable s') ip sp_dev (de_inum (dirent D i k))
  end.

Lemma dirlookup_loop_spec kk j name st :
  (kk + j = nde)%nat -> itable_room (itable s) -> holds st D ∅ L ->
  wp (dirlookup_loop kk dp name (16 * j) (set_store st s)) (lookup_post j name).
Proof.
  intros Hk Hit. revert j st Hk. induction kk as [|kk IH]; intros j st Hk Hh; cbn [dirlookup_loop].
  { apply wp_ret. exists st. split_and!; [done|done|]. intros. lia. }
  apply wp_bind. eapply wp_mono; [apply (read_dirent st j); [lia|done]|]. intros r s1 (st1 & -> & -> & Hh1).
  cbn iota beta. change (negb (16 =? 16)) with false. cbn iota. fold (de_inum (dirent D i j)) (de_name (dirent D i j)).
  assert (forall st2, holds st2 D ∅ L -> ~ binds D i name j ->
    wp (dirlookup_loop kk dp name (16 * j + 16) (set_store st2 s)) (lookup_post j name)) as Hnext.
  { intros st2 Hh2 Hnb. replace (16 * j + 16) with (16 * (S j)) by lia. eapply wp_mono; [apply IH; [lia|done]|].
    intros [[ip off]|] s' Hr.
    - destruct Hr as (st' & k & e & -> & Hh' & -> & Hkr & Hb & Hf & Hrest). exists st', k, e. split_and!; try done; [lia..| |apply Hrest|apply Hrest|apply Hrest].
      intros k' Hk'. destruct (decide (k' = j)) as [->|]; [done|]. apply Hf. lia.
    - destruct Hr as (st' & -> & Hh' & Hf). exists st'. split_and!; try done. intros k' Hk'.
      destruct (decide (k' = j)) as [->|]; [done|]. apply Hf. lia. }
  destruct (Z.eqb_spec (de_inum (dirent D i j)) 0) as [E0|E0].
  { apply Hnext; [done|]. by intros [? _]. }
  destruct (namecmp name (de_name (dirent D i j)) =? 0) eqn:En.
  2:{ apply Hnext; [done|]. intros [_ Hc]. apply namecmp_spec in Hc. by rewrite Hc in En. }
  apply namecmp_spec in En. apply wp_gets. change (itable (set_store st1 s) !!! dp) with i. rewrite Hdev.
  destruct Hit as [Hinv (ip0 & Hip0 & H0) Hmax].
  apply wp_bind. eapply wp_mono; [apply (iget_spec (set_store st1 s)); [done|exists ip0; auto|done]|].
  intros ip s2 (e & -> & He & Hinv' & Hu). apply wp_ret. exists st1, j, e. split_and!; try done; [lia..|]. intros; lia.
Qed.

Lemma dirlookup_spec name :
  itable_room (itable s) -> holds (store s) D ∅ L -> wp (dirlookup dp name s) (lookup_post 0 name).
Proof.
  intros Hit Hh. pose proof Hdir as [Hty Hsz _ _]. unfold dirlookup. apply wp_gets. fold i. rewrite Hty, Hsz, ndirents_exact.
  change (negb (T_DIR =? T_DIR)) with false. cbn iota. change 0 with (16 * 0%nat).
  replace s with (set_store (store s) s) at 1 by (by rewrite <- (fsst_eta s) at 3).
  apply dirlookup_loop_spec; [lia|done|done].
Qed.

(** The scan for a free entry. *)
Lemma dirlink_loop_spec kk j st :
  (kk + j = nde)%nat -> holds st D ∅ L ->
  wp (dirlink_loop kk dp (16 * j) (set_store st s)) (fun off s' => exists st' (k : nat), s' = set_store st' s /\ holds st' D ∅ L /\
    off = 16 * k /\ (j <= k <= nde)%nat /\ ((k < nde)%nat -> de_inum (dirent D i k) = 0)).
Proof.
  revert j st. induction kk as [|kk IH]; intros j st Hk Hh; cbn [dirlink_loop].
  { apply wp_ret. exists st, j. split_and!; try done; lia. }
  apply wp_bind. eapply wp_mono; [apply (read_dirent st j); [lia|done]|]. intros r s1 (st1 & -> & -> & Hh1).
  cbn iota beta. change (negb (16 =? 16)) with false. cbn iota. fold (de_inum (dirent D i j)).
  destruct (Z.eqb_spec (de_inum (dirent D i j)) 0) as [E0|E0].
  { apply wp_ret. exists st1, j. split_and!; try done; lia. }
  replace (16 * j + 16) with (16 * S j) by lia. eapply wp_mono; [apply IH; [lia|done]|].
  intros off s' (st' & k & -> & Hh' & -> & Hkr & He). exists st', k. split_and!; try done; lia.
Qed.

(** ** Adding an entry *)

(** Entry [k] was set to [de]; the others are as before. *)
Record dir_set (D' : Z -> list Z) (i' : inode) (k : nat) (de : list Z) : Prop := {
  ds_dir : dir_ok x D' i' (nde `max` (k + 1));
  ds_new : dirent D' i' k = de;
  ds_old k' : (k' < nde)%nat -> k' <> k -> dirent D' i' k' = dirent D i k';
}.

Lemma write_dirent (k : nat) de D' i' :
  (k <= nde)%nat -> length de = 16%nat -> inode_fits i ->
  writei_done_ x i D (16 * k) 16 de D' i' 16 -> dir_set D' i' k de.
Proof.
  destruct Hdir as [Hty Hsz Hf Hfull]. intros Hk Hl Hfits [_ Hdk Hfile Hfull' Hrest Hbyte _ _ _].
  assert (isize i' = 16 * (nde `max` (k + 1))%nat) as Hsz' by (rewrite Hrest; simpl; lia). split.
  - split; [rewrite Hrest; exact Hty|done|done|done].
  - apply list_eq. intros j. destruct (decide (j < 16)%nat).
    + unfold dirent. rewrite lookup_file_bytes, Hbyte, decide_True by lia.
      destruct (lookup_lt_is_Some_2 de j) as [y Hy]; [lia|]. rewrite Hy. f_equal. apply list_lookup_total_correct.
      rewrite <- Hy. f_equal. lia.
    + unfold dirent. rewrite !lookup_ge_None_2 by (rewrite ?length_file_bytes; lia). done.
  - intros k' Hk' Hne. apply file_bytes_ext. intros j Hj. rewrite Hbyte by lia. by rewrite decide_False by lia.
Qed.

Lemma nblk_dirent (k : nat) : nblk (16 * k) 16 = 1.
Proof.
  unfold nblk. change BSIZE with 1024. cbn [Z.eqb]. change (16 =? 0) with false. cbn iota.
  assert ((16 * k) mod 1024 = 16 * (k mod 64)) as ->.
  { change 1024 with (16 * 64). by rewrite Z.mul_mod_distr_l. }
  pose proof (Z.mod_pos_bound k 64). symmetry. apply (Z.div_unique_pos _ _ _ (16 * (k mod 64) + 15)); lia.
Qed.

Context (Hdp : (dp < length (itable s))%nat) (Hino : 0 <= inum i < ninodes x) (Hfits : inode_fits i).

Definition link_post (name : list Z) (ino : Z) (k0 : Z) (r : Z) (s' : fsst St) : Prop :=
  exists st i' D' L', s' = at_inode s dp i' st /\ holds st D' ∅ L' /\ fs_disk x D' /\ room x L' k0 /\
    ((r = -1 /\ disk_full x D') \/
     (r = 0 /\ exists k, (k <= nde)%nat /\ writei_done_ x i D (16 * k) 16 (mk_dirent ino name) D' i' 16 /\
        dir_set D' i' k (mk_dirent ino name))).

Lemma dirlink_spec pid name ino k0 :
  itable_room (itable s) -> holds (store s) D ∅ L -> (forall k, (k < nde)%nat -> ~ binds D i name k) ->
  Forall (fun b => 0 <= b < 256) name -> 16 * (nde + 1) <= MAXFILE * BSIZE -> 0 <= k0 -> room x L (k0 + 4) ->
  wp (dirlink pid dp name ino s) (link_post name ino k0).
Proof.
  intros Hit Hh Hnb Hname Hmax Hk0 Hroom. unfold dirlink. apply wp_bind.
  eapply wp_mono; [by apply dirlookup_spec|]. intros [[ip off]|] s1 Hr.
  { destruct Hr as (st' & k & e & _ & _ & _ & Hk & Hb & _). exfalso. apply (Hnb k); [lia|done]. }
  destruct Hr as (st1 & -> & Hh1 & _). apply wp_gets. change (itable (set_store st1 s) !!! dp) with i.
  rewrite (do_size _ _ _ _ Hdir), ndirents_exact. apply wp_bind.
  eapply wp_mono; [apply (dirlink_loop_spec nde 0%nat st1); [lia|done]|]. intros off s2 (st2 & k & -> & Hh2 & -> & Hk & _).
  fold (mk_dirent ino name). set (de := mk_dirent ino name).
  assert (length de = 16%nat) as Hl by apply length_mk_dirent. apply wp_bind. cbn zeta.
  eapply wp_mono; [apply (writei_spec (set_store st2 s) Hly dp Hdp Hdev D (16 * k) 16 de) with (L := L) (k := k0)
    (J := fun p src l => p = km s /\ src = KSrc l)|].
  - lia.
  - lia.
  - lia.
  - by rewrite Hl.
  - apply Forall_app_2; [apply le_bytes_range|by apply strncpy_bytes].
  - intros p src l m [-> ->] Hm. simpl. done.
  - done.
  - done.
  - apply Hdir.
  - change (itable (set_store st2 s) !!! dp) with i. rewrite (do_size _ _ _ _ Hdir). lia.
  - apply Hdir.
  - done.
  - done.
  - done.
  - rewrite nblk_dirent. change (sb (set_store st2 s)) with x. by replace (3 * 1 + (k0 + 1)) with (k0 + 4) by lia.
  - done.
  - intros r s' (st & p & i' & D' & L' & -> & Hdone & Hh' & Hroom' & (src' & l & -> & _)).
    pose proof (wd_disk _ _ _ _ _ _ _ _ _ Hdone) as Hdk. destruct (Z.eqb_spec r 16) as [->|Hne]; cbn [negb]; apply wp_ret;
      exists st, i', D', L'; (split; [done|]); (split; [done|]); (split; [done|]); (split; [done|]).
    + right. split; [done|]. exists k. split; [lia|]. split; [done|]. apply write_dirent; done || lia.
    + left. split; [done|]. apply (wd_short _ _ _ _ _ _ _ _ _ Hdone).
      pose proof (wd_tot _ _ _ _ _ _ _ _ _ Hdone). lia.
Qed.
End dir.
