(* ===== verification/FsPath.v ===== *)
(** * Path names (kernel/fs.c, [skipelem] and [namex])

    The elements that [namex] visits are the non-empty parts of the path
    between slashes, each cut to [DIRSIZ] bytes. *)

From S2P Require Import Prelude Riscv Mem Kalloc Vm Block Bio Store Fs FsBlock FsInode FsFile FsRead FsWrite FsDir.

(** ** Splitting at slashes *)

Fixpoint split_on (c : Z) (l : list Z) : list (list Z) :=
  match l with
  | [] => [[]]
  | y :: l =>
      if y =? c then [] :: split_on c l
      else match split_on c l with h :: t => (y :: h) :: t | [] => [[y]] end
  end.

Definition components (path : list Z) : list (list Z) := filter (fun e => e <> []) (split_on SLASH path).

Lemma split_on_cons c l : exists h t, split_on c l = h :: t.
Proof. destruct l as [|y l]; simpl; [eauto|]. destruct (y =? c); [eauto|]. destruct (split_on c l); eauto. Qed.

Lemma components_slash path : components (SLASH :: path) = components path.
Proof. unfold components. simpl. by rewrite filter_cons_False by (by intros ?). Qed.

Lemma components_skip path : components (skip_slashes path) = components path.
Proof.
  induction path as [|c p IH]; [done|]. cbn [skip_slashes]. destruct (Z.eqb_spec c SLASH) as [->|]; [|done].
  by rewrite components_slash.
Qed.

Lemma skip_slashes_head path c p : skip_slashes path = c :: p -> c <> SLASH.
Proof.
  induction path as [|c' p' IH]; [done|]. cbn [skip_slashes]. destruct (Z.eqb_spec c' SLASH); [done|]. by intros [= -> ->].
Qed.

Lemma length_skip_slashes path : (length (skip_slashes path) <= length path)%nat.
Proof. induction path as [|c p IH]; [done|]. cbn [skip_slashes]. destruct (c =? SLASH); simpl; lia. Qed.

Lemma span_elem_app path e r : span_elem path = (e, r) ->
  path = e ++ r /\ Forall (fun c => c <> SLASH) e /\ match r with [] => True | c :: _ => c = SLASH end.
Proof.
  revert e r. induction path as [|c p IH]; intros e r; cbn [span_elem]; [by intros [= <- <-]|].
  destruct (Z.eqb_spec c SLASH) as [->|Hne]; [by intros [= <- <-]|].
  destruct (span_elem p) as [e' r'] eqn:E. intros [= <- <-]. destruct (IH _ _ eq_refl) as (-> & He & Hr).
  split_and!; [done|by constructor|done].
Qed.

Lemma split_on_app e r : Forall (fun c => c <> SLASH) e -> match r with [] => True | c :: _ => c = SLASH end ->
  exists t, split_on SLASH (e ++ r) = e :: t /\ components r = filter (fun e => e <> []) t.
Proof.
  intros He Hr. induction He as [|c e Hc He (t & IH & Ht)]; simpl.
  - destruct r as [|c r]; [by exists []|]. subst c. simpl. exists (split_on SLASH r). split; [done|]. apply components_slash.
  - rewrite (proj2 (Z.eqb_neq _ _)), IH by done. eauto.
Qed.

(** ** [skipelem] *)

Lemma cstr_take n e rest : Forall (fun c => c <> 0) e -> (length e < n)%nat -> cstr n (e ++ 0 :: rest) = e.
Proof.
  revert e. induction n as [|n IH]; intros e He Hl; [lia|]. destruct He as [|c e Hc He]; [done|]. cbn [cstr hd app drop].
  rewrite (proj2 (Z.eqb_neq _ _)), drop_0 by done. f_equal. apply IH; [done|]. simpl in Hl. lia.
Qed.

Lemma cstr_full n e : Forall (fun c => c <> 0) e -> length e = n -> cstr n e = e.
Proof.
  revert e. induction n as [|n IH]; intros e He Hl; [by destruct e|]. destruct He as [|c e Hc He]; [done|].
  cbn [cstr hd drop]. rewrite (proj2 (Z.eqb_neq _ _)), drop_0 by done. f_equal. apply IH; [done|]. by injection Hl.
Qed.

Lemma skipelem_spec path name :
  Forall (fun c => c <> 0) path -> length name = DIRSIZ ->
  match skipelem path name with
  | None => components path = []
  | Some (rest, name') => exists e, components path = e :: components rest /\
      cstr DIRSIZ name' = take DIRSIZ e /\ length name' = DIRSIZ /\ (length rest < length path)%nat /\
      Forall (fun c => c <> 0) rest /\ (components rest = [] -> rest = [])
  end.
Proof.
  intros Hnz Hname. unfold skipelem. pose proof (components_skip path) as Hc. pose proof (length_skip_slashes path) as Hl.
  assert (Forall (fun c => c <> 0) (skip_slashes path)) as Hnz'.
  { clear -Hnz. induction Hnz as [|c p Hc Hp IH]; [constructor|]. cbn [skip_slashes]. destruct (c =? SLASH); [done|by constructor]. }
  destruct (skip_slashes path) as [|c p] eqn:E; [by rewrite <- Hc|]. pose proof (skip_slashes_head _ _ _ E) as Hcs.
  destruct (span_elem (c :: p)) as [e rest] eqn:Es. destruct (span_elem_app _ _ _ Es) as (Eapp & He & Hr).
  rewrite Eapp in Hnz'. apply Forall_app in Hnz' as [Hez Hrz].
  destruct (split_on_app e rest He Hr) as (t & Et & Ht).
  assert (e <> []) as Hne by (intros ->; simpl in Eapp; subst rest; by apply Hcs).
  exists e. pose proof (length_skip_slashes rest) as Hl2. apply (f_equal length) in Eapp as El. rewrite length_app in El.
  assert (0 < length e)%nat by (destruct e; [done|simpl; lia]). split_and!.
  - rewrite <- Hc, Eapp. unfold components at 1. rewrite Et, filter_cons_True by done. by rewrite <- Ht, components_skip.
  - destruct (Nat.leb_spec DIRSIZ (length e)) as [Hge|Hlt].
    + apply cstr_full; [by apply Forall_take|]. rewrite length_take. lia.
    + rewrite cstr_take by done. by rewrite take_ge by lia.
  - destruct (Nat.leb_spec DIRSIZ (length e)) as [Hge|Hlt]; [rewrite length_take; lia|].
    rewrite length_app. simpl. rewrite length_drop. lia.
  - lia.
  - clear -Hrz. induction Hrz as [|c p Hc Hp IH]; [constructor|]. cbn [skip_slashes]. destruct (c =? SLASH); [done|by constructor].
  - destruct (skip_slashes rest) as [|c' p'] eqn:E'; [done|]. intros Hn. exfalso. pose proof (skip_slashes_head _ _ _ E') as Hc'.
    unfold components in Hn. simpl in Hn. rewrite (proj2 (Z.eqb_neq _ _)) in Hn by done.
    destruct (split_on_cons SLASH p') as (h & t' & Eh). rewrite Eh, filter_cons_True in Hn by done. done.
Qed.
