(* ===== verification/FsName.v ===== *)
(** * Name resolution (kernel/fs.c, [namex])

    On a disk whose directories are well formed, [namei] and [nameiparent]
    follow the path from directory to directory as the disk describes it,
    leave the disk unchanged, and take exactly one reference, to the inode
    they return. *)

From S2P Require Import Prelude Riscv Mem Kalloc Vm Block Bio Store Fs FsBlock FsInode FsFile FsRead FsWrite FsDir FsPath.

(** ** The tree on disk *)

(** Inode [ino] as the disk has it. *)
Definition dino (x : superblock) (D : Z -> list Z) (ino : Z) : inode := disk_inode x D ino inhabitant.

(** Entries of a directory. *)
Definition nde (i : inode) : nat := Z.to_nat (isize i / 16).

(** The inode number bound to [name] in directory [i]. *)
Definition dir_find (D : Z -> list Z) (i : inode) (name : list Z) : option Z :=
  '(_, k) ← list_find (fun k => binds D i name k) (seq 0 (nde i)); Some (de_inum (dirent D i k)).

(** The inode reached from [ino] along the names. *)
Fixpoint resolve (x : superblock) (D : Z -> list Z) (ino : Z) (names : list (list Z)) : option Z :=
  match names with
  | [] => Some ino
  | name :: names =>
      if itype (dino x D ino) =? T_DIR then
        ino' ← dir_find D (dino x D ino) name; resolve x D ino' names
      else None
  end.

(** An allocated inode with links. *)
Definition linked_ino (x : superblock) (D : Z -> list Z) (ino : Z) : Prop :=
  0 < ino < ninodes x /\ itype (dino x D ino) <> 0 /\ nlink (dino x D ino) <> 0.

(** Directories are well formed, and their entries lead to allocated inodes. *)
Definition tree_ok (x : superblock) (D : Z -> list Z) : Prop :=
  forall ino, 0 < ino < ninodes x -> itype (dino x D ino) = T_DIR ->
    dir_ok x D (dino x D ino) (nde (dino x D ino)) /\
    forall k, (k < nde (dino x D ino))%nat -> de_inum (dirent D (dino x D ino) k) <> 0 ->
      linked_ino x D (de_inum (dirent D (dino x D ino) k)).

(** ** Only the disk part of an inode matters *)

Definition same_disk (i j : inode) : Prop :=
  itype i = itype j /\ nlink i = nlink j /\ isize i = isize j /\ addrs i = addrs j.

Lemma same_disk_inode x D ino j j' : same_disk (disk_inode x D ino j) (disk_inode x D ino j').
Proof. done. Qed.

Lemma blk_same D i j bn : addrs i = addrs j -> blk D i bn = blk D j bn.
Proof. intros E. unfold blk, ind. by rewrite E. Qed.

Lemma dirent_same D i j k : addrs i = addrs j -> dirent D i k = dirent D j k.
Proof. intros E. apply file_bytes_ext. intros n _. unfold fbyte. by rewrite (blk_same D i j). Qed.

Lemma dir_ok_same x D i j n : same_disk i j -> dir_ok x D i n -> dir_ok x D j n.
Proof.
  intros (Et & _ & Es & Ea) [Hty Hsz [H1 H2 H3 H4 H5] [H6 H7]].
  assert (forall bn, blk D j bn = blk D i bn) as Eb by (intros; symmetry; by apply blk_same).
  assert (ind j = ind i) as Ei by (unfold ind; by rewrite Ea). split; [congruence|congruence| |].
  - split; rewrite ?Ei, <- ?Ea; try done; intros bn; rewrite Eb; [apply H2| |apply H5].
    intros bn'. rewrite Eb. apply H4.
  - split; [by rewrite <- Es|]. intros bn. rewrite Eb, <- Es. apply H7.
Qed.

Lemma binds_same D i j name k : addrs i = addrs j -> binds D i name k <-> binds D j name k.
Proof. intros E. unfold binds. by rewrite (dirent_same D i j). Qed.

Lemma dir_find_same D i j name : same_disk i j -> dir_find D i name = dir_find D j name.
Proof.
  intros (_ & _ & Es & Ea). unfold dir_find, nde. rewrite Es.
  assert (list_find (fun k => binds D i name k) (seq 0 (Z.to_nat (isize j / 16))) =
          list_find (fun k => binds D j name k) (seq 0 (Z.to_nat (isize j / 16)))) as ->.
  { apply list_find_ext. intros k. by apply binds_same. }
  destruct (list_find _ _) as [[? k]|]; [|done]. simpl. by rewrite (dirent_same D i j).
Qed.

Lemma dir_find_some D i name k n :
  nde i = n -> (k < n)%nat -> binds D i name k -> (forall k', (k' < k)%nat -> ~ binds D i name k') ->
  dir_find D i name = Some (de_inum (dirent D i k)).
Proof.
  intros Hn Hk Hb Hf. unfold dir_find. rewrite Hn.
  assert (list_find (fun k => binds D i name k) (seq 0 n) = Some (k, k)) as ->; [|done].
  apply list_find_Some. rewrite lookup_seq_lt by done. split_and!; [done|done|].
  intros j y [-> Hj]%lookup_seq Hlt. by apply Hf.
Qed.

Lemma dir_find_none D i name n :
  nde i = n -> (forall k, (k < n)%nat -> ~ binds D i name k) -> dir_find D i name = None.
Proof.
  intros Hn Hf. unfold dir_find. rewrite Hn.
  assert (list_find (fun k => binds D i name k) (seq 0 n) = None) as ->; [|done].
  apply list_find_None, Forall_forall. intros k Hk%elem_of_seq. apply Hf. lia.
Qed.

Lemma dir_find_cstr D i a b : cstr DIRSIZ a = cstr DIRSIZ b -> dir_find D i a = dir_find D i b.
Proof.
  intros E. unfold dir_find.
  assert (list_find (fun k => binds D i a k) (seq 0 (nde i)) = list_find (fun k => binds D i b k) (seq 0 (nde i))) as ->; [|done].
  apply list_find_ext. intros k. unfold binds. by rewrite E.
Qed.

(** ** References *)

Definition delta (ip j : nat) : Z := if decide (j = ip) then 1 else 0.

Section name.
Context `{Linker} {St : Type} {ST : Store St} {SP : StoreSpec St} (pid : Z)
  (x : superblock) (Hly : layout x) (D : Z -> list Z) (Hd : fs_disk x D) (Htree : tree_ok x D).

(** The table agrees with the disk. *)
Record table_ok (t : list inode) : Prop := {
  to_inv : itable_inv t;
  to_id ip : (ip < NINODEn)%nat -> 0 < iref (t !!! ip) ->
    idev (t !!! ip) = sp_dev /\ 0 < inum (t !!! ip) < ninodes x /\ itype (dino x D (inum (t !!! ip))) <> 0;
  to_max ip : (ip < NINODEn)%nat -> iref (t !!! ip) < 2 ^ 31 - 2;
  to_coh ip : (ip < NINODEn)%nat -> 0 < iref (t !!! ip) -> ivalid (t !!! ip) = true ->
    t !!! ip = disk_inode x D (inum (t !!! ip)) (t !!! ip);
}.

(** [t] is [t0] with the references counted by [refs] on top; [lk] is locked. *)
Record plus (t0 : list inode) (refs : nat -> Z) (lk : option nat) (t : list inode) : Prop := {
  pl_table : table_ok t;
  pl_ref ip : (ip < NINODEn)%nat -> iref (t !!! ip) = iref (t0 !!! ip) + refs ip;
  pl_id ip dev ino : in_use t0 ip dev ino -> in_use t ip dev ino;
  pl_lk ip : (ip < NINODEn)%nat -> ilk (t !!! ip) = if decide (lk = Some ip) then pid else 0;
}.

(** The starting table: room for the references [namex] takes. *)
Record start_ok (t0 : list inode) : Prop := {
  so_free : exists a b, (a < NINODEn)%nat /\ (b < NINODEn)%nat /\ a <> b /\ iref (t0 !!! a) = 0 /\ iref (t0 !!! b) = 0;
  so_max ip : (ip < NINODEn)%nat -> 0 <= iref (t0 !!! ip) < 2 ^ 31 - 4;
}.

Lemma plus_room t0 ip lk t : start_ok t0 -> plus t0 (delta ip) lk t -> itable_room t.
Proof.
  intros [(a & b & Ha & Hb & Hab & Ea & Eb) Hm] [Ht Hr _ _]. split; [apply Ht| |].
  - destruct (decide (a = ip)) as [->|Hne].
    + exists b. split; [done|]. rewrite Hr, Eb by done. unfold delta. by rewrite decide_False by done.
    + exists a. split; [done|]. rewrite Hr, Ea by done. unfold delta. by rewrite decide_False by done.
  - intros j Hj. pose proof (to_max _ Ht j Hj). lia.
Qed.

(** A new reference. *)
Lemma plus_iget t0 refs lk t ip ino e :
  start_ok t0 -> plus t0 refs lk t -> (forall j, 0 <= refs j <= 1) -> iget_entry t ip sp_dev ino e ->
  itable_inv (<[ip := e]> t) -> in_use (<[ip := e]> t) ip sp_dev ino -> 0 < ino < ninodes x -> itype (dino x D ino) <> 0 ->
  plus t0 (fun j => refs j + delta ip j) lk (<[ip := e]> t).
Proof.
  intros [_ Hm] [Ht Hr Hid Hlk] Hrf He Hinv Hu Hino Hty. assert (ip < NINODEn)%nat as Hip by apply Hu.
  pose proof (iti_len _ (to_inv _ Ht)) as Hl.
  assert (to_int (iref (t !!! ip) + 1) = iref (t !!! ip) + 1) as Eint.
  { pose proof (to_max _ Ht ip Hip). pose proof (iti_ref _ (to_inv _ Ht) ip Hip). unfold sint. change (32 - 1) with 31.
    rewrite Z.mod_small; lia. }
  assert (iref e = iref (t !!! ip) + 1 /\ ilk e = ilk (t !!! ip) /\ idev e = sp_dev /\ inum e = ino) as (Er & El & Edev & Ei).
  { destruct He as [[(_ & _ & Ed & Ein) ->]|(_ & E0 & ->)]; simpl; [by rewrite Eint|by rewrite E0]. }
  assert (forall j, (j < NINODEn)%nat -> (<[ip:=e]> t) !!! j = if decide (j = ip) then e else t !!! j) as Hlook.
  { intros j Hj. destruct (decide (j = ip)) as [->|]; [apply list_lookup_total_insert_eq; lia|by apply list_lookup_total_insert_ne]. }
  split.
  - split; [done|..]; intros j Hj; rewrite Hlook by done; destruct (decide (j = ip)) as [->|]; try by apply Ht.
    + intros _. rewrite Ei. done.
    + rewrite Er, (Hr _ Hip). pose proof (Hm _ Hip). pose proof (Hrf ip). lia.
    + intros _. destruct He as [[(_ & Hpos & _) ->]|(_ & _ & ->)]; [|done]. simpl. intros Hv.
      pose proof (to_coh _ Ht ip Hip Hpos Hv) as Ec. apply (f_equal (with_ref (to_int (iref (t !!! ip) + 1)))) in Ec. exact Ec.
  - intros j Hj. rewrite Hlook by done. unfold delta. destruct (decide (j = ip)) as [->|]; [rewrite Er, Hr by done; lia|].
    rewrite Hr by done. lia.
  - intros j dev ino' Hu0. specialize (Hid _ _ _ Hu0). destruct (decide (j = ip)) as [->|Hne].
    + destruct Hid as (_ & Hpos & E1 & E2). unfold in_use in *. rewrite Hlook, decide_True by done.
      rewrite Edev, Ei, Er. destruct He as [[(_ & _ & Ed & Ein) ->]|(_ & E0 & _)]; [|lia]. split_and!; [done|lia|congruence|congruence].
    + unfold in_use in *. by rewrite Hlook, decide_False by (done || apply Hid).
  - intros j Hj. rewrite Hlook by done. destruct (decide (j = ip)) as [->|]; [rewrite El|]; by apply Hlk.
Qed.

Lemma table_lookup t ip j (e : inode) : length t = NINODEn -> (ip < NINODEn)%nat -> (j < NINODEn)%nat ->
  (<[ip:=e]> t) !!! j = if decide (j = ip) then e else t !!! j.
Proof.
  intros Hl Hip Hj. destruct (decide (j = ip)) as [->|]; [apply list_lookup_total_insert_eq; lia|by apply list_lookup_total_insert_ne].
Qed.

(** Changing an entry without changing which inode it is. *)
Lemma plus_upd t0 refs lk t ip e refs' lk' :
  start_ok t0 -> plus t0 refs lk t -> (ip < NINODEn)%nat ->
  idev e = idev (t !!! ip) -> inum e = inum (t !!! ip) -> iref e = iref (t !!! ip) + (refs' ip - refs ip) ->
  0 <= refs' ip <= refs ip -> (forall j, j <> ip -> refs' j = refs j) ->
  (0 < iref e -> ivalid e = true -> e = disk_inode x D (inum e) e) ->
  (forall j, (j < NINODEn)%nat -> j <> ip -> (if decide (lk' = Some j) then pid else 0) = (if decide (lk = Some j) then pid else 0)) ->
  ilk e = (if decide (lk' = Some ip) then pid else 0) ->
  plus t0 refs' lk' (<[ip := e]> t).
Proof.
  intros [_ Hm] [Ht Hr Hid Hlk] Hip Edev Ei Er Hrf Hrj Hcoh Hlj Hl. pose proof (iti_len _ (to_inv _ Ht)) as Hlen.
  pose proof (Hm _ Hip) as Hmi. pose proof (Hr _ Hip) as Hri.
  assert (forall j, (j < NINODEn)%nat -> (<[ip:=e]> t) !!! j = if decide (j = ip) then e else t !!! j) as Hlook
    by (intros; by apply table_lookup).
  split.
  - split.
    + apply itable_inv_upd; [apply Ht|done|lia|]. intros ip' Hne Hpos Hu. apply Hne.
      apply (iti_uniq _ (to_inv _ Ht) _ _ _ _ Hu). unfold in_use. rewrite Edev, Ei. split_and!; try done. lia.
    + intros j Hj. rewrite Hlook by done. destruct (decide (j = ip)) as [->|]; [|by apply Ht].
      intros Hpos. rewrite Edev, Ei. apply Ht; [done|lia].
    + intros j Hj. rewrite Hlook by done. destruct (decide (j = ip)) as [->|]; [|by apply Ht]. pose proof (to_max _ Ht ip Hip). lia.
    + intros j Hj. rewrite Hlook by done. destruct (decide (j = ip)) as [->|]; [done|by apply Ht].
  - intros j Hj. rewrite Hlook by done. destruct (decide (j = ip)) as [->|]; [lia|]. rewrite Hr, Hrj by done. done.
  - intros j dev ino Hu0. specialize (Hid _ _ _ Hu0). destruct (decide (j = ip)) as [->|Hne].
    + unfold in_use in *. rewrite Hlook, decide_True by done. rewrite Edev, Ei. split_and!; try apply Hid.
      destruct Hu0 as (_ & ? & _). lia.
    + unfold in_use in *. by rewrite Hlook, decide_False by (done || apply Hid).
  - intros j Hj. rewrite Hlook by done. destruct (decide (j = ip)) as [->|]; [done|]. rewrite Hlj by done. by apply Hlk.
Qed.

(** The entry of a locked inode shows what is on disk. *)
Lemma ilock_name t0 refs t ip (s : fsst St) L :
  start_ok t0 -> plus t0 refs None t -> (ip < NINODEn)%nat -> 0 < iref (t !!! ip) -> 0 <= refs ip ->
  itable s = t -> sb s = x -> holds (store s) D ∅ L -> size L <= sp_cap ->
  wp (ilock pid ip s) (fun _ s' => exists st e, s' = set_itable (<[ip := e]> t) (set_store st s) /\ holds st D ∅ L /\
    plus t0 refs (Some ip) (<[ip := e]> t) /\ same_disk e (dino x D (inum (t !!! ip))) /\ ivalid e = true /\
    idev e = idev (t !!! ip) /\ inum e = inum (t !!! ip) /\ iref e = iref (t !!! ip) /\ ilk e = pid).
Proof.
  intros Hst Hpl Hip Hpos Hrf Et Ex Hh HL. pose proof Hpl as [Ht _ _ Hlk]. pose proof (to_id _ Ht ip Hip Hpos) as (Edev & Hino & Hty).
  pose proof (Hlk ip Hip) as Hl. rewrite decide_False in Hl by done. pose proof (iti_len _ (to_inv _ Ht)) as Hlen. subst t.
  eapply wp_mono; [apply (ilock_spec s) with (D := D) (L := L); rewrite ?Ex; try done; lia|].
  intros [] s' (st & -> & Hh'). set (i := itable s !!! ip) in *. eexists st, _. split; [done|]. split; [done|].
  set (e := locked_inode s ip pid). assert (e = disk_inode x D (inum e) e /\ ivalid e = true) as [Ee Ev].
  { unfold e, locked_inode. rewrite Ex. fold i. destruct (ivalid i) eqn:Ev; [|done]. split; [|done].
    pose proof (to_coh _ Ht ip Hip Hpos Ev) as Ec. fold i in Ec. apply (f_equal (with_lk pid)) in Ec. exact Ec. }
  assert (idev e = idev i /\ inum e = inum i /\ iref e = iref i /\ ilk e = pid) as (E1 & E2 & E3 & E4).
  { unfold e, locked_inode. fold i. by destruct (ivalid i). }
  split_and!; try done.
  - apply (plus_upd t0 refs None); try done; [rewrite E3, Z.sub_diag; apply symmetry, Z.add_0_r| |by rewrite decide_True].
    intros j Hj Hne. rewrite !decide_False; congruence.
  - rewrite Ee, E2. done.
Qed.

(** Dropping a reference to an inode that has links only decrements the count. *)
Lemma iput_name t0 refs t ip (s : fsst St) :
  start_ok t0 -> plus t0 refs None t -> (ip < NINODEn)%nat -> 1 <= refs ip ->
  (ivalid (t !!! ip) = true -> nlink (t !!! ip) <> 0) -> itable s = t ->
  wp (iput pid ip s) (fun _ s' => exists e, s' = set_itable (<[ip := e]> t) s /\
    plus t0 (fun j => refs j - delta ip j) None (<[ip := e]> t) /\
    idev e = idev (t !!! ip) /\ inum e = inum (t !!! ip)).
Proof.
  intros Hst Hpl Hip Hrf Hnl Et. pose proof Hpl as [Ht Hr _ Hlk]. pose proof (iti_len _ (to_inv _ Ht)) as Hlen.
  unfold iput. apply wp_gets. rewrite Et.
  assert ((iref (t !!! ip) =? 1) && ivalid (t !!! ip) && (nlink (t !!! ip) =? 0) = false) as ->.
  { destruct (ivalid (t !!! ip)); [|by rewrite andb_false_r]. rewrite (proj2 (Z.eqb_neq (nlink _) 0)) by auto. by rewrite andb_false_r. }
  apply wp_bind, wp_ret. apply (wp_ret (S := fsst St) tt). rewrite Et. eexists. split; [done|]. split; [|done].
  pose proof (to_max _ Ht ip Hip). pose proof (so_max _ Hst ip Hip). pose proof (Hr ip Hip) as Hri. pose proof (Hlk ip Hip) as Hl.
  assert (to_int (iref (t !!! ip) - 1) = iref (t !!! ip) - 1) as Eint.
  { unfold sint. change (32 - 1) with 31. rewrite Z.mod_small; lia. }
  assert (delta ip ip = 1) as Edd by (unfold delta; by rewrite decide_True).
  apply (plus_upd t0 refs None); try done; simpl; rewrite ?Eint.
  - rewrite Edd. lia.
  - rewrite Edd. lia.
  - intros j Hne. unfold delta. rewrite decide_False by done. lia.
  - intros Hpos Hv. pose proof (to_coh _ Ht ip Hip ltac:(lia) Hv) as Ec.
    apply (f_equal (with_ref (iref (t !!! ip) - 1))) in Ec. exact Ec.
Qed.

Lemma iunlock_name t0 refs t ip (s : fsst St) :
  start_ok t0 -> plus t0 refs (Some ip) t -> (ip < NINODEn)%nat -> 1 <= refs ip -> itable s = t ->
  wp (iunlock pid ip s) (fun _ s' => s' = set_itable (<[ip := with_lk 0 (t !!! ip)]> t) s /\
    plus t0 refs None (<[ip := with_lk 0 (t !!! ip)]> t)).
Proof.
  intros Hst Hpl Hip Hrf Et. pose proof Hpl as [Ht Hr _ Hlk].
  pose proof (so_max _ Hst ip Hip). pose proof (Hr ip Hip) as Hri. pose proof (Hlk ip Hip) as Hl. rewrite decide_True in Hl by done.
  unfold iunlock. apply wp_gets. rewrite Et, Hl, Z.eqb_refl, (proj2 (Z.ltb_ge _ _)) by lia. cbn [negb orb].
  apply (wp_ret (S := fsst St) tt). rewrite Et. split; [done|].
  apply (plus_upd t0 refs (Some ip)); try done; simpl; [lia|lia| |].
  - intros Hpos Hv. pose proof (to_coh _ Ht ip Hip Hpos Hv) as Ec. apply (f_equal (with_lk 0)) in Ec. exact Ec.
  - intros j Hj Hne. rewrite !decide_False; congruence.
Qed.

Lemma iunlockput_name t0 refs t ip (s : fsst St) :
  start_ok t0 -> plus t0 refs (Some ip) t -> (ip < NINODEn)%nat -> 1 <= refs ip ->
  (ivalid (t !!! ip) = true -> nlink (t !!! ip) <> 0) -> itable s = t ->
  wp (iunlockput pid ip s) (fun _ s' => exists e, s' = set_itable (<[ip := e]> t) s /\
    plus t0 (fun j => refs j - delta ip j) None (<[ip := e]> t) /\
    idev e = idev (t !!! ip) /\ inum e = inum (t !!! ip)).
Proof.
  intros Hst Hpl Hip Hrf Hnl Et. pose proof Hpl as [Ht Hr _ Hlk]. pose proof (iti_len _ (to_inv _ Ht)) as Hlen.
  unfold iunlockput. apply wp_bind. eapply wp_mono; [by apply iunlock_name|]. intros [] s1 [-> Hpl1].
  eapply wp_mono; [apply (iput_name t0 refs _ ip _ Hst Hpl1 Hip Hrf); [|done]|].
  { by rewrite list_lookup_total_insert_eq by lia. }
  intros [] s' (e & -> & Hpl2 & E1 & E2). rewrite list_lookup_total_insert_eq in E1, E2 by lia.
  rewrite list_insert_insert_eq in Hpl2 |- *. eexists. done.
Qed.

Lemma plus_ext t0 refs refs' lk t : plus t0 refs lk t -> (forall j, refs j = refs' j) -> plus t0 refs' lk t.
Proof. intros [H1 H2 H3 H4] E. split; try done. intros j Hj. by rewrite <- E, H2. Qed.

(** ** [namex] *)

(** Where the path leads; with [parent], where all but its last element leads,
    if that is a directory. *)
Definition target (parent : bool) (ino : Z) (names : list (list Z)) : option Z :=
  if parent then
    match names with
    | [] => None
    | _ => p ← resolve x D ino (removelast names); if itype (dino x D p) =? T_DIR then Some p else None
    end
  else resolve x D ino names.

Definition path_names (path : list Z) : list (list Z) := take DIRSIZ <$> components path.

Definition namex_post (t0 : list inode) (s : fsst St) (L : gset Z) (parent : bool) (ino : Z) (names : list (list Z))
    (r : option nat * list Z) (s' : fsst St) : Prop :=
  exists st t', s' = set_itable t' (set_store st s) /\ holds st D ∅ L /\
    match target parent ino names with
    | None => r.1 = None /\ plus t0 (fun _ => 0) None t'
    | Some ino' => exists ip', r.1 = Some ip' /\ plus t0 (delta ip') None t' /\ in_use t' ip' sp_dev ino' /\
        (parent = true -> forall e, last names = Some e -> cstr DIRSIZ r.2 = e)
    end.

(** A directory's entry leads where the disk says. *)
Lemma target_step parent ino c cs : itype (dino x D ino) = T_DIR -> (parent = true -> cs <> []) ->
  target parent ino (c :: cs) = (ino' ← dir_find D (dino x D ino) c; target parent ino' cs).
Proof.
  intros Hty Hcs. unfold target. destruct parent; [|cbn [resolve]; by rewrite Hty].
  destruct cs as [|c' cs]; [by destruct (Hcs eq_refl)|]. change (removelast (c :: c' :: cs)) with (c :: removelast (c' :: cs)).
  cbn [resolve]. rewrite Hty. cbn [Z.eqb]. change (T_DIR =? T_DIR) with true. cbn iota. by destruct (dir_find _ _ _).
Qed.

Lemma target_file parent ino c cs : itype (dino x D ino) <> T_DIR -> target parent ino (c :: cs) = None.
Proof.
  intros Hty. unfold target. destruct parent.
  - destruct cs as [|c' cs]; [cbn [resolve removelast mbind option_bind]; by rewrite (proj2 (Z.eqb_neq _ _))|].
    change (removelast (c :: c' :: cs)) with (c :: removelast (c' :: cs)). cbn [resolve]. by rewrite (proj2 (Z.eqb_neq _ _)).
  - cbn [resolve]. by rewrite (proj2 (Z.eqb_neq _ _)).
Qed.

(** One directory: [dirlookup] in a locked directory, then unlock and drop it. *)
Lemma lookup_name t0 ip ino (s : fsst St) L name :
  let t := itable s in
  start_ok t0 -> plus t0 (delta ip) (Some ip) t -> (ip < NINODEn)%nat -> sb s = x -> holds (store s) D ∅ L -> size L <= sp_cap ->
  in_use t ip sp_dev ino -> linked_ino x D ino -> itype (dino x D ino) = T_DIR -> same_disk (t !!! ip) (dino x D ino) ->
  wp (dirlookup ip name s) (fun r s' =>
    match dir_find D (dino x D ino) name with
    | None => r = None /\ exists st, s' = set_store st s /\ holds st D ∅ L
    | Some ino' => linked_ino x D ino' /\ exists next off st e, r = Some (next, off) /\
        s' = set_itable (<[next := e]> t) (set_store st s) /\ holds st D ∅ L /\
        plus t0 (fun j => delta ip j + delta next j) (Some ip) (<[next := e]> t) /\ in_use (<[next := e]> t) next sp_dev ino' /\
        nlink ((<[next := e]> t) !!! ip) = nlink (t !!! ip)
    end).
Proof.
  intros t Hst Hpl Hip Ex Hh HL Hu Hlk Hty Hsd. destruct Hlk as (Hino & Hty0 & Hnl). destruct (Htree ino Hino Hty) as [Hdir Hent].
  pose proof (iti_len _ (to_inv _ (pl_table _ _ _ _ Hpl))) as Hlen.
  assert (dir_ok x D (t !!! ip) (nde (dino x D ino))) as Hdir'.
  { eapply dir_ok_same; [|exact Hdir]. destruct Hsd as (? & ? & ? & ?). done. }
  assert (addrs (dino x D ino) = addrs (t !!! ip)) as Ea by (symmetry; apply Hsd).
  assert (forall k, binds D (t !!! ip) name k <-> binds D (dino x D ino) name k) as Hbs by (intros; by apply binds_same).
  assert (forall k, dirent D (t !!! ip) k = dirent D (dino x D ino) k) as Hds by (intros; by apply dirent_same).
  eapply wp_mono; [apply (dirlookup_spec s) with (D := D) (L := L) (nde := nde (dino x D ino)); rewrite ?Ex; try done; [apply Hu|by eapply plus_room]|].
  intros [[next off]|] s' Hr.
  - destruct Hr as (st & k & e & -> & Hh' & -> & Hk & Hb & Hf & He & Hinv & Hu'). fold t in Hb, Hf, He, Hinv, Hu'.
    rewrite Hds in He, Hu'. rewrite Hbs in Hb.
    rewrite (dir_find_some D (dino x D ino) name k _ eq_refl); [|lia|done|intros k' Hk'; rewrite <- Hbs; apply Hf; lia].
    pose proof (Hent k ltac:(lia) ltac:(apply Hb)) as Hl'. split; [done|]. exists next, (16 * k), st, e. split_and!; try done.
    + eapply plus_iget; try done; [|apply Hl'|apply Hl']. intros j. unfold delta. case_decide; lia.
    + destruct (decide (next = ip)) as [->|Hne]; [|by rewrite list_lookup_total_insert_ne].
      rewrite list_lookup_total_insert_eq by lia. destruct He as [[_ ->]|(_ & E0 & _)]; [done|]. destruct Hu as (_ & ? & _). lia.
  - destruct Hr as (st & -> & Hh' & Hf). fold t in Hf.
    rewrite (dir_find_none D (dino x D ino) name _ eq_refl); [eauto|]. intros k Hk. rewrite <- Hbs. apply Hf. lia.
Qed.

Lemma namex_loop_spec fuel t0 ip ino (s : fsst St) L parent path name :
  (length path < fuel)%nat -> start_ok t0 -> plus t0 (delta ip) None (itable s) -> sb s = x -> holds (store s) D ∅ L ->
  size L <= sp_cap -> in_use (itable s) ip sp_dev ino -> linked_ino x D ino -> Forall (fun c => c <> 0) path -> length name = DIRSIZ ->
  wp (namex_loop pid fuel ip path parent name s) (namex_post t0 s L parent ino (path_names path)).
Proof.
  intros Hfu Hst. revert ip ino s path name Hfu. induction fuel as [|fuel IH];
    intros ip ino s path name Hfu Hpl Ex Hh HL Hu Hlk Hnz Hname; [lia|].
  cbn [namex_loop]. pose proof (skipelem_spec path name Hnz Hname) as Hsk. assert (ip < NINODEn)%nat as Hip by apply Hu.
  assert (delta ip ip = 1) as Edd by (unfold delta; by rewrite decide_True).
  destruct (skipelem path name) as [[rest nm]|].
  2:{ unfold path_names. rewrite Hsk. destruct parent.
      - apply wp_bind. eapply wp_mono; [apply (iput_name t0 (delta ip) (itable s) ip s Hst Hpl Hip); [lia| |done]|].
        + intros Hv. rewrite (to_coh _ (pl_table _ _ _ _ Hpl) ip Hip (proj1 (proj2 Hu)) Hv).
          destruct Hu as (_ & _ & _ & ->). apply Hlk.
        + intros [] s' (e & -> & Hpl' & _). apply wp_ret. exists (store s), (<[ip := e]> (itable s)). split; [by destruct s|].
          split; [done|]. split; [done|]. eapply plus_ext; [done|]. intros j. simpl. lia.
      - apply wp_ret. exists (store s), (itable s). split; [by destruct s|]. split; [done|]. exists ip. split_and!; done. }
  destruct Hsk as (e & Hce & Hcs & Hnm & Hrl & Hrz & Hrest).
  assert (path_names path = take DIRSIZ e :: path_names rest) as Epn by (unfold path_names; by rewrite Hce).
  apply wp_bind. eapply wp_mono; [apply (ilock_name t0 (delta ip) (itable s) ip s L); try done; [apply Hu|lia]|].
  intros [] s1 (st1 & e1 & -> & Hh1 & Hpl1 & Hsd & Hv & E1 & E2 & E3 & E4).
  assert (inum (itable s !!! ip) = ino) as Ein by apply Hu. rewrite Ein in Hsd.
  pose proof (iti_len _ (to_inv _ (pl_table _ _ _ _ Hpl))) as Hlen.
  set (t1 := <[ip:=e1]> (itable s)) in *. assert (t1 !!! ip = e1) as Et1 by (apply list_lookup_total_insert_eq; lia).
  assert (in_use t1 ip sp_dev ino) as Hu1 by (unfold in_use; rewrite Et1, E1, E2, E3; exact Hu).
  apply wp_gets. change (itable (set_itable t1 (set_store st1 s))) with t1. rewrite Et1.
  destruct Hsd as (Ety & Enl & Hsd'). assert (nlink e1 <> 0) as Hnl1 by (rewrite Enl; apply Hlk).
  destruct (Z.eqb_spec (itype e1) T_DIR) as [Edir|Edir]; cbn [negb].
  2:{ apply wp_bind. eapply wp_mono; [apply (iunlockput_name t0 (delta ip) t1 ip); try done; [lia|by rewrite Et1]|].
      intros [] s2 (e2 & -> & Hpl2 & _). apply wp_ret. exists st1, (<[ip := e2]> t1). split; [done|]. split; [done|].
      rewrite Epn, target_file by (by rewrite <- Ety). split; [done|]. eapply plus_ext; [done|]. intros j. simpl. lia. }
  destruct (parent && match rest with [] => true | _ => false end) eqn:Epar.
  { apply andb_true_iff in Epar as [-> Er]. destruct rest; [|done].
    apply wp_bind. eapply wp_mono; [apply (iunlock_name t0 (delta ip) t1 ip); try done; lia|].
    intros [] s2 [-> Hpl2]. apply wp_ret. eexists st1, _. split; [done|]. split; [done|]. rewrite Epn.
    assert (target true ino (take DIRSIZ e :: path_names []) = Some ino) as ->.
    { change (path_names []) with (@nil (list Z)). unfold target. cbn [removelast resolve mbind option_bind].
      by rewrite <- Ety, Edir. }
    exists ip. split; [done|]. split; [done|]. split.
    - unfold in_use. rewrite list_lookup_total_insert_eq by (unfold t1; rewrite length_insert; lia). exact Hu1.
    - intros _ e' [= <-]. exact Hcs. }
  assert (parent = true -> path_names rest <> []) as Hpr.
  { intros ->. simpl in Epar. unfold path_names. intros En. apply fmap_nil_inv, Hrest in En. by subst rest. }
  apply wp_bind. eapply wp_mono.
  { apply (lookup_name t0 ip ino (set_itable t1 (set_store st1 s)) L nm); try done; [by rewrite <- Ety|].
    cbn [itable set_itable]. rewrite Et1. done. }
  cbn beta. intros r s2 Hr. unfold namex_post. rewrite Epn, target_step by (done || by rewrite <- Ety).
  rewrite (dir_find_cstr D _ (take DIRSIZ e) nm).
  2:{ rewrite <- Hcs. apply cstr_idem. }
  cbn [itable set_itable] in Hr. destruct (dir_find D (dino x D ino) nm) as [ino'|].
  - destruct Hr as (Hlk' & next & off & st2 & e2 & -> & -> & Hh2 & Hpl2 & Hu2 & Enl2).
    set (t2 := <[next:=e2]> t1) in *.
    apply wp_bind. eapply wp_mono; [apply (iunlockput_name t0 _ t2 ip _ Hst Hpl2 Hip); [|intros _; by rewrite Enl2, Et1|done]|].
    { rewrite Edd. unfold delta. case_decide; lia. }
    intros [] s3 (e3 & -> & Hpl3 & E5 & E6). set (t3 := <[ip:=e3]> t2) in *.
    assert (plus t0 (delta next) None t3) as Hpl4 by (eapply plus_ext; [done|]; intros j; simpl; lia).
    assert (next < NINODEn)%nat as Hnx by apply Hu2.
    assert (in_use t3 next sp_dev ino') as Hu3.
    { destruct Hu2 as (_ & _ & Ud & Ui). unfold in_use. split; [done|]. split.
      - rewrite (pl_ref _ _ _ _ Hpl4) by done. pose proof (so_max _ Hst next Hnx). unfold delta. rewrite decide_True by done. lia.
      - unfold t3. rewrite table_lookup by (done || unfold t2, t1; by rewrite !length_insert).
        destruct (decide (next = ip)) as [En|]; [rewrite E5, E6, <- En|]; done. }
    eapply wp_mono; [apply (IH next ino' _ rest nm); try done; lia|]. intros r s' (st' & t' & -> & Hh' & Hr).
    exists st', t'. split; [done|]. split; [done|]. cbn [mbind option_bind]. destruct (target parent ino' (path_names rest)); [|done].
    destruct Hr as (ip' & ? & ? & ? & Hlast). exists ip'. split_and!; try done. intros Hp e' He'. apply Hlast; [done|].
    specialize (Hpr Hp). by destruct (path_names rest).
  - destruct Hr as (-> & st2 & -> & Hh2).
    apply wp_bind. eapply wp_mono; [apply (iunlockput_name t0 (delta ip) t1 ip); try done; [lia|by rewrite Et1]|].
    intros [] s3 (e3 & -> & Hpl3 & _). apply wp_ret. exists st2, (<[ip := e3]> t1). split; [done|]. split; [done|].
    split; [done|]. eapply plus_ext; [done|]. intros j. simpl. lia.
Qed.

(** The inode a path starts from. *)
Definition start_ino (cino : Z) (path : list Z) : Z :=
  match path with c :: _ => if c =? SLASH then ROOTINO else cino | [] => cino end.

Definition unlocked (t : list inode) : Prop := forall ip, (ip < NINODEn)%nat -> ilk (t !!! ip) = 0.

Lemma plus_start t0 : table_ok t0 -> unlocked t0 -> plus t0 (fun _ => 0) None t0.
Proof. intros Ht Hul. split; [done|intros; lia|done|]. intros ip Hip. by rewrite decide_False, Hul. Qed.

Lemma idup_name (s : fsst St) cwd cino :
  table_ok (itable s) -> unlocked (itable s) -> start_ok (itable s) -> in_use (itable s) cwd sp_dev cino ->
  wp (idup cwd s) (fun ip s' => exists t, s' = set_itable t s /\ plus (itable s) (delta ip) None t /\ in_use t ip sp_dev cino).
Proof.
  intros Ht Hul Hst Hu. apply wp_modify, wp_ret. eexists. split; [done|]. assert (cwd < NINODEn)%nat as Hip by apply Hu.
  pose proof (so_max _ Hst cwd Hip). pose proof (iti_len _ (to_inv _ Ht)) as Hlen.
  assert (to_int (iref (itable s !!! cwd) + 1) = iref (itable s !!! cwd) + 1) as Eint
    by (unfold sint; change (32 - 1) with 31; rewrite Z.mod_small; lia).
  assert (in_use (<[cwd := with_ref (to_int (iref (itable s !!! cwd) + 1)) (itable s !!! cwd)]> (itable s)) cwd sp_dev cino) as Hu'.
  { unfold in_use. rewrite list_lookup_total_insert_eq by lia. simpl. rewrite Eint. destruct Hu as (_ & ? & ? & ?). split_and!; done || lia. }
  split; [|done]. destruct (to_id _ Ht cwd Hip (proj1 (proj2 Hu))) as (_ & Hino & Hty).
  destruct Hu as (_ & Hpos & Ed & Ei). rewrite Ei in Hino, Hty.
  eapply plus_ext; [apply (plus_iget (itable s) (fun _ => 0) None (itable s) cwd cino); try done|intros; simpl; lia].
  - by apply plus_start.
  - left. split; [by split_and!|done].
  - apply itable_inv_upd; [apply Ht|done|simpl; lia|]. intros ip' Hne _ Hu2. apply Hne. simpl in Hu2.
    by apply (iti_uniq _ (to_inv _ Ht) _ _ _ _ Hu2).
Qed.

Lemma namex_spec (s : fsst St) L cwd cino path parent name :
  sb s = x -> holds (store s) D ∅ L -> size L <= sp_cap -> sp_dev = ROOTDEV ->
  table_ok (itable s) -> unlocked (itable s) -> start_ok (itable s) -> in_use (itable s) cwd sp_dev cino ->
  linked_ino x D cino -> linked_ino x D ROOTINO -> Forall (fun c => c <> 0) path -> length name = DIRSIZ ->
  wp (namex pid cwd path parent name s) (namex_post (itable s) s L parent (start_ino cino path) (path_names path)).
Proof.
  intros Ex Hh HL Hdev Ht Hul Hst Hcwd Hlc Hlr Hnz Hname. unfold namex. apply wp_bind.
  set (K := fun (ip : nat) (s1 : fsst St) => exists t, s1 = set_itable t s /\ plus (itable s) (delta ip) None t /\
    in_use t ip sp_dev (start_ino cino path)).
  assert (linked_ino x D (start_ino cino path)) as Hls by (unfold start_ino; destruct path as [|c p]; [done|]; by destruct (c =? SLASH)).
  eapply (wp_mono _ K).
  - assert (wp (iget ROOTDEV ROOTINO s) (fun ip s1 => exists t, s1 = set_itable t s /\ plus (itable s) (delta ip) None t /\
      in_use t ip sp_dev ROOTINO)) as Hroot.
    { destruct (so_free _ Hst) as (a & _ & Ha & _ & _ & Ea & _). rewrite <- Hdev. eapply wp_mono; [apply iget_spec; [apply Ht|exists a; auto|]|].
      - intros ip Hip. pose proof (to_max _ Ht ip Hip). lia.
      - intros ip s1 (j & -> & He & Hinv & Hu). eexists. split; [done|]. split; [|done].
        eapply plus_ext; [apply (plus_iget (itable s) (fun _ => 0) None (itable s) ip ROOTINO); try done|intros; simpl; lia];
          [by apply plus_start|apply Hlr|apply Hlr]. }
    unfold K, start_ino. destruct path as [|c p]; [by apply idup_name|]. destruct (c =? SLASH); [done|by apply idup_name].
  - intros ip s1 (t & -> & Hpl & Hu). eapply wp_mono; [apply (namex_loop_spec (S (length path)) (itable s) ip (start_ino cino path)); try done; lia|].
    intros r s' (st & t' & -> & Hr). by exists st, t'.
Qed.
End name.
