(* ===== verification/FsTrunc.v ===== *)
(** * Truncation (kernel/fs.c, [itrunc])

    [itrunc] gives back exactly the blocks the file owns, and nothing else. *)

From S2P Require Import Prelude Riscv Mem Kalloc Vm Block Bio Store Fs FsBlock FsInode FsFile FsRead FsWrite.

(** The blocks among the first [k] of the file. *)
Definition blocks_upto (D : Z -> list Z) (i : inode) (k : nat) : list Z :=
  filter (fun a => a <> 0) ((fun j : nat => blk D i j) <$> seq 0 k).

Lemma blocks_upto_S D i k :
  blocks_upto D i (S k) = blocks_upto D i k ++ if decide (blk D i k = 0) then [] else [blk D i k].
Proof.
  unfold blocks_upto. rewrite seq_S, fmap_app, filter_app. f_equal. cbn [fmap list_fmap Nat.add].
  case_decide as E; [by rewrite filter_cons_False by auto|]. by rewrite filter_cons_True.
Qed.

Lemma elem_of_blocks_upto D i k a : a ∈ blocks_upto D i k <-> a <> 0 /\ exists j : nat, (j < k)%nat /\ a = blk D i j.
Proof.
  unfold blocks_upto. rewrite list_elem_of_filter, list_elem_of_fmap. setoid_rewrite elem_of_seq. split.
  - intros [H0 (j & -> & Hj)]. split; [done|]. exists j. split; [lia|done].
  - intros [H0 (j & Hj & ->)]. split; [done|]. exists j. split; [done|lia].
Qed.

(** [D'] is [D] with the blocks of [fl] marked free. *)
Record freed (x : superblock) (D D' : Z -> list Z) (fl : list Z) : Prop := {
  fr_disk : fs_disk x D';
  fr_used b : 0 <= b < sb_size x -> used x D' b = negb (bool_decide (b ∈ fl)) && used x D b;
  fr_other no : ~ bmapstart x <= no < datastart x -> D' no = D no;
}.

Section trunc.
Context {St : Type} {ST : Store St} {SP : StoreSpec St} (x : superblock) (Hly : layout x) (k0 : Z) (Hk0 : 1 <= k0).

Lemma freed_nil D : fs_disk x D -> freed x D D [].
Proof. intros Hd. split; [done| |done]. intros b _. by rewrite bool_decide_eq_false_2 by apply not_elem_of_nil. Qed.

Lemma freed_bfree D D1 fl b : freed x D D1 fl -> datastart x <= b < sb_size x -> freed x D (bfree_D x D1 b) (fl ++ [b]).
Proof.
  intros [Hd Hu Ho] Hb. split.
  - by apply bfree_D_ok.
  - intros b' Hb'. rewrite bfree_D_used, Hu, andb_assoc by done. f_equal. rewrite <- negb_orb. f_equal.
    rewrite <- bool_decide_or. apply bool_decide_ext. rewrite elem_of_app, list_elem_of_singleton. tauto.
  - intros no Hno. rewrite bfree_D_other by done. by apply Ho.
Qed.

(** [bfree] of a block that is still in use. *)
Lemma bfree_next (s : fsst St) D D1 fl b O L :
  sb s = x -> freed x D D1 fl -> data_ok x D b -> b ∉ fl -> open_ok x D1 O -> (size O <= 1)%nat ->
  room x L k0 -> holds (store s) D1 O L ->
  wp (bfree sp_dev b s) (fun _ s' => exists st L', s' = set_store st s /\ freed x D (bfree_D x D1 b) (fl ++ [b]) /\
    holds st (bfree_D x D1 b) O L' /\ room x L' k0).
Proof.
  intros Ex Hfr [Hb Hub] Hnin HO HsO Hroom Hh. pose proof (ly_order x Hly). assert (room x L 1) as Hroom1 by (unfold room in *; lia).
  eapply wp_mono; [apply (bfree_spec s) with (D := D1) (O := O) (L := L); rewrite ?Ex; try done|].
  - rewrite (fr_used _ _ _ _ Hfr) by lia. by rewrite Hub, bool_decide_eq_false_2.
  - rewrite Ex. intros [] s' (st & -> & Hh'). eexists st, _. split; [done|]. split; [by apply freed_bfree|]. split; [done|].
    apply room_bm; [done|]. apply BBLOCK_bm. lia.
Qed.

Section inode.
Context (D : Z -> list Z) (Hd : fs_disk x D) (i : inode) (Hf : file_ok x D i).

(** The next block of the file was not freed yet. *)
Lemma next_not_freed (k : nat) : (k < 268)%nat -> blk D i k <> 0 -> blk D i k ∉ blocks_upto D i k.
Proof.
  intros Hk Hne (_ & j & Hj & E)%elem_of_blocks_upto.
  assert (Z.of_nat k = j) as Ekj; [|lia].
  apply (fk_inj _ _ _ Hf); unfold in_file; change MAXFILE with 268; done || lia.
Qed.

Lemma ind_not_freed (k : nat) : (k <= 268)%nat -> ind i <> 0 -> ind i ∉ blocks_upto D i k.
Proof.
  intros Hk Hne (_ & j & Hj & E)%elem_of_blocks_upto. apply (fk_ind_ne _ _ _ Hf j); [|done|done].
  unfold in_file. change MAXFILE with 268. lia.
Qed.

(** The inode with its first [k] addresses cleared. *)
Definition cleared (k : nat) : inode :=
  mk_inode (idev i) (inum i) (iref i) (ilk i) (ivalid i) (itype i) (imajor i) (iminor i) (nlink i) (isize i)
    (replicate k 0 ++ drop k (addrs i)).

Lemma cleared_at (k : nat) : (k < 13)%nat -> addrs (cleared k) !!! k = addrs i !!! k.
Proof.
  intros Hk. simpl. rewrite !list_lookup_total_alt. f_equal.
  rewrite lookup_app_r, length_replicate, lookup_drop by (rewrite length_replicate; lia). f_equal. lia.
Qed.

Lemma cleared_S (k : nat) : (k < 13)%nat -> with_addr k 0 (cleared k) = cleared (S k).
Proof.
  intros Hk. pose proof (fk_len _ _ _ Hf) as Hl. unfold with_addr, cleared. simpl. f_equal.
  destruct (lookup_lt_is_Some_2 (addrs i) k) as [a Ha]; [lia|]. rewrite (drop_S _ _ _ Ha).
  rewrite insert_app_r_alt, length_replicate, Nat.sub_diag by (rewrite length_replicate; lia). simpl.
  change (0 :: replicate k 0 ++ drop (S k) (addrs i)) with ((0 :: replicate k 0) ++ drop (S k) (addrs i)).
  by rewrite replicate_cons_app, <- app_assoc.
Qed.

Lemma cleared_skip (k : nat) : (k < 13)%nat -> addrs i !!! k = 0 -> cleared k = cleared (S k).
Proof.
  intros Hk E. rewrite <- cleared_S by done. unfold with_addr. simpl. rewrite list_insert_id; [done|].
  pose proof (fk_len _ _ _ Hf) as Hl. rewrite lookup_app_r, length_replicate, lookup_drop by (rewrite length_replicate; lia).
  replace (k + (k - k))%nat with k by lia. rewrite <- E. apply list_lookup_lookup_total_lt. lia.
Qed.

Lemma cleared_0 : cleared 0 = i.
Proof. unfold cleared. simpl. rewrite drop_0. by destruct i. Qed.

Section ops.
Context (s : fsst St) (Ex : sb s = x) (ip : nat) (Hip : (ip < length (itable s))%nat) (Hdev : idev i = sp_dev).

Lemma itrunc_direct_spec kk k D1 st L :
  (kk + k = 12)%nat -> freed x D D1 (blocks_upto D i k) -> holds st D1 ∅ L -> room x L k0 ->
  wp (itrunc_direct kk ip k (at_inode s ip (cleared k) st)) (fun _ s' => exists st' D' L',
    s' = at_inode s ip (cleared 12) st' /\ freed x D D' (blocks_upto D i 12) /\ holds st' D' ∅ L' /\ room x L' k0).
Proof.
  revert k D1 st L. induction kk as [|kk IH]; intros k D1 st L Hk Hfr Hh Hroom; cbn [itrunc_direct].
  { apply wp_ret. assert (k = 12)%nat as -> by lia. eauto 10. }
  apply wp_gets. rewrite at_inode_get by done. rewrite cleared_at by lia. change (idev (cleared k)) with (idev i). rewrite Hdev.
  assert (addrs i !!! k = blk D i k) as Eb by (rewrite blk_direct, Nat2Z.id by lia; done).
  replace (k + 1)%nat with (S k) by lia. apply wp_bind.
  destruct (Z.eqb_spec (addrs i !!! k) 0) as [E0|E0]; cbn [negb].
  - apply wp_ret. rewrite cleared_skip by (done || lia). apply (IH (S k) D1 st L); try done; [lia|].
    rewrite blocks_upto_S, decide_True, app_nil_r by (by rewrite <- Eb). done.
  - rewrite Eb in *. assert (in_file k) as Hr by (unfold in_file; change MAXFILE with 268; lia).
    apply wp_bind. eapply wp_mono; [eapply (bfree_next (at_inode s ip (cleared k) st) D D1 (blocks_upto D i k) _ ∅ L); try done|].
    + by apply Hf.
    + apply next_not_freed; [lia|done].
    + rewrite map_size_empty. lia.
    + intros [] s1 (st1 & L1 & -> & Hfr1 & Hh1 & Hroom1). apply (wp_ret (S := fsst St) tt).
      change (itable (set_store st1 (at_inode s ip (cleared k) st))) with (itable (at_inode s ip (cleared k) st)).
      rewrite at_inode_get by done. rewrite cleared_S by lia.
      replace (set_itable (<[ip:=cleared (S k)]> (itable (at_inode s ip (cleared k) st))) (set_store st1 (at_inode s ip (cleared k) st)))
        with (at_inode s ip (cleared (S k)) st1) by (unfold at_inode, set_itable, set_store; simpl; by rewrite list_insert_insert_eq).
      eapply IH; [lia| |exact Hh1|done]. rewrite blocks_upto_S, decide_False by done. done.
Qed.

Lemma itrunc_indirect_spec kk j bp D1 st L (s1 := at_inode s ip (cleared 12) st) :
  (kk + j = 256)%nat -> ind i <> 0 -> freed x D D1 (blocks_upto D i (12 + j)) ->
  holds st D1 (<[bp := (ind i, false)]> ∅) L -> room x L k0 ->
  wp (itrunc_indirect kk sp_dev bp j s1) (fun _ s' => exists st' D' L',
    s' = at_inode s ip (cleared 12) st' /\ freed x D D' (blocks_upto D i 268) /\
    holds st' D' (<[bp := (ind i, false)]> ∅) L' /\ room x L' k0).
Proof.
  unfold s1. clear s1. intros Hk Hi. destruct (fk_ind _ _ _ Hf Hi) as [Hir Hiu]. pose proof (ly_order x Hly) as Hord.
  revert j D1 st L Hk. induction kk as [|kk IH]; intros j D1 st L Hk Hfr Hh Hroom; cbn [itrunc_indirect].
  { apply wp_ret. assert (12 + j = 268)%nat as E by lia. rewrite E in Hfr. eauto 10. }
  apply wp_gets. cbn [store at_inode set_itable set_store]. erewrite sp_data; [|exact Hh|by rewrite lookup_insert_eq].
  rewrite (fr_other _ _ _ _ Hfr) by lia.
  assert (rd 4 (D (ind i)) (4 * j) = blk D i (12 + j)%nat) as Eb by (rewrite blk_indirect by (done || lia); f_equal; lia).
  rewrite Eb. replace (j + 1)%nat with (S j) by lia. apply wp_bind.
  replace (12 + S j)%nat with (S (12 + j)) in IH by lia.
  destruct (Z.eqb_spec (blk D i (12 + j)%nat) 0) as [E0|E0]; cbn [negb].
  - apply wp_ret. eapply IH; [lia| |exact Hh|done]. replace (12 + S j)%nat with (S (12 + j)) by lia.
    by rewrite blocks_upto_S, decide_True, app_nil_r by done.
  - assert (in_file (12 + j)%nat) as Hr by (unfold in_file; change MAXFILE with 268; lia).
    eapply wp_mono; [eapply (bfree_next (at_inode s ip (cleared 12) st) D D1 _ _ (<[bp := (ind i, false)]> ∅) L); try done|].
    + by apply Hf.
    + apply next_not_freed; [lia|done].
    + intros b y [[<- <-]|[_ Hy]]%lookup_insert_Some; [|by rewrite lookup_empty in Hy]. split; [done|]. simpl.
      rewrite (fr_used _ _ _ _ Hfr) by lia. rewrite Hiu, bool_decide_eq_false_2; [done|]. apply ind_not_freed; [lia|done].
    + rewrite map_size_insert_None, map_size_empty by done. lia.
    + intros [] s2 (st1 & L1 & -> & Hfr1 & Hh1 & Hroom1). eapply IH; [lia| |exact Hh1|done].
      replace (12 + S j)%nat with (S (12 + j)) by lia. by rewrite blocks_upto_S, decide_False.
Qed.

(** Exactly the file's blocks. *)
Definition freed_all (fl : list Z) : Prop := forall a, a ∈ fl <-> owns D i a.

Lemma owned_ind : ind i <> 0 -> freed_all (blocks_upto D i 268 ++ [ind i]).
Proof.
  intros Hi a. rewrite elem_of_app, list_elem_of_singleton, elem_of_blocks_upto. unfold owns, in_file. change MAXFILE with 268. split.
  - intros [(H0 & j & Hj & ->)| ->]; [|auto]. split; [done|]. right. exists j. split; [lia|done].
  - intros (H0 & [->|(bn & Hr & ->)]); [auto|]. left. split; [done|]. exists (Z.to_nat bn). rewrite Z2Nat.id by lia. split; [lia|done].
Qed.

Lemma owned_direct : ind i = 0 -> freed_all (blocks_upto D i 12).
Proof.
  intros Hi a. rewrite elem_of_blocks_upto. unfold owns, in_file. change MAXFILE with 268. split.
  - intros (H0 & j & Hj & ->). split; [done|]. right. exists j. split; [lia|done].
  - intros (H0 & [->|(bn & Hr & ->)]); [done|]. split; [done|]. destruct (Z.lt_ge_cases bn 12); [|by rewrite blk_none in H0].
    exists (Z.to_nat bn). rewrite Z2Nat.id by lia. split; [lia|done].
Qed.

Lemma at_inode_upd i1 st1 (f : inode -> inode) :
  upd_inode ip f (at_inode s ip i1 st1) = Ret tt (at_inode s ip (f i1) st1).
Proof.
  unfold upd_inode, modify. f_equal. unfold at_inode, set_itable, set_store. simpl.
  rewrite list_lookup_total_insert_eq, list_insert_insert_eq by done. done.
Qed.

(** The empty file. *)
Definition emptied : inode := with_size 0 (cleared 13).

Lemma itrunc_spec L :
  i = itable s !!! ip -> 0 <= inum i < ninodes x -> holds (store s) D ∅ L -> room x L k0 ->
  wp (itrunc ip s) (fun _ s' => exists st D' L' fl, s' = at_inode s ip emptied st /\ freed x D D' fl /\ freed_all fl /\
    holds st (iupdate_D x D' emptied) ∅ L' /\ room x L' (k0 - 1) /\ IBLOCK (inum i) x ∈ L').
Proof.
  intros Ei Hino Hh Hroom. pose proof (ly_order x Hly) as Hord. unfold itrunc.
  assert (s = at_inode s ip (cleared 0) (store s)) as Es by (rewrite cleared_0, Ei, at_inode_id; by destruct s).
  apply wp_bind. rewrite Es at 1. change (Z.to_nat NDIRECT) with 12%nat.
  eapply wp_mono; [eapply itrunc_direct_spec; [lia|by apply freed_nil|exact Hh|done]|].
  intros [] s1 (st1 & D1 & L1 & -> & Hfr1 & Hh1 & Hroom1). apply wp_gets. rewrite at_inode_get by done.
  rewrite cleared_at by lia. change (idev (cleared 12)) with (idev i). rewrite Hdev. fold (ind i). apply wp_bind.
  eapply (wp_mono _ (fun _ s2 => exists st2 D2 L2 fl, s2 = at_inode s ip (cleared 13) st2 /\ freed x D D2 fl /\ freed_all fl /\
    holds st2 D2 ∅ L2 /\ room x L2 k0)).
  - destruct (Z.eqb_spec (ind i) 0) as [E0|E0]; cbn [negb].
    + apply wp_ret. rewrite cleared_skip by (done || lia). exists st1, D1, L1, (blocks_upto D i 12).
      split_and!; try done. by apply owned_direct.
    + destruct (fk_ind _ _ _ Hf E0) as [Hir Hiu]. pose proof (room_size _ _ _ Hroom1).
      eapply wp_bread; [exact Hh1|lia|apply not_open_empty|rewrite map_size_empty; lia|].
      intros bp st2 Hbp Hh2 _. apply wp_bind. change (Z.to_nat NINDIRECT) with 256%nat.
      eapply wp_mono; [eapply (itrunc_indirect_spec 256 0 bp D1 st2 L1); done|].
      intros [] s3 (st3 & D3 & L3 & -> & Hfr3 & Hh3 & Hroom3). eapply wp_rel; [exact Hbp|exact Hh3|]. intros st4 Hh4.
      apply wp_bind. eapply wp_mono; [eapply (bfree_next (at_inode s ip (cleared 12) st4) D D3 (blocks_upto D i 268) _ ∅ L3); try done|].
      * apply ind_not_freed; [lia|done].
      * rewrite map_size_empty. lia.
      * intros [] s4 (st5 & L5 & -> & Hfr5 & Hh5 & Hroom5).
        change (set_store st5 (at_inode s ip (cleared 12) st4)) with (at_inode s ip (cleared 12) st5).
        rewrite at_inode_upd. apply wp_ret. rewrite cleared_S by lia. eexists st5, _, L5, _.
        split; [done|]. split; [exact Hfr5|]. split; [by apply owned_ind|done].
  - intros [] s2 (st2 & D2 & L2 & fl & -> & Hfr & Hall & Hh2 & Hroom2). unfold mbind, M_bind. rewrite at_inode_upd.
    fold emptied. set (s3 := at_inode s ip emptied st2). assert (itable s3 !!! ip = emptied) as E3 by (by apply at_inode_get).
    eapply wp_mono; [apply (iupdate_spec s3) with (D := D2) (L := L2); rewrite ?E3; change (sb s3) with (sb s); rewrite ?Ex; try done|].
    + unfold room in *. lia.
    + intros [] s4 (st4 & -> & Hh4). rewrite E3 in Hh4. change (sb s3) with (sb s) in Hh4. rewrite Ex in Hh4.
      eexists st4, D2, _, fl. split; [done|]. split; [done|]. split; [done|]. split; [exact Hh4|]. split; [by apply room_log|].
      change (inum emptied) with (inum i). set_solver.
Qed.
End ops.
End inode.
End trunc.
