(* ===== verification/FsThms.v ===== *)
(** * Theorems about the file system

    What fs.c promises its callers, proved against the disk interface of
    Store.v; and, over the log, that a file write is atomic under crashes.
    The witnesses run on a small disk. *)

From S2P Require Import Prelude Riscv Mem Kalloc Vm VmPt VmUser VmCopy VmThms Block Bio BioClient Log LogThms Store LogStore Fs FsBlock FsInode FsFile FsRead FsWrite FsUser FsDir FsPath FsName FsTrunc.

(** ** A small disk *)

(** 100 blocks laid out as mkfs does it: a log of 30 blocks at 2, inodes at 32, the bitmap at 45. *)
Definition demo_sb : superblock := mk_superblock FSMAGIC 100 54 200 30 2 32 45.

Definition demo_bitmap : list Z := repeat 255 5 ++ [127] ++ repeat 0 1018.

(** The root directory, one block at 46 with entries for itself and for "a", and the empty file "a". *)
Definition demo_root (lk : Z) : inode := mk_inode 1 1 1 lk true T_DIR 0 0 1 32 (46 :: repeat 0 12).
Definition demo_file (lk : Z) : inode := mk_inode 1 2 1 lk true T_FILE 0 0 1 0 (0 :: repeat 0 12).
Definition demo_iblock : list Z := store_dinode (demo_root 0) (dip_off 1) (store_dinode (demo_file 0) (dip_off 2) zeros).
Definition demo_dir : list Z := mk_dirent 1 [46] ++ mk_dirent 2 [97] ++ repeat 0 992.

Definition demo_disk : Z -> list Z := <[46 := demo_dir]> (<[45 := demo_bitmap]> (<[32 := demo_iblock]> (fun _ => zeros))).

(** The directory in entry 0 and the file in entry 1, locked by [lk]. *)
Definition demo_fs (p : phys) (lk : Z) : fsst ram :=
  mk_fsst demo_disk p (demo_root lk :: demo_file lk :: repeat (mk_inode 0 0 0 0 false 0 0 0 0 0 (repeat 0 13)) 48) demo_sb.

#[export] Instance demo_spec : StoreSpec ram := ram_spec 1 29.

Lemma demo_layout : layout demo_sb.
Proof. split; [done|done|done|split; done|done]. Qed.

Lemma byte_list_ok d : forallb (fun b => (0 <=? b) && (b <? 256)) d = true -> length d = Z.to_nat BSIZE -> block_ok d.
Proof.
  intros Hb Hl. split; [done|]. apply Forall_forall. intros b Hin%list_elem_of_In.
  pose proof (proj1 (forallb_forall _ _) Hb b Hin) as Hr. cbn beta in Hr. bool_prop. lia.
Qed.

Lemma demo_fs_disk : fs_disk demo_sb demo_disk.
Proof.
  split.
  - intros b _. unfold demo_disk.
    destruct (decide (b = 46)) as [->|]; [rewrite fn_lookup_insert; apply byte_list_ok; vm_compute; reflexivity|].
    rewrite fn_lookup_insert_ne by done.
    destruct (decide (b = 45)) as [->|]; [rewrite fn_lookup_insert; apply byte_list_ok; vm_compute; reflexivity|].
    rewrite fn_lookup_insert_ne by done.
    destruct (decide (b = 32)) as [->|]; [rewrite fn_lookup_insert; apply byte_list_ok; vm_compute; reflexivity|].
    rewrite fn_lookup_insert_ne by done. apply zeros_ok.
  - change (datastart demo_sb) with (Z.of_nat 46). apply bounded_forall. vm_compute. reflexivity.
Qed.

(** A file whose only block, if any, is the first. *)
Lemma one_block_blk D i a bn : addrs i = a :: repeat 0 12 -> 0 <= bn -> blk D i bn = if bn =? 0 then a else 0.
Proof.
  intros E Hr. unfold blk, ind. rewrite E. change ((a :: repeat 0 12) !!! 12%nat) with 0.
  destruct (Z.ltb_spec bn 12); [|destruct (Z.eqb_spec bn 0); [lia|done]].
  destruct (Z.to_nat bn) as [|k] eqn:Ek; [by replace bn with 0 by lia|].
  replace (bn =? 0) with false by lia. change ((a :: repeat 0 12) !!! S k) with (repeat 0 12 !!! k).
  change (repeat 0 12) with (replicate 12 0). apply lookup_total_replicate_2. lia.
Qed.

Lemma one_block_ok x D i a : addrs i = a :: repeat 0 12 -> (a <> 0 -> data_ok x D a) -> file_ok x D i.
Proof.
  intros E Ha. assert (ind i = 0) as Ei by (unfold ind; by rewrite E).
  split; rewrite ?Ei; try done.
  - by rewrite E.
  - intros bn [Hb _]. rewrite (one_block_blk _ _ _ _ E) by done. by destruct (bn =? 0).
  - intros bn bn' [Hb _] [Hb' _]. rewrite !(one_block_blk _ _ _ _ E) by done.
    destruct (Z.eqb_spec bn 0), (Z.eqb_spec bn' 0); lia || done.
Qed.

Lemma one_block_full D i a : addrs i = a :: repeat 0 12 -> 0 <= isize i <= (if a =? 0 then 0 else BSIZE) -> file_full D i.
Proof.
  intros E Hs. change BSIZE with 1024 in *. split.
  - destruct (a =? 0); change (MAXFILE * BSIZE) with (268 * 1024); lia.
  - intros bn Hbn Hlt. rewrite (one_block_blk _ _ _ _ E) by done. change BSIZE with 1024 in *.
    destruct (Z.eqb_spec a 0); destruct (Z.eqb_spec bn 0); lia.
Qed.

Lemma demo_inode_fits lk : inode_fits (demo_root lk) /\ inode_fits (demo_file lk).
Proof. split; (split; [done|done|done|done|done| |done]); by repeat constructor. Qed.

(** ** Files *)

(** A locked inode in entry [ip], with its disk. *)
Record held {St} {ST : Store St} {SP : StoreSpec St} (s : fsst St) (ip : nat) (D : Z -> list Z) (L : gset Z) : Prop := {
  hd_layout : layout (sb s);
  hd_slot : (ip < length (itable s))%nat;
  hd_dev : idev (itable s !!! ip) = sp_dev;
  hd_ino : 0 <= inum (itable s !!! ip) < ninodes (sb s);
  hd_fits : inode_fits (itable s !!! ip);
  hd_file : file_ok (sb s) D (itable s !!! ip);
  hd_full : file_full D (itable s !!! ip);
  hd_disk : fs_disk (sb s) D;
  hd_holds : holds (store s) D ∅ L;
}.

Lemma demo_held_file p lk : held (demo_fs p lk) 1 demo_disk ∅.
Proof.
  split; [apply demo_layout|simpl; lia|done|done|apply demo_inode_fits| | |apply demo_fs_disk|split; done].
  - by eapply one_block_ok.
  - by eapply one_block_full.
Qed.

Lemma demo_root_ok lk : dir_ok demo_sb demo_disk (demo_root lk) 2.
Proof.
  split; [done|done| |by eapply one_block_full]. eapply one_block_ok; [done|]. intros _. split; [done|]. vm_compute. reflexivity.
Qed.

Lemma demo_held_root p lk : held (demo_fs p lk) 0 demo_disk ∅.
Proof.
  split; [apply demo_layout|simpl; lia|done|done|apply demo_inode_fits| | |apply demo_fs_disk|split; done]; apply (demo_root_ok lk).
Qed.

Lemma demo_room k : k <= 28 -> room demo_sb ∅ k.
Proof. intros Hk. unfold room. change (sp_cap) with 29. replace (size (∅ ∪ bm demo_sb)) with 1%nat by (vm_compute; reflexivity). lia. Qed.

(** A user buffer of [n] bytes at [va], all of it accessible as [acc] asks. *)
Record user_buf `{Linker} (acc : gmap Z Z -> Z -> Z -> bool) (p : phys) (root : Z) (T : tables) (F : list Z) (va : Z) (n : nat) : Prop := {
  ub_as : as_inv (mem p) root T F;
  ub_high : high_private (mem p) root;
  ub_low : 0 <= va;
  ub_end : va + n <= MAXVA;
  ub_acc j : 0 <= j < n -> acc (mem p) root (va + j) = true;
}.

Section file.
Context `{Linker} {St : Type} {ST : Store St} {SP : StoreSpec St}.

(** C16: [writei] of [n] bytes from a user buffer that the process can read, at an
    offset no greater than the file's size and ending within the largest file, with
    room in the log, writes the buffer's bytes into the file, growing it as needed; all other bytes of the file, all other inodes, and
    all blocks that belong to other files stay as they were.  It writes fewer
    than [n] bytes only when the disk is full. *)
Theorem writei_user_correct (s : fsst St) ip D L root T F va (n : nat) off :
  held s ip D L -> user_buf readable (km s) root T F va n ->
  0 <= off <= isize (itable s !!! ip) -> off + n <= MAXFILE * BSIZE -> room (sb s) L (3 * nblk off n + 1) ->
  wp (writei ip (USrc root va) off n s) (fun r s' => exists D' L',
    writei_done_ (sb s) (itable s !!! ip) D off n (ubytes F (mem (km s)) va n) D' (itable s' !!! ip) r /\
    km s' = km s /\ sb s' = sb s /\ itable s' = <[ip := itable s' !!! ip]> (itable s) /\ holds (store s') D' ∅ L').
Proof.
  intros [Hly Hip Hdev Hino Hfits Hf Hfull Hd Hh] [Has Hhi Hlo Hend Hrd] Hoff Hmax Hroom.
  eapply wp_mono; [eapply (writei_spec s Hly ip Hip Hdev D off n (ubytes F (mem (km s)) va n)) with (k := 0) (L := L)
    (J := user_src (km s) root F va n); try done; try lia|].
  - rewrite length_ubytes. lia.
  - apply ubytes_range.
  - intros p src l m HJ Hm. by eapply user_src_step.
  - apply user_src_start; done.
  - intros r s' (st & p & i & D' & L' & -> & Hdone & Hh' & _ & (src' & l & HJ)). destruct HJ as [-> _].
    assert (itable (set_km (km s) (at_inode s ip i st)) !!! ip = i) as E by (by apply at_inode_get).
    exists D', L'. rewrite E. done.
Qed.

(** [readi] into a user buffer delivers the file's bytes from [off] on, as
    many as the file has up to [n], into exactly that part of user memory, and
    changes neither the disk nor the inode. *)
Theorem readi_user_correct (s : fsst St) ip D L root T F va (n : nat) off :
  held s ip D L -> size L <= sp_cap -> user_buf writable (km s) root T F va n ->
  0 <= off < 2 ^ 32 -> n < 2 ^ 32 ->
  let len := readable_len (isize (itable s !!! ip)) off n in
  let bs := file_bytes D (itable s !!! ip) off (Z.to_nat len) in
  wp (readi ip (UDst root va) off n s) (fun r s' => r = (len, []) /\
    uwritten F (mem (km s)) (mem (km s')) va bs /\ same_except (list_to_set F) (mem (km s)) (mem (km s')) /\
    itable s' = itable s /\ sb s' = sb s /\ holds (store s') D ∅ L).
Proof.
  intros [Hly Hip Hdev Hino Hfits Hf Hfull Hd Hh] HL [Has Hhi Hlo Hend Hwr] Hoff Hn len bs.
  assert (Z.to_nat len <= n)%nat as Hlen.
  { unfold len, readable_len. destruct (_ || _); [lia|]. lia. }
  eapply wp_mono; [apply (readi_spec s Hly ip Hdev D Hd Hf Hfull L HL n (user_dst (km s) root F va))|]; try done; try lia.
  - intros p d pre l HI Hl. by eapply user_dst_step.
  - apply user_dst_start; done.
  - cbn zeta. fold len bs. intros r s' (st' & p' & d' & -> & -> & Hh' & (_ & Hw & Hs & _)). done.
Qed.

(** What [writei] wrote, [readi] reads back. *)
Theorem writei_readi_roundtrip (s : fsst St) ip D L w off :
  held s ip D L -> Forall (fun b => 0 <= b < 256) w ->
  0 <= off <= isize (itable s !!! ip) -> off + length w <= MAXFILE * BSIZE -> room (sb s) L (3 * nblk off (length w) + 1) ->
  wp ((n ← writei ip (KSrc w) off (length w); r ← readi ip KBuf off n; mret (n, r)) s) (fun nr _ =>
    0 <= nr.1 <= length w /\ nr.2 = (nr.1, take (Z.to_nat nr.1) w)).
Proof.
  intros [Hly Hip Hdev Hino Hfits Hf Hfull Hd Hh] Hw Hoff Hmax Hroom. assert (MAXFILE * BSIZE < 2 ^ 31) by done.
  apply wp_bind. eapply wp_mono; [eapply (writei_spec s Hly ip Hip Hdev D off (length w) w) with (k := 0) (L := L)
    (J := fun p src l => src = KSrc l); try done; try lia|].
  - intros p src l m -> Hm. apply wp_ret. done.
  - intros n s' (st & p & i & D' & L' & -> & Hdone & Hh' & Hroom' & _). pose proof Hdone as [Htot Hd' Hf' Hfull' Hrest Hby _ _ _].
    set (s1 := set_km p (at_inode s ip i st)). assert (itable s1 !!! ip = i) as Ei by (by apply at_inode_get).
    assert (readable_len (isize i) off n = n) as El.
    { unfold readable_len, wrap. rewrite Hrest. simpl. rewrite (Z.mod_small (off + n)) by lia.
      rewrite !(proj2 (Z.ltb_ge _ _)) by lia. cbn [orb]. lia. }
    apply wp_bind. eapply wp_mono; [apply (readi_spec s1 Hly ip) with (D := D') (L := L') (N := length w)
      (I := fun _ (d : dest) (_ : list Z) => d = KBuf)|].
    all: rewrite ?Ei, ?El; try done; try lia.
    + rewrite Hrest. done.
    + pose proof (room_size _ _ _ Hroom'). lia.
    + intros p1 d pre l -> _. by apply wp_ret.
    + cbn zeta. intros r s2 (st2 & p2 & d2 & -> & -> & _). apply wp_ret. split; [done|]. simpl. f_equal.
      apply list_eq. intros j. destruct (decide (j < Z.to_nat n)%nat) as [Hj|Hj].
      * rewrite lookup_file_bytes, lookup_take_lt by lia. rewrite Hby by (rewrite Hrest; simpl; lia).
        rewrite decide_True by lia. rewrite <- (list_lookup_lookup_total_lt w) by lia. repeat f_equal. lia.
      * rewrite !lookup_ge_None_2; [done| |]; rewrite ?length_file_bytes, ?length_take; lia.
Qed.
End file.

(** ** Directories *)

Section dirs.
Context `{Linker} {St : Type} {ST : Store St} {SP : StoreSpec St}.

(** Replacing an entry by one for the same inode. *)
Lemma itable_room_upd t ip j :
  itable_room t -> (ip < NINODEn)%nat -> iref j = iref (t !!! ip) -> idev j = idev (t !!! ip) -> inum j = inum (t !!! ip) ->
  itable_room (<[ip := j]> t).
Proof.
  intros [Hinv (e & He & He0) Hmax] Hip Er Ed Ei. pose proof (iti_len _ Hinv) as Hl.
  assert (forall k, iref (<[ip := j]> t !!! k) = iref (t !!! k)) as E.
  { intros k. destruct (decide (k = ip)) as [->|]; [by rewrite list_lookup_total_insert_eq by lia|].
    by rewrite list_lookup_total_insert_ne. }
  split; [|exists e; by rewrite E|intros k Hk; rewrite E; by apply Hmax].
  apply itable_inv_upd; [done|done|rewrite Er; by apply Hinv|].
  intros ip' Hne Hpos Hu. apply Hne. apply (iti_uniq _ Hinv _ _ _ _ Hu). rewrite Er in Hpos. by rewrite Ed, Ei.
Qed.

(** C30: a name that the directory does not have yet, entered with [dirlink] in a
    directory below the largest size, is found by [dirlookup], which returns a
    reference to the inode entered; [dirlink] fails only when the disk is full. *)
Theorem dirlink_dirlookup (s : fsst St) pid dp D L nde name ino :
  held s dp D L -> dir_ok (sb s) D (itable s !!! dp) nde -> itable_room (itable s) ->
  (forall k, (k < nde)%nat -> ~ binds D (itable s !!! dp) name k) -> Forall (fun b => 0 <= b < 256) name ->
  0 < ino < 2 ^ 16 -> 16 * (nde + 1) <= MAXFILE * BSIZE -> room (sb s) L 4 ->
  wp ((r ← dirlink pid dp name ino; if r =? 0 then (f ← dirlookup dp name; mret (Some f)) else mret None) s) (fun f s' =>
    match f with
    | Some f => exists ip off, f = Some (ip, off) /\ in_use (itable s') ip sp_dev ino
    | None => exists D' L', holds (store s') D' ∅ L' /\ disk_full (sb s) D'
    end).
Proof.
  intros [Hly Hip Hdev Hino Hfits Hf Hfull Hd Hh] Hdir Hit Hnb Hname Hi Hmax Hroom.
  pose proof (room_size _ _ _ Hroom) as HL.
  apply wp_bind. eapply wp_mono; [apply (dirlink_spec s Hly dp Hdev D Hd nde Hdir L ltac:(lia) Hip Hino Hfits pid name ino 0); try done|].
  intros r s1 (st & i' & D' & L' & -> & Hh' & Hd' & Hroom' & Hr). destruct Hr as [[-> Hfl]|[-> (k & Hk & Hdone & [Hdir' Hnew Hold])]].
  { apply wp_ret. eauto. }
  cbn [Z.eqb]. apply wp_bind. set (s1 := at_inode s dp i' st). assert (itable s1 !!! dp = i') as Ei by (by apply at_inode_get).
  pose proof (wd_rest _ _ _ _ _ _ _ _ _ Hdone) as Hrest. pose proof (room_size _ _ _ Hroom') as HL'.
  assert (itable_room (itable s1)) as Hit1.
  { apply itable_room_upd; try (by rewrite Hrest); [done|]. by rewrite <- (iti_len _ (itr_inv _ Hit)). }
  assert (binds D' i' name k) as Hb.
  { unfold binds. rewrite Hnew, de_inum_mk, de_name_mk, cstr_strncpy by lia. split; [lia|done]. }
  assert (forall k', (k' < nde `max` (k + 1))%nat -> k' <> k -> ~ binds D' i' name k') as Hone.
  { intros k' Hk' Hne. unfold binds. rewrite Hold by lia. apply Hnb. lia. }
  eapply wp_mono; [apply (dirlookup_spec s1) with (D := D') (L := L') (nde := (nde `max` (k + 1))%nat); rewrite ?Ei; try done; try lia|].
  { by rewrite Hrest. }
  intros [[ip off]|] s2 Hl; apply wp_ret.
  - destruct Hl as (st2 & k' & e & -> & _ & -> & Hk' & Hb' & _ & _ & _ & Hu). exists ip, (16 * k').
    rewrite Ei in Hb', Hu. destruct (decide (k' = k)) as [->|Hne]; [|by destruct (Hone k' ltac:(lia) Hne)].
    split; [done|]. by rewrite Hnew, de_inum_mk in Hu by lia.
  - destruct Hl as (st2 & _ & _ & Hno). rewrite Ei in Hno. by destruct (Hno k ltac:(lia)).
Qed.

(** C15: [namei] and [nameiparent] follow the path through the directories on
    the disk.  Where the path leads to inode [ino'], they return an entry for
    it and hold exactly one more reference than before, to that entry;
    [nameiparent] also returns the last element.  Where it leads nowhere they
    return 0 and every reference count is as before.  They write nothing and
    leave no inode locked. *)
Theorem namex_correct (s : fsst St) pid D L cwd cino path parent name :
  layout (sb s) -> fs_disk (sb s) D -> tree_ok (sb s) D -> holds (store s) D ∅ L -> size L <= sp_cap ->
  sp_dev = ROOTDEV -> table_ok (sb s) D (itable s) -> unlocked (itable s) -> start_ok (itable s) ->
  in_use (itable s) cwd sp_dev cino -> linked_ino (sb s) D cino -> linked_ino (sb s) D ROOTINO ->
  Forall (fun c => c <> 0) path -> length name = DIRSIZ ->
  wp (namex pid cwd path parent name s) (fun r s' => holds (store s') D ∅ L /\ km s' = km s /\ sb s' = sb s /\
    match target (sb s) D parent (start_ino cino path) (path_names path) with
    | None => r.1 = None /\ plus pid (sb s) D (itable s) (fun _ => 0) None (itable s')
    | Some ino' => exists ip, r.1 = Some ip /\ plus pid (sb s) D (itable s) (delta ip) None (itable s') /\
        in_use (itable s') ip sp_dev ino' /\
        (parent = true -> forall e, last (path_names path) = Some e -> cstr DIRSIZ r.2 = e)
    end).
Proof.
  intros Hly Hd Htree Hh HL Hdev Ht Hul Hst Hcwd Hlc Hlr Hnz Hname.
  eapply wp_mono; [by eapply (namex_spec pid (sb s) Hly D Hd Htree)|].
  intros r s' (st & t' & -> & Hh' & Hr). done.
Qed.
End dirs.

(** ** Paths *)

(** The elements [skipelem] yields, in turn. *)
Fixpoint elements (fuel : nat) (path name : list Z) : list (list Z) :=
  match fuel with
  | O => []
  | S fuel => match skipelem path name with
    | None => []
    | Some (rest, name') => cstr DIRSIZ name' :: elements fuel rest name'
    end
  end.

(** Iterating [skipelem] ends after at most the length of the path and
    yields the non-empty parts of the path between slashes, each cut to
    [DIRSIZ] bytes. *)
Theorem skipelem_splits path name :
  Forall (fun c => c <> 0) path -> length name = DIRSIZ ->
  forall fuel, (length path < fuel)%nat -> elements fuel path name = take DIRSIZ <$> components path.
Proof.
  intros Hnz Hn fuel. revert path name Hnz Hn. induction fuel as [|fuel IH]; intros path name Hnz Hn Hl; [lia|].
  cbn [elements]. pose proof (skipelem_spec path name Hnz Hn) as Hs. destruct (skipelem path name) as [[rest name']|]; [|by rewrite Hs].
  destruct Hs as (e & -> & Hc & Hn' & Hr & Hnz' & _). rewrite fmap_cons, Hc. f_equal. apply IH; [done|done|lia].
Qed.

(** ** Inodes and blocks *)

Section inodes.
Context {St : Type} {ST : Store St} {SP : StoreSpec St}.

(** [iget] keeps at most one table entry for each inode.  It returns the
    inode's entry with one more reference when there is one, and otherwise
    takes an entry that nobody references and marks it as not yet read. *)
Theorem iget_unique (s : fsst St) dev ino :
  itable_room (itable s) ->
  wp (iget dev ino s) (fun ip s' => itable_inv (itable s') /\ in_use (itable s') ip dev ino /\
    (forall ip', ip' <> ip -> itable s' !!! ip' = itable s !!! ip') /\
    iref (itable s' !!! ip) = iref (itable s !!! ip) + 1 /\
    (in_use (itable s) ip dev ino \/ iref (itable s !!! ip) = 0 /\ ivalid (itable s' !!! ip) = false)).
Proof.
  intros [Hinv (e & He & He0) Hmax]. eapply wp_mono; [apply iget_spec; [done|by exists e; auto|done]|].
  intros ip s' (j & -> & Hj & Hinv' & Hu). cbn [itable set_itable] in *. pose proof (iti_len _ Hinv) as Hl.
  assert (ip < NINODEn)%nat as Hip by apply Hu. rewrite list_lookup_total_insert_eq by lia.
  split; [done|]. split; [done|]. split; [intros ip' Hne; by apply list_lookup_total_insert_ne|].
  destruct Hj as [[Hin ->]|(_ & E0 & ->)]; simpl; [|rewrite E0; auto]. split; [|auto].
  unfold sint. change (32 - 1) with 31. pose proof (Hmax ip Hip). pose proof (iti_ref _ Hinv ip Hip). rewrite Z.mod_small; lia.
Qed.

(** What [iupdate] wrote of an inode, [ilock] reads back into any entry
    taken for that inode. *)
Theorem iupdate_ilock (s : fsst St) pid ip jp D L j :
  held s ip D L -> room (sb s) L 1 -> itype (itable s !!! ip) <> 0 ->
  (jp < length (itable s))%nat -> idev j = sp_dev -> inum j = inum (itable s !!! ip) ->
  1 <= iref j -> ilk j = 0 -> ivalid j = false ->
  wp ((iupdate ip;; modify (fun s => set_itable (<[jp := j]> (itable s)) s);; ilock pid jp) s) (fun _ s' =>
    let i' := itable s' !!! jp in let i := itable s !!! ip in
    ilk i' = pid /\ ivalid i' = true /\ iref i' = iref j /\
    itype i' = itype i /\ imajor i' = imajor i /\ iminor i' = iminor i /\ nlink i' = nlink i /\
    isize i' = isize i /\ addrs i' = addrs i).
Proof.
  intros [Hly Hip Hdev Hino Hfits _ _ Hd Hh] Hroom Hty Hjp Hjd Hji Hjr Hjl Hjv.
  apply wp_bind. eapply wp_mono; [by eapply (iupdate_spec s Hly ip Hdev Hino)|]. intros [] s1 (st & -> & Hh1). apply wp_modify.
  set (s2 := set_itable _ _). assert (itable s2 !!! jp = j) as Ej by (by apply list_lookup_total_insert_eq).
  set (i := itable s !!! ip) in *. pose proof (iupdate_D_ok _ Hly D Hd i Hino Hfits) as Hd2.
  pose proof (iupdate_D_inode _ Hly D Hd i Hino Hfits (inum i) j Hino) as E. rewrite decide_True in E by done.
  pose proof (room_size _ _ _ (room_log _ _ _ (IBLOCK (inum i) (sb s)) Hroom)) as HL.
  eapply wp_mono; [eapply (ilock_spec s2 Hly (D := iupdate_D (sb s) D i)); rewrite ?Ej, ?Hji; try done|].
  - simpl. by rewrite length_insert.
  - lia.
  - intros _. change (sb s2) with (sb s). by rewrite E.
  - intros [] s' (st' & -> & _). unfold locked_inode. change (sb s2) with (sb s). rewrite Ej, Hjv, Hji, E. cbn zeta. cbn [itable set_itable].
    rewrite list_lookup_total_insert_eq by (simpl; by rewrite length_insert). done.
Qed.

(** [balloc] returns a block that was free, zeroes it and marks exactly it
    as used, leaving all other data blocks alone; it returns 0, changing
    nothing, exactly when no block is free. *)
Theorem balloc_correct (s : fsst St) D L :
  layout (sb s) -> fs_disk (sb s) D -> holds (store s) D ∅ L -> room (sb s) L 2 ->
  wp (balloc sp_dev s) (fun b s' => exists D' L', itable s' = itable s /\ sb s' = sb s /\ km s' = km s /\
    holds (store s') D' ∅ L' /\ fs_disk (sb s) D' /\
    ((b = 0 <-> disk_full (sb s) D) /\ (b = 0 -> D' = D) /\
     (b <> 0 -> datastart (sb s) <= b < sb_size (sb s) /\ used (sb s) D b = false /\ D' b = zeros /\
      (forall b', 0 <= b' < sb_size (sb s) -> used (sb s) D' b' = bool_decide (b' = b) || used (sb s) D b') /\
      forall no, no <> b -> ~ bmapstart (sb s) <= no < datastart (sb s) -> D' no = D no))).
Proof.
  intros Hly Hd Hh Hroom. pose proof (ly_order _ Hly) as Hord.
  assert (open_ok (sb s) D ∅) as HO by (intros b y Hy; by rewrite lookup_empty in Hy).
  assert (room (sb s) L 1) as Hroom1 by (unfold room in *; lia).
  eapply wp_mono; [apply (balloc_spec s Hly Hd HO); [rewrite map_size_empty; lia|exact Hroom1|done]|].
  intros b s' (st & -> & [(-> & Hh' & Hall)|(Hb & Hu & Hh')]).
  + exists D, L. do 5 (split; [done|]). split; [|done]. split; [|done]. intros _ b' Hb'. apply Hall. lia.
  + exists (balloc_D (sb s) D b). eexists. do 3 (split; [done|]). split; [exact Hh'|]. split; [by apply balloc_D_ok|].
    split; [|split; [lia|]].
    * split; [lia|]. intros Hfull. exfalso. by rewrite Hfull in Hu by lia.
    * intros _. do 2 (split; [done|]). split; [apply balloc_D_at|]. split.
      -- intros b' Hb'. by apply balloc_D_used.
      -- intros no Hne Hno. by apply balloc_D_other.
Qed.

(** C17: [itrunc] frees exactly the blocks of the file, its indirect block
    included, and leaves an empty inode in memory and on disk; data blocks keep
    their contents and every other inode is as before. *)
Theorem itrunc_correct (s : fsst St) ip D L :
  held s ip D L -> room (sb s) L 1 ->
  wp (itrunc ip s) (fun _ s' => exists D' L', holds (store s') D' ∅ L' /\ fs_disk (sb s) D' /\
    isize (itable s' !!! ip) = 0 /\ addrs (itable s' !!! ip) = repeat 0 13 /\
    (forall ip', ip' <> ip -> itable s' !!! ip' = itable s !!! ip') /\
    (forall b, 0 <= b < sb_size (sb s) ->
      used (sb s) D' b = true <-> used (sb s) D b = true /\ ~ owns D (itable s !!! ip) b) /\
    (forall no, datastart (sb s) <= no -> D' no = D no) /\
    (forall ino j, 0 <= ino < ninodes (sb s) ->
      disk_inode (sb s) D' ino j = if decide (ino = inum (itable s !!! ip)) then on_mem (itable s' !!! ip) j else disk_inode (sb s) D ino j)).
Proof.
  intros [Hly Hip Hdev Hino Hfits Hf Hfull Hd Hh] Hroom. pose proof (ly_order _ Hly) as Hord. set (i := itable s !!! ip) in *.
  eapply wp_mono; [apply (itrunc_spec (sb s) Hly 1 ltac:(done) D Hd i Hf s eq_refl ip Hip Hdev L eq_refl Hino Hh Hroom)|].
  intros [] s' (st & D1 & L' & fl & -> & [Hd1 Hu1 Ho1] & Hall & Hh' & _). set (e := emptied i) in *.
  assert (addrs e = repeat 0 13) as Ea.
  { unfold e. simpl. rewrite drop_ge; [done|]. pose proof (fk_len _ _ _ Hf). lia. }
  assert (inode_fits e) as Hfe.
  { destruct Hfits. split; try done; rewrite Ea; [|done]. by repeat constructor. }
  pose proof (IBLOCK_range _ Hly _ Hino) as Hib.
  exists (iupdate_D (sb s) D1 e), L'. rewrite at_inode_get by done. split; [done|]. split; [by apply iupdate_D_ok|].
  split; [done|]. split; [done|]. split; [intros ip' Hne; simpl; by apply list_lookup_total_insert_ne|]. split; [|split].
  - intros b Hb. rewrite iupdate_D_used, Hu1 by done. rewrite <- (Hall b). destruct (bool_decide_reflect (b ∈ fl)); naive_solver.
  - intros no Hno. rewrite iupdate_D_other by (change (inum e) with (inum i); lia). apply Ho1. lia.
  - intros ino j Hr. rewrite iupdate_D_inode by done. change (inum e) with (inum i). case_decide; [done|].
    pose proof (IBLOCK_range _ Hly _ Hr). unfold disk_inode. rewrite Ho1 by lia. done.
Qed.
End inodes.

(** ** The properties at work *)

#[local] Existing Instance demo_linker.

Lemma writei_user_correct_witness : exists p root r s',
  writei 1 (USrc root 4090) 0 20 (demo_fs p 1) = Ret r s' /\ 0 <= r <= 20 /\ isize (itable s' !!! 1%nat) = r.
Proof.
  destruct demo_user as (p & tf & root & T & F & tf2 & root2 & T2 & L & Hd & Hw).
  destruct (wp_inv _ _ (writei_user_correct (demo_fs p 1) 1 demo_disk ∅ root T F 4090 20 0 (demo_held_file p 1)
    ltac:(split; [apply Hd|by eapply demo_private|done|done|intros j Hj; by destruct (proj1 (andb_true_iff _ _) (Hw j Hj))])
    ltac:(done) ltac:(done) ltac:(by apply (demo_room (3 * nblk 0 20 + 1))))) as (r & s' & E & D' & L' & [Htot _ _ _ Hrest _ _ _ _] & _).
  exists p, root, r, s'. split; [exact E|]. split; [exact Htot|]. rewrite Hrest. simpl. lia.
Defined.

Lemma readi_user_correct_witness : exists p root s',
  readi 0 (UDst root 4090) 16 20 (demo_fs p 1) = Ret (16, []) s' /\ itable s' = itable (demo_fs p 1).
Proof.
  destruct demo_user as (p & tf & root & T & F & tf2 & root2 & T2 & L & Hd & Hw).
  destruct (wp_inv _ _ (readi_user_correct (demo_fs p 1) 0 demo_disk ∅ root T F 4090 20 16 (demo_held_root p 1) ltac:(done)
    ltac:(split; [apply Hd|by eapply demo_private|done|done|done]) ltac:(done) ltac:(done))) as (r & s' & E & -> & _ & _ & Ei & _).
  exists p, root, s'. split; [exact E|exact Ei].
Defined.

Lemma writei_readi_roundtrip_witness : exists n r s',
  (n ← writei 1 (KSrc [1; 2; 3]) 0 3; r ← readi 1 KBuf 0 n; mret (n, r)) (demo_fs demo0 1) = Ret (n, r) s' /\
  r = (n, take (Z.to_nat n) [1; 2; 3]).
Proof.
  destruct (wp_inv _ _ (writei_readi_roundtrip (demo_fs demo0 1) 1 demo_disk ∅ [1; 2; 3] 0 (demo_held_file _ _)
    ltac:(by repeat constructor) ltac:(done) ltac:(done) ltac:(by apply (demo_room (3 * nblk 0 3 + 1)))))
    as ([n r] & s' & E & _ & Hr).
  exists n, r, s'. split; [exact E|exact Hr].
Defined.

(** What an entry of the demo table is. *)
Lemma demo_entry p lk ip : (ip < NINODEn)%nat ->
  ip = 0%nat \/ ip = 1%nat \/ itable (demo_fs p lk) !!! ip = mk_inode 0 0 0 0 false 0 0 0 0 0 (repeat 0 13).
Proof.
  destruct ip as [|[|ip]]; [auto|auto|]. intros Hip. right. right.
  change (replicate 48 (mk_inode 0 0 0 0 false 0 0 0 0 0 (repeat 0 13)) !!! ip = mk_inode 0 0 0 0 false 0 0 0 0 0 (repeat 0 13)).
  apply lookup_total_replicate_2. change NINODEn with 50%nat in Hip. lia.
Qed.

Lemma demo_itable_room p lk : itable_room (itable (demo_fs p lk)).
Proof.
  assert (forall ip, (ip < NINODEn)%nat -> 0 <= iref (itable (demo_fs p lk) !!! ip) <= 1 /\
    (0 < iref (itable (demo_fs p lk) !!! ip) -> ip = Z.to_nat (inum (itable (demo_fs p lk) !!! ip) - 1))) as Hr.
  { intros ip Hip. destruct (demo_entry p lk ip Hip) as [->|[->| ->]]; done. }
  split.
  - split; [done|intros ip Hip; apply (Hr ip Hip)|].
    intros ip ip' dev ino (H1 & H2 & _ & H3) (H1' & H2' & _ & H3'). rewrite (proj2 (Hr ip H1) H2), (proj2 (Hr ip' H1') H2'). congruence.
  - exists 2%nat. change NINODEn with 50%nat; split; [lia|done].
  - intros ip Hip. destruct (Hr ip Hip) as [? _]. lia.
Qed.

Lemma dirlink_dirlookup_witness : exists f s',
  (r ← dirlink 1 0 [98] 7; if r =? 0 then (f ← dirlookup 0 [98]; mret (Some f)) else mret None) (demo_fs demo0 1) = Ret f s' /\
  (forall f', f = Some f' -> exists ip off, f' = Some (ip, off) /\ in_use (itable s') ip 1 7).
Proof.
  destruct (wp_inv _ _ (dirlink_dirlookup (demo_fs demo0 1) 1 0 demo_disk ∅ 2 [98] 7 (demo_held_root _ _) (demo_root_ok 1)
    (demo_itable_room _ _) ltac:(intros [|[|k]] Hk; [| |lia]; intros [_ Hb]; vm_compute in Hb; done)
    ltac:(by repeat constructor) ltac:(done) ltac:(done) ltac:(by apply (demo_room 4)))) as (f & s' & E & Hf).
  exists f, s'. split; [exact E|]. intros f' ->. exact Hf.
Defined.

Lemma demo_tree : tree_ok demo_sb demo_disk.
Proof.
  intros ino Hino Hty.
  assert (ino = 1) as ->.
  { assert (implb (itype (dino demo_sb demo_disk ino) =? T_DIR) (ino =? 1) = true) as Hc.
    { change (ninodes demo_sb) with (Z.of_nat 200) in Hino.
      apply (bounded_forall (fun n => implb (itype (dino demo_sb demo_disk n) =? T_DIR) (n =? 1)) 200); [vm_compute; reflexivity|lia]. }
    rewrite Hty in Hc. change (T_DIR =? T_DIR) with true in Hc. cbn [implb] in Hc. lia. }
  assert (same_disk (demo_root 0) (dino demo_sb demo_disk 1)) as Hs by (vm_compute; done).
  assert (nde (dino demo_sb demo_disk 1) = 2%nat) as -> by (vm_compute; reflexivity).
  split; [eapply dir_ok_same; [exact Hs|apply demo_root_ok]|].
  intros [|[|k]] Hk _; [| |lia].
  - replace (de_inum _) with 1 by (vm_compute; reflexivity). split; [done|]. vm_compute. done.
  - replace (de_inum _) with 2 by (vm_compute; reflexivity). split; [done|]. vm_compute. done.
Qed.

Lemma demo_table p :
  table_ok demo_sb demo_disk (itable (demo_fs p 0)) /\ unlocked (itable (demo_fs p 0)) /\ start_ok (itable (demo_fs p 0)).
Proof.
  split; [split; [apply demo_itable_room|..]|split; [|split]].
  - intros ip Hip. destruct (demo_entry p 0 ip Hip) as [->|[->| ->]]; intros Hr; [| |done]; vm_compute; done.
  - intros ip Hip. destruct (demo_entry p 0 ip Hip) as [->|[->| ->]]; done.
  - intros ip Hip. destruct (demo_entry p 0 ip Hip) as [->|[->| ->]]; intros Hr Hv; [| |done]; vm_compute; reflexivity.
  - intros ip Hip. destruct (demo_entry p 0 ip Hip) as [->|[->| ->]]; done.
  - exists 2%nat, 3%nat. change NINODEn with 50%nat. split_and!; lia || done.
  - intros ip Hip. destruct (demo_entry p 0 ip Hip) as [->|[->| ->]]; done.
Qed.

Lemma namex_correct_witness : exists ip nm s', namex 1 0 [47; 97] false (repeat 0 14) (demo_fs demo0 0) = Ret (Some ip, nm) s' /\
  in_use (itable s') ip 1 2.
Proof.
  destruct (demo_table demo0) as (Ht & Hul & Hst).
  destruct (wp_inv _ _ (namex_correct (demo_fs demo0 0) 1 demo_disk ∅ 0 1 [47; 97] false (repeat 0 14) demo_layout demo_fs_disk
    demo_tree ltac:(split; done) ltac:(done) eq_refl Ht Hul Hst ltac:(unfold in_use; change NINODEn with 50%nat; split_and!; lia || done)
    ltac:(split; [done|vm_compute; done]) ltac:(split; [done|vm_compute; done]) ltac:(by repeat constructor) eq_refl))
    as ([r nm] & s' & E & _ & _ & _ & Hr).
  replace (target _ _ _ _ _) with (Some 2) in Hr by (vm_compute; reflexivity).
  destruct Hr as (ip & Er & _ & Hu & _). cbn [fst] in Er. subst r. exists ip, nm, s'. split; [exact E|exact Hu].
Defined.

Lemma skipelem_splits_witness : elements 9 [47; 47; 97; 47; 98; 99; 47] (repeat 0 14) = [[97]; [98; 99]].
Proof.
  rewrite (skipelem_splits [47; 47; 97; 47; 98; 99; 47] (repeat 0 14) ltac:(by repeat constructor) eq_refl 9 ltac:(simpl; lia)).
  vm_compute. reflexivity.
Defined.

Lemma iget_unique_witness : exists ip s', iget 1 9 (demo_fs demo0 1) = Ret ip s' /\ in_use (itable s') ip 1 9.
Proof.
  destruct (wp_inv _ _ (iget_unique (demo_fs demo0 1) 1 9 (demo_itable_room _ _))) as (ip & s' & E & _ & Hu & _).
  exists ip, s'. split; [exact E|exact Hu].
Defined.

Lemma iupdate_ilock_witness : exists s',
  (iupdate 1;; modify (fun s => set_itable (<[5%nat := mk_inode 1 2 1 0 false 0 0 0 0 0 []]> (itable s)) s);; ilock 1 5)
    (demo_fs demo0 1) = Ret tt s' /\ itype (itable s' !!! 5%nat) = T_FILE.
Proof.
  destruct (wp_inv _ _ (iupdate_ilock (demo_fs demo0 1) 1 1 5 demo_disk ∅ (mk_inode 1 2 1 0 false 0 0 0 0 0 []) (demo_held_file _ _)
    ltac:(by apply (demo_room 1)) ltac:(done) ltac:(simpl; lia) eq_refl eq_refl ltac:(done) eq_refl eq_refl))
    as ([] & s' & E & _ & _ & _ & Hty & _).
  exists s'. split; [exact E|exact Hty].
Defined.

Lemma balloc_correct_witness : exists b s', balloc 1 (demo_fs demo0 1) = Ret b s' /\ b <> 0.
Proof.
  destruct (wp_inv _ _ (balloc_correct (demo_fs demo0 1) demo_disk ∅ demo_layout demo_fs_disk ltac:(split; done)
    ltac:(by apply (demo_room 2)))) as (b & s' & E & D' & L' & _ & _ & _ & _ & _ & Hb & _).
  exists b, s'. split; [exact E|]. intros Hfull%Hb. specialize (Hfull 50 ltac:(done)). vm_compute in Hfull. done.
Defined.

Lemma itrunc_correct_witness : exists s', itrunc 0 (demo_fs demo0 1) = Ret tt s' /\ isize (itable s' !!! 0%nat) = 0.
Proof.
  destruct (wp_inv _ _ (itrunc_correct (demo_fs demo0 1) 0 demo_disk ∅ (demo_held_root _ _) ltac:(by apply (demo_room 1))))
    as ([] & s' & E & D' & L' & _ & _ & Hs & _).
  exists s'. split; [exact E|exact Hs].
Defined.
