(* ===== verification/Kernel.v ===== *)
(** * Kernel state (kernel/proc.h, kernel/file.h, kernel/pipe.c)

    Processes, open files and pipes, beside the file system.  Pointers to
    [struct proc] and [struct file] are indices in their tables; a pipe is
    named by the page [kalloc] gave for it.  The current process [myproc()] is
    an argument [me] of the operations.  The sections that hold a spin lock
    are atomic; an operation that goes to sleep says so in its result. *)

From S2P Require Import Prelude Riscv Mem Kstring Kalloc Vm Store Fs.

(** ** Processes (proc.h) *)

Inductive procstate := UNUSED | USED | SLEEPING | RUNNABLE | RUNNING | ZOMBIE.

#[export] Instance procstate_eq_dec : EqDecision procstate.
Proof. solve_decision. Defined.

(** What a process can sleep on: the addresses the code passes to [sleep]. *)
Inductive channel := ChProc (p : nat) | ChNread (pi : Z) | ChNwrite (pi : Z) | ChTicks | ChLock (lk : nat) | ChCons | ChUart | ChDisk | ChBuf (b : nat) | ChLog.

#[export] Instance channel_eq_dec : EqDecision channel.
Proof. solve_decision. Defined.

(** [context] holds the [ra] and [sp] of the saved registers. *)
Record proc := mk_proc {
  pstate : procstate; pchan : option channel; pkilled : bool; xstate : Z; ppid : Z; parent : option nat;
  kstack : Z; psz : Z; pagetable : Z; trapframe : Z; context : Z * Z;
  ofile : list (option nat); cwd : option nat; pname : list Z }.

#[export] Instance proc_inhabited : Inhabited proc :=
  populate (mk_proc UNUSED None false 0 0 None 0 0 0 0 (0, 0) (repeat None 16) None []).

Definition with_pstate (x : procstate) (p : proc) : proc :=
  mk_proc x (pchan p) (pkilled p) (xstate p) (ppid p) (parent p) (kstack p) (psz p) (pagetable p) (trapframe p)
    (context p) (ofile p) (cwd p) (pname p).
Definition with_chan (x : option channel) (p : proc) : proc :=
  mk_proc (pstate p) x (pkilled p) (xstate p) (ppid p) (parent p) (kstack p) (psz p) (pagetable p) (trapframe p)
    (context p) (ofile p) (cwd p) (pname p).
Definition with_killed (x : bool) (p : proc) : proc :=
  mk_proc (pstate p) (pchan p) x (xstate p) (ppid p) (parent p) (kstack p) (psz p) (pagetable p) (trapframe p)
    (context p) (ofile p) (cwd p) (pname p).
Definition with_xstate (x : Z) (p : proc) : proc :=
  mk_proc (pstate p) (pchan p) (pkilled p) x (ppid p) (parent p) (kstack p) (psz p) (pagetable p) (trapframe p)
    (context p) (ofile p) (cwd p) (pname p).
Definition with_ppid (x : Z) (p : proc) : proc :=
  mk_proc (pstate p) (pchan p) (pkilled p) (xstate p) x (parent p) (kstack p) (psz p) (pagetable p) (trapframe p)
    (context p) (ofile p) (cwd p) (pname p).
Definition with_parent (x : option nat) (p : proc) : proc :=
  mk_proc (pstate p) (pchan p) (pkilled p) (xstate p) (ppid p) x (kstack p) (psz p) (pagetable p) (trapframe p)
    (context p) (ofile p) (cwd p) (pname p).
Definition with_kstack (x : Z) (p : proc) : proc :=
  mk_proc (pstate p) (pchan p) (pkilled p) (xstate p) (ppid p) (parent p) x (psz p) (pagetable p) (trapframe p)
    (context p) (ofile p) (cwd p) (pname p).
Definition with_psz (x : Z) (p : proc) : proc :=
  mk_proc (pstate p) (pchan p) (pkilled p) (xstate p) (ppid p) (parent p) (kstack p) x (pagetable p) (trapframe p)
    (context p) (ofile p) (cwd p) (pname p).
Definition with_pagetable (x : Z) (p : proc) : proc :=
  mk_proc (pstate p) (pchan p) (pkilled p) (xstate p) (ppid p) (parent p) (kstack p) (psz p) x (trapframe p)
    (context p) (ofile p) (cwd p) (pname p).
Definition with_trapframe (x : Z) (p : proc) : proc :=
  mk_proc (pstate p) (pchan p) (pkilled p) (xstate p) (ppid p) (parent p) (kstack p) (psz p) (pagetable p) x
    (context p) (ofile p) (cwd p) (pname p).
Definition with_context (x : Z * Z) (p : proc) : proc :=
  mk_proc (pstate p) (pchan p) (pkilled p) (xstate p) (ppid p) (parent p) (kstack p) (psz p) (pagetable p) (trapframe p)
    x (ofile p) (cwd p) (pname p).
Definition with_ofile (x : list (option nat)) (p : proc) : proc :=
  mk_proc (pstate p) (pchan p) (pkilled p) (xstate p) (ppid p) (parent p) (kstack p) (psz p) (pagetable p) (trapframe p)
    (context p) x (cwd p) (pname p).
Definition with_cwd (x : option nat) (p : proc) : proc :=
  mk_proc (pstate p) (pchan p) (pkilled p) (xstate p) (ppid p) (parent p) (kstack p) (psz p) (pagetable p) (trapframe p)
    (context p) (ofile p) x (pname p).
Definition with_pname (x : list Z) (p : proc) : proc :=
  mk_proc (pstate p) (pchan p) (pkilled p) (xstate p) (ppid p) (parent p) (kstack p) (psz p) (pagetable p) (trapframe p)
    (context p) (ofile p) (cwd p) x.

(** Offsets in [struct trapframe]. *)
Definition tf_kernel_satp : Z := 0.
Definition tf_kernel_sp : Z := 8.
Definition tf_kernel_trap : Z := 16.
Definition tf_epc : Z := 24.
Definition tf_kernel_hartid : Z := 32.
Definition tf_sp : Z := 48.
Definition tf_a0 : Z := 112.
Definition tf_a1 : Z := 120.
Definition tf_a7 : Z := 168.
Definition tf_size : Z := 288.

(** ** Pipes (pipe.c) and open files (file.h) *)

Definition PIPESIZE : Z := 512.

Record pipe := mk_pipe { pdata : list Z; nread : Z; nwrite : Z; readopen : bool; writeopen : bool }.

#[export] Instance pipe_inhabited : Inhabited pipe := populate (mk_pipe (repeat 0 512) 0 0 false false).

Inductive ftype := FD_NONE | FD_PIPE | FD_INODE | FD_DEVICE.

#[export] Instance ftype_eq_dec : EqDecision ftype.
Proof. solve_decision. Defined.

Record file := mk_file {
  ftyp : ftype; fref : Z; freadable : bool; fwritable : bool; fpipe : Z; fip : nat; foff : Z; fmajor : Z }.

#[export] Instance file_inhabited : Inhabited file := populate (mk_file FD_NONE 0 false false 0 0 0 0).

Definition with_fref (n : Z) (f : file) : file :=
  mk_file (ftyp f) n (freadable f) (fwritable f) (fpipe f) (fip f) (foff f) (fmajor f).
Definition with_ftyp (t : ftype) (f : file) : file :=
  mk_file t (fref f) (freadable f) (fwritable f) (fpipe f) (fip f) (foff f) (fmajor f).
Definition with_off (n : Z) (f : file) : file :=
  mk_file (ftyp f) (fref f) (freadable f) (fwritable f) (fpipe f) (fip f) n (fmajor f).
Definition with_pipe (rd wr : bool) (pi : Z) (f : file) : file :=
  mk_file FD_PIPE (fref f) rd wr pi (fip f) (foff f) (fmajor f).
Definition with_fmajor (m : Z) (f : file) : file :=
  mk_file (ftyp f) (fref f) (freadable f) (fwritable f) (fpipe f) (fip f) (foff f) m.
Definition with_fip (rd wr : bool) (ip : nat) (f : file) : file :=
  mk_file (ftyp f) (fref f) rd wr (fpipe f) ip (foff f) (fmajor f).

(** ** The whole *)

Record kst (St : Type) := mk_kst {
  kfs : fsst St; procs : list proc; nextpid : Z; initproc : option nat;
  ftable : list file; pipes : gmap Z pipe; kticks : Z }.
Arguments mk_kst {_}.
Arguments kfs {_}.
Arguments procs {_}.
Arguments nextpid {_}.
Arguments initproc {_}.
Arguments ftable {_}.
Arguments pipes {_}.
Arguments kticks {_}.

Section kst.
Context {St : Type}.
Implicit Types s : kst St.

Definition set_fs (x : fsst St) s : kst St := mk_kst x (procs s) (nextpid s) (initproc s) (ftable s) (pipes s) (kticks s).
Definition set_procs (x : list proc) s : kst St := mk_kst (kfs s) x (nextpid s) (initproc s) (ftable s) (pipes s) (kticks s).
Definition set_nextpid (x : Z) s : kst St := mk_kst (kfs s) (procs s) x (initproc s) (ftable s) (pipes s) (kticks s).
Definition set_initproc (x : option nat) s : kst St := mk_kst (kfs s) (procs s) (nextpid s) x (ftable s) (pipes s) (kticks s).
Definition set_ftable (x : list file) s : kst St := mk_kst (kfs s) (procs s) (nextpid s) (initproc s) x (pipes s) (kticks s).
Definition set_pipes (x : gmap Z pipe) s : kst St := mk_kst (kfs s) (procs s) (nextpid s) (initproc s) (ftable s) x (kticks s).
Definition set_ticks (x : Z) s : kst St := mk_kst (kfs s) (procs s) (nextpid s) (initproc s) (ftable s) (pipes s) x.

Definition on_fs {A} (k : M (fsst St) A) : M (kst St) A := zoom kfs set_fs k.
Definition on_mem_k {A} (k : M phys A) : M (kst St) A := on_fs (on_km k).

Definition get_proc (i : nat) : M (kst St) proc := gets (fun s => procs s !!! i).
Definition upd_proc (i : nat) (f : proc -> proc) : M (kst St) unit :=
  modify (fun s => set_procs (<[i := f (procs s !!! i)]> (procs s)) s).
Definition get_file (i : nat) : M (kst St) file := gets (fun s => ftable s !!! i).
Definition upd_file (i : nat) (f : file -> file) : M (kst St) unit :=
  modify (fun s => set_ftable (<[i := f (ftable s !!! i)]> (ftable s)) s).
Definition get_pipe (pi : Z) : M (kst St) pipe := gets (fun s => pipes s !!! pi).
Definition set_pipe (pi : Z) (x : pipe) : M (kst St) unit := modify (fun s => set_pipes (<[pi := x]> (pipes s)) s).

(** A field of the current trapframe. *)
Definition tf_load (me : nat) (off : Z) : M (kst St) Z := p ← get_proc me; on_mem_k (load64 (trapframe p + off)).
Definition tf_store (me : nat) (off v : Z) : M (kst St) unit := p ← get_proc me; on_mem_k (store64 (trapframe p + off) v).

(** [begin_op] and [end_op] of the file system's log; sleeping for log space is [diverge]. *)
Definition begin_op_k {ST : Store St} : M (kst St) unit :=
  ok ← on_fs (on_store st_begin); if (ok : bool) then mret tt else diverge.
Definition end_op_k {ST : Store St} : M (kst St) unit := on_fs (on_store st_end).
End kst.
