(* ===== verification/Asm.v ===== *)
(** * The assembly files (kernel/entry.S, swtch.S, trampoline.S, kernelvec.S)

    The instructions the files use, on the registers, control registers and
    memory of a hart, with every memory access and instruction fetch translated
    by the page table in satp.  Each routine is the list of its instructions. *)

From S2P Require Import Prelude Riscv Mem Kstring Kalloc Vm VmPt Kernel.

(** ** Registers *)

Inductive reg :=
| RA | SP | GP | TP | T0 | T1 | T2 | S0 | S1 | A0 | A1 | A2 | A3 | A4 | A5 | A6 | A7
| S2 | S3 | S4 | S5 | S6 | S7 | S8 | S9 | S10 | S11 | T3 | T4 | T5 | T6.

Global Instance reg_eq_dec : EqDecision reg.
Proof. solve_decision. Defined.

Inductive priv := UMode | SMode | MMode.

Global Instance priv_eq_dec : EqDecision priv.
Proof. solve_decision. Defined.

Record cpu := mk_cpu { regs : reg -> Z; ctl : hart; cmem : memory; pc : Z; prv : priv }.

Definition set_reg (r : reg) (v : Z) (c : cpu) : cpu := mk_cpu (<[r := v]> (regs c)) (ctl c) (cmem c) (pc c) (prv c).
Definition set_ctl (r : csr) (v : Z) (c : cpu) : cpu := mk_cpu (regs c) (fun r' => if decide (r' = r) then v else ctl c r') (cmem c) (pc c) (prv c).
Definition set_cmem (m : memory) (c : cpu) : cpu := mk_cpu (regs c) (ctl c) m (pc c) (prv c).
Definition set_pc (a : Z) (p : priv) (c : cpu) : cpu := mk_cpu (regs c) (ctl c) (cmem c) a p.

(** ** Address translation (Sv39) *)

(** The table satp points to. *)
Definition satp_root (v : Z) : Z := Z.shiftl (Z.land v (Z.ones 44)) 12.

(** Where [va] is in memory, if the hart may access it with [perm]; user pages
    are the user's only. *)
Definition xlate (c : cpu) (perm va : Z) : option Z :=
  if decide (prv c = MMode \/ ctl c satp = 0) then Some va
  else if (0 <=? va) && (va <? MAXVA) then
    let e := leaf (cmem c) (satp_root (ctl c satp)) va in
    if has e PTE_V && has e perm && Bool.eqb (has e PTE_U) (bool_decide (prv c = UMode)) then Some (PTE2PA e + va mod PGSIZE) else None
  else None.

Definition load (c : cpu) (va : Z) : option Z :=
  if va mod 8 =? 0 then match xlate c PTE_R va with Some pa => Some (ld64 (cmem c) pa) | None => None end else None.
Definition store (c : cpu) (va v : Z) : option cpu :=
  if va mod 8 =? 0 then match xlate c PTE_W va with Some pa => Some (set_cmem (st64 (cmem c) pa v) c) | None => None end else None.

(** ** Instructions *)

Inductive instr :=
| SD (rs : reg) (off : Z) (rb : reg)
| LD (rd : reg) (off : Z) (rb : reg)
| LI (rd : reg) (v : Z)
| ADDI (rd rs : reg) (v : Z)
| ADD (rd rs rt : reg)
| MUL (rd rs rt : reg)
| CSRR (rd : reg) (r : csr)
| CSRW (r : csr) (rs : reg)
| CSRRW (rd : reg) (r : csr) (rs : reg)
| SFENCE
| JR (rs : reg)
| CALL (f link : Z)
| SRET
| MRET.

(** Return from a trap: the mode and the interrupt bit from before it. *)
Definition sret (c : cpu) : cpu :=
  let x := ctl c sstatus in
  let x1 := if has x SSTATUS_SPIE then Z.lor x SSTATUS_SIE else Z.land x (Z.lnot SSTATUS_SIE) in
  let x2 := Z.land (Z.lor x1 SSTATUS_SPIE) (Z.lnot SSTATUS_SPP) in
  set_pc (ctl c sepc) (if has x SSTATUS_SPP then SMode else UMode) (set_ctl sstatus x2 c).

Definition MSTATUS_MPIE : Z := Z.shiftl 1 7.

Definition mret_ (c : cpu) : cpu :=
  let x := ctl c mstatus in
  let mpp := Z.land x MSTATUS_MPP_MASK in
  let x1 := if has x MSTATUS_MPIE then Z.lor x MSTATUS_MIE else Z.land x (Z.lnot MSTATUS_MIE) in
  let x2 := Z.land (Z.lor x1 MSTATUS_MPIE) (Z.lnot MSTATUS_MPP_MASK) in
  set_pc (ctl c mepc) (if mpp =? MSTATUS_MPP_MASK then MMode else if mpp =? MSTATUS_MPP_S then SMode else UMode) (set_ctl mstatus x2 c).

(** Supervisor code may use the control registers of its mode. *)
Definition step (i : instr) (c : cpu) : option cpu :=
  match i with
  | SD rs off rb => store c (u64 (regs c rb + off)) (regs c rs)
  | LD rd off rb => match load c (u64 (regs c rb + off)) with Some v => Some (set_reg rd v c) | None => None end
  | LI rd v => Some (set_reg rd (u64 v) c)
  | ADDI rd rs v => Some (set_reg rd (u64 (regs c rs + v)) c)
  | ADD rd rs rt => Some (set_reg rd (u64 (regs c rs + regs c rt)) c)
  | MUL rd rs rt => Some (set_reg rd (u64 (regs c rs * regs c rt)) c)
  | CSRR rd r => Some (set_reg rd (ctl c r) c)
  | CSRW r rs => Some (set_ctl r (regs c rs) c)
  | CSRRW rd r rs => Some (set_reg rd (ctl c r) (set_ctl r (regs c rs) c))
  | SFENCE => Some c
  | JR rs => Some (set_pc (regs c rs) (prv c) c)
  | CALL f link => Some (set_pc f (prv c) (set_reg RA link c))
  | SRET => Some (sret c)
  | MRET => Some (mret_ c)
  end.

(** Run the instructions that lie in the page at [va], which must be [pa] in
    memory each time an instruction is fetched. *)
Fixpoint run (va pa : Z) (l : list instr) (c : cpu) : option cpu :=
  match l with
  | [] => Some c
  | i :: l =>
      if decide (xlate c PTE_X va = Some pa) then match step i c with Some c' => run va pa l c' | None => None end else None
  end.

(** ** kernel/swtch.S *)

Definition swtch : list instr :=
  [SD RA 0 A0; SD SP 8 A0; SD S0 16 A0; SD S1 24 A0; SD S2 32 A0; SD S3 40 A0; SD S4 48 A0; SD S5 56 A0; SD S6 64 A0; SD S7 72 A0;
   SD S8 80 A0; SD S9 88 A0; SD S10 96 A0; SD S11 104 A0;
   LD RA 0 A1; LD SP 8 A1; LD S0 16 A1; LD S1 24 A1; LD S2 32 A1; LD S3 40 A1; LD S4 48 A1; LD S5 56 A1; LD S6 64 A1; LD S7 72 A1;
   LD S8 80 A1; LD S9 88 A1; LD S10 96 A1; LD S11 104 A1;
   JR RA].

(** ** kernel/trampoline.S *)

Definition uservec : list instr :=
  [CSRW sscratch A0; LI A0 TRAPFRAME;
   SD RA 40 A0; SD SP 48 A0; SD GP 56 A0; SD TP 64 A0; SD T0 72 A0; SD T1 80 A0; SD T2 88 A0; SD S0 96 A0; SD S1 104 A0;
   SD A1 120 A0; SD A2 128 A0; SD A3 136 A0; SD A4 144 A0; SD A5 152 A0; SD A6 160 A0; SD A7 168 A0;
   SD S2 176 A0; SD S3 184 A0; SD S4 192 A0; SD S5 200 A0; SD S6 208 A0; SD S7 216 A0; SD S8 224 A0; SD S9 232 A0; SD S10 240 A0; SD S11 248 A0;
   SD T3 256 A0; SD T4 264 A0; SD T5 272 A0; SD T6 280 A0;
   CSRR T0 sscratch; SD T0 112 A0;
   LD SP 8 A0; LD TP 32 A0; LD T0 16 A0; LD T1 0 A0;
   SFENCE; CSRW satp T1; SFENCE; JR T0].

Definition userret : list instr :=
  [SFENCE; CSRW satp A0; SFENCE; LI A0 TRAPFRAME;
   LD RA 40 A0; LD SP 48 A0; LD GP 56 A0; LD TP 64 A0; LD T0 72 A0; LD T1 80 A0; LD T2 88 A0; LD S0 96 A0; LD S1 104 A0;
   LD A1 120 A0; LD A2 128 A0; LD A3 136 A0; LD A4 144 A0; LD A5 152 A0; LD A6 160 A0; LD A7 168 A0;
   LD S2 176 A0; LD S3 184 A0; LD S4 192 A0; LD S5 200 A0; LD S6 208 A0; LD S7 216 A0; LD S8 224 A0; LD S9 232 A0; LD S10 240 A0; LD S11 248 A0;
   LD T3 256 A0; LD T4 264 A0; LD T5 272 A0; LD T6 280 A0;
   LD A0 112 A0; SRET].

(** ** kernel/kernelvec.S *)

(** Before the call of [kerneltrap], and after it. *)
Definition kernelvec_save : list instr :=
  [ADDI SP SP (-256);
   SD RA 0 SP; SD SP 8 SP; SD GP 16 SP; SD TP 24 SP; SD T0 32 SP; SD T1 40 SP; SD T2 48 SP; SD S0 56 SP; SD S1 64 SP; SD A0 72 SP; SD A1 80 SP;
   SD A2 88 SP; SD A3 96 SP; SD A4 104 SP; SD A5 112 SP; SD A6 120 SP; SD A7 128 SP; SD S2 136 SP; SD S3 144 SP; SD S4 152 SP; SD S5 160 SP;
   SD S6 168 SP; SD S7 176 SP; SD S8 184 SP; SD S9 192 SP; SD S10 200 SP; SD S11 208 SP; SD T3 216 SP; SD T4 224 SP; SD T5 232 SP; SD T6 240 SP].

Definition kernelvec_restore : list instr :=
  [LD RA 0 SP; LD SP 8 SP; LD GP 16 SP; LD T0 32 SP; LD T1 40 SP; LD T2 48 SP; LD S0 56 SP; LD S1 64 SP; LD A0 72 SP; LD A1 80 SP;
   LD A2 88 SP; LD A3 96 SP; LD A4 104 SP; LD A5 112 SP; LD A6 120 SP; LD A7 128 SP; LD S2 136 SP; LD S3 144 SP; LD S4 152 SP; LD S5 160 SP;
   LD S6 168 SP; LD S7 176 SP; LD S8 184 SP; LD S9 192 SP; LD S10 200 SP; LD S11 208 SP; LD T3 216 SP; LD T4 224 SP; LD T5 232 SP; LD T6 240 SP;
   ADDI SP SP 256; SRET].

Definition kernelvec (va pa : Z) (kerneltrap : cpu -> option cpu) (c : cpu) : option cpu :=
  c1 ← run va pa kernelvec_save c; c2 ← kerneltrap c1; run va pa kernelvec_restore c2.

Definition timervec : list instr :=
  [CSRRW A0 mscratch A0; SD A1 0 A0; SD A2 8 A0; SD A3 16 A0;
   LD A1 24 A0; LD A2 32 A0; LD A3 0 A1; ADD A3 A3 A2; SD A3 0 A1;
   LI A1 2; CSRW sip A1;
   LD A3 16 A0; LD A2 8 A0; LD A1 0 A0; CSRRW A0 mscratch A0;
   MRET].

(** ** kernel/entry.S *)

(** [stack0] and [start] are the addresses of start.c's array and function,
    [spin] that of the loop after the call. *)
Definition entry (stack0 start spin : Z) : list instr :=
  [LI SP stack0; LI A0 (1024 * 4); CSRR A1 mhartid; ADDI A1 A1 1; MUL A0 A0 A1; ADD SP SP A0; CALL start spin].
