(* ===== verification/AsmThms.v ===== *)
(** * What the assembly routines do

    Saving and restoring registers: [swtch] resumes a context as it was left,
    the trap entry and exit code gives a user program its registers back, and the
    handlers of traps in the kernel and of timer interrupts change no register of
    the code they interrupt. *)

From S2P Require Import Prelude Riscv Mem Kstring Kalloc Vm VmPt VmWalk VmMap VmUser VmProc VmThms Kernel Asm.

(** Facts about the concrete tables. *)
Ltac tdone := apply (bool_decide_eq_true_1 _); vm_compute; reflexivity.

Section asm.
Implicit Types c : cpu.

(** Writes to the pages [P] do not change how addresses are translated. *)
Definition stable c (P : gset Z) : Prop :=
  forall m perm va, same_except P (cmem c) m -> xlate (set_cmem m c) perm va = xlate c perm va.

Definition wide (f : reg -> Z) : Prop := forall r, 0 <= f r < 2 ^ 64.

(** Register [r] is kept at offset [o]. *)
Definition saves (tbl : list (reg * Z)) (rb : reg) : list instr := (fun x => SD x.1 x.2 rb) <$> tbl.
Definition loads (tbl : list (reg * Z)) (rb : reg) : list instr := (fun x => LD x.1 x.2 rb) <$> tbl.

Definition apart (tbl : list (reg * Z)) : Prop := forall x y, x ∈ tbl -> y ∈ tbl -> x <> y -> x.2 + 8 <= y.2 \/ y.2 + 8 <= x.2.

(** The words of the table at address [b] can be accessed, and are at [p] in memory. *)
Definition words c (perm b p : Z) (P : gset Z) (tbl : list (reg * Z)) : Prop :=
  forall r o, (r, o) ∈ tbl -> 0 <= b + o < 2 ^ 64 /\ (b + o) mod 8 = 0 /\ (p + o) mod 8 = 0 /\ xlate c perm (b + o) = Some (p + o) /\ pg (p + o) ∈ P.

Lemma xlate_regs f c perm va : xlate (mk_cpu f (ctl c) (cmem c) (pc c) (prv c)) perm va = xlate c perm va.
Proof. done. Qed.

Lemma set_cmem_twice m m' c : set_cmem m' (set_cmem m c) = set_cmem m' c.
Proof. done. Qed.

Lemma stable_mem m c P : stable c P -> same_except P (cmem c) m -> stable (set_cmem m c) P.
Proof.
  intros Hs Hm m' perm va Hm'. rewrite set_cmem_twice, !Hs; [done|done|]. eapply same_except_mono; [|eapply same_except_trans; [exact Hm|exact Hm']]. set_solver.
Qed.

Lemma words_mem m c perm b p P tbl Q : stable c Q -> same_except Q (cmem c) m -> words c perm b p P tbl -> words (set_cmem m c) perm b p P tbl.
Proof. intros Hs Hm Hw r o Hin. destruct (Hw r o Hin) as (? & ? & ? & ? & ?). by rewrite Hs. Qed.

Lemma run_saves va pa rb b p P tbl k c :
  stable c P -> xlate c PTE_X va = Some pa -> regs c rb = b -> words c PTE_W b p P tbl -> NoDup tbl -> apart tbl -> wide (regs c) ->
  exists m, run va pa (saves tbl rb ++ k) c = run va pa k (set_cmem m c) /\ same_except P (cmem c) m /\
    (forall r o, (r, o) ∈ tbl -> ld64 m (p + o) = regs c r) /\
    (forall a, (forall r o, (r, o) ∈ tbl -> a < p + o \/ p + o + 8 <= a) -> m !!! a = cmem c !!! a).
Proof.
  revert c. induction tbl as [|[r o] tbl IH]; intros c Hs Hx Hb Hw Hn Ha Hwd.
  { exists (cmem c). split_and!; [by destruct c|apply same_except_refl|by intros ? ? ?%elem_of_nil|done]. }
  destruct (Hw r o ltac:(by left)) as (H1 & H2 & H3 & H4 & H5). apply NoDup_cons in Hn as [Hni Hn].
  set (m1 := st64 (cmem c) (p + o) (regs c r)). assert (same_except P (cmem c) m1) as Hm1.
  { eapply same_except_mono; [|by apply same_except_st64]. set_solver. }
  assert (run va pa (saves ((r, o) :: tbl) rb ++ k) c = run va pa (saves tbl rb ++ k) (set_cmem m1 c)) as ->.
  { cbn [saves fmap list_fmap app run fst snd]. rewrite decide_True by done. cbn [step]. rewrite Hb, wrap_id by done. unfold store. rewrite H2, H4. done. }
  destruct (IH (set_cmem m1 c)) as (m & E & Hm & Hin & Hout); [by apply stable_mem|by rewrite Hs|done| |done|intros x y Hx' Hy'; apply Ha; by right|done|].
  { eapply words_mem; [exact Hs|done|]. intros r' o' Hr. apply (Hw r' o'). by right. }
  assert (forall a, (forall r' o', (r', o') ∈ tbl -> a < p + o' \/ p + o' + 8 <= a) -> m !!! a = m1 !!! a) as Hout1 by exact Hout.
  exists m. split_and!; [exact E|eapply same_except_mono; [|eapply same_except_trans; [exact Hm1|exact Hm]]; set_solver| |].
  - intros r' o' [[= -> ->]|Hr]%elem_of_cons; [|by apply Hin]. transitivity (ld64 m1 (p + o)); [|apply ld64_st64_eq, Hwd]. apply ld64_ext. intros i Hi. apply Hout1.
    intros r' o' Hr. destruct (Ha (r, o) (r', o')) as [|]; simpl in *; [by left|by right|by intros [= <- <-]|lia|lia].
  - intros a Hfar. rewrite Hout1 by (intros r' o' Hr; apply (Hfar r' o'); by right). apply lookup_st64_out. destruct (Hfar r o ltac:(by left)); lia.
Qed.

Definition set_regs (f : reg -> Z) c : cpu := mk_cpu f (ctl c) (cmem c) (pc c) (prv c).

Lemma run_loads va pa rb b p P tbl k c :
  xlate c PTE_X va = Some pa -> regs c rb = b -> words c PTE_R b p P tbl -> NoDup (tbl.*1) -> (forall o, (rb, o) ∈ tbl -> ld64 (cmem c) (p + o) = b) ->
  exists f, run va pa (loads tbl rb ++ k) c = run va pa k (set_regs f c) /\ (forall r o, (r, o) ∈ tbl -> f r = ld64 (cmem c) (p + o)) /\ (forall r, r ∉ tbl.*1 -> f r = regs c r).
Proof.
  revert c. induction tbl as [|[r o] tbl IH]; intros c Hx Hb Hw Hn Hbase.
  { exists (regs c). split_and!; [by destruct c|by intros ? ? ?%elem_of_nil|done]. }
  destruct (Hw r o ltac:(by left)) as (H1 & H2 & H3 & H4 & H5). cbn [fmap list_fmap fst] in Hn. apply NoDup_cons in Hn as [Hni Hn].
  assert (run va pa (loads ((r, o) :: tbl) rb ++ k) c = run va pa (loads tbl rb ++ k) (set_reg r (ld64 (cmem c) (p + o)) c)) as ->.
  { cbn [loads fmap list_fmap app run fst snd]. rewrite decide_True by done. cbn [step]. rewrite Hb, wrap_id by done. unfold load. rewrite H2, H4. done. }
  destruct (IH (set_reg r (ld64 (cmem c) (p + o)) c)) as (f & E & Hin & Hout); [done| | |done|intros o' Ho'; apply Hbase; by right|].
  { simpl. destruct (decide (r = rb)) as [->|]; [rewrite fn_lookup_insert; apply Hbase; by left|by rewrite fn_lookup_insert_ne by congruence]. }
  { intros r' o' Hr. apply (Hw r' o'). by right. }
  exists f. split_and!; [exact E| |].
  - intros r' o' [[= -> ->]|Hr]%elem_of_cons; [|by apply Hin]. rewrite Hout by done. simpl. by rewrite fn_lookup_insert.
  - intros r' Hr. apply not_elem_of_cons in Hr as [Hne Hr]. rewrite Hout by done. simpl. by rewrite fn_lookup_insert_ne.
Qed.

(** Tables in the order of their offsets. *)
Fixpoint spaced (tbl : list (reg * Z)) : bool :=
  match tbl with
  | x :: (y :: _) as t => (x.2 + 8 <=? y.2) && spaced t
  | _ => true
  end.

Lemma spaced_head x tbl y : spaced (x :: tbl) = true -> y ∈ tbl -> x.2 + 8 <= y.2.
Proof.
  revert x. induction tbl as [|z tbl IH]; intros x Hs Hy; [by apply elem_of_nil in Hy|]. cbn [spaced] in Hs. apply andb_true_iff in Hs as [H1%Z.leb_le H2].
  apply elem_of_cons in Hy as [->|Hy]; [done|]. pose proof (IH z H2 Hy). lia.
Qed.

Lemma spaced_tail x tbl : spaced (x :: tbl) = true -> spaced tbl = true.
Proof. destruct tbl; [done|]. cbn [spaced]. by intros [_ ?]%andb_true_iff. Qed.

Lemma spaced_apart tbl : spaced tbl = true -> apart tbl /\ NoDup tbl.
Proof.
  induction tbl as [|x tbl IH]; intros Hs; [split; [by intros ? ? ?%elem_of_nil|constructor]|]. destruct (IH (spaced_tail _ _ Hs)) as [Ha Hn]. split.
  - intros y z [->|Hy]%elem_of_cons [->|Hz]%elem_of_cons Hne; [done|left|right|by apply Ha]; by eapply spaced_head.
  - constructor; [|done]. intros Hin. pose proof (spaced_head x tbl x Hs Hin). lia.
Qed.

(** ** [swtch] *)

(** struct context *)
Definition context : list (reg * Z) :=
  [(RA, 0); (SP, 8); (S0, 16); (S1, 24); (S2, 32); (S3, 40); (S4, 48); (S5, 56); (S6, 64); (S7, 72); (S8, 80); (S9, 88); (S10, 96); (S11, 104)].

Lemma context_range r o : (r, o) ∈ context -> 0 <= o <= 104 /\ r <> A0 /\ r <> A1.
Proof. unfold context. rewrite !elem_of_cons, elem_of_nil. intros Hin. repeat (destruct Hin as [[= -> ->]|Hin]; [done|]). done. Qed.

Lemma swtch_spec va pa P Q c old new :
  stable c P -> xlate c PTE_X va = Some pa -> wide (regs c) -> regs c A0 = old -> regs c A1 = new -> words c PTE_W old old P context -> words c PTE_R new new Q context ->
  exists f m, run va pa swtch c = Some (set_pc (f RA) (prv c) (set_regs f (set_cmem m c))) /\ same_except P (cmem c) m /\
    (forall r o, (r, o) ∈ context -> ld64 m (old + o) = regs c r) /\ (forall a, a < old \/ old + 112 <= a -> m !!! a = cmem c !!! a) /\
    (forall r o, (r, o) ∈ context -> f r = ld64 m (new + o)) /\ (forall r, r ∉ context.*1 -> f r = regs c r).
Proof.
  intros Hs Hx Hwd H0 H1 Hw Hr. destruct (spaced_apart context eq_refl) as [Ha Hn].
  change swtch with (saves context A0 ++ loads context A1 ++ [JR RA]).
  destruct (run_saves va pa A0 old old P context (loads context A1 ++ [JR RA]) c Hs Hx H0 Hw Hn Ha Hwd) as (m & -> & Hm & Hin & Hout).
  destruct (run_loads va pa A1 new new Q context [JR RA] (set_cmem m c)) as (f & -> & Hf & Hf').
  { by rewrite Hs. }
  { done. }
  { by eapply words_mem. }
  { tdone. }
  { intros o Ho. by destruct (context_range _ _ Ho) as (_ & _ & ?). }
  exists f, m. split_and!; [|done|done| |done|done].
  - cbn [run]. rewrite decide_True by (rewrite <- (Hs m PTE_X va Hm) in Hx; exact Hx). done.
  - intros a Hfar. apply Hout. intros r o Hro. destruct (context_range _ _ Hro). lia.
Qed.

(** C28: [swtch] resumes what it left: when a later [swtch], whatever ran in
    between, is given a context that an earlier one saved and nobody wrote to,
    it returns where the earlier call was to return, with the stack pointer and
    the callee-saved registers of then. *)
Theorem swtch_resumes va pa P Q c old new :
  stable c P -> xlate c PTE_X va = Some pa -> wide (regs c) -> regs c A0 = old -> regs c A1 = new -> words c PTE_W old old P context -> words c PTE_R new new Q context ->
  exists c1, run va pa swtch c = Some c1 /\
    forall c2 P2, stable c2 P2 -> xlate c2 PTE_X va = Some pa -> wide (regs c2) -> words c2 PTE_W (regs c2 A0) (regs c2 A0) P2 context -> words c2 PTE_R old old P context ->
      regs c2 A1 = old -> regs c2 A0 + 112 <= old \/ old + 112 <= regs c2 A0 -> (forall a, old <= a < old + 112 -> cmem c2 !!! a = cmem c1 !!! a) ->
      exists c3, run va pa swtch c2 = Some c3 /\ pc c3 = regs c RA /\ forall r, r ∈ context.*1 -> regs c3 r = regs c r.
Proof.
  intros Hs Hx Hwd H0 H1 Hw Hr. destruct (swtch_spec va pa P Q c old new Hs Hx Hwd H0 H1 Hw Hr) as (f & m & E & _ & Hsv & _ & _ & _). eexists. split; [exact E|].
  intros c2 P2 Hs2 Hx2 Hwd2 Hw2 Hr2 Hold Hap Hsame. destruct (swtch_spec va pa P2 P c2 _ old Hs2 Hx2 Hwd2 eq_refl Hold Hw2 Hr2) as (f2 & m2 & E2 & _ & _ & Hout & Hf & _).
  eexists. split; [exact E2|]. assert (forall r o, (r, o) ∈ context -> f2 r = regs c r) as Hall.
  { intros r o Hro. rewrite (Hf r o Hro), <- (Hsv r o Hro). destruct (context_range _ _ Hro) as [Ho _]. apply ld64_ext. intros i Hi. rewrite Hout by lia. rewrite Hsame by lia. done. }
  split; [by apply (Hall RA 0); left|]. intros r ([r' o] & -> & Hin)%list_elem_of_fmap. by eapply Hall.
Qed.
End asm.

(** ** Paging *)

Section paging.
Context `{Linker}.
Implicit Types c : cpu.

Lemma satp_root_make root : kpage root -> satp_root (MAKE_SATP root) = root /\ MAKE_SATP root <> 0.
Proof.
  intros Hk. pose proof (kpage_aligned _ Hk) as Ha. destruct (kpage_range _ Hk). unfold aligned in Ha. assert (Z.shiftr root 12 = root / 4096) as E by (by rewrite Z.shiftr_div_pow2).
  unfold satp_root, MAKE_SATP. rewrite Z.land_lor_distr_l. change (Z.land SATP_SV39 (Z.ones 44)) with 0. rewrite Z.lor_0_l, Z.land_ones, E by lia. change (2 ^ 44) with 17592186044416. rewrite Z.mod_small by plia.
  rewrite Z.shiftl_mul_pow2 by lia. change (2 ^ 12) with 4096. split; [plia|]. intros E0. apply Z.lor_eq_0_iff in E0 as [? _]. done.
Qed.

Lemma xlate_mapped c perm va root pa flags :
  prv c = SMode -> ctl c satp = MAKE_SATP root -> kpage root -> 0 <= va < MAXVA -> leaf (cmem c) root va = mk_pte pa flags ->
  0 <= pa < 2 ^ 56 -> aligned pa -> 0 <= flags < 1024 -> 0 <= perm < 1024 -> has flags perm = true -> has flags PTE_U = false -> xlate c perm va = Some (pa + va mod PGSIZE).
Proof.
  intros Hp Hs Hk Hv El Hpa Hal Hf Hpm H1 H2. destruct (satp_root_make root Hk) as [Er En]. unfold xlate. rewrite decide_False by (rewrite Hp, Hs; naive_solver).
  rewrite (proj2 (Z.leb_le _ _)), (proj2 (Z.ltb_lt _ _)) by lia. rewrite Hs, Er, El. cbn [andb].
  rewrite mk_pte_valid, !mk_pte_has, H1, H2 by done. change (has PTE_V PTE_U) with false. rewrite bool_decide_eq_false_2 by congruence. by rewrite mk_pte_PA.
Qed.

Lemma stable_pt c root T P : ctl c satp = MAKE_SATP root -> pt_inv (cmem c) root T -> P ## dom T -> stable c P.
Proof.
  intros Hs Hpt HP m perm va Hm. unfold xlate. cbn [set_cmem prv ctl cmem]. case_decide; [done|]. destruct ((0 <=? va) && (va <? MAXVA)) eqn:Eb; [|done].
  apply andb_true_iff in Eb as [H1%Z.leb_le H2%Z.ltb_lt]. destruct (satp_root_make root) as [Er _]; [eapply (pi_page _ _ _ Hpt), (pi_root _ _ _ Hpt)|].
  rewrite Hs, Er. by rewrite (leaf_frame Hpt P m va Hm HP).
Qed.

(** ** Traps from user space *)

(** struct trapframe: the user's registers. *)
Definition frame_rest : list (reg * Z) :=
  [(RA, 40); (SP, 48); (GP, 56); (TP, 64); (T0, 72); (T1, 80); (T2, 88); (S0, 96); (S1, 104); (A1, 120); (A2, 128); (A3, 136); (A4, 144); (A5, 152); (A6, 160); (A7, 168);
   (S2, 176); (S3, 184); (S4, 192); (S5, 200); (S6, 208); (S7, 216); (S8, 224); (S9, 232); (S10, 240); (S11, 248); (T3, 256); (T4, 264); (T5, 272); (T6, 280)].
Definition frame : list (reg * Z) := (A0, 112) :: frame_rest.

Lemma frame_range r o : (r, o) ∈ frame -> 40 <= o <= 280 /\ o mod 8 = 0.
Proof. unfold frame, frame_rest. rewrite !elem_of_cons, elem_of_nil. intros Hin. repeat (destruct Hin as [[= -> ->]|Hin]; [done|]). done. Qed.

Lemma frame_rest_a0 r o : (r, o) ∈ frame_rest -> r <> A0 /\ (o + 8 <= 112 \/ 120 <= o).
Proof. unfold frame_rest. rewrite !elem_of_cons, elem_of_nil. intros Hin. repeat (destruct Hin as [[= -> ->]|Hin]; [split; [done|lia]|]). done. Qed.

Lemma frame_all r : exists o, (r, o) ∈ frame.
Proof.
  assert (r ∈ frame.*1) as Hin by (destruct r; apply (bool_decide_eq_true_1 _); vm_compute; reflexivity).
  apply list_elem_of_fmap in Hin as ([r' o] & -> & Hin). by exists o.
Qed.

(** [u] is a process's table, with the trapframe page [tf] and the trampoline at the top. *)
Record user_table (m : memory) (u tf : Z) (T : tables) : Prop := {
  ut_pt : pt_inv m u T;
  ut_high : high_mapped m u tf;
  ut_tf : kpage tf;
  ut_apart : tf ∉ dom T;
}.

(** [k] is a table with the trampoline where user tables have it. *)
Record kernel_table (m : memory) (k tf : Z) (T : tables) : Prop := {
  kt_pt : pt_inv m k T;
  kt_tramp : leaf m k TRAMPOLINE = mk_pte trampoline (Z.lor PTE_R PTE_X);
  kt_apart : tf ∉ dom T;
}.

Lemma user_table_frame m m' u tf T : user_table m u tf T -> same_except {[tf]} m m' -> user_table m' u tf T.
Proof.
  intros [A1 A2 A3 A4] Hm. assert (({[tf]} : gset Z) ## dom T) as Hd by set_solver. split; try done; [by eapply pt_inv_frame|].
  intros va Hva. rewrite (leaf_frame A1 _ _ va Hm Hd) by plia. by apply A2.
Qed.

Lemma kernel_table_frame m m' k tf T : kernel_table m k tf T -> same_except {[tf]} m m' -> kernel_table m' k tf T.
Proof.
  intros [A1 A2 A3] Hm. assert (({[tf]} : gset Z) ## dom T) as Hd by set_solver. split; [by eapply pt_inv_frame| |done]. by rewrite (leaf_frame A1 _ _ _ Hm Hd) by plia.
Qed.

Lemma user_exec c u tf T : prv c = SMode -> ctl c satp = MAKE_SATP u -> user_table (cmem c) u tf T -> xlate c PTE_X TRAMPOLINE = Some trampoline.
Proof.
  intros Hp Hs [A1 A2 A3 A4]. destruct trampoline_pa as [Ta Tr]. rewrite (xlate_mapped c PTE_X TRAMPOLINE u trampoline (Z.lor PTE_R PTE_X)); try done.
  - change (TRAMPOLINE mod PGSIZE) with 0. by rewrite Z.add_0_r.
  - eapply (pi_page _ _ _ A1), (pi_root _ _ _ A1).
  - rewrite A2 by plia. by rewrite decide_False by plia.
  - change (2 ^ 56) with 72057594037927936. plia.
Qed.

Lemma kernel_exec c k tf T : prv c = SMode -> ctl c satp = MAKE_SATP k -> kernel_table (cmem c) k tf T -> xlate c PTE_X TRAMPOLINE = Some trampoline.
Proof.
  intros Hp Hs [A1 A2 A3]. destruct trampoline_pa as [Ta Tr]. rewrite (xlate_mapped c PTE_X TRAMPOLINE k trampoline (Z.lor PTE_R PTE_X)); try done.
  - change (TRAMPOLINE mod PGSIZE) with 0. by rewrite Z.add_0_r.
  - eapply (pi_page _ _ _ A1), (pi_root _ _ _ A1).
  - change (2 ^ 56) with 72057594037927936. plia.
Qed.

(** A word of the trapframe, as the trampoline code sees it. *)
Lemma frame_word c u tf T perm o : prv c = SMode -> ctl c satp = MAKE_SATP u -> user_table (cmem c) u tf T -> perm = PTE_R \/ perm = PTE_W ->
  0 <= o <= 280 -> o mod 8 = 0 ->
  0 <= TRAPFRAME + o < 2 ^ 64 /\ (TRAPFRAME + o) mod 8 = 0 /\ (tf + o) mod 8 = 0 /\ xlate c perm (TRAPFRAME + o) = Some (tf + o) /\ pg (tf + o) ∈ ({[tf]} : gset Z).
Proof.
  intros Hp Hs [A1 A2 A3 A4] Hperm Ho Ho8. pose proof (kpage_aligned _ A3) as Ha. destruct (kpage_range _ A3). unfold aligned in Ha.
  split_and!; [plia|plia|plia|plia| |].
  - rewrite (xlate_mapped c perm (TRAPFRAME + o) u tf (Z.lor PTE_R PTE_W)); try done.
    + do 2 f_equal. plia.
    + eapply (pi_page _ _ _ A1), (pi_root _ _ _ A1).
    + plia.
    + rewrite A2 by plia. by rewrite decide_True by plia.
    + change (2 ^ 56) with 72057594037927936. plia.
    + by destruct Hperm as [-> | ->].
    + by destruct Hperm as [-> | ->].
  - apply elem_of_singleton. apply pg_in; [done|plia].
Qed.

Lemma frame_words c u tf T perm tbl : prv c = SMode -> ctl c satp = MAKE_SATP u -> user_table (cmem c) u tf T -> perm = PTE_R \/ perm = PTE_W ->
  (forall r o, (r, o) ∈ tbl -> 0 <= o <= 280 /\ o mod 8 = 0) -> words c perm TRAPFRAME tf {[tf]} tbl.
Proof. intros Hp Hs Hu Hperm Ht r o [H1 H2]%Ht. by eapply frame_word. Qed.

(** What the trampoline code leaves in the control registers. *)
Definition entered (c : cpu) (ks : Z) : hart := fun r => if decide (r = satp) then ks else if decide (r = sscratch) then regs c A0 else ctl c r.

Definition kernel_words : list (reg * Z) := [(SP, 8); (TP, 32); (T0, 16); (T1, 0)].

Lemma uservec_spec c u k tf Tu Tk :
  prv c = SMode -> ctl c satp = MAKE_SATP u -> wide (regs c) -> user_table (cmem c) u tf Tu -> kernel_table (cmem c) k tf Tk -> ld64 (cmem c) (tf + tf_kernel_satp) = MAKE_SATP k ->
  exists f m, run TRAMPOLINE trampoline uservec c = Some (mk_cpu f (entered c (MAKE_SATP k)) m (ld64 (cmem c) (tf + tf_kernel_trap)) SMode) /\
    f SP = ld64 (cmem c) (tf + tf_kernel_sp) /\ f TP = ld64 (cmem c) (tf + tf_kernel_hartid) /\
    same_except {[tf]} (cmem c) m /\ (forall r o, (r, o) ∈ frame -> ld64 m (tf + o) = regs c r) /\ (forall o, 0 <= o < 40 -> m !!! (tf + o) = cmem c !!! (tf + o)).
Proof.
  intros Hp Hs Hwd Hu Hkt Hks. unfold tf_kernel_satp, tf_kernel_trap, tf_kernel_sp, tf_kernel_hartid in *.
  assert (({[tf]} : gset Z) ## dom Tu) as Hd by (destruct Hu; set_solver).
  set (c0 := set_reg A0 (u64 TRAPFRAME) (set_ctl sscratch (regs c A0) c)). assert (stable c0 {[tf]}) as Hst by (eapply stable_pt; [exact Hs|apply Hu|done]).
  assert (xlate c0 PTE_X TRAMPOLINE = Some trampoline) as Hx by (by eapply user_exec).
  assert (wide (regs c0)) as Hwd0.
  { intros r. simpl. destruct (decide (r = A0)) as [->|]; [rewrite fn_lookup_insert; apply wrap_range; lia|rewrite fn_lookup_insert_ne by done; apply Hwd]. }
  assert (forall r, r <> A0 -> regs c0 r = regs c r) as Hr0 by (intros r Hr; simpl; by rewrite fn_lookup_insert_ne).
  assert (regs c0 A0 = TRAPFRAME) as HA0 by (simpl; by rewrite fn_lookup_insert).
  destruct (spaced_apart frame_rest eq_refl) as [Ha Hn].
  assert (forall r o, (r, o) ∈ frame_rest -> 0 <= o <= 280 /\ o mod 8 = 0) as Hrng by (intros r o Hro; destruct (frame_range r o ltac:(by right)); lia).
  change uservec with ([CSRW sscratch A0; LI A0 TRAPFRAME] ++ saves frame_rest A0 ++ [CSRR T0 sscratch] ++ saves [(T0, 112)] A0 ++ loads kernel_words A0 ++ [SFENCE; CSRW satp T1; SFENCE; JR T0]).
  assert (forall l, run TRAMPOLINE trampoline ([CSRW sscratch A0; LI A0 TRAPFRAME] ++ l) c = run TRAMPOLINE trampoline l c0) as ->.
  { intros l. cbn [app run]. rewrite decide_True by (by eapply user_exec). cbn [step]. rewrite decide_True by (by eapply (user_exec (set_ctl sscratch (regs c A0) c))). done. }
  destruct (run_saves TRAMPOLINE trampoline A0 TRAPFRAME tf {[tf]} frame_rest ([CSRR T0 sscratch] ++ saves [(T0, 112)] A0 ++ loads kernel_words A0 ++ [SFENCE; CSRW satp T1; SFENCE; JR T0]) c0)
    as (m1 & -> & Hm1 & Hin1 & Hout1); [done|done|done|by eapply frame_words; eauto|done|done|done|].
  set (c1 := set_cmem m1 c0). set (c2 := set_reg T0 (regs c A0) c1). assert (user_table m1 u tf Tu) as Hu1 by (eapply user_table_frame; [exact Hu|exact Hm1]).
  assert (forall l, run TRAMPOLINE trampoline ([CSRR T0 sscratch] ++ l) c1 = run TRAMPOLINE trampoline l c2) as ->.
  { intros l. cbn [app run]. rewrite decide_True by (by eapply (user_exec c1)). done. }
  assert (stable c2 {[tf]}) as Hst2 by (eapply stable_pt; [exact Hs|apply Hu1|done]).
  destruct (run_saves TRAMPOLINE trampoline A0 TRAPFRAME tf {[tf]} [(T0, 112)] (loads kernel_words A0 ++ [SFENCE; CSRW satp T1; SFENCE; JR T0]) c2)
    as (m2 & -> & Hm2 & Hin2 & Hout2).
  { done. }
  { by eapply user_exec. }
  { done. }
  { eapply frame_words; [done|exact Hs|exact Hu1|by right|]. by intros r o [= -> ->]%list_elem_of_singleton. }
  { apply NoDup_singleton. }
  { by apply spaced_apart. }
  { intros r. simpl. destruct (decide (r = T0)) as [->|]; [rewrite fn_lookup_insert; apply Hwd|rewrite fn_lookup_insert_ne by done; apply Hwd0]. }
  assert (same_except {[tf]} (cmem c) m2) as Hm by (eapply same_except_mono; [|eapply same_except_trans; [exact Hm1|exact Hm2]]; set_solver).
  assert (forall a, (forall r o, (r, o) ∈ frame -> a < tf + o \/ tf + o + 8 <= a) -> m2 !!! a = cmem c !!! a) as Hout.
  { intros a Hfar. rewrite Hout2; [apply Hout1|]; intros r o Hro; [apply (Hfar r); by right|]. apply list_elem_of_singleton in Hro as [= -> ->]. apply (Hfar A0). by left. }
  assert (forall o, 0 <= o < 40 -> m2 !!! (tf + o) = cmem c !!! (tf + o)) as Hlow by (intros o Ho; apply Hout; intros r o' Hro; destruct (frame_range r o' Hro); lia).
  assert (forall o, 0 <= o <= 32 -> ld64 m2 (tf + o) = ld64 (cmem c) (tf + o)) as Hlow64.
  { intros o Ho. apply ld64_ext. intros i Hi. replace i with (tf + (i - tf)) by lia. rewrite Hlow by lia. done. }
  assert (user_table m2 u tf Tu) as Hu2 by (eapply user_table_frame; [exact Hu|exact Hm]).
  destruct (run_loads TRAMPOLINE trampoline A0 TRAPFRAME tf {[tf]} kernel_words [SFENCE; CSRW satp T1; SFENCE; JR T0] (set_cmem m2 c2)) as (f & -> & Hf & Hf').
  { by eapply user_exec. }
  { done. }
  { eapply frame_words; [done|exact Hs|exact Hu2|by left|]. unfold kernel_words. intros r o. rewrite !elem_of_cons, elem_of_nil. intros Hx4. repeat (destruct Hx4 as [[= -> ->]|Hx4]; [done|]). done. }
  { tdone. }
  { unfold kernel_words. intros o. rewrite !elem_of_cons, elem_of_nil. naive_solver. }
  assert (f SP = ld64 m2 (tf + 8) /\ f TP = ld64 m2 (tf + 32) /\ f T0 = ld64 m2 (tf + 16) /\ f T1 = ld64 m2 (tf + 0)) as (F1 & F2 & F3 & F4).
  { split_and!; apply Hf; apply (bool_decide_eq_true_1 _); vm_compute; reflexivity. }
  rewrite !Hlow64 in F1, F2, F3, F4 by lia. exists f, m2. split_and!; [|done|done|done| |done].
  - set (c3 := set_regs f (set_cmem m2 c2)). set (c4 := set_ctl satp (f T1) c3). rewrite Hks in F4.
    cbn [run]. rewrite decide_True by (by eapply (user_exec c3)). cbn [step]. rewrite decide_True by (by eapply (user_exec c3)). cbn [step]. fold c3. change (regs c3 T1) with (f T1). fold c4.
    assert (xlate c4 PTE_X TRAMPOLINE = Some trampoline) as Hx4 by (eapply (kernel_exec c4); [done|exact F4|by eapply kernel_table_frame]).
    rewrite decide_True by done. cbn [step]. rewrite decide_True by done. cbn [step]. unfold c4, c3, set_pc, set_ctl, set_regs, set_cmem, c2, c1, c0, set_reg. cbn [regs ctl cmem prv].
    unfold entered. rewrite F3, F4. rewrite <- Hp. done.
  - intros r o [[= -> ->]|Hro]%elem_of_cons; [rewrite (Hin2 T0 112) by (by left); simpl; by rewrite fn_lookup_insert|].
    destruct (frame_rest_a0 r o Hro) as [Hne Hap]. rewrite <- (Hr0 r Hne), <- (Hin1 r o Hro). apply ld64_ext. intros i Hi. apply Hout2. intros r' o' [= -> ->]%list_elem_of_singleton. lia.
Qed.

(** [c] is about to run [userret]: its argument is the user's satp. *)
Lemma userret_spec c u k tf Tu Tk ks :
  prv c = SMode -> regs c A0 = MAKE_SATP u -> ctl c satp = ks -> (ks = MAKE_SATP k /\ kernel_table (cmem c) k tf Tk) -> user_table (cmem c) u tf Tu ->
  exists f, run TRAMPOLINE trampoline userret c = Some (sret (set_regs f (set_ctl satp (MAKE_SATP u) c))) /\ forall r o, (r, o) ∈ frame -> f r = ld64 (cmem c) (tf + o).
Proof.
  intros Hp HA0 Hs [-> Hkt] Hu. set (c0 := set_ctl satp (MAKE_SATP u) c). set (c1 := set_reg A0 (u64 TRAPFRAME) c0).
  change userret with ([SFENCE; CSRW satp A0; SFENCE; LI A0 TRAPFRAME] ++ loads frame_rest A0 ++ loads [(A0, 112)] A0 ++ [SRET]).
  assert (forall f, xlate (set_regs f c0) PTE_X TRAMPOLINE = Some trampoline) as Hx0 by (intros f; by eapply (user_exec (set_regs f c0))).
  assert (xlate c PTE_X TRAMPOLINE = Some trampoline) as Hx by (by eapply kernel_exec).
  assert (forall l, run TRAMPOLINE trampoline ([SFENCE; CSRW satp A0; SFENCE; LI A0 TRAPFRAME] ++ l) c = run TRAMPOLINE trampoline l c1) as ->.
  { intros l. cbn [app run]. rewrite decide_True by done. cbn [step]. rewrite decide_True by done. cbn [step]. rewrite HA0. fold c0. pose proof (Hx0 (regs c0)) as Hx1. destruct c as [f0 h0 m0 p0 v0].
    rewrite decide_True by exact Hx1. cbn [step]. rewrite decide_True by exact Hx1. done. }
  destruct (run_loads TRAMPOLINE trampoline A0 TRAPFRAME tf {[tf]} frame_rest (loads [(A0, 112)] A0 ++ [SRET]) c1) as (f & -> & Hf & Hf').
  { apply (Hx0 (regs c1)). }
  { simpl. by rewrite fn_lookup_insert. }
  { eapply frame_words; [exact Hp|done|exact Hu|by left|]. intros r o Hro. destruct (frame_range r o ltac:(by right)). lia. }
  { tdone. }
  { intros o Ho. by destruct (frame_rest_a0 _ _ Ho). }
  assert (f A0 = TRAPFRAME) as HfA by (rewrite Hf' by tdone; simpl; by rewrite fn_lookup_insert).
  destruct (frame_word c1 u tf Tu PTE_R 112 Hp eq_refl Hu ltac:(by left) ltac:(lia) eq_refl) as (B1 & B2 & _ & B3 & _).
  exists (<[A0 := ld64 (cmem c) (tf + 112)]> f). split.
  - cbn [loads fmap list_fmap app run fst snd]. rewrite decide_True by (apply (Hx0 f)). cbn [step]. change (regs (set_regs f c1) A0) with (f A0). rewrite HfA, wrap_id by done. unfold load.
    rewrite B2. change (xlate (set_regs f c1) PTE_R (TRAPFRAME + 112)) with (xlate c1 PTE_R (TRAPFRAME + 112)). rewrite B3. cbn [Z.eqb]. rewrite decide_True by (apply (Hx0 (<[A0 := ld64 (cmem c) (tf + 112)]> f))). done.
  - intros r o [[= -> ->]|Hro]%elem_of_cons; [by rewrite fn_lookup_insert|]. destruct (frame_rest_a0 r o Hro) as [Hne _]. rewrite fn_lookup_insert_ne by done. by apply Hf.
Qed.

(** C9: A trap from user space gives the user its registers back.  [uservec],
    entered from any user program, saves all 31 registers in the process's
    trapframe and starts the kernel on the stack, table and hart the
    trapframe names, changing nothing else in memory; and whenever [userret] is
    given that process's page table, each register gets the word of the
    trapframe that [uservec] saved it in, so the user finds its registers as they were,
    but for what the kernel wrote there, at the saved program counter. *)
Theorem user_trap_transparent c u k tf Tu Tk :
  prv c = SMode -> ctl c satp = MAKE_SATP u -> wide (regs c) -> user_table (cmem c) u tf Tu -> kernel_table (cmem c) k tf Tk -> ld64 (cmem c) (tf + tf_kernel_satp) = MAKE_SATP k ->
  exists c1, run TRAMPOLINE trampoline uservec c = Some c1 /\ prv c1 = SMode /\ ctl c1 satp = MAKE_SATP k /\ pc c1 = ld64 (cmem c) (tf + tf_kernel_trap) /\
    regs c1 SP = ld64 (cmem c) (tf + tf_kernel_sp) /\ regs c1 TP = ld64 (cmem c) (tf + tf_kernel_hartid) /\ same_except {[tf]} (cmem c) (cmem c1) /\
    forall c2 T2 T2', prv c2 = SMode -> regs c2 A0 = MAKE_SATP u -> ctl c2 satp = MAKE_SATP k -> kernel_table (cmem c2) k tf T2 -> user_table (cmem c2) u tf T2' ->
      exists c3, run TRAMPOLINE trampoline userret c2 = Some c3 /\ pc c3 = ctl c2 sepc /\ ctl c3 satp = MAKE_SATP u /\ cmem c3 = cmem c2 /\
        (has (ctl c2 sstatus) SSTATUS_SPP = false -> prv c3 = UMode) /\
        forall r o, (r, o) ∈ frame -> regs c3 r = ld64 (cmem c2) (tf + o) /\ (ld64 (cmem c2) (tf + o) = ld64 (cmem c1) (tf + o) -> regs c3 r = regs c r).
Proof.
  intros Hp Hs Hwd Hu Hkt Hks. destruct (uservec_spec c u k tf Tu Tk Hp Hs Hwd Hu Hkt Hks) as (f & m & E & F1 & F2 & Hm & Hin & _). eexists. split; [exact E|]. cbn [prv ctl pc regs cmem].
  split_and!; try done. intros c2 T2 T2' Hp2 HA2 Hs2 Hk2 Hu2. destruct (userret_spec c2 u k tf T2' T2 _ Hp2 HA2 Hs2 (conj eq_refl Hk2) Hu2) as (g & E2 & Hg).
  eexists. split; [exact E2|]. split_and!; try done.
  - intros Hspp. unfold sret. cbn [set_pc prv]. change (ctl (set_regs g _) sstatus) with (ctl c2 sstatus). by rewrite Hspp.
  - intros r o Hro. cbn [sret set_pc regs set_ctl set_regs]. split; [by apply Hg|]. intros Ew. by rewrite (Hg r o Hro), Ew, (Hin r o Hro).
Qed.
End paging.

(** ** Traps in the kernel *)

Section kernelvec.
Implicit Types c : cpu.

(** The registers [kernelvec] restores; it saves [tp] also. *)
Definition kframe_rest : list (reg * Z) :=
  [(T0, 32); (T1, 40); (T2, 48); (S0, 56); (S1, 64); (A0, 72); (A1, 80); (A2, 88); (A3, 96); (A4, 104); (A5, 112); (A6, 120); (A7, 128); (S2, 136); (S3, 144); (S4, 152); (S5, 160);
   (S6, 168); (S7, 176); (S8, 184); (S9, 192); (S10, 200); (S11, 208); (T3, 216); (T4, 224); (T5, 232); (T6, 240)].
Definition kframe : list (reg * Z) := [(RA, 0); (SP, 8); (GP, 16)] ++ kframe_rest.
Definition kframe_saved : list (reg * Z) := [(RA, 0); (SP, 8); (GP, 16); (TP, 24)] ++ kframe_rest.

Lemma kframe_saved_in r o : (r, o) ∈ kframe -> (r, o) ∈ kframe_saved.
Proof. unfold kframe, kframe_saved. rewrite !elem_of_app, !elem_of_cons. tauto. Qed.

Lemma kframe_range r o : (r, o) ∈ kframe_saved -> 0 <= o <= 240.
Proof. unfold kframe_saved, kframe_rest. rewrite !elem_of_app, !elem_of_cons, elem_of_nil. intros Hin. repeat (destruct Hin as [Hin|Hin] || injection Hin as -> ->); first [done|lia]. Qed.

Lemma kframe_regs r : r <> TP -> exists o, (r, o) ∈ kframe.
Proof.
  intros Hr. assert (r ∈ kframe.*1) as Hin by (destruct r; first [done|apply (bool_decide_eq_true_1 _); vm_compute; reflexivity]).
  apply list_elem_of_fmap in Hin as ([r' o] & -> & Hin). by exists o.
Qed.

(** A trap in the kernel changes no register of what it interrupts but
    [tp], the number of the hart, which may be another one: [kernelvec] saves the
    registers on the stack, and when [kerneltrap] has returned with the stack
    pointer and the saved words as they were, it restores them and goes back to
    the interrupted instruction. *)
Theorem kernelvec_transparent va pa P p c :
  let b := u64 (regs c SP - 256) in
  stable c P -> xlate c PTE_X va = Some pa -> wide (regs c) -> words c PTE_W b p P kframe_saved ->
  exists c1, run va pa kernelvec_save c = Some c1 /\ same_except P (cmem c) (cmem c1) /\ c1 = set_cmem (cmem c1) (set_reg SP b c) /\
    forall c2, regs c2 SP = b -> xlate c2 PTE_X va = Some pa -> words c2 PTE_R b p P kframe -> (forall a, p <= a < p + 256 -> cmem c2 !!! a = cmem c1 !!! a) ->
      exists c3, (forall kerneltrap, kerneltrap c1 = Some c2 -> kernelvec va pa kerneltrap c = Some c3) /\
        (forall r, r <> TP -> regs c3 r = regs c r) /\ regs c3 TP = regs c2 TP /\ cmem c3 = cmem c2 /\ pc c3 = ctl c2 sepc.
Proof.
  intros b Hs Hx Hwd Hw. set (c0 := set_reg SP b c). assert (0 <= b < 2 ^ 64) as Hb by (apply wrap_range; lia).
  assert (wide (regs c0)) as Hwd0 by (intros r; simpl; destruct (decide (r = SP)) as [->|]; [by rewrite fn_lookup_insert|rewrite fn_lookup_insert_ne by done; apply Hwd]).
  destruct (spaced_apart kframe_saved eq_refl) as [Ha Hn].
  assert (run va pa kernelvec_save c = run va pa (saves kframe_saved SP ++ []) c0) as E0 by (cbn [kernelvec_save run]; rewrite decide_True by done; done).
  destruct (run_saves va pa SP b p P kframe_saved [] c0) as (m & E1 & Hm & Hin & _); [done|done|simpl; by rewrite fn_lookup_insert|done|done|done|done|].
  exists (set_cmem m c0). split; [by rewrite E0, E1|]. split; [done|]. split; [done|]. intros c2 Hsp Hx2 Hw2 Hsame.
  assert (forall r o, (r, o) ∈ kframe -> ld64 (cmem c2) (p + o) = regs c0 r) as Hld.
  { intros r o Hro%kframe_saved_in. rewrite <- (Hin r o Hro). pose proof (kframe_range r o Hro). apply ld64_ext. intros i Hi. rewrite Hsame by lia. done. }
  destruct (run_loads va pa SP b p P kframe [ADDI SP SP 256; SRET] c2 Hx2 Hsp Hw2) as (f & E2 & Hf & Hf').
  { tdone. }
  { intros o Ho. rewrite (Hld SP o Ho). simpl. by rewrite fn_lookup_insert. }
  assert (f SP = b) as HfS by (rewrite (Hf SP 8), (Hld SP 8) by tdone; simpl; by rewrite fn_lookup_insert).
  exists (sret (set_reg SP (u64 (b + 256)) (set_regs f c2))). split_and!.
  - intros kt Ek. unfold kernelvec. rewrite E0, E1. cbn [run mbind option_bind]. rewrite Ek. cbn [mbind option_bind].
    change kernelvec_restore with (loads kframe SP ++ [ADDI SP SP 256; SRET]). rewrite E2. cbn [run]. rewrite decide_True by exact Hx2. cbn [step]. rewrite decide_True by exact Hx2. cbn [step].
    change (regs (set_regs f c2) SP) with (f SP). by rewrite HfS.
  - intros r Hr. simpl. destruct (decide (r = SP)) as [->|Hne].
    + rewrite fn_lookup_insert. unfold b, wrap. rewrite Zplus_mod_idemp_l. fold (wrap 64 (regs c SP - 256 + 256)). replace (regs c SP - 256 + 256) with (regs c SP) by lia. apply wrap_id, Hwd.
    + rewrite fn_lookup_insert_ne by done. destruct (kframe_regs r Hr) as (o & Hro). rewrite (Hf r o Hro), (Hld r o Hro). simpl. by rewrite fn_lookup_insert_ne.
  - simpl. rewrite fn_lookup_insert_ne by done. apply Hf'. tdone.
  - done.
  - done.
Qed.
End kernelvec.

(** ** Machine mode *)

Section machine.
Implicit Types c : cpu.

Lemma xlate_m c perm va : prv c = MMode -> xlate c perm va = Some va.
Proof. intros Hp. unfold xlate. by rewrite decide_True by (by left). Qed.

Lemma run_m i l va c : prv c = MMode -> run va va (i :: l) c = c' ← step i c; run va va l c'.
Proof. intros Hp. cbn [run]. by rewrite decide_True by (by apply xlate_m). Qed.

Lemma sd_m rs off rb b c : prv c = MMode -> regs c rb = b -> 0 <= b + off < 2 ^ 64 -> (b + off) mod 8 = 0 ->
  step (SD rs off rb) c = Some (set_cmem (st64 (cmem c) (b + off) (regs c rs)) c).
Proof. intros Hp Hb Hr Ha. cbn [step]. rewrite Hb, wrap_id by done. unfold store. by rewrite Ha, xlate_m. Qed.

Lemma ld_m rd off rb b c : prv c = MMode -> regs c rb = b -> 0 <= b + off < 2 ^ 64 -> (b + off) mod 8 = 0 -> step (LD rd off rb) c = Some (set_reg rd (ld64 (cmem c) (b + off)) c).
Proof. intros Hp Hb Hr Ha. cbn [step]. rewrite Hb, wrap_id by done. unfold load. by rewrite Ha, xlate_m. Qed.

(** The timer interrupt is invisible to the code it interrupts: [timervec]
    asks for the next interrupt one interval later and for a software interrupt in
    supervisor mode, and leaves every register as it was and memory too, but for
    its scratch area. *)
Theorem timervec_transparent c va scratch tc :
  prv c = MMode -> wide (regs c) -> ctl c mscratch = scratch -> 0 <= scratch -> scratch + 40 <= 2 ^ 64 -> scratch mod 8 = 0 -> ld64 (cmem c) (scratch + 24) = tc -> tc mod 8 = 0 ->
  tc + 8 <= scratch \/ scratch + 40 <= tc ->
  exists c', run va va timervec c = Some c' /\ (forall r, regs c' r = regs c r) /\ ctl c' mscratch = scratch /\ ctl c' sip = 2 /\ pc c' = ctl c mepc /\
    ld64 (cmem c') tc = u64 (ld64 (cmem c) tc + ld64 (cmem c) (scratch + 32)) /\
    (forall a, (a < scratch \/ scratch + 24 <= a) -> (a < tc \/ tc + 8 <= a) -> cmem c' !!! a = cmem c !!! a).
Proof.
  intros Hp Hwd Hsc H0 H64 H8 Htc Ht8 Hap. pose proof (ld64_range (cmem c) (scratch + 24)) as Hr. rewrite Htc in Hr.
  assert (scratch + 0 = scratch) as Z0 by lia. assert (tc + 0 = tc) as Z1 by lia.
  set (m1 := st64 (cmem c) scratch (regs c A1)). set (m2 := st64 m1 (scratch + 8) (regs c A2)). set (m3 := st64 m2 (scratch + 16) (regs c A3)).
  assert (forall a, scratch + 24 <= a \/ a + 8 <= scratch -> ld64 m3 a = ld64 (cmem c) a) as Hfar by (intros a Ha; unfold m3, m2, m1; rewrite !ld64_st64_ne by lia; done).
  set (v := u64 (ld64 (cmem c) tc + ld64 (cmem c) (scratch + 32))). set (m4 := st64 m3 tc v).
  assert (ld64 m4 (scratch + 16) = regs c A3 /\ ld64 m4 (scratch + 8) = regs c A2 /\ ld64 m4 scratch = regs c A1) as (L3 & L2 & L1).
  { unfold m4, m3, m2, m1. split_and!; rewrite ?ld64_st64_ne, ?ld64_st64_eq by (lia || apply Hwd); first [apply ld64_st64_eq, Hwd|done]. }
  assert (exists f, run va va timervec c = Some (mret_ (mk_cpu f (fun r => if decide (r = mscratch) then scratch else if decide (r = sip) then 2 else if decide (r = mscratch) then regs c A0 else ctl c r) m4 (pc c) (prv c))) /\
    forall r, f r = regs c r) as (f & E & Hf).
  { unfold timervec. rewrite run_m by done. cbn [step mbind option_bind]. rewrite Hsc. set (c1 := set_reg A0 scratch (set_ctl mscratch (regs c A0) c)).
    assert ((scratch + 8) mod 8 = 0 /\ (scratch + 16) mod 8 = 0 /\ (scratch + 24) mod 8 = 0 /\ (scratch + 32) mod 8 = 0) as (B1 & B2 & B3 & B4) by zdm.
    rewrite run_m, (sd_m _ _ _ scratch) by (done || lia || (rewrite Z0; done)). cbn [mbind option_bind]. rewrite Z0. change (cmem c1) with (cmem c). change (regs c1 A1) with (regs c A1). fold m1.
    rewrite run_m, (sd_m _ _ _ scratch) by (done || lia). cbn [mbind option_bind]. change (cmem (set_cmem m1 c1)) with m1. change (regs (set_cmem m1 c1) A2) with (regs c A2). fold m2.
    rewrite run_m, (sd_m _ _ _ scratch) by (done || lia). cbn [mbind option_bind]. change (cmem (set_cmem m2 _)) with m2. change (regs (set_cmem m2 _) A3) with (regs c A3). fold m3.
    set (c2 := set_cmem m3 _). rewrite run_m, (ld_m _ _ _ scratch) by (done || lia). cbn [mbind option_bind]. change (cmem c2) with m3. rewrite Hfar, Htc by lia.
    rewrite run_m, (ld_m _ _ _ scratch) by (done || lia). cbn [mbind option_bind]. change (cmem (set_reg A1 tc c2)) with m3. rewrite Hfar by lia.
    set (c3 := set_reg A2 _ _). rewrite run_m, (ld_m _ _ _ tc) by (done || lia || (rewrite Z1; done)). cbn [mbind option_bind]. rewrite Z1. change (cmem c3) with m3. rewrite Hfar by lia.
    rewrite run_m by done. cbn [step mbind option_bind]. set (c4 := set_reg A3 (u64 _) _). change (c4) with (set_reg A3 v (set_reg A3 (ld64 (cmem c) tc) c3)) in *. clear c4.
    set (c4 := set_reg A3 v _). rewrite run_m, (sd_m _ _ _ tc) by (done || lia || (rewrite Z1; done)). cbn [mbind option_bind]. rewrite Z1. change (cmem c4) with m3. change (regs c4 A3) with v. fold m4.
    rewrite run_m by done. cbn [step mbind option_bind]. rewrite run_m by done. cbn [step mbind option_bind]. set (c5 := set_ctl sip _ _).
    rewrite run_m, (ld_m _ _ _ scratch) by (done || lia). cbn [mbind option_bind]. change (cmem c5) with m4. rewrite L3.
    rewrite run_m, (ld_m _ _ _ scratch) by (done || lia). cbn [mbind option_bind]. change (cmem (set_reg A3 (regs c A3) c5)) with m4. rewrite L2.
    rewrite run_m, (ld_m _ _ _ scratch) by (done || lia || (rewrite Z0; done)). cbn [mbind option_bind]. rewrite Z0. change (cmem (set_reg A2 (regs c A2) _)) with m4. rewrite L1.
    set (c6 := set_reg A1 _ _). rewrite run_m by done. cbn [step mbind option_bind]. rewrite run_m by done. cbn [step mbind option_bind run].
    exists (<[A0 := regs c A0]> (regs c6)). split; [reflexivity|]. intros r. destruct r; reflexivity. }
  exists (mret_ (mk_cpu f (fun r => if decide (r = mscratch) then scratch else if decide (r = sip) then 2 else if decide (r = mscratch) then regs c A0 else ctl c r) m4 (pc c) (prv c))).
  split_and!; [done|exact Hf|done|done|done| |].
  - simpl. apply ld64_st64_eq, wrap_range. lia.
  - intros a Ha Hb. simpl. unfold m4, m3, m2, m1. rewrite !lookup_st64_out by lia. done.
Qed.
End machine.

(** ** The properties at work *)

#[local] Existing Instance demo_linker.

(** Without paging. *)
Definition bare (f : reg -> Z) (m : memory) : cpu := mk_cpu f (fun _ => 0) m 0 SMode.

Lemma bare_stable f m P : stable (bare f m) P.
Proof. intros m' perm va _. done. Qed.

Lemma bare_words f m perm b P tbl : (forall r o, (r, o) ∈ tbl -> 0 <= b + o < 2 ^ 64 /\ (b + o) mod 8 = 0 /\ pg (b + o) ∈ P) -> words (bare f m) perm b b P tbl.
Proof. intros Ht r o (H1 & H2 & H3)%Ht. done. Qed.

(** Register [a0] holds [x] and [a1] holds [y]; the others hold 7. *)
Definition demo_regs (x y : Z) : reg -> Z := <[A0 := x]> (<[A1 := y]> (fun _ => 7)).

Lemma demo_wide x y : 0 <= x < 2 ^ 64 -> 0 <= y < 2 ^ 64 -> wide (demo_regs x y).
Proof. intros Hx Hy []; unfold demo_regs; (done || lia). Qed.

Lemma context_words f m perm b : 0 <= b <= 1000000 -> b mod 4096 = 0 -> words (bare f m) perm b b {[b]} context.
Proof.
  intros Hb Ha. apply bare_words. intros r o Hro. assert (0 <= o <= 104 /\ o mod 8 = 0) as [? ?].
  { revert Hro. unfold context. rewrite !elem_of_cons, elem_of_nil. intros Hin. repeat (destruct Hin as [[= -> ->]|Hin]; [done|]). done. }
  split_and!; [plia|plia|plia|]. apply elem_of_singleton, pg_in; [done|plia].
Qed.

(** A thread at 0x1000 switches to one at 0x2000, which switches back. *)
Lemma swtch_resumes_witness : exists c1 c3, run 0 0 swtch (bare (demo_regs 0x1000 0x2000) ∅) = Some c1 /\
  run 0 0 swtch (bare (demo_regs 0x2000 0x1000) (cmem c1)) = Some c3 /\ regs c3 SP = 7.
Proof.
  destruct (swtch_resumes 0 0 {[0x1000]} {[0x2000]} (bare (demo_regs 0x1000 0x2000) ∅) 0x1000 0x2000 (bare_stable _ _ _) eq_refl (demo_wide 0x1000 0x2000 ltac:(done) ltac:(done)) eq_refl eq_refl
    (context_words _ _ _ 0x1000 ltac:(done) eq_refl) (context_words _ _ _ 0x2000 ltac:(done) eq_refl)) as (c1 & E & Hback). exists c1.
  destruct (Hback (bare (demo_regs 0x2000 0x1000) (cmem c1)) {[0x2000]}) as (c3 & E3 & _ & Hr).
  { apply bare_stable. }
  { reflexivity. }
  { apply (demo_wide 0x2000 0x1000); lia. }
  { apply (context_words _ _ _ 0x2000); [lia|reflexivity]. }
  { apply (context_words _ _ _ 0x1000); [lia|reflexivity]. }
  { reflexivity. }
  { right. change (regs (bare (demo_regs 0x2000 0x1000) (cmem c1)) A0) with 0x2000. lia. }
  { intros a _. reflexivity. }
  exists c3. split; [exact E|]. split; [exact E3|]. exact (Hr SP ltac:(tdone)).
Defined.

(** A process of the small machine, and another table as the kernel's. *)
Lemma demo_tables : exists m u k tf Tu Tk, user_table m u tf Tu /\ kernel_table m k tf Tk /\ ld64 m (tf + tf_kernel_satp) = MAKE_SATP k.
Proof.
  destruct demo_exists as (s & tf & root & T & F & tf2 & root2 & T2 & L & Hd). destruct (ds_apart _ _ _ _ _ _ _ _ _ Hd) as [Ha1 Ha2].
  pose proof (ds_tf2 _ _ _ _ _ _ _ _ _ Hd) as Htf. pose proof (kpage_aligned _ Htf) as Hal. pose proof (as_pt _ _ _ _ (ds_as _ _ _ _ _ _ _ _ _ Hd)) as Hpt.
  assert (kpage root) as Hroot by (eapply (pi_page _ _ _ Hpt), (pi_root _ _ _ Hpt)).
  assert (same_except {[tf2]} (mem s) (st64 (mem s) (tf2 + tf_kernel_satp) (MAKE_SATP root))) as Hm.
  { unfold tf_kernel_satp. rewrite Z.add_0_r. eapply same_except_mono; [|apply same_except_st64; unfold aligned in Hal; plia]. rewrite (pg_id tf2) by done. done. }
  exists (st64 (mem s) (tf2 + tf_kernel_satp) (MAKE_SATP root)), root2, root, tf2, T2, T. split_and!.
  - eapply user_table_frame; [|exact Hm]. split; [apply (as_pt _ _ _ _ (pm_as _ _ _ _ _ (ds_pm2 _ _ _ _ _ _ _ _ _ Hd)))|apply (ds_high2 _ _ _ _ _ _ _ _ _ Hd)|done|done].
  - eapply kernel_table_frame; [|exact Hm]. split; [done| |done]. rewrite (ds_high _ _ _ _ _ _ _ _ _ Hd) by plia. by rewrite decide_False by plia.
  - apply ld64_st64_eq. unfold MAKE_SATP. destruct (kpage_range _ Hroot). apply (lor_bound _ _ 64); [lia|done|]. rewrite Z.shiftr_div_pow2 by lia. change (2 ^ 12) with 4096. plia.
Qed.

(** The kernel is entered with the user's table, and leaves with the trapframe unchanged. *)
Lemma user_trap_transparent_witness : exists m u k c1 c3,
  let c := mk_cpu (demo_regs 3 4) (fun r => if decide (r = satp) then MAKE_SATP u else 0) m 0 SMode in
  run TRAMPOLINE trampoline uservec c = Some c1 /\
  run TRAMPOLINE trampoline userret (mk_cpu (demo_regs (MAKE_SATP u) 0) (fun r => if decide (r = satp) then MAKE_SATP k else 0) (cmem c1) 0 SMode) = Some c3 /\ regs c3 A1 = 4.
Proof.
  destruct demo_tables as (m & u & k & tf & Tu & Tk & Hu & Hk & Hs). exists m, u, k.
  set (c := mk_cpu (demo_regs 3 4) (fun r => if decide (r = satp) then MAKE_SATP u else 0) m 0 SMode).
  destruct (user_trap_transparent c u k tf Tu Tk eq_refl eq_refl (demo_wide 3 4 ltac:(done) ltac:(done)) Hu Hk Hs) as (c1 & E & _ & _ & _ & _ & _ & Hm & Hret).
  destruct (Hret (mk_cpu (demo_regs (MAKE_SATP u) 0) (fun r => if decide (r = satp) then MAKE_SATP k else 0) (cmem c1) 0 SMode) Tk Tu) as (c3 & E3 & _ & _ & _ & _ & Hr);
    [reflexivity|reflexivity|reflexivity|by eapply kernel_table_frame|by eapply user_table_frame|].
  exists c1, c3. cbv zeta. split; [exact E|]. split; [exact E3|]. exact (proj2 (Hr A1 120 ltac:(tdone)) eq_refl).
Defined.

(** A trap with the stack pointer at the end of a page; the handler moves to hart 1. *)
Lemma kernelvec_transparent_witness : exists c3, kernelvec 0 0 (fun c1 => Some (set_reg TP 1 c1)) (bare (<[SP := 0x2000]> (demo_regs 3 4)) ∅) = Some c3 /\ regs c3 A0 = 3 /\ regs c3 TP = 1.
Proof.
  assert (forall f m perm tbl, (forall r o, (r, o) ∈ tbl -> (r, o) ∈ kframe_saved) -> words (bare f m) perm 0x1f00 0x1f00 {[0x1000]} tbl) as Hw.
  { intros f m perm tbl Ht. apply bare_words. intros r o Hro%Ht. assert (0 <= o <= 240 /\ o mod 8 = 0) as [? ?].
    { revert Hro. unfold kframe_saved, kframe_rest. rewrite !elem_of_app, !elem_of_cons, elem_of_nil. intros Hin. repeat (destruct Hin as [Hin|Hin] || injection Hin as -> ->); first [done|lia]. }
    split_and!; [lia|lia|zdm|]. apply elem_of_singleton, pg_in; [done|plia]. }
  set (c := bare (<[SP := 0x2000]> (demo_regs 3 4)) ∅).
  assert (wide (regs c)) as Hwd by (intros []; done).
  destruct (kernelvec_transparent 0 0 {[0x1000]} 0x1f00 c (bare_stable _ _ _) eq_refl Hwd (Hw _ _ _ _ (fun _ _ H => H))) as (c1 & E & Hm & Ec & Hret).
  assert (exists m, c1 = bare (<[SP := 0x1f00]> (regs c)) m) as (m & ->) by (exists (cmem c1); exact Ec). set (f := <[SP := 0x1f00]> (regs c)) in *.
  destruct (Hret (set_reg TP 1 (bare f m))) as (c3 & E3 & Hr & Htp & _).
  { reflexivity. }
  { reflexivity. }
  { apply (Hw (<[TP := 1]> f) m). apply kframe_saved_in. }
  { intros a _. reflexivity. }
  exists c3. split; [by apply E3|]. split; [by rewrite Hr|]. rewrite Htp. reflexivity.
Defined.

Lemma timervec_transparent_witness : exists m c',
  run 0 0 timervec (mk_cpu (demo_regs 3 4) (fun r => if decide (r = mscratch) then 0x1000 else 0) m 0 MMode) = Some c' /\ regs c' A0 = 3 /\ ld64 (cmem c') (CLINT_MTIMECMP 0) = 1000500.
Proof.
  set (m := st64 (st64 (st64 ∅ (0x1000 + 24) (CLINT_MTIMECMP 0)) (0x1000 + 32) 1000000) (CLINT_MTIMECMP 0) 500). exists m.
  destruct (timervec_transparent (mk_cpu (demo_regs 3 4) (fun r => if decide (r = mscratch) then 0x1000 else 0) m 0 MMode) 0 0x1000 (CLINT_MTIMECMP 0)) as (c' & E & Hr & _ & _ & _ & Ht & _);
    [reflexivity|apply (demo_wide 3 4); lia|reflexivity|lia|lia|reflexivity|vm_compute; reflexivity|reflexivity|right; vm_compute; discriminate|].
  exists c'. split; [exact E|]. split; [exact (Hr A0)|]. rewrite Ht. vm_compute. reflexivity.
Defined.
