(* ===== verification/Proc.v ===== *)
(** * Processes (kernel/proc.c)

    The process table: allocation and release of entries, sleeping and waking,
    killing, and waiting for children.  The order of the locks is that of the
    code: [p->lock] sections are single steps, and what [wait_lock] or the
    caller's lock protects is a single step of the operation that holds it. *)

From S2P Require Import Prelude Riscv Mem Kstring Kalloc Vm VmProc Store Fs Kernel.

(** Addresses the kernel stores: [forkret], and the trap entry points of the assembly files. *)
Class Symbols := { forkret_addr : Z; usertrap_addr : Z; kernelvec_addr : Z; uservec_addr : Z; userret_addr : Z }.

Definition NPROCn : nat := Z.to_nat NPROC.

Section proc.
Context `{Linker} `{Symbols} {St : Type} {ST : Store St}.
Implicit Types (me i : nat).

Definition procinit : M (kst St) unit :=
  modify (fun s => set_procs (imap (fun i p => with_kstack (KSTACK i) (with_pstate UNUSED p)) (procs s)) s).

Definition allocpid : M (kst St) Z :=
  pid ← gets nextpid;
  modify (set_nextpid (to_int (pid + 1)));;
  mret pid.

Definition freeproc i : M (kst St) unit :=
  p ← get_proc i;
  (if negb (trapframe p =? 0) then on_mem_k (kfree (trapframe p)) else mret tt);;
  upd_proc i (with_trapframe 0);;
  (if negb (pagetable p =? 0) then on_mem_k (proc_freepagetable (pagetable p) (psz p)) else mret tt);;
  upd_proc i (fun p => with_pstate UNUSED (with_xstate 0 (with_killed false (with_chan None (with_pname []
    (with_parent None (with_ppid 0 (with_psz 0 (with_pagetable 0 p))))))))).

(** The scan for an [UNUSED] entry. *)
Fixpoint find_unused (k i : nat) (ps : list proc) : option nat :=
  match k with
  | O => None
  | S k => if decide (pstate (ps !!! i) = UNUSED) then Some i else find_unused k (S i) ps
  end.

Definition allocproc : M (kst St) (option nat) :=
  ps ← gets procs;
  match find_unused NPROCn 0 ps with
  | None => mret None
  | Some i =>
      pid ← allocpid;
      upd_proc i (fun p => with_pstate USED (with_ppid pid p));;
      tf ← on_mem_k kalloc;
      upd_proc i (with_trapframe tf);;
      if tf =? 0 then freeproc i;; mret None
      else
        pt ← on_mem_k (proc_pagetable tf);
        upd_proc i (with_pagetable pt);;
        if pt =? 0 then freeproc i;; mret None
        else
          upd_proc i (fun p => with_context (forkret_addr, u64 (kstack p + PGSIZE)) p);;
          mret (Some i)
  end.

(** The image of user/initcode.S. *)
Definition initcode : list Z :=
  [0x17; 0x05; 0x00; 0x00; 0x13; 0x05; 0x45; 0x02;
   0x97; 0x05; 0x00; 0x00; 0x93; 0x85; 0x35; 0x02;
   0x93; 0x08; 0x70; 0x00; 0x73; 0x00; 0x00; 0x00;
   0x93; 0x08; 0x20; 0x00; 0x73; 0x00; 0x00; 0x00;
   0xef; 0xf0; 0x9f; 0xff; 0x2f; 0x69; 0x6e; 0x69;
   0x74; 0x00; 0x00; 0x24; 0x00; 0x00; 0x00; 0x00;
   0x00; 0x00; 0x00; 0x00].

(** Without a process the code stores through a null pointer, a fault in the kernel. *)
Definition userinit : M (kst St) unit :=
  r ← allocproc;
  modify (set_initproc r);;
  match r with
  | None => panic "kerneltrap"
  | Some i =>
      p ← get_proc i;
      on_mem_k (uvmfirst (pagetable p) initcode);;
      upd_proc i (with_psz PGSIZE);;
      tf_store i tf_epc 0;;
      tf_store i tf_sp PGSIZE;;
      upd_proc i (with_pname [105; 110; 105; 116; 99; 111; 100; 101]);;
      d ← on_fs (namei 0 0 [SLASH]);
      upd_proc i (with_cwd d);;
      upd_proc i (with_pstate RUNNABLE)
  end.

Definition growproc me (n : Z) : M (kst St) Z :=
  p ← get_proc me;
  if 0 <? n then
    sz ← on_mem_k (uvmalloc (pagetable p) (psz p) (u64 (psz p + n)) PTE_W);
    if sz =? 0 then mret (-1) else upd_proc me (with_psz sz);; mret 0
  else if n <? 0 then
    sz ← on_mem_k (uvmdealloc (pagetable p) (psz p) (u64 (psz p + n)));
    upd_proc me (with_psz sz);; mret 0
  else upd_proc me (with_psz (psz p));; mret 0.

(** ** Sleep and wakeup *)

(** The part of [sleep] before [sched]: the process leaves the CPU. *)
Definition sleep me (ch : channel) : M (kst St) unit :=
  upd_proc me (fun p => with_pstate SLEEPING (with_chan (Some ch) p)).

(** The part after it. *)
Definition awake me : M (kst St) unit := upd_proc me (with_chan None).

Definition wakes (me : option nat) (ch : channel) (i : nat) (p : proc) : bool :=
  bool_decide (me <> Some i) && bool_decide (pstate p = SLEEPING) && bool_decide (pchan p = Some ch).

(** [me] is [None] when no process runs on this CPU. *)
Definition wakeup (me : option nat) (ch : channel) : M (kst St) unit :=
  modify (fun s => set_procs (imap (fun i p => if wakes me ch i p then with_pstate RUNNABLE p else p) (procs s)) s).

Fixpoint kill_loop (k i : nat) (pid : Z) : M (kst St) Z :=
  match k with
  | O => mret (-1)
  | S k =>
      p ← get_proc i;
      if ppid p =? pid then
        upd_proc i (with_killed true);;
        (if decide (pstate p = SLEEPING) then upd_proc i (with_pstate RUNNABLE) else mret tt);;
        mret 0
      else kill_loop k (S i) pid
  end.

Definition kill (pid : Z) : M (kst St) Z := kill_loop NPROCn 0 pid.

Definition setkilled i : M (kst St) unit := upd_proc i (with_killed true).
Definition killed i : M (kst St) bool := p ← get_proc i; mret (pkilled p).

(** ** Parents and children *)

(** Every child given away wakes init; [me] itself is running and is not woken. *)
Fixpoint reparent_loop (k i me : nat) : M (kst St) unit :=
  match k with
  | O => mret tt
  | S k =>
      p ← get_proc i;
      (if decide (parent p = Some me) then
         ip ← gets initproc;
         upd_proc i (with_parent ip);;
         match ip with Some j => wakeup (Some me) (ChProc j) | None => mret tt end
       else mret tt);;
      reparent_loop k (S i) me
  end.

Definition reparent me : M (kst St) unit := reparent_loop NPROCn 0 me.

(** One scan of [wait]'s table: whether there are children, or the result. *)
Fixpoint wait_scan (k i : nat) (me : nat) (addr : Z) (havekids : bool) : M (kst St) (bool + Z) :=
  match k with
  | O => mret (inl havekids)
  | S k =>
      pp ← get_proc i;
      if decide (parent pp = Some me) then
        if decide (pstate pp = ZOMBIE) then
          p ← get_proc me;
          r ← (if negb (addr =? 0) then on_mem_k (copyout (pagetable p) addr (le_bytes 4 (xstate pp))) else mret 0);
          if r <? 0 then mret (inr (-1))
          else freeproc i;; mret (inr (ppid pp))
        else wait_scan k (S i) me addr true
      else wait_scan k (S i) me addr havekids
  end.

(** [wait] until it returns ([Some]) or goes to sleep ([None]). *)
Definition wait_pass me (addr : Z) : M (kst St) (option Z) :=
  r ← wait_scan NPROCn 0 me addr false;
  match r with
  | inr v => mret (Some v)
  | inl havekids =>
      k ← killed me;
      if negb havekids || k then mret (Some (-1))
      else sleep me (ChProc me);; mret None
  end.
End proc.
