(* ===== verification/Switch.v ===== *)
(** * Switching (kernel/proc.c, [sched] and the lock exchange of [sleep])

    [sched] insists that the process holds exactly its own lock; [sleep]
    exchanges the caller's lock for it, in an order in which no wake-up can
    come in between. *)

From S2P Require Import Prelude Riscv Spinlock Kernel.

(** ** [sched] *)

(** The checks before [swtch]; [l] is [p->lock], [st] is [p->state]. *)
Definition sched_enter (c : nat) (l : Z) (st : procstate) : M smp unit :=
  h ← holding c l;
  if negb h then panic "sched p->lock"
  else
    n ← gets (fun s => noff (cpus s c));
    if negb (n =? 1) then panic "sched locks"
    else if decide (st = RUNNING) then panic "sched running"
    else
      i ← on_hart c intr_get;
      if (i : bool) then panic "sched interruptible" else mret tt.

(** [intena] belongs to the process: it is restored on the CPU [c'] on which
    it comes back, after whatever [others] did meanwhile. *)
Definition sched (c c' : nat) (l : Z) (st : procstate) (others : M smp unit) : M smp unit :=
  sched_enter c l st;;
  e ← gets (fun s => intena (cpus s c));
  others;;
  modify (fun s => set_cpu c' (mk_cpu (chart (cpus s c')) (noff (cpus s c')) e) s).

(** ** [sleep] *)

(** What [sleep] does before [sched]; [Asleep] stands for the assignments
    [p->chan = chan; p->state = SLEEPING]. *)
Inductive call := Acquire (l : Z) | Release (l : Z) | Asleep.

Definition sleep_calls (pl lk : Z) : list call := [Acquire pl; Release lk; Asleep].

(** A CPU that runs alone. *)
Fixpoint run_calls (fuel c : nat) (l : list call) : M smp unit :=
  match l with
  | [] => mret tt
  | Acquire x :: l => acquire fuel c x;; run_calls fuel c l
  | Release x :: l => release c x;; run_calls fuel c l
  | Asleep :: l => run_calls fuel c l
  end.

(** [sleep] from its start to the switch. *)
Definition sleep_enter (fuel c : nat) (pl lk : Z) : M smp unit :=
  run_calls fuel c (sleep_calls pl lk);; sched_enter c pl SLEEPING.

(** CPU [c] has [todo] left of [sleep], while the other CPUs run as well:
    [asleep] tells whether [p->state] is [SLEEPING]. *)
Record zsys := mk_zsys { zl : lsys; todo : list call; asleep : bool }.

(** What is left to do when CPU [c] moves from [pc] to [pc'] inside the
    first call, if that move belongs to it. *)
Definition advance (l : list call) (pc pc' : lpc) : option (list call) :=
  match l, pc, pc' with
  | Acquire x :: _, Run, Spin y => if x =? y then Some l else None
  | Acquire x :: _, Spin _, Won y => if x =? y then Some l else None
  | Acquire x :: l, Won _, Run => Some l
  | Release x :: _, Run, Unlocking y => if x =? y then Some l else None
  | Release x :: _, Unlocking _, Unlocked y => if x =? y then Some l else None
  | Release x :: l, Unlocked _, Run => Some l
  | _, _, _ => None
  end.

(** One atomic action of [sleep] on CPU [c], or one that leaves [c] as it
    was: another CPU's, or a failed swap of [c]. *)
Inductive zstep (c : nat) : zsys -> zsys -> Prop :=
| z_lock s s' l l' a : lstep s s' -> advance l (pcs s c) (pcs s' c) = Some l' -> zstep c (mk_zsys s l a) (mk_zsys s' l' a)
| z_asleep s l a : pcs s c = Run -> zstep c (mk_zsys s (Asleep :: l) a) (mk_zsys s l true)
| z_other s s' l a : lstep s s' -> pcs s' c = pcs s c -> held s' c = held s c -> bare s' c = bare s c ->
    cpus (sm s') c = cpus (sm s) c -> zstep c (mk_zsys s l a) (mk_zsys s' l a).

(** ** Running alone *)

Definition held_by (c : nat) (l : Z) (m : smp) : Prop := locks m l = mk_spinlock 1 (Some c).
Definition unheld (l : Z) (m : smp) : Prop := locks m l = mk_spinlock 0 None.

Lemma acquire_free c l m :
  unheld l m -> wp (acquire 1 c l m) (fun _ m' => held_by c l m' /\ (forall l', l' <> l -> locks m' l' = locks m l') /\
    (forall c', c' <> c -> cpus m' c' = cpus m c') /\ noff (cpus m' c) = noff (cpus m c) + 1 /\ interruptible m' c = false /\
    (noff (cpus m c) <> 0 -> intena (cpus m' c) = intena (cpus m c))).
Proof.
  intros Hl. unfold acquire, acquire_enter. apply wp_bind, wp_bind. eapply wp_mono; [apply push_off_spec|].
  intros [] m1 ([El Ec] & Hn & Hi & He & _). apply wp_gets. unfold unheld in Hl. rewrite El, Hl. cbn [locked Z.eqb negb andb]. apply wp_ret.
  apply wp_bind. unfold acquire_spin, test_and_set. apply wp_bind, wp_gets, wp_modify, wp_ret. rewrite El, Hl. cbn [locked Z.eqb negb].
  apply wp_ret. apply wp_ret. unfold held_by, interruptible in *. cbn [set_lock locks cpus]. rewrite !fn_lookup_insert. cbn [locked].
  split; [done|]. split; [intros l' Hne; by rewrite !fn_lookup_insert_ne, El|]. split; [done|]. split; [done|]. split; [done|].
  intros H0. rewrite He. by rewrite (proj2 (Z.eqb_neq _ _)).
Qed.

Lemma release_held c l m :
  held_by c l m -> 1 < noff (cpus m c) -> interruptible m c = false ->
  wp (release c l m) (fun _ m' => unheld l m' /\ (forall l', l' <> l -> locks m' l' = locks m l') /\
    (forall c', c' <> c -> cpus m' c' = cpus m c') /\ noff (cpus m' c) = noff (cpus m c) - 1 /\ interruptible m' c = false /\
    intena (cpus m' c) = intena (cpus m c)).
Proof.
  intros Hl Hn Hi. unfold release, release_enter. apply wp_bind, wp_gets. unfold held_by in Hl. rewrite Hl. cbn [locked lcpu Z.eqb negb andb].
  rewrite bool_decide_eq_true_2 by done. cbn [negb]. apply wp_ret. apply wp_modify. cbn [set_lock locks]. rewrite !fn_lookup_insert.
  cbn [locked lcpu]. set (m1 := set_lock l (mk_spinlock 0 None) _). eapply wp_mono; [apply pop_off_spec; [done|cbn; lia]|].
  intros [] m2 ([El Ec] & Hn2 & He & Hs & _). unfold unheld. rewrite El. cbn [m1 set_lock locks cpus] in *. rewrite fn_lookup_insert.
  split; [done|]. split; [intros l' Hne; by rewrite !fn_lookup_insert_ne|]. split; [done|]. split; [done|]. split; [|done].
  unfold interruptible in *. rewrite Hs. rewrite (proj2 (Z.eqb_neq _ 1)) by lia. done.
Qed.

(** Nothing but the control registers, which keep their values. *)
Lemma sched_enter_ok c l st m :
  held_by c l m -> noff (cpus m c) = 1 -> st <> RUNNING -> interruptible m c = false ->
  wp (sched_enter c l st m) (fun _ m' => locks m' = locks m /\ forall c', cpus m' c' = cpus m c').
Proof.
  intros Hl Hn Hst Hi. unfold sched_enter, holding, held_by in *. msimpl. rewrite Hl. cbn [locked lcpu Z.eqb negb andb].
  rewrite bool_decide_eq_true_2 by done. cbn [negb]. msimpl. rewrite Hn. cbn [Z.eqb Pos.eqb negb]. rewrite decide_False by done.
  unfold on_hart, intr_get, r_sstatus, csrr. msimpl. unfold interruptible in Hi. rewrite Hi. split; [done|]. intros c'. simpl.
  destruct (decide (c' = c)) as [->|]; [rewrite fn_lookup_insert; by destruct (cpus m c)|by rewrite fn_lookup_insert_ne].
Qed.

(** Called with the caller's lock [lk] and nothing else, [sleep] reaches the
    switch holding [p->lock] alone; with a second lock held, it panics. *)
Lemma sleep_enter_alone c pl lk m :
  pl <> lk -> held_by c lk m -> unheld pl m -> interruptible m c = false -> 1 <= noff (cpus m c) ->
  (noff (cpus m c) = 1 -> wp (sleep_enter 1 c pl lk m) (fun _ m' => held_by c pl m' /\ unheld lk m' /\
    (forall l, l <> pl -> l <> lk -> locks m' l = locks m l) /\ noff (cpus m' c) = 1 /\
    intena (cpus m' c) = intena (cpus m c) /\ interruptible m' c = false /\ forall c', c' <> c -> cpus m' c' = cpus m c')) /\
  (1 < noff (cpus m c) -> sleep_enter 1 c pl lk m = Panic "sched locks").
Proof.
  intros Hne Hlk Hpl Hi Hn.
  assert (wp (run_calls 1 c (sleep_calls pl lk) m) (fun _ m' => held_by c pl m' /\ unheld lk m' /\
    (forall l, l <> pl -> l <> lk -> locks m' l = locks m l) /\ noff (cpus m' c) = noff (cpus m c) /\
    intena (cpus m' c) = intena (cpus m c) /\ interruptible m' c = false /\ forall c', c' <> c -> cpus m' c' = cpus m c')) as Hw.
  { cbn [run_calls sleep_calls]. apply wp_bind. eapply wp_mono; [by apply acquire_free|]. intros [] m1 (H1 & H2 & H3 & H4 & H5 & H6).
    apply wp_bind. eapply wp_mono; [apply release_held; [unfold held_by in *; by rewrite H2|lia|done]|].
    intros [] m2 (K1 & K2 & K3 & K4 & K5 & K6). apply wp_ret. split_and!; [unfold held_by in *; by rewrite K2|done| |lia|rewrite K6; apply H6; lia|done|].
    - intros l' N1 N2. by rewrite K2, H2.
    - intros c' Hc. by rewrite K3, H3. }
  unfold sleep_enter. destruct (wp_inv _ _ Hw) as ([] & m' & E & (H1 & H2 & H3 & H4 & H5 & H6 & H7)).
  rewrite (bind_ret_eq _ _ _ _ _ E). split; intros Hn'.
  - eapply wp_mono; [apply sched_enter_ok; [done|lia|done|done]|]. intros [] m2 [L2 C2]. unfold held_by, unheld, interruptible in *.
    rewrite L2, C2. split_and!; try done; [lia|]. intros c' Hc'. rewrite C2. auto.
  - unfold sched_enter, holding, held_by in *. msimpl. rewrite H1. cbn [locked lcpu Z.eqb negb andb]. rewrite bool_decide_eq_true_2 by done.
    cbn [negb]. msimpl. rewrite (proj2 (Z.eqb_neq _ 1)) by lia. done.
Qed.

(** ** Among other CPUs *)

(** What CPU [c] holds, by where it is before and after a step that moves it. *)
Lemma lstep_moves s s' c :
  lstep s s' -> pcs s' c <> pcs s c -> bare s' c = bare s c /\
  match pcs s c, pcs s' c with
  | Run, Unlocking l => held s c ≡ₚ l :: held s' c
  | Won l, Run => held s' c = l :: held s c
  | _, _ => held s' c = held s c
  end.
Proof.
  intros Hs Hne. destruct Hs as [s d l m Hpc E|s d l old m Hpc E|s d l m Hpc E|s d l m h1 h2 Hpc Hh E|s d l m Hpc E|s d l m Hpc E|s d m Hpc E|s d n m Hpc Hb E|s d m on Hpc Hn E];
    cbn [pcs held bare] in *; try done; (destruct (decide (c = d)) as [->|]; [|by rewrite fn_lookup_insert_ne in Hne]);
    rewrite ?fn_lookup_insert, Hpc in *; (split; [done|]); try done.
  rewrite Hh. symmetry. apply Permutation_middle.
Qed.

Lemma advance_moves l pc pc' l' : advance l pc pc' = Some l' -> pc' <> pc.
Proof. intros E ->. destruct l as [|[] l], pc; done. Qed.

Section exchange.
Context (c : nat) (pl lk : Z) (h : list Z) (n : nat).

(** Where CPU [c] is in [sleep], and what it holds there besides [h]. *)
Inductive zpos : list call -> bool -> lpc -> list Z -> Prop :=
| zp_take pc hd : pc = Run \/ pc = Spin pl \/ pc = Won pl -> hd ≡ₚ lk :: h -> zpos [Acquire pl; Release lk; Asleep] false pc hd
| zp_both hd : hd ≡ₚ pl :: lk :: h -> zpos [Release lk; Asleep] false Run hd
| zp_give pc hd : pc = Unlocking lk \/ pc = Unlocked lk -> hd ≡ₚ pl :: h -> zpos [Release lk; Asleep] false pc hd
| zp_given hd : hd ≡ₚ pl :: h -> zpos [Asleep] false Run hd
| zp_asleep hd : hd ≡ₚ pl :: h -> zpos [] true Run hd.

Definition zinv (z : zsys) : Prop := linv (zl z) /\ bare (zl z) c = n /\ zpos (todo z) (asleep z) (pcs (zl z) c) (held (zl z) c).

Lemma zpos_lock l a pc pc' hd hd' l' :
  zpos l a pc hd -> advance l pc pc' = Some l' ->
  match pc, pc' with Run, Unlocking x => hd ≡ₚ x :: hd' | Won x, Run => hd' = x :: hd | _, _ => hd' = hd end -> zpos l' a pc' hd'.
Proof.
  intros Hz E Hh. destruct Hz as [pc hd [-> | [-> | ->]] Hd|hd Hd|pc hd [-> | ->] Hd|hd Hd|hd Hd]; destruct pc' as [|y|y|y|y]; try discriminate E; cbn [advance] in E.
  - destruct (Z.eqb_spec pl y) as [<-|]; simplify_eq. apply zp_take; auto.
  - destruct (Z.eqb_spec pl y) as [<-|]; simplify_eq. apply zp_take; auto.
  - injection E as <-. subst hd'. apply zp_both. by rewrite Hd.
  - destruct (Z.eqb_spec lk y) as [<-|]; simplify_eq. apply zp_give; [by left|]. rewrite Hd, (Permutation_swap lk pl) in Hh. symmetry; by apply Permutation_cons_inv in Hh.
  - destruct (Z.eqb_spec lk y) as [<-|]; simplify_eq. apply zp_give; auto.
  - injection E as <-. subst hd'. by apply zp_given.
Qed.

Lemma zstep_inv z z' : zstep c z z' -> zinv z -> zinv z'.
Proof.
  intros Hs (Hi & Hb & Hz). destruct Hs as [s s' l l' a Hs Ha|s l a Hr|s s' l a Hs Ep Eh Eb _]; cbn [zl todo asleep] in *.
  - destruct (lstep_moves s s' c Hs (advance_moves _ _ _ _ Ha)) as [Eb Hm]. split; [by eapply lstep_inv|]. split; [cbn; congruence|]. by eapply zpos_lock.
  - split; [done|]. split; [done|]. cbn. rewrite Hr in *. inversion Hz; subst; try done. by apply zp_asleep.
  - split; [by eapply lstep_inv|]. split; [cbn; congruence|]. cbn. by rewrite Ep, Eh.
Qed.

(** Until the process is asleep, its CPU has one of the two locks. *)
Lemma zpos_owns s l : zpos l false (pcs s c) (held s c) -> owns s c lk \/ owns s c pl.
Proof.
  intros Hz. unfold owns. remember (pcs s c) as pc. remember (held s c) as hd. remember false as a.
  destruct Hz as [pc hd _ Hd|hd Hd|pc hd _ Hd|hd Hd|hd Hd]; try discriminate; rewrite Hd; set_solver.
Qed.

Lemma linv_held s l : linv s -> l ∈ held s c -> held_by c l (sm s).
Proof.
  intros Hi Hl. unfold held_by. pose proof (proj2 (li_cpu _ Hi c l) Hl) as Ec. destruct (li_locked _ Hi l) as [[_ Hno]|[El _]]; [destruct (Hno c); by left|].
  destruct (locks (sm s) l). cbn in *. by subst.
Qed.

Lemma zpos_done a pc hd : zpos [] a pc hd -> a = true /\ pc = Run /\ hd ≡ₚ pl :: h.
Proof. by inversion 1. Qed.

(** At the switch, the number of locks held decides. *)
Lemma zinv_switch s : zinv (mk_zsys s [] true) ->
  (h = [] /\ n = 0%nat -> wp (sched_enter c pl SLEEPING (sm s)) (fun _ m => locks m = locks (sm s))) /\
  (h <> [] \/ n <> 0%nat -> sched_enter c pl SLEEPING (sm s) = Panic "sched locks").
Proof.
  intros (Hi & Hb & Hz). cbn [zl todo asleep] in *. apply zpos_done in Hz as (_ & Er & Hd).
  pose proof (linv_held s pl Hi ltac:(rewrite Hd; set_solver)) as Hl. pose proof (li_noff _ Hi c) as Hn.
  rewrite Er, Hd in Hn. cbn [length in_call] in Hn. split.
  - intros [-> E0]. eapply wp_mono; [apply sched_enter_ok; [done|cbn in Hn; lia|done|apply Hi; lia]|]. by intros [] m [? _].
  - intros Hne. unfold sched_enter, holding, held_by in *. msimpl. rewrite Hl. cbn [locked lcpu Z.eqb negb andb]. rewrite bool_decide_eq_true_2 by done.
    cbn [negb]. msimpl. rewrite (proj2 (Z.eqb_neq _ 1)); [done|]. destruct Hne as [Hne|Hne]; [destruct h; [done|cbn in Hn; lia]|lia].
Qed.
End exchange.

(** With [p->lock] free and the other CPUs still, [sleep] runs to the switch. *)
Lemma sleep_runs s c pl lk h :
  linv s -> pcs s c = Run -> held s c = lk :: h -> pl <> lk -> unheld pl (sm s) ->
  exists s', rtc (zstep c) (mk_zsys s (sleep_calls pl lk) false) (mk_zsys s' [] true).
Proof.
  intros Hi Hpc Hh Hne Hu. unfold unheld in Hu.
  destruct (wp_inv _ _ (push_off_spec c (sm s))) as ([] & m1 & E1 & [El1 _] & Hn1 & Hi1 & _).
  assert (acquire_enter c pl (sm s) = Ret tt m1) as E1' by (unfold acquire_enter; rewrite (bind_ret_eq _ _ _ _ _ E1); unfold holding; msimpl; by rewrite El1, Hu).
  pose proof (ls_acquire s c pl m1 Hpc E1') as S1. set (s1 := mk_lsys m1 _ _ _) in S1.
  assert (pcs s1 c = Spin pl) as P1 by (cbn; by rewrite fn_lookup_insert).
  assert (test_and_set pl (sm s1) = Ret 0 (set_lock pl (mk_spinlock 1 None) m1)) as E2 by (unfold test_and_set; msimpl; cbn [sm s1]; by rewrite El1, Hu).
  pose proof (ls_spin s1 c pl 0 _ P1 E2) as S2.
  set (s2 := mk_lsys _ _ _ _) in S2. assert (pcs s2 c = Won pl) as P2 by (cbn; by rewrite fn_lookup_insert).
  pose proof (ls_record s2 c pl _ P2 eq_refl) as S3. set (s3 := mk_lsys _ _ _ _) in S3. assert (pcs s3 c = Run) as P3 by (cbn; by rewrite fn_lookup_insert).
  assert (linv s3) as I3 by (do 3 (eapply lstep_inv; [done|]); done).
  assert (held s3 c = [pl] ++ lk :: h) as H3 by (unfold s3; cbn; by rewrite fn_lookup_insert, Hh).
  pose proof (linv_held c s3 lk I3 ltac:(rewrite H3; set_solver)) as L3. unfold held_by in L3.
  assert (release_enter c lk (sm s3) = Ret tt (set_lock lk (mk_spinlock 1 None) (sm s3))) as E4.
  { unfold release_enter, holding. msimpl. rewrite L3. cbn [locked lcpu Z.eqb negb andb]. rewrite bool_decide_eq_true_2 by done. cbn [negb]. msimpl. by rewrite L3. }
  pose proof (ls_release s3 c lk _ [pl] h P3 H3 E4) as S4. set (s4 := mk_lsys _ _ _ _) in S4. assert (pcs s4 c = Unlocking lk) as P4 by (cbn; by rewrite fn_lookup_insert).
  pose proof (ls_unlock s4 c lk _ P4 eq_refl) as S5. set (s5 := mk_lsys _ _ _ _) in S5. assert (pcs s5 c = Unlocked lk) as P5 by (cbn; by rewrite fn_lookup_insert).
  assert (linv s5) as I5 by (do 2 (eapply lstep_inv; [done|]); done).
  assert (1 <= noff (cpus (sm s5) c)) as N5 by (rewrite (li_noff _ I5), P5; cbn; lia).
  destruct (wp_inv _ _ (pop_off_spec c (sm s5) ltac:(apply I5; lia) N5)) as ([] & m6 & E6 & _).
  pose proof (ls_done s5 c lk m6 P5 E6) as S6. set (s6 := mk_lsys m6 _ _ _) in S6. assert (pcs s6 c = Run) as P6 by (cbn; by rewrite fn_lookup_insert).
  exists s6. unfold sleep_calls.
  assert (forall l, (l =? l) = true) as Heq by apply Z.eqb_refl.
  eapply rtc_l; [apply z_lock; [exact S1|rewrite Hpc, P1; cbn; by rewrite Heq]|]. eapply rtc_l; [apply z_lock; [exact S2|rewrite P1, P2; cbn; by rewrite Heq]|].
  eapply rtc_l; [apply z_lock; [exact S3|rewrite P2, P3; done]|]. eapply rtc_l; [apply z_lock; [exact S4|rewrite P3, P4; cbn; by rewrite Heq]|].
  eapply rtc_l; [apply z_lock; [exact S5|rewrite P4, P5; cbn; by rewrite Heq]|]. eapply rtc_l; [apply z_lock; [exact S6|rewrite P5, P6; done]|].
  by apply rtc_once, z_asleep.
Qed.

(** C33: the lock exchange of [sleep], called on CPU [c] with [lk] held while other
    CPUs take and release locks.  From the call until the process is [SLEEPING], [c]
    has [lk] or [p->lock], so no other CPU has both at once, as one that
    wakes sleepers up with [lk] held has when it looks at the process.  At the switch [c] holds [p->lock] in place of [lk]; all checks of
    [sched] pass if it holds nothing else, and it panics otherwise.  With
    [p->lock] free, nothing but [lk] held and the other CPUs still, it gets there. *)
Theorem sleep_exchanges_locks s0 s c pl lk h z :
  linit s0 -> rtc lstep s0 s -> pcs s c = Run -> held s c ≡ₚ lk :: h -> pl <> lk ->
  rtc (zstep c) (mk_zsys s (sleep_calls pl lk) false) z ->
  (asleep z = false -> (owns (zl z) c lk \/ owns (zl z) c pl) /\ forall c', c' <> c -> ~ (owns (zl z) c' lk /\ owns (zl z) c' pl)) /\
  (todo z = [] -> asleep z = true /\ held (zl z) c ≡ₚ pl :: h /\
    (h = [] /\ bare s c = 0%nat -> wp (sched_enter c pl SLEEPING (sm (zl z))) (fun _ m => locks m = locks (sm (zl z)))) /\
    (h <> [] \/ bare s c <> 0%nat -> sched_enter c pl SLEEPING (sm (zl z)) = Panic "sched locks")) /\
  (unheld pl (sm s) -> h = [] /\ bare s c = 0%nat -> wp (sleep_enter 1 c pl lk (sm s)) (fun _ m => held_by c pl m /\ unheld lk m)).
Proof.
  intros H0 Hr Hpc Hh Hne Hz. assert (linv s) as Hi.
  { apply linit_inv in H0. clear - H0 Hr. induction Hr; [done|]. apply IHHr. by eapply lstep_inv. }
  assert (zinv c pl lk h (bare s c) z) as Hv.
  { assert (zinv c pl lk h (bare s c) (mk_zsys s (sleep_calls pl lk) false)) as Hv by (split; [done|]; split; [done|]; cbn; apply zp_take; auto).
    clear - Hv Hz. remember (mk_zsys _ _ _) as y. clear Heqy. induction Hz; [done|]. apply IHHz. by eapply zstep_inv. }
  split_and!.
  - intros Ea. destruct Hv as (Hj & _ & Hv). rewrite Ea in Hv. pose proof (zpos_owns _ _ _ _ _ _ Hv) as Ho. split; [done|].
    intros c' Hc [H1 H2]. apply Hc. destruct Ho as [Ho|Ho]; [exact (li_uniq _ Hj _ _ _ H1 Ho)|exact (li_uniq _ Hj _ _ _ H2 Ho)].
  - intros Et. destruct z as [l t a]. cbn [todo asleep zl] in *. subst t. pose proof Hv as (_ & _ & Hp). cbn in Hp.
    apply zpos_done in Hp as (-> & _ & Hd). split; [done|]. split; [done|]. by apply (zinv_switch c pl lk).
  - intros Hu [-> Hb]. pose proof (li_noff _ Hi c) as Hn. rewrite Hh, Hb, Hpc in Hn. cbn in Hn.
    destruct (sleep_enter_alone c pl lk (sm s)) as [Hs _]; [done|apply linv_held; [done|rewrite Hh; set_solver]|done|apply Hi; lia|lia|].
    eapply wp_mono; [by apply Hs|]. intros [] m (H1 & H2 & _). done.
Qed.

(** ** At work *)

(** CPU 0 takes lock 7 and sleeps with it; lock 8 is its process's. *)
Lemma sleep_exchanges_locks_witness : exists s z, rtc lstep demo_lsys s /\ rtc (zstep 0) (mk_zsys s (sleep_calls 8 7) false) z /\
  asleep z = true /\ held (zl z) 0%nat ≡ₚ [8] /\ exists m, sched_enter 0 8 SLEEPING (sm (zl z)) = Ret tt m.
Proof.
  assert (linit demo_lsys) as H0 by (split; intros; done).
  eassert (rtc lstep demo_lsys _) as Hr.
  { eapply rtc_l; [apply (ls_acquire demo_lsys 0 7); reflexivity|].
    eapply rtc_l; [eapply (ls_spin _ 0 7); reflexivity|].
    eapply rtc_l; [eapply (ls_record _ 0 7); reflexivity|]. apply rtc_refl. }
  match type of Hr with rtc _ _ ?s0 => set (s := s0) in * end.
  assert (linv s) as Hi by (clear -H0 Hr; apply linit_inv in H0; induction Hr; [done|]; apply IHHr; by eapply lstep_inv).
  destruct (sleep_runs s 0 8 7 [] Hi ltac:(reflexivity) ltac:(reflexivity) ltac:(lia) ltac:(reflexivity)) as [s' Hz]. set (z := mk_zsys s' [] true) in *.
  destruct (sleep_exchanges_locks demo_lsys s 0 8 7 [] z H0 Hr ltac:(reflexivity) ltac:(reflexivity) ltac:(lia) Hz) as (_ & Ha & _).
  destruct (Ha ltac:(reflexivity)) as (E1 & E2 & E3 & _). exists s, z. split; [exact Hr|]. split; [exact Hz|]. split; [exact E1|]. split; [exact E2|].
  destruct (wp_inv _ _ (E3 ltac:(split; reflexivity))) as ([] & m & E & _). by exists m.
Defined.
