(* ===== verification/Pipe.v ===== *)
(** * Pipes (kernel/pipe.c)

    The ring buffer of a pipe and its two ends.  A reader or writer holds
    [pi->lock] from its start to its end, except while it sleeps; an iteration
    of its loop is a definition of its own, because [killed(pr)] looks at a
    field the pipe's lock does not protect. *)

From S2P Require Import Prelude Riscv Mem Kstring Kalloc Vm VmProc Store Fs Kernel Proc.

Section pipe.
Context `{Linker} `{Symbols} {St : Type} {ST : Store St}.
Implicit Types (me : nat) (pi : Z).

Definition pipeclose me pi (writable : bool) : M (kst St) unit :=
  p ← get_pipe pi;
  (if writable then
     set_pipe pi (mk_pipe (pdata p) (nread p) (nwrite p) (readopen p) false);;
     wakeup (Some me) (ChNread pi)
   else
     set_pipe pi (mk_pipe (pdata p) (nread p) (nwrite p) false (writeopen p));;
     wakeup (Some me) (ChNwrite pi));;
  p ← get_pipe pi;
  if negb (readopen p) && negb (writeopen p) then
    modify (fun s => set_pipes (delete pi (pipes s)) s);;
    on_mem_k (kfree pi)
  else mret tt.

(** ** Writing *)

(** How an iteration of [pipewrite]'s loop ends: the next one, asleep, out of the loop, or [return -1]. *)
Inductive witer := WNext | WSleep | WBreak | WFail.

(** [ch] goes into the buffer. *)
Definition put (ch : Z) (p : pipe) : pipe :=
  mk_pipe (<[Z.to_nat (nwrite p mod PIPESIZE) := ch]> (pdata p)) (nread p) (u32 (nwrite p + 1)) (readopen p) (writeopen p).

Definition pipewrite_iter me pi (addr : Z) (i : Z) : M (kst St) witer :=
  p ← get_pipe pi;
  k ← killed me;
  if negb (readopen p) || k then mret WFail
  else if nwrite p =? u32 (nread p + PIPESIZE) then
    wakeup (Some me) (ChNread pi);;
    sleep me (ChNwrite pi);;
    mret WSleep
  else
    pr ← get_proc me;
    '(r, ch) ← on_mem_k (copyin (pagetable pr) (u64 (addr + i)) 1);
    if r =? -1 then mret WBreak
    else set_pipe pi (put (ch !!! 0%nat) p);; mret WNext.

(** From index [i] until it returns ([inr]) or sleeps ([inl], with the index it
    will go on at).  Every iteration that goes on advances [i]. *)
Fixpoint pipewrite_from (fuel : nat) me pi (addr n i : Z) : M (kst St) (Z + Z) :=
  match fuel with
  | O => diverge
  | S fuel =>
      if i <? n then
        w ← pipewrite_iter me pi addr i;
        match w with
        | WNext => pipewrite_from fuel me pi addr n (i + 1)
        | WSleep => mret (inl i)
        | WFail => mret (inr (-1))
        | WBreak => wakeup (Some me) (ChNread pi);; mret (inr i)
        end
      else wakeup (Some me) (ChNread pi);; mret (inr i)
  end.

Definition pipewrite_fuel (n i : Z) : nat := S (Z.to_nat (n - i)).

(** Without sleeping; a call that has to sleep is [diverge]. *)
Definition pipewrite me pi (addr n : Z) : M (kst St) Z :=
  r ← pipewrite_from (pipewrite_fuel n 0) me pi addr n 0;
  match r with inr r => mret r | inl _ => diverge end.

(** ** Reading *)

(** The first loop of [piperead]: ready to read, asleep, or [return -1]. *)
Inductive rwait := RReady | RSleep | RFail.

Definition piperead_wait me pi : M (kst St) rwait :=
  p ← get_pipe pi;
  if (nread p =? nwrite p) && writeopen p then
    k ← killed me;
    if k : bool then mret RFail
    else sleep me (ChNread pi);; mret RSleep
  else mret RReady.

Definition take_front (p : pipe) : pipe := mk_pipe (pdata p) (u32 (nread p + 1)) (nwrite p) (readopen p) (writeopen p).

(** An iteration of the second loop: whether it goes on. *)
Definition piperead_iter me pi (addr i : Z) : M (kst St) bool :=
  p ← get_pipe pi;
  if nread p =? nwrite p then mret false
  else
    let ch := pdata p !!! Z.to_nat (nread p mod PIPESIZE) in
    set_pipe pi (take_front p);;
    pr ← get_proc me;
    r ← on_mem_k (copyout (pagetable pr) (u64 (addr + i)) [ch]);
    mret (negb (r =? -1)).

Fixpoint piperead_loop (fuel : nat) me pi (addr n i : Z) : M (kst St) Z :=
  match fuel with
  | O => diverge
  | S fuel =>
      if i <? n then
        more ← piperead_iter me pi addr i;
        if (more : bool) then piperead_loop fuel me pi addr n (i + 1) else mret i
      else mret i
  end.

(** Until it returns ([Some]) or sleeps. *)
Definition piperead_from me pi (addr n : Z) : M (kst St) (option Z) :=
  w ← piperead_wait me pi;
  match w with
  | RFail => mret (Some (-1))
  | RSleep => mret None
  | RReady =>
      i ← piperead_loop (S (Z.to_nat n)) me pi addr n 0;
      wakeup (Some me) (ChNwrite pi);;
      mret (Some i)
  end.

Definition piperead me pi (addr n : Z) : M (kst St) Z :=
  r ← piperead_from me pi addr n;
  match r with Some r => mret r | None => diverge end.
End pipe.
