(* ===== verification/PipeThms.v ===== *)
(** * Pipes are bounded queues, and wake-ups are not lost (kernel/pipe.c)

    Any number of processes read, write and close a pipe.  Between taking and
    releasing [pi->lock] only its holder touches the pipe, but another CPU can
    kill a process at any time. *)

From S2P Require Import Prelude Riscv Mem Kstring Kalloc Vm VmPt VmWalk VmCopy VmProc Store Fs Kernel Proc Pipe VmThms.

(** ** The buffer *)

Definition pcount (p : pipe) : Z := u32 (nwrite p - nread p).

Record pipe_ok (p : pipe) : Prop := {
  po_data : length (pdata p) = 512%nat;
  po_r : 0 <= nread p < 2 ^ 32;
  po_w : 0 <= nwrite p < 2 ^ 32;
  po_count : pcount p <= PIPESIZE;
}.

(** The bytes written and not yet read, oldest first. *)
Definition contents (p : pipe) : list Z :=
  (fun j : nat => pdata p !!! Z.to_nat ((nread p + j) mod PIPESIZE)) <$> seq 0 (Z.to_nat (pcount p)).

Definition empty (p : pipe) : bool := nread p =? nwrite p.
Definition full (p : pipe) : bool := nwrite p =? u32 (nread p + PIPESIZE).

Section buffer.
Context (p : pipe) (Hp : pipe_ok p).

Lemma pcount_cases : pcount p = nwrite p - nread p \/ pcount p = nwrite p - nread p + 2 ^ 32.
Proof.
  destruct Hp as [_ Hr Hw _]. unfold pcount, wrap. destruct (Z.le_gt_cases (nread p) (nwrite p)); [left; apply Z.mod_small; lia|right].
  symmetry. apply (Z.mod_unique_pos _ _ (-1)); lia.
Qed.

Lemma length_contents : Z.of_nat (length (contents p)) = pcount p.
Proof. unfold contents. rewrite length_fmap, length_seq. destruct (wrap_range 32 (nwrite p - nread p)); [lia|]. unfold pcount in *. lia. Qed.

Lemma empty_contents : empty p = true <-> contents p = [].
Proof.
  rewrite <- length_zero_iff_nil. pose proof length_contents. pose proof pcount_cases. destruct Hp as [_ Hr Hw Hc].
  unfold empty, PIPESIZE in *. rewrite Z.eqb_eq. lia.
Qed.

Lemma full_contents : full p = true <-> length (contents p) = 512%nat.
Proof.
  pose proof length_contents. pose proof pcount_cases. destruct Hp as [_ Hr Hw Hc]. unfold full, PIPESIZE in *. rewrite Z.eqb_eq.
  unfold wrap. destruct (Z.lt_ge_cases (nread p + 512) (2 ^ 32)); [rewrite Z.mod_small by lia; lia|].
  rewrite <- (Z.mod_unique_pos (nread p + 512) (2 ^ 32) 1 (nread p + 512 - 2 ^ 32)) by lia. lia.
Qed.

Lemma lookup_contents j : (j < Z.to_nat (pcount p))%nat ->
  contents p !! j = Some (pdata p !!! Z.to_nat ((nread p + j) mod PIPESIZE)).
Proof. intros Hj. unfold contents. by rewrite list_lookup_fmap, lookup_seq_lt. Qed.

(** The place of the next byte. *)
Lemma nwrite_idx : nwrite p mod PIPESIZE = (nread p + pcount p) mod PIPESIZE.
Proof.
  unfold PIPESIZE. destruct pcount_cases as [->| ->]; [f_equal; lia|].
  replace (nread p + (nwrite p - nread p + 2 ^ 32)) with (nwrite p + 2 ^ 23 * 512) by lia. by rewrite Z.mod_add.
Qed.

Lemma u32_mod512 x : u32 x mod 512 = x mod 512.
Proof. unfold wrap. change (2 ^ 32) with (512 * 2 ^ 23). rewrite Z.rem_mul_r by lia. rewrite Z.mul_comm, Z.mod_add, Z.mod_mod; lia. Qed.

Lemma put_ok ch : full p = false -> pipe_ok (put ch p) /\ contents (put ch p) = contents p ++ [ch].
Proof.
  intros Hf. pose proof length_contents as Hl. pose proof pcount_cases as Hpc. pose proof Hp as [Hd Hr Hw Hc].
  assert (pcount p < 512) as Hlt.
  { destruct (decide (pcount p = 512)); [|unfold PIPESIZE in *; lia].
    rewrite (proj2 full_contents) in Hf by lia. done. }
  assert (pcount (put ch p) = pcount p + 1) as Ec.
  { unfold pcount, put, wrap in *. simpl. rewrite Zminus_mod_idemp_l.
    replace (nwrite p + 1 - nread p) with (nwrite p - nread p + 1) by lia. rewrite <- Zplus_mod_idemp_l. rewrite Z.mod_small; [done|].
    pose proof (Z.mod_pos_bound (nwrite p - nread p) (2 ^ 32)). lia. }
  split.
  - split; [simpl; by rewrite length_insert|done|apply wrap_range; lia|unfold PIPESIZE; lia].
  - pose proof nwrite_idx as Ei. unfold PIPESIZE in *.
    assert (0 <= pcount p) as Hpos by (destruct (wrap_range 32 (nwrite p - nread p)); [lia|done]).
    unfold contents. rewrite Ec, Z2Nat.inj_add, Nat.add_1_r, seq_S, fmap_app by lia. simpl. unfold PIPESIZE. f_equal.
    + apply list_fmap_ext. intros k j Hk%lookup_seq. destruct Hk as [-> Hk]. apply list_lookup_total_insert_ne.
      rewrite Ei. intros E. apply Z2Nat.inj in E; [|apply Z.mod_pos_bound; lia..].
      pose proof (Z.div_mod (nread p + pcount p) 512 ltac:(lia)). pose proof (Z.div_mod (nread p + (0 + k)%nat) 512 ltac:(lia)). lia.
    + f_equal. rewrite Ei, Z2Nat.id by lia. apply list_lookup_total_insert_eq. rewrite Hd.
      pose proof (Z.mod_pos_bound (nread p + pcount p) 512). lia.
Qed.

Lemma take_ok : empty p = false ->
  pipe_ok (take_front p) /\ contents p = (pdata p !!! Z.to_nat (nread p mod PIPESIZE)) :: contents (take_front p).
Proof.
  intros He. pose proof length_contents as Hl. pose proof pcount_cases as Hpc. pose proof Hp as [Hd Hr Hw Hc].
  assert (0 < pcount p) as Hlt.
  { unfold empty in He. unfold PIPESIZE in *. apply Z.eqb_neq in He. destruct (wrap_range 32 (nwrite p - nread p)); [lia|]. unfold pcount in *. lia. }
  assert (pcount (take_front p) = pcount p - 1) as Ec.
  { unfold pcount, take_front, wrap in *. simpl. rewrite Zminus_mod_idemp_r.
    replace (nwrite p - (nread p + 1)) with (nwrite p - nread p - 1) by lia. rewrite <- Zminus_mod_idemp_l. apply Z.mod_small.
    pose proof (Z.mod_pos_bound (nwrite p - nread p) (2 ^ 32)). lia. }
  split.
  - split; [done|apply wrap_range; lia|done|unfold PIPESIZE in *; lia].
  - unfold contents. rewrite Ec. replace (Z.to_nat (pcount p)) with (S (Z.to_nat (pcount p - 1))) by lia.
    cbn [seq fmap list_fmap]. f_equal; [by rewrite Z.add_0_r|]. rewrite <- fmap_S_seq, <- list_fmap_compose.
    apply list_fmap_ext. intros _ j _. unfold compose, PIPESIZE. simpl. do 2 f_equal.
    rewrite <- (Zplus_mod_idemp_l (u32 (nread p + 1))), u32_mod512, Zplus_mod_idemp_l. f_equal. lia.
Qed.
End buffer.

(** ** A byte of a process *)

(** Where the page table puts user address [va]. *)
Definition user_addr (m : memory) (root va : Z) : Z := PTE2PA (leaf m root va) + va mod PGSIZE.

(** There is an entry for [va]; the kernel takes one at address 0 for a missing one. *)
Definition has_entry (m : memory) (root va : Z) : bool := negb (default 0 (slot 2 m root va) =? 0).

Lemma slot_rounddown m root va : 0 <= va < 2 ^ 64 -> slot 2 m root (PGROUNDDOWN va) = slot 2 m root va.
Proof. intros Hva. rewrite PGROUNDDOWN_val. apply leaf_vpn; unfold vpn; plia. Qed.

Lemma rounddown_max va : 0 <= va -> (MAXVA <=? PGROUNDDOWN va) = negb (va <? MAXVA).
Proof. intros Hva. rewrite <- Z.leb_antisym. apply eq_true_iff_eq. rewrite !Z.leb_le, PGROUNDDOWN_val. plia. Qed.

Section user_byte.
Context `{Linker} (s : phys) (root va : Z) (Hva : 0 <= va < 2 ^ 64).

Lemma copyin_byte : copyin root va 1 s =
  if has_entry (mem s) root va && readable (mem s) root va && negb (PTE2PA (leaf (mem s) root va) =? 0) then Ret (0, [ld8 (mem s) (user_addr (mem s) root va)]) s else Ret (-1, []) s.
Proof.
  unfold copyin. change (S (Z.to_nat 1)) with 2%nat. cbn [copyin_loop]. change (0 <? 1) with true. cbv iota zeta.
  assert (walkaddr root (PGROUNDDOWN va) s = Ret (if has_entry (mem s) root va && readable (mem s) root va then PTE2PA (leaf (mem s) root va) else 0) s) as Ew.
  { unfold walkaddr, has_entry, readable. rewrite rounddown_max by lia. destruct (Z.ltb_spec va MAXVA) as [Hlt|]; [|by rewrite andb_false_r]. cbn [negb andb].
    rewrite (bind_ret_eq _ _ _ _ _ (walk_noalloc root (PGROUNDDOWN va) s ltac:(rewrite PGROUNDDOWN_val; plia))), slot_rounddown by done. unfold leaf, leaf_at.
    destruct (slot 2 (mem s) root va) as [a|]; cbn [from_option]; change (id a) with a || idtac; [|done]. destruct (a =? 0); [done|]. cbn [negb andb].
    unfold load64. msimpl. by destruct (has _ PTE_V), (has _ PTE_U). }
  rewrite (bind_ret_eq _ _ _ _ _ Ew). destruct (has_entry _ _ _ && readable _ _ _); cbn [andb]; [|done]. destruct (PTE2PA _ =? 0); [done|]. cbn [negb].
  assert (va - PGROUNDDOWN va = va mod PGSIZE) as -> by (rewrite PGROUNDDOWN_val; lia). assert ((1 <? PGSIZE - va mod PGSIZE) || (PGSIZE - va mod PGSIZE =? 1) = true) as Hn.
  { apply orb_true_iff. rewrite Z.ltb_lt, Z.eqb_eq. plia. }
  assert ((if 1 <? PGSIZE - va mod PGSIZE then 1 else PGSIZE - va mod PGSIZE) = 1) as -> by (destruct (1 <? _); [done|]; by apply Z.eqb_eq in Hn).
  unfold load_bytes. msimpl. change (0 <? 1 - 1) with false. cbv iota. done.
Qed.

Lemma copyout_byte ch : copyout root va [ch] s =
  if has_entry (mem s) root va && writable (mem s) root va then Ret 0 (set_mem (st_bytes (mem s) (user_addr (mem s) root va) [ch]) s) else Ret (-1) s.
Proof.
  unfold copyout. cbn [length copyout_loop]. change (0 <? Z.of_nat 1) with true. cbv iota zeta. unfold has_entry, writable, readable. rewrite rounddown_max by lia.
  destruct (Z.ltb_spec va MAXVA) as [Hlt|]; [|by rewrite andb_false_r]. cbn [negb andb].
  rewrite (bind_ret_eq _ _ _ _ _ (walk_noalloc root (PGROUNDDOWN va) s ltac:(rewrite PGROUNDDOWN_val; plia))), slot_rounddown by done. unfold user_addr, leaf, leaf_at.
  destruct (slot 2 (mem s) root va) as [a|]; cbn [from_option]; change (id a) with a || idtac; [|done]. destruct (a =? 0); [done|]. cbn [negb andb].
  unfold load64. msimpl. destruct (has _ PTE_V), (has _ PTE_U), (has _ PTE_W); cbn [negb orb andb]; try done.
  assert (va - PGROUNDDOWN va = va mod PGSIZE) as -> by (rewrite PGROUNDDOWN_val; lia).
  cbn [length]. change (Z.of_nat 1) with 1. assert (Z.to_nat (if 1 <? PGSIZE - va mod PGSIZE then 1 else PGSIZE - va mod PGSIZE) = 1%nat) as ->.
  { destruct (Z.ltb_spec 1 (PGSIZE - va mod PGSIZE)); [done|]. assert (PGSIZE - va mod PGSIZE = 1) as -> by plia. done. }
  done.
Qed.
End user_byte.

(** ** The processes of a pipe *)

(** Where a process is: about to take [pi->lock] (first, or after sleeping),
    or holding it at the test of its loop. *)
Inductive pc :=
| WEnter (addr n i : Z) | WLoop (addr n i : Z)
| REnter (addr n : Z) | RWait (addr n : Z) | RCopy (addr n i : Z).

(** What a step does as its process sees it: it takes byte [b] from the process's memory, puts [b] there, loses
    [b], or stops at an address where it need not. *)
Inductive label := Enq (b : Z) | Deq (b : Z) | Lost (b : Z) | Fault | Free | Tau.

Section sys.
Context `{Linker} `{Symbols} {St : Type} {ST : Store St} (pi : Z).

Record psys := mk_psys { pk : kst St; plk : option nat; pcs : gmap nat pc }.

Abbreviation thepipe k := (pipes k !!! pi).
Definition is_pipe (k : kst St) : Prop := is_Some (pipes k !! pi).
Definition running (k : kst St) (t : nat) : Prop := (t < length (procs k))%nat /\ pstate (procs k !!! t) = RUNNING.
Definition sleeping (k : kst St) (t : nat) (ch : channel) : Prop :=
  (t < length (procs k))%nat /\ pstate (procs k !!! t) = SLEEPING /\ pchan (procs k !!! t) = Some ch.

(** After an iteration of the writer: its place, and the byte it put. *)
Definition after_w (t : nat) (addr n i : Z) (w : witer) (m : gmap nat pc) : M (kst St) (option nat * gmap nat pc) :=
  match w with
  | WNext => mret (Some t, <[t := WLoop addr n (i + 1)]> m)
  | WSleep => mret (None, <[t := WEnter addr n i]> m)
  | WFail => mret (None, delete t m)
  | WBreak => wakeup (Some t) (ChNread pi);; mret (None, delete t m)
  end.

(** The memory of process [t]: where [va] is, and whether it can be read and written. *)
Abbreviation kmem k := (mem (km (kfs k))).
Abbreviation root k t := (pagetable (procs k !!! t)).
Definition at_user (k : kst St) (t : nat) (va : Z) : Z := user_addr (kmem k) (root k t) va.
Definition can_give (k : kst St) (t : nat) (va : Z) : bool :=
  has_entry (kmem k) (root k t) va && readable (kmem k) (root k t) va && negb (PTE2PA (leaf (kmem k) (root k t) va) =? 0).
Definition can_take (k : kst St) (t : nat) (va : Z) : bool := has_entry (kmem k) (root k t) va && writable (kmem k) (root k t) va.

(** An iteration of the writer takes the byte at [addr + i]; it stops early only where it cannot read. *)
Definition w_label (k : kst St) (t : nat) (va : Z) (w : witer) : label :=
  match w with
  | WNext => Enq (ld8 (kmem k) (at_user k t va))
  | WBreak => if can_give k t va then Fault else Tau
  | _ => Tau
  end.

Definition after_r (t : nat) (addr n i : Z) (more : bool) (m : gmap nat pc) : M (kst St) (option nat * gmap nat pc) :=
  if more then mret (Some t, <[t := RCopy addr n (i + 1)]> m)
  else wakeup (Some t) (ChNwrite pi);; mret (None, delete t m).

(** An iteration of the reader that goes on has put at [addr + i] the byte that is there afterwards; one that
    cannot write there loses the next byte. *)
Definition r_label (k k' : kst St) (t : nat) (va : Z) (more : bool) : label :=
  if more then Deq (ld8 (kmem k') (at_user k t va))
  else if empty (thepipe k) then Tau
  else if can_take k t va then Fault
  else Lost (default 0 (head (contents (thepipe k)))).

(** [kills] says whether processes are killed. *)
Inductive pstep (kills : bool) : psys -> label -> psys -> Prop :=
| st_sched k lk m t k' : (t < length (procs k))%nat -> pstate (procs k !!! t) = RUNNABLE ->
    upd_proc t (with_pstate RUNNING) k = Ret tt k' -> pstep kills (mk_psys k lk m) Tau (mk_psys k' lk m)
| st_write k lk m t addr n : running k t -> m !! t = None ->
    pstep kills (mk_psys k lk m) Tau (mk_psys k lk (<[t := WEnter addr n 0]> m))
| st_read k lk m t addr n : running k t -> m !! t = None ->
    pstep kills (mk_psys k lk m) Tau (mk_psys k lk (<[t := REnter addr n]> m))
| st_lock_w k m t addr n i k' : running k t -> m !! t = Some (WEnter addr n i) -> is_pipe k -> awake t k = Ret tt k' ->
    pstep kills (mk_psys k None m) Tau (mk_psys k' (Some t) (<[t := WLoop addr n i]> m))
| st_lock_r k m t addr n k' : running k t -> m !! t = Some (REnter addr n) -> is_pipe k -> awake t k = Ret tt k' ->
    pstep kills (mk_psys k None m) Tau (mk_psys k' (Some t) (<[t := RWait addr n]> m))
| st_w_iter k m t addr n i w k1 lk' m' k2 : running k t -> m !! t = Some (WLoop addr n i) -> i < n ->
    pipewrite_iter t pi addr i k = Ret w k1 -> after_w t addr n i w m k1 = Ret (lk', m') k2 ->
    pstep kills (mk_psys k (Some t) m) (w_label k t (u64 (addr + i)) w) (mk_psys k2 lk' m')
| st_w_done k m t addr n i k' : running k t -> m !! t = Some (WLoop addr n i) -> n <= i ->
    wakeup (Some t) (ChNread pi) k = Ret tt k' ->
    pstep kills (mk_psys k (Some t) m) Tau (mk_psys k' None (delete t m))
| st_r_wait k m t addr n w k' : running k t -> m !! t = Some (RWait addr n) -> piperead_wait t pi k = Ret w k' ->
    pstep kills (mk_psys k (Some t) m) Tau (match w with
      | RReady => mk_psys k' (Some t) (<[t := RCopy addr n 0]> m)
      | RSleep => mk_psys k' None (<[t := REnter addr n]> m)
      | RFail => mk_psys k' None (delete t m) end)
| st_r_iter k m t addr n i more k1 lk' m' k2 : running k t -> m !! t = Some (RCopy addr n i) -> i < n ->
    piperead_iter t pi addr i k = Ret more k1 -> after_r t addr n i more m k1 = Ret (lk', m') k2 ->
    pstep kills (mk_psys k (Some t) m) (r_label k k1 t (u64 (addr + i)) more) (mk_psys k2 lk' m')
| st_r_done k m t addr n i k' : running k t -> m !! t = Some (RCopy addr n i) -> n <= i ->
    wakeup (Some t) (ChNwrite pi) k = Ret tt k' ->
    pstep kills (mk_psys k (Some t) m) Tau (mk_psys k' None (delete t m))
| st_close k m t wr k' : running k t -> m !! t = None -> is_pipe k -> pipeclose t pi wr k = Ret tt k' ->
    pstep kills (mk_psys k None m) (if decide (is_pipe k') then Tau else Free) (mk_psys k' None m)
| st_kill k lk m pid r k' : kills = true -> kill pid k = Ret r k' ->
    pstep kills (mk_psys k lk m) Tau (mk_psys k' lk m).

Inductive pruns (kills : bool) : psys -> list label -> psys -> Prop :=
| pr_nil s : pruns kills s [] s
| pr_snoc s ls s1 l s2 : pruns kills s ls s1 -> pstep kills s1 l s2 -> pruns kills s (ls ++ [l]) s2.

(** As [pipealloc] leaves it, with nobody at the pipe yet. *)
Definition fresh_pipe (s : psys) : Prop :=
  plk s = None /\ pcs s = ∅ /\ pipes (pk s) !! pi = Some (mk_pipe (repeat 5 512) 0 0 true true) /\
  (forall t, ~ sleeping (pk s) t (ChNread pi) /\ ~ sleeping (pk s) t (ChNwrite pi)) /\
  forall t, (t < length (procs (pk s)))%nat -> pkilled (procs (pk s) !!! t) = false.

(** ** The steps, on the table and the pipe *)

Lemma on_mem_inv {A} (c : M phys A) (k : kst St) a k' :
  on_mem_k c k = Ret a k' -> procs k' = procs k /\ pipes k' = pipes k.
Proof. unfold on_mem_k, on_fs, on_km, zoom. destruct (c _); [|done|done]. by intros [= <- <-]. Qed.

Lemma on_mem_copyin k t x r ch k' : on_mem_k (copyin (root k t) (u64 x) 1) k = Ret (r, ch) k' -> procs k' = procs k /\ pipes k' = pipes k /\
  if can_give k t (u64 x) then r = 0 /\ ch = [ld8 (kmem k) (at_user k t (u64 x))] else r = -1 /\ ch = [].
Proof.
  intros E. pose proof (on_mem_inv _ _ _ _ E) as [E1 E2]. split; [done|]. split; [done|]. unfold on_mem_k, on_fs, on_km, zoom in E.
  rewrite copyin_byte in E by (apply wrap_range; lia). unfold can_give, at_user. destruct (_ && _ && _); by injection E as <- <- _.
Qed.

Lemma on_mem_copyout k t x ch r k' : on_mem_k (copyout (root k t) (u64 x) [ch]) k = Ret r k' -> procs k' = procs k /\ pipes k' = pipes k /\
  if can_take k t (u64 x) then r = 0 /\ ld8 (kmem k') (at_user k t (u64 x)) = ch mod 256 else r = -1.
Proof.
  intros E. pose proof (on_mem_inv _ _ _ _ E) as [E1 E2]. split; [done|]. split; [done|]. unfold on_mem_k, on_fs, on_km, zoom in E.
  rewrite copyout_byte in E by (apply wrap_range; lia). unfold can_take, at_user. destruct (_ && _); injection E as <- <-; [|done]. split; [done|].
  cbn [kfs set_fs km set_km mem set_mem]. unfold ld8 at 1.
  rewrite lookup_total_insert_eq. apply Z.mod_mod. lia.
Qed.

Definition woken (me : option nat) (ch : channel) (k : kst St) : kst St :=
  set_procs (imap (fun i p => if wakes me ch i p then with_pstate RUNNABLE p else p) (procs k)) k.

Lemma length_woken me ch k : length (procs (woken me ch k)) = length (procs k).
Proof. apply length_imap. Qed.

Lemma proc_woken me ch k t : (t < length (procs k))%nat ->
  procs (woken me ch k) !!! t = if wakes me ch t (procs k !!! t) then with_pstate RUNNABLE (procs k !!! t) else procs k !!! t.
Proof.
  intros Ht. apply list_lookup_total_correct. simpl. rewrite list_lookup_imap.
  by rewrite (list_lookup_lookup_total_lt _ _ Ht).
Qed.

Lemma sleeping_woken me ch k t c : running k me ->
  sleeping (woken (Some me) ch k) t c <-> sleeping k t c /\ c <> ch.
Proof.
  intros [Hme Hrun]. unfold sleeping. rewrite length_woken. destruct (decide (t < length (procs k))%nat) as [Ht|]; [|naive_solver].
  rewrite proc_woken by done. unfold wakes. destruct (decide (t = me)) as [->|Hne].
  { rewrite (bool_decide_eq_false_2 (Some me <> Some me)) by naive_solver. simpl. rewrite Hrun. naive_solver. }
  rewrite (bool_decide_eq_true_2 (Some me <> Some t)) by naive_solver. simpl.
  destruct (bool_decide_reflect (pstate (procs k !!! t) = SLEEPING)); simpl; [|naive_solver].
  destruct (bool_decide_reflect (pchan (procs k !!! t) = Some ch)); simpl; naive_solver.
Qed.

(** The current process, if any, is running. *)
Definition cur_ok (me : option nat) (k : kst St) : Prop := forall t, me = Some t -> running k t.

Lemma sleeping_cur me ch k t c : cur_ok me k -> sleeping (woken me ch k) t c <-> sleeping k t c /\ c <> ch.
Proof.
  destruct me as [m|]; intros Hc; [apply sleeping_woken; by apply Hc|]. unfold sleeping. rewrite length_woken.
  destruct (decide (t < length (procs k))%nat) as [Ht|]; [|naive_solver]. rewrite proc_woken by done. unfold wakes.
  rewrite (bool_decide_eq_true_2 (None <> Some t)) by done. simpl.
  destruct (bool_decide_reflect (pstate (procs k !!! t) = SLEEPING)); simpl; [|naive_solver].
  destruct (bool_decide_reflect (pchan (procs k !!! t) = Some ch)); simpl; naive_solver.
Qed.

Lemma running_woken me ch k t : running k t -> running (woken me ch k) t.
Proof.
  intros [Ht Hr]. split; [by rewrite length_woken|]. rewrite proc_woken by done. unfold wakes. rewrite (bool_decide_eq_false_2 (pstate (procs k !!! t) = SLEEPING)); [|by rewrite Hr].
  by rewrite andb_false_r.
Qed.

Definition slept (me : nat) (ch : channel) (k : kst St) : kst St :=
  set_procs (<[me := with_pstate SLEEPING (with_chan (Some ch) (procs k !!! me))]> (procs k)) k.

Lemma sleeping_slept me ch k t c : (me < length (procs k))%nat ->
  sleeping (slept me ch k) t c <-> (t = me /\ c = ch) \/ (t <> me /\ sleeping k t c).
Proof.
  intros Hme. unfold sleeping, slept. simpl. rewrite length_insert. destruct (decide (t = me)) as [->|Hne].
  - rewrite list_lookup_total_insert_eq by done. simpl. naive_solver.
  - rewrite list_lookup_total_insert_ne by done. naive_solver.
Qed.

Lemma write_iter_inv t addr i k w k1 :
  pipewrite_iter t pi addr i k = Ret w k1 ->
  match w with
  | WFail => k1 = k /\ (readopen (thepipe k) = false \/ pkilled (procs k !!! t) = true)
  | WSleep => readopen (thepipe k) = true /\ full (thepipe k) = true /\ k1 = slept t (ChNwrite pi) (woken (Some t) (ChNread pi) k)
  | WBreak => procs k1 = procs k /\ pipes k1 = pipes k /\ can_give k t (u64 (addr + i)) = false
  | WNext => readopen (thepipe k) = true /\ full (thepipe k) = false /\ procs k1 = procs k /\
      pipes k1 = <[pi := put (ld8 (kmem k) (at_user k t (u64 (addr + i)))) (thepipe k)]> (pipes k)
  end.
Proof.
  unfold pipewrite_iter. intros (p & s1 & [= <- <-] & E)%bind_inv. apply bind_inv in E as (b & s2 & [= <- <-] & E).
  destruct (readopen (thepipe k)) eqn:Er; cbn [negb orb] in E; [|injection E as <- <-; auto].
  destruct (pkilled (procs k !!! t)) eqn:Ek; [injection E as <- <-; auto|].
  fold (full (thepipe k)) in E. destruct (full (thepipe k)) eqn:Ef.
  { apply bind_inv in E as ([] & s1 & [= <-] & E). apply bind_inv in E as ([] & s2 & [= <-] & [= <- <-]). done. }
  apply bind_inv in E as (pr & s1 & [= <- <-] & E). apply bind_inv in E as ([r ch] & s2 & Hc & E). apply on_mem_copyin in Hc as (E1 & E2 & Hc).
  destruct (can_give k t (u64 (addr + i))); destruct Hc as [-> ->]; cbn [Z.eqb] in E; [|injection E as <- <-; auto].
  apply bind_inv in E as ([] & s3 & [= <-] & [= <- <-]). split_and!; try done. simpl. by rewrite E2.
Qed.

Lemma read_wait_inv t k w k1 :
  piperead_wait t pi k = Ret w k1 ->
  match w with
  | RReady => k1 = k
  | RSleep => empty (thepipe k) = true /\ writeopen (thepipe k) = true /\ k1 = slept t (ChNread pi) k
  | RFail => k1 = k
  end.
Proof.
  unfold piperead_wait. intros (p & s1 & [= <- <-] & E)%bind_inv. fold (empty (thepipe k)) in E.
  destruct (empty (thepipe k)) eqn:Ee; [|by injection E as <- <-].
  destruct (writeopen (thepipe k)) eqn:Ew; [|by injection E as <- <-]. cbn [andb] in E.
  apply bind_inv in E as (b & s1 & [= <- <-] & E). destruct (pkilled (procs k !!! t)); [by injection E as <- <-|].
  apply bind_inv in E as ([] & s1 & [= <-] & [= <- <-]). done.
Qed.

Lemma read_iter_inv t addr i (k : kst St) more (k1 : kst St) :
  piperead_iter t pi addr i k = Ret more k1 -> procs k1 = procs k /\
  if empty (thepipe k) then more = false /\ pipes k1 = pipes k
  else pipes k1 = <[pi := take_front (thepipe k)]> (pipes k) /\ more = can_take k t (u64 (addr + i)) /\
    (more = true -> ld8 (kmem k1) (at_user k t (u64 (addr + i))) = (pdata (thepipe k) !!! Z.to_nat (nread (thepipe k) mod PIPESIZE)) mod 256).
Proof.
  unfold piperead_iter. intros (p & s1 & [= <- <-] & E)%bind_inv. fold (empty (thepipe k)) in E.
  destruct (empty (thepipe k)) eqn:Ee; [by injection E as <- <-|].
  apply bind_inv in E as ([] & s2 & [= <-] & E). apply bind_inv in E as (pr & s3 & [= <- <-] & E).
  set (k0 := set_pipes _ k) in *. apply bind_inv in E as (r & s4 & Hc & [= <- <-]). change (procs k0 !!! t) with (procs k !!! t) in Hc.
  apply (on_mem_copyout k0) in Hc as (E1 & E2 & Hc). change (can_take k0 t) with (can_take k t) in Hc. change (at_user k0 t) with (at_user k t) in Hc.
  rewrite E1, E2. split; [done|]. split; [done|]. destruct (can_take k t (u64 (addr + i))); [by destruct Hc as [-> Hc]|by rewrite Hc].
Qed.

Definition closed (wr : bool) (p : pipe) : pipe :=
  if wr then mk_pipe (pdata p) (nread p) (nwrite p) (readopen p) false
  else mk_pipe (pdata p) (nread p) (nwrite p) false (writeopen p).

Lemma close_inv t wr (k k' : kst St) :
  pipeclose t pi wr k = Ret tt k' ->
  procs k' = procs (woken (Some t) (if wr then ChNread pi else ChNwrite pi) k) /\
  if readopen (closed wr (thepipe k)) || writeopen (closed wr (thepipe k))
  then pipes k' = <[pi := closed wr (thepipe k)]> (pipes k)
  else pipes k' = delete pi (pipes k).
Proof.
  unfold pipeclose. intros (p & s1 & [= <- <-] & E)%bind_inv. apply bind_inv in E as ([] & s1 & E1 & E).
  assert (procs s1 = procs (woken (Some t) (if wr then ChNread pi else ChNwrite pi) k) /\
    pipes s1 = <[pi := closed wr (thepipe k)]> (pipes k)) as [Ep Es].
  { destruct wr; apply bind_inv in E1 as ([] & s2 & [= <-] & [= <-]); done. }
  clear E1. apply bind_inv in E as (p & s2 & [= <- <-] & E). rewrite Es, lookup_total_insert_eq in E.
  destruct (readopen (closed wr (thepipe k))), (writeopen (closed wr (thepipe k))); cbn [negb andb orb] in *;
    try (injection E as <-; done).
  apply bind_inv in E as ([] & s3 & [= <-] & [E1 E2]%on_mem_inv). simpl in *.
  rewrite E1, E2, Es, delete_insert_eq. split; [done|]. done.
Qed.

Lemma kill_pipes n i pid (k k' : kst St) r : kill_loop n i pid k = Ret r k' -> pipes k' = pipes k.
Proof.
  revert i. induction n as [|n IH]; intros i; cbn [kill_loop]; [by intros [= <- <-]|].
  intros (p & s1 & [= <- <-] & E)%bind_inv. destruct (ppid _ =? pid); [|by eapply IH].
  apply bind_inv in E as ([] & s1 & [= <-] & E). apply bind_inv in E as ([] & s2 & E1 & [= <- <-]).
  destruct (decide _); by injection E1 as <-.
Qed.

(** ** A bounded queue *)

Inductive qstep : list Z -> label -> list Z -> Prop :=
| q_enq q b : (length q < Z.to_nat PIPESIZE)%nat -> qstep q (Enq b) (q ++ [b])
| q_deq q b : qstep (b :: q) (Deq b) q
| q_lost q b : qstep (b :: q) (Lost b) q
| q_free q : qstep q Free []
| q_tau q : qstep q Tau q.

Inductive qruns : list Z -> list label -> list Z -> Prop :=
| qr_nil q : qruns q [] q
| qr_snoc q ls q1 l q2 : qruns q ls q1 -> qstep q1 l q2 -> qruns q (ls ++ [l]) q2.

(** The pipe is well formed and holds bytes; the lock is held only while it exists. *)
Record fifo_inv (s : psys) : Prop := {
  fi_ok : pipe_ok (thepipe (pk s));
  fi_bytes : Forall (fun b => 0 <= b < 256) (pdata (thepipe (pk s)));
  fi_lock : is_Some (plk s) -> is_pipe (pk s);
}.

Lemma contents_closed wr p : contents (closed wr p) = contents p.
Proof. by destruct wr. Qed.

Lemma pipe_ok_none : pipe_ok inhabitant /\ Forall (fun b => 0 <= b < 256) (pdata inhabitant) /\ contents inhabitant = [].
Proof. split; [by split|]. split; [|done]. apply Forall_forall. intros b Hb%list_elem_of_In%repeat_spec. lia. Qed.

Definition fifo_post (k : kst St) (l : label) (s' : psys) : Prop :=
  fifo_inv s' /\ qstep (contents (thepipe k)) l (contents (thepipe (pk s'))).

(** A step that leaves the pipe alone. *)
Lemma fifo_same s k' lk' m' :
  fifo_inv s -> pipes k' = pipes (pk s) -> (is_Some lk' -> is_Some (plk s) \/ is_pipe (pk s)) ->
  fifo_post (pk s) Tau (mk_psys k' lk' m').
Proof.
  intros [Hok Hby Hlk] E Hl. split; [split|]; simpl; rewrite ?E; [done|done| |constructor].
  intros H'. unfold is_pipe. rewrite E. destruct (Hl H'); [by apply Hlk|done].
Qed.

(** A step that replaces the pipe. *)
Lemma fifo_new s l k' lk' m' p' :
  pipes k' = <[pi := p']> (pipes (pk s)) -> pipe_ok p' -> Forall (fun b => 0 <= b < 256) (pdata p') -> qstep (contents (thepipe (pk s))) l (contents p') ->
  fifo_post (pk s) l (mk_psys k' lk' m').
Proof.
  intros E Hok Hby Hq. split; [split|]; simpl; rewrite ?E, ?lookup_total_insert_eq; [done|done| |done].
  intros _. unfold is_pipe. rewrite E, lookup_insert_eq. eauto.
Qed.

Lemma fifo_w_iter k m t addr n i w k1 lk' m' k2 :
  fifo_inv (mk_psys k (Some t) m) -> pipewrite_iter t pi addr i k = Ret w k1 -> after_w t addr n i w m k1 = Ret (lk', m') k2 ->
  fifo_post k (w_label k t (u64 (addr + i)) w) (mk_psys k2 lk' m').
Proof.
  intros Hi Hw%write_iter_inv Ha. pose proof (fi_ok _ Hi) as Hok. cbn [pk] in Hok.
  destruct w; cbn [after_w w_label] in *.
  - injection Ha as <- <- <-. destruct Hw as (_ & Hf & _ & E). set (ch := ld8 _ _) in *. destruct (put_ok _ Hok ch Hf) as [Hok' Hc].
    eapply (fifo_new (mk_psys k (Some t) m)); [exact E|done| |].
    { apply Forall_insert; [apply (fi_bytes _ Hi)|]. unfold ch, ld8. apply Z.mod_pos_bound. lia. }
    rewrite Hc. constructor.
    pose proof (length_contents (thepipe k)) as El. pose proof (po_count _ Hok) as Hle. unfold PIPESIZE in *.
    destruct (decide (length (contents (thepipe k)) = 512%nat)) as [E5|]; [|cbn [pk]; lia].
    rewrite (proj2 (full_contents _ Hok)) in Hf by done. done.
  - injection Ha as <- <- <-. destruct Hw as (_ & _ & ->). by apply (fifo_same (mk_psys k (Some t) m)).
  - apply bind_inv in Ha as ([] & s1 & [= <-] & [= <- <- <-]). destruct Hw as (_ & E & ->). by apply (fifo_same (mk_psys k (Some t) m)).
  - injection Ha as <- <- <-. destruct Hw as [-> _]. by apply (fifo_same (mk_psys k (Some t) m)).
Qed.

Lemma fifo_r_iter k m t addr n i more k1 lk' m' k2 :
  fifo_inv (mk_psys k (Some t) m) -> piperead_iter t pi addr i k = Ret more k1 -> after_r t addr n i more m k1 = Ret (lk', m') k2 ->
  fifo_post k (r_label k k1 t (u64 (addr + i)) more) (mk_psys k2 lk' m').
Proof.
  intros Hi [_ Hr]%read_iter_inv Ha. pose proof (fi_ok _ Hi) as Hok. cbn [pk] in Hok.
  assert (pipes k2 = pipes k1) as E2.
  { unfold after_r in Ha. destruct more; [by injection Ha as <- <- <-|].
    by apply bind_inv in Ha as ([] & s1 & [= <-] & [= <- <- <-]). }
  unfold r_label. destruct (empty (thepipe k)) eqn:Ee.
  - destruct Hr as [-> Hr]. apply (fifo_same (mk_psys k (Some t) m)); [done|by rewrite E2|eauto].
  - destruct (take_ok _ Hok Ee) as [Hok' Hc]. destruct Hr as (Hp & -> & Hd). eapply (fifo_new (mk_psys k (Some t) m)); [by rewrite E2|done|apply (fi_bytes _ Hi)|].
    cbn [pk]. destruct (can_take k t (u64 (addr + i))); [|rewrite Hc at 1 2; constructor]. rewrite (Hd eq_refl), Z.mod_small; [rewrite Hc at 1; constructor|].
    assert (Z.to_nat (nread (thepipe k) mod PIPESIZE) < length (pdata (thepipe k)))%nat as Hlt.
    { rewrite (po_data _ Hok). unfold PIPESIZE. pose proof (Z.mod_pos_bound (nread (thepipe k)) 512). lia. }
    exact (Forall_lookup_1 _ _ _ _ (fi_bytes _ Hi) (list_lookup_lookup_total_lt _ _ Hlt)).
Qed.

Lemma fifo_close k m t wr k' :
  fifo_inv (mk_psys k None m) -> pipeclose t pi wr k = Ret tt k' ->
  fifo_post k (if decide (is_pipe k') then Tau else Free) (mk_psys k' None m).
Proof.
  intros Hi [_ Hp]%close_inv. pose proof (fi_ok _ Hi) as Hok. cbn [pk] in Hok.
  destruct (readopen _ || writeopen _).
  - rewrite decide_True by (unfold is_pipe; rewrite Hp, lookup_insert_eq; eauto).
    eapply (fifo_new (mk_psys k None m)); [exact Hp| | |rewrite contents_closed; constructor].
    + destruct Hok. by destruct wr; split.
    + pose proof (fi_bytes _ Hi). by destruct wr.
  - assert (thepipe k' = inhabitant) as E by (rewrite Hp; apply lookup_total_delete_eq).
    rewrite decide_False by (unfold is_pipe; rewrite Hp, lookup_delete_eq; by intros []).
    destruct pipe_ok_none as (Hn & Hby & Hc). split; [split|]; cbn [pk]; rewrite ?E; [done|done|by intros []|]. rewrite Hc. constructor.
Qed.

Lemma fifo_step kills s l s' : pstep kills s l s' -> fifo_inv s -> fifo_post (pk s) l s'.
Proof.
  intros Hs Hi. destruct Hs; cbn [pk] in *.
  - injection H3 as <-. apply (fifo_same (mk_psys k lk m)); [done|done|eauto].
  - apply (fifo_same (mk_psys k lk m)); [done|done|eauto].
  - apply (fifo_same (mk_psys k lk m)); [done|done|eauto].
  - injection H4 as <-. apply (fifo_same (mk_psys k None m)); [done|done|eauto].
  - injection H4 as <-. apply (fifo_same (mk_psys k None m)); [done|done|eauto].
  - by eapply fifo_w_iter.
  - injection H4 as <-. apply (fifo_same (mk_psys k (Some t) m)); [done|done|by intros []].
  - apply read_wait_inv in H3. destruct w; [subst k'|destruct H3 as (_ & _ & ->)|subst k'];
      (apply (fifo_same (mk_psys k (Some t) m)); [done|done|eauto]).
  - by eapply fifo_r_iter.
  - injection H4 as <-. apply (fifo_same (mk_psys k (Some t) m)); [done|done|by intros []].
  - by eapply fifo_close.
  - apply (fifo_same (mk_psys k lk m)); [done|by eapply kill_pipes|eauto].
Qed.

Lemma fifo_fresh s : fresh_pipe s -> fifo_inv s /\ contents (thepipe (pk s)) = [].
Proof.
  intros (El & _ & Ep & _). assert (thepipe (pk s) = mk_pipe (repeat 5 512) 0 0 true true) as E by (by apply lookup_total_correct).
  rewrite E. split; [|done]. split; rewrite ?E; [by split| |rewrite El; by intros []].
  apply Forall_forall. intros b Hb%list_elem_of_In%repeat_spec. lia.
Qed.

Lemma fifo_runs kills s ls s' : fresh_pipe s -> pruns kills s ls s' ->
  fifo_inv s' /\ qruns [] ls (contents (thepipe (pk s'))).
Proof.
  intros Hf Hr. induction Hr as [|s ls s1 l s2 _ IH Hs].
  - destruct (fifo_fresh _ Hf) as [Hi ->]. split; [done|constructor].
  - destruct (IH Hf) as [Hi Hq]. destruct (fifo_step _ _ _ _ Hs Hi) as [Hi' Hq']. split; [done|]. by econstructor.
Qed.

(** ** Sleeping and waking *)

(** The lock's holder is at its loop, and will wake the other side before it lets go. *)
Definition writing (s : psys) : Prop := exists u a n i, plk s = Some u /\ pcs s !! u = Some (WLoop a n i).
Definition reading (s : psys) : Prop := exists u a n i, plk s = Some u /\ pcs s !! u = Some (RCopy a n i).

Definition unkilled (k : kst St) : Prop := forall t, (t < length (procs k))%nat -> pkilled (procs k !!! t) = false.

Record wake_inv (s : psys) : Prop := {
  wk_live : unkilled (pk s);
  wk_r t : sleeping (pk s) t (ChNread pi) -> writeopen (thepipe (pk s)) = true /\
    (empty (thepipe (pk s)) = true \/ readopen (thepipe (pk s)) = true /\ writing s);
  wk_w t : sleeping (pk s) t (ChNwrite pi) -> readopen (thepipe (pk s)) = true /\
    (full (thepipe (pk s)) = true \/ reading s);
}.

Lemma unkilled_woken me ch k : unkilled k -> unkilled (woken me ch k).
Proof.
  intros Hu t. rewrite length_woken. intros Ht. rewrite proc_woken by done. destruct (wakes _ _ _ _); by apply Hu.
Qed.

Lemma unkilled_upd k t f : unkilled k -> (forall p, pkilled (f p) = pkilled p) ->
  unkilled (set_procs (<[t := f (procs k !!! t)]> (procs k)) k).
Proof.
  intros Hu Hf t'. simpl. rewrite length_insert. intros Ht. destruct (decide (t' = t)) as [->|].
  - rewrite list_lookup_total_insert_eq, Hf by done. by apply Hu.
  - rewrite list_lookup_total_insert_ne by done. by apply Hu.
Qed.

Lemma unkilled_slept me ch k : unkilled k -> unkilled (slept me ch k).
Proof. intros Hu. exact (unkilled_upd k me (fun p => with_pstate SLEEPING (with_chan (Some ch) p)) Hu (fun _ => eq_refl)). Qed.

(** An update of an awake process that leaves it awake. *)
Lemma sleeping_upd k t f t' c : pstate (f (procs k !!! t)) <> SLEEPING ->
  sleeping (set_procs (<[t := f (procs k !!! t)]> (procs k)) k) t' c -> sleeping k t' c.
Proof.
  intros Hf (Ht & Hs & Hc). simpl in *. rewrite length_insert in Ht. destruct (decide (t' = t)) as [->|].
  - by rewrite list_lookup_total_insert_eq in Hs.
  - rewrite list_lookup_total_insert_ne in Hs, Hc by done. done.
Qed.

(** The pipe is as before, and nobody fell asleep. *)
Lemma wake_keep s k' lk' m' :
  wake_inv s -> unkilled k' -> thepipe k' = thepipe (pk s) ->
  (forall t, sleeping k' t (ChNread pi) -> sleeping (pk s) t (ChNread pi) /\
    (readopen (thepipe (pk s)) = true -> writing s -> writing (mk_psys k' lk' m'))) ->
  (forall t, sleeping k' t (ChNwrite pi) -> sleeping (pk s) t (ChNwrite pi) /\ (reading s -> reading (mk_psys k' lk' m'))) ->
  wake_inv (mk_psys k' lk' m').
Proof.
  intros [Hl Hr Hw] Hl' Ep Hs1 Hs2. split; [done|..]; cbn [pk]; rewrite Ep; intros t Ht.
  - destruct (Hs1 t Ht) as [Ht' Hwr]. destruct (Hr t Ht') as (? & [?|[??]]); auto 6.
  - destruct (Hs2 t Ht) as [Ht' Hrd]. destruct (Hw t Ht') as (? & [?|?]); auto.
Qed.

Lemma writing_insert k k' lk m t x : m !! t = None -> writing (mk_psys k lk m) -> writing (mk_psys k' lk (<[t := x]> m)).
Proof. intros Hm (u & a & n & i & El & Eu). exists u, a, n, i. split; [done|]. simpl in *. by rewrite lookup_insert_ne by congruence. Qed.

Lemma reading_insert k k' lk m t x : m !! t = None -> reading (mk_psys k lk m) -> reading (mk_psys k' lk (<[t := x]> m)).
Proof. intros Hm (u & a & n & i & El & Eu). exists u, a, n, i. split; [done|]. simpl in *. by rewrite lookup_insert_ne by congruence. Qed.

Lemma not_writing k m t x : m !! t = Some x -> (forall a n i, x <> WLoop a n i) -> ~ writing (mk_psys k (Some t) m).
Proof. intros Hm Hx (u & a & n & i & El & Eu). simpl in *. simplify_eq. by apply (Hx a n i). Qed.

Lemma not_reading k m t x : m !! t = Some x -> (forall a n i, x <> RCopy a n i) -> ~ reading (mk_psys k (Some t) m).
Proof. intros Hm Hx (u & a & n & i & El & Eu). simpl in *. simplify_eq. by apply (Hx a n i). Qed.

Lemma free_lock k m : ~ writing (mk_psys k None m) /\ ~ reading (mk_psys k None m).
Proof. split; intros (u & a & n & i & El & Eu); done. Qed.

Lemma wake_w_iter k m t addr n i w k1 lk' m' k2 :
  fifo_inv (mk_psys k (Some t) m) -> wake_inv (mk_psys k (Some t) m) -> running k t -> m !! t = Some (WLoop addr n i) ->
  pipewrite_iter t pi addr i k = Ret w k1 -> after_w t addr n i w m k1 = Ret (lk', m') k2 ->
  wake_inv (mk_psys k2 lk' m').
Proof.
  intros Hfi Hi Hrun Hm Hw%write_iter_inv Ha. pose proof Hi as [Hl Hr Hs]. cbn [pk] in *.
  pose proof (not_reading k m t _ Hm ltac:(done)) as Hnr. destruct w; cbn [after_w] in Ha.
  - injection Ha as <- <- <-. destruct Hw as (Hro & Hf & Ep & E). set (ch := ld8 _ _) in E.
    assert (thepipe k1 = put ch (thepipe k)) as Et by (rewrite E; apply lookup_total_insert_eq).
    assert (forall t' c, sleeping k1 t' c <-> sleeping k t' c) as Es by (unfold sleeping; by rewrite Ep).
    split; cbn [pk]; rewrite ?Et; [unfold unkilled; by rewrite Ep|intros t' Ht%Es|intros t' Ht%Es].
    + destruct (Hr t' Ht) as [Hwo _]. split; [done|]. right. split; [done|]. exists t, addr, n, (i + 1).
      split; [done|]. apply lookup_insert_eq.
    + destruct (Hs t' Ht) as (_ & [Hf'|?]); [congruence|done].
  - injection Ha as <- <- <-. destruct Hw as (Hro & Hf & ->).
    split; cbn [pk]; [by apply unkilled_slept, unkilled_woken| |]; intros t' Ht.
    + apply sleeping_slept in Ht as [[_ [=]]|[_ [_ Hne]%sleeping_woken]]; [done|done|]. rewrite length_woken. apply Hrun.
    + split; [done|]. by left.
  - apply bind_inv in Ha as ([] & s1 & [= <-] & [= <- <- <-]). destruct Hw as (Ep & E & _).
    assert (running k1 t) as Hrun1 by (unfold running; by rewrite Ep).
    apply (wake_keep (mk_psys k (Some t) m)); [done|apply (unkilled_woken (Some t) (ChNread pi) k1); unfold unkilled; by rewrite Ep|cbn; by rewrite E|..];
      intros t' [Ht Hne]%sleeping_woken; try done.
    split; [|done]. unfold sleeping in *. by rewrite Ep in Ht.
  - injection Ha as <- <- <-. destruct Hw as [-> Hf]. apply (wake_keep (mk_psys k (Some t) m)); [done|done|done|..].
    + intros t' Ht. split; [done|]. cbn [pk]. intros Hro. destruct Hf; [congruence|]. rewrite Hl in *; [done|apply Hrun].
    + intros t' Ht. split; [done|]. by intros ?%Hnr.
Qed.

Lemma wake_r_iter k m t addr n i more k1 lk' m' k2 :
  wake_inv (mk_psys k (Some t) m) -> running k t -> m !! t = Some (RCopy addr n i) ->
  piperead_iter t pi addr i k = Ret more k1 -> after_r t addr n i more m k1 = Ret (lk', m') k2 ->
  wake_inv (mk_psys k2 lk' m').
Proof.
  intros Hi Hrun Hm [Ep He]%read_iter_inv Ha. pose proof Hi as [Hl Hr Hs]. cbn [pk] in *.
  pose proof (not_writing k m t _ Hm ltac:(done)) as Hnw.
  assert (forall t' c, sleeping k1 t' c <-> sleeping k t' c) as Es by (unfold sleeping; by rewrite Ep).
  assert (unkilled k1) as Hl1 by (unfold unkilled; by rewrite Ep).
  assert (writeopen (thepipe k1) = writeopen (thepipe k) /\ readopen (thepipe k1) = readopen (thepipe k)) as [Ew Er].
  { destruct (empty (thepipe k)); [by destruct He as [_ ->]|]. destruct He as [He _]. by rewrite He, lookup_total_insert_eq. }
  assert (forall t', sleeping k t' (ChNread pi) -> writeopen (thepipe k1) = true /\ empty (thepipe k1) = true) as Hr1.
  { intros t' Ht. destruct (Hr t' Ht) as (Hwo & [Hemp|[_ ?]]); [|done]. rewrite Hemp in He. destruct He as [_ ->]. done. }
  unfold after_r in Ha. destruct more.
  - injection Ha as <- <- <-. split; [done|..]; cbn [pk]; intros t' Ht%Es.
    + destruct (Hr1 t' Ht). auto.
    + destruct (Hs t' Ht) as [Hro _]. split; [congruence|]. right. exists t, addr, n, (i + 1). split; [done|]. apply lookup_insert_eq.
  - apply bind_inv in Ha as ([] & s1 & [= <-] & [= <- <- <-]). assert (running k1 t) as Hrun1 by (unfold running; by rewrite Ep).
    split; [by apply (unkilled_woken (Some t) (ChNwrite pi) k1)|..]; cbn [pk]; intros t' [Ht%Es Hne]%sleeping_woken; try done.
    destruct (Hr1 t' Ht). auto.
Qed.

(** The holder leaves after waking the other side. *)
Lemma wake_done s k' m' t ch :
  wake_inv s -> plk s = Some t -> running (pk s) t -> wakeup (Some t) ch (pk s) = Ret tt k' ->
  (~ writing s \/ ch = ChNread pi) -> (~ reading s \/ ch = ChNwrite pi) -> wake_inv (mk_psys k' None m').
Proof.
  intros Hi _ Hrun [= <-] Hw Hr. fold (woken (Some t) ch (pk s)).
  apply (wake_keep s); [done|by apply unkilled_woken, Hi|done|..]; intros t' [Ht Hne]%sleeping_woken; try done; (split; [done|]).
  - intros _ Hwr. exfalso. destruct Hw; [done|congruence].
  - intros Hrd. exfalso. destruct Hr; [done|congruence].
Qed.

Lemma wake_close k m t wr k' :
  wake_inv (mk_psys k None m) -> running k t -> pipeclose t pi wr k = Ret tt k' -> wake_inv (mk_psys k' None m).
Proof.
  intros [Hl Hr Hs] Hrun [Ep Hp]%close_inv. destruct (free_lock k m) as [Hnw Hnr]. cbn [pk] in *.
  set (ch := if wr then ChNread pi else ChNwrite pi) in *.
  assert (forall t' c, sleeping k' t' c <-> sleeping k t' c /\ c <> ch) as Es.
  { intros t' c. rewrite <- (sleeping_woken t) by done. unfold sleeping. by rewrite Ep. }
  assert (unkilled k') as Hl' by (unfold unkilled; rewrite Ep; by apply unkilled_woken).
  split; [done|..]; cbn [pk]; intros t' [Ht Hne]%Es.
  - destruct (Hr t' Ht) as (Hwo & [He|[_ ?]]); [|done]. destruct wr; [done|]. cbn [closed readopen writeopen orb] in Hp.
    rewrite Hwo in Hp. rewrite Hp, lookup_total_insert_eq. auto.
  - destruct (Hs t' Ht) as (Hro & [Hf|?]); [|done]. destruct wr; [|done]. cbn [closed readopen writeopen orb] in Hp.
    rewrite Hro in Hp. rewrite Hp, lookup_total_insert_eq. auto.
Qed.

Lemma wake_step s l s' : pstep false s l s' -> fifo_inv s -> wake_inv s -> wake_inv s'.
Proof.
  intros Hs Hfi Hi. pose proof (wk_live _ Hi) as Hl. destruct Hs; cbn [pk plk pcs] in *.
  - injection H3 as <-. apply (wake_keep (mk_psys k lk m)); [done|by apply (unkilled_upd k t (with_pstate RUNNING))|done|..];
      intros t' Ht; apply (sleeping_upd k t (with_pstate RUNNING)) in Ht; done.
  - apply (wake_keep (mk_psys k lk m)); [done|done|done|..]; intros t' Ht; (split; [done|]); intros; by eapply writing_insert || by eapply reading_insert.
  - apply (wake_keep (mk_psys k lk m)); [done|done|done|..]; intros t' Ht; (split; [done|]); intros; by eapply writing_insert || by eapply reading_insert.
  - injection H4 as <-. destruct (free_lock k m) as [Hnw Hnr]. destruct H1 as [Ht Hrun].
    apply (wake_keep (mk_psys k None m)); [done|by apply (unkilled_upd k t (with_chan None))|done|..];
      intros t' Ht'; apply (sleeping_upd k t (with_chan None)) in Ht'; try done; simpl; by rewrite Hrun.
  - injection H4 as <-. destruct (free_lock k m) as [Hnw Hnr]. destruct H1 as [Ht Hrun].
    apply (wake_keep (mk_psys k None m)); [done|by apply (unkilled_upd k t (with_chan None))|done|..];
      intros t' Ht'; apply (sleeping_upd k t (with_chan None)) in Ht'; try done; simpl; by rewrite Hrun.
  - by eapply wake_w_iter.
  - eapply (wake_done (mk_psys k (Some t) m)); [done|done|done|done|by right|left]. by eapply not_reading.
  - pose proof (not_writing k m t _ H2 ltac:(done)) as Hnw. pose proof (not_reading k m t _ H2 ltac:(done)) as Hnr.
    apply read_wait_inv in H3. destruct w; [subst k'|destruct H3 as (He & Hwo & ->)|subst k'].
    + by apply (wake_keep (mk_psys k (Some t) m)).
    + split; [by apply unkilled_slept|..]; cbn [pk]; intros t' Ht; [auto|].
      apply sleeping_slept in Ht as [[_ [=]]|[_ Ht]]; [|apply H1]. destruct (wk_w _ Hi t' Ht) as (? & [?|?]); auto.
    + by apply (wake_keep (mk_psys k (Some t) m)).
  - by eapply wake_r_iter.
  - eapply (wake_done (mk_psys k (Some t) m)); [done|done|done|done|left|by right]. by eapply not_writing.
  - by eapply wake_close.
  - done.
Qed.

Lemma wake_runs s ls s' : fresh_pipe s -> pruns false s ls s' -> wake_inv s'.
Proof.
  intros Hf Hr. induction Hr as [s|s ls s1 l s2 Hr IH Hs].
  - destruct Hf as (_ & _ & _ & Hs & Hl). split; [done|..]; intros t Ht; by destruct (Hs t).
  - destruct (fifo_runs _ _ _ _ Hf Hr) as [Hfi _]. eapply wake_step; [done|done|by apply IH].
Qed.

(** ** What a pipe promises *)

Definition enqs (ls : list label) : list Z := omap (fun l => match l with Enq b => Some b | _ => None end) ls.
Definition deqs (ls : list label) : list Z := omap (fun l => match l with Deq b | Lost b => Some b | _ => None end) ls.

Lemma qruns_fifo q ls q' : qruns q ls q' -> Free ∉ ls -> q ++ enqs ls = deqs ls ++ q'.
Proof.
  intros Hr. induction Hr as [q|q ls q1 l q2 _ IH Hs]; [by rewrite app_nil_r|]. intros Hn. rewrite not_elem_of_app in Hn.
  destruct Hn as [Hn1 Hn2]. unfold enqs, deqs in *. rewrite !omap_app, app_assoc, (IH Hn1), <- !app_assoc. f_equal.
  destruct Hs; simpl; rewrite ?app_nil_r; try done. exfalso. apply Hn2. by apply list_elem_of_singleton.
Qed.

Lemma qruns_no_fault q ls q' : qruns q ls q' -> Fault ∉ ls.
Proof. induction 1 as [|q ls q1 l q2 _ IH Hs]; [apply not_elem_of_nil|]. rewrite not_elem_of_app, list_elem_of_singleton. split; [done|]. intros <-. inversion Hs. Qed.

(** C7: a pipe is a queue of at most 512 bytes between the memories of its processes.  However its readers and
    writers interleave, an iteration of [pipewrite] appends the byte at the writer's address [addr + i], and an iteration
    of [piperead] removes the oldest byte and leaves it at the reader's address [addr + i]; so the bytes taken out are the
    first of those put in, in order, and the rest are in the buffer.  A copy stops a writer only at
    an address it cannot read, and a byte is lost only at an address its reader cannot write. *)
Theorem pipe_fifo kills s ls s' :
  fresh_pipe s -> pruns kills s ls s' ->
  qruns [] ls (contents (thepipe (pk s'))) /\ (Fault ∉ ls) /\ Z.of_nat (length (contents (thepipe (pk s')))) <= PIPESIZE /\
  (Free ∉ ls -> enqs ls = deqs ls ++ contents (thepipe (pk s'))).
Proof.
  intros Hf Hr. destruct (fifo_runs _ _ _ _ Hf Hr) as [[Hok _ _] Hq]. split; [done|]. split; [by eapply qruns_no_fault|]. split.
  - rewrite length_contents. apply Hok.
  - by apply (qruns_fifo []).
Qed.

(** C31: no wake-up is lost, as long as nobody is killed.  Whenever the lock is
    free, a sleeping reader has nothing to read and a writer may still come,
    and a sleeping writer has no room and a reader may still come; so readers
    and writers never all sleep on each other. *)
Theorem pipe_no_lost_wakeup s ls s' :
  fresh_pipe s -> pruns false s ls s' -> plk s' = None ->
  (forall t, sleeping (pk s') t (ChNread pi) -> contents (thepipe (pk s')) = [] /\ writeopen (thepipe (pk s')) = true) /\
  (forall t, sleeping (pk s') t (ChNwrite pi) ->
    length (contents (thepipe (pk s'))) = Z.to_nat PIPESIZE /\ readopen (thepipe (pk s')) = true) /\
  forall t t', ~ (sleeping (pk s') t (ChNread pi) /\ sleeping (pk s') t' (ChNwrite pi)).
Proof.
  intros Hf Hr Hlk. destruct (fifo_runs _ _ _ _ Hf Hr) as [[Hok _ _] _]. pose proof (wake_runs _ _ _ Hf Hr) as [_ Hrd Hwr].
  destruct s' as [k lk m]. simpl in *. subst lk. destruct (free_lock k m) as [Hnw Hnr].
  assert (forall t, sleeping k t (ChNread pi) -> contents (thepipe k) = [] /\ writeopen (thepipe k) = true) as H1'.
  { intros t Ht. destruct (Hrd t Ht) as (? & [He|[_ ?]]); [|done]. split; [by apply empty_contents|done]. }
  assert (forall t, sleeping k t (ChNwrite pi) -> length (contents (thepipe k)) = Z.to_nat PIPESIZE /\ readopen (thepipe k) = true) as H2'.
  { intros t Ht. destruct (Hwr t Ht) as (? & [He|?]); [|done]. split; [by apply full_contents|done]. }
  split; [done|]. split; [done|]. intros t t' [Ht Ht']. destruct (H1' t Ht) as [E _]. destruct (H2' t' Ht') as [E' _]. by rewrite E in E'.
Qed.
End sys.

(** ** A killed writer *)

#[local] Existing Instance demo_linker.
Definition demo_symbols : Symbols := {| forkret_addr := KERNBASE; usertrap_addr := KERNBASE; kernelvec_addr := KERNBASE;
  uservec_addr := KERNBASE + 7 * PGSIZE; userret_addr := KERNBASE + 7 * PGSIZE + 156 |}.
#[local] Existing Instance demo_symbols.

(** A page table with one user page at address 0, which starts with the byte 42: the tables in the last pages of memory. *)
Definition demo_root_pt : Z := PHYSTOP - 4 * PGSIZE.
Definition demo_user_mem : memory :=
  st64 (st64 (st64 {[PHYSTOP - PGSIZE := 42]} demo_root_pt (Z.lor (PA2PTE (PHYSTOP - 3 * PGSIZE)) PTE_V))
    (PHYSTOP - 3 * PGSIZE) (Z.lor (PA2PTE (PHYSTOP - 2 * PGSIZE)) PTE_V))
    (PHYSTOP - 2 * PGSIZE) (Z.lor (PA2PTE (PHYSTOP - PGSIZE)) (Z.lor PTE_V (Z.lor PTE_R (Z.lor PTE_W PTE_U)))).

Definition demo_proc (st : procstate) (pid : Z) : proc :=
  mk_proc st None false 0 pid None 0 PGSIZE demo_root_pt 0 (0, 0) (repeat None 16) None [].

(** Processes 1 and 2 share a pipe at page 0x87ff0000. *)
Definition demo_pi : Z := PHYSTOP - 16 * PGSIZE.
Definition demo_k : kst ram :=
  mk_kst (mk_fsst (fun _ => []) (mk_phys demo_user_mem 0) [] (mk_superblock 0 0 0 0 0 0 0 0))
    [demo_proc RUNNING 1; demo_proc RUNNING 2] 3 None [] {[demo_pi := mk_pipe (repeat 5 512) 0 0 true true]} 0.
Definition demo_pipe : psys := mk_psys demo_k None ∅.

Lemma demo_pipe_fresh : fresh_pipe demo_pi demo_pipe.
Proof.
  split; [done|]. split; [done|]. split; [vm_compute; reflexivity|]. split.
  - intros [|[|t]]; (split; intros (Ht & Hs & _); simpl in *; [done || lia..]).
  - intros [|[|t]] Ht; simpl in *; done || lia.
Qed.

(** The reader sleeps, the writer puts a byte, is killed and returns. *)
Definition dk1 : kst ram := final (awake 1) demo_k.
Definition dk2 : kst ram := final (piperead_wait 1 demo_pi) dk1.
Definition dk3 : kst ram := final (awake 0) dk2.
Definition dk4 : kst ram := final (pipewrite_iter 0 demo_pi 0 0) dk3.
Definition dk5 : kst ram := final (kill 1) dk4.

Lemma running_0 : running dk2 0 /\ running dk3 0 /\ running dk4 0 /\ running dk5 0.
Proof. repeat split; vm_compute; try reflexivity; lia. Qed.

Lemma running_1 : running demo_k 1 /\ running dk1 1.
Proof. repeat split; vm_compute; try reflexivity; lia. Qed.

(** After a reader went to sleep and a writer put a byte. *)
Lemma demo_run kills : exists ls m, pruns demo_pi kills demo_pipe ls (mk_psys dk4 (Some 0%nat) m) /\
  m !! 0%nat = Some (WLoop 0 2 1) /\ m !! 1%nat = Some (REnter 0 1) /\ Free ∉ ls.
Proof.
  destruct running_0 as (H2 & H3 & H4 & H5). destruct running_1 as [H0 H1].
  pose proof (pr_nil demo_pi kills demo_pipe) as R.
  pose proof (pr_snoc _ _ _ _ _ _ _ R (st_read demo_pi kills demo_k None ∅ 1 0 1 H0 eq_refl)) as R1.
  pose proof (pr_snoc _ _ _ _ _ _ _ R1 (st_lock_r demo_pi kills demo_k _ 1 0 1 dk1 H0 (lookup_insert_eq _ _ _)
    ltac:(eexists; vm_compute; reflexivity) eq_refl)) as R2.
  pose proof (pr_snoc _ _ _ _ _ _ _ R2 (st_r_wait demo_pi kills dk1 _ 1 0 1 RSleep dk2 H1 (lookup_insert_eq _ _ _)
    ltac:(vm_compute; reflexivity))) as R3. cbn iota in R3.
  pose proof (pr_snoc _ _ _ _ _ _ _ R3 (st_write demo_pi kills dk2 None (<[1%nat := REnter 0 1]> (<[1%nat := RWait 0 1]> (<[1%nat := REnter 0 1]> ∅)))
    0 0 2 H2 eq_refl)) as R4.
  pose proof (pr_snoc _ _ _ _ _ _ _ R4 (st_lock_w demo_pi kills dk2 _ 0 0 2 0 dk3 H2 (lookup_insert_eq _ _ _)
    ltac:(eexists; vm_compute; reflexivity) eq_refl)) as R5.
  pose proof (pr_snoc _ _ _ _ _ _ _ R5 (st_w_iter demo_pi kills dk3 _ 0 0 2 0 WNext dk4 _ _ _ H3 (lookup_insert_eq _ _ _) ltac:(done)
    ltac:(vm_compute; reflexivity) eq_refl)) as R6.
  eexists _, _. split; [exact R6|]. split_and!; [by vm_compute|by vm_compute|]. simpl. rewrite !not_elem_of_cons.
  split_and!; try done. apply not_elem_of_nil.
Qed.

(** C39: when a writer is killed, a wake-up can be late: its [pipewrite] returns
    without waking the readers for the bytes it has put in the pipe.  From two
    processes at a fresh pipe a state is reached in which the writer has left
    [pipewrite], the pipe's lock is free, and the reader sleeps beside a pipe that is
    not empty. *)
Theorem pipe_lost_wakeup : exists ls s',
  fresh_pipe demo_pi demo_pipe /\ pruns demo_pi true demo_pipe ls s' /\ plk s' = None /\ pcs s' !! 0%nat = None /\
  sleeping (pk s') 1 (ChNread demo_pi) /\ contents (pipes (pk s') !!! demo_pi) <> [].
Proof.
  destruct running_0 as (_ & _ & _ & H5). destruct (demo_run true) as (ls & m & R & Hm & _).
  pose proof (pr_snoc _ _ _ _ _ _ _ R (st_kill demo_pi true dk4 _ _ 1 0 dk5 eq_refl ltac:(vm_compute; reflexivity))) as R1.
  pose proof (pr_snoc _ _ _ _ _ _ _ R1 (st_w_iter demo_pi true dk5 _ 0 0 2 1 WFail dk5 _ _ _ H5 Hm ltac:(done)
    ltac:(vm_compute; reflexivity) eq_refl)) as R2.
  eexists _, _. split; [apply demo_pipe_fresh|]. split; [exact R2|]. split; [done|]. split; [apply lookup_delete_eq|].
  split; [split; [vm_compute; lia|by vm_compute]|]. by vm_compute.
Qed.

(** Process 0 writes the byte at its address 0, and process 1 reads it to its address 100. *)
Definition ek1 : kst ram := final (awake 0) demo_k.
Definition ek2 : kst ram := final (pipewrite_iter 0 demo_pi 0 0) ek1.
Definition ek3 : kst ram := final (wakeup (Some 0%nat) (ChNread demo_pi)) ek2.
Definition ek4 : kst ram := final (awake 1) ek3.
Definition ek5 : kst ram := final (piperead_iter 1 demo_pi 100 0) ek4.

Lemma running_01 : running demo_k 0 /\ running ek1 0 /\ running ek2 0 /\ running ek3 1 /\ running ek4 1.
Proof. repeat split; vm_compute; try reflexivity; lia. Qed.

Lemma demo_transfer : exists m, pruns demo_pi false demo_pipe [Tau; Tau; Enq 42; Tau; Tau; Tau; Tau; Deq 42] (mk_psys ek5 (Some 1%nat) m).
Proof.
  destruct running_01 as (H0 & H1 & H2 & H3 & H4). pose proof (pr_nil demo_pi false demo_pipe) as R.
  pose proof (pr_snoc _ _ _ _ _ _ _ R (st_write demo_pi false demo_k None ∅ 0 0 1 H0 eq_refl)) as R1.
  pose proof (pr_snoc _ _ _ _ _ _ _ R1 (st_lock_w demo_pi false demo_k _ 0 0 1 0 ek1 H0 (lookup_insert_eq _ _ _) ltac:(eexists; vm_compute; reflexivity) eq_refl)) as R2.
  pose proof (pr_snoc _ _ _ _ _ _ _ R2 (st_w_iter demo_pi false ek1 _ 0 0 1 0 WNext ek2 _ _ _ H1 (lookup_insert_eq _ _ _) ltac:(done) ltac:(vm_compute; reflexivity) eq_refl)) as R3.
  pose proof (pr_snoc _ _ _ _ _ _ _ R3 (st_w_done demo_pi false ek2 _ 0 0 1 1 ek3 H2 (lookup_insert_eq _ _ _) ltac:(done) eq_refl)) as R4.
  match type of R4 with pruns _ _ _ _ (mk_psys _ _ ?m) => set (m4 := m) in R4; assert (m4 !! 1%nat = None) as Hm4 by (vm_compute; reflexivity); clearbody m4 end.
  pose proof (pr_snoc _ _ _ _ _ _ _ R4 (st_read demo_pi false ek3 None m4 1 100 1 H3 Hm4)) as R5.
  pose proof (pr_snoc _ _ _ _ _ _ _ R5 (st_lock_r demo_pi false ek3 _ 1 100 1 ek4 H3 (lookup_insert_eq _ _ _) ltac:(eexists; vm_compute; reflexivity) eq_refl)) as R6.
  pose proof (pr_snoc _ _ _ _ _ _ _ R6 (st_r_wait demo_pi false ek4 _ 1 100 1 RReady ek4 H4 (lookup_insert_eq _ _ _) ltac:(vm_compute; reflexivity))) as R7. cbn iota in R7.
  pose proof (pr_snoc _ _ _ _ _ _ _ R7 (st_r_iter demo_pi false ek4 _ 1 100 1 0 true ek5 _ _ _ H4 (lookup_insert_eq _ _ _) ltac:(done) ltac:(vm_compute; reflexivity) eq_refl)) as R8.
  match type of R8 with pruns _ _ _ ?ls _ => replace ls with [Tau; Tau; Enq 42; Tau; Tau; Tau; Tau; Deq 42] in R8 by (vm_compute; reflexivity) end. by eexists.
Qed.

Lemma pipe_fifo_witness : exists ls s', pruns demo_pi false demo_pipe ls s' /\ deqs ls = [42] /\ enqs ls = deqs ls ++ contents (pipes (pk s') !!! demo_pi).
Proof.
  destruct demo_transfer as [m R]. eexists _, _. split; [exact R|]. split; [reflexivity|].
  apply (pipe_fifo demo_pi false demo_pipe _ _ demo_pipe_fresh R). rewrite !not_elem_of_cons. split_and!; try done. apply not_elem_of_nil.
Defined.

Lemma pipe_no_lost_wakeup_witness : exists ls s', pruns demo_pi false demo_pipe ls s' /\ sleeping (pk s') 1 (ChNread demo_pi) /\
  contents (pipes (pk s') !!! demo_pi) = [].
Proof.
  destruct running_1 as [H0 H1]. pose proof (pr_nil demo_pi false demo_pipe) as R.
  pose proof (pr_snoc _ _ _ _ _ _ _ R (st_read demo_pi false demo_k None ∅ 1 0 1 H0 eq_refl)) as R1.
  pose proof (pr_snoc _ _ _ _ _ _ _ R1 (st_lock_r demo_pi false demo_k _ 1 0 1 dk1 H0 (lookup_insert_eq _ _ _)
    ltac:(eexists; vm_compute; reflexivity) eq_refl)) as R2.
  pose proof (pr_snoc _ _ _ _ _ _ _ R2 (st_r_wait demo_pi false dk1 _ 1 0 1 RSleep dk2 H1 (lookup_insert_eq _ _ _)
    ltac:(vm_compute; reflexivity))) as R3. cbn iota in R3.
  assert (sleeping dk2 1 (ChNread demo_pi)) as Hs by (split; [vm_compute; lia|by vm_compute]).
  eexists _, _. split; [exact R3|]. split; [exact Hs|].
  exact (proj1 (proj1 (pipe_no_lost_wakeup demo_pi _ _ _ demo_pipe_fresh R3 eq_refl) 1%nat Hs)).
Defined.
