(* ===== verification/File.v ===== *)
(** * Open files (kernel/file.c) and the creation of pipes (kernel/pipe.c)

    The global table of open files and the operations on one of them.  The
    functions of the devices, which [devsw] points to, are arguments. *)

From S2P Require Import Prelude Riscv Mem Kstring Kalloc Vm VmProc Bio Store Fs Kernel Proc Pipe.

Definition NFILEn : nat := Z.to_nat NFILE.

Section file.
Context `{Linker} `{Symbols} {St : Type} {ST : Store St}.
(** [devsw[major].read(1, addr, n)] and [write], where the table has one. *)
Context (devread devwrite : Z -> option (Z -> Z -> M (kst St) Z)).
Implicit Types (me f : nat).

Fixpoint find_free_file (k i : nat) (ft : list file) : option nat :=
  match k with
  | O => None
  | S k => if fref (ft !!! i) =? 0 then Some i else find_free_file k (S i) ft
  end.

Definition filealloc : M (kst St) (option nat) :=
  ft ← gets ftable;
  match find_free_file NFILEn 0 ft with
  | Some f => upd_file f (with_fref 1);; mret (Some f)
  | None => mret None
  end.

Definition filedup f : M (kst St) nat :=
  ff ← get_file f;
  if fref ff <? 1 then panic "filedup"
  else upd_file f (with_fref (to_int (fref ff + 1)));; mret f.

Definition fileclose me f : M (kst St) unit :=
  ff ← get_file f;
  if fref ff <? 1 then panic "fileclose"
  else
    upd_file f (with_fref (fref ff - 1));;
    if 0 <? fref ff - 1 then mret tt
    else
      upd_file f (fun x => with_ftyp FD_NONE (with_fref 0 x));;
      p ← get_proc me;
      match ftyp ff with
      | FD_PIPE => pipeclose me (fpipe ff) (fwritable ff)
      | FD_INODE | FD_DEVICE => begin_op_k;; on_fs (iput (ppid p) (fip ff));; end_op_k
      | FD_NONE => mret tt
      end.

(** [struct stat] in memory; [pad] is the four bytes the compiler leaves before [size]. *)
Definition stat_bytes (st : Z * Z * Z * Z * Z) (pad : list Z) : list Z :=
  let '(dev, ino, type, nlink, size) := st in
  le_bytes 4 dev ++ le_bytes 4 ino ++ le_bytes 2 type ++ le_bytes 2 nlink ++ pad ++ le_bytes 8 size.

Definition filestat me f (addr : Z) (pad : list Z) : M (kst St) Z :=
  p ← get_proc me;
  ff ← get_file f;
  match ftyp ff with
  | FD_INODE | FD_DEVICE =>
      on_fs (ilock (ppid p) (fip ff));;
      st ← on_fs (stati (fip ff));
      on_fs (iunlock (ppid p) (fip ff));;
      r ← on_mem_k (copyout (pagetable p) addr (stat_bytes st pad));
      if r <? 0 then mret (-1) else mret 0
  | _ => mret (-1)
  end.

Definition fileread me f (addr n : Z) : M (kst St) Z :=
  ff ← get_file f;
  if negb (freadable ff) then mret (-1)
  else
    match ftyp ff with
    | FD_PIPE => piperead me (fpipe ff) addr n
    | FD_DEVICE =>
        if (fmajor ff <? 0) || (NDEV <=? fmajor ff) then mret (-1)
        else match devread (fmajor ff) with None => mret (-1) | Some rd => rd addr n end
    | FD_INODE =>
        p ← get_proc me;
        on_fs (ilock (ppid p) (fip ff));;
        '(r, _) ← on_fs (readi (fip ff) (UDst (pagetable p) addr) (foff ff) (u32 n));
        (if 0 <? r then upd_file f (fun x => with_off (u32 (foff x + r)) x) else mret tt);;
        on_fs (iunlock (ppid p) (fip ff));;
        mret r
    | FD_NONE => panic "fileread"
    end.

Definition filewrite_max : Z := (MAXOPBLOCKS - 1 - 1 - 2) / 2 * BSIZE.

(** One pass of the loop: a transaction that writes [n1] bytes. *)
Definition filewrite_chunk me f (addr i n1 : Z) : M (kst St) Z :=
  p ← get_proc me;
  begin_op_k;;
  ff ← get_file f;
  on_fs (ilock (ppid p) (fip ff));;
  r ← on_fs (writei (fip ff) (USrc (pagetable p) (u64 (addr + i))) (foff ff) n1);
  (if 0 <? r then upd_file f (fun x => with_off (u32 (foff x + r)) x) else mret tt);;
  on_fs (iunlock (ppid p) (fip ff));;
  end_op_k;;
  mret r.

Fixpoint filewrite_loop (fuel : nat) me f (addr n i : Z) : M (kst St) Z :=
  match fuel with
  | O => diverge
  | S fuel =>
      if i <? n then
        let n1 := Z.min (n - i) filewrite_max in
        r ← filewrite_chunk me f addr i n1;
        if negb (r =? n1) then mret i else filewrite_loop fuel me f addr n (i + r)
      else mret i
  end.

Definition filewrite me f (addr n : Z) : M (kst St) Z :=
  ff ← get_file f;
  if negb (fwritable ff) then mret (-1)
  else
    match ftyp ff with
    | FD_PIPE => pipewrite me (fpipe ff) addr n
    | FD_DEVICE =>
        if (fmajor ff <? 0) || (NDEV <=? fmajor ff) then mret (-1)
        else match devwrite (fmajor ff) with None => mret (-1) | Some wr => wr addr n end
    | FD_INODE =>
        i ← filewrite_loop (S (Z.to_nat n)) me f addr n 0;
        mret (if i =? n then n else -1)
    | FD_NONE => panic "filewrite"
    end.

(** The [bad] exit of [pipealloc]. *)
Definition pipealloc_bad me (f0 f1 : option nat) : M (kst St) (option (nat * nat)) :=
  match f0 with Some f => fileclose me f | None => mret tt end;;
  match f1 with Some f => fileclose me f | None => mret tt end;;
  mret None.

(** The two files, or [None] for [return -1]. *)
Definition pipealloc me : M (kst St) (option (nat * nat)) :=
  f0 ← filealloc;
  match f0 with
  | None => pipealloc_bad me None None
  | Some r =>
      f1 ← filealloc;
      match f1 with
      | None => pipealloc_bad me (Some r) None
      | Some w =>
          pi ← on_mem_k kalloc;
          if pi =? 0 then pipealloc_bad me (Some r) (Some w)
          else
            set_pipe pi (mk_pipe (repeat 5 512) 0 0 true true);;
            upd_file r (with_pipe true false pi);;
            upd_file w (with_pipe false true pi);;
            mret (Some (r, w))
      end
  end.
End file.
