(* ===== verification/Fork.v ===== *)
(** * Fork and exit (kernel/proc.c)

    The operations of a process's life that reach into open files and the
    file system. *)

From S2P Require Import Prelude Riscv Mem Kstring Kalloc Vm VmProc Bio Store Fs Kernel Proc Pipe File.

Definition NOFILEn : nat := Z.to_nat NOFILE.

(** [safestrcpy] into [char name[16]], as the bytes before the NUL. *)
Definition name16 (l : list Z) : list Z := take 15 l.

Section fork.
Context `{Linker} `{Symbols} {St : Type} {ST : Store St}.
Implicit Types (me np : nat).

(** The child shares the parent's open files. *)
Fixpoint fork_files (k i : nat) me np : M (kst St) unit :=
  match k with
  | O => mret tt
  | S k =>
      p ← get_proc me;
      (match ofile p !!! i with
       | Some f => f' ← filedup f; upd_proc np (fun q => with_ofile (<[i := Some f']> (ofile q)) q)
       | None => mret tt
       end);;
      fork_files k (S i) me np
  end.

(** A process always has a current directory. *)
Definition fork me : M (kst St) Z :=
  r ← allocproc;
  match r with
  | None => mret (-1)
  | Some np =>
      p ← get_proc me;
      q ← get_proc np;
      r ← on_mem_k (uvmcopy (pagetable p) (pagetable q) (psz p));
      if r <? 0 then freeproc np;; mret (-1)
      else
        upd_proc np (with_psz (psz p));;
        on_mem_k (do_memmove (trapframe q) (trapframe p) tf_size);;
        tf_store np tf_a0 0;;
        fork_files NOFILEn 0 me np;;
        d ← (match cwd p with Some ip => d ← on_fs (idup ip); mret (Some d) | None => panic "kerneltrap" end);
        upd_proc np (with_cwd d);;
        upd_proc np (with_pname (name16 (pname p)));;
        q ← get_proc np;
        upd_proc np (with_parent (Some me));;
        upd_proc np (with_pstate RUNNABLE);;
        mret (ppid q)
  end.

Fixpoint exit_files (k fd : nat) me : M (kst St) unit :=
  match k with
  | O => mret tt
  | S k =>
      p ← get_proc me;
      (match ofile p !!! fd with
       | Some f => fileclose me f;; upd_proc me (fun p => with_ofile (<[fd := None]> (ofile p)) p)
       | None => mret tt
       end);;
      exit_files k (S fd) me
  end.

(** The part of [exit] under [wait_lock], up to [sched]. *)
Definition exit_locked me (status : Z) : M (kst St) unit :=
  reparent me;;
  p ← get_proc me;
  match parent p with Some q => wakeup (Some me) (ChProc q) | None => mret tt end;;
  upd_proc me (fun p => with_pstate ZOMBIE (with_xstate status p)).

(** Up to [sched], from which it does not come back. *)
Definition exit me (status : Z) : M (kst St) unit :=
  ip ← gets initproc;
  if decide (ip = Some me) then panic "init exiting"
  else
    exit_files NOFILEn 0 me;;
    begin_op_k;;
    p ← get_proc me;
    match cwd p with Some d => on_fs (iput (ppid p) d) | None => panic "kerneltrap" end;;
    end_op_k;;
    upd_proc me (with_cwd None);;
    exit_locked me status.
End fork.
