(* ===== verification/Syscall.v ===== *)
(** * System call arguments (kernel/syscall.c) and calls without files (kernel/sysproc.c) *)

From S2P Require Import Prelude Riscv Mem Kstring Kalloc Vm VmProc Bio Store Fs Kernel Proc Pipe File Fork.

Section syscall.
Context `{Linker} `{Symbols} {St : Type} {ST : Store St}.
Implicit Types (me : nat).

(** The word, or [None] for [-1]. *)
Definition fetchaddr me (addr : Z) : M (kst St) (option Z) :=
  p ← get_proc me;
  if (psz p <=? addr) || (psz p <? u64 (addr + 8)) then mret None
  else
    '(r, b) ← on_mem_k (copyin (pagetable p) addr 8);
    if negb (r =? 0) then mret None else mret (Some (le_val b)).

(** The bytes before the NUL, or [None] for [-1]; the C result is their number. *)
Definition fetchstr me (addr max : Z) : M (kst St) (option (list Z)) :=
  p ← get_proc me;
  '(r, b) ← on_mem_k (copyinstr (pagetable p) addr max);
  if r <? 0 then mret None else mret (Some (removelast b)).

Definition argraw me (n : Z) : M (kst St) Z :=
  if (0 <=? n) && (n <=? 5) then tf_load me (tf_a0 + 8 * n) else panic "argraw".

Definition argint me (n : Z) : M (kst St) Z := v ← argraw me n; mret (to_int v).
Definition argaddr me (n : Z) : M (kst St) Z := argraw me n.
Definition argstr me (n max : Z) : M (kst St) (option (list Z)) := addr ← argaddr me n; fetchstr me addr max.

(** ** Process calls.  A call that leaves the CPU for good returns [None]. *)

Definition sys_exit me : M (kst St) (option Z) := n ← argint me 0; exit me n;; mret None.
Definition sys_getpid me : M (kst St) (option Z) := p ← get_proc me; mret (Some (ppid p)).
Definition sys_fork me : M (kst St) (option Z) := r ← fork me; mret (Some r).

(** A call that has to sleep is [diverge] here. *)
Definition sys_wait me : M (kst St) (option Z) :=
  a ← argaddr me 0;
  r ← wait_pass me a;
  match r with Some v => mret (Some v) | None => diverge end.

Definition sys_sbrk me : M (kst St) (option Z) :=
  n ← argint me 0;
  p ← get_proc me;
  r ← growproc me n;
  if r <? 0 then mret (Some (-1)) else mret (Some (psz p)).

(** One turn of [sys_sleep]'s loop: [Some] when it returns, [None] when it sleeps.
    [ticks - ticks0 < n] compares unsigned. *)
Definition sleep_pass me (ticks0 n : Z) : M (kst St) (option Z) :=
  t ← gets kticks;
  if u32 (t - ticks0) <? n then
    k ← killed me;
    if k : bool then mret (Some (-1)) else sleep me ChTicks;; mret None
  else mret (Some 0).

Definition sys_sleep me : M (kst St) (option Z) :=
  n ← argint me 0;
  let n := if n <? 0 then 0 else n in
  ticks0 ← gets kticks;
  r ← sleep_pass me ticks0 n;
  match r with Some v => mret (Some v) | None => diverge end.

Definition sys_kill me : M (kst St) (option Z) := pid ← argint me 0; r ← kill pid; mret (Some r).
Definition sys_uptime me : M (kst St) (option Z) := t ← gets kticks; mret (Some t).

(** The timer interrupt (trap.c). *)
Definition clockintr (me : option nat) : M (kst St) unit :=
  modify (fun s => set_ticks (u32 (kticks s + 1)) s);; wakeup me ChTicks.
End syscall.
