(* ===== verification/Sysfile.v ===== *)
(** * File system calls (kernel/sysfile.c) *)

From S2P Require Import Prelude Riscv Mem Kstring Kalloc Vm VmProc Block Bio Store Fs Kernel Proc Pipe File Fork Syscall.

(** Open modes (fcntl.h). *)
Definition O_RDONLY : Z := 0x000.
Definition O_WRONLY : Z := 0x001.
Definition O_RDWR : Z := 0x002.
Definition O_CREATE : Z := 0x200.
Definition O_TRUNC : Z := 0x400.

Definition DOT : list Z := [46].
Definition DOTDOT : list Z := [46; 46].

Section sysfile.
Context `{Linker} `{Symbols} {St : Type} {ST : Store St}.
Context (devread devwrite : Z -> option (Z -> Z -> M (kst St) Z)).
Implicit Types (me ip dp f : nat).

(** The descriptor and its file, or [None] for [-1]. *)
Definition argfd me (n : Z) : M (kst St) (option (nat * nat)) :=
  fd ← argint me n;
  p ← get_proc me;
  if (fd <? 0) || (NOFILE <=? fd) then mret None
  else mret (f ← ofile p !!! Z.to_nat fd; Some (Z.to_nat fd, f)).

Fixpoint find_fd (k fd : nat) (l : list (option nat)) : option nat :=
  match k with
  | O => None
  | S k => match l !!! fd with None => Some fd | Some _ => find_fd k (S fd) l end
  end.

Definition fdalloc me f : M (kst St) (option nat) :=
  p ← get_proc me;
  match find_fd NOFILEn 0 (ofile p) with
  | Some fd => upd_proc me (fun p => with_ofile (<[fd := Some f]> (ofile p)) p);; mret (Some fd)
  | None => mret None
  end.

Definition clear_fd me (fd : nat) : M (kst St) unit :=
  upd_proc me (fun p => with_ofile (<[fd := None]> (ofile p)) p).

Definition sys_dup me : M (kst St) Z :=
  r ← argfd me 0;
  match r with
  | None => mret (-1)
  | Some (_, f) =>
      fd ← fdalloc me f;
      match fd with
      | None => mret (-1)
      | Some fd => filedup f;; mret (Z.of_nat fd)
      end
  end.

Definition sys_read me : M (kst St) Z :=
  p ← argaddr me 1;
  n ← argint me 2;
  r ← argfd me 0;
  match r with None => mret (-1) | Some (_, f) => fileread devread me f p n end.

Definition sys_write me : M (kst St) Z :=
  p ← argaddr me 1;
  n ← argint me 2;
  r ← argfd me 0;
  match r with None => mret (-1) | Some (_, f) => filewrite devwrite me f p n end.

Definition sys_close me : M (kst St) Z :=
  r ← argfd me 0;
  match r with
  | None => mret (-1)
  | Some (fd, f) => clear_fd me fd;; fileclose me f;; mret 0
  end.

Definition sys_fstat me (pad : list Z) : M (kst St) Z :=
  st ← argaddr me 1;
  r ← argfd me 0;
  match r with None => mret (-1) | Some (_, f) => filestat me f st pad end.

(** ** Links *)

(** What [me] passes to the file system: its pid and its directory. *)
Definition pid_cwd me : M (kst St) (Z * nat) :=
  p ← get_proc me; match cwd p with Some d => mret (ppid p, d) | None => panic "kerneltrap" end.

(** The [bad] exit of [sys_link]. *)
Definition link_bad (pid : Z) ip : M (kst St) Z :=
  on_fs (ilock pid ip;; upd_inode ip (fun i => with_nlink (to_short (nlink i - 1)) i);; iupdate ip;; iunlockput pid ip);;
  end_op_k;;
  mret (-1).

Definition sys_link me : M (kst St) Z :=
  old ← argstr me 0 MAXPATH;
  match old with
  | None => mret (-1)
  | Some old =>
    new ← argstr me 1 MAXPATH;
    match new with
    | None => mret (-1)
    | Some new =>
      begin_op_k;;
      '(pid, d) ← pid_cwd me;
      r ← on_fs (namei pid d old);
      match r with
      | None => end_op_k;; mret (-1)
      | Some ip =>
        on_fs (ilock pid ip);;
        i ← on_fs (get_inode ip);
        if itype i =? T_DIR then on_fs (iunlockput pid ip);; end_op_k;; mret (-1)
        else
          on_fs (upd_inode ip (fun i => with_nlink (to_short (nlink i + 1)) i);; iupdate ip;; iunlock pid ip);;
          '(r, name) ← on_fs (nameiparent pid d new (repeat 0 DIRSIZ));
          match r with
          | None => link_bad pid ip
          | Some dp =>
            on_fs (ilock pid dp);;
            di ← on_fs (get_inode dp);
            i ← on_fs (get_inode ip);
            r ← (if negb (idev di =? idev i) then mret (-1) else on_fs (dirlink pid dp name (inum i)));
            if r <? 0 then on_fs (iunlockput pid dp);; link_bad pid ip
            else
              on_fs (iunlockput pid dp);;
              on_fs (iput pid ip);;
              end_op_k;;
              mret 0
          end
      end
    end
  end.

(** The scan of [isdirempty], from entry [off / 16]. *)
Fixpoint isdirempty_loop (k : nat) dp (off : Z) : M (fsst St) bool :=
  match k with
  | O => mret true
  | S k =>
      '(r, de) ← readi dp KBuf off 16;
      if negb (r =? 16) then panic "isdirempty: readi"
      else if negb (rd 2 de 0 =? 0) then mret false
      else isdirempty_loop k dp (off + 16)
  end.

(** Iterations of [for(off = 2*sizeof(de); off < dp->size; ...)]. *)
Definition isdirempty dp : M (fsst St) bool :=
  i ← get_inode dp; isdirempty_loop (ndirents (isize i) - 2) dp 32.

(** The [bad] exit of [sys_unlink]. *)
Definition unlink_bad (pid : Z) dp : M (kst St) Z := on_fs (iunlockput pid dp);; end_op_k;; mret (-1).

(** After [ip] was found in [dp] at [off], both locked. *)
Definition unlink_found (pid : Z) dp ip (off : Z) : M (kst St) Z :=
  i ← on_fs (get_inode ip);
  if nlink i <? 1 then panic "unlink: nlink < 1"
  else
    empty ← (if itype i =? T_DIR then on_fs (isdirempty ip) else mret true);
    if negb empty then on_fs (iunlockput pid ip);; unlink_bad pid dp
    else
      r ← on_fs (writei dp (KSrc (repeat 0 16)) off 16);
      if negb (r =? 16) then panic "unlink: writei"
      else
        (if itype i =? T_DIR then
           on_fs (upd_inode dp (fun d => with_nlink (to_short (nlink d - 1)) d);; iupdate dp)
         else mret tt);;
        on_fs (iunlockput pid dp);;
        on_fs (upd_inode ip (fun i => with_nlink (to_short (nlink i - 1)) i);; iupdate ip;; iunlockput pid ip);;
        end_op_k;;
        mret 0.

Definition sys_unlink me : M (kst St) Z :=
  path ← argstr me 0 MAXPATH;
  match path with
  | None => mret (-1)
  | Some path =>
      begin_op_k;;
      '(pid, d) ← pid_cwd me;
      '(r, name) ← on_fs (nameiparent pid d path (repeat 0 DIRSIZ));
      match r with
      | None => end_op_k;; mret (-1)
      | Some dp =>
          on_fs (ilock pid dp);;
          if (namecmp name DOT =? 0) || (namecmp name DOTDOT =? 0) then unlink_bad pid dp
          else
            r ← on_fs (dirlookup dp name);
            match r with
            | None => unlink_bad pid dp
            | Some (ip, off) => on_fs (ilock pid ip);; unlink_found pid dp ip off
            end
      end
  end.

(** ** Creating and opening *)

(** The [fail] exit of [create]. *)
Definition create_fail (pid : Z) ip dp : M (fsst St) (option nat) :=
  upd_inode ip (with_nlink 0);; iupdate ip;; iunlockput pid ip;; iunlockput pid dp;; mret None.

(** A new inode in [dp], both locked. *)
Definition create_new (pid : Z) dp (name : list Z) (type major minor : Z) : M (fsst St) (option nat) :=
  d ← get_inode dp;
  r ← ialloc (idev d) type;
  match r with
  | None => iunlockput pid dp;; mret None
  | Some ip =>
      ilock pid ip;;
      upd_inode ip (fun i => with_nlink 1 (with_dev major minor i));;
      iupdate ip;;
      i ← get_inode ip;
      d ← get_inode dp;
      r ← (if type =? T_DIR then
             r ← dirlink pid ip DOT (inum i);
             if r <? 0 then mret (-1) else dirlink pid ip DOTDOT (inum d)
           else mret 0);
      if r <? 0 then create_fail pid ip dp
      else
        r ← dirlink pid dp name (inum i);
        if r <? 0 then create_fail pid ip dp
        else
          (if type =? T_DIR then
             upd_inode dp (fun d => with_nlink (to_short (nlink d + 1)) d);; iupdate dp
           else mret tt);;
          iunlockput pid dp;;
          mret (Some ip)
  end.

Definition create (pid : Z) (d : nat) (path : list Z) (type major minor : Z) : M (fsst St) (option nat) :=
  '(r, name) ← nameiparent pid d path (repeat 0 DIRSIZ);
  match r with
  | None => mret None
  | Some dp =>
      ilock pid dp;;
      r ← dirlookup dp name;
      match r with
      | Some (ip, _) =>
          iunlockput pid dp;;
          ilock pid ip;;
          i ← get_inode ip;
          if (type =? T_FILE) && ((itype i =? T_FILE) || (itype i =? T_DEVICE)) then mret (Some ip)
          else iunlockput pid ip;; mret None
      | None => create_new pid dp name type major minor
      end
  end.

(** A bit of [omode]. *)
Definition omode_has (omode flag : Z) : bool := negb (Z.land omode flag =? 0).

(** Leave [sys_open] with [ip] locked. *)
Definition open_fail (pid : Z) ip : M (kst St) Z := on_fs (iunlockput pid ip);; end_op_k;; mret (-1).

(** The inode to open, locked, or [None] after [end_op]. *)
Definition open_inode (pid : Z) (d : nat) (path : list Z) (omode : Z) : M (kst St) (option nat) :=
  if omode_has omode O_CREATE then
    r ← on_fs (create pid d path T_FILE 0 0);
    match r with None => end_op_k;; mret None | Some ip => mret (Some ip) end
  else
    r ← on_fs (namei pid d path);
    match r with
    | None => end_op_k;; mret None
    | Some ip =>
        on_fs (ilock pid ip);;
        i ← on_fs (get_inode ip);
        if (itype i =? T_DIR) && negb (omode =? O_RDONLY) then
          on_fs (iunlockput pid ip);; end_op_k;; mret None
        else mret (Some ip)
    end.

(** [f] becomes an open file of [ip]. *)
Definition open_file (pid : Z) ip f (omode : Z) : M (kst St) unit :=
  i ← on_fs (get_inode ip);
  (if itype i =? T_DEVICE then upd_file f (fun x => with_fmajor (imajor i) (with_ftyp FD_DEVICE x))
   else upd_file f (fun x => with_off 0 (with_ftyp FD_INODE x)));;
  upd_file f (with_fip (negb (omode_has omode O_WRONLY)) (omode_has omode O_WRONLY || omode_has omode O_RDWR) ip);;
  (if omode_has omode O_TRUNC && (itype i =? T_FILE) then on_fs (itrunc ip) else mret tt);;
  on_fs (iunlock pid ip);;
  end_op_k.

Definition sys_open me : M (kst St) Z :=
  omode ← argint me 1;
  path ← argstr me 0 MAXPATH;
  match path with
  | None => mret (-1)
  | Some path =>
      begin_op_k;;
      '(pid, d) ← pid_cwd me;
      r ← open_inode pid d path omode;
      match r with
      | None => mret (-1)
      | Some ip =>
          i ← on_fs (get_inode ip);
          if (itype i =? T_DEVICE) && ((imajor i <? 0) || (NDEV <=? imajor i)) then open_fail pid ip
          else
            f ← filealloc;
            match f with
            | None => open_fail pid ip
            | Some f =>
                fd ← fdalloc me f;
                match fd with
                | None => fileclose me f;; open_fail pid ip
                | Some fd => open_file pid ip f omode;; mret (Z.of_nat fd)
                end
            end
      end
  end.

(** [sys_mkdir] and [sys_mknod] after their arguments. *)
Definition make_node me (path : option (list Z)) (type major minor : Z) : M (kst St) Z :=
  '(pid, d) ← pid_cwd me;
  r ← (match path with None => mret None | Some path => on_fs (create pid d path type major minor) end);
  match r with
  | None => end_op_k;; mret (-1)
  | Some ip => on_fs (iunlockput pid ip);; end_op_k;; mret 0
  end.

Definition sys_mkdir me : M (kst St) Z :=
  begin_op_k;;
  path ← argstr me 0 MAXPATH;
  make_node me path T_DIR 0 0.

Definition sys_mknod me : M (kst St) Z :=
  begin_op_k;;
  major ← argint me 1;
  minor ← argint me 2;
  path ← argstr me 0 MAXPATH;
  make_node me path T_DEVICE (to_short major) (to_short minor).

Definition sys_chdir me : M (kst St) Z :=
  begin_op_k;;
  path ← argstr me 0 MAXPATH;
  '(pid, d) ← pid_cwd me;
  r ← (match path with None => mret None | Some path => on_fs (namei pid d path) end);
  match r with
  | None => end_op_k;; mret (-1)
  | Some ip =>
      on_fs (ilock pid ip);;
      i ← on_fs (get_inode ip);
      if negb (itype i =? T_DIR) then on_fs (iunlockput pid ip);; end_op_k;; mret (-1)
      else
        on_fs (iunlock pid ip);;
        on_fs (iput pid d);;
        end_op_k;;
        upd_proc me (with_cwd (Some ip));;
        mret 0
  end.

(** ** Pipes *)

(** Undo: drop the descriptors and both files. *)
Definition pipe_undo me (fd0 fd1 : option nat) (rf wf : nat) : M (kst St) Z :=
  match fd0 with Some fd => clear_fd me fd | None => mret tt end;;
  match fd1 with Some fd => clear_fd me fd | None => mret tt end;;
  fileclose me rf;;
  fileclose me wf;;
  mret (-1).

Definition sys_pipe me : M (kst St) Z :=
  fdarray ← argaddr me 0;
  r ← pipealloc me;
  match r with
  | None => mret (-1)
  | Some (rf, wf) =>
      fd0 ← fdalloc me rf;
      match fd0 with
      | None => pipe_undo me None None rf wf
      | Some fd0 =>
          fd1 ← fdalloc me wf;
          match fd1 with
          | None => pipe_undo me (Some fd0) None rf wf
          | Some fd1 =>
              p ← get_proc me;
              r ← on_mem_k (copyout (pagetable p) fdarray (le_bytes 4 fd0));
              if r <? 0 then pipe_undo me (Some fd0) (Some fd1) rf wf
              else
                r ← on_mem_k (copyout (pagetable p) (u64 (fdarray + 4)) (le_bytes 4 fd1));
                if r <? 0 then pipe_undo me (Some fd0) (Some fd1) rf wf else mret 0
          end
      end
  end.
End sysfile.
