(* ===== verification/Exec.v ===== *)
(** * Exec (kernel/exec.c, kernel/elf.h) and its system call (kernel/sysfile.c)

    Replacing a process's memory by a program: a new page table is built and
    loaded, the arguments are pushed, and only then does the process change
    over to it. *)

From S2P Require Import Prelude Riscv Mem Kstring Kalloc Vm VmProc Block Bio Store Fs Kernel Proc Pipe File Fork Syscall Sysfile.

Definition ELF_MAGIC : Z := 0x464C457F.
Definition ELF_PROG_LOAD : Z := 1.

(** The fields of [struct elfhdr] that [exec] uses, by offset; its size. *)
Definition elf_magic (e : list Z) : Z := rd 4 e 0.
Definition elf_entry (e : list Z) : Z := rd 8 e 24.
Definition elf_phoff (e : list Z) : Z := rd 8 e 32.
Definition elf_phnum (e : list Z) : Z := rd 2 e 56.
Definition elfhdr_size : Z := 64.

(** [struct proghdr]. *)
Definition ph_type (h : list Z) : Z := rd 4 h 0.
Definition ph_flags (h : list Z) : Z := rd 4 h 4.
Definition ph_off (h : list Z) : Z := rd 8 h 8.
Definition ph_vaddr (h : list Z) : Z := rd 8 h 16.
Definition ph_filesz (h : list Z) : Z := rd 8 h 32.
Definition ph_memsz (h : list Z) : Z := rd 8 h 40.
Definition proghdr_size : Z := 56.

Definition flags2perm (flags : Z) : Z :=
  let perm := if negb (Z.land flags 0x1 =? 0) then PTE_X else 0 in
  if negb (Z.land flags 0x2 =? 0) then Z.lor perm PTE_W else perm.

(** The part of the path after the last slash. *)
Fixpoint last_elem (path last : list Z) : list Z :=
  match path with
  | [] => last
  | c :: path => last_elem path (if c =? SLASH then path else last)
  end.

Section exec.
Context `{Linker} `{Symbols} {St : Type} {ST : Store St}.
Implicit Types (me ip : nat).

(** Each iteration reads at most a page of the segment to the page mapped at [va + i]. *)
Fixpoint loadseg_loop (fuel : nat) (pt va : Z) ip (offset sz i : Z) : M (kst St) Z :=
  match fuel with
  | O => diverge
  | S fuel =>
      if i <? sz then
        pa ← on_mem_k (walkaddr pt (u64 (va + i)));
        if pa =? 0 then panic "loadseg: address should exist"
        else
          let n := if sz - i <? PGSIZE then sz - i else PGSIZE in
          '(r, bs) ← on_fs (readi ip KBuf (u32 (offset + i)) n);
          on_mem_k (store_bytes pa bs);;
          if negb (u32 r =? n) then mret (-1)
          else loadseg_loop fuel pt va ip offset sz (u32 (i + PGSIZE))
      else mret 0
  end.

Definition loadseg (pt va : Z) ip (offset sz : Z) : M (kst St) Z :=
  loadseg_loop (S (Z.to_nat ((sz + PGSIZE - 1) / PGSIZE))) pt va ip offset sz 0.

(** The program headers: whether all were loaded, and the size reached. *)
Fixpoint load_segments (k : nat) (pt : Z) ip (off sz : Z) : M (kst St) (bool * Z) :=
  match k with
  | O => mret (true, sz)
  | S k =>
      '(r, ph) ← on_fs (readi ip KBuf (u32 off) proghdr_size);
      if negb (r =? proghdr_size) then mret (false, sz)
      else if negb (ph_type ph =? ELF_PROG_LOAD) then load_segments k pt ip (to_int (off + proghdr_size)) sz
      else if ph_memsz ph <? ph_filesz ph then mret (false, sz)
      else if u64 (ph_vaddr ph + ph_memsz ph) <? ph_vaddr ph then mret (false, sz)
      else if negb (ph_vaddr ph mod PGSIZE =? 0) then mret (false, sz)
      else
        sz1 ← on_mem_k (uvmalloc pt sz (u64 (ph_vaddr ph + ph_memsz ph)) (flags2perm (ph_flags ph)));
        if sz1 =? 0 then mret (false, sz)
        else
          r ← loadseg pt (ph_vaddr ph) ip (u32 (ph_off ph)) (u32 (ph_filesz ph));
          if r <? 0 then mret (false, sz1)
          else load_segments k pt ip (to_int (off + proghdr_size)) sz1
  end.

(** The argument strings, from the top of the stack down: the stack pointer
    and their addresses.  [sys_exec] passes fewer than [MAXARG]. *)
Fixpoint push_args (argv : list (list Z)) (pt sp stackbase : Z) (ustack : list Z) : M (kst St) (option (Z * list Z)) :=
  match argv with
  | [] => mret (Some (sp, ustack))
  | a :: argv =>
      if MAXARG <=? length ustack then mret None
      else
        let sp := u64 (sp - (length a + 1)) in
        let sp := sp - sp mod 16 in
        if sp <? stackbase then mret None
        else
          r ← on_mem_k (copyout pt sp (a ++ [0]));
          if r <? 0 then mret None else push_args argv pt sp stackbase (ustack ++ [sp])
  end.

(** The [bad] exits, with and without [ip]. *)
Definition exec_bad_ip (pid : Z) (pt sz : Z) ip : M (kst St) Z :=
  (if negb (pt =? 0) then on_mem_k (proc_freepagetable pt sz) else mret tt);;
  on_fs (iunlockput pid ip);;
  end_op_k;;
  mret (-1).
Definition exec_bad (pt sz : Z) : M (kst St) Z := on_mem_k (proc_freepagetable pt sz);; mret (-1).

(** The process changes over to the new image. *)
Definition exec_commit me (path : list Z) (pt sz sp entry : Z) : M (kst St) unit :=
  p ← get_proc me;
  tf_store me tf_a1 sp;;
  upd_proc me (with_pname (name16 (last_elem path path)));;
  upd_proc me (fun p => with_psz sz (with_pagetable pt p));;
  tf_store me tf_epc entry;;
  tf_store me tf_sp sp;;
  on_mem_k (proc_freepagetable (pagetable p) (psz p)).

(** The stack and the arguments, after the segments were loaded up to [sz]. *)
Definition exec_stack me (path : list Z) (argv : list (list Z)) (pt sz entry : Z) : M (kst St) Z :=
  let sz := PGROUNDUP sz in
  sz1 ← on_mem_k (uvmalloc pt sz (u64 (sz + 2 * PGSIZE)) PTE_W);
  if sz1 =? 0 then exec_bad pt sz
  else
    on_mem_k (uvmclear pt (u64 (sz1 - 2 * PGSIZE)));;
    let stackbase := u64 (sz1 - PGSIZE) in
    r ← push_args argv pt sz1 stackbase [];
    match r with
    | None => exec_bad pt sz1
    | Some (top, ustack) =>
        let argc := Z.of_nat (length ustack) in
        let sp := u64 (top - (argc + 1) * 8) in
        let sp := sp - sp mod 16 in
        if sp <? stackbase then exec_bad pt sz1
        else
          r ← on_mem_k (copyout pt sp (concat (map (le_bytes 8) (ustack ++ [0]))));
          if r <? 0 then exec_bad pt sz1
          else exec_commit me path pt sz1 sp entry;; mret argc
    end.

Definition exec me (path : list Z) (argv : list (list Z)) : M (kst St) Z :=
  begin_op_k;;
  '(pid, d) ← pid_cwd me;
  r ← on_fs (namei pid d path);
  match r with
  | None => end_op_k;; mret (-1)
  | Some ip =>
      on_fs (ilock pid ip);;
      '(r, elf) ← on_fs (readi ip KBuf 0 elfhdr_size);
      if negb (r =? elfhdr_size) then exec_bad_ip pid 0 0 ip
      else if negb (elf_magic elf =? ELF_MAGIC) then exec_bad_ip pid 0 0 ip
      else
        p ← get_proc me;
        pt ← on_mem_k (proc_pagetable (trapframe p));
        if pt =? 0 then exec_bad_ip pid 0 0 ip
        else
          '(ok, sz) ← load_segments (Z.to_nat (elf_phnum elf)) pt ip (to_int (elf_phoff elf)) 0;
          if negb ok then exec_bad_ip pid pt sz ip
          else
            on_fs (iunlockput pid ip);;
            end_op_k;;
            exec_stack me path argv pt sz (elf_entry elf)
  end.

(** ** The system call *)

Fixpoint free_args (pages : list Z) : M (kst St) unit :=
  match pages with [] => mret tt | a :: l => on_mem_k (kfree a);; free_args l end.

(** The strings of the user's [argv], each fetched into a page of its own; the
    pages in use, and whether the array was read to its end. *)
Fixpoint fetch_args (k : nat) me (uargv i : Z) (pages : list Z) (argv : list (list Z)) : M (kst St) (bool * list Z * list (list Z)) :=
  match k with
  | O => mret (false, pages, argv)
  | S k =>
      r ← fetchaddr me (u64 (uargv + 8 * i));
      match r with
      | None => mret (false, pages, argv)
      | Some uarg =>
          if uarg =? 0 then mret (true, pages, argv)
          else
            pa ← on_mem_k kalloc;
            if pa =? 0 then mret (false, pages, argv)
            else
              r ← fetchstr me uarg PGSIZE;
              match r with
              | None => mret (false, pages ++ [pa], argv)
              | Some a =>
                  on_mem_k (store_bytes pa (a ++ [0]));;
                  fetch_args k me uargv (i + 1) (pages ++ [pa]) (argv ++ [a])
              end
      end
  end.

Definition sys_exec me : M (kst St) Z :=
  uargv ← argaddr me 1;
  path ← argstr me 0 MAXPATH;
  match path with
  | None => mret (-1)
  | Some path =>
      '(ok, pages, argv) ← fetch_args (Z.to_nat MAXARG) me uargv 0 [] [];
      if ok : bool then
        ret ← exec me path argv;
        free_args pages;;
        mret ret
      else free_args pages;; mret (-1)
  end.
End exec.
