(* ===== verification/Trap.v ===== *)
(** * System call dispatch (kernel/syscall.c) and traps (kernel/trap.c)

    A trap on one CPU: the kernel state, and the control registers of the
    CPU.  [plic_claim]'s answer is an input, and the interrupt handlers of
    the UART and the disk are arguments, as are the device functions of
    file.c.  The messages printed for unknown traps are left out. *)

From S2P Require Import Prelude Riscv Mem Kstring Kalloc Vm VmProc Block Bio Store Fs Kernel Proc Pipe File Fork Syscall Sysfile Exec.

Definition UART0_IRQ : Z := 10.
Definition VIRTIO0_IRQ : Z := 1.

(** The kernel and the registers of this CPU. *)
Record tst (St : Type) := mk_tst { tk : kst St; th : hart }.
Arguments mk_tst {_}.
Arguments tk {_}.
Arguments th {_}.

Section trap.
Context `{Linker} `{Symbols} {St : Type} {ST : Store St}.
Context (devread devwrite : Z -> option (Z -> Z -> M (kst St) Z)) (pad : list Z).
Implicit Types (me : nat).

(** ** [syscall] *)

Definition returns (c : M (kst St) Z) : M (kst St) (option Z) := v ← c; mret (Some v).

(** The table [syscalls]. *)
Definition syscalls (me : nat) (num : Z) : option (M (kst St) (option Z)) :=
  match num with
  | 1 => Some (sys_fork me)
  | 2 => Some (sys_exit me)
  | 3 => Some (sys_wait me)
  | 4 => Some (returns (sys_pipe me))
  | 5 => Some (returns (sys_read devread me))
  | 6 => Some (sys_kill me)
  | 7 => Some (returns (sys_exec me))
  | 8 => Some (returns (sys_fstat me pad))
  | 9 => Some (returns (sys_chdir me))
  | 10 => Some (returns (sys_dup me))
  | 11 => Some (sys_getpid me)
  | 12 => Some (sys_sbrk me)
  | 13 => Some (sys_sleep me)
  | 14 => Some (sys_uptime me)
  | 15 => Some (returns (sys_open me))
  | 16 => Some (returns (sys_write devwrite me))
  | 17 => Some (returns (sys_mknod me))
  | 18 => Some (returns (sys_unlink me))
  | 19 => Some (returns (sys_link me))
  | 20 => Some (returns (sys_mkdir me))
  | 21 => Some (returns (sys_close me))
  | _ => None
  end.

(** Whether the process comes back from the call. *)
Definition syscall me : M (kst St) bool :=
  a7 ← tf_load me tf_a7;
  match syscalls me (to_int a7) with
  | Some c =>
      r ← c;
      match r with Some v => tf_store me tf_a0 (u64 v);; mret true | None => mret false end
  | None => tf_store me tf_a0 (u64 (-1));; mret true
  end.

(** ** Traps *)

Definition on_k {A} (c : M (kst St) A) : M (tst St) A := zoom tk (fun k s => mk_tst k (th s)) c.
Definition on_h {A} (c : M hart A) : M (tst St) A := zoom th (fun h s => mk_tst (tk s) h) c.

Context (uartintr virtio_disk_intr : M (kst St) unit).

(** [irq] is what [plic_claim] returns; [cpu] is [cpuid()]; [cur] is [myproc()].
    The result is 2 for a timer interrupt, 1 for another device, 0 if not recognised. *)
Definition devintr (cpu : Z) (cur : option nat) (irq : Z) : M (tst St) Z :=
  c ← on_h r_scause;
  if negb (Z.land c 0x8000000000000000 =? 0) && (Z.land c 0xff =? 9) then
    (if irq =? UART0_IRQ then on_k uartintr
     else if irq =? VIRTIO0_IRQ then on_k virtio_disk_intr
     else mret tt);;
    mret 1
  else if c =? 0x8000000000000001 then
    (if cpu =? 0 then on_k (clockintr cur) else mret tt);;
    x ← on_h r_sip;
    on_h (w_sip (Z.land x (Z.lnot 2)));;
    mret 2
  else mret 0.

(** Back to user space: what the registers and the trapframe hold when
    [userret] is entered, and the [satp] it is passed. *)
Definition usertrapret me : M (tst St) Z :=
  on_h intr_off;;
  on_h (w_stvec (u64 (TRAMPOLINE + (uservec_addr - trampoline))));;
  ks ← on_h r_satp;
  on_k (tf_store me tf_kernel_satp ks);;
  p ← on_k (get_proc me);
  on_k (tf_store me tf_kernel_sp (u64 (kstack p + PGSIZE)));;
  on_k (tf_store me tf_kernel_trap usertrap_addr);;
  hid ← on_h r_tp;
  on_k (tf_store me tf_kernel_hartid hid);;
  x ← on_h r_sstatus;
  on_h (w_sstatus (Z.lor (Z.land x (Z.lnot SSTATUS_SPP)) SSTATUS_SPIE));;
  epc ← on_k (tf_load me tf_epc);
  on_h (w_sepc epc);;
  mret (MAKE_SATP (pagetable p)).

(** How [usertrap] ends: back to user space, given up the CPU first, or exited. *)
Inductive trap_end := Resumed (satp : Z) | Yielded | Exited.

(** [yield] up to [sched]. *)
Definition yield me : M (kst St) unit := upd_proc me (with_pstate RUNNABLE).

(** The tests after the trap was handled. *)
Definition usertrap_tail me (which_dev : Z) : M (tst St) trap_end :=
  k ← on_k (killed me);
  if k : bool then on_k (exit me (-1));; mret Exited
  else if which_dev =? 2 then on_k (yield me);; mret Yielded
  else satp ← usertrapret me; mret (Resumed satp).

Definition usertrap (cpu irq : Z) me : M (tst St) trap_end :=
  x ← on_h r_sstatus;
  if has x SSTATUS_SPP then panic "usertrap: not from user mode"
  else
    on_h (w_stvec kernelvec_addr);;
    epc ← on_h r_sepc;
    on_k (tf_store me tf_epc epc);;
    c ← on_h r_scause;
    if c =? 8 then
      k ← on_k (killed me);
      if k : bool then on_k (exit me (-1));; mret Exited
      else
        epc ← on_k (tf_load me tf_epc);
        on_k (tf_store me tf_epc (u64 (epc + 4)));;
        on_h intr_on;;
        alive ← on_k (syscall me);
        if alive : bool then usertrap_tail me 0 else mret Exited
    else
      d ← devintr cpu (Some me) irq;
      if negb (d =? 0) then usertrap_tail me d
      else on_k (setkilled me);; usertrap_tail me 0.

(** A trap taken in the kernel, with [cur] the process this CPU runs; whether
    it yields.  The code restores [sepc] and [sstatus] after the yield. *)
Definition kerneltrap (cpu irq : Z) (cur : option nat) : M (tst St) bool :=
  epc ← on_h r_sepc;
  x ← on_h r_sstatus;
  if negb (has x SSTATUS_SPP) then panic "kerneltrap: not from supervisor mode"
  else
    i ← on_h intr_get;
    if i : bool then panic "kerneltrap: interrupts enabled"
    else
      d ← devintr cpu cur irq;
      if d =? 0 then panic "kerneltrap"
      else
        y ← (match cur with
             | Some me =>
                 p ← on_k (get_proc me);
                 if (d =? 2) && bool_decide (pstate p = RUNNING) then on_k (yield me);; mret true else mret false
             | None => mret false
             end);
        on_h (w_sepc epc);;
        on_h (w_sstatus x);;
        mret y.
End trap.
