(* ===== verification/FileThms.v ===== *)
(** * The reference counts of open files

    A [struct file] is free exactly when no descriptor of any process refers
    to it.  Every system call keeps the count [f->ref] equal to the number of
    descriptors that hold [f]. *)

From S2P Require Import Prelude Riscv Mem Kstring Kalloc Vm VmProc Bio Store Fs Kernel Proc Pipe File Fork Syscall Sysfile Exec Trap PipeThms VmThms.

(** ** Counting *)

Definition dead (p : proc) : bool := bool_decide (pstate p = UNUSED \/ pstate p = ZOMBIE).

(** Descriptors of [l] that hold [f]; descriptors of all processes that do. *)
Definition holders (f : nat) (l : list (option nat)) : nat := length (filter (fun x => x = Some f) l).
Fixpoint refs (f : nat) (ps : list proc) : nat :=
  match ps with [] => O | p :: ps => (holders f (ofile p) + refs f ps)%nat end.

Definition delta_ (f g : nat) : Z := if decide (f = g) then 1 else 0.

Record fd_shape {St} (s : kst St) : Prop := {
  sh_procs : length (procs s) = NPROCn;
  sh_files : length (ftable s) = NFILEn;
  sh_len i : (i < NPROCn)%nat -> length (ofile (procs s !!! i)) = NOFILEn;
  sh_fd i fd f : (i < NPROCn)%nat -> ofile (procs s !!! i) !! fd = Some (Some f) -> (f < NFILEn)%nat;
  sh_dead i : (i < NPROCn)%nat -> dead (procs s !!! i) = true -> ofile (procs s !!! i) = repeat None NOFILEn;
}.

(** The counts are right when [x f] more references to [f] are held in the kernel itself. *)
Record accounted {St} (x : nat -> Z) (s : kst St) : Prop := {
  ac_shape : fd_shape s;
  ac_ref f : (f < NFILEn)%nat -> fref (ftable s !!! f) = refs f (procs s) + x f;
}.

(** *** Counting descriptors *)

Lemma holders_insert f l fd y : (fd < length l)%nat ->
  (holders f (<[fd := y]> l) + (if decide (l !!! fd = Some f) then 1 else 0) =
   holders f l + (if decide (y = Some f) then 1 else 0))%nat.
Proof.
  unfold holders. revert fd. induction l as [|z l IH]; intros fd Hfd; simpl in Hfd; [lia|]. destruct fd as [|fd]; simpl.
  - change ((z :: l) !!! 0%nat) with z. rewrite !filter_cons.
    destruct (decide (z = Some f)), (decide (y = Some f)); simpl; lia.
  - rewrite !filter_cons. specialize (IH fd ltac:(lia)). change ((z :: l) !!! S fd) with (l !!! fd).
    destruct (decide (z = Some f)), (decide (y = Some f)), (decide (l !!! fd = Some f)); simpl in *; lia.
Qed.

Lemma refs_insert f ps i p : (i < length ps)%nat ->
  (refs f (<[i := p]> ps) + holders f (ofile (ps !!! i)) = refs f ps + holders f (ofile p))%nat.
Proof.
  revert i. induction ps as [|q ps IH]; intros i Hi; simpl in Hi; [lia|]. destruct i as [|i].
  - change (<[0%nat := p]> (q :: ps)) with (p :: ps). change ((q :: ps) !!! 0%nat) with q. cbn [refs]. lia.
  - change (<[S i := p]> (q :: ps)) with (q :: <[i := p]> ps). change ((q :: ps) !!! S i) with (ps !!! i).
    cbn [refs]. specialize (IH i ltac:(lia)). lia.
Qed.

Lemma refs_same f ps qs : length ps = length qs -> (forall i, (i < length ps)%nat -> ofile (ps !!! i) = ofile (qs !!! i)) ->
  refs f ps = refs f qs.
Proof.
  revert qs. induction ps as [|p ps IH]; intros [|q qs] Hl He; simplify_eq/=; [done|].
  rewrite (IH qs); [|done|].
  - f_equal. pose proof (He 0%nat ltac:(lia)) as E. simpl in E. by rewrite E.
  - intros i Hi. apply (He (S i)). lia.
Qed.

Lemma holders_le f l : (holders f l <= length l)%nat.
Proof. apply length_filter. Qed.

Lemma refs_le f ps n : (forall i, (i < length ps)%nat -> length (ofile (ps !!! i)) = n) -> (refs f ps <= n * length ps)%nat.
Proof.
  induction ps as [|p ps IH]; intros Hl; simpl; [lia|].
  pose proof (Hl 0%nat ltac:(simpl; lia)) as E. simpl in E. pose proof (holders_le f (ofile p)).
  assert (refs f ps <= n * length ps)%nat; [|lia].
  apply IH. intros i Hi. apply (Hl (S i)). simpl. lia.
Qed.

Lemma holders_none f n : holders f (repeat None n) = 0%nat.
Proof. induction n as [|n IH]; [done|]. unfold holders in *. simpl. by rewrite filter_cons_False. Qed.

(** ** What most code leaves alone *)

Section keeps.
Context `{Linker} `{Symbols} {St : Type} {ST : Store St}.

(** Same counts and descriptors, and no process died. *)
Record fdle (s s' : kst St) : Prop := {
  le_files : length (ftable s') = length (ftable s);
  le_ref f : (f < length (ftable s))%nat -> fref (ftable s' !!! f) = fref (ftable s !!! f);
  le_procs : length (procs s') = length (procs s);
  le_ofile i : (i < length (procs s))%nat -> ofile (procs s' !!! i) = ofile (procs s !!! i);
  le_dead i : (i < length (procs s))%nat -> dead (procs s' !!! i) = true -> dead (procs s !!! i) = true;
}.

Lemma fdle_refl s : fdle s s.
Proof. done. Qed.

Lemma fdle_trans s1 s2 s3 : fdle s1 s2 -> fdle s2 s3 -> fdle s1 s3.
Proof.
  intros [A1 A2 A3 A4 A5] [B1 B2 B3 B4 B5]. split; [congruence| |congruence|..].
  - intros f Hf. rewrite B2 by lia. by apply A2.
  - intros i Hi. rewrite B4 by lia. by apply A4.
  - intros i Hi Hd. apply A5; [done|]. apply B5; [lia|done].
Qed.

Lemma fdle_same s s' : ftable s' = ftable s -> procs s' = procs s -> fdle s s'.
Proof. intros E1 E2. split; by rewrite ?E1, ?E2. Qed.

Lemma accounted_le x s s' : accounted x s -> fdle s s' -> accounted x s'.
Proof.
  intros [[H1 H2 H3 H4 H5] Hr] [A1 A2 A3 A4 A5]. split; [split|].
  - congruence.
  - congruence.
  - intros i Hi. rewrite A4 by lia. by apply H3.
  - intros i fd f Hi. rewrite A4 by lia. by apply H4.
  - intros i Hi Hd. rewrite A4 by lia. apply H5; [done|]. apply A5; [lia|done].
  - intros f Hf. rewrite A2, Hr by lia. f_equal. f_equal. apply refs_same; [congruence|].
    intros i Hi. symmetry. apply A4. lia.
Qed.

Definition keeps {A} (c : M (kst St) A) : Prop := forall s a s', c s = Ret a s' -> fdle s s'.

Lemma keeps_ret {A} (a : A) : keeps (mret a).
Proof. by intros s a' s' [= <- <-]. Qed.

Lemma keeps_panic {A} m : keeps (A := A) (panic m).
Proof. by intros s a' s'. Qed.

Lemma keeps_diverge {A} : keeps (A := A) diverge.
Proof. by intros s a' s'. Qed.

Lemma keeps_bind {A B} (c : M (kst St) A) (k : A -> M (kst St) B) : keeps c -> (forall a, keeps (k a)) -> keeps (c ≫= k).
Proof. intros Hc Hk s b s' (a & s1 & E1 & E2)%bind_inv. eapply fdle_trans; [by eapply Hc|by eapply Hk]. Qed.

Lemma keeps_gets {A} (f : kst St -> A) : keeps (gets f).
Proof. by intros s a s' [= <- <-]. Qed.

Lemma keeps_on_fs {A} (c : M (fsst St) A) : keeps (on_fs c).
Proof. intros s a s'. unfold on_fs, zoom. destruct (c _); [|done|done]. intros [= <- <-]. by apply fdle_same. Qed.

Lemma keeps_upd_proc i f : (forall p, ofile (f p) = ofile p) -> (forall p, dead (f p) = true -> dead p = true) -> keeps (upd_proc i f).
Proof.
  intros Hf Hd s [] s' [= <-]. split; simpl; try done; [by rewrite length_insert|..]; intros j Hj; (destruct (decide (j = i)) as [->|];
    [rewrite list_lookup_total_insert_eq by done|rewrite list_lookup_total_insert_ne by done]); auto.
Qed.

Lemma keeps_upd_file i f : (forall x, fref (f x) = fref x) -> keeps (upd_file i f).
Proof.
  intros Hf s [] s' [= <-]. split; simpl; try done; [by rewrite length_insert|]. intros j Hj. destruct (decide (j = i)) as [->|];
    [rewrite list_lookup_total_insert_eq by done|rewrite list_lookup_total_insert_ne by done]; auto.
Qed.

Lemma keeps_modify f : (forall s, ftable (f s) = ftable s /\ procs (f s) = procs s) -> keeps (modify f).
Proof. intros Hf s [] s' [= <-]. apply fdle_same; apply Hf. Qed.

Lemma keeps_wakeup me ch : keeps (wakeup me ch).
Proof.
  intros s [] s' [= <-]. split; simpl; try done; [apply length_imap|..]; intros i Hi;
  destruct (lookup_lt_is_Some_2 (procs s) i Hi) as [p Hp]; erewrite !(list_lookup_total_correct (imap _ _)) by (by rewrite list_lookup_imap, Hp);
  rewrite (list_lookup_total_correct _ _ _ Hp); destruct (wakes _ _ _ _); try done.
Qed.
End keeps.

Create HintDb keeps.
#[export] Hint Resolve keeps_ret keeps_panic keeps_diverge keeps_gets keeps_on_fs keeps_wakeup : keeps.

(** Walk through a command that keeps the files. *)
Ltac keep := repeat first
  [ solve [eauto with keeps]
  | apply keeps_bind; [|intros]
  | apply keeps_modify; done
  | apply keeps_upd_proc; [done|unfold dead; cbn; done]
  | apply keeps_upd_file; done
  | case_match
  | progress unfold get_proc, get_file, get_pipe, set_pipe, on_mem_k, tf_load, tf_store, begin_op_k, end_op_k ].

Section keep_ops.
Context `{Linker} `{Symbols} {St : Type} {ST : Store St}.

Lemma keeps_sleep me ch : keeps (St := St) (sleep me ch).
Proof. apply keeps_upd_proc; [done|]. intros p. unfold dead. cbn. rewrite bool_decide_eq_true. naive_solver. Qed.
Hint Resolve keeps_sleep : keeps.

Lemma keeps_killed me : keeps (St := St) (killed me).
Proof. unfold killed. keep. Qed.
Hint Resolve keeps_killed : keeps.

Lemma keeps_kill_loop n i pid : keeps (St := St) (kill_loop n i pid).
Proof.
  revert i. induction n as [|n IH]; intros i; cbn [kill_loop]; keep.
Qed.
Hint Resolve keeps_kill_loop : keeps.

Lemma keeps_pipeclose me pi w : keeps (St := St) (pipeclose me pi w).
Proof. unfold pipeclose. keep. Qed.

Lemma keeps_pipewrite_iter me pi addr i : keeps (St := St) (pipewrite_iter me pi addr i).
Proof. unfold pipewrite_iter. keep. Qed.
Hint Resolve keeps_pipewrite_iter : keeps.

Lemma keeps_pipewrite_from fuel me pi addr n i : keeps (St := St) (pipewrite_from fuel me pi addr n i).
Proof. revert i. induction fuel as [|fuel IH]; intros i; cbn [pipewrite_from]; keep. Qed.
Hint Resolve keeps_pipewrite_from : keeps.

Lemma keeps_pipewrite me pi addr n : keeps (St := St) (pipewrite me pi addr n).
Proof. unfold pipewrite. keep. Qed.
Hint Resolve keeps_pipewrite : keeps.

Lemma keeps_piperead_loop fuel me pi addr n i : keeps (St := St) (piperead_loop fuel me pi addr n i).
Proof. revert i. induction fuel as [|fuel IH]; intros i; cbn [piperead_loop]; unfold piperead_iter; keep. Qed.
Hint Resolve keeps_piperead_loop : keeps.

Lemma keeps_piperead me pi addr n : keeps (St := St) (piperead me pi addr n).
Proof. unfold piperead, piperead_from, piperead_wait. keep. Qed.
Hint Resolve keeps_piperead : keeps.

Lemma keeps_filestat me f addr pad : keeps (St := St) (filestat me f addr pad).
Proof. unfold filestat. keep. Qed.
Hint Resolve keeps_filestat : keeps.

Context (devread devwrite : Z -> option (Z -> Z -> M (kst St) Z))
  (Hdr : forall m c addr n, devread m = Some c -> keeps (c addr n)) (Hdw : forall m c addr n, devwrite m = Some c -> keeps (c addr n)).

Lemma keeps_fileread me f addr n : keeps (fileread devread me f addr n).
Proof. unfold fileread. keep. Qed.
Hint Resolve keeps_fileread : keeps.

Lemma keeps_filewrite_loop fuel me f addr n i : keeps (St := St) (filewrite_loop fuel me f addr n i).
Proof. revert i. induction fuel as [|fuel IH]; intros i; cbn [filewrite_loop]; unfold filewrite_chunk; keep. Qed.
Hint Resolve keeps_filewrite_loop : keeps.

Lemma keeps_filewrite me f addr n : keeps (filewrite devwrite me f addr n).
Proof. unfold filewrite. keep. Qed.
Hint Resolve keeps_filewrite : keeps.
End keep_ops.

#[export] Hint Resolve keeps_sleep keeps_killed keeps_kill_loop keeps_pipeclose keeps_pipewrite keeps_piperead keeps_filestat
  keeps_fileread keeps_filewrite : keeps.

Section keep_calls.
Context `{Linker} `{Symbols} {St : Type} {ST : Store St}.

Lemma keeps_argraw me n : keeps (St := St) (argraw me n).
Proof. unfold argraw. keep. Qed.
Hint Resolve keeps_argraw : keeps.

Lemma keeps_argint me n : keeps (St := St) (argint me n).
Proof. unfold argint. keep. Qed.
Hint Resolve keeps_argint : keeps.

Lemma keeps_fetchstr me a n : keeps (St := St) (fetchstr me a n).
Proof. unfold fetchstr. keep. Qed.
Hint Resolve keeps_fetchstr : keeps.

Lemma keeps_argstr me n max : keeps (St := St) (argstr me n max).
Proof. unfold argstr, argaddr. keep. Qed.
Hint Resolve keeps_argstr : keeps.

Lemma keeps_growproc me n : keeps (St := St) (growproc me n).
Proof. unfold growproc. keep. Qed.
Hint Resolve keeps_growproc : keeps.

Lemma keeps_pid_cwd me : keeps (St := St) (pid_cwd me).
Proof. unfold pid_cwd. keep. Qed.
Hint Resolve keeps_pid_cwd : keeps.

Lemma keeps_argfd me n : keeps (St := St) (argfd me n).
Proof. unfold argfd. keep. Qed.
Hint Resolve keeps_argfd : keeps.

Lemma keeps_sys_link me : keeps (St := St) (sys_link me).
Proof. unfold sys_link, link_bad. keep. Qed.

Lemma keeps_sys_unlink me : keeps (St := St) (sys_unlink me).
Proof. unfold sys_unlink, unlink_found, unlink_bad. keep. Qed.

Lemma keeps_sys_mkdir me : keeps (St := St) (sys_mkdir me).
Proof. unfold sys_mkdir, make_node. keep. Qed.

Lemma keeps_sys_mknod me : keeps (St := St) (sys_mknod me).
Proof. unfold sys_mknod, make_node. keep. Qed.

Lemma keeps_sys_chdir me : keeps (St := St) (sys_chdir me).
Proof. unfold sys_chdir. keep. Qed.

Lemma keeps_load_segments k pt ip off sz : keeps (St := St) (load_segments k pt ip off sz).
Proof.
  assert (forall fuel va o z i, keeps (St := St) (loadseg_loop fuel pt va ip o z i)) as Hl.
  { induction fuel as [|fuel IH]; intros; cbn [loadseg_loop]; keep. }
  revert off sz. induction k as [|k IH]; intros off sz; cbn [load_segments]; unfold loadseg; keep.
Qed.
Hint Resolve keeps_load_segments : keeps.

Lemma keeps_push_args argv pt top base us : keeps (St := St) (push_args argv pt top base us).
Proof. revert top us. induction argv as [|a argv IH]; intros top us; cbn [push_args]; keep. Qed.
Hint Resolve keeps_push_args : keeps.

Lemma keeps_exec me path argv : keeps (St := St) (exec me path argv).
Proof. unfold exec, exec_bad_ip, exec_stack, exec_bad, exec_commit. keep. Qed.
Hint Resolve keeps_exec : keeps.

Lemma keeps_free_args l : keeps (St := St) (free_args l).
Proof. induction l as [|a l IH]; cbn [free_args]; keep. Qed.
Hint Resolve keeps_free_args : keeps.

Lemma keeps_fetch_args k me u i pages argv : keeps (St := St) (fetch_args k me u i pages argv).
Proof. revert i pages argv. induction k as [|k IH]; intros; cbn [fetch_args]; unfold fetchaddr; keep. Qed.
Hint Resolve keeps_fetch_args : keeps.

Lemma keeps_sys_exec me : keeps (St := St) (sys_exec me).
Proof. unfold sys_exec, argaddr. keep. Qed.
End keep_calls.

#[export] Hint Resolve keeps_argraw keeps_argint keeps_argstr keeps_growproc keeps_pid_cwd keeps_argfd keeps_sys_link keeps_sys_unlink
  keeps_sys_mkdir keeps_sys_mknod keeps_sys_chdir keeps_sys_exec : keeps.

(** ** The operations that count *)

Section count.
Context `{Linker} `{Symbols} {St : Type} {ST : Store St}.
Implicit Types s : kst St.

Definition plus_ (x : nat -> Z) (d : Z) (f : nat) : nat -> Z := fun g => x g + d * delta_ f g.

Lemma accounted_ext x y s : accounted x s -> (forall f, (f < NFILEn)%nat -> x f = y f) -> accounted y s.
Proof. intros [Hs Hr] E. split; [done|]. intros f Hf. rewrite Hr by done. by rewrite E. Qed.

Lemma accounted_proc x y s i p :
  accounted x s -> (i < NPROCn)%nat -> length (ofile p) = NOFILEn -> (forall fd f, ofile p !! fd = Some (Some f) -> (f < NFILEn)%nat) ->
  (dead p = true -> ofile p = repeat None NOFILEn) ->
  (forall f, (f < NFILEn)%nat -> y f + holders f (ofile p) = x f + holders f (ofile (procs s !!! i))) ->
  accounted y (set_procs (<[i := p]> (procs s)) s).
Proof.
  intros [[H1 H2 H3 H4 H5] Hr] Hi Hl Hv Hd Hy.
  assert (forall j, (j < NPROCn)%nat -> <[i := p]> (procs s) !!! j = if decide (j = i) then p else procs s !!! j) as E.
  { intros j Hj. case_decide as Ej; [subst; apply list_lookup_total_insert_eq; lia|by apply list_lookup_total_insert_ne]. }
  split; [split|]; simpl.
  - by rewrite length_insert.
  - done.
  - intros j Hj. rewrite E by done. case_decide; [done|by apply H3].
  - intros j fd f Hj. rewrite E by done. case_decide; [apply Hv|by apply H4].
  - intros j Hj. rewrite E by done. case_decide; [done|by apply H5].
  - intros f Hf. pose proof (refs_insert f (procs s) i p ltac:(lia)). specialize (Hy f Hf). rewrite Hr by done. lia.
Qed.

Lemma accounted_file x y s f g :
  accounted x s -> (f < NFILEn)%nat -> (forall h, h <> f -> y h = x h) -> fref g = fref (ftable s !!! f) + y f - x f ->
  accounted y (set_ftable (<[f := g]> (ftable s)) s).
Proof.
  intros [[H1 H2 H3 H4 H5] Hr] Hf Hy Hg. split; [split; simpl; try done; by rewrite length_insert|]. simpl. intros h Hh.
  destruct (decide (h = f)) as [->|Hne].
  - rewrite list_lookup_total_insert_eq, Hg, Hr by lia. lia.
  - rewrite list_lookup_total_insert_ne, Hr, Hy by done. done.
Qed.

Lemma plus_eq x d f : plus_ x d f f = x f + d.
Proof. unfold plus_, delta_. rewrite decide_True by done. lia. Qed.

Lemma plus_ne x d f h : h <> f -> plus_ x d f h = x h.
Proof. intros. unfold plus_, delta_. rewrite decide_False by done. lia. Qed.

(** Counts never come near the range of [int]. *)
Lemma accounted_bound x s f : accounted x s -> (f < NFILEn)%nat -> fref (ftable s !!! f) <= 1024 + x f.
Proof.
  intros [[H1 H2 H3 H4 H5] Hr] Hf. rewrite Hr by done.
  pose proof (refs_le f (procs s) NOFILEn ltac:(intros i Hi; apply H3; congruence)) as Hle. rewrite H1 in Hle.
  change (NOFILEn * NPROCn)%nat with 1024%nat in Hle. lia.
Qed.

Lemma find_free_file_spec ft k i f : find_free_file k i ft = Some f -> (i <= f < i + k)%nat /\ fref (ft !!! f) = 0.
Proof.
  revert i. induction k as [|k IH]; intros i; cbn [find_free_file]; [done|]. destruct (Z.eqb_spec (fref (ft !!! i)) 0).
  - intros [= <-]. split; [lia|done].
  - intros Hf%IH. split; [lia|apply Hf].
Qed.

Lemma acc_filealloc x s r s' : accounted x s -> filealloc s = Ret r s' ->
  match r with
  | Some f => (f < NFILEn)%nat /\ accounted (plus_ x 1 f) s'
  | None => accounted x s'
  end /\ procs s' = procs s.
Proof.
  intros Ha. unfold filealloc. intros (ft & s1 & [= <- <-] & E)%bind_inv.
  destruct (find_free_file _ _ _) as [f|] eqn:Ef; [|by injection E as <- <-].
  apply bind_inv in E as ([] & s1 & [= <-] & [= <- <-]). apply find_free_file_spec in Ef as [Hf E0]. split; [|done].
  split; [lia|]. eapply accounted_file; [done|lia|by apply plus_ne|]. simpl. rewrite plus_eq, E0. lia.
Qed.

Lemma acc_filedup x s f r s' : accounted x s -> (f < NFILEn)%nat -> x f <= 10 -> filedup f s = Ret r s' ->
  accounted (plus_ x 1 f) s' /\ procs s' = procs s /\ r = f.
Proof.
  intros Ha Hf Hx. unfold filedup. intros (ff & s1 & [= <- <-] & E)%bind_inv. destruct (Z.ltb_spec (fref (ftable s !!! f)) 1); [done|].
  apply bind_inv in E as ([] & s1 & [= <-] & [= <- <-]). split; [|done].
  eapply accounted_file; [done|done|by apply plus_ne|]. simpl. rewrite plus_eq.
  pose proof (accounted_bound x s f Ha Hf). rewrite sint_id by lia. lia.
Qed.

Lemma acc_fileclose x s me f r s' : accounted x s -> (f < NFILEn)%nat -> fileclose me f s = Ret r s' ->
  accounted (plus_ x (-1) f) s' /\ (forall i, (i < NPROCn)%nat ->
    ofile (procs s' !!! i) = ofile (procs s !!! i) /\ (dead (procs s' !!! i) = true -> dead (procs s !!! i) = true)).
Proof.
  intros Ha Hf. unfold fileclose. intros (ff & s1 & [= <- <-] & E)%bind_inv. set (ff := ftable s !!! f) in *.
  destruct (Z.ltb_spec (fref ff) 1); [done|]. apply bind_inv in E as ([] & s1 & E1 & E).
  assert (accounted (plus_ x (-1) f) s1) as Ha1.
  { injection E1 as <-. eapply accounted_file; [done|done|by apply plus_ne|]. simpl. rewrite plus_eq. fold ff. lia. }
  assert (procs s1 = procs s) as Ep1 by (by injection E1 as <-).
  assert (fref (ftable s1 !!! f) = fref ff - 1) as Ef1.
  { injection E1 as <-. simpl. rewrite list_lookup_total_insert_eq; [done|]. by rewrite (sh_files _ (ac_shape _ _ Ha)). }
  clear E1. destruct (Z.ltb_spec 0 (fref ff - 1)).
  { injection E as <- <-. split; [done|]. intros i Hi. by rewrite Ep1. }
  apply bind_inv in E as ([] & s2 & E2 & E).
  assert (accounted (plus_ x (-1) f) s2) as Ha2.
  { injection E2 as <-. eapply accounted_file; [done|done|done|]. simpl. rewrite Ef1. lia. }
  assert (procs s2 = procs s) as Ep2 by (by injection E2 as <-). clear E2.
  assert (fdle s2 s') as Hle.
  { revert E. assert (keeps (St := St) (p ← get_proc me; match ftyp ff with
      | FD_PIPE => pipeclose me (fpipe ff) (fwritable ff)
      | FD_INODE | FD_DEVICE => begin_op_k;; on_fs (iput (ppid p) (fip ff));; end_op_k
      | FD_NONE => mret tt end)) as Hk by keep. apply Hk. }
  split; [by eapply accounted_le|]. destruct Hle as [_ _ _ A4 A5]. intros i Hi.
  rewrite Ep2, (sh_procs _ (ac_shape _ _ Ha)) in *. split; [by apply A4|by apply A5].
Qed.
End count.

Section calls.
Context `{Linker} `{Symbols} {St : Type} {ST : Store St}.
Implicit Types s : kst St.

Definition alive (me : nat) s : Prop := (me < NPROCn)%nat /\ dead (procs s !!! me) = false.

(** Right counts, seen from a process that runs. *)
Definition counts (x : nat -> Z) (me : nat) s : Prop := accounted x s /\ alive me s.

Lemma counts_le x me s s' : counts x me s -> fdle s s' -> counts x me s'.
Proof.
  intros [Ha [Hme Hd]] Hle. split; [by eapply accounted_le|]. split; [done|].
  destruct (dead (procs s' !!! me)) eqn:E; [|done]. apply (le_dead _ _ Hle) in E; [congruence|].
  by rewrite (sh_procs _ (ac_shape _ _ Ha)).
Qed.

Lemma counts_keep {A} (c : M (kst St) A) x me s a s' : counts x me s -> c s = Ret a s' -> keeps c -> counts x me s'.
Proof. intros Hc E Hk. eapply counts_le; [done|by eapply Hk]. Qed.

Lemma find_fd_spec l k i fd : find_fd k i l = Some fd -> (i <= fd < i + k)%nat /\ l !!! fd = None.
Proof.
  revert i. induction k as [|k IH]; intros i; cbn [find_fd]; [done|]. destruct (l !!! i) eqn:E.
  - intros Hf%IH. split; [lia|apply Hf].
  - intros [= <-]. split; [lia|done].
Qed.

(** Setting descriptor [fd] of [me] from [y] to [z]. *)
Lemma counts_set_fd x x' me s fd z :
  counts x me s -> (fd < NOFILEn)%nat -> (forall f, z = Some f -> (f < NFILEn)%nat) ->
  (forall f, (f < NFILEn)%nat -> x' f + (if decide (z = Some f) then 1 else 0) =
    x f + (if decide (ofile (procs s !!! me) !!! fd = Some f) then 1 else 0)) ->
  counts x' me (set_procs (<[me := with_ofile (<[fd := z]> (ofile (procs s !!! me))) (procs s !!! me)]> (procs s)) s).
Proof.
  intros [Ha [Hme Hd]] Hfd Hz Hx. pose proof (ac_shape _ _ Ha) as [H1 H2 H3 H4 H5]. split.
  - eapply accounted_proc; [done|done|simpl; rewrite length_insert; by apply H3| | |].
    + simpl. intros fd' f. destruct (decide (fd' = fd)) as [->|].
      * rewrite list_lookup_insert_eq by (rewrite H3; done). intros [= ->]. by apply Hz.
      * rewrite list_lookup_insert_ne by done. by apply H4.
    + unfold dead in *. simpl. congruence.
    + intros f Hf. pose proof (holders_insert f (ofile (procs s !!! me)) fd z ltac:(rewrite H3; done)) as Hh.
      specialize (Hx f Hf). simpl. repeat case_decide; lia.
  - split; [done|]. simpl. rewrite list_lookup_total_insert_eq by lia. done.
Qed.

Lemma acc_fdalloc x me f s r s' : counts x me s -> (f < NFILEn)%nat -> fdalloc me f s = Ret r s' ->
  match r with
  | Some fd => (fd < NOFILEn)%nat /\ counts (plus_ x (-1) f) me s' /\
      ofile (procs s' !!! me) = <[fd := Some f]> (ofile (procs s !!! me)) /\ ofile (procs s !!! me) !!! fd = None
  | None => s' = s
  end.
Proof.
  intros Hc Hf. unfold fdalloc. intros (p & s1 & [= <- <-] & E)%bind_inv. destruct (find_fd _ _ _) as [fd|] eqn:Ef; [|by injection E as <- <-].
  apply find_fd_spec in Ef as [Hfd En]. apply bind_inv in E as ([] & s1 & [= <-] & [= <- <-]). split; [lia|]. split.
  - apply (counts_set_fd x); [done|lia|by intros ? [= <-]|]. intros h Hh. rewrite En. unfold plus_, delta_.
    repeat case_decide; simplify_eq; lia.
  - simpl. destruct Hc as [Ha [Hme _]]. by rewrite list_lookup_total_insert_eq by (by rewrite (sh_procs _ (ac_shape _ _ Ha))).
Qed.

Lemma acc_clear_fd x me fd f s r s' : counts x me s -> (fd < NOFILEn)%nat -> ofile (procs s !!! me) !!! fd = Some f ->
  clear_fd me fd s = Ret r s' -> counts (plus_ x 1 f) me s' /\ ofile (procs s' !!! me) = <[fd := None]> (ofile (procs s !!! me)).
Proof.
  intros Hc Hfd Ef [= <- <-]. split.
  - apply (counts_set_fd x); [done|done|done|]. intros h Hh. rewrite Ef. unfold plus_, delta_. repeat case_decide; simplify_eq; lia.
  - simpl. destruct Hc as [Ha [Hme _]]. by rewrite list_lookup_total_insert_eq by (by rewrite (sh_procs _ (ac_shape _ _ Ha))).
Qed.

Lemma counts_close x me f s r s' : counts x me s -> (f < NFILEn)%nat -> fileclose me f s = Ret r s' ->
  counts (plus_ x (-1) f) me s' /\ ofile (procs s' !!! me) = ofile (procs s !!! me).
Proof.
  intros [Ha [Hme Hd]] Hf [Ha' Hp]%(acc_fileclose x s); [|done|done]. destruct (Hp me Hme) as [Eo Hd']. split; [|done].
  split; [done|]. split; [done|]. destruct (dead (procs s' !!! me)); [|done]. by rewrite Hd' in Hd.
Qed.

(** A descriptor found by [argfd]. *)
Lemma acc_argfd x me n s r s' : counts x me s -> argfd me n s = Ret r s' -> counts x me s' /\
  forall fd f, r = Some (fd, f) -> (fd < NOFILEn)%nat /\ (f < NFILEn)%nat /\ ofile (procs s' !!! me) !!! fd = Some f.
Proof.
  intros Hc E. assert (counts x me s') as Hc' by (eapply counts_keep; [done|done|keep]). split; [done|].
  destruct Hc' as [Ha [Hme Hd]]. pose proof (ac_shape _ _ Ha) as [H1 H2 H3 H4 H5].
  unfold argfd in E. apply bind_inv in E as (v & s1 & _ & E). apply bind_inv in E as (p & s2 & [= <- <-] & E).
  destruct ((v <? 0) || (NOFILE <=? v)) eqn:Ev; [by injection E as <- <-|]. injection E as <- <-. intros fd f. bool_prop.
  destruct (ofile (procs s1 !!! me) !!! Z.to_nat v) as [f'|] eqn:Ef; [|done]. intros [= <- <-].
  assert (Z.to_nat v < NOFILEn)%nat as Hfd by (unfold NOFILEn; change NOFILE with 16 in *; lia).
  split; [done|]. split; [|done]. apply (H4 me (Z.to_nat v)); [done|]. rewrite <- Ef. apply list_lookup_lookup_total_lt. by rewrite H3.
Qed.

Lemma counts_ext x y me s : counts x me s -> (forall f, x f = y f) -> counts y me s.
Proof. intros [Ha Hl] E. split; [|done]. by eapply accounted_ext. Qed.

Lemma plus_cancel x f g : plus_ (plus_ x 1 f) (-1) f g = x g /\ plus_ (plus_ x (-1) f) 1 f g = x g.
Proof. unfold plus_. lia. Qed.

Definition none (f : nat) : Z := 0.

(** Commands after which the counts are right again. *)
Definition sound {A} (me : nat) (c : M (kst St) A) : Prop :=
  forall s a s', counts none me s -> c s = Ret a s' -> counts none me s'.

Lemma sound_keep {A} me (c : M (kst St) A) : keeps c -> sound me c.
Proof. intros Hk s a s' Hc E. by eapply counts_keep. Qed.

Lemma sound_bind {A B} me (c : M (kst St) A) (k : A -> M (kst St) B) : sound me c -> (forall a, sound me (k a)) -> sound me (c ≫= k).
Proof. intros Hc Hk s b s' H1 (a & s1 & E1 & E2)%bind_inv. eapply Hk; [|done]. by eapply Hc. Qed.

Lemma sound_dup me : sound me (sys_dup me).
Proof.
  intros s a s' Hc. unfold sys_dup. intros (r & s1 & [Hc1 Hr]%(acc_argfd none) & E)%bind_inv; [|done].
  destruct r as [[fd f]|]; [|by injection E as <- <-]. destruct (Hr fd f eq_refl) as (_ & Hf & _).
  apply bind_inv in E as (r & s2 & Hd%(acc_fdalloc none) & E); [|done|done]. destruct r as [fd'|].
  - destruct Hd as (_ & [Ha [Hme Hl]] & _). apply bind_inv in E as (f' & s3 & (Ha' & Ep & _)%(acc_filedup (plus_ none (-1) f)) & [= <- <-]);
      [|done|done|unfold plus_, none, delta_; case_decide; lia].
    split; [|split; [done|by rewrite Ep]]. eapply accounted_ext; [done|]. intros g _. apply plus_cancel.
  - subst s2. by injection E as <- <-.
Qed.

Lemma sound_close me : sound me (sys_close me).
Proof.
  intros s a s' Hc. unfold sys_close. intros (r & s1 & [Hc1 Hr]%(acc_argfd none) & E)%bind_inv; [|done].
  destruct r as [[fd f]|]; [|by injection E as <- <-]. destruct (Hr fd f eq_refl) as (Hfd & Hf & Ef).
  apply bind_inv in E as (u & s2 & [Hc2 _]%(acc_clear_fd none me fd f) & E); [|done..].
  apply bind_inv in E as (u' & s3 & [Hc3 _]%(counts_close (plus_ none 1 f)) & [= <- <-]); [|done|done].
  eapply counts_ext; [done|]. intros g. apply plus_cancel.
Qed.

Lemma counts_open_file me ip f omode pid x s a s' : counts x me s -> open_file pid ip f omode s = Ret a s' -> counts x me s'.
Proof. intros Hc E. eapply counts_keep; [done|exact E|]. unfold open_file. keep. Qed.

Lemma sound_open me : sound me (sys_open me).
Proof.
  intros s a s' Hc. unfold sys_open. intros (om & s1 & E1 & E)%bind_inv. eapply counts_keep in E1; [|done|keep]. clear Hc s.
  apply bind_inv in E as (path & s2 & E2 & E). eapply counts_keep in E2; [|done|keep]. clear E1 s1.
  destruct path as [path|]; [|by injection E as <- <-].
  apply bind_inv in E as (u & s3 & E3 & E). eapply counts_keep in E3; [|done|unfold begin_op_k; keep]. clear E2 s2.
  apply bind_inv in E as ([pid d] & s4 & E4 & E). eapply counts_keep in E4; [|done|keep]. clear E3 s3.
  apply bind_inv in E as (r & s5 & E5 & E). eapply counts_keep in E5; [|done|unfold open_inode; keep]. clear E4 s4.
  destruct r as [ip|]; [|by injection E as <- <-].
  apply bind_inv in E as (i & s6 & E6 & E). eapply counts_keep in E6; [|done|keep]. clear E5 s5.
  assert (forall x, keeps (St := St) (open_fail pid x)) as Hfail by (intros; unfold open_fail; keep).
  destruct ((itype i =? T_DEVICE) && _); [by eapply counts_keep in E|].
  destruct E6 as [Ha [Hme Hd]]. apply bind_inv in E as (f & s7 & [Hr Ep]%(acc_filealloc none) & E); [|done].
  destruct f as [f|].
  2:{ eapply counts_keep in E; [done|split; [exact Hr|]|apply Hfail]. split; [done|by rewrite Ep]. }
  destruct Hr as [Hf Ha7]. assert (counts (plus_ none 1 f) me s7) as Hc7 by (split; [done|]; split; [done|by rewrite Ep]).
  apply bind_inv in E as (fd & s8 & Hfd%(acc_fdalloc (plus_ none 1 f)) & E); [|done|done]. destruct fd as [fd|].
  - destruct Hfd as (_ & Hc8 & _). apply bind_inv in E as (u' & s9 & E9%(counts_open_file me ip f om pid (plus_ (plus_ none 1 f) (-1) f)) & [= <- <-]); [|done].
    eapply counts_ext; [done|]. intros g. apply plus_cancel.
  - subst s8. apply bind_inv in E as (u' & s9 & [Hc9 _]%(counts_close (plus_ none 1 f)) & E); [|done|done].
    eapply counts_keep in E; [|eapply counts_ext; [exact Hc9|intros g; apply plus_cancel]|apply Hfail]. done.
Qed.

Lemma acc_pipealloc me s r s' : counts none me s -> pipealloc me s = Ret r s' ->
  match r with
  | Some (rf, wf) => (rf < NFILEn)%nat /\ (wf < NFILEn)%nat /\ counts (plus_ (plus_ none 1 rf) 1 wf) me s'
  | None => counts none me s'
  end.
Proof.
  intros [Ha [Hme Hd]]. unfold pipealloc. intros (f0 & s1 & [H1 Ep1]%(acc_filealloc none) & E)%bind_inv; [|done].
  destruct f0 as [rf|]; [|injection E as <- <-; split; [done|]; split; [done|by rewrite Ep1]].
  destruct H1 as [Hrf Ha1]. apply bind_inv in E as (f1 & s2 & [H2 Ep2]%(acc_filealloc (plus_ none 1 rf)) & E); [|done].
  assert (alive me s2) as Hl2 by (split; [done|by rewrite Ep2, Ep1]). destruct f1 as [wf|].
  2:{ unfold pipealloc_bad in E. apply bind_inv in E as (u & s3 & [Hc _]%(counts_close (plus_ none 1 rf)) & E); [|done|done].
      apply bind_inv in E as (u' & s4 & [= <- <-] & [= <- <-]). eapply counts_ext; [done|]. intros g. apply plus_cancel. }
  destruct H2 as [Hwf Ha2]. assert (counts (plus_ (plus_ none 1 rf) 1 wf) me s2) as Hc2 by (split; done).
  apply bind_inv in E as (pi & s3 & E3 & E). eapply counts_keep in E3; [|done|unfold on_mem_k; keep]. destruct (pi =? 0).
  - unfold pipealloc_bad in E. apply bind_inv in E as (u & s4 & [Hc4 _]%(counts_close (plus_ (plus_ none 1 rf) 1 wf) me rf) & E); [|exact E3|done].
    apply bind_inv in E as (u' & s5 & [Hc5 _]%(counts_close (plus_ (plus_ (plus_ none 1 rf) 1 wf) (-1) rf) me wf) & [= <- <-]); [|exact Hc4|done].
    eapply counts_ext; [done|]. intros g. unfold plus_. lia.
  - apply bind_inv in E as (u & s4 & E4 & E). eapply counts_keep in E4; [|done|unfold set_pipe; keep].
    apply bind_inv in E as (u1 & s5 & E5 & E). eapply counts_keep in E5; [|done|keep].
    apply bind_inv in E as (u2 & s6 & E6 & [= <- <-]). eapply counts_keep in E6; [done|done|keep].
Qed.

Lemma acc_pipe_undo me fd0 fd1 rf wf s r s' x :
  counts x me s -> (rf < NFILEn)%nat -> (wf < NFILEn)%nat ->
  (forall fd, fd0 = Some fd -> (fd < NOFILEn)%nat /\ ofile (procs s !!! me) !!! fd = Some rf) ->
  (forall fd, fd1 = Some fd -> (fd < NOFILEn)%nat /\ fd0 <> Some fd /\ ofile (procs s !!! me) !!! fd = Some wf) ->
  (forall g, x g = (if fd0 is Some _ then 0 else delta_ rf g) + (if fd1 is Some _ then 0 else delta_ wf g)) ->
  pipe_undo me fd0 fd1 rf wf s = Ret r s' -> counts none me s'.
Proof.
  intros Hc Hrf Hwf Hd0 Hd1 Hx. unfold pipe_undo. intros (u & s1 & E1 & E)%bind_inv. apply bind_inv in E as (u1 & s2 & E2 & E).
  assert (counts (fun g => delta_ rf g + (if fd1 is Some _ then 0 else delta_ wf g)) me s1 /\
    forall fd, fd1 = Some fd -> ofile (procs s1 !!! me) !!! fd = Some wf) as [Hc1 Hf1].
  { destruct fd0 as [fd|].
    - destruct (Hd0 fd eq_refl) as [Hfd Ef]. apply (acc_clear_fd x me fd rf) in E1 as [Hc1 Eo]; [|done..]. split.
      + eapply counts_ext; [exact Hc1|]. intros g. unfold plus_. rewrite Hx. lia.
      + intros fd' Hfd'. destruct (Hd1 fd' Hfd') as (_ & Hne & Ef'). rewrite Eo, list_lookup_total_insert_ne by congruence. done.
    - injection E1 as <- <-. split; [eapply counts_ext; [exact Hc|]; intros g; by rewrite Hx|]. intros fd' Hfd'. apply (Hd1 fd' Hfd'). }
  assert (counts (fun g => delta_ rf g + delta_ wf g) me s2) as Hc2.
  { destruct fd1 as [fd|].
    - apply (acc_clear_fd (fun g => delta_ rf g + 0) me fd wf) in E2 as [Hc2 _]; [|done|by apply Hd1|by apply Hf1].
      eapply counts_ext; [exact Hc2|]. intros g. unfold plus_. lia.
    - by injection E2 as <- <-. }
  apply bind_inv in E as (u2 & s3 & [Hc3 _]%(counts_close (fun g => delta_ rf g + delta_ wf g) me rf) & E); [|exact Hc2|done].
  apply bind_inv in E as (u3 & s4 & [Hc4 _]%(counts_close (plus_ (fun g => delta_ rf g + delta_ wf g) (-1) rf) me wf) & [= <- <-]); [|exact Hc3|done].
  eapply counts_ext; [done|]. intros g. unfold plus_, none. lia.
Qed.

Lemma ofile_keep {A} (c : M (kst St) A) x me s a s' : counts x me s -> c s = Ret a s' -> keeps c -> ofile (procs s' !!! me) = ofile (procs s !!! me).
Proof. intros [Ha [Hme _]] E Hk. apply (le_ofile _ _ (Hk _ _ _ E)). by rewrite (sh_procs _ (ac_shape _ _ Ha)). Qed.

Lemma sound_pipe me : sound me (sys_pipe me).
Proof.
  intros s a s' Hc. unfold sys_pipe. intros (fda & s1 & E1 & E)%bind_inv. eapply counts_keep in E1; [|done|unfold argaddr; keep]. clear Hc s.
  apply bind_inv in E as (r & s2 & E2%acc_pipealloc & E); [|done]. destruct r as [[rf wf]|]; [|by injection E as <- <-].
  destruct E2 as (Hrf & Hwf & Hc2). apply bind_inv in E as (fd0 & s3 & E3%(acc_fdalloc (plus_ (plus_ none 1 rf) 1 wf)) & E); [|done|done].
  destruct fd0 as [fd0|].
  2:{ subst s3. eapply (acc_pipe_undo me None None rf wf); [exact Hc2|done|done|by intros ? [=]|by intros ? [=]| |exact E]. intros g. unfold plus_, none. lia. }
  destruct E3 as (Hfd0 & Hc3 & Eo3 & En0). pose proof (sh_len _ (ac_shape _ _ (proj1 Hc2)) me (proj1 (proj2 Hc2))) as Hlen.
  apply bind_inv in E as (fd1 & s4 & E4%(acc_fdalloc (plus_ (plus_ (plus_ none 1 rf) 1 wf) (-1) rf)) & E); [|done|done].
  assert (ofile (procs s3 !!! me) !!! fd0 = Some rf) as Ef0 by (rewrite Eo3; apply list_lookup_total_insert_eq; lia).
  destruct fd1 as [fd1|].
  2:{ subst s4. eapply (acc_pipe_undo me (Some fd0) None rf wf); [exact Hc3|done|done|by intros ? [= <-]|by intros ? [=]| |exact E]. intros g. unfold plus_, none. lia. }
  destruct E4 as (Hfd1 & Hc4 & Eo4 & En1). assert (fd1 <> fd0) as Hne by congruence.
  apply bind_inv in E as (p & s5 & [= <- <-] & E).
  assert (forall s5, counts (plus_ (plus_ (plus_ (plus_ none 1 rf) 1 wf) (-1) rf) (-1) wf) me s5 ->
    ofile (procs s5 !!! me) = ofile (procs s4 !!! me) ->
    forall r s', pipe_undo me (Some fd0) (Some fd1) rf wf s5 = Ret r s' -> counts none me s') as Hundo.
  { intros s5 Hc5 Eo5 r s6 E6. rewrite Eo4, Eo3 in Eo5. eapply (acc_pipe_undo me (Some fd0) (Some fd1) rf wf); [exact Hc5|done|done| | | |exact E6].
    - intros ? [= <-]. split; [done|]. rewrite Eo5, list_lookup_total_insert_ne by done. apply list_lookup_total_insert_eq. lia.
    - intros ? [= <-]. split; [done|]. split; [congruence|]. rewrite Eo5. apply list_lookup_total_insert_eq. rewrite length_insert. lia.
    - intros g. unfold plus_, none. lia. }
  apply bind_inv in E as (r & s5 & E5 & E). pose proof (counts_keep _ _ _ _ _ _ Hc4 E5 (keeps_on_fs _)) as Hc5.
  pose proof (ofile_keep _ _ _ _ _ _ Hc4 E5 (keeps_on_fs _)) as Eo5. destruct (r <? 0); [by eapply Hundo|].
  apply bind_inv in E as (r' & s6 & E6 & E). pose proof (counts_keep _ _ _ _ _ _ Hc5 E6 (keeps_on_fs _)) as Hc6.
  pose proof (ofile_keep _ _ _ _ _ _ Hc5 E6 (keeps_on_fs _)) as Eo6. destruct (r' <? 0); [eapply Hundo; [done|congruence|done]|].
  injection E as <- <-. eapply counts_ext; [exact Hc6|]. intros g. unfold plus_. lia.
Qed.

(** ** Processes *)

(** Releasing an entry without open files. *)
Lemma acc_freeproc x s i a s' :
  accounted x s -> (i < NPROCn)%nat -> ofile (procs s !!! i) = repeat None NOFILEn -> freeproc i s = Ret a s' ->
  accounted x s' /\ forall me, me <> i -> alive me s -> alive me s'.
Proof.
  intros Ha Hi Eo. unfold freeproc. intros (p & s1 & [= <- <-] & E)%bind_inv. apply bind_inv in E as (u & s1 & E1 & E).
  apply bind_inv in E as (u2 & s2 & E2 & E). apply bind_inv in E as (u3 & s3 & E3 & E).
  assert (fdle s s3) as Hle.
  { eapply fdle_trans; [|eapply fdle_trans].
    - assert (keeps (St := St) (if negb (trapframe (procs s !!! i) =? 0) then on_mem_k (kfree (trapframe (procs s !!! i))) else mret tt)) as Hk by keep.
      by eapply Hk.
    - assert (keeps (St := St) (upd_proc i (with_trapframe 0))) as Hk by keep. by eapply Hk.
    - assert (keeps (St := St) (if negb (pagetable (procs s !!! i) =? 0) then on_mem_k (proc_freepagetable (pagetable (procs s !!! i)) (psz (procs s !!! i)))
        else mret tt)) as Hk by keep. by eapply Hk. }
  clear E1 E2 E3. pose proof (accounted_le _ _ _ Ha Hle) as Ha3. pose proof (ac_shape _ _ Ha3) as [H1' H2' H3' H4' H5'].
  assert (ofile (procs s3 !!! i) = repeat None NOFILEn) as Eo3.
  { rewrite (le_ofile _ _ Hle); [done|]. by rewrite (sh_procs _ (ac_shape _ _ Ha)). }
  injection E as _ <-. split.
  - eapply accounted_proc; [done|done|simpl; by rewrite Eo3|simpl; by intros; eapply H4'|done|done].
  - intros me Hne Hal. destruct (counts_le x me s s3 (conj Ha Hal) Hle) as [_ [Hme Hd]]. split; [done|]. simpl.
    by rewrite list_lookup_total_insert_ne.
Qed.

Lemma find_unused_spec ps k i j : find_unused k i ps = Some j -> (i <= j < i + k)%nat /\ pstate (ps !!! j) = UNUSED.
Proof.
  revert i. induction k as [|k IH]; intros i; cbn [find_unused]; [done|]. destruct (decide _).
  - intros [= <-]. split; [lia|done].
  - intros Hf%IH. split; [lia|apply Hf].
Qed.

(** [s'] has the right counts too, and whoever lived still does. *)
Definition later x s s' : Prop := accounted x s' /\ forall me, alive me s -> alive me s'.

Lemma later_keep {A} (c : M (kst St) A) x s a s' : accounted x s -> c s = Ret a s' -> keeps c -> later x s s'.
Proof.
  intros Ha E Hk. split; [by eapply accounted_le; [|eapply Hk]|]. intros me Hal. by apply (counts_keep c x me s a s' (conj Ha Hal) E Hk).
Qed.

Lemma later_trans x s1 s2 s3 : later x s1 s2 -> later x s2 s3 -> later x s1 s3.
Proof. intros [A1 A2] [B1 B2]. split; [done|]. auto. Qed.

(** Nobody is at entry [i], which has no files. *)
Definition blank (i : nat) s : Prop := alive i s /\ ofile (procs s !!! i) = repeat None NOFILEn.

Lemma blank_keep {A} (c : M (kst St) A) x i s a s' : accounted x s -> c s = Ret a s' -> keeps c -> blank i s -> later x s s' /\ blank i s'.
Proof.
  intros Ha E Hk [Hal Eo]. pose proof (later_keep c x s a s' Ha E Hk) as Hl. split; [done|]. split; [by apply Hl|].
  rewrite <- Eo. by eapply (ofile_keep c x i s a s').
Qed.

Lemma blank_free x s i a s' : accounted x s -> blank i s -> freeproc i s = Ret a s' -> accounted x s' /\ forall me, me <> i -> alive me s -> alive me s'.
Proof. intros Ha [[Hi _] Eo] E. by eapply acc_freeproc. Qed.

Lemma acc_allocproc x s r s' : accounted x s -> allocproc s = Ret r s' ->
  accounted x s' /\ (forall me, alive me s -> alive me s') /\
  forall i, r = Some i -> blank i s' /\ forall me, alive me s -> me <> i.
Proof.
  intros Ha. unfold allocproc. intros (ps & s1 & [= <- <-] & E)%bind_inv. destruct (find_unused _ _ _) as [i|] eqn:Ef; [|by injection E as <- <-].
  apply find_unused_spec in Ef as [Hi Eu]. simpl in Hi. assert (i < NPROCn)%nat as Hi' by lia.
  assert (dead (procs s !!! i) = true) as Hdi by (unfold dead; rewrite Eu; done).
  assert (forall me, alive me s -> me <> i) as Hne by (intros me [_ Hd] ->; congruence).
  apply bind_inv in E as (pid & s2 & E2 & E). assert (later x s s2 /\ procs s2 = procs s) as [Hl2 Ep2].
  { split; [eapply later_keep; [done|exact E2|unfold allocpid; keep]|]. unfold allocpid in E2.
    by apply bind_inv in E2 as (n & s0 & [= <- <-] & ([] & s0 & [= <-] & [= <- <-])%bind_inv). }
  apply bind_inv in E as ([] & s3 & E3 & E). destruct Hl2 as [Ha2 Hal2].
  pose proof (sh_dead _ (ac_shape _ _ Ha2) i Hi' ltac:(by rewrite Ep2)) as Eo2. pose proof (sh_procs _ (ac_shape _ _ Ha2)) as Hlp.
  assert (later x s s3 /\ blank i s3) as [Hl3 Hb3].
  { injection E3 as <-. split; [split|].
    - eapply accounted_proc; [done|done|simpl; by rewrite Eo2|simpl; intros fd f Hf; by apply (sh_fd _ (ac_shape _ _ Ha2) i fd f)|done|done].
    - intros me Hal. pose proof (Hne me Hal). destruct (Hal2 me Hal). split; [done|]. simpl. by rewrite list_lookup_total_insert_ne by congruence.
    - split; [split; [done|]|]; simpl; by rewrite list_lookup_total_insert_eq by lia. }
  clear E2 E3 Ha2 Hal2 Ep2 Eo2 Hlp.
  assert (forall s4, later x s s4 -> blank i s4 -> forall a s5, (freeproc i;; mret None) s4 = Ret a s5 ->
    accounted x s5 /\ (forall me, alive me s -> alive me s5) /\ forall j, a = Some j -> blank j s5 /\ forall me, alive me s -> me <> j) as Hfree.
  { intros s4 [Ha4 Hal4] Hb4 a s5 (u & s6 & [Ha6 Hal6]%(blank_free x) & [= <- <-])%bind_inv; [|done|done]. split; [done|]. split; [|done].
    intros me Hal. apply Hal6; [by apply Hne|by apply Hal4]. }
  apply bind_inv in E as (tf & s4 & E4 & E). destruct (blank_keep _ x i s3 tf s4 (proj1 Hl3) E4 ltac:(unfold on_mem_k; keep) Hb3) as [Hl4 Hb4].
  apply bind_inv in E as (u5 & s5 & E5 & E). destruct (blank_keep _ x i s4 u5 s5 (proj1 Hl4) E5 ltac:(keep) Hb4) as [Hl5 Hb5].
  assert (later x s s5) as Hls5 by eauto using later_trans. destruct (tf =? 0); [by eapply Hfree|].
  apply bind_inv in E as (pt & s6 & E6 & E). destruct (blank_keep _ x i s5 pt s6 (proj1 Hl5) E6 ltac:(unfold on_mem_k; keep) Hb5) as [Hl6 Hb6].
  apply bind_inv in E as (u7 & s7 & E7 & E). destruct (blank_keep _ x i s6 u7 s7 (proj1 Hl6) E7 ltac:(keep) Hb6) as [Hl7 Hb7].
  assert (later x s s7) as Hls7 by eauto using later_trans. destruct (pt =? 0); [by eapply Hfree|].
  apply bind_inv in E as (u8 & s8 & E8 & [= <- <-]). destruct (blank_keep _ x i s7 u8 s8 (proj1 Hl7) E8 ltac:(keep) Hb7) as [Hl8 Hb8].
  assert (later x s s8) as [? ?] by eauto using later_trans. split; [done|]. split; [done|]. by intros ? [= <-].
Qed.

Lemma fork_files_counts k i me np s a s' :
  counts none me s -> alive np s -> np <> me -> (i + k = NOFILEn)%nat ->
  (forall j, (i <= j < NOFILEn)%nat -> ofile (procs s !!! np) !!! j = None) ->
  fork_files k i me np s = Ret a s' -> counts none me s' /\ alive np s'.
Proof.
  revert i s. induction k as [|k IH]; intros i s Hc Hnp Hne Hk Hno; cbn [fork_files]; [by intros [= <- <-]|].
  intros (p & s1 & [= <- <-] & E)%bind_inv. apply bind_inv in E as (u & s2 & E2 & E).
  destruct (ofile (procs s !!! me) !!! i) as [f|] eqn:Ef; [|injection E2 as <- <-; eapply IH; [..|exact E]; try done; [lia|intros j Hj; apply Hno; lia]].
  destruct Hc as [Ha [Hme Hd]]. pose proof (ac_shape _ _ Ha) as [H1' H2' H3' H4' H5'].
  assert (f < NFILEn)%nat as Hf.
  { apply (H4' me i); [done|]. rewrite <- Ef. apply list_lookup_lookup_total_lt. rewrite H3' by done. lia. }
  apply bind_inv in E2 as (f' & s3 & (Ha3 & Ep & ->)%(acc_filedup none) & E2); [|done|done|done].
  assert (counts (plus_ none 1 f) np s3) as Hc3 by (split; [done|]; destruct Hnp; split; [done|by rewrite Ep]).
  assert (counts none np s2) as [Ha2 Hnp2].
  { injection E2 as <- <-. apply (counts_set_fd (plus_ none 1 f)); [done|lia|by intros ? [= <-]|]. intros g Hg.
    rewrite Ep, Hno by lia. unfold plus_, delta_, none. repeat case_decide; simplify_eq; lia. }
  injection E2 as <- <-. eapply IH; [..|exact E]; try done; [|lia|].
  - split; [done|]. split; [done|]. simpl. rewrite list_lookup_total_insert_ne by done. by rewrite Ep.
  - intros j Hj. simpl. rewrite list_lookup_total_insert_eq by (rewrite Ep, H1'; apply Hnp). simpl.
    rewrite list_lookup_total_insert_ne by lia. rewrite Ep. apply Hno. lia.
Qed.

Lemma sound_fork me : sound me (fork me).
Proof.
  intros s a s' Hc. destruct (Hc) as [Ha Hal]. unfold fork. intros (r & s1 & (Ha1 & Hl1 & Hr)%(acc_allocproc none) & E)%bind_inv; [|done].
  destruct r as [np|]; [|injection E as <- <-; split; auto]. destruct (Hr np eq_refl) as [Hb1 Hne].
  specialize (Hl1 me Hal). specialize (Hne me Hal). clear Hr.
  apply bind_inv in E as (p & s2 & [= <- <-] & E). apply bind_inv in E as (q & s2 & [= <- <-] & E).
  apply bind_inv in E as (r & s2 & E2 & E). destruct (blank_keep _ none np s1 r s2 Ha1 E2 (keeps_on_fs _) Hb1) as [[Ha2 Hl2] Hb2].
  specialize (Hl2 me Hl1). destruct (r <? 0).
  { apply bind_inv in E as (u & s3 & [Ha3 Hl3]%(blank_free none) & [= <- <-]); [|done|done]. split; auto. }
  apply bind_inv in E as (u3 & s3 & E3 & E). destruct (blank_keep _ none np s2 u3 s3 Ha2 E3 ltac:(keep) Hb2) as [[Ha3 Hl3] Hb3]. specialize (Hl3 me Hl2).
  apply bind_inv in E as (u4 & s4 & E4 & E). destruct (blank_keep _ none np s3 u4 s4 Ha3 E4 (keeps_on_fs _) Hb3) as [[Ha4 Hl4] Hb4]. specialize (Hl4 me Hl3).
  apply bind_inv in E as (u5 & s5 & E5 & E).
  destruct (blank_keep _ none np s4 u5 s5 Ha4 E5 ltac:(unfold tf_store; keep) Hb4) as [[Ha5 Hl5] [Hnp5 Eo5]]. specialize (Hl5 me Hl4).
  apply bind_inv in E as (u6 & s6 & [Hc6 Hnp6]%fork_files_counts & E); [| |done|done|done|].
  - eapply counts_keep in E; [exact E|exact Hc6|]. keep.
  - split; done.
  - intros j Hj. rewrite Eo5. change (repeat None NOFILEn) with (replicate (A := option nat) NOFILEn None). apply lookup_total_replicate_2. lia.
Qed.

Lemma exit_files_counts k fd me s a s' :
  counts none me s -> (fd + k = NOFILEn)%nat -> (forall j, (j < fd)%nat -> ofile (procs s !!! me) !!! j = None) ->
  exit_files k fd me s = Ret a s' -> counts none me s' /\ ofile (procs s' !!! me) = repeat None NOFILEn.
Proof.
  revert fd s. induction k as [|k IH]; intros fd s Hc Hk Hno; cbn [exit_files].
  { intros [= <- <-]. split; [done|]. pose proof (sh_len _ (ac_shape _ _ (proj1 Hc)) me (proj1 (proj2 Hc))) as Hl.
    change (repeat None NOFILEn) with (replicate (A := option nat) NOFILEn None). symmetry; apply replicate_as_Forall. split; [done|].
    apply Forall_forall. intros y [j Hj]%list_elem_of_lookup_1. pose proof (lookup_lt_Some _ _ _ Hj).
    apply list_lookup_total_correct in Hj as <-. symmetry. apply Hno. lia. }
  intros (p & s1 & [= <- <-] & E)%bind_inv. apply bind_inv in E as (u & s2 & E2 & E).
  assert (forall j, (j < S fd)%nat -> j <> fd -> (j < fd)%nat) as Hlt by (intros; lia).
  destruct (ofile (procs s !!! me) !!! fd) as [f|] eqn:Ef.
  2:{ injection E2 as <- <-. eapply (IH (S fd)); [done|lia| |exact E]. intros j Hj. destruct (decide (j = fd)) as [->|]; [done|]. apply Hno. lia. }
  pose proof (ac_shape _ _ (proj1 Hc)) as [H1' H2' H3' H4' H5']. destruct (proj2 Hc) as [Hme Hd].
  assert (f < NFILEn)%nat as Hf.
  { apply (H4' me fd); [done|]. rewrite <- Ef. apply list_lookup_lookup_total_lt. rewrite H3' by done. lia. }
  apply bind_inv in E2 as (u' & s3 & [Hc3 Eo3]%(counts_close none) & E2); [|done|done].
  apply (acc_clear_fd (plus_ none (-1) f) me fd f) in E2 as [Hc2 Eo2]; [|done|lia|by rewrite Eo3].
  eapply (IH (S fd)); [|lia| |exact E].
  - eapply counts_ext; [exact Hc2|]. intros g. apply plus_cancel.
  - intros j Hj. rewrite Eo2, Eo3. destruct (decide (j = fd)) as [->|].
    + apply list_lookup_total_insert_eq. rewrite H3' by done. lia.
    + rewrite list_lookup_total_insert_ne by done. apply Hno. lia.
Qed.

Lemma keeps_reparent k i me : keeps (St := St) (reparent_loop k i me).
Proof. revert i. induction k as [|k IH]; intros i; cbn [reparent_loop]; keep. Qed.

Lemma acc_exit me st s a s' : counts none me s -> exit me st s = Ret a s' -> accounted none s'.
Proof.
  intros Hc. unfold exit. intros (ip & s1 & [= <- <-] & E)%bind_inv. destruct (decide _); [done|].
  apply bind_inv in E as (u & s2 & [Hc2 Eo2]%exit_files_counts & E); [|done|done|intros; lia].
  assert (exists s3, fdle s2 s3 /\ upd_proc me (fun p => with_pstate ZOMBIE (with_xstate st p)) s3 = Ret a s') as (s3 & Hle & E3).
  { pose proof (keeps_reparent NPROCn 0 me) as Hk. fold (reparent (St := St) me) in Hk. clear Hc2 Eo2.
    apply bind_inv in E as (u1 & t1 & E1 & E). apply bind_inv in E as (p & t2 & E2 & E). apply bind_inv in E as (u3 & t3 & E3 & E).
    apply bind_inv in E as (u4 & t4 & E4 & E). apply bind_inv in E as (u5 & t5 & E5 & E). unfold exit_locked in E.
    apply bind_inv in E as (u6 & t6 & E6 & E).
    apply bind_inv in E as (p7 & t7 & E7 & E). apply bind_inv in E as (u8 & t8 & E8 & E). exists t8. split; [|exact E].
    assert (keeps (St := St) begin_op_k) as K1 by (unfold begin_op_k; keep). assert (keeps (St := St) end_op_k) as K4 by (unfold end_op_k; keep).
    assert (keeps (St := St) (match cwd p with Some d => on_fs (iput (ppid p) d) | None => panic "kerneltrap" end)) as K3 by keep.
    assert (keeps (St := St) (upd_proc me (with_cwd None))) as K5 by keep.
    assert (keeps (St := St) (match parent p7 with Some q => wakeup (Some me) (ChProc q) | None => mret tt end)) as K8 by keep.
    injection E2 as <- <-. injection E7 as <- <-.
    eapply fdle_trans; [eapply K1; exact E1|]. eapply fdle_trans; [eapply K3; exact E3|]. eapply fdle_trans; [eapply K4; exact E4|].
    eapply fdle_trans; [eapply K5; exact E5|]. eapply fdle_trans; [eapply Hk; exact E6|]. eapply K8; exact E8. }
  pose proof (counts_le _ _ _ _ Hc2 Hle) as [Ha3 [Hme Hd]]. injection E3 as <- <-.
  assert (ofile (procs s3 !!! me) = repeat None NOFILEn) as Eo3.
  { rewrite (le_ofile _ _ Hle); [done|]. by rewrite (sh_procs _ (ac_shape _ _ (proj1 Hc2))). }
  eapply accounted_proc; [done|done|simpl; by rewrite Eo3|simpl; intros fd f Hf; by apply (sh_fd _ (ac_shape _ _ Ha3) me fd f)|done|done].
Qed.

Lemma wait_scan_counts k i me addr hk s a s' :
  counts none me s -> (i + k = NPROCn)%nat -> wait_scan k i me addr hk s = Ret a s' -> counts none me s'.
Proof.
  revert i hk s. induction k as [|k IH]; intros i hk s Hc Hk; cbn [wait_scan]; [by intros [= <- <-]|].
  intros (pp & s1 & [= <- <-] & E)%bind_inv. destruct (decide _); [|eapply (IH (S i)); [exact Hc|lia|exact E]].
  destruct (decide (pstate (procs s !!! i) = ZOMBIE)) as [Ez|]; [|eapply (IH (S i)); [exact Hc|lia|exact E]].
  apply bind_inv in E as (p & s2 & [= <- <-] & E). apply bind_inv in E as (r & s2 & E2 & E).
  assert (keeps (St := St) (if negb (addr =? 0) then on_mem_k (copyout (pagetable (procs s !!! me)) addr (le_bytes 4 (xstate (procs s !!! i))))
    else mret 0)) as Hkp by (unfold on_mem_k; keep).
  pose proof (counts_keep _ _ _ _ _ _ Hc E2 Hkp) as Hc2. destruct (r <? 0); [by injection E as <- <-|].
  assert (i < NPROCn)%nat as Hi by lia. destruct Hc as [Ha [Hme Hd]].
  assert (dead (procs s !!! i) = true) as Hdi by (unfold dead; rewrite Ez; done).
  assert (ofile (procs s2 !!! i) = repeat None NOFILEn) as Eo.
  { rewrite (le_ofile _ _ (Hkp _ _ _ E2)) by (by rewrite (sh_procs _ (ac_shape _ _ Ha))). by apply (sh_dead _ (ac_shape _ _ Ha)). }
  destruct Hc2 as [Ha2 Hal2]. apply bind_inv in E as (u & s3 & [Ha3 Hal3]%(acc_freeproc none) & [= <- <-]); [|done|done|done].
  split; [done|]. apply Hal3; [congruence|done].
Qed.

Lemma wait_pass_counts me addr s a s' : counts none me s -> wait_pass me addr s = Ret a s' -> counts none me s'.
Proof.
  intros Hc. unfold wait_pass. generalize (wait_scan_counts NPROCn 0 me addr false s). generalize (wait_scan (St := St) NPROCn 0 me addr false).
  intros c Hs (w & s1 & E1 & E)%bind_inv. apply Hs in E1; [|done|lia].
  destruct w as [hk|v]; [|by injection E as <- <-]. eapply counts_keep; [exact E1|exact E|keep].
Qed.

Lemma sound_wait me : sound me (sys_wait me).
Proof.
  intros s a s' Hc. unfold sys_wait. intros (ad & s1 & E1 & E)%bind_inv. eapply counts_keep in E1; [|done|unfold argaddr; keep].
  apply bind_inv in E as (r & s2 & E2 & E). apply wait_pass_counts in E2; [|done]. destruct r; [by injection E as <- <-|done].
Qed.

Context (devread devwrite : Z -> option (Z -> Z -> M (kst St) Z)) (pad : list Z)
  (Hdr : forall m c addr n, devread m = Some c -> keeps (c addr n)) (Hdw : forall m c addr n, devwrite m = Some c -> keeps (c addr n)).

Lemma sound_returns me (c : M (kst St) Z) : sound me c -> sound me (returns c).
Proof. intros Hs. apply sound_bind; [done|]. intros a. apply sound_keep. keep. Qed.

(** Every call but [exit] is sound. *)
Lemma sound_syscalls me num c : syscalls devread devwrite pad me num = Some c -> num <> 2 -> sound me c.
Proof.
  pose proof (sound_fork me). pose proof (sound_wait me). pose proof (sound_pipe me). pose proof (sound_dup me).
  pose proof (sound_open me). pose proof (sound_close me).
  intros E Hn. unfold syscalls in E. repeat case_match; simplify_eq;
    first [done | apply sound_returns; assumption | apply sound_bind; [assumption|intros; apply sound_keep; keep] | assumption | idtac].
  all: apply sound_keep; unfold returns, sys_read, sys_write, sys_fstat, sys_kill, sys_getpid, sys_sbrk, sys_sleep, sleep_pass, sys_uptime, argaddr, kill; keep.
Qed.

(** C3: every system call, successful or not, leaves the reference count of
    each open file equal to the number of descriptors of all processes that
    refer to it, with a descriptor table of the right size in every process
    and an empty one in each entry that is free or a zombie. *)
Theorem syscall_file_refs s me r s' :
  accounted none s -> alive me s -> syscall devread devwrite pad me s = Ret r s' ->
  accounted none s' /\ (r = true -> alive me s').
Proof.
  intros Ha Hal. pose proof (conj Ha Hal : counts none me s) as Hc. unfold syscall. intros (a7 & s1 & E1 & E)%bind_inv.
  assert (forall v, keeps (St := St) (tf_store me tf_a0 v;; mret true)) as Hk by (intros v; unfold tf_store; keep).
  eapply counts_keep in E1; [|done|unfold tf_load; keep].
  destruct (syscalls devread devwrite pad me (to_int a7)) as [c|] eqn:Ec; [|by eapply counts_keep in E as [??]].
  apply bind_inv in E as (v & s2 & E2 & E). destruct (decide (to_int a7 = 2)) as [E7|Hne].
  - rewrite E7 in Ec. injection Ec as <-. unfold sys_exit in E2. apply bind_inv in E2 as (n & s3 & E3 & E2).
    eapply counts_keep in E3; [|done|keep]. apply bind_inv in E2 as (u & s4 & E4%acc_exit & [= <- <-]); [|done].
    injection E as <- <-. done.
  - apply (sound_syscalls _ _ _ Ec Hne) in E2; [|done]. destruct v; [by eapply counts_keep in E as [??]|].
    injection E as <- <-. destruct E2. done.
Qed.
End calls.

(** ** At work *)

#[local] Existing Instance demo_linker.
#[local] Existing Instance demo_symbols.

Definition demo_fd_proc : proc :=
  mk_proc RUNNING None false 0 1 None 0 0 0 (PHYSTOP - 4 * PGSIZE) (0, 0) (Some 3%nat :: repeat None 15) None [].

(** Process 0 has file 3 at descriptor 0, and asks for [dup(0)]. *)
Definition demo_dup : kst ram :=
  mk_kst (mk_fsst (fun _ => []) (mk_phys (st64 (st64 ∅ (PHYSTOP - 4 * PGSIZE + tf_a7) 10) (PHYSTOP - 4 * PGSIZE + tf_a0) 0) 0) []
      (mk_superblock 0 0 0 0 0 0 0 0))
    (demo_fd_proc :: replicate 63 inhabitant) 2 None
    (replicate 3 inhabitant ++ [mk_file FD_INODE 1 true true 0 0 0 0] ++ replicate 96 inhabitant) ∅ 0.

Lemma demo_dup_accounted : accounted none demo_dup /\ alive 0 demo_dup.
Proof.
  assert (forall i, (i < NPROCn)%nat -> procs demo_dup !!! i = if decide (i = 0%nat) then demo_fd_proc else inhabitant) as E.
  { intros [|i] Hi; [done|]. change (procs demo_dup !!! S i) with (replicate (A := proc) 63 inhabitant !!! i).
    change NPROCn with 64%nat in Hi. by rewrite lookup_total_replicate_2 by lia. }
  split; [split; [split|]|split; [change NPROCn with 64%nat; lia|done]]; try done.
  - intros i Hi. rewrite E by done. by case_decide.
  - intros i fd f Hi. rewrite E by done. change NFILEn with 100%nat. case_decide.
    + destruct fd as [|fd]; [intros [= <-]; lia|]. change (ofile demo_fd_proc !! S fd) with (replicate (A := option nat) 15 None !! fd).
      by intros [[=] _]%lookup_replicate.
    + change (ofile inhabitant) with (replicate (A := option nat) 16 None). by intros [[=] _]%lookup_replicate.
  - intros i Hi. rewrite E by done. by case_decide.
  - intros f Hf. change NFILEn with 100%nat in Hf.
    assert (forallb (fun f : nat => fref (ftable demo_dup !!! f) =? refs f (procs demo_dup)) (seq 0 100) = true) as Hb by (vm_compute; reflexivity).
    pose proof (proj1 (forallb_forall _ _) Hb f ltac:(apply in_seq; lia)) as Hr. cbn beta in Hr. unfold none. lia.
Qed.

Lemma syscall_file_refs_witness : exists s', syscall (fun _ => None) (fun _ => None) [0; 0; 0; 0] 0 demo_dup = Ret true s' /\
  accounted none s' /\ fref (ftable s' !!! 3%nat) = 2.
Proof.
  destruct demo_dup_accounted as [Ha Hal]. exists (final (syscall (fun _ => None) (fun _ => None) [0; 0; 0; 0] 0) demo_dup).
  split; [vm_compute; reflexivity|]. split; [|vm_compute; reflexivity].
  refine (proj1 (syscall_file_refs (fun _ => None) (fun _ => None) [0; 0; 0; 0] _ _ demo_dup 0 true _ Ha Hal _)); [done|done|].
  vm_compute. reflexivity.
Defined.
