(* ===== verification/ProcThms.v ===== *)
(** * Waiting for children (kernel/proc.c, [fork], [exit], [wait], [kill])

    The protocol between [exit] and [wait]: a parent that sleeps in [wait] has
    a child to wait for, and none that has already exited. *)

From S2P Require Import Prelude Riscv Mem Kstring Kalloc Vm VmProc Bio Store Fs Kernel Proc Pipe File Fork Syscall PipeThms FileThms VmThms.

Section wait.
Context `{Linker} `{Symbols} {St : Type} {ST : Store St}.
Implicit Types s : kst St.

(** Process [i] sleeps on [ch]. *)
Definition asleep s (i : nat) (ch : channel) : Prop := pstate (procs s !!! i) = SLEEPING /\ pchan (procs s !!! i) = Some ch.

Record wait_inv s : Prop := {
  wi_len : length (procs s) = NPROCn;
  wi_chan i j : (i < NPROCn)%nat -> asleep s i (ChProc j) -> j = i;
  wi_kids i : (i < NPROCn)%nat -> asleep s i (ChProc i) ->
    (exists c, (c < NPROCn)%nat /\ parent (procs s !!! c) = Some i) /\
    forall c, (c < NPROCn)%nat -> parent (procs s !!! c) = Some i -> pstate (procs s !!! c) <> ZOMBIE;
  wi_unused c : (c < NPROCn)%nat -> pstate (procs s !!! c) = UNUSED -> parent (procs s !!! c) = None;
}.

(** Same parents, and nobody exited, was freed, or went to sleep in [wait]. *)
Record famle s s' : Prop := {
  fl_len : length (procs s') = length (procs s);
  fl_parent i : (i < length (procs s))%nat -> parent (procs s' !!! i) = parent (procs s !!! i);
  fl_zombie i : (i < length (procs s))%nat -> pstate (procs s' !!! i) = ZOMBIE -> pstate (procs s !!! i) = ZOMBIE;
  fl_unused i : (i < length (procs s))%nat -> pstate (procs s' !!! i) = UNUSED -> pstate (procs s !!! i) = UNUSED;
  fl_asleep i j : (i < length (procs s))%nat -> asleep s' i (ChProc j) -> asleep s i (ChProc j);
}.

Lemma famle_refl s : famle s s.
Proof. done. Qed.

Lemma famle_trans s1 s2 s3 : famle s1 s2 -> famle s2 s3 -> famle s1 s3.
Proof.
  intros [A1 A2 A3 A4 A5] [B1 B2 B3 B4 B5]. split; [congruence|..]; intros i; intros.
  - rewrite B2 by lia. by apply A2.
  - apply A3; [done|]. apply B3; [lia|done].
  - apply A4; [done|]. apply B4; [lia|done].
  - apply A5; [done|]. apply B5; [lia|done].
Qed.

Lemma famle_same s s' : procs s' = procs s -> famle s s'.
Proof. intros E. split; unfold asleep; by rewrite ?E. Qed.

Lemma wait_inv_le s s' : wait_inv s -> famle s s' -> wait_inv s'.
Proof.
  intros [H1' H2' H3' H4'] [A1 A2 A3 A4 A5]. rewrite H1' in *. split; [done|..].
  - intros i j Hi Ha. apply H2'; [done|]. by apply A5.
  - intros i Hi Ha%A5; [|done]. destruct (H3' i Hi Ha) as [(c & Hc & Ec) Hz]. split.
    + exists c. by rewrite A2.
    + intros c' Hc'. rewrite A2 by done. intros E' Hz'. apply (Hz c'); [done|done|]. by apply A3.
  - intros c Hc Hu. rewrite A2 by done. apply H4'; [done|]. by apply A4.
Qed.

Definition fkeeps {A} (c : M (kst St) A) : Prop := forall s a s', c s = Ret a s' -> famle s s'.

Lemma fkeeps_ret {A} (a : A) : fkeeps (mret a).
Proof. by intros s a' s' [= <- <-]. Qed.

Lemma fkeeps_fail {A} m : fkeeps (A := A) (panic m).
Proof. done. Qed.

Lemma fkeeps_gets {A} (f : kst St -> A) : fkeeps (gets f).
Proof. by intros s a s' [= <- <-]. Qed.

Lemma fkeeps_bind {A B} (c : M (kst St) A) (k : A -> M (kst St) B) : fkeeps c -> (forall a, fkeeps (k a)) -> fkeeps (c ≫= k).
Proof. intros Hc Hk s b s' (a & s1 & E1 & E2)%bind_inv. eapply famle_trans; [by eapply Hc|by eapply Hk]. Qed.

Lemma fkeeps_on_fs {A} (c : M (fsst St) A) : fkeeps (on_fs c).
Proof. intros s a s'. unfold on_fs, zoom. destruct (c _); [|done|done]. intros [= <- <-]. by apply famle_same. Qed.

Lemma fkeeps_modify f : (forall s, procs (f s) = procs s) -> fkeeps (modify f).
Proof. intros Hf s [] s' [= <-]. by apply famle_same. Qed.

Lemma procs_upd s i p j : (j < length (procs s))%nat -> <[i := p]> (procs s) !!! j = if decide (j = i) then p else procs s !!! j.
Proof. intros Hj. case_decide; [subst; by apply list_lookup_total_insert_eq|by apply list_lookup_total_insert_ne]. Qed.

(** One process changes, in ways that do not matter here. *)
Lemma famle_upd s i p :
  parent p = parent (procs s !!! i) -> (pstate p = ZOMBIE -> pstate (procs s !!! i) = ZOMBIE) ->
  (pstate p = UNUSED -> pstate (procs s !!! i) = UNUSED) ->
  (forall j, pstate p = SLEEPING -> pchan p = Some (ChProc j) -> asleep s i (ChProc j)) ->
  famle s (set_procs (<[i := p]> (procs s)) s).
Proof.
  intros H1' H2' H3' H4'. split; unfold asleep in *; simpl; [by rewrite length_insert|intros j Hj..|intros j c Hj];
    rewrite ?(procs_upd _ _ _ _ Hj); destruct (decide (j = i)); subst; naive_solver.
Qed.

Lemma fkeeps_upd i f : (forall p, parent (f p) = parent p /\ pstate (f p) = pstate p /\ pchan (f p) = pchan p) -> fkeeps (upd_proc i f).
Proof.
  intros Hf s [] s' [= <-]. destruct (Hf (procs s !!! i)) as (E1 & E2 & E3). apply famle_upd; [done|by rewrite E2|by rewrite E2|].
  intros j Hs Hc. split; congruence.
Qed.

Lemma fkeeps_wakeup me ch : fkeeps (wakeup me ch).
Proof.
  intros s [] s' [= <-]. fold (woken me ch s). split; unfold asleep; [apply length_imap|intros i Hi..|intros i j Hi];
    rewrite (proc_woken me ch s i Hi); destruct (wakes _ _ _ _); naive_solver.
Qed.
End wait.

Create HintDb fkeeps.
#[export] Hint Resolve fkeeps_ret fkeeps_fail fkeeps_gets fkeeps_on_fs fkeeps_wakeup : fkeeps.

(** Walk through a command that leaves families alone. *)
Ltac fkeep := repeat first
  [ solve [eauto with fkeeps]
  | apply fkeeps_bind; [|intros]
  | apply fkeeps_modify; done
  | apply fkeeps_upd; done
  | case_match
  | progress unfold get_proc, get_file, set_pipe, get_pipe, on_mem_k, tf_load, tf_store, upd_file ].

Section family.
Context `{Linker} `{Symbols} {St : Type} {ST : Store St}.
Implicit Types s : kst St.

(** The invariant, with nothing known about the children of [q]. *)
Definition wait_inv_but (q : option nat) s : Prop :=
  length (procs s) = NPROCn /\
  (forall i j, (i < NPROCn)%nat -> asleep s i (ChProc j) -> j = i) /\
  (forall i, (i < NPROCn)%nat -> q <> Some i -> asleep s i (ChProc i) ->
    (exists c, (c < NPROCn)%nat /\ parent (procs s !!! c) = Some i) /\
    forall c, (c < NPROCn)%nat -> parent (procs s !!! c) = Some i -> pstate (procs s !!! c) <> ZOMBIE) /\
  (forall c, (c < NPROCn)%nat -> pstate (procs s !!! c) = UNUSED -> parent (procs s !!! c) = None).

Lemma wait_inv_all s : wait_inv_but None s <-> wait_inv s.
Proof.
  split.
  - intros (A1 & A2 & A3 & A4). split; [done|done| |done]. intros i Hi. by apply A3.
  - intros [A1 A2 A3 A4]. split_and!; [done|done| |done]. intros i Hi _. by apply A3.
Qed.

(** Process [i] becomes [p]: it is not put to sleep in [wait]; the parent it
    leaves is not waiting; and if it is a zombie its parent is not waiting,
    except perhaps [q]. *)
Lemma wait_inv_upd s i p q :
  wait_inv s -> (i < NPROCn)%nat -> (forall j, pstate p = SLEEPING -> pchan p = Some (ChProc j) -> asleep s i (ChProc j)) ->
  (pstate p = UNUSED -> parent p = None) ->
  (forall r, parent (procs s !!! i) = Some r -> parent p <> Some r -> ~ asleep s r (ChProc r)) ->
  (forall r, parent p = Some r -> pstate p = ZOMBIE -> q <> Some r -> ~ asleep s r (ChProc r)) ->
  wait_inv_but q (set_procs (<[i := p]> (procs s)) s).
Proof.
  intros [A1 A2 A3 A4] Hi Hs Hu Hl Hz.
  assert (forall j ch, (j < NPROCn)%nat -> asleep (set_procs (<[i := p]> (procs s)) s) j (ChProc ch) -> asleep s j (ChProc ch)) as Has.
  { intros j ch Hj [E1 E2]. simpl in *. rewrite procs_upd in E1, E2 by lia. destruct (decide (j = i)); [subst; auto|done]. }
  split_and!; [simpl; by rewrite length_insert|intros j ch Hj Hj'; apply A2; auto|..]; simpl.
  - intros j Hj Hq Hj'%Has; [|done]. destruct (A3 j Hj Hj') as [(c & Hc & Ec) Hzc]. split.
    + exists c. split; [done|]. rewrite procs_upd by lia. destruct (decide (c = i)) as [->|]; [|done].
      destruct (decide (parent p = Some j)); [done|]. exfalso. by apply (Hl j).
    + intros c' Hc'. rewrite procs_upd by lia. destruct (decide (c' = i)) as [->|]; [|by apply Hzc]. intros Ep Ez. by apply (Hz j).
  - intros c Hc. rewrite procs_upd by lia. destruct (decide (c = i)); [done|by apply A4].
Qed.

(** Waking [q] makes up for what is not known. *)
Lemma wait_inv_woken me q s : wait_inv_but (Some q) s -> pstate (procs s !!! me) = RUNNING -> (me < NPROCn)%nat ->
  wait_inv (woken (Some me) (ChProc q) s).
Proof.
  intros (A1 & A2 & A3 & A4) Hrun Hme. assert (running s me) as Hr by (split; [lia|done]).
  assert (forall i ch, (i < NPROCn)%nat -> asleep (woken (Some me) (ChProc q) s) i ch -> asleep s i ch /\ ch <> ChProc q) as Has.
  { intros i ch Hi Ha. assert (sleeping (woken (Some me) (ChProc q) s) i ch) as Hs by (split; [rewrite length_woken; lia|done]).
    apply sleeping_woken in Hs as [[_ Hs] Hne]; [|done]. done. }
  assert (forall i, (i < NPROCn)%nat -> parent (procs (woken (Some me) (ChProc q) s) !!! i) = parent (procs s !!! i) /\
    (pstate (procs (woken (Some me) (ChProc q) s) !!! i) = ZOMBIE -> pstate (procs s !!! i) = ZOMBIE) /\
    (pstate (procs (woken (Some me) (ChProc q) s) !!! i) = UNUSED -> pstate (procs s !!! i) = UNUSED)) as Hp.
  { intros i Hi. rewrite proc_woken by lia. by destruct (wakes _ _ _ _). }
  split.
  - by rewrite length_woken.
  - intros i j Hi [Ha _]%Has; [|done]. by apply A2.
  - intros i Hi [Ha Hne]%Has; [|done]. destruct (A3 i Hi ltac:(congruence) Ha) as [(c & Hc & Ec) Hz]. split.
    + exists c. split; [done|]. by destruct (Hp c Hc) as [-> _].
    + intros c' Hc' Ec' Ez. destruct (Hp c' Hc') as (E1 & E2 & _). rewrite E1 in Ec'. by apply (Hz c'); auto.
  - intros c Hc Hu. destruct (Hp c Hc) as (-> & _ & E3). auto.
Qed.

Lemma freeproc_inv i s a s' : freeproc i s = Ret a s' ->
  exists p', procs s' = <[i := p']> (procs s) /\ parent p' = None /\ pstate p' = UNUSED.
Proof.
  unfold freeproc. intros (p & s1 & [= <- <-] & E)%bind_inv. apply bind_inv in E as (u & s1 & E1 & E).
  assert (procs s1 = procs s) as Ep1 by (destruct (negb _); [by apply on_mem_inv in E1 as [? _]|by injection E1 as <- <-]).
  apply bind_inv in E as (u2 & s2 & [= <- <-] & E). apply bind_inv in E as (u3 & s3 & E3 & E).
  assert (procs s3 = <[i := with_trapframe 0 (procs s1 !!! i)]> (procs s1)) as Ep3
    by (destruct (negb (pagetable (procs s !!! i) =? 0)); [by apply on_mem_inv in E3 as [-> _]|by injection E3 as <- <-]).
  injection E as <- <-. simpl. rewrite Ep3, list_insert_insert_eq, Ep1. eexists. split; [reflexivity|]. done.
Qed.

Lemma set_procs_eq s s' ps : procs s' = ps -> famle (set_procs ps s) s'.
Proof. intros E. by apply famle_same. Qed.

(** Releasing an entry whose parent, if any, is not waiting. *)
Lemma wait_inv_free i s a s' : wait_inv s -> (i < NPROCn)%nat -> (forall r, parent (procs s !!! i) = Some r -> ~ asleep s r (ChProc r)) ->
  freeproc i s = Ret a s' -> wait_inv s'.
Proof.
  intros Hi Hlt Hr (p' & Ep & Epar & Est)%freeproc_inv. eapply wait_inv_le; [apply wait_inv_all|by apply (set_procs_eq s)].
  apply wait_inv_upd; [done|done|congruence|done|auto|congruence].
Qed.

(** ** [wait] *)

Lemma wait_scan_inv k i me addr hk s a s' :
  wait_inv s -> pstate (procs s !!! me) = RUNNING -> (i + k = NPROCn)%nat -> wait_scan k i me addr hk s = Ret a s' ->
  match a with
  | inr _ => wait_inv s'
  | inl hk' => s' = s /\ (hk' = true -> hk = true \/ exists c, (c < NPROCn)%nat /\ parent (procs s !!! c) = Some me) /\
      forall c, (i <= c < NPROCn)%nat -> parent (procs s !!! c) = Some me -> pstate (procs s !!! c) <> ZOMBIE
  end.
Proof.
  intros Hi Hrun. revert i hk. induction k as [|k IH]; intros i hk Hk; cbn [wait_scan].
  { intros [= <- <-]. split; [done|]. split; [auto|]. intros; lia. }
  intros (pp & s1 & [= <- <-] & E)%bind_inv. destruct (decide (parent (procs s !!! i) = Some me)) as [Ep|Ep].
  2:{ apply IH in E; [|lia]. destruct a as [hk'|]; [|done]. destruct E as (-> & Hh & Hz). split; [done|]. split; [done|].
      intros c Hc. destruct (decide (c = i)) as [->|]; [done|]. apply Hz. lia. }
  destruct (decide (pstate (procs s !!! i) = ZOMBIE)) as [Ez|Ez].
  2:{ apply IH in E; [|lia]. destruct a as [hk'|]; [|done]. destruct E as (-> & _ & Hz). split; [done|]. split.
      - intros _. right. exists i. split; [lia|done].
      - intros c Hc. destruct (decide (c = i)) as [->|]; [done|]. apply Hz. lia. }
  apply bind_inv in E as (p & s2 & [= <- <-] & E). apply bind_inv in E as (r & s2 & E2 & E).
  assert (procs s2 = procs s) as Ep2 by (destruct (negb (addr =? 0)); [by apply on_mem_inv in E2 as [? _]|by injection E2 as <- <-]).
  pose proof (wait_inv_le _ _ Hi (famle_same _ _ Ep2)) as Hi2. destruct (r <? 0); [by injection E as <- <-|].
  apply bind_inv in E as (u & s3 & Hf & [= <- <-]). eapply (wait_inv_free i s2); [exact Hi2|lia| |exact Hf].
  intros q Eq [Hs _]. rewrite Ep2 in *. simplify_eq. congruence.
Qed.

Lemma wait_pass_inv me addr s a s' :
  wait_inv s -> (me < NPROCn)%nat -> pstate (procs s !!! me) = RUNNING -> wait_pass me addr s = Ret a s' -> wait_inv s'.
Proof.
  intros Hi Hme Hrun. unfold wait_pass. generalize (wait_scan_inv NPROCn 0 me addr false s).
  generalize (wait_scan (St := St) NPROCn 0 me addr false). intros c Hc (w & s1 & E1 & E)%bind_inv.
  specialize (Hc w s1 Hi Hrun eq_refl E1). destruct w as [hk|v]; [|by injection E as <- <-]. destruct Hc as (-> & Hh & Hz).
  apply bind_inv in E as (kl & s2 & [= <- <-] & E). destruct hk; [|by injection E as <- <-]. cbn [negb orb] in E.
  destruct (pkilled _); [by injection E as <- <-|]. apply bind_inv in E as ([] & s2 & [= <-] & [= <- <-]).
  destruct (Hh eq_refl) as [?|(c0 & Hc0 & Ec0)]; [done|]. clear Hh E1. fold (slept me (ChProc me) s).
  pose proof Hi as [A1 A2 A3 A4].
  assert (forall j, (j < NPROCn)%nat -> procs (slept me (ChProc me) s) !!! j =
    if decide (j = me) then with_pstate SLEEPING (with_chan (Some (ChProc me)) (procs s !!! me)) else procs s !!! j) as E
    by (intros j Hj; apply procs_upd; lia).
  assert (forall j, (j < NPROCn)%nat -> parent (procs (slept me (ChProc me) s) !!! j) = parent (procs s !!! j)) as Epar
    by (intros j Hj; rewrite E by done; by destruct (decide (j = me)); subst).
  split; [simpl; by rewrite length_insert|..].
  - intros i j Hi' [H1' H2']. rewrite E in H1', H2' by done. destruct (decide (i = me)) as [->|]; [simpl in H2'; congruence|]. by apply A2.
  - intros i Hi' [H1' H2']. rewrite E in H1', H2' by done. destruct (decide (i = me)) as [->|Hne].
    + split; [exists c0; by rewrite Epar|]. intros c' Hc'. rewrite Epar, E by done. intros Ep'.
      destruct (decide (c' = me)); [done|]. apply Hz; [lia|done].
    + destruct (A3 i Hi' (conj H1' H2')) as [(c' & Hc' & Ec') Hz']. split; [exists c'; by rewrite Epar|].
      intros c2 Hc2. rewrite Epar, E by done. intros Ep'. destruct (decide (c2 = me)); [done|]. by apply Hz'.
  - intros c' Hc'. rewrite Epar, E by done. destruct (decide (c' = me)); [done|]. by apply A4.
Qed.

(** ** [exit] *)

Lemma reparent_inv k i me s a s' :
  wait_inv s -> (me < NPROCn)%nat -> pstate (procs s !!! me) = RUNNING -> (i + k = NPROCn)%nat -> reparent_loop k i me s = Ret a s' ->
  wait_inv s' /\ pstate (procs s' !!! me) = RUNNING.
Proof.
  revert i s. induction k as [|k IH]; intros i s Hi Hme Hrun Hk; cbn [reparent_loop]; [by intros [= <- <-]|].
  intros (p & s1 & [= <- <-] & E)%bind_inv. apply bind_inv in E as (u & s2 & E2 & E).
  assert (wait_inv s2 /\ pstate (procs s2 !!! me) = RUNNING) as [Hi2 Hrun2]; [|eapply (IH (S i) s2); [done|done|done|lia|exact E]].
  destruct (decide _) as [Ep|]; [|by injection E2 as <- <-]. apply bind_inv in E2 as (ip & s3 & [= <- <-] & E2).
  apply bind_inv in E2 as ([] & s4 & [= <-] & E2). set (s3 := set_procs _ _) in E2. pose proof (wi_len _ Hi) as Hl.
  assert (wait_inv_but (initproc s) s3) as Hb.
  { apply wait_inv_upd; [done|lia|done| | |].
    - intros Hu. exfalso. rewrite (wi_unused _ Hi i ltac:(lia) Hu) in Ep. done.
    - intros r Er _ [Hs _]. simplify_eq. congruence.
    - intros r Er _ Hne. simpl in Er. congruence. }
  assert (pstate (procs s3 !!! me) = RUNNING) as Hrun3.
  { unfold s3. simpl. rewrite procs_upd by lia. by destruct (decide (me = i)); subst. }
  destruct (initproc s) as [q|].
  - assert (s2 = woken (Some me) (ChProc q) s3) as -> by (by injection E2). split; [by apply wait_inv_woken|].
    assert (length (procs s3) = NPROCn) as Hl3 by exact (proj1 Hb). rewrite proc_woken by lia. unfold wakes.
    rewrite (bool_decide_eq_false_2 (Some me <> Some me)) by naive_solver. done.
  - assert (s2 = s3) as -> by (by injection E2). split; [by apply wait_inv_all|done].
Qed.

Lemma exit_locked_inv me st s a s' :
  wait_inv s -> (me < NPROCn)%nat -> pstate (procs s !!! me) = RUNNING -> exit_locked me st s = Ret a s' -> wait_inv s'.
Proof.
  intros Hi Hme Hrun. unfold exit_locked, reparent. generalize (reparent_inv NPROCn 0 me s). generalize (reparent_loop (St := St) NPROCn 0 me).
  intros c Hc (u & s1 & E1 & E)%bind_inv. destruct (Hc _ _ Hi Hme Hrun eq_refl E1) as [Hi1 Hrun1]. clear Hc E1.
  apply bind_inv in E as (p & s2 & [= <- <-] & E). apply bind_inv in E as ([] & s2 & E2 & E). pose proof (wi_len _ Hi1) as Hl1.
  assert (wait_inv s2 /\ pstate (procs s2 !!! me) = RUNNING /\ parent (procs s2 !!! me) = parent (procs s1 !!! me) /\
    forall r, parent (procs s1 !!! me) = Some r -> (r < NPROCn)%nat -> ~ asleep s2 r (ChProc r)) as (Hi2 & Hrun2 & Epar & Hr).
  { destruct (parent (procs s1 !!! me)) as [q|] eqn:Eq; [|by injection E2 as <-]. injection E2 as <-. fold (woken (Some me) (ChProc q) s1).
    split.
    { apply wait_inv_woken; [|done|done]. destruct (proj2 (wait_inv_all s1) Hi1) as (A1 & A2 & A3 & A4). split_and!; auto. }
    rewrite proc_woken by lia. unfold wakes at 1 2. rewrite (bool_decide_eq_false_2 (Some me <> Some me)) by naive_solver. cbn [andb].
    split; [done|]. split; [done|]. intros r [= <-] Hr' Ha.
    assert (sleeping (woken (Some me) (ChProc q) s1) q (ChProc q)) as Hs by (split; [rewrite length_woken; lia|done]).
    apply sleeping_woken in Hs as [_ Hne]; [done|split; [lia|done]]. }
  injection E as _ <-. apply wait_inv_all. apply wait_inv_upd; [done|done|done|done|done|].
  intros r Er _ _ Ha. simpl in Er. rewrite Epar in Er. destruct (decide (r < NPROCn)%nat); [by apply (Hr r)|].
  destruct Ha as [Ha _]. rewrite list_lookup_total_alt, (lookup_ge_None_2 (procs s2)) in Ha by (rewrite (wi_len _ Hi2); lia). done.
Qed.

(** ** [fork] and the rest *)

(** An entry that [fork] is filling. *)
Definition newborn (np : nat) s : Prop :=
  (np < NPROCn)%nat /\ parent (procs s !!! np) = None /\ pstate (procs s !!! np) <> UNUSED /\ pstate (procs s !!! np) <> ZOMBIE.

Lemma newborn_keep {A} (c : M (kst St) A) np s a s' : fkeeps c -> c s = Ret a s' -> wait_inv s -> newborn np s -> wait_inv s' /\ newborn np s'.
Proof.
  intros Hk E Hi (Hn & Hp & Hu & Hz). pose proof (Hk _ _ _ E) as Hle. split; [by eapply wait_inv_le|]. pose proof (wi_len _ Hi) as Hl.
  split; [done|]. rewrite (fl_parent _ _ Hle) by lia. split; [done|]. split; intros E'.
  - apply Hu. apply (fl_unused _ _ Hle); [lia|done].
  - apply Hz. apply (fl_zombie _ _ Hle); [lia|done].
Qed.

Lemma newborn_free np s a s' : wait_inv s -> newborn np s -> freeproc np s = Ret a s' -> wait_inv s'.
Proof. intros Hi (Hn & Hp & _) E. eapply (wait_inv_free np s); [done|done|congruence|exact E]. Qed.

Lemma allocproc_inv s r s' : wait_inv s -> allocproc s = Ret r s' -> wait_inv s' /\ forall np, r = Some np -> newborn np s'.
Proof.
  intros Hi. unfold allocproc. intros (ps & s1 & [= <- <-] & E)%bind_inv. destruct (find_unused _ _ _) as [np|] eqn:Ef; [|by injection E as <- <-].
  apply find_unused_spec in Ef as [Hn Eu]. simpl in Hn. assert (np < NPROCn)%nat as Hn' by lia. pose proof (wi_len _ Hi) as Hl.
  apply bind_inv in E as (pid & s2 & E2 & E). assert (fkeeps (St := St) allocpid) as Hk by (unfold allocpid; fkeep).
  pose proof (wait_inv_le _ _ Hi (Hk _ _ _ E2)) as Hi2. assert (procs s2 = procs s) as Ep2.
  { unfold allocpid in E2. by apply bind_inv in E2 as (n & s0 & [= <- <-] & ([] & s0 & [= <-] & [= <- <-])%bind_inv). }
  apply bind_inv in E as ([] & s3 & [= <-] & E).
  assert (wait_inv (set_procs (<[np := with_pstate USED (with_ppid pid (procs s2 !!! np))]> (procs s2)) s2) /\
    newborn np (set_procs (<[np := with_pstate USED (with_ppid pid (procs s2 !!! np))]> (procs s2)) s2)) as [Hi3 Hn3].
  { split; [apply wait_inv_all, wait_inv_upd; try done; intros r Er; simpl in *; congruence|].
    split; [done|]. simpl. rewrite procs_upd, decide_True by (done || congruence || lia). simpl. split; [|done].
    rewrite Ep2. by apply (wi_unused _ Hi). }
  assert (forall s4, wait_inv s4 -> newborn np s4 -> forall a s5, (freeproc np;; mret None) s4 = Ret a s5 ->
    wait_inv s5 /\ forall j, a = Some j -> newborn j s5) as Hfree.
  { intros s4 Hi4 Hn4 a s5 (u & s6 & E6%newborn_free & [= <- <-])%bind_inv; done. }
  apply bind_inv in E as (tf & s4 & E4 & E). apply (newborn_keep _ np) in E4 as [Hi4 Hn4]; [|unfold on_mem_k; fkeep|done|done].
  apply bind_inv in E as (u5 & s5 & E5 & E). apply (newborn_keep _ np) in E5 as [Hi5 Hn5]; [|fkeep|done|done].
  destruct (tf =? 0); [exact (Hfree s5 Hi5 Hn5 _ _ E)|].
  apply bind_inv in E as (pt & s6 & E6 & E). apply (newborn_keep _ np) in E6 as [Hi6 Hn6]; [|unfold on_mem_k; fkeep|done|done].
  apply bind_inv in E as (u7 & s7 & E7 & E). apply (newborn_keep _ np) in E7 as [Hi7 Hn7]; [|fkeep|done|done].
  destruct (pt =? 0); [exact (Hfree s7 Hi7 Hn7 _ _ E)|].
  apply bind_inv in E as (u8 & s8 & E8 & [= <- <-]). apply (newborn_keep _ np) in E8 as [Hi8 Hn8]; [|fkeep|done|done].
  split; [done|]. by intros ? [= <-].
Qed.

Lemma fkeeps_fork_files k i me np : fkeeps (St := St) (fork_files k i me np).
Proof. revert i. induction k as [|k IH]; intros i; cbn [fork_files]; unfold filedup; fkeep. Qed.

Lemma fork_inv me s a s' : wait_inv s -> fork me s = Ret a s' -> wait_inv s'.
Proof.
  intros Hi. pose proof (fkeeps_fork_files NOFILEn 0 me) as Hff. unfold fork. intros (r & s1 & [Hi1 Hr]%allocproc_inv & E)%bind_inv; [|done].
  destruct r as [np|]; [|by injection E as <- <-]. specialize (Hr np eq_refl). rename Hr into Hn1.
  apply bind_inv in E as (p & s2 & [= <- <-] & E). apply bind_inv in E as (q & s2 & [= <- <-] & E).
  apply bind_inv in E as (r & s2 & E2 & E). apply (newborn_keep _ np) in E2 as [Hi2 Hn2]; [|unfold on_mem_k; fkeep|done|done].
  destruct (r <? 0). { apply bind_inv in E as (u & s3 & E3%newborn_free & [= <- <-]); done. }
  apply bind_inv in E as (u3 & s3 & E3 & E). apply (newborn_keep _ np) in E3 as [Hi3 Hn3]; [|fkeep|done|done].
  apply bind_inv in E as (u4 & s4 & E4 & E). apply (newborn_keep _ np) in E4 as [Hi4 Hn4]; [|unfold on_mem_k; fkeep|done|done].
  apply bind_inv in E as (u5 & s5 & E5 & E). apply (newborn_keep _ np) in E5 as [Hi5 Hn5]; [|unfold tf_store; fkeep|done|done].
  apply bind_inv in E as (u6 & s6 & E6 & E). apply (newborn_keep _ np) in E6 as [Hi6 Hn6]; [|apply Hff|done|done].
  apply bind_inv in E as (d & s7 & E7 & E). apply (newborn_keep _ np) in E7 as [Hi7 Hn7]; [|fkeep|done|done].
  apply bind_inv in E as (u8 & s8 & E8 & E). apply (newborn_keep _ np) in E8 as [Hi8 Hn8]; [|fkeep|done|done].
  apply bind_inv in E as (u9 & s9 & E9 & E). apply (newborn_keep _ np) in E9 as [Hi9 (Hn & Hp & Hu & Hz)]; [|fkeep|done|done].
  apply bind_inv in E as (q & s10 & [= <- <-] & E). apply bind_inv in E as ([] & s10 & [= <-] & E).
  apply bind_inv in E as ([] & s11 & [= <-] & [= <- <-]). simpl. rewrite list_insert_insert_eq.
  rewrite list_lookup_total_insert_eq by (rewrite (wi_len _ Hi9); lia).
  change (set_procs ?x (set_procs ?y s9)) with (set_procs x s9). apply wait_inv_all, wait_inv_upd; try done; simpl; intros; congruence.
Qed.

Lemma fkeeps_kill_loop k i pid : fkeeps (St := St) (kill_loop k i pid).
Proof.
  revert i. induction k as [|k IH]; intros i; cbn [kill_loop]; fkeep. intros s [] s' [= <-]. by apply famle_upd.
Qed.

(** What processes do, [wait_lock] held from start to end where the code holds it. *)
Inductive wstep : kst St -> kst St -> Prop :=
| ws_wait s me addr r s' : (me < NPROCn)%nat -> pstate (procs s !!! me) = RUNNING -> wait_pass me addr s = Ret r s' -> wstep s s'
| ws_exit s me st s' : (me < NPROCn)%nat -> pstate (procs s !!! me) = RUNNING -> exit_locked me st s = Ret tt s' -> wstep s s'
| ws_fork s me r s' : (me < NPROCn)%nat -> pstate (procs s !!! me) = RUNNING -> fork me s = Ret r s' -> wstep s s'
| ws_kill s pid r s' : kill pid s = Ret r s' -> wstep s s'
| ws_tick s me s' : clockintr me s = Ret tt s' -> wstep s s'
| ws_sched s i s' : (i < NPROCn)%nat -> pstate (procs s !!! i) = RUNNABLE -> upd_proc i (with_pstate RUNNING) s = Ret tt s' -> wstep s s'
| ws_yield s i s' : (i < NPROCn)%nat -> pstate (procs s !!! i) = RUNNING -> upd_proc i (with_pstate RUNNABLE) s = Ret tt s' -> wstep s s'
| ws_sleep s me ch s' : (me < NPROCn)%nat -> (forall p, ch <> ChProc p) -> sleep me ch s = Ret tt s' -> wstep s s'
| ws_awake s me s' : (me < NPROCn)%nat -> pstate (procs s !!! me) = RUNNING -> awake me s = Ret tt s' -> wstep s s'.

Lemma wstep_inv s s' : wstep s s' -> wait_inv s -> wait_inv s'.
Proof.
  intros Hs Hi. destruct Hs as [s me addr r s' Hm Hr E|s me st s' Hm Hr E|s me r s' Hm Hr E|s pid r s' E|s me s' E|s i s' Hi' Hr E|s i s' Hi' Hr E|s me ch s' Hm Hch E|s me s' Hm Hr E].
  - by eapply wait_pass_inv.
  - by eapply exit_locked_inv.
  - by eapply fork_inv.
  - eapply wait_inv_le; [done|]. by eapply fkeeps_kill_loop.
  - eapply wait_inv_le; [done|]. assert (fkeeps (St := St) (clockintr me)) as Hk by (unfold clockintr; fkeep). by eapply Hk.
  - injection E as <-. eapply wait_inv_le; [done|]. by apply famle_upd.
  - injection E as <-. eapply wait_inv_le; [done|]. by apply famle_upd.
  - injection E as <-. eapply wait_inv_le; [done|]. apply famle_upd; try done. simpl. intros j _ [= ->]. by destruct (Hch j).
  - injection E as <-. eapply wait_inv_le; [done|]. by apply famle_upd.
Qed.

(** C8: no exit is missed.  Whatever processes do, a process that sleeps in
    [wait] has a child, and none of its children has exited: whoever exits,
    or hands it exited children, wakes it. *)
Theorem wait_exit_no_lost s s' :
  length (procs s) = NPROCn -> (forall i, (i < NPROCn)%nat -> forall j, ~ asleep s i (ChProc j)) ->
  (forall c, (c < NPROCn)%nat -> pstate (procs s !!! c) = UNUSED -> parent (procs s !!! c) = None) ->
  rtc wstep s s' -> forall p, (p < NPROCn)%nat -> asleep s' p (ChProc p) ->
  (exists c, (c < NPROCn)%nat /\ parent (procs s' !!! c) = Some p) /\
  forall c, (c < NPROCn)%nat -> parent (procs s' !!! c) = Some p -> pstate (procs s' !!! c) <> ZOMBIE.
Proof.
  intros Hl Hn Hu Hr. assert (wait_inv s) as Hi by (split; [done|intros i j Hi Ha; by destruct (Hn i Hi j)|intros i Hi Ha; by destruct (Hn i Hi i)|done]).
  assert (wait_inv s') as [_ _ Hk _]; [|exact Hk].
  clear Hl Hn Hu. induction Hr as [s|s s1 s2 Hs Hr IH]; [done|]. apply IH. by eapply wstep_inv.
Qed.

(** ** Killing pid 0 *)

Lemma find_unused_ext ps qs k i : (forall j, pstate (ps !!! j) = pstate (qs !!! j)) -> find_unused k i ps = find_unused k i qs.
Proof. intros E. revert i. induction k as [|k IH]; intros i; cbn [find_unused]; [done|]. rewrite E, IH. done. Qed.

Lemma kill_unused k j i s : find_unused k j (procs s) = Some i ->
  (forall c, (c < j + k)%nat -> ppid (procs s !!! c) = 0 <-> pstate (procs s !!! c) = UNUSED) ->
  kill_loop k j 0 s = Ret 0 (set_procs (<[i := with_killed true (procs s !!! i)]> (procs s)) s).
Proof.
  revert j. induction k as [|k IH]; intros j; cbn [find_unused kill_loop]; [done|]. intros Hf Hp. rewrite (bind_ret_eq _ _ _ (procs s !!! j) s) by done.
  destruct (decide (pstate (procs s !!! j) = UNUSED)) as [Eu|Eu].
  - injection Hf as <-. rewrite (proj2 (Hp j ltac:(lia)) Eu). cbn [Z.eqb]. rewrite Eu. rewrite decide_False by done. done.
  - rewrite (proj2 (Z.eqb_neq _ 0)) by (intros E; apply Eu; apply Hp; [lia|done]). apply IH; [done|]. intros c Hc. apply Hp. lia.
Qed.

Lemma allocproc_killed i s r s' : length (procs s) = NPROCn -> find_unused NPROCn 0 (procs s) = Some i -> allocproc s = Ret (Some r) s' ->
  r = i /\ pkilled (procs s' !!! i) = pkilled (procs s !!! i).
Proof.
  intros Hl Hf. pose proof (find_unused_spec _ _ _ _ Hf) as [Hi _]. simpl in Hi. unfold allocproc.
  intros (ps & s1 & [= <- <-] & E)%bind_inv. rewrite Hf in E.
  assert (forall (t u : kst St) f, length (procs t) = NPROCn -> (forall p, pkilled (f p) = pkilled p) -> upd_proc i f t = Ret tt u ->
    length (procs u) = NPROCn /\ pkilled (procs u !!! i) = pkilled (procs t !!! i)) as Hupd.
  { intros t u f Ht Hk [= <-]. simpl. rewrite length_insert. split; [done|]. rewrite list_lookup_total_insert_eq by lia. apply Hk. }
  apply bind_inv in E as (pid & s2 & E2 & E). assert (procs s2 = procs s) as Ep2.
  { unfold allocpid in E2. by apply bind_inv in E2 as (n & s0 & [= <- <-] & ([] & s0 & [= <-] & [= <- <-])%bind_inv). }
  apply bind_inv in E as ([] & s3 & [Hl3 K3]%Hupd & E); [|congruence|done]. apply bind_inv in E as (tf & s4 & [Ep4 _]%on_mem_inv & E).
  apply bind_inv in E as ([] & s5 & [Hl5 K5]%Hupd & E); [|congruence|done]. destruct (tf =? 0).
  { apply bind_inv in E as (u & s6 & _ & E). done. }
  apply bind_inv in E as (pt & s6 & [Ep6 _]%on_mem_inv & E). apply bind_inv in E as ([] & s7 & [Hl7 K7]%Hupd & E); [|congruence|done].
  destruct (pt =? 0). { apply bind_inv in E as (u & s8 & _ & E). done. }
  apply bind_inv in E as ([] & s8 & [Hl8 K8]%Hupd & [= <- <-]); [|congruence|done]. split; [done|].
  rewrite K8, K7, Ep6, K5, Ep4, K3, Ep2. done.
Qed.

(** C40: [kill(0)] succeeds although no process has pid 0: it marks the first
    free entry as killed, and the next process, which [allocproc] places
    there, is born killed. *)
Theorem kill_zero_marks_unborn s i :
  length (procs s) = NPROCn -> (forall c, (c < NPROCn)%nat -> ppid (procs s !!! c) = 0 <-> pstate (procs s !!! c) = UNUSED) ->
  find_unused NPROCn 0 (procs s) = Some i ->
  exists s', kill 0 s = Ret 0 s' /\ forall r s'', allocproc s' = Ret (Some r) s'' -> r = i /\ pkilled (procs s'' !!! r) = true.
Proof.
  intros Hl Hp Hf. eexists. split; [by apply kill_unused|]. intros r s'' E. pose proof (find_unused_spec _ _ _ _ Hf) as [Hi _]. simpl in Hi.
  apply (allocproc_killed i) in E as [-> Ek]; [|simpl; by rewrite length_insert|].
  - split; [done|]. rewrite Ek. simpl. by rewrite list_lookup_total_insert_eq by lia.
  - rewrite <- Hf. apply find_unused_ext. intros j. simpl. destruct (decide (j < length (procs s))%nat) as [Hj|Hj].
    + rewrite procs_upd by done. by destruct (decide (j = i)); subst.
    + rewrite !list_lookup_total_alt, !lookup_ge_None_2; [done|lia|rewrite length_insert; lia].
Qed.
End family.

(** ** At work *)

#[local] Existing Instance demo_linker.
#[local] Existing Instance demo_symbols.

(** Process 0 and its child 1. *)
Definition demo_kid : proc :=
  mk_proc RUNNABLE None false 0 2 (Some 0%nat) 0 0 0 0 (0, 0) (repeat None 16) None [].
Definition demo_family : kst ram :=
  set_procs (demo_fd_proc :: demo_kid :: replicate 62 inhabitant) demo_dup.

Lemma demo_family_proc i : (i < NPROCn)%nat -> i = 0%nat \/ i = 1%nat \/ procs demo_family !!! i = inhabitant.
Proof.
  destruct i as [|[|i]]; [auto|auto|]. intros Hi. right. right. change NPROCn with 64%nat in Hi.
  change (replicate (A := proc) 62 inhabitant !!! i = inhabitant). apply lookup_total_replicate_2. lia.
Qed.

Lemma wait_exit_no_lost_witness : exists s', wstep demo_family s' /\ asleep s' 0 (ChProc 0) /\
  exists c, (c < NPROCn)%nat /\ parent (procs s' !!! c) = Some 0%nat.
Proof.
  assert (wstep demo_family (final (wait_pass 0 0) demo_family)) as Hs.
  { eapply (ws_wait _ 0 0 None); [change NPROCn with 64%nat; lia|done|vm_compute; reflexivity]. }
  assert (asleep (final (wait_pass 0 0) demo_family) 0 (ChProc 0)) as Ha by (split; vm_compute; reflexivity).
  exists (final (wait_pass 0 0) demo_family). split; [exact Hs|]. split; [exact Ha|].
  refine (proj1 (wait_exit_no_lost demo_family _ eq_refl _ _ (rtc_once _ _ Hs) 0 _ Ha)).
  - intros i Hi j [H1 _]. destruct (demo_family_proc i Hi) as [->|[->|E]]; [done|done|by rewrite E in H1].
  - intros c Hc. destruct (demo_family_proc c Hc) as [->|[->|E]]; [done|done|by rewrite E].
  - change NPROCn with 64%nat. lia.
Defined.

(** The family with all pages of the machine free: after [kill(0)], the next
    process gets entry 2 and is killed. *)
Definition demo_family_mem : kst ram := set_fs (set_km (final kinit demo0) (kfs demo_family)) demo_family.

Lemma kill_zero_marks_unborn_witness : exists s' s'', kill 0 demo_family_mem = Ret 0 s' /\ allocproc s' = Ret (Some 2%nat) s'' /\ pkilled (procs s'' !!! 2%nat) = true.
Proof.
  destruct (kill_zero_marks_unborn demo_family_mem 2 eq_refl) as (s' & E & Ha); [|done|].
  { intros c Hc. destruct (demo_family_proc c Hc) as [->|[->|Ec]]; [done|done|]. change (procs demo_family_mem) with (procs demo_family). rewrite Ec. done. }
  assert (match kill 0 demo_family_mem with Ret _ s' => match allocproc s' with Ret (Some r) _ => (r =? 2)%nat | _ => false end | _ => false end = true) as Hc by (vm_compute; reflexivity).
  rewrite E in Hc. destruct (allocproc s') as [[r|] s''| |] eqn:Er; [|discriminate..]. apply Nat.eqb_eq in Hc as ->.
  exists s', s''. split; [exact E|]. split; [exact Er|]. exact (proj2 (Ha 2%nat s'' eq_refl)).
Defined.
