(* ===== verification/Isolation.v ===== *)
(** * Memory isolation between processes (kernel/proc.c over kernel/vm.c)

    Who holds which physical page.  [isolated s O L U] says that [O i] are the
    pages of process [i] (its tables, its user pages and its trapframe), that
    [L] is the free list, that no page is held twice, and that together they
    are the pages [U].  The operations of proc.c that allocate, copy and
    release memory keep it. *)

From S2P Require Import Prelude Riscv Mem Kstring Kalloc Vm VmPt VmWalk VmMap VmUser VmAlloc VmFork VmFree VmCopy VmProc Store Fs Kernel Proc File Fork Syscall PipeThms ProcThms VmThms FileThms.

Section isolation.
Context `{Linker} `{Symbols} {St : Type} {ST : Store St}.
Implicit Types s : kst St.

Definition ph s : phys := km (kfs s).
Definition set_ph (x : phys) s : kst St := set_fs (set_km x (kfs s)) s.

Record space (m : memory) (p : proc) (T : tables) (F : list Z) : Prop := {
  sp_as : as_inv m (pagetable p) T F;
  sp_sz : 0 <= psz p <= TRAPFRAME;
  sp_len : npages (psz p) = length F;
  sp_tf : kpage (trapframe p);
  sp_apart : trapframe p ∉ (dom T ∪ list_to_set F : gset Z);
  sp_high : high_mapped m (pagetable p) (trapframe p);
}.

Definition pages_of (p : proc) (T : tables) (F : list Z) : gset Z := {[trapframe p]} ∪ dom T ∪ list_to_set F.

(** [P] are the pages the entry [p] of the table stands for. *)
Definition holds (m : memory) (p : proc) (P : gset Z) : Prop :=
  if decide (pstate p = UNUSED) then P = ∅ /\ pagetable p = 0 /\ trapframe p = 0 /\ psz p = 0
  else exists T F, space m p T F /\ P = pages_of p T F.

Record isolated s (O : nat -> gset Z) (L : list Z) (U : gset Z) : Prop := {
  is_len : length (procs s) = NPROCn;
  is_free : kalloc_inv (ph s) L;
  is_holds i : (i < NPROCn)%nat -> holds (mem (ph s)) (procs s !!! i) (O i);
  is_disj i j : (i < NPROCn)%nat -> (j < NPROCn)%nat -> i <> j -> O i ## O j;
  is_apart i : (i < NPROCn)%nat -> O i ## list_to_set L;
  is_all x : x ∈ U <-> x ∈ L \/ exists i, (i < NPROCn)%nat /\ x ∈ O i;
}.

Lemma wp_on_mem {A} (c : M phys A) s (Q : A -> kst St -> Prop) :
  wp (c (ph s)) (fun a x => Q a (set_ph x s)) -> wp (on_mem_k c s) Q.
Proof. unfold on_mem_k, on_fs, on_km, zoom, ph, wp. by destruct (c _). Qed.

(** ** Frames *)

Lemma high_mapped_frame Q m m' root tf T : pt_inv m root T -> same_except Q m m' -> Q ## dom T -> high_mapped m root tf -> high_mapped m' root tf.
Proof. intros Hpt Hs HQ Hh va Hva. rewrite (leaf_frame Hpt Q m' va Hs HQ); [by apply Hh|plia]. Qed.

Lemma space_frame Q m m' p T F : space m p T F -> same_except Q m m' -> Q ## dom T -> space m' p T F.
Proof.
  intros [A1 A2 A3 A4 A5 A6] Hs HQ. split; try done; [by eapply as_inv_frame|].
  eapply high_mapped_frame; [apply (as_pt _ _ _ _ A1)|done|done|done].
Qed.

Lemma holds_frame Q m m' p P : holds m p P -> same_except Q m m' -> Q ## P -> holds m' p P.
Proof.
  unfold holds. case_decide; [done|]. intros (T & F & Hs & ->) Hse HQ. exists T, F. split; [|done].
  eapply space_frame; [done|done|]. unfold pages_of in HQ. set_solver.
Qed.

(** The fields the invariant looks at. *)
Definition same_space (p p' : proc) : Prop :=
  (pstate p' = UNUSED <-> pstate p = UNUSED) /\ pagetable p' = pagetable p /\ trapframe p' = trapframe p /\ psz p' = psz p.

Lemma holds_same m p p' P : same_space p p' -> holds m p P -> holds m p' P.
Proof.
  intros (E1 & E2 & E3 & E4). unfold holds. destruct (decide (pstate p = UNUSED)), (decide (pstate p' = UNUSED)); try tauto; rewrite ?E2, ?E3, ?E4; [done|].
  intros (T & F & [B1 B2 B3 B4 B5 B6] & ->). exists T, F. unfold pages_of. rewrite E3. split; [|done]. split; rewrite ?E2, ?E3, ?E4; done.
Qed.

(** Steps that do not touch memory or what the invariant looks at. *)
Lemma isolated_same s s' O L U :
  isolated s O L U -> ph s' = ph s -> length (procs s') = length (procs s) ->
  (forall i, (i < NPROCn)%nat -> same_space (procs s !!! i) (procs s' !!! i)) -> isolated s' O L U.
Proof.
  intros [A1 A2 A3 A4 A5 A6] Hp Hl Hs. split; try done; rewrite ?Hp; [congruence|done|]. intros i Hi. eapply holds_same; [by apply Hs|by apply A3].
Qed.

(** Process [i] exchanges pages with the free list. *)
Lemma isolated_change s s' O L U i p' P' L' :
  isolated s O L U -> (i < NPROCn)%nat -> procs s' = <[i := p']> (procs s) -> kalloc_inv (ph s') L' ->
  same_except (O i ∪ list_to_set L) (mem (ph s)) (mem (ph s')) -> holds (mem (ph s')) p' P' ->
  P' ## list_to_set L' -> P' ∪ list_to_set L' = O i ∪ list_to_set L ->
  isolated s' (<[i := P']> O) L' U.
Proof.
  intros [A1 A2 A3 A4 A5 A6] Hi Ep Hk Hse Hh Hd Hu. split.
  - by rewrite Ep, length_insert.
  - done.
  - intros j Hj. rewrite Ep, procs_upd by lia. destruct (decide (j = i)) as [->|Hne]; [by rewrite fn_lookup_insert|].
    rewrite fn_lookup_insert_ne by done. eapply holds_frame; [by apply A3|done|]. specialize (A4 i j Hi Hj ltac:(done)). specialize (A5 j Hj). set_solver.
  - intros j k Hj Hk' Hne. destruct (decide (j = i)) as [->|], (decide (k = i)) as [->|]; rewrite ?fn_lookup_insert, ?fn_lookup_insert_ne by done;
      [done| | |auto].
    + specialize (A4 i k Hi Hk' ltac:(done)). specialize (A5 k Hk'). set_solver.
    + specialize (A4 i j Hi Hj ltac:(done)). specialize (A5 j Hj). set_solver.
  - intros j Hj. destruct (decide (j = i)) as [->|]; rewrite ?fn_lookup_insert, ?fn_lookup_insert_ne by done; [done|].
    specialize (A4 i j Hi Hj ltac:(done)). specialize (A5 j Hj). set_solver.
  - intros x. rewrite A6. assert (x ∈ P' ∪ list_to_set L' <-> x ∈ O i ∪ list_to_set L) as Ex by (by rewrite Hu).
    rewrite !elem_of_union, !elem_of_list_to_set in Ex. split.
    + intros [Hx|(j & Hj & Hx)]; [|destruct (decide (j = i)) as [->|]].
      * destruct (proj2 Ex (or_intror Hx)); [right; exists i; by rewrite fn_lookup_insert|by left].
      * destruct (proj2 Ex (or_introl Hx)); [right; exists i; by rewrite fn_lookup_insert|by left].
      * right. exists j. by rewrite fn_lookup_insert_ne.
    + intros [Hx|(j & Hj & Hx)]; [|destruct (decide (j = i)) as [->|]].
      * destruct (proj1 Ex (or_intror Hx)); [right; by exists i|by left].
      * rewrite fn_lookup_insert in Hx. destruct (proj1 Ex (or_introl Hx)); [right; by exists i|by left].
      * rewrite fn_lookup_insert_ne in Hx by done. right. by exists j.
Qed.

(** ** [freeproc] *)

Lemma holds_unused m p : pstate p = UNUSED -> pagetable p = 0 -> trapframe p = 0 -> psz p = 0 -> holds m p ∅.
Proof. intros E. unfold holds. by rewrite decide_True. Qed.

(** Only memory and the table of processes differ. *)
Definition mem_procs s s' : Prop := s' = set_procs (procs s') (set_ph (ph s') s).

(** The pages [freeproc] finds in [p], which may be half made. *)
Definition reclaim (m : memory) (p : proc) (P : gset Z) : Prop :=
  (trapframe p = 0 /\ pagetable p = 0 /\ P = ∅) \/ (kpage (trapframe p) /\ pagetable p = 0 /\ P = {[trapframe p]}) \/
  exists T F, space m p T F /\ P = pages_of p T F.

Definition released s i P L : unit -> kst St -> Prop := fun _ s' => mem_procs s s' /\ exists p' L',
  procs s' = <[i := p']> (procs s) /\ holds (mem (ph s')) p' ∅ /\ pstate p' = UNUSED /\ kalloc_inv (ph s') L' /\
  list_to_set L' = P ∪ list_to_set L /\ same_except P (mem (ph s)) (mem (ph s')).

Lemma freeproc_spec i s P L :
  (i < length (procs s))%nat -> reclaim (mem (ph s)) (procs s !!! i) P -> kalloc_inv (ph s) L -> P ## list_to_set L ->
  wp (freeproc i s) (released s i P L).
Proof.
  intros Hi Hr Hk Hd. unfold freeproc. apply wp_gets. set (p := procs s !!! i) in *.
  assert (wp ((if negb (trapframe p =? 0) then on_mem_k (kfree (trapframe p)) else mret tt) s) (fun _ s1 =>
    exists x L1, s1 = set_ph x s /\ kalloc_inv x L1 /\ list_to_set L1 =@{gset Z} (if trapframe p =? 0 then ∅ else {[trapframe p]}) ∪ list_to_set L /\
    same_except (if trapframe p =? 0 then ∅ else {[trapframe p]}) (mem (ph s)) (mem x))) as Htf.
  { destruct (Z.eqb_spec (trapframe p) 0) as [E0|N0]; cbn [negb].
    { apply wp_ret. exists (ph s), L. split; [by destruct s as [[]]|]. split; [done|]. split; [set_solver|done]. }
    assert (kpage (trapframe p) /\ trapframe p ∈ P) as [Hkp Hin].
    { destruct Hr as [(? & _)|[(? & _ & ->)|(T & F & Hs & ->)]]; [done|set_solver|]. split; [apply (sp_tf _ _ _ _ Hs)|unfold pages_of; set_solver]. }
    apply wp_on_mem. eapply wp_mono; [apply (kfree_spec _ (ph s) L Hk Hkp)|].
    - intros Hin'. apply (Hd (trapframe p)); [done|by apply elem_of_list_to_set].
    - intros [] x [Hk1 Hs1]. exists x, (trapframe p :: L). split; [done|]. split; [done|]. split; [set_solver|done]. }
  apply wp_bind. eapply wp_mono; [exact Htf|]. clear Htf. intros [] s1 (x & L1 & -> & Hk1 & HL1 & Hs1). apply wp_modify, wp_bind.
  destruct (Z.eqb_spec (pagetable p) 0) as [E0|N0]; cbn [negb].
  - apply wp_ret. unfold upd_proc, modify. cbn [wp]. split; [done|]. eexists _, L1. split; [simpl; by rewrite list_insert_insert_eq|].
    split; [apply holds_unused; try done; simpl; by rewrite list_lookup_total_insert_eq|]. split; [done|]. split; [done|].
    assert (P = if trapframe p =? 0 then ∅ else {[trapframe p]}) as ->.
    { destruct Hr as [(-> & _ & ->)|[(Hp & _ & ->)|(T & F & Hs & _)]]; [done|pose proof (kpage_pos _ Hp); by replace (trapframe p =? 0) with false by lia|].
      pose proof (kpage_pos _ (pi_page _ _ _ (as_pt _ _ _ _ (sp_as _ _ _ _ Hs)) _ _ (pi_root _ _ _ (as_pt _ _ _ _ (sp_as _ _ _ _ Hs))))). lia. }
    split; [exact HL1|exact Hs1].
  - destruct Hr as [(_ & ? & _)|[(_ & ? & _)|(T & F & Hs & ->)]]; [done|done|]. pose proof Hs as [B1 B2 B3 B4 B5 B6].
    pose proof (kpage_pos _ B4). replace (trapframe p =? 0) with false in * by lia. unfold pages_of in *.
    assert (space (mem x) p T F) as [C1 _ _ _ _ C6] by (eapply space_frame; [done|done|set_solver]).
    apply wp_on_mem. eapply wp_mono; [apply (proc_freepagetable_spec x _ T F L1 (psz p) (trapframe p))|].
    + split; [done|done|set_solver|set_solver].
    + done.
    + done.
    + by apply kpage_aligned.
    + destruct B4 as [_ ?]. pose proof (kpage_range _ (sp_tf _ _ _ _ Hs)). plia.
    + done.
    + intros [] y (L2 & Hk2 & HL2 & Hs2). unfold upd_proc, modify. cbn [wp]. split; [done|]. eexists _, L2.
      split; [simpl; by rewrite list_insert_insert_eq|]. split; [apply holds_unused; try done; simpl; by rewrite list_lookup_total_insert_eq|]. split; [done|]. split; [done|]. split.
      * rewrite HL2. unfold all_pages. rewrite HL1. set_solver.
      * eapply same_except_mono; [|eapply same_except_trans; [exact Hs1|exact Hs2]]. set_solver.
Qed.

(** ** [allocproc] *)

(** Memory, the table of processes and the next pid differ. *)
Definition quiet s s' : Prop := s' = set_nextpid (nextpid s') (set_procs (procs s') (set_ph (ph s') s)).

Record born s O L U (i : nat) s' : Prop := {
  bo_i : (i < NPROCn)%nat;
  bo_unused : pstate (procs s !!! i) = UNUSED;
  bo_procs : procs s' = <[i := procs s' !!! i]> (procs s);
  bo_state : pstate (procs s' !!! i) = USED;
  bo_pid : ppid (procs s' !!! i) = nextpid s;
  bo_files : ofile (procs s' !!! i) = ofile (procs s !!! i);
  bo_frame : same_except (list_to_set L) (mem (ph s)) (mem (ph s'));
  bo_space : exists T L', space (mem (ph s')) (procs s' !!! i) T [] /\
    pages_of (procs s' !!! i) T [] ∪ list_to_set L' = list_to_set L /\ isolated s' (<[i := pages_of (procs s' !!! i) T []]> O) L' U;
}.

(** Only a free entry has changed, and the order of the free list. *)
Definition unborn s L U s' : Prop :=
  (exists i p', (i < NPROCn)%nat /\ pstate (procs s !!! i) = UNUSED /\ procs s' = <[i := p']> (procs s) /\ pstate p' = UNUSED) /\
  same_except (list_to_set L) (mem (ph s)) (mem (ph s')) /\ exists O' L', isolated s' O' L' U /\ list_to_set L' =@{gset Z} list_to_set L.

Lemma allocproc_undo {A} (v : A) s O L U i p P L4 s4 :
  isolated s O L U -> (i < NPROCn)%nat -> pstate (procs s !!! i) = UNUSED -> quiet s s4 -> procs s4 = <[i := p]> (procs s) ->
  reclaim (mem (ph s4)) p P -> kalloc_inv (ph s4) L4 -> P ## list_to_set L4 -> P ∪ list_to_set L4 =@{gset Z} list_to_set L ->
  same_except (list_to_set L) (mem (ph s)) (mem (ph s4)) ->
  wp ((freeproc i;; mret v) s4) (fun r s' => r = v /\ quiet s s' /\ unborn s L U s').
Proof.
  intros Hiso Hi Hu Hq Ep Hr Hk Hd Hall Hse. pose proof (is_len _ _ _ _ Hiso) as Hl.
  assert (procs s4 !!! i = p) as Epi by (rewrite Ep; apply list_lookup_total_insert_eq; lia).
  wp_step (freeproc_spec i s4 P L4); [rewrite Ep, length_insert; lia|by rewrite Epi|done|done|].
  intros [] s5 (Hm & p' & L5 & Ep5 & Hh & Hst & Hk5 & HL5 & Hs5). apply wp_ret. split; [done|].
  rewrite Ep, list_insert_insert_eq in Ep5.
  assert (O i = ∅) as Oi by (pose proof (is_holds _ _ _ _ Hiso i Hi) as Ho; unfold holds in Ho; rewrite decide_True in Ho by done; apply Ho).
  assert (same_except (list_to_set L) (mem (ph s)) (mem (ph s5))) as Hs05.
  { eapply same_except_mono; [|eapply same_except_trans; [exact Hse|exact Hs5]]. set_solver. }
  split.
  { unfold quiet in *. rewrite Hm, Hq. done. }
  split; [by exists i, p'|]. split; [done|]. exists (<[i := ∅]> O), L5. split; [|set_solver].
  eapply isolated_change; [done|done|done|done| |done|set_solver|rewrite Oi, HL5; set_solver]. rewrite Oi. eapply same_except_mono; [|exact Hs05]. set_solver.
Qed.

Lemma allocproc_spec s O L U :
  isolated s O L U ->
  wp (allocproc s) (fun r s' => quiet s s' /\
    match r with Some i => born s O L U i s' | None => s' = s \/ unborn s L U s' end).
Proof.
  intros Hiso. unfold allocproc. apply wp_gets. pose proof (is_len _ _ _ _ Hiso) as Hl.
  destruct (find_unused NPROCn 0 (procs s)) as [i|] eqn:Ef; [|apply wp_ret; split; [by destruct s as [[]]|by left]].
  apply find_unused_spec in Ef as [Hi Hu]. simpl in Hi. assert (i < NPROCn)%nat as Hi' by lia. clear Hi.
  pose proof (is_holds _ _ _ _ Hiso i Hi') as Ho. unfold holds in Ho. rewrite decide_True in Ho by done. destruct Ho as (Oi & Ept & Etf & Esz).
  pose proof (is_free _ _ _ _ Hiso) as Hk. unfold allocpid. apply wp_bind, wp_gets, wp_modify, wp_ret, wp_modify. cbv beta.
  set (s1 := set_procs _ _). assert (ph s1 = ph s) as Eph by done. apply wp_bind, wp_on_mem. rewrite Eph.
  eapply wp_mono; [by apply kalloc_spec|]. intros tf x Hx. apply wp_modify. cbv beta. set (s2 := set_procs _ _).
  set (p2 := with_trapframe tf (with_pstate USED (with_ppid (nextpid s) (procs s !!! i)))).
  assert (procs s2 = <[i := p2]> (procs s)) as Ep2.
  { unfold s2, s1, p2. simpl. rewrite list_insert_insert_eq, list_lookup_total_insert_eq by lia. done. }
  assert (quiet s s2) as Hq2 by done. assert (ph s2 = x) as Ex2 by done.
  assert (forall r s', r = None /\ quiet s s' /\ unborn s L U s' -> quiet s s' /\ match r with Some i => born s O L U i s' | None => s' = s \/ unborn s L U s' end) as Hfail
    by (intros r s' (-> & ? & ?); auto).
  destruct L as [|q L1].
  { destruct Hx as [-> ->]. cbn [Z.eqb]. eapply wp_mono; [|exact Hfail].
    eapply (allocproc_undo None s O [] U i p2 ∅ [] s2); try done. by left. }
  destruct Hx as (-> & Hk1 & Hs1 & _). destruct (kalloc_inv_app _ [] _ _ Hk) as [Hq Hnq]. pose proof (kpage_pos q Hq).
  replace (q =? 0) with false by lia. apply wp_bind, wp_on_mem. rewrite Ex2.
  eapply wp_mono; [apply (proc_pagetable_spec q x L1 Hk1)|]; [by apply kpage_aligned|destruct (kpage_range q Hq); plia|].
  intros pt y [Hse Hpt]. apply wp_modify. cbv beta. set (s3 := set_procs _ _). set (p3 := with_pagetable pt p2).
  assert (procs s3 = <[i := p3]> (procs s)) as Ep3.
  { change (procs s3) with (<[i := with_pagetable pt (procs s2 !!! i)]> (procs s2)). rewrite Ep2, list_insert_insert_eq, list_lookup_total_insert_eq by lia. done. }
  assert (same_except (list_to_set (q :: L1)) (mem (ph s)) (mem y)) as Hs03.
  { eapply same_except_mono; [|eapply same_except_trans; [exact Hs1|exact Hse]]. set_solver. }
  destruct Hpt as [(-> & L2 & Hk2 & HL2)|(Hpt & T & L2 & Hpm & Hall & Hhi)].
  - cbn [Z.eqb]. eapply wp_mono; [|exact Hfail]. eapply (allocproc_undo None s O (q :: L1) U i p3 {[q]} L2 s3); try done.
    + right. left. done.
    + rewrite HL2. set_solver.
    + rewrite HL2. set_solver.
  - replace (pt =? 0) with false by lia. unfold upd_proc. apply wp_modify, wp_ret. set (s4 := set_procs _ _). split; [done|].
    set (p4 := with_context (forkret_addr, u64 (kstack (procs s3 !!! i) + PGSIZE)) (procs s3 !!! i)).
    assert (procs s3 !!! i = p3) as E3i by (rewrite Ep3; apply list_lookup_total_insert_eq; lia).
    assert (procs s4 = <[i := p4]> (procs s)) as Ep4.
    { change (procs s4) with (<[i := p4]> (procs s3)). by rewrite Ep3, list_insert_insert_eq. }
    assert (procs s4 !!! i = p4) as E4i by (rewrite Ep4; apply list_lookup_total_insert_eq; lia).
    assert (pagetable p4 = pt /\ trapframe p4 = q /\ psz p4 = 0) as (F1 & F2 & F3) by (unfold p4; rewrite E3i; done).
    assert (q ∉ dom T) as HqT by (unfold all_pages in Hall; set_solver).
    assert (space (mem y) p4 T []) as Hsp.
    { split; rewrite ?F1, ?F2, ?F3; try done; [apply (pm_as _ _ _ _ _ Hpm)|set_solver]. }
    split; rewrite ?E4i; try done; [unfold p4; by rewrite E3i..|].
    exists T, L2. split; [done|]. unfold all_pages in Hall. split; [unfold pages_of; rewrite F2; clear - Hall; set_solver|].
    assert (holds (mem y) p4 (pages_of p4 T [])) as Hh.
    { unfold holds. rewrite decide_False by (unfold p4; by rewrite E3i). by exists T, []. }
    pose proof (pm_dT _ _ _ _ _ Hpm). pose proof (pm_k _ _ _ _ _ Hpm).
    eapply isolated_change; [done|done|done|done| |done| |]; rewrite ?Oi; unfold pages_of; rewrite ?F2; [eapply same_except_mono; [|exact Hs03]; set_solver|set_solver|set_solver].
Qed.
End isolation.
