(* ===== verification/ForkThms.v ===== *)
(** * What [fork] does (kernel/proc.c, [fork], over kernel/vm.c and file.c)

    [fork] as a whole, with the memory of all processes accounted for. *)

From S2P Require Import Prelude Riscv Mem Kstring Kalloc Vm VmPt VmWalk VmMap VmUser VmAlloc VmFork VmFree VmCopy VmProc Store Fs Kernel Proc File Fork Syscall PipeThms ProcThms VmThms FileThms Isolation.

Section fork.
Context `{Linker} `{Symbols} {St : Type} {ST : Store St}.
Implicit Types s : kst St.

(** ** Open files *)

(** The files of [me] can be duplicated [k] more times. *)
Definition dupable (k : nat) (me : nat) s : Prop :=
  forall fd f, ofile (procs s !!! me) !! fd = Some (Some f) -> (f < length (ftable s))%nat /\ 1 <= fref (ftable s !!! f) <= 2 ^ 31 - 1 - k.

Definition share (mine yours : list (option nat)) (i : nat) : list (option nat) :=
  imap (fun j y => if decide (i <= j)%nat then match mine !!! j with Some f => Some f | None => y end else y) yours.

Lemma share_lookup mine yours i j : (j < length yours)%nat ->
  share mine yours i !! j = Some (if decide (i <= j)%nat then match mine !!! j with Some f => Some f | None => yours !!! j end else yours !!! j).
Proof.
  intros Hj. unfold share. rewrite list_lookup_imap. destruct (lookup_lt_is_Some_2 yours j Hj) as [y Hy].
  rewrite Hy, (list_lookup_total_correct _ _ _ Hy). done.
Qed.

Lemma share_step mine yours i :
  (i < length yours)%nat ->
  share mine yours i = share mine (match mine !!! i with Some f => <[i := Some f]> yours | None => yours end) (S i).
Proof.
  intros Hi. apply list_eq. intros j. destruct (decide (j < length yours)%nat) as [Hj|Hj].
  - rewrite !share_lookup by (repeat case_match; rewrite ?length_insert; lia). f_equal. destruct (decide (j = i)) as [->|Hne].
    + rewrite decide_True, decide_False by lia. case_match; [by rewrite list_lookup_total_insert_eq by lia|done].
    + assert (forall x, <[i := x]> yours !!! j = yours !!! j) as E by (intros x; by apply list_lookup_total_insert_ne).
      destruct (decide (i <= j)%nat), (decide (S i <= j)%nat); try lia; repeat case_match; rewrite ?E; done.
  - rewrite !lookup_ge_None_2; [done|..]; unfold share; rewrite length_imap; repeat case_match; rewrite ?length_insert; lia.
Qed.

Lemma fork_files_spec k i me np s :
  me <> np -> (np < length (procs s))%nat -> dupable k me s -> (i + k)%nat = length (ofile (procs s !!! np)) ->
  length (ofile (procs s !!! me)) = length (ofile (procs s !!! np)) ->
  wp (fork_files k i me np s) (fun _ s' => exists ft, length ft = length (ftable s) /\ s' = set_ftable ft
    (set_procs (<[np := with_ofile (share (ofile (procs s !!! me)) (ofile (procs s !!! np)) i) (procs s !!! np)]> (procs s)) s)).
Proof.
  intros Hne Hnp. revert i s Hnp. induction k as [|k IH]; intros i s Hnp Hd Hk Hl; cbn [fork_files].
  { apply wp_ret. exists (ftable s). split; [done|]. assert (with_ofile (share (ofile (procs s !!! me)) (ofile (procs s !!! np)) i) (procs s !!! np) = procs s !!! np) as ->.
    { assert (share (ofile (procs s !!! me)) (ofile (procs s !!! np)) i = ofile (procs s !!! np)) as ->; [|by destruct (procs s !!! np)].
      apply list_eq. intros j. destruct (decide (j < length (ofile (procs s !!! np)))%nat) as [Hj|Hj].
      - rewrite share_lookup by done. rewrite decide_False by lia. symmetry. by apply list_lookup_lookup_total_lt.
      - rewrite !lookup_ge_None_2; [done|lia|unfold share; rewrite length_imap; lia]. }
    rewrite list_insert_id by (by apply list_lookup_lookup_total_lt). by destruct s. }
  apply wp_gets. assert (i < length (ofile (procs s !!! me)))%nat as Hi by lia. rewrite (share_step _ _ i) by lia.
  destruct (ofile (procs s !!! me) !!! i) as [f|] eqn:Ef; apply wp_bind.
  - assert (ofile (procs s !!! me) !! i = Some (Some f)) as Efi by (rewrite <- Ef; by apply list_lookup_lookup_total_lt).
    destruct (Hd i f Efi) as [Hf Hr]. unfold filedup. apply wp_bind, wp_gets. replace (fref (ftable s !!! f) <? 1) with false by lia.
    apply wp_modify, wp_ret. cbv beta. set (s1 := set_ftable _ s). set (p := with_ofile (<[i := Some f]> (ofile (procs s !!! np))) (procs s !!! np)).
    set (s2 := set_procs (<[np := p]> (procs s)) s1). change (wp (fork_files k (S i) me np s2) (fun _ s' => exists ft, length ft = length (ftable s) /\ s' = set_ftable ft
      (set_procs (<[np := with_ofile (share (ofile (procs s !!! me)) (ofile p) (S i)) (procs s !!! np)]> (procs s)) s))).
    assert (procs s2 !!! me = procs s !!! me) as E2 by (simpl; by rewrite list_lookup_total_insert_ne).
    assert (procs s2 !!! np = p) as E3 by (simpl; by rewrite list_lookup_total_insert_eq).
    eapply wp_mono; [apply (IH (S i) s2)|].
    + simpl. by rewrite length_insert.
    + intros fd g Hg. rewrite E2 in Hg. destruct (Hd fd g Hg) as [Hg1 Hg2]. simpl. rewrite length_insert. split; [done|].
      destruct (decide (g = f)) as [->|].
      * rewrite list_lookup_total_insert_eq by done. simpl. rewrite sint_id by (change (2 ^ (32 - 1)) with (2 ^ 31); lia). lia.
      * rewrite list_lookup_total_insert_ne by done. lia.
    + rewrite E3. simpl. rewrite length_insert. lia.
    + rewrite E2, E3. simpl. by rewrite length_insert.
    + intros [] s' (ft & Hft & ->). exists ft. split; [rewrite Hft; simpl; by rewrite length_insert|]. rewrite E2, E3. simpl. rewrite list_insert_insert_eq. done.
  - apply wp_ret. apply (IH (S i) s); [done| |lia|done]. intros fd g Hg. destruct (Hd fd g Hg). lia.
Qed.

(** ** Memory *)

Definition same_bytes (F F' : list Z) (m m' : memory) : Prop := forall x, 0 <= x < length F * PGSIZE -> ubyte F' m' x = ubyte F m x.

(** The child [c] has the memory, the registers and the open files of [p], and
    returns 0 from its own [fork]. *)
Record forked s me np ip s' : Prop := {
  fk_unused : pstate (procs s !!! np) = UNUSED;
  fk_procs : procs s' = <[np := procs s' !!! np]> (procs s);
  fk_state : pstate (procs s' !!! np) = RUNNABLE;
  fk_parent : parent (procs s' !!! np) = Some me;
  fk_pid : ppid (procs s' !!! np) = nextpid s;
  fk_files : ofile (procs s' !!! np) = ofile (procs s !!! me);
  fk_cwd : cwd (procs s' !!! np) = Some ip;
  fk_size : psz (procs s' !!! np) = psz (procs s !!! me);
  fk_tf off : 0 <= off -> off + 8 <= tf_size -> off mod 8 = 0 ->
    ld64 (mem (ph s')) (trapframe (procs s' !!! np) + off) = if decide (off = tf_a0) then 0 else ld64 (mem (ph s)) (trapframe (procs s !!! me) + off);
  fk_mem : exists To Fo T F, space (mem (ph s)) (procs s !!! me) To Fo /\ space (mem (ph s')) (procs s !!! me) To Fo /\ same_bytes Fo Fo (mem (ph s)) (mem (ph s')) /\
    space (mem (ph s')) (procs s' !!! np) T F /\ same_bytes Fo F (mem (ph s)) (mem (ph s')) /\
    forall k, (k < length F)%nat -> PTE_FLAGS (leaf (mem (ph s')) (pagetable (procs s' !!! np)) (k * PGSIZE)) = PTE_FLAGS (leaf (mem (ph s)) (pagetable (procs s !!! me)) (k * PGSIZE));
}.

Lemma copied_bytes m0 m old new Fo Fn : length Fn = length Fo -> copied m0 m old new Fo Fn -> same_bytes Fo Fn m0 m.
Proof.
  intros Hl Hc x Hx. unfold ubyte. destruct (lookup_lt_is_Some_2 Fo (Z.to_nat (x / PGSIZE))) as [p Hp]; [plia|].
  destruct (lookup_lt_is_Some_2 Fn (Z.to_nat (x / PGSIZE))) as [q Hq]; [rewrite Hl; by eapply lookup_lt_Some|].
  rewrite (list_lookup_total_correct _ _ _ Hp), (list_lookup_total_correct _ _ _ Hq). destruct (Hc _ _ _ Hp Hq) as [He _]. apply He. plia.
Qed.

Lemma same_bytes_frame P m m' m0 F0 F : same_bytes F0 F m0 m -> length F = length F0 -> same_except P m m' -> P ## list_to_set F -> Forall kpage F ->
  same_bytes F0 F m0 m'.
Proof.
  intros Hs Hl Hse Hd Hk x Hx. rewrite <- Hs by done. unfold ubyte, ld8.
  destruct (lookup_lt_is_Some_2 F (Z.to_nat (x / PGSIZE))) as [p Hp]; [plia|]. rewrite (list_lookup_total_correct _ _ _ Hp).
  apply list_elem_of_lookup_2 in Hp. rewrite Hse; [done|]. rewrite (pg_in p); [set_solver| |plia]. rewrite Forall_forall in Hk. by apply kpage_aligned, Hk.
Qed.

(** Parent and child after the copy from [m1] to [mx], and the write of the child's trapframe. *)
Lemma fork_memory (LS : gset Z) m m1 mx m' p c To Fo Tn Fn :
  space m p To Fo -> same_except LS m m1 -> same_except LS m1 mx -> same_except {[trapframe c]} mx m' -> LS ## pages_of p To Fo -> trapframe c ∈ LS ->
  length Fn = length Fo -> copied m1 mx (pagetable p) (pagetable c) Fo Fn -> as_inv mx (pagetable c) Tn Fn -> trapframe c ∉ (dom Tn ∪ list_to_set Fn : gset Z) ->
  space m' p To Fo /\ same_bytes Fo Fo m m' /\ same_bytes Fo Fn m m' /\
  forall k, (k < length Fn)%nat -> PTE_FLAGS (leaf m' (pagetable c) (k * PGSIZE)) = PTE_FLAGS (leaf m (pagetable p) (k * PGSIZE)).
Proof.
  intros Hsp K1 K2 K3 Hd Ht Hl Hc Has Hta. unfold pages_of in Hd.
  assert (same_except LS m m') as K0.
  { eapply same_except_mono; [|eapply same_except_trans; [exact K1|eapply same_except_trans; [exact K2|exact K3]]]. clear - Ht. set_solver. }
  pose proof (sp_as _ _ _ _ Hsp) as Hap. assert (LS ## dom To) as Hdt by (clear - Hd; set_solver).
  assert (LS ## list_to_set Fo) as HdF by (clear - Hd; set_solver). clear Hd.
  split; [by eapply space_frame|]. split; [by eapply (same_bytes_frame LS m m'); [..|apply (as_pages _ _ _ _ Hap)]|]. split.
  - eapply (same_bytes_frame {[trapframe c]} mx m'); [|done|done|clear - Hta; set_solver|apply (as_pages _ _ _ _ Has)].
    intros y Hy. rewrite (copied_bytes _ _ _ _ _ _ Hl Hc y Hy). symmetry.
    assert (same_bytes Fo Fo m m1) as Hb by (by eapply (same_bytes_frame LS m m1); [..|apply (as_pages _ _ _ _ Hap)]).
    by rewrite Hb.
  - intros k Hk. pose proof (as_size _ _ _ _ Has) as Hsz. assert (0 <= k * PGSIZE < MAXVA) as Hva by plia.
    rewrite (leaf_frame (as_pt _ _ _ _ Has) {[trapframe c]} m' _ K3); [|clear - Hta; set_solver|done].
    rewrite <- (leaf_frame (as_pt _ _ _ _ Hap) LS m1 _ K1); [|done|done].
    destruct (lookup_lt_is_Some_2 Fn k Hk) as [q' Hq']. destruct (lookup_lt_is_Some_2 Fo k ltac:(lia)) as [p' Hp']. apply (Hc k p' q' Hp' Hq').
Qed.

(** The child's trapframe. *)
Lemma fork_trapframe m p q off :
  aligned p -> aligned q -> p <> q -> 0 <= off -> off + 8 <= tf_size -> off mod 8 = 0 ->
  ld64 (st64 (memmove m q p tf_size) (q + tf_a0) 0) (q + off) = if decide (off = tf_a0) then 0 else ld64 m (p + off).
Proof.
  intros Hp Hq Hne H1 H2 H3. destruct (decide (off = tf_a0)) as [->|Hno]; [by rewrite ld64_st64_eq|].
  unfold tf_size, tf_a0 in *. rewrite ld64_st64_ne by (zdm; lia). apply ld64_shift. intros i Hi. unfold ld8. rewrite lookup_memmove by lia.
  rewrite decide_True by lia. unfold ld8. rewrite Z.mod_mod by lia. do 2 f_equal. lia.
Qed.

Lemma fork_tf_frame m p q : aligned q -> same_except {[q]} m (st64 (memmove m q p tf_size) (q + tf_a0) 0).
Proof.
  intros Hq x Hx. assert (pg x <> q) as Hn by set_solver. assert (x < q \/ q + PGSIZE <= x) as Ho.
  { destruct (decide (q <= x < q + PGSIZE)); [|lia]. destruct Hn. replace x with (q + (x - q)) by lia. apply pg_in; [done|lia]. }
  unfold tf_size, tf_a0. rewrite lookup_st64_out by (unfold PGSIZE in Ho; lia). rewrite lookup_memmove by lia. rewrite decide_False by (unfold PGSIZE in Ho; lia). done.
Qed.

(** ** The whole *)

Lemma refs_pos ps i fd f : ofile (ps !!! i) !! fd = Some (Some f) -> (i < length ps)%nat -> (1 <= refs f ps)%nat.
Proof.
  revert i. induction ps as [|p ps IH]; intros i Hf Hi; simpl in *; [lia|]. destruct i as [|i].
  - change ((p :: ps) !!! 0%nat) with p in Hf. assert (1 <= holders f (ofile p))%nat; [|lia]. unfold holders.
    assert (Some f ∈ filter (fun x => x = Some f) (ofile p)) as Hin by (apply list_elem_of_filter; split; [done|by eapply list_elem_of_lookup_2]).
    destruct (filter _ _); [by apply elem_of_nil in Hin|simpl; lia].
  - specialize (IH i Hf ltac:(lia)). lia.
Qed.

Lemma accounted_dupable s me : accounted none s -> (me < NPROCn)%nat -> dupable NOFILEn me s.
Proof.
  intros Ha Hme fd f Hf. pose proof (ac_shape _ _ Ha) as [H1' H2' H3' H4' H5']. assert (f < NFILEn)%nat as Hlt by (by eapply (H4' me)).
  split; [lia|]. pose proof (accounted_bound _ _ _ Ha Hlt). rewrite (ac_ref _ _ Ha f Hlt) in *. unfold none in *.
  pose proof (refs_pos (procs s) me fd f Hf ltac:(lia)). change NOFILEn with 16%nat. lia.
Qed.

(** Steps on the entry [np], whatever the rest. *)
Lemma wp_upd_entry {A} np f c ps s (k : unit -> M (kst St) A) Q :
  procs s = <[np := c]> ps -> (np < length ps)%nat -> wp (k tt (set_procs (<[np := f c]> ps) s)) Q -> wp ((upd_proc np f ≫= k) s) Q.
Proof.
  intros E Hn Hw. unfold upd_proc. apply wp_modify. cbv beta. rewrite E, list_insert_insert_eq, list_lookup_total_insert_eq by done. exact Hw.
Qed.

Definition fork_post s O L U me ip : Z -> kst St -> Prop := fun r s' =>
  (r = -1 /\ (s' = s \/ quiet s s' /\ unborn s L U s')) \/
  exists np P L', (np < NPROCn)%nat /\ r = nextpid s /\ forked s me np ip s' /\ isolated s' (<[np := P]> O) L' U.

(** What is left of [fork] once memory has been copied. *)
Definition fork_rest me np (p q : proc) : M (kst St) Z :=
  upd_proc np (with_psz (psz p));;
  on_mem_k (do_memmove (trapframe q) (trapframe p) tf_size);;
  tf_store np tf_a0 0;;
  fork_files NOFILEn 0 me np;;
  d ← (match cwd p with Some ip => d ← on_fs (idup ip); mret (Some d) | None => panic "kerneltrap" end);
  upd_proc np (with_cwd d);;
  upd_proc np (with_pname (name16 (pname p)));;
  q ← get_proc np;
  upd_proc np (with_parent (Some me));;
  upd_proc np (with_pstate RUNNABLE);;
  mret (ppid q).

Lemma fork_rest_spec s me np p q ps ip :
  procs s = <[np := q]> ps -> (np < length ps)%nat -> me <> np -> ps !!! me = p -> cwd p = Some ip -> dupable NOFILEn me s ->
  length (ofile p) = NOFILEn -> ofile q = repeat None NOFILEn ->
  wp (fork_rest me np p q s) (fun r s' => exists c, r = ppid q /\ procs s' = <[np := c]> ps /\
    pstate c = RUNNABLE /\ parent c = Some me /\ ppid c = ppid q /\ ofile c = ofile p /\ cwd c = Some ip /\ psz c = psz p /\
    pagetable c = pagetable q /\ trapframe c = trapframe q /\
    ph s' = set_mem (st64 (memmove (mem (ph s)) (trapframe q) (trapframe p) tf_size) (trapframe q + tf_a0) 0) (ph s)).
Proof.
  intros Eps Hnp Hne Eme Ecwd Hd Hlp Hoq. unfold fork_rest. eapply wp_upd_entry; [done|done|]. set (q1 := with_psz (psz p) q).
  set (s1 := set_procs (<[np := q1]> ps) s). apply wp_bind, wp_on_mem. unfold do_memmove at 1, modify at 1. cbn [wp].
  unfold tf_store. apply wp_bind. unfold get_proc at 1. apply wp_gets. set (s2 := set_ph _ s1).
  assert (procs s2 !!! np = q1) as E2 by (by apply list_lookup_total_insert_eq). rewrite E2.
  apply wp_on_mem. unfold store64, modify at 1. cbn [wp]. set (s3 := set_ph _ s2).
  assert (procs s3 = <[np := q1]> ps) as E3 by done.
  assert (procs s3 !!! np = q1) as E3n by (by apply list_lookup_total_insert_eq).
  assert (procs s3 !!! me = p) as E3m by (rewrite E3, list_lookup_total_insert_ne; done).
  assert (procs s !!! me = p) as Em by (rewrite Eps, list_lookup_total_insert_ne; done).
  wp_step (fork_files_spec NOFILEn 0 me np s3); [done|by rewrite E3, length_insert| | | |].
  - intros fd f Hf. rewrite E3m in Hf. apply (Hd fd f). by rewrite Em.
  - rewrite E3n. simpl. by rewrite Hoq, repeat_length.
  - rewrite E3n, E3m. simpl. by rewrite Hoq, repeat_length.
  - intros [] s4 (ft & _ & ->). rewrite E3n, E3m, E3, list_insert_insert_eq. rewrite Ecwd.
    assert (share (ofile p) (ofile q1) 0 = ofile p) as ->.
    { apply list_eq. intros j. change (ofile q1) with (ofile q). rewrite Hoq. destruct (decide (j < NOFILEn)%nat) as [Hj|Hj].
      - rewrite share_lookup by (by rewrite repeat_length). rewrite decide_True by lia.
        rewrite (list_lookup_lookup_total_lt (ofile p) j) by lia. destruct (ofile p !!! j); [done|].
        f_equal. change (repeat (A := option nat) None NOFILEn) with (replicate NOFILEn (None : option nat)). by apply lookup_total_replicate_2.
      - rewrite !lookup_ge_None_2; [done|lia|unfold share; rewrite length_imap, repeat_length; lia]. }
    set (q2 := with_ofile (ofile p) q1). set (s4 := set_ftable ft _).
    assert (exists fs, (d ← on_fs (idup ip); mret (Some d)) s4 = Ret (Some ip) (set_fs fs s4) /\ km fs = ph s4) as (fs & E5 & Ekm) by (by eexists).
    rewrite (bind_ret_eq _ _ _ _ _ E5). do 2 (eapply wp_upd_entry; [reflexivity|done|]). unfold get_proc. apply wp_gets.
    do 2 (eapply wp_upd_entry; [reflexivity|done|]). apply wp_ret. eexists. cbn [procs set_procs]. rewrite list_lookup_total_insert_eq by done.
    split; [done|]. split; [reflexivity|]. by split_and!.
Qed.

Lemma fork_spec s O L U me ip :
  isolated s O L U -> accounted none s -> (me < NPROCn)%nat -> pstate (procs s !!! me) = RUNNING -> cwd (procs s !!! me) = Some ip ->
  wp (fork me s) (fork_post s O L U me ip).
Proof.
  intros Hiso Hac Hme Hrun Hcwd. unfold fork. pose proof (is_len _ _ _ _ Hiso) as Hl. wp_step (allocproc_spec s O L U Hiso).
  intros r s1 [Hq1 Hr]. destruct r as [np|]; [|apply wp_ret; left; split; [done|]; destruct Hr; auto].
  destruct Hr as [Hnp Hun Eps Hst Hpid Hof Hfr (T & L1 & Hsq & Hpg & Hiso1)].
  set (q := procs s1 !!! np) in *. set (p := procs s !!! me) in *.
  assert (me <> np) as Hne by (intros ->; fold p in Hun; congruence).
  pose proof (is_holds _ _ _ _ Hiso me Hme) as Ho. unfold holds in Ho. fold p in Ho. rewrite decide_False in Ho by (by rewrite Hrun).
  destruct Ho as (To & Fo & Hsp & HO). pose proof (is_apart _ _ _ _ Hiso me Hme) as Hap.
  assert (space (mem (ph s1)) p To Fo) as Hsp1 by (eapply space_frame; [done|done|]; rewrite HO in Hap; unfold pages_of in Hap; clear - Hap; set_solver).
  assert (procs s1 !!! me = p) as E1m by (rewrite Eps, list_lookup_total_insert_ne; done).
  unfold get_proc. apply wp_gets. rewrite E1m. apply wp_gets. fold q.
  pose proof (is_apart _ _ _ _ Hiso1 np Hnp) as Hap1. rewrite fn_lookup_insert in Hap1.
  assert (proc_mem (ph s1) (pagetable q) T [] L1) as Hpm.
  { split; [apply (is_free _ _ _ _ Hiso1)|apply (sp_as _ _ _ _ Hsq)|unfold pages_of in Hap1; clear - Hap1; set_solver|set_solver]. }
  assert (all_pages T [] L1 ⊆ list_to_set L) as Hsub by (rewrite <- Hpg; unfold all_pages, pages_of; clear; set_solver).
  apply wp_bind, wp_on_mem. eapply wp_mono; [apply (uvmcopy_spec (ph s1) (pagetable p) To Fo (pagetable q) T L1 (psz p))|].
  { apply (sp_sz _ _ _ _ Hsp). } { apply (sp_len _ _ _ _ Hsp). } { apply (sp_as _ _ _ _ Hsp1). } { done. }
  { rewrite HO in Hap. unfold pages_of in Hap. clear - Hap Hsub. set_solver. }
  intros r x (Tn & Fn & L2 & Hpm2 & Hsub2 & Hall2 & Hse2 & Hhi2 & Hr). set (s2 := set_ph x s1).
  assert (same_except (list_to_set L) (mem (ph s)) (mem x)) as Hs02.
  { eapply same_except_mono; [|eapply same_except_trans; [exact Hfr|exact Hse2]]. clear - Hsub. set_solver. }
  assert (trapframe q ∉ all_pages Tn Fn L2) as Hqa.
  { rewrite Hall2. pose proof (sp_apart _ _ _ _ Hsq) as Hqa. unfold all_pages, pages_of in *. clear - Hqa Hap1. set_solver. }
  assert (high_mapped (mem x) (pagetable q) (trapframe q)) as Hhm by (intros va Hva; rewrite Hhi2 by done; by apply (sp_high _ _ _ _ Hsq)).
  assert (pages_of q Tn Fn ∪ list_to_set L2 = list_to_set L) as Hpg2.
  { rewrite <- Hpg. unfold pages_of, all_pages in *. clear - Hall2. set_solver. }
  assert (psz q = 0) as Hszq.
  { pose proof (npages_spec _ (sp_sz _ _ _ _ Hsq)) as [_ Hn]. pose proof (sp_len _ _ _ _ Hsq) as E. pose proof (sp_sz _ _ _ _ Hsq). rewrite E in Hn. simpl in Hn. lia. }
  pose proof (pm_dT _ _ _ _ _ Hpm2) as HdT. pose proof (pm_dF _ _ _ _ _ Hpm2) as HdF.
  assert (pages_of q Tn Fn ## list_to_set L2) as Hdis2.
  { unfold pages_of, all_pages in *. clear - HdT HdF Hqa. set_solver. }
  assert (trapframe q ∉ (dom Tn ∪ list_to_set Fn : gset Z)) as Hqa' by (unfold all_pages in Hqa; clear - Hqa; set_solver).
  destruct Hr as [(-> & Hlen & Hcop)|(-> & ->)]; cbn [Z.ltb Z.compare].
  - change (wp (fork_rest me np p q s2) (fork_post s O L U me ip)).
    pose proof (ac_shape _ _ Hac) as [_ _ S3 _ S5].
    assert (ftable s2 = ftable s) as Eft by (unfold s2, quiet in *; rewrite Hq1; done).
    eapply wp_mono; [apply (fork_rest_spec s2 me np p q (procs s) ip)|]; try done.
    { lia. } { intros fd f Hf. rewrite Eft. change (procs s2 !!! me) with (procs s1 !!! me) in Hf. rewrite E1m in Hf. by apply (accounted_dupable s me Hac Hme fd f). }
    { by apply S3. } { rewrite Hof. apply S5; [done|]. unfold dead. apply bool_decide_eq_true_2. by left. }
    intros r s' (c & -> & Ec & C1 & C2 & C3 & C4 & C5 & C6 & C7 & C8 & Eph). right.
    exists np, (pages_of c Tn Fn), L2. split; [done|]. split; [by rewrite <- Hpid|].
    assert (procs s' !!! np = c) as Ecn by (rewrite Ec; apply list_lookup_total_insert_eq; lia).
    pose proof (sp_tf _ _ _ _ Hsq) as Htq. pose proof (sp_tf _ _ _ _ Hsp) as Htp.
    pose proof (fork_tf_frame (mem x) (trapframe p) (trapframe q) (kpage_aligned _ Htq)) as Hs23.
    assert (mem (ph s') = st64 (memmove (mem x) (trapframe q) (trapframe p) tf_size) (trapframe q + tf_a0) 0) as Em by (by rewrite Eph).
    assert (same_except (list_to_set L) (mem (ph s)) (mem (ph s'))) as Hs03.
    { rewrite Em. eapply same_except_mono; [|eapply same_except_trans; [exact Hs02|exact Hs23]]. rewrite <- Hpg2. unfold pages_of. clear. set_solver. }
    assert (space (mem (ph s')) c Tn Fn) as Hsc.
    { rewrite Em. eapply space_frame; [|exact Hs23|clear - Hqa'; set_solver].
      split; rewrite ?C6, ?C7, ?C8; try done; [apply (pm_as _ _ _ _ _ Hpm2)|apply (sp_sz _ _ _ _ Hsp)]. }
    assert (trapframe q ∈ (list_to_set L : gset Z)) as HqL by (rewrite <- Hpg2; unfold pages_of; clear; set_solver).
    rewrite HO in Hap. assert (trapframe p ∉ (list_to_set L : gset Z)) as HpL by (unfold pages_of in Hap; clear - Hap; set_solver).
    destruct (fork_memory (list_to_set L) (mem (ph s)) (mem (ph s1)) (mem x) (mem (ph s')) p c To Fo Tn Fn) as (M1 & M2 & M3 & M4); rewrite ?C7, ?C8; try done.
    { eapply same_except_mono; [exact Hsub|exact Hse2]. } { by rewrite Em. } { by rewrite Hlen, (sp_len _ _ _ _ Hsp). } { apply (pm_as _ _ _ _ _ Hpm2). }
    split.
    + split; rewrite ?Ecn; try done; try (by rewrite C3).
      * intros off Ho1 Ho2 Ho3. rewrite Em, C8, fork_trapframe; [|by apply kpage_aligned|by apply kpage_aligned|intros E; by rewrite E in HpL|done|done|done].
        case_decide; [done|]. apply (same_except_ld64 (list_to_set L)); [done|by apply kpage_aligned|done|done|unfold tf_size, PGSIZE in *; lia].
      * exists To, Fo, Tn, Fn. done.
    + eapply isolated_change; [done|done|done|rewrite Eph; eapply kalloc_inv_frame; [apply (pm_k _ _ _ _ _ Hpm2)|exact Hs23|]| |unfold holds; rewrite decide_False by (by rewrite C1); by exists Tn, Fn| |].
      * unfold all_pages in Hqa. clear - Hqa. set_solver.
      * eapply same_except_mono; [|exact Hs03]. set_solver.
      * unfold pages_of. rewrite C8. exact Hdis2.
      * unfold pages_of. rewrite C8. fold (pages_of q Tn Fn). rewrite Hpg2.
        pose proof (is_holds _ _ _ _ Hiso np Hnp) as Hh. unfold holds in Hh. rewrite decide_True in Hh by done. destruct Hh as [-> _]. set_solver.
  - eapply wp_mono; [eapply (allocproc_undo (-1) s O L U np q (pages_of q Tn []) L2 s2)|]; try done.
    + unfold quiet in *. unfold s2. rewrite Hq1 at 1. done.
    + right. right. exists Tn, []. split; [|done]. split; try done; [apply (pm_as _ _ _ _ _ Hpm2)|apply (sp_sz _ _ _ _ Hsq)|apply (sp_len _ _ _ _ Hsq)|apply (sp_tf _ _ _ _ Hsq)].
    + apply (pm_k _ _ _ _ _ Hpm2).
    + intros r s' (-> & Hq & Hu). left. auto.
Qed.
End fork.

(** ** The other operations on processes' memory *)

Section others.
Context `{Linker} `{Symbols} {St : Type} {ST : Store St}.
Implicit Types s : kst St.

(** Process [i] has its pages. *)
Lemma isolated_space s O L U i : isolated s O L U -> (i < NPROCn)%nat -> pstate (procs s !!! i) <> UNUSED ->
  exists T F, space (mem (ph s)) (procs s !!! i) T F /\ O i = pages_of (procs s !!! i) T F.
Proof. intros Hi Hlt Hu. pose proof (is_holds _ _ _ _ Hi i Hlt) as Ho. unfold holds in Ho. by rewrite decide_False in Ho. Qed.

(** A process's user pages, or its trapframe, are written. *)
Lemma isolated_write s s' O L U i T F P :
  isolated s O L U -> (i < NPROCn)%nat -> space (mem (ph s)) (procs s !!! i) T F -> O i = pages_of (procs s !!! i) T F -> pstate (procs s !!! i) <> UNUSED ->
  procs s' = procs s -> freelist (ph s') = freelist (ph s) -> same_except P (mem (ph s)) (mem (ph s')) -> P ⊆ {[trapframe (procs s !!! i)]} ∪ list_to_set F ->
  isolated s' O L U.
Proof.
  intros Hiso Hi Hsp HO Hu Ep Ef Hse HP. pose proof Hiso as [A1 A2 A3 A4 A5 A6].
  assert (P ⊆ O i) as HPO by (rewrite HO; unfold pages_of; clear - HP; set_solver).
  split; [congruence| | |done|done|done].
  - pose proof (kalloc_inv_frame P (mem (ph s')) (ph s) L A2 Hse) as Hk. specialize (A5 i Hi). replace (ph s') with (set_mem (mem (ph s')) (ph s)); [apply Hk; clear - A5 HPO; set_solver|].
    unfold set_mem. rewrite <- Ef. by destruct (ph s').
  - intros j Hj. rewrite Ep. destruct (decide (j = i)) as [->|Hne].
    + unfold holds. rewrite decide_False by done. exists T, F. split; [|done]. eapply space_frame; [done|done|].
      pose proof (sp_apart _ _ _ _ Hsp). pose proof (as_disj _ _ _ _ (sp_as _ _ _ _ Hsp)). set_solver.
    + eapply holds_frame; [by apply A3|done|]. specialize (A4 i j Hi Hj ltac:(done)). clear - A4 HPO. set_solver.
Qed.

Lemma isolated_free s s' O L U i P L0 p' :
  isolated s O L U -> (i < NPROCn)%nat -> O i = P -> mem_procs s s' -> procs s' = <[i := p']> (procs s) -> holds (mem (ph s')) p' ∅ ->
  kalloc_inv (ph s') L0 -> list_to_set L0 = P ∪ list_to_set L -> same_except P (mem (ph s)) (mem (ph s')) -> isolated s' (<[i := ∅]> O) L0 U.
Proof.
  intros Hiso Hi HO _ Ep Hh Hk HL Hse. eapply isolated_change; [done|done|done|done| |done|set_solver|rewrite HL, HO; set_solver].
  rewrite HO. eapply same_except_mono; [|exact Hse]. set_solver.
Qed.

(** *** [wait] *)

Lemma wait_scan_iso k i me addr hk s O L U :
  isolated s O L U -> (me < NPROCn)%nat -> pstate (procs s !!! me) = RUNNING -> (i + k = NPROCn)%nat -> 0 <= addr < 2 ^ 64 ->
  wp (wait_scan k i me addr hk s) (fun a s' => (exists O' L', isolated s' O' L' U) /\ match a with inl _ => s' = s | inr _ => True end).
Proof.
  intros Hiso Hme Hrun. revert i hk. induction k as [|k IH]; intros i hk Hk Ha; cbn [wait_scan].
  { apply wp_ret. split; [eauto|done]. }
  unfold get_proc. apply wp_gets. destruct (decide (parent _ = _)) as [_|_]; [|apply IH; [lia|done]].
  destruct (decide (pstate _ = ZOMBIE)) as [Ez|_]; [|apply IH; [lia|done]]. apply wp_gets.
  set (p := procs s !!! me) in *. set (pp := procs s !!! i) in *.
  destruct (isolated_space s O L U me) as (T & F & Hsp & HO); [done|done|by fold p; rewrite Hrun|]. fold p in Hsp, HO.
  assert (wp ((if negb (addr =? 0) then on_mem_k (copyout (pagetable p) addr (le_bytes 4 (xstate pp))) else mret 0) s) (fun _ s1 =>
    procs s1 = procs s /\ isolated s1 O L U)) as Hc.
  { destruct (negb (addr =? 0)); [|by apply wp_ret]. apply wp_on_mem. pose proof (sp_tf _ _ _ _ Hsp) as Htf.
    eapply wp_mono; [apply (copyout_loop_spec _ (ph s) (pagetable p) T F)|].
    - apply (sp_as _ _ _ _ Hsp).
    - eapply high_mapped_private; [by apply kpage_aligned| |apply (sp_high _ _ _ _ Hsp)]. destruct (kpage_range _ Htf). plia.
    - done.
    - lia.
    - intros r x (n & _ & _ & _ & Hse & Hf). split; [done|]. eapply (isolated_write s _ O L U me T F (list_to_set F)); try done; [by fold p; rewrite Hrun|set_solver]. }
  apply wp_bind. eapply wp_mono; [exact Hc|]. intros r s1 [Ep1 Hiso1]. destruct (r <? 0); [apply wp_ret; split; [eauto|done]|].
  assert (i < NPROCn)%nat as Hi by lia. destruct (isolated_space s1 O L U i) as (T1 & F1 & Hsp1 & HO1); [done|done|rewrite Ep1; fold pp; by rewrite Ez|].
  wp_step (freeproc_spec i s1 (O i) L).
  - rewrite (is_len _ _ _ _ Hiso1). lia.
  - right. right. by exists T1, F1.
  - apply (is_free _ _ _ _ Hiso1).
  - by apply (is_apart _ _ _ _ Hiso1).
  - intros [] s2 (Hm & p' & L' & Ep2 & Hh & Hu & Hk2 & HL2 & Hs2). apply wp_ret. split; [|done]. exists (<[i := ∅]> O), L'.
    by apply (isolated_free s1 s2 O L U i (O i) L' p').
Qed.

(** *** [growproc] *)

(** A process cannot have more user pages than there are pages. *)
Lemma user_pages_bound (F : list Z) : Forall kpage F -> NoDup F -> length F * PGSIZE <= PHYSTOP.
Proof.
  intros Hk Hn. assert (F ⊆+ ((fun i : nat => i * PGSIZE) <$> seq 0 (Z.to_nat (PHYSTOP / PGSIZE)))) as Hs.
  { apply NoDup_submseteq; [done|]. intros x Hx. rewrite Forall_forall in Hk. destruct (Hk x Hx) as [Ha Hr]. pose proof (kpage_pos _ (Hk x Hx)).
    apply list_elem_of_fmap. exists (Z.to_nat (x / PGSIZE)). unfold aligned in Ha. split; [plia|]. rewrite elem_of_seq. plia. }
  apply submseteq_length in Hs. rewrite length_fmap, length_seq in Hs. plia.
Qed.

(** The address space of [me] has been resized to [sz]. *)
Lemma isolated_resize s s' O L U me T F T' F' L' sz x :
  isolated s O L U -> (me < NPROCn)%nat -> pstate (procs s !!! me) <> UNUSED -> space (mem (ph s)) (procs s !!! me) T F ->
  O me = pages_of (procs s !!! me) T F -> proc_mem x (pagetable (procs s !!! me)) T' F' L' -> all_pages T' F' L' = all_pages T F L ->
  same_except (all_pages T F L) (mem (ph s)) (mem x) -> high_same (pagetable (procs s !!! me)) (mem (ph s)) (mem x) ->
  0 <= sz <= TRAPFRAME -> npages sz = length F' -> ph s' = x -> procs s' = <[me := with_psz sz (procs s !!! me)]> (procs s) ->
  exists P L', isolated s' (<[me := P]> O) L' U.
Proof.
  intros Hiso Hme Hu Hsp HO [Hk Has HdT HdF] Hall Hse Hhs Hsz Hn Ex Ep. subst x. exists (pages_of (procs s !!! me) T' F'), L'.
  pose proof (is_apart _ _ _ _ Hiso me Hme) as Hap. rewrite HO in Hap. set (p := procs s !!! me) in *.
  assert (trapframe p ∉ all_pages T' F' L') as Ht.
  { rewrite Hall. pose proof (sp_apart _ _ _ _ Hsp). unfold pages_of, all_pages in *. set_solver. }
  eapply isolated_change; [done|done|done|done| | | |].
  - eapply same_except_mono; [|exact Hse]. rewrite HO. unfold all_pages, pages_of. clear. set_solver.
  - unfold holds. rewrite decide_False by done. exists T', F'. split; [|done]. split; try done.
    + apply (sp_tf _ _ _ _ Hsp).
    + unfold all_pages in Ht. clear - Ht. set_solver.
    + intros va Hva. simpl. rewrite Hhs by done. by apply (sp_high _ _ _ _ Hsp).
  - unfold pages_of, all_pages in *. clear - Ht HdT HdF. set_solver.
  - rewrite HO. unfold pages_of, all_pages in *. clear - Hall. set_solver.
Qed.

Lemma growproc_iso me n s O L U :
  isolated s O L U -> (me < NPROCn)%nat -> pstate (procs s !!! me) <> UNUSED -> - 2 ^ 31 <= n < 2 ^ 31 ->
  wp (growproc me n s) (fun r s' => (exists P L', isolated s' (<[me := P]> O) L' U) /\ (r = 0 \/ r = -1) /\
    (0 <= n -> r = 0 -> psz (procs s' !!! me) = psz (procs s !!! me) + n)).
Proof.
  intros Hiso Hme Hu Hn. unfold growproc, get_proc. apply wp_gets. destruct (isolated_space s O L U me Hiso Hme Hu) as (T & F & Hsp & HO).
  set (p := procs s !!! me) in *. pose proof (sp_sz _ _ _ _ Hsp) as Hsz. pose proof (is_len _ _ _ _ Hiso) as Hl.
  pose proof (is_apart _ _ _ _ Hiso me Hme) as Hap. rewrite HO in Hap. unfold pages_of in Hap.
  assert (proc_mem (ph s) (pagetable p) T F L) as Hpm.
  { split; [apply (is_free _ _ _ _ Hiso)|apply (sp_as _ _ _ _ Hsp)|clear - Hap; set_solver|clear - Hap; set_solver]. }
  pose proof (user_pages_bound F (as_pages _ _ _ _ (sp_as _ _ _ _ Hsp)) (as_nodup _ _ _ _ (sp_as _ _ _ _ Hsp))) as Hb.
  pose proof (npages_spec _ Hsz) as [_ Hnp]. rewrite (sp_len _ _ _ _ Hsp) in Hnp.
  unfold upd_proc. destruct (Z.ltb_spec 0 n) as [Hpos|Hneg]; [|destruct (Z.ltb_spec n 0) as [Hlt|Hge]].
  - assert (u64 (psz p + n) = psz p + n) as -> by (apply wrap_id; unfold in_range; plia).
    apply wp_bind, wp_on_mem. eapply wp_mono; [apply (uvmalloc_spec (ph s) (pagetable p) T F L (psz p) (psz p + n) PTE_W)|]; try done; try plia.
    { apply (sp_len _ _ _ _ Hsp). }
    intros r x (T' & F' & L' & Hpm' & _ & Hall & Hr). rewrite app_nil_r in Hall.
    assert (length F' * PGSIZE <= TRAPFRAME) as Hf' by apply (as_size _ _ _ _ (pm_as _ _ _ _ _ Hpm')).
    destruct Hr as [(-> & New & -> & HlF & [Hfr Hlf _ _])|(-> & -> & [Hfr Hlf])].
    + rewrite app_nil_r in *. replace (psz p + n =? 0) with false by lia. apply wp_modify, wp_ret. split; [|split; [by left|simpl; rewrite list_lookup_total_insert_eq by lia; done]].
      eapply (isolated_resize s _ O L U me T F T' (F ++ New) L' (psz p + n) x); try done.
      * eapply same_except_mono; [|exact Hfr]. assert (dom T' ⊆ all_pages T F L) as Hd' by (rewrite <- Hall; unfold all_pages; clear; set_solver).
        unfold all_pages in *. clear - Hd'. set_solver.
      * intros va Hva. apply Hlf; [plia|]. unfold in_pages. rewrite length_app in Hf'. plia.
      * plia.
      * rewrite HlF. pose proof (npages_mono (psz p) (psz p + n)). rewrite (sp_len _ _ _ _ Hsp) in *. plia.
    + cbn [Z.eqb]. apply wp_ret. split; [|split; [by right|done]].
      eapply (isolated_resize s _ O L U me T F T' F L' (psz p) x); try done.
      * eapply same_except_mono; [|exact Hfr]. assert (dom T' ⊆ all_pages T F L) as Hd' by (rewrite <- Hall; unfold all_pages; clear; set_solver).
        unfold all_pages in *. clear - Hd'. set_solver.
      * intros va Hva. apply Hlf; [plia|]. right. lia.
      * apply (sp_len _ _ _ _ Hsp).
      * simpl. rewrite list_insert_id; [done|]. fold p. rewrite list_lookup_lookup_total_lt by lia. fold p. by destruct p.
  - apply wp_bind, wp_on_mem. assert (0 <= u64 (psz p + n)) as Hnz by (apply wrap_range; lia). set (nz := u64 (psz p + n)) in *.
    eapply wp_mono; [apply (uvmdealloc_spec (ph s) (pagetable p) T F L (psz p) nz Hpm)|]; [done|done|apply (sp_len _ _ _ _ Hsp)|].
    intros r x (-> & Hpm' & Hlf & Hse). apply wp_modify, wp_ret. split; [|split; [by left|lia]].
    assert (kept F (psz p) nz = npages (Z.min (psz p) nz) /\ (npages (Z.min (psz p) nz) <= length F)%nat) as [Hk Hkl].
    { rewrite <- (sp_len _ _ _ _ Hsp). split; [|apply npages_mono; lia]. unfold kept.
      destruct (Z.leb_spec (psz p) nz); [rewrite Z.min_l by lia; symmetry; apply (sp_len _ _ _ _ Hsp)|by rewrite Z.min_r by lia]. }
    rewrite Hk in *. set (m := npages (Z.min (psz p) nz)) in *.
    eapply (isolated_resize s _ O L U me T F T (take m F) (reverse (drop m F) ++ L) (Z.min (psz p) nz) x); try done.
    + unfold all_pages. assert (list_to_set (reverse (drop m F)) =@{gset Z} list_to_set (drop m F)) as Er
        by (apply set_eq; intros; rewrite !elem_of_list_to_set; apply elem_of_reverse).
      assert (list_to_set F =@{gset Z} list_to_set (take m F) ∪ list_to_set (drop m F)) as -> by (rewrite <- list_to_set_app_L; by rewrite take_drop).
      rewrite list_to_set_app_L, Er. clear. set_solver.
    + eapply same_except_mono; [|exact Hse]. unfold all_pages. intros y Hy. pose proof (subseteq_drop m F). set_solver.
    + intros va Hva. apply Hlf; [plia|]. unfold in_pages. plia.
    + lia.
    + rewrite length_take. lia.
  - apply wp_modify, wp_ret. assert (n = 0) as -> by lia. split; [|split; [by left|simpl; rewrite list_lookup_total_insert_eq by lia; simpl; lia]].
    eapply (isolated_resize s _ O L U me T F T F L (psz p) (ph s)); try done. apply (sp_len _ _ _ _ Hsp).
Qed.

(** *** What leaves memory alone *)

Definition spaces_kept s s' : Prop :=
  ph s' = ph s /\ length (procs s') = length (procs s) /\ forall i, (i < length (procs s))%nat -> same_space (procs s !!! i) (procs s' !!! i).

Lemma spaces_trans s1 s2 s3 : spaces_kept s1 s2 -> spaces_kept s2 s3 -> spaces_kept s1 s3.
Proof.
  intros (A1 & A2 & A3) (B1 & B2 & B3). split; [congruence|]. split; [congruence|]. intros i Hi. destruct (A3 i Hi) as (E1 & E2 & E3 & E4).
  destruct (B3 i ltac:(lia)) as (F1 & F2 & F3 & F4). split; [tauto|]. split_and!; congruence.
Qed.

Lemma spaces_upd i f s : same_space (procs s !!! i) (f (procs s !!! i)) -> spaces_kept s (set_procs (<[i := f (procs s !!! i)]> (procs s)) s).
Proof.
  intros Hf. split; [done|]. simpl. rewrite length_insert. split; [done|]. intros j Hj. rewrite procs_upd by done.
  by destruct (decide (j = i)) as [->|].
Qed.

Lemma spaces_woken me ch s : spaces_kept s (woken me ch s).
Proof.
  split; [done|]. split; [apply length_woken|]. intros i Hi. rewrite proc_woken by done. unfold wakes. destruct (bool_decide (me <> Some i)); [|done]. cbn [andb].
  destruct (bool_decide_reflect (pstate (procs s !!! i) = SLEEPING)) as [E|]; [|done]. destruct (bool_decide _); [|done].
  split; [|done]. simpl. by rewrite E.
Qed.

Lemma spaces_isolated s s' O L U : isolated s O L U -> spaces_kept s s' -> isolated s' O L U.
Proof. intros Hi (E1 & E2 & E3). eapply isolated_same; [done|done|done|]. intros i Hlt. apply E3. by rewrite (is_len _ _ _ _ Hi). Qed.

Lemma spaces_kill k i pid s a s' : kill_loop k i pid s = Ret a s' -> spaces_kept s s'.
Proof.
  revert i. induction k as [|k IH]; intros i; cbn [kill_loop]; [by intros [= <- <-]|]. intros (p & s1 & [= <- <-] & E)%bind_inv.
  destruct (ppid _ =? pid); [|by eapply IH]. apply bind_inv in E as ([] & s1 & [= <-] & E).
  assert (spaces_kept s (set_procs (<[i := with_killed true (procs s !!! i)]> (procs s)) s)) as Hk by by apply (spaces_upd i (with_killed true)).
  apply bind_inv in E as ([] & s2 & E2 & [= <- <-]). destruct (decide _) as [Es|]; [|by injection E2 as <-]. injection E2 as <-.
  eapply spaces_trans; [exact Hk|]. apply (spaces_upd i (with_pstate RUNNABLE)). simpl.
  destruct (decide (i < length (procs s))%nat).
  - rewrite list_lookup_total_insert_eq by done. split; [|done]. simpl. by rewrite Es.
  - rewrite list_lookup_total_alt, (lookup_ge_None_2 (procs s)) in Es by lia. done.
Qed.

Lemma spaces_reparent k i me s a s' : reparent_loop k i me s = Ret a s' -> spaces_kept s s'.
Proof.
  revert i s. induction k as [|k IH]; intros i s; cbn [reparent_loop]; [by intros [= <- <-]|]. intros (p & s1 & [= <- <-] & E)%bind_inv.
  apply bind_inv in E as ([] & s2 & E2 & E). eapply spaces_trans; [|by eapply IH]. clear E IH. destruct (decide _); [|by injection E2 as <-].
  apply bind_inv in E2 as (ip & s3 & [= <- <-] & E2). apply bind_inv in E2 as ([] & s4 & [= <-] & E2).
  eapply spaces_trans; [by apply (spaces_upd i (with_parent (initproc s)))|]. destruct (initproc s); injection E2 as <-; [apply spaces_woken|done].
Qed.

Lemma spaces_exit me st s a s' : (me < length (procs s))%nat -> pstate (procs s !!! me) <> UNUSED -> exit_locked me st s = Ret a s' -> spaces_kept s s'.
Proof.
  intros Hl Hu. unfold exit_locked, reparent. generalize (spaces_reparent NPROCn 0 me s). generalize (reparent_loop (St := St) NPROCn 0 me).
  intros c Hc (u & s1 & E1%Hc & E)%bind_inv. apply bind_inv in E as (p & s2 & [= <- <-] & E). apply bind_inv in E as ([] & s2 & E2 & [= <- <-]).
  assert (spaces_kept s s2) as H2. { eapply spaces_trans; [exact E1|]. destruct (parent _); injection E2 as <-; [apply spaces_woken|done]. }
  eapply spaces_trans; [exact H2|]. apply (spaces_upd me (fun p => with_pstate ZOMBIE (with_xstate st p))). split; [|done]. simpl.
  destruct H2 as (_ & _ & H2). destruct (H2 me Hl) as [E _]. split; [done|]. intros E'. by destruct (Hu (proj1 E E')).
Qed.
End others.
