(* ===== verification/IsolationThms.v ===== *)
(** * Processes do not share memory (kernel/proc.c over kernel/vm.c)

    The properties of [fork] and of the memory of all processes together. *)

From S2P Require Import Prelude Riscv Mem Kstring Kalloc Vm VmPt VmWalk VmMap VmUser VmAlloc VmFork VmFree VmCopy VmProc Block Bio Store Fs Kernel Proc File Fork Syscall PipeThms ProcThms VmThms FileThms Isolation ForkThms.

Section thms.
Context `{Linker} `{Symbols} {St : Type} {ST : Store St}.
Implicit Types s : kst St.

(** A store instruction of the user, which the hardware translates. *)
Definition user_store (pt va b : Z) (m : memory) : memory := <[PTE2PA (leaf m pt va) + va mod PGSIZE := b]> m.

(** What processes do to their memory and to the table.  [fork] is taken where
    the reference counts of open files are right. *)
Inductive istep : kst St -> kst St -> Prop :=
| ist_fork s me ip r s' : (me < NPROCn)%nat -> pstate (procs s !!! me) = RUNNING -> cwd (procs s !!! me) = Some ip -> accounted none s ->
    fork me s = Ret r s' -> istep s s'
| ist_sbrk s me n r s' : (me < NPROCn)%nat -> pstate (procs s !!! me) = RUNNING -> - 2 ^ 31 <= n < 2 ^ 31 -> growproc me n s = Ret r s' -> istep s s'
| ist_wait s me addr r s' : (me < NPROCn)%nat -> pstate (procs s !!! me) = RUNNING -> 0 <= addr < 2 ^ 64 -> wait_pass me addr s = Ret r s' -> istep s s'
| ist_exit s me st s' : (me < NPROCn)%nat -> pstate (procs s !!! me) = RUNNING -> exit_locked me st s = Ret tt s' -> istep s s'
| ist_kill s pid r s' : kill pid s = Ret r s' -> istep s s'
| ist_sched s i st s' : (i < NPROCn)%nat -> pstate (procs s !!! i) <> UNUSED -> st <> UNUSED -> upd_proc i (with_pstate st) s = Ret tt s' -> istep s s'
| ist_sleep s me ch s' : (me < NPROCn)%nat -> pstate (procs s !!! me) = RUNNING -> sleep me ch s = Ret tt s' -> istep s s'
| ist_wakeup s me ch s' : wakeup me ch s = Ret tt s' -> istep s s'
| ist_copyout s me va src r s' : (me < NPROCn)%nat -> pstate (procs s !!! me) = RUNNING -> 0 <= va < 2 ^ 64 ->
    on_mem_k (copyout (pagetable (procs s !!! me)) va src) s = Ret r s' -> istep s s'
| ist_store s me va b : (me < NPROCn)%nat -> pstate (procs s !!! me) = RUNNING -> 0 <= va ->
    writable (mem (ph s)) (pagetable (procs s !!! me)) va = true ->
    istep s (set_ph (set_mem (user_store (pagetable (procs s !!! me)) va b (mem (ph s))) (ph s)) s).

Lemma space_private m p T F : space m p T F -> high_private m (pagetable p).
Proof.
  intros Hs. pose proof (sp_tf _ _ _ _ Hs) as Ht. eapply high_mapped_private; [by apply kpage_aligned| |apply (sp_high _ _ _ _ Hs)].
  destruct (kpage_range _ Ht). plia.
Qed.

Lemma isolated_wait s O L U me addr r s' :
  isolated s O L U -> (me < NPROCn)%nat -> pstate (procs s !!! me) = RUNNING -> 0 <= addr < 2 ^ 64 -> wait_pass me addr s = Ret r s' ->
  exists O' L', isolated s' O' L' U.
Proof.
  intros Hi Hm Hr Ha. unfold wait_pass. generalize (wait_scan_iso NPROCn 0 me addr false s O L U Hi Hm Hr eq_refl Ha).
  generalize (wait_scan (St := St) NPROCn 0 me addr false). intros c Hc (w & s1 & E1 & E)%bind_inv. rewrite E1 in Hc. destruct Hc as [(O' & L' & Hi1) Hw].
  destruct w as [hk|v]; [|injection E as <- <-; eauto]. subst s1. apply bind_inv in E as (kl & s2 & [= <- <-] & E).
  destruct (negb hk || pkilled _); [injection E as <- <-; eauto|]. apply bind_inv in E as ([] & s2 & [= <-] & [= <- <-]). exists O, L.
  eapply spaces_isolated; [exact Hi|]. apply (spaces_upd me (fun p => with_pstate SLEEPING (with_chan (Some (ChProc me)) p))). split; [|done]. simpl. by rewrite Hr.
Qed.

Lemma istep_isolated s O L U s' : isolated s O L U -> istep s s' -> exists O' L', isolated s' O' L' U.
Proof.
  intros Hi Hs. assert (forall t, spaces_kept s t -> exists O' L', isolated t O' L' U) as Hsp by (intros t Ht; exists O, L; by eapply spaces_isolated).
  destruct Hs as [s me ip r s' Hm Hr Hc Ha E|s me n r s' Hm Hr Hn E|s me addr r s' Hm Hr Ha E|s me st s' Hm Hr E|s pid r s' E|s i st s' Hm Hu Hst E|s me ch s' Hm Hr E|s me ch s' E|s me va src r s' Hm Hr Hva E|s me va b Hm Hr Hva Hw].
  - pose proof (fork_spec s O L U me ip Hi Ha Hm Hr Hc) as Hf. rewrite E in Hf. destruct Hf as [(_ & [->|[_ (_ & _ & O' & L' & ? & _)]])|(np & P & L' & _ & _ & _ & ?)]; eauto.
  - pose proof (growproc_iso me n s O L U Hi Hm ltac:(by rewrite Hr) Hn) as Hg. rewrite E in Hg. destruct Hg as [(P & L' & ?) _]; eauto.
  - by eapply isolated_wait.
  - apply Hsp. eapply spaces_exit; [by rewrite (is_len _ _ _ _ Hi)|by rewrite Hr|exact E].
  - apply Hsp. by eapply spaces_kill.
  - injection E as <-. apply Hsp. apply (spaces_upd i (with_pstate st)). by split.
  - injection E as <-. apply Hsp. apply (spaces_upd me (fun p => with_pstate SLEEPING (with_chan (Some ch) p))). split; [|done]. simpl. by rewrite Hr.
  - injection E as <-. apply Hsp. apply spaces_woken.
  - destruct (isolated_space s O L U me Hi Hm ltac:(by rewrite Hr)) as (T & F & Hspc & HO). exists O, L. unfold on_mem_k, on_fs, on_km, zoom in E. unfold copyout in E.
    pose proof (copyout_loop_spec (S (length src)) (ph s) _ T F va src (sp_as _ _ _ _ Hspc) (space_private _ _ _ _ Hspc) Hva ltac:(lia)) as Hc.
    unfold ph in Hc. destruct (copyout_loop _ _ _ _ _) as [r' x| |]; [|done|done]. injection E as <- <-. destruct Hc as (k & _ & _ & _ & Hse & Hf).
    eapply (isolated_write s _ O L U me T F (list_to_set F)); try done; [by rewrite Hr|clear; set_solver].
  - destruct (isolated_space s O L U me Hi Hm ltac:(by rewrite Hr)) as (T & F & Hspc & HO). exists O, L.
    destruct (readable_page (sp_as _ _ _ _ Hspc) (space_private _ _ _ _ Hspc) va Hva ltac:(unfold writable in Hw; by bool_prop)) as [_ HF].
    apply list_elem_of_lookup_2 in HF. set (q := PTE2PA _) in HF. pose proof (as_pages _ _ _ _ (sp_as _ _ _ _ Hspc)) as Hk. rewrite Forall_forall in Hk.
    eapply (isolated_write s _ O L U me T F {[q]}); try done; [by rewrite Hr| |clear - HF; set_solver].
    intros x Hx. simpl. unfold user_store. fold q. rewrite lookup_total_insert_ne; [done|]. intros <-. apply Hx. rewrite (pg_in q); [by apply elem_of_singleton|by apply kpage_aligned; apply Hk|plia].
Qed.

(** C2: processes are isolated.  Whatever processes do (fork, grow and shrink
    their memory, exit, wait, kill, sleep, store to any address their page
    table lets them write, or have the kernel copy to their memory), no
    physical page is reachable from two processes' address spaces or from one
    and the free list, and no page is lost. *)
Theorem processes_isolated s O L U s' :
  isolated s O L U -> rtc istep s s' ->
  exists O' L', isolated s' O' L' U /\
    forall i va, (i < NPROCn)%nat -> pstate (procs s' !!! i) <> UNUSED -> 0 <= va -> readable (mem (ph s')) (pagetable (procs s' !!! i)) va = true ->
      (PTE2PA (leaf (mem (ph s')) (pagetable (procs s' !!! i)) va) ∉ L') /\
      forall j va', (j < NPROCn)%nat -> j <> i -> pstate (procs s' !!! j) <> UNUSED -> 0 <= va' -> readable (mem (ph s')) (pagetable (procs s' !!! j)) va' = true ->
        PTE2PA (leaf (mem (ph s')) (pagetable (procs s' !!! i)) va) <> PTE2PA (leaf (mem (ph s')) (pagetable (procs s' !!! j)) va').
Proof.
  intros Hi Hr. assert (exists O' L', isolated s' O' L' U) as (O' & L' & Hi').
  { revert O L Hi. induction Hr as [s|s s1 s2 Hs Hr IH]; intros O L Hi; [eauto|]. destruct (istep_isolated s O L U s1 Hi Hs) as (O1 & L1 & Hi1). by eapply IH. }
  assert (forall i va, (i < NPROCn)%nat -> pstate (procs s' !!! i) <> UNUSED -> 0 <= va -> readable (mem (ph s')) (pagetable (procs s' !!! i)) va = true ->
    PTE2PA (leaf (mem (ph s')) (pagetable (procs s' !!! i)) va) ∈ O' i) as Hin.
  { intros i va Hlt Hu Hva Hrd. destruct (isolated_space s' O' L' U i Hi' Hlt Hu) as (T & F & Hsp & ->).
    destruct (readable_page (sp_as _ _ _ _ Hsp) (space_private _ _ _ _ Hsp) va Hva Hrd) as [_ HF%list_elem_of_lookup_2]. unfold pages_of. apply elem_of_union_r. by apply elem_of_list_to_set. }
  exists O', L'. split; [done|]. intros i va Hlt Hu Hva Hrd. pose proof (Hin i va Hlt Hu Hva Hrd) as H1'. split.
  - pose proof (is_apart _ _ _ _ Hi' i Hlt) as Hd. intros Hin'. apply (Hd _ H1'). by apply elem_of_list_to_set.
  - intros j va' Hlt' Hne Hu' Hva' Hrd'. pose proof (Hin j va' Hlt' Hu' Hva' Hrd') as H2'. pose proof (is_disj _ _ _ _ Hi' i j Hlt Hlt' ltac:(done)) as Hd.
    intros E. rewrite <- E in H2'. exact (Hd _ H1' H2').
Qed.

(** C4: [fork] returns, and either fails with every page given back and no
    process changed, or makes a child with the parent's memory, byte for byte
    and with the same permissions, in pages of its own; with the parent's
    registers, but for the 0 it returns; with the parent's open files and
    directory; and the parent keeps its memory. *)
Theorem fork_correct s O L U me ip :
  isolated s O L U -> accounted none s -> (me < NPROCn)%nat -> pstate (procs s !!! me) = RUNNING -> cwd (procs s !!! me) = Some ip ->
  wp (fork me s) (fun r s' =>
    (r = -1 /\ (forall j, (j < NPROCn)%nat -> pstate (procs s !!! j) <> UNUSED -> procs s' !!! j = procs s !!! j) /\
     exists O' L', isolated s' O' L' U /\ list_to_set L' =@{gset Z} list_to_set L) \/
    exists np P L', (np < NPROCn)%nat /\ r = nextpid s /\ forked s me np ip s' /\ isolated s' (<[np := P]> O) L' U).
Proof.
  intros Hi Ha Hm Hr Hc. eapply wp_mono; [by apply fork_spec|]. intros r s' [(-> & Hu)|?]; [left|by right]. split; [done|].
  destruct Hu as [->|(_ & (i & p' & Hlt & Hu & Ep & _) & _ & O' & L' & Hi' & HL)]; [split; [done|]; eauto|]. split; [|eauto].
  intros j Hj Hju. rewrite Ep, list_lookup_total_insert_ne; [done|]. intros ->. done.
Qed.
End thms.

(** ** At work *)

#[local] Existing Instance demo_linker.
#[local] Existing Instance demo_symbols.

(** A machine without processes, then a first one with a page of memory. *)
Definition demo_boot : kst ram := set_nextpid 1 (set_procs (replicate 64 inhabitant) (set_ftable (replicate 100 inhabitant) (set_ph demo0 demo_k))).

Definition demo_init : M (kst ram) (option nat * Z) :=
  on_mem_k kinit;;
  r ← allocproc;
  match r with
  | Some i =>
      upd_proc i (fun p => with_pstate RUNNING (with_cwd (Some 0%nat) p));;
      n ← growproc i PGSIZE;
      mret (r, n)
  | None => mret (None, -1)
  end.

Definition no_files (s : kst ram) : bool :=
  forallb (fun p => bool_decide (ofile p = repeat None 16)) (procs s) && forallb (fun f => fref f =? 0) (ftable s) &&
  bool_decide (length (procs s) = 64%nat) && bool_decide (length (ftable s) = 100%nat).

Lemma no_files_accounted s : no_files s = true -> accounted none s.
Proof.
  unfold no_files. rewrite !andb_true_iff, !bool_decide_eq_true, !forallb_forall. intros (((Hp & Hf) & Hlp) & Hlf).
  assert (forall i, (i < NPROCn)%nat -> ofile (procs s !!! i) = repeat None 16) as Ho.
  { intros i Hi. apply (bool_decide_eq_true_1 (ofile (procs s !!! i) = repeat None 16)), (Hp (procs s !!! i)). apply list_elem_of_In.
    eapply list_elem_of_lookup_2, list_lookup_lookup_total_lt. by rewrite Hlp. }
  split; [split; try done|].
  - intros i Hi. by rewrite Ho.
  - intros i fd f Hi. rewrite Ho by done. intros Hx%list_elem_of_lookup_2%list_elem_of_In%repeat_spec. done.
  - intros i Hi _. by rewrite Ho.
  - intros f Hlt. unfold none. assert (fref (ftable s !!! f) = 0) as ->.
    { apply Z.eqb_eq, Hf, list_elem_of_In. eapply list_elem_of_lookup_2, list_lookup_lookup_total_lt. by rewrite Hlf. }
    assert (forall ps, (forall p, In p ps -> ofile p = repeat None 16) -> refs f ps = 0%nat) as Hr.
    { induction ps as [|p ps IH]; intros Ha; [done|]. simpl. rewrite (Ha p), IH; [done|intros q Hq; apply Ha; by right|by left]. }
    rewrite Hr; [lia|]. intros p Hin. by apply (bool_decide_eq_true_1 (ofile p = repeat None 16)), Hp.
Qed.

Lemma demo_init_isolated : wp (demo_init demo_boot) (fun r s => forall i, r.1 = Some i -> (i < NPROCn)%nat /\ exists O L U, isolated s O L U).
Proof.
  unfold demo_init. apply wp_bind, wp_on_mem. eapply wp_mono; [by apply kinit_spec|]. intros [] x (L & Hk & HL).
  assert (isolated (set_ph x demo_boot) (fun _ => ∅) L (list_to_set L)) as Hi.
  { split; [done|done| |done|set_solver|].
    - intros i Hlt. change (procs _) with (replicate (A := proc) 64 inhabitant). rewrite lookup_total_replicate_2 by done. by apply holds_unused.
    - intros y. rewrite elem_of_list_to_set. set_solver. }
  wp_step (allocproc_spec _ _ _ _ Hi). intros r s1 [_ Hr]. destruct r as [i|]; [|by apply wp_ret].
  destruct Hr as [Hi1 _ _ Hst _ _ _ (T & L1 & _ & _ & Hiso)].
  unfold upd_proc. apply wp_modify. set (s2 := set_procs _ s1).
  assert (isolated s2 (<[i := pages_of (procs s1 !!! i) T []]> (fun _ => ∅)) L1 (list_to_set L)) as Hiso2.
  { eapply spaces_isolated; [exact Hiso|]. apply (spaces_upd i (fun p => with_pstate RUNNING (with_cwd (Some 0%nat) p))). split; [|done]. simpl. by rewrite Hst. }
  assert (pstate (procs s2 !!! i) = RUNNING) as Hr2 by (simpl; rewrite list_lookup_total_insert_eq; [done|by rewrite (is_len _ _ _ _ Hiso)]).
  wp_step (growproc_iso i PGSIZE s2 _ _ _ Hiso2 Hi1); [by rewrite Hr2|done|]. intros n s3 [(P & L3 & Hi3) _]. apply wp_ret.
  intros j [= <-]. split; [done|]. eauto.
Qed.

Definition demo_s : kst ram := final demo_init demo_boot.

(** The first process runs, can be forked, and its child gets pid 2. *)
Lemma demo_s_ok : match demo_init demo_boot with
  | Ret (Some i, n) s => bool_decide (i = 0%nat) && no_files s && bool_decide (pstate (procs s !!! 0%nat) = RUNNING) && bool_decide (cwd (procs s !!! 0%nat) = Some 0%nat) &&
      match fork 0 s with Ret r _ => r =? 2 | _ => false end
  | _ => false
  end = true.
Proof. vm_compute. reflexivity. Qed.

Lemma demo_s_facts : exists O L U, isolated demo_s O L U /\ accounted none demo_s /\ pstate (procs demo_s !!! 0%nat) = RUNNING /\
  cwd (procs demo_s !!! 0%nat) = Some 0%nat /\ exists s', fork 0 demo_s = Ret 2 s'.
Proof.
  pose proof demo_s_ok as Hb. pose proof demo_init_isolated as Hw. unfold demo_s, final. destruct (demo_init demo_boot) as [[[i|] n] s| |]; try done.
  rewrite !andb_true_iff, !bool_decide_eq_true in Hb. destruct Hb as ((((-> & Hn) & Hr) & Hc) & Hf).
  destruct (Hw 0%nat eq_refl) as [_ (O & L & U & Hi)]. exists O, L, U. split_and!; [done|by apply no_files_accounted|done|done|].
  destruct (fork 0 s) as [r s'| |]; [|done|done]. apply Z.eqb_eq in Hf as ->. eauto.
Qed.

Lemma fork_correct_witness : exists s' np, fork 0 demo_s = Ret 2 s' /\ forked demo_s 0 np 0 s'.
Proof.
  destruct demo_s_facts as (O & L & U & Hi & Ha & Hr & Hc & s' & E).
  pose proof (fork_correct demo_s O L U 0 0 Hi Ha ltac:(change NPROCn with 64%nat; lia) Hr Hc) as Hf. rewrite E in Hf.
  destruct Hf as [(Hx & _)|(np & P & L' & _ & _ & Hf & _)]; [discriminate Hx|]. exists s', np. split; [exact E|exact Hf].
Defined.

Lemma processes_isolated_witness : exists s', rtc istep demo_s s' /\ exists O' L' U, isolated s' O' L' U.
Proof.
  destruct demo_s_facts as (O & L & U & Hi & Ha & Hr & Hc & s' & E).
  assert (rtc istep demo_s s') as Hs by (apply rtc_once; eapply (ist_fork demo_s 0 0); [change NPROCn with 64%nat; lia|exact Hr|exact Hc|exact Ha|exact E]).
  exists s'. split; [exact Hs|]. destruct (processes_isolated demo_s O L U s' Hi Hs) as (O' & L' & Hi' & _). exists O', L', U. exact Hi'.
Defined.
