(* ===== verification/Sleeplock.v ===== *)
(** * Sleep locks (kernel/sleeplock.c, kernel/sleeplock.h)

    Each routine runs under the lock's spin lock, so its passes are atomic:
    [acquiresleep_pass] is a trip through [acquiresleep]'s loop, which takes the
    lock or goes to sleep. *)

From S2P Require Import Prelude Riscv Mem Kstring Kalloc Vm VmProc Store Fs Kernel Proc Pipe VmThms PipeThms ProcThms.

Record sleeplock := mk_sleeplock { slocked : Z; spid : Z }.

(** The kernel and its sleep locks, by address. *)
Record slst (St : Type) := mk_slst { slk : kst St; slocks : nat -> sleeplock }.
Arguments mk_slst {_}.
Arguments slk {_}.
Arguments slocks {_}.

Section sleeplock.
Context `{Linker} `{Symbols} {St : Type} {ST : Store St}.
Implicit Types (me lk : nat).

Definition sl_k {A} (c : M (kst St) A) : M (slst St) A := zoom slk (fun k s => mk_slst k (slocks s)) c.
Definition set_slock lk (x : sleeplock) : M (slst St) unit := modify (fun s => mk_slst (slk s) (<[lk := x]> (slocks s))).

Definition initsleeplock lk : M (slst St) unit := set_slock lk (mk_sleeplock 0 0).

Definition acquiresleep_pass me lk : M (slst St) bool :=
  l ← gets (fun s => slocks s lk);
  if negb (slocked l =? 0) then sl_k (sleep me (ChLock lk));; mret false
  else
    p ← sl_k (get_proc me);
    set_slock lk (mk_sleeplock 1 (ppid p));;
    mret true.

Definition releasesleep me lk : M (slst St) unit :=
  set_slock lk (mk_sleeplock 0 0);;
  sl_k (wakeup (Some me) (ChLock lk)).

Definition holdingsleep me lk : M (slst St) bool :=
  l ← gets (fun s => slocks s lk);
  p ← sl_k (get_proc me);
  mret (negb (slocked l =? 0) && (spid l =? ppid p)).

(** ** Processes that share locks *)

(** [want t] is the lock [t] is trying to take; [holders lk] are the processes
    that [acquiresleep(lk)] has returned to, and that have not released it.
    [again] says whether a process may ask for a lock that it holds. *)
Record ssys := mk_ssys { ss : slst St; want : gmap nat nat; holders : nat -> gset nat }.

Inductive sstep (again : bool) : ssys -> ssys -> Prop :=
| sl_sched s w h t k' : (t < length (procs (slk s)))%nat -> pstate (procs (slk s) !!! t) = RUNNABLE ->
    upd_proc t (with_pstate RUNNING) (slk s) = Ret tt k' -> sstep again (mk_ssys s w h) (mk_ssys (mk_slst k' (slocks s)) w h)
| sl_want s w h t lk : running (slk s) t -> w !! t = None -> (again = false -> t ∉ h lk) -> sstep again (mk_ssys s w h) (mk_ssys s (<[t := lk]> w) h)
| sl_acquire s w h t lk s' : running (slk s) t -> w !! t = Some lk -> acquiresleep_pass t lk s = Ret true s' ->
    sstep again (mk_ssys s w h) (mk_ssys s' (delete t w) (<[lk := {[t]} ∪ h lk]> h))
| sl_sleep s w h t lk s' : running (slk s) t -> w !! t = Some lk -> acquiresleep_pass t lk s = Ret false s' ->
    sstep again (mk_ssys s w h) (mk_ssys s' w h)
| sl_release s w h t lk s' : running (slk s) t -> w !! t = None -> t ∈ h lk -> releasesleep t lk s = Ret tt s' ->
    sstep again (mk_ssys s w h) (mk_ssys s' w (<[lk := h lk ∖ {[t]}]> h))
| sl_kill s w h pid r k' : kill pid (slk s) = Ret r k' -> sstep again (mk_ssys s w h) (mk_ssys (mk_slst k' (slocks s)) w h).

Record sl_inv (again : bool) (s : ssys) : Prop := {
  si_lock lk : (slocked (slocks (ss s) lk) = 0 /\ holders s lk = ∅) \/
    exists t, slocked (slocks (ss s) lk) = 1 /\ holders s lk = {[t]} /\ (t < length (procs (slk (ss s))))%nat /\ spid (slocks (ss s) lk) = ppid (procs (slk (ss s)) !!! t);
  si_sleep t lk : sleeping (slk (ss s)) t (ChLock lk) -> slocked (slocks (ss s) lk) = 1 /\ want s !! t = Some lk;
  si_want t lk : again = false -> want s !! t = Some lk -> t ∉ holders s lk;
}.

(** The table keeps its pids, and nobody new sleeps on a lock. *)
Definition table_kept (k k' : kst St) : Prop :=
  length (procs k') = length (procs k) /\ (forall t, (t < length (procs k))%nat -> ppid (procs k' !!! t) = ppid (procs k !!! t)) /\
  forall t lk, sleeping k' t (ChLock lk) -> sleeping k t (ChLock lk).

Lemma sl_inv_kept again s w h k' : sl_inv again (mk_ssys s w h) -> table_kept (slk s) k' -> sl_inv again (mk_ssys (mk_slst k' (slocks s)) w h).
Proof.
  intros [A B C] (E1 & E2 & E3). split; simpl in *.
  - intros lk. destruct (A lk) as [?|(t & K1 & K2 & K3 & K4)]; [by left|right]. exists t. rewrite E1, E2 by done. done.
  - intros t lk Hs. by eapply B, E3.
  - done.
Qed.

(** A running process does not sleep. *)
Lemma running_awake (k : kst St) t t' ch : running k t -> sleeping k t' ch -> t' <> t.
Proof. intros [_ Hr] (_ & Hs & _) ->. congruence. Qed.

Lemma table_kept_upd k i f : (forall p, ppid (f p) = ppid p) -> (forall lk, pstate (f (procs k !!! i)) = SLEEPING -> pchan (f (procs k !!! i)) = Some (ChLock lk) -> sleeping k i (ChLock lk)) ->
  table_kept k (set_procs (<[i := f (procs k !!! i)]> (procs k)) k).
Proof.
  intros Hp Hs. split; [simpl; by rewrite length_insert|]. split.
  - intros t Ht. simpl. rewrite procs_upd by done. destruct (decide (t = i)) as [->|]; [by rewrite Hp|done].
  - intros t lk (Ht & K1 & K2). simpl in *. rewrite length_insert in Ht. rewrite procs_upd in K1, K2 by done.
    destruct (decide (t = i)) as [->|]; [by apply Hs|by split].
Qed.

Lemma table_kept_trans k1 k2 k3 : table_kept k1 k2 -> table_kept k2 k3 -> table_kept k1 k3.
Proof. intros (A1 & A2 & A3) (B1 & B2 & B3). split; [congruence|]. split; [intros t Ht; rewrite B2, A2; [done|done|lia]|auto]. Qed.

Lemma table_kept_kill n i pid k r k' : kill_loop n i pid k = Ret r k' -> table_kept k k'.
Proof.
  revert i. induction n as [|n IH]; intros i; cbn [kill_loop]; [by intros [= <- <-]|]. intros (p & s1 & [= <- <-] & E)%bind_inv.
  destruct (ppid _ =? pid); [|by eapply IH]. apply bind_inv in E as ([] & s1 & [= <-] & E).
  assert (table_kept k (set_procs (<[i := with_killed true (procs k !!! i)]> (procs k)) k)) as Hk.
  { apply (table_kept_upd k i (with_killed true)); [done|]. intros lk K1 K2. simpl in *. split; [|done].
    destruct (decide (i < length (procs k))%nat); [done|]. rewrite list_lookup_total_alt, (lookup_ge_None_2 (procs k)) in K1 by lia. done. }
  apply bind_inv in E as ([] & s2 & E2 & [= <- <-]). destruct (decide _); [|by injection E2 as <-]. injection E2 as <-.
  eapply table_kept_trans; [exact Hk|]. set (k1 := set_procs (<[i := with_killed true (procs k !!! i)]> (procs k)) k).
  by apply (table_kept_upd k1 i (with_pstate RUNNABLE)).
Qed.

Lemma sl_inv_acquire again s w h t lk s' : sl_inv again (mk_ssys s w h) -> running (slk s) t -> acquiresleep_pass t lk s = Ret true s' ->
  sl_inv again (mk_ssys s' (delete t w) (<[lk := {[t]} ∪ h lk]> h)).
Proof.
  intros [A B C] Hrun E. cbn [ss slk slocks want holders] in *. unfold acquiresleep_pass in E. apply bind_inv in E as (l & s1 & [= <- <-] & E).
  destruct (Z.eqb_spec (slocked (slocks s lk)) 0) as [E0|]; cbn [negb] in E; [|by apply bind_inv in E as (? & ? & _ & [=])].
  injection E as <-. split; cbn [ss slk slocks want holders].
  - intros lk'. destruct (decide (lk' = lk)) as [->|]; [|rewrite !fn_lookup_insert_ne by done; apply A].
    right. exists t. rewrite !fn_lookup_insert. destruct (A lk) as [[_ ->]|(? & ? & _)]; [|congruence]. split; [done|]. split; [set_solver|]. split; [apply Hrun|done].
  - intros t' lk' Hs'. pose proof (running_awake _ _ _ _ Hrun Hs') as Hne. destruct (B t' lk' Hs') as [B1 B2]. rewrite lookup_delete_ne by done.
    destruct (decide (lk' = lk)) as [->|]; [congruence|by rewrite fn_lookup_insert_ne].
  - intros t' lk' Ha Hw. apply lookup_delete_Some in Hw as [Hne Hw]. pose proof (C t' lk' Ha Hw). destruct (decide (lk' = lk)) as [->|]; [rewrite fn_lookup_insert; set_solver|by rewrite fn_lookup_insert_ne].
Qed.

Lemma sl_inv_sleep again s w h t lk s' : sl_inv again (mk_ssys s w h) -> running (slk s) t -> w !! t = Some lk -> acquiresleep_pass t lk s = Ret false s' -> sl_inv again (mk_ssys s' w h).
Proof.
  intros [A B C] [Ht Hr] Hw E. cbn [ss slk slocks want holders] in *. unfold acquiresleep_pass in E. apply bind_inv in E as (l & s1 & [= <- <-] & E).
  destruct (Z.eqb_spec (slocked (slocks s lk)) 0) as [E0|N0]; cbn [negb] in E; [by apply bind_inv in E as (? & ? & _ & (? & ? & _ & [=])%bind_inv)|].
  injection E as <-. assert (slocked (slocks s lk) = 1) as E1 by (destruct (A lk) as [[? _]|(? & ? & _)]; done). split; simpl.
  - intros lk'. destruct (A lk') as [?|(t' & K1 & K2 & K3 & K4)]; [by left|right]. exists t'. rewrite length_insert. split_and!; try done.
    rewrite procs_upd by done. by destruct (decide (t' = t)) as [->|].
  - intros t' lk' (Ht' & K1 & K2). simpl in *. rewrite length_insert in Ht'. rewrite procs_upd in K1, K2 by done.
    destruct (decide (t' = t)) as [->|]; [simpl in K2; injection K2 as <-; done|]. apply (B t' lk'). by split.
  - done.
Qed.

Lemma sl_inv_release again s w h t lk s' : sl_inv again (mk_ssys s w h) -> running (slk s) t -> t ∈ h lk -> releasesleep t lk s = Ret tt s' -> sl_inv again (mk_ssys s' w (<[lk := h lk ∖ {[t]}]> h)).
Proof.
  intros [A B C] Hrun Hh E. injection E as <-. cbn [ss slk slocks want holders] in *. fold (woken (Some t) (ChLock lk) (slk s)).
  assert (h lk = {[t]}) as Eh by (destruct (A lk) as [[_ E]|(t' & _ & E & _)]; rewrite E in *; set_solver).
  split; cbn [ss slk slocks want holders].
  - intros lk'. destruct (decide (lk' = lk)) as [->|]; rewrite ?fn_lookup_insert, ?fn_lookup_insert_ne by done; [left; split; [done|set_solver]|].
    destruct (A lk') as [?|(t' & K1 & K2 & K3 & K4)]; [by left|right]. exists t'. split_and!; try done; [by rewrite length_woken|].
    rewrite proc_woken by done. by destruct (wakes _ _ _ _).
  - intros t' lk' Hs'. apply sleeping_woken in Hs' as [Hs' Hne]; [|done]. rewrite fn_lookup_insert_ne by congruence. by eapply B.
  - intros t' lk' Ha Hw. pose proof (C t' lk' Ha Hw). destruct (decide (lk' = lk)) as [->|]; [rewrite fn_lookup_insert; set_solver|by rewrite fn_lookup_insert_ne].
Qed.

Lemma sstep_inv again s s' : sstep again s s' -> sl_inv again s -> sl_inv again s'.
Proof.
  intros Hs Hi. destruct Hs as [s w h t k' Ht Hr E|s w h t lk Hr Hw Ho|s w h t lk s' Hr Hw E|s w h t lk s' Hr Hw E|s w h t lk s' Hr Hw Hh E|s w h pid r k' E].
  - injection E as <-. eapply sl_inv_kept; [done|]. by apply (table_kept_upd _ t (with_pstate RUNNING)).
  - destruct Hi as [A B C]. cbn [ss slk slocks want holders] in *. split; [done|..]; cbn [ss slk slocks want holders].
    + intros t' lk' Hs'. pose proof (running_awake _ _ _ _ Hr Hs'). rewrite lookup_insert_ne by done. by apply B.
    + intros t' lk' Ha. destruct (decide (t' = t)) as [->|]; [rewrite lookup_insert_eq; intros [= <-]; by apply Ho|rewrite lookup_insert_ne by done; by apply C].
  - by eapply sl_inv_acquire.
  - by eapply sl_inv_sleep.
  - by eapply sl_inv_release.
  - eapply sl_inv_kept; [done|]. by eapply table_kept_kill.
Qed.

(** C14: sleep locks.  Processes take and release locks in any order, are
    scheduled and killed at any time.  At most one process holds a lock, and
    [holdingsleep] tells it from every process with another pid; and while a process
    sleeps for a lock, a process holds it, which is another one if processes do not ask
    for locks they hold; so a lock that is free has no sleepers. *)
Theorem sleeplock_exclusive again s s' :
  (forall lk, slocked (slocks (ss s) lk) = 0 /\ holders s lk = ∅) -> (forall t lk, ~ sleeping (slk (ss s)) t (ChLock lk)) ->
  rtc (sstep again) s s' ->
  (forall lk t t', t ∈ holders s' lk -> t' ∈ holders s' lk -> t = t') /\
  (forall lk t, t ∈ holders s' lk -> forall t', holdingsleep t' lk (ss s') = Ret (ppid (procs (slk (ss s')) !!! t) =? ppid (procs (slk (ss s')) !!! t')) (ss s')) /\
  (forall lk t, holders s' lk = ∅ -> holdingsleep t lk (ss s') = Ret false (ss s')) /\
  (forall t lk, sleeping (slk (ss s')) t (ChLock lk) -> exists t', t' ∈ holders s' lk /\ (again = false -> t' <> t)).
Proof.
  intros Hf Hn Hr. assert (sl_inv again s') as [A B C].
  { assert (sl_inv again s) as Hi by (split; [by left; apply Hf|intros t lk Hs; by destruct (Hn t lk)|intros t lk _ _; rewrite (proj2 (Hf lk)); set_solver]). clear Hf Hn.
    induction Hr as [|s s1 s2 Hs Hr IH]; [done|]. apply IH. by eapply sstep_inv. }
  split_and!.
  - intros lk t t' Ht Ht'. destruct (A lk) as [[_ E]|(u & _ & E & _)]; rewrite E in *; set_solver.
  - intros lk t Ht t'. destruct (A lk) as [[_ E]|(u & E1 & E & _ & E4)]; rewrite E in Ht; [set_solver|]. apply elem_of_singleton in Ht as ->.
    unfold holdingsleep, sl_k, get_proc. msimpl. rewrite E1, E4. cbn [Z.eqb negb andb]. by destruct (ss s').
  - intros lk t E. destruct (A lk) as [[E0 _]|(u & _ & E1 & _)]; [|rewrite E1 in E; set_solver].
    unfold holdingsleep, sl_k, get_proc. msimpl. rewrite E0. cbn [Z.eqb negb andb]. by destruct (ss s').
  - intros t lk Hs. destruct (B t lk Hs) as [E Ew]. destruct (A lk) as [[E0 _]|(u & _ & Eu & _)]; [congruence|]. exists u. split; [set_solver|]. intros Ha ->. apply (C t lk Ha Ew). set_solver.
Qed.
End sleeplock.

(** ** At work *)

#[local] Existing Instance demo_linker.
#[local] Existing Instance demo_symbols.

(** Two processes; the first takes lock 0, and the second then sleeps for it. *)
Definition demo_sl : slst ram := mk_slst demo_k (fun _ => mk_sleeplock 0 0).
Definition demo_sl1 : slst ram := final (acquiresleep_pass 0 0) demo_sl.
Definition demo_sl2 : slst ram := final (acquiresleep_pass 1 0) demo_sl1.

Lemma sleeplock_exclusive_witness : exists w, rtc (sstep false) (mk_ssys demo_sl ∅ (fun _ => ∅)) (mk_ssys demo_sl2 w (<[0%nat := {[0%nat]}]> (fun _ => ∅))) /\
  sleeping (slk demo_sl2) 1 (ChLock 0) /\ holdingsleep 0 0 demo_sl2 = Ret true demo_sl2.
Proof.
  assert (running (slk demo_sl) 0) as R0 by (split; [simpl; lia|reflexivity]).
  assert (running (slk demo_sl1) 1) as R1 by (split; [change (1 < 2)%nat; lia|reflexivity]).
  exists (delete 0%nat (<[1%nat := 0%nat]> (<[0%nat := 0%nat]> ∅))).
  assert (rtc (sstep false) (mk_ssys demo_sl ∅ (fun _ => ∅)) (mk_ssys demo_sl2 (delete 0%nat (<[1%nat := 0%nat]> (<[0%nat := 0%nat]> ∅))) (<[0%nat := {[0%nat]} ∪ ∅]> (fun _ => ∅)))) as Hs.
  { eapply rtc_l; [apply (sl_want false demo_sl ∅ (fun _ => ∅) 0 0 R0); [reflexivity|set_solver]|].
    eapply rtc_l; [apply (sl_want false demo_sl _ (fun _ => ∅) 1 0); [split; [simpl; lia|reflexivity]|reflexivity|set_solver]|].
    eapply rtc_l; [apply (sl_acquire false demo_sl _ (fun _ => ∅) 0 0 demo_sl1 R0); reflexivity|].
    apply rtc_once. apply (sl_sleep false demo_sl1 _ _ 1 0 demo_sl2 R1); reflexivity. }
  rewrite union_empty_r_L in Hs.
  assert (forall t lk, ~ sleeping (slk demo_sl) t (ChLock lk)) as Hn by (intros [|[|t]] lk (Ht & Hst & _); [done|done|simpl in Ht; lia]).
  destruct (sleeplock_exclusive false (mk_ssys demo_sl ∅ (fun _ => ∅)) _ ltac:(by split) Hn Hs) as (_ & Hh & _).
  split; [exact Hs|]. split; [split; [simpl; lia|split; reflexivity]|]. exact (Hh 0%nat 0%nat ltac:(simpl; rewrite fn_lookup_insert; set_solver) 0%nat).
Defined.
