(* ===== verification/Ring.v ===== *)
(** * Ring buffers

    A buffer of [N] bytes with two free-running counters of [w] bits, as in
    console.c and uart.c: the bytes between the counters, oldest first. *)

From S2P Require Import Prelude.

Section ring.
Context (w N : Z) (Hw : 0 <= w) (HN : 0 < N < 2 ^ w) (Hdiv : 2 ^ w mod N = 0).
Implicit Types (data : list Z) (r e c : Z).

Definition rcount r e : Z := wrap w (e - r).

Definition rcontents data r e : list Z :=
  (fun j : nat => data !!! Z.to_nat ((r + j) mod N)) <$> seq 0 (Z.to_nat (rcount r e)).

Lemma rcount_range r e : 0 <= rcount r e < 2 ^ w.
Proof. by apply wrap_range. Qed.

Lemma rcount_same r : rcount r r = 0.
Proof. unfold rcount, wrap. by rewrite Z.sub_diag. Qed.

Lemma rcount_zero r e : in_range w r -> in_range w e -> rcount r e = 0 <-> e = r.
Proof.
  unfold rcount, wrap, in_range. intros Hr He. split; [|intros ->; by rewrite Z.sub_diag].
  intros E. apply Z.mod_divide in E as [q Hq]; [|lia]. assert (q = 0) by nia. lia.
Qed.

Lemma rcount_full r e : in_range w e -> rcount r e = N <-> e = wrap w (r + N).
Proof.
  clear Hdiv. unfold rcount, wrap, in_range. intros He. split; [intros <-; rewrite Zplus_mod_idemp_r|intros ->; rewrite Zminus_mod_idemp_l].
  - replace (r + (e - r)) with e by lia. symmetry. by apply Z.mod_small.
  - replace (r + N - r) with N by lia. apply Z.mod_small. lia.
Qed.

Lemma rcount_succ r e : rcount r e < 2 ^ w - 1 -> rcount r (wrap w (e + 1)) = rcount r e + 1.
Proof.
  unfold rcount, wrap. intros Hlt. rewrite Zminus_mod_idemp_l. replace (e + 1 - r) with (e - r + 1) by lia.
  rewrite <- Zplus_mod_idemp_l. apply Z.mod_small. pose proof (Z.mod_pos_bound (e - r) (2 ^ w)). lia.
Qed.

Lemma rcount_pred r e : 0 < rcount r e -> rcount r (wrap w (e - 1)) = rcount r e - 1.
Proof.
  unfold rcount, wrap. intros Hlt. rewrite Zminus_mod_idemp_l. replace (e - 1 - r) with (e - r - 1) by lia.
  rewrite <- Zminus_mod_idemp_l. apply Z.mod_small. pose proof (Z.mod_pos_bound (e - r) (2 ^ w)). lia.
Qed.

Lemma rcount_take r e : 0 < rcount r e -> rcount (wrap w (r + 1)) e = rcount r e - 1.
Proof.
  unfold rcount, wrap. intros Hlt. rewrite Zminus_mod_idemp_r. replace (e - (r + 1)) with (e - r - 1) by lia.
  rewrite <- Zminus_mod_idemp_l. apply Z.mod_small. pose proof (Z.mod_pos_bound (e - r) (2 ^ w)). lia.
Qed.

Lemma length_rcontents data r e : Z.of_nat (length (rcontents data r e)) = rcount r e.
Proof. unfold rcontents. rewrite length_fmap, length_seq. pose proof (rcount_range r e). lia. Qed.

Lemma wrap_mod x : wrap w x mod N = x mod N.
Proof.
  unfold wrap. apply Z.mod_divide in Hdiv as [q Hq]; [|lia]. rewrite Hq. rewrite (Z.mul_comm q).
  rewrite Z.rem_mul_r by nia. rewrite Z.mul_comm, Z.mod_add by lia. apply Z.mod_mod. lia.
Qed.

(** The slot of the byte [rcount] places after [r]. *)
Lemma slot_of r e : e mod N = (r + rcount r e) mod N.
Proof. unfold rcount. rewrite <- Zplus_mod_idemp_r, wrap_mod, Zplus_mod_idemp_r. f_equal. lia. Qed.

Lemma rcontents_cons data r e : 0 < rcount r e -> rcontents data r e = data !!! Z.to_nat (r mod N) :: rcontents data (wrap w (r + 1)) e.
Proof.
  intros Hc. unfold rcontents. rewrite rcount_take by done. replace (Z.to_nat (rcount r e)) with (S (Z.to_nat (rcount r e - 1))) by lia.
  cbn [seq fmap list_fmap]. f_equal; [by rewrite Z.add_0_r|]. rewrite <- fmap_S_seq, <- list_fmap_compose. apply list_fmap_ext.
  intros _ j _. unfold compose. do 2 f_equal. rewrite <- (Zplus_mod_idemp_l (wrap w (r + 1))), wrap_mod, Zplus_mod_idemp_l. f_equal. lia.
Qed.

Lemma rcontents_push data r e c : length data = Z.to_nat N -> rcount r e < N ->
  rcontents (<[Z.to_nat (e mod N) := c]> data) r (wrap w (e + 1)) = rcontents data r e ++ [c].
Proof.
  intros Hd Hlt. pose proof (rcount_range r e) as Hr. unfold rcontents. rewrite rcount_succ by lia.
  rewrite Z2Nat.inj_add, Nat.add_1_r, seq_S, fmap_app by lia. cbn [fmap list_fmap Nat.add]. rewrite (slot_of r e). f_equal.
  - apply list_fmap_ext. intros k j [-> Hk]%lookup_seq. apply list_lookup_total_insert_ne. intros E. apply Z2Nat.inj in E; [|apply Z.mod_pos_bound; lia..].
    pose proof (Z.div_mod (r + rcount r e) N ltac:(lia)) as D1. pose proof (Z.div_mod (r + (0 + k)%nat) N ltac:(lia)) as D2. rewrite E in D1.
    set (q1 := (r + rcount r e) / N) in *. set (q2 := (r + (0 + k)%nat) / N) in *.
    assert (N * (q1 - q2) = rcount r e - k) as Hq by lia. assert (0 < q1 - q2 < 1) by nia. lia.
  - f_equal. rewrite Z2Nat.id by lia. apply list_lookup_total_insert_eq. rewrite Hd. pose proof (Z.mod_pos_bound (r + rcount r e) N). lia.
Qed.

(** Between [r], a point [m] in the middle and [e]. *)
Lemma rcontents_split data r m e : rcount r m + rcount m e = rcount r e -> rcontents data r e = rcontents data r m ++ rcontents data m e.
Proof.
  intros E. pose proof (rcount_range r m). pose proof (rcount_range m e). unfold rcontents. rewrite <- E, Z2Nat.inj_add, seq_app, fmap_app by lia. f_equal.
  cbn [Nat.add]. rewrite <- (Nat.add_0_r (Z.to_nat (rcount r m))), <- fmap_add_seq, <- list_fmap_compose. apply list_fmap_ext. intros _ j _. unfold compose. do 2 f_equal.
  rewrite Nat2Z.inj_add, Z2Nat.id, Z.add_assoc by lia. rewrite <- Zplus_mod_idemp_l, <- slot_of, Zplus_mod_idemp_l. done.
Qed.

Lemma rcontents_pop data r e : 0 < rcount r e -> rcontents data r e = rcontents data r (wrap w (e - 1)) ++ [data !!! Z.to_nat ((e - 1) mod N)].
Proof.
  intros Hc. unfold rcontents. rewrite rcount_pred by done. replace (Z.to_nat (rcount r e)) with (S (Z.to_nat (rcount r e - 1))) by lia.
  rewrite seq_S, fmap_app. cbn [fmap list_fmap Nat.add]. rewrite Z2Nat.id by lia. do 4 f_equal.
  rewrite <- (rcount_pred r e) by done. rewrite <- slot_of. apply wrap_mod.
Qed.

(** Slots outside the contents do not matter. *)
Lemma rcontents_empty data r : rcontents data r r = [].
Proof. unfold rcontents. by rewrite rcount_same. Qed.

Lemma rcontents_nil data r e : in_range w r -> in_range w e -> rcontents data r e = [] <-> e = r.
Proof. intros Hr He. rewrite <- length_zero_iff_nil, <- (rcount_zero r e) by done. rewrite <- (length_rcontents data r e). lia. Qed.
End ring.
