(* ===== verification/Printf.v ===== *)
(** * Formatted output (kernel/printf.c, user/printf.c) and [atoi] (user/ulib.c)

    The bytes that the kernel's [printf] gives to [consputc], and those that the
    user library's [vprintf] gives to [putc].  A format is its bytes before the
    NUL.  Arguments are words or strings; an argument that is missing or of the
    wrong kind is undefined behaviour, [None]. *)

From S2P Require Import Prelude.

Definition PERCENT : Z := 37.
Definition MINUS : Z := 45.
Definition ZERO : Z := 48.
Definition NINE : Z := 57.

(** "0123456789abcdef" and "0123456789ABCDEF" *)
Definition kdigits : list Z := [48; 49; 50; 51; 52; 53; 54; 55; 56; 57; 97; 98; 99; 100; 101; 102].
Definition udigits : list Z := [48; 49; 50; 51; 52; 53; 54; 55; 56; 57; 65; 66; 67; 68; 69; 70].

(** "(null)" *)
Definition NULLSTR : list Z := [40; 110; 117; 108; 108; 41].

Inductive arg := ANum (z : Z) | AStr (s : option (list Z)).

(** The do-while loop that fills [buf], least significant digit first. *)
Fixpoint put_digits (fuel : nat) (digits : list Z) (x base : Z) (buf : list Z) : list Z :=
  match fuel with
  | O => buf
  | S fuel =>
      let buf := buf ++ [digits !!! Z.to_nat (x mod base)] in
      let x := x / base in
      if x =? 0 then buf else put_digits fuel digits x base buf
  end.

(** An [uint] has at most 32 digits. *)
Definition printint_buf (digits : list Z) (xx base : Z) (sign : bool) : list Z :=
  let neg := sign && (xx <? 0) in
  let x := u32 (if neg then - xx else xx) in
  put_digits 32 digits x base [] ++ (if neg then [MINUS] else []).

(** The last loop prints [buf] backwards. *)
Definition printint (digits : list Z) (xx base : Z) (sign : bool) : list Z := rev (printint_buf digits xx base sign).

Fixpoint ptr_digits (k : nat) (digits : list Z) (x : Z) : list Z :=
  match k with O => [] | S k => digits !!! Z.to_nat (Z.shiftr x 60) :: ptr_digits k digits (u64 (Z.shiftl x 4)) end.

Definition printptr (digits : list Z) (x : Z) : list Z := [48; 120] ++ ptr_digits 16 digits x.

Definition str_arg (s : option (list Z)) : list Z := match s with Some s => s | None => NULLSTR end.

(** ** The kernel's [printf] *)

(** One conversion: what it prints, and the arguments left. *)
Definition kconv (c : Z) (ap : list arg) : option (list Z * list arg) :=
  match c, ap with
  | 100, ANum z :: ap => Some (printint kdigits (to_int z) 10 true, ap)
  | 120, ANum z :: ap => Some (printint kdigits (to_int z) 16 true, ap)
  | 112, ANum z :: ap => Some (printptr kdigits (u64 z), ap)
  | 115, AStr s :: ap => Some (str_arg s, ap)
  | 100, _ | 120, _ | 112, _ | 115, _ => None
  | 37, _ => Some ([PERCENT], ap)
  | _, _ => Some ([PERCENT; c], ap)
  end.

Fixpoint printf (fmt : list Z) (ap : list arg) : option (list Z) :=
  match fmt with
  | [] => Some []
  | c :: fmt =>
      if negb (c =? PERCENT) then out ← printf fmt ap; Some (c :: out)
      else
        match fmt with
        | [] => Some []
        | c :: fmt => '(o, ap) ← kconv c ap; out ← printf fmt ap; Some (o ++ out)
        end
  end.

(** ** The user library's [vprintf] *)

Definition uconv (c : Z) (ap : list arg) : option (list Z * list arg) :=
  match c, ap with
  | 100, ANum z :: ap => Some (printint udigits (to_int z) 10 true, ap)
  | 108, ANum z :: ap => Some (printint udigits (to_int z) 10 false, ap)
  | 120, ANum z :: ap => Some (printint udigits (to_int z) 16 false, ap)
  | 112, ANum z :: ap => Some (printptr udigits (u64 z), ap)
  | 115, AStr s :: ap => Some (str_arg s, ap)
  | 99, ANum z :: ap => Some ([z mod 256], ap)
  | 100, _ | 108, _ | 120, _ | 112, _ | 115, _ | 99, _ => None
  | 37, _ => Some ([PERCENT], ap)
  | _, _ => Some ([PERCENT; c], ap)
  end.

(** [state] is whether the last character was a percent sign. *)
Fixpoint vprintf (fmt : list Z) (ap : list arg) (state : bool) : option (list Z) :=
  match fmt with
  | [] => Some []
  | c :: fmt =>
      if negb state then
        if c =? PERCENT then vprintf fmt ap true
        else out ← vprintf fmt ap false; Some (c :: out)
      else '(o, ap) ← uconv c ap; out ← vprintf fmt ap false; Some (o ++ out)
  end.

(** ** [atoi] *)

Definition is_digit (c : Z) : bool := (ZERO <=? c) && (c <=? NINE).

Fixpoint atoi_loop (s : list Z) (n : Z) : Z :=
  match s with
  | c :: s => if is_digit c then atoi_loop s (to_int (n * 10 + c - ZERO)) else n
  | [] => n
  end.

Definition atoi (s : list Z) : Z := atoi_loop s 0.

(** ** Numbers *)

(** The value of digits, least significant first. *)
Fixpoint digits_val (base : Z) (l : list Z) : Z := match l with [] => 0 | d :: l => d + base * digits_val base l end.

(** [put_digits] writes the base-[base] representation. *)
Lemma put_digits_spec (fuel : nat) digits x base buf :
  2 <= base -> 0 <= x < base ^ fuel -> (0 < fuel)%nat -> exists ds, put_digits fuel digits x base buf = buf ++ ((fun d => digits !!! Z.to_nat d) <$> ds) /\
    digits_val base ds = x /\ Forall (fun d => 0 <= d < base) ds /\ (0 < length ds)%nat /\ (1 < length ds -> base ^ (length ds - 1) <= x).
Proof.
  intros Hb. revert x buf. induction fuel as [|fuel IH]; intros x buf Hx Hf; [lia|]. cbn [put_digits]. cbv zeta.
  pose proof (Z.mod_pos_bound x base ltac:(lia)) as Hm. pose proof (Z.div_mod x base ltac:(lia)) as Hdm.
  destruct (Z.eqb_spec (x / base) 0) as [E|N].
  - exists [x mod base]. simpl. split; [done|]. split; [lia|]. split; [by constructor|]. lia.
  - assert (0 < x / base) as Hpos by (pose proof (Z.div_pos x base ltac:(lia) ltac:(lia)); lia).
    rewrite Nat2Z.inj_succ, Z.pow_succ_r in Hx by lia.
    assert (x / base < base ^ fuel) as Hlt by (apply Z.div_lt_upper_bound; lia).
    destruct fuel as [|fuel']; [simpl in Hlt; lia|].
    destruct (IH (x / base) (buf ++ [digits !!! Z.to_nat (x mod base)]) ltac:(lia) ltac:(lia)) as (ds & E & Hv & Hr & Hl & Hlen).
    exists (x mod base :: ds). rewrite E, <- app_assoc. split; [done|]. simpl. split; [lia|]. split; [by constructor|]. split; [lia|]. intros _.
    replace (Z.of_nat (S (length ds)) - 1) with (Z.of_nat (length ds)) by lia.
    destruct (decide (length ds = 1%nat)) as [E1|]; [rewrite E1; change (base ^ 1%nat) with (base ^ 1); nia|].
    specialize (Hlen ltac:(lia)). replace (Z.of_nat (length ds)) with (Z.succ (length ds - 1)) by lia. rewrite Z.pow_succ_r by lia. nia.
Qed.

Lemma pow_len_bound base n x (k : nat) : 1 < base -> base ^ (n - 1) <= x -> x < base ^ k -> 1 <= n -> n <= k.
Proof. intros Hb H1 H2 Hn. destruct (decide (n <= k)); [done|]. assert (base ^ k <= base ^ (n - 1)) by (apply Z.pow_le_mono_r; lia). lia. Qed.

(** [atoi] reads most significant digits first. *)
Lemma atoi_loop_digits (dg : list Z) ds n :
  (forall d, 0 <= d < 10 -> dg !!! Z.to_nat d = ZERO + d) -> Forall (fun d => 0 <= d < 10) ds -> 0 <= n -> n * 10 ^ length ds + digits_val 10 ds < 2 ^ 31 ->
  atoi_loop (rev ((fun d => dg !!! Z.to_nat d) <$> ds)) n = n * 10 ^ length ds + digits_val 10 ds.
Proof.
  intros Hdg. revert n. induction ds as [|d ds IH] using rev_ind; intros n Hf Hn Hlt; [simpl in *; lia|].
  apply Forall_app in Hf as [Hf [Hd _]%Forall_cons]. rewrite fmap_app, rev_app_distr. cbn [fmap list_fmap rev app atoi_loop].
  assert (digits_val 10 (ds ++ [d]) = digits_val 10 ds + d * 10 ^ length ds) as Ev.
  { clear. induction ds as [|e ds IH]; [simpl; lia|]. cbn [app digits_val length]. rewrite IH, Nat2Z.inj_succ, Z.pow_succ_r by lia. lia. }
  assert (0 <= digits_val 10 ds) as Hp.
  { clear - Hf. induction ds as [|e ds IH]; simpl; [lia|]. apply Forall_cons in Hf as [? ?]. specialize (IH ltac:(done)). lia. }
  rewrite length_app, Nat.add_1_r, Nat2Z.inj_succ, Z.pow_succ_r, Ev in * by lia. pose proof (Z.pow_pos_nonneg 10 (length ds) ltac:(lia) ltac:(lia)) as Hpp.
  rewrite Hdg by done. unfold is_digit, ZERO, NINE. replace ((48 <=? 48 + d) && (48 + d <=? 57)) with true by lia.
  assert (0 <= n * 10 + d < 2 ^ 31) as Hr by nia. replace (n * 10 + (48 + d) - 48) with (n * 10 + d) by lia.
  rewrite sint_id by (change (2 ^ (32 - 1)) with (2 ^ 31); lia). rewrite IH; [lia|done|lia|lia].
Qed.

(** C37: [printint] of both libraries never overruns its 16-byte buffer, in
    base 10 and in base 16 and for every [int].  [atoi] reads a non-negative number
    that was printed in decimal back.  A negative one, above the least [int], is
    printed as a minus sign and digits: [atoi] reads the digits back as its absolute
    value, but the whole text as 0, since it does not know the minus sign. *)
Theorem printint_atoi dg n :
  dg = kdigits \/ dg = udigits ->
  (forall xx base sign, - 2 ^ 31 <= xx < 2 ^ 31 -> base = 10 \/ base = 16 -> (length (printint_buf dg xx base sign) <= 16)%nat) /\
  (0 <= n < 2 ^ 31 -> atoi (printint dg n 10 true) = n) /\
  (- 2 ^ 31 < n < 0 -> exists l, printint dg n 10 true = MINUS :: l /\ atoi l = - n /\ atoi (printint dg n 10 true) = 0).
Proof.
  intros Hdg. assert (forall d, 0 <= d < 10 -> dg !!! Z.to_nat d = ZERO + d) as Hval.
  { intros d Hd. assert (d = 0 \/ d = 1 \/ d = 2 \/ d = 3 \/ d = 4 \/ d = 5 \/ d = 6 \/ d = 7 \/ d = 8 \/ d = 9) as Hc by lia.
    destruct Hdg; subst dg; intuition subst; done. }
  assert (forall x, 0 <= x < 2 ^ 31 -> atoi (rev (put_digits 32 dg x 10 [])) = x) as Hat.
  { intros x Hx. destruct (put_digits_spec 32 dg x 10 []) as (ds & -> & Hv & Hr & _); [lia| |lia|].
    { change (10 ^ 32%nat) with (10 ^ 32). lia. }
    simpl. unfold atoi. rewrite atoi_loop_digits; [lia|done|done|lia|lia]. }
  split_and!.
  - intros xx base sign Hxx Hb. unfold printint_buf. set (x := u32 _). assert (0 <= x < 2 ^ 32) as Hx by (apply wrap_range; lia).
    destruct (put_digits_spec 32 dg x base []) as (ds & -> & Hv & Hr & Hl & Hlen); [lia| |lia|].
    { assert (2 ^ 32%nat <= base ^ 32%nat) by (apply Z.pow_le_mono_l; lia). change (2 ^ 32%nat) with (2 ^ 32) in *. lia. }
    rewrite app_nil_l, length_app, length_fmap. assert (length ds <= 10)%nat; [|destruct (sign && _); simpl; lia].
    destruct (decide (length ds = 1%nat)); [lia|]. specialize (Hlen ltac:(lia)).
    assert (Z.of_nat (length ds) <= 10%nat); [|lia]. eapply (pow_len_bound base _ x); [lia|done| |lia].
    change (2 ^ 32) with 4294967296 in Hx. destruct Hb; subst base; [change (10 ^ 10%nat) with 10000000000|change (16 ^ 10%nat) with 1099511627776]; lia.
  - intros Hn. unfold printint, printint_buf. replace (n <? 0) with false by lia. cbn [andb]. rewrite app_nil_r, wrap_id by (unfold in_range; lia). by apply Hat.
  - intros Hn. unfold printint, printint_buf. replace (n <? 0) with true by lia. cbn [andb]. rewrite rev_app_distr. cbn [rev app].
    eexists. split; [done|]. rewrite wrap_id by (unfold in_range; lia). split; [|done]. apply Hat. lia.
Qed.

(** ** Text *)

(** A percent sign is written twice. *)
Fixpoint escape (s : list Z) : list Z :=
  match s with [] => [] | c :: s => if c =? PERCENT then PERCENT :: PERCENT :: escape s else c :: escape s end.

(** Both formatters print a text with its percent signs doubled as the
    text itself, whatever arguments follow. *)
Theorem printf_escape s ap : printf (escape s) ap = Some s /\ vprintf (escape s) ap false = Some s.
Proof.
  induction s as [|c s [IH1 IH2]]; [done|]. cbn [escape]. destruct (Z.eqb_spec c PERCENT) as [->|N]; cbn [printf vprintf].
  - rewrite Z.eqb_refl. cbn [negb]. unfold kconv, uconv. cbn. by rewrite IH1, IH2.
  - rewrite (proj2 (Z.eqb_neq _ _) N). cbn [negb]. by rewrite IH1, IH2.
Qed.

Lemma printint_atoi_witness : atoi (printint kdigits 2023 10 true) = 2023 /\ exists l, printint udigits (-7) 10 true = MINUS :: l /\ atoi l = 7 /\ atoi (printint udigits (-7) 10 true) = 0.
Proof.
  split; [apply (printint_atoi kdigits 2023); [by left|lia]|]. apply (printint_atoi udigits (-7)); [by right|lia].
Defined.
