(* ===== verification/Console.v ===== *)
(** * The console and the UART (kernel/console.c, kernel/uart.c, procdump of proc.c)

    The UART's registers are an argument: [ReadReg] and [WriteReg] act on a
    device state.  Bytes given to the transmitter are also recorded, with
    whether they came from the transmit buffer.  A pass of a routine that can
    sleep ends with its result or by going to sleep. *)

From S2P Require Import Prelude Riscv Mem Kstring Kalloc Vm Store Fs Kernel Proc Ring Printf.

Class Uart (D : Type) := { ReadReg : Z -> D -> Z * D; WriteReg : Z -> Z -> D -> D }.

Definition RHR : Z := 0.
Definition THR : Z := 0.
Definition IER : Z := 1.
Definition IER_RX_ENABLE : Z := 1.
Definition IER_TX_ENABLE : Z := 2.
Definition FCR : Z := 2.
Definition FCR_FIFO_ENABLE : Z := 1.
Definition FCR_FIFO_CLEAR : Z := 6.
Definition LCR : Z := 3.
Definition LCR_EIGHT_BITS : Z := 3.
Definition LCR_BAUD_LATCH : Z := 128.
Definition LSR : Z := 5.
Definition LSR_RX_READY : Z := 1.
Definition LSR_TX_IDLE : Z := 32.
Definition UART_TX_BUF_SIZE : Z := 32.

Definition BACKSPACE : Z := 0x100.
Definition INPUT_BUF_SIZE : Z := 128.
(** [C(x)] *)
Definition Ctrl (x : Z) : Z := x - 64.
Definition CTRL_D : Z := Ctrl 68.
Definition CTRL_H : Z := Ctrl 72.
Definition CTRL_P : Z := Ctrl 80.
Definition CTRL_U : Z := Ctrl 85.
Definition DELETE : Z := 0x7f.
Definition NEWLINE : Z := 10.
Definition RETURN : Z := 13.

Inductive tx := Buffered (c : Z) | Sync (c : Z).

Record cst (St D : Type) := mk_cst {
  ck : kst St; cdev : D; cout : list tx; panicked : bool;
  cbuf : list Z; cr : Z; cw : Z; ce : Z;
  tbuf : list Z; tw : Z; tr : Z }.
Arguments mk_cst {_ _}.
Arguments ck {_ _}.
Arguments cdev {_ _}.
Arguments cout {_ _}.
Arguments panicked {_ _}.
Arguments cbuf {_ _}.
Arguments cr {_ _}.
Arguments cw {_ _}.
Arguments ce {_ _}.
Arguments tbuf {_ _}.
Arguments tw {_ _}.
Arguments tr {_ _}.

Section console.
Context {St : Type} {D : Type} `{Uart D}.
Abbreviation C := (cst St D).

Definition set_ck (k : kst St) (s : C) : C := mk_cst k (cdev s) (cout s) (panicked s) (cbuf s) (cr s) (cw s) (ce s) (tbuf s) (tw s) (tr s).
Definition set_dev (d : D) (o : list tx) (s : C) : C := mk_cst (ck s) d o (panicked s) (cbuf s) (cr s) (cw s) (ce s) (tbuf s) (tw s) (tr s).
Definition set_cons (b : list Z) (r w e : Z) (s : C) : C := mk_cst (ck s) (cdev s) (cout s) (panicked s) b r w e (tbuf s) (tw s) (tr s).
Definition set_tx (b : list Z) (w r : Z) (s : C) : C := mk_cst (ck s) (cdev s) (cout s) (panicked s) (cbuf s) (cr s) (cw s) (ce s) b w r.

Definition on_ck {A} (c : M (kst St) A) : M C A := zoom ck set_ck c.

Definition readreg (r : Z) : M C Z := fun s => let '(v, d) := ReadReg r (cdev s) in Ret (v mod 256) (set_dev d (cout s) s).
Definition writereg (r v : Z) : M C unit := modify (fun s => set_dev (WriteReg r v (cdev s)) (cout s) s).
Definition writethr (t : tx) : M C unit :=
  modify (fun s => set_dev (WriteReg THR (match t with Buffered c | Sync c => c mod 256 end) (cdev s)) (cout s ++ [t]) s).

(** ** uart.c *)

Definition uartinit : M C unit :=
  writereg IER 0;;
  writereg LCR LCR_BAUD_LATCH;;
  writereg 0 3;;
  writereg 1 0;;
  writereg LCR LCR_EIGHT_BITS;;
  writereg FCR (Z.lor FCR_FIFO_ENABLE FCR_FIFO_CLEAR);;
  writereg IER (Z.lor IER_TX_ENABLE IER_RX_ENABLE).

(** Every turn takes a byte from the buffer. *)
Fixpoint uartstart_loop (fuel : nat) (me : option nat) : M C unit :=
  match fuel with
  | O => diverge
  | S fuel =>
      s ← gets (fun s => s);
      if tw s =? tr s then mret tt
      else
        l ← readreg LSR;
        if Z.land l LSR_TX_IDLE =? 0 then mret tt
        else
          let c := tbuf s !!! Z.to_nat (tr s mod UART_TX_BUF_SIZE) in
          modify (fun s => set_tx (tbuf s) (tw s) (u64 (tr s + 1)) s);;
          on_ck (wakeup me ChUart);;
          writethr (Buffered c);;
          uartstart_loop fuel me
  end.

Definition uartstart (me : option nat) : M C unit := uartstart_loop (S (Z.to_nat UART_TX_BUF_SIZE)) me.

(** A pass of [uartputc]: whether the byte was taken.  The flag [panicked] is
    set only by [panic], which does not return. *)
Definition uartputc_pass (me : nat) (c : Z) : M C bool :=
  s ← gets (fun s => s);
  if panicked s then diverge
  else if tw s =? u64 (tr s + UART_TX_BUF_SIZE) then on_ck (sleep me ChUart);; mret false
  else
    modify (fun s => set_tx (<[Z.to_nat (tw s mod UART_TX_BUF_SIZE) := c mod 256]> (tbuf s)) (u64 (tw s + 1)) (tr s) s);;
    uartstart (Some me);;
    mret true.

(** The wait for the transmitter, with fuel for its polls. *)
Fixpoint tx_wait (spin : nat) : M C unit :=
  match spin with
  | O => diverge
  | S spin => l ← readreg LSR; if Z.land l LSR_TX_IDLE =? 0 then tx_wait spin else mret tt
  end.

Definition uartputc_sync (spin : nat) (c : Z) : M C unit :=
  p ← gets panicked;
  if (p : bool) then diverge
  else tx_wait spin;; writethr (Sync c).

Definition uartgetc : M C Z :=
  l ← readreg LSR;
  if negb (Z.land l 1 =? 0) then readreg RHR else mret (-1).

(** ** console.c *)

Definition consputc (spin : nat) (c : Z) : M C unit :=
  if c =? BACKSPACE then uartputc_sync spin 8;; uartputc_sync spin 32;; uartputc_sync spin 8
  else uartputc_sync spin c.

Fixpoint consputs (spin : nat) (l : list Z) : M C unit :=
  match l with [] => mret tt | c :: l => consputc spin c;; consputs spin l end.

(** "unused", "used", "sleep ", "runble", "run   ", "zombie" *)
Definition state_name (st : procstate) : list Z :=
  match st with
  | UNUSED => [117; 110; 117; 115; 101; 100]
  | USED => [117; 115; 101; 100]
  | SLEEPING => [115; 108; 101; 101; 112; 32]
  | RUNNABLE => [114; 117; 110; 98; 108; 101]
  | RUNNING => [114; 117; 110; 32; 32; 32]
  | ZOMBIE => [122; 111; 109; 98; 105; 101]
  end.

(** "%d %s %s" *)
Definition dump_fmt : list Z := [37; 100; 32; 37; 115; 32; 37; 115].

Definition kprintf (spin : nat) (fmt : list Z) (ap : list arg) : M C unit :=
  match printf fmt ap with Some l => consputs spin l | None => panic "printf" end.

Fixpoint procdump_loop (spin : nat) (ps : list proc) : M C unit :=
  match ps with
  | [] => mret tt
  | p :: ps =>
      (if decide (pstate p = UNUSED) then mret tt
       else kprintf spin dump_fmt [ANum (ppid p); AStr (Some (state_name (pstate p))); AStr (Some (pname p))];; kprintf spin [NEWLINE] []);;
      procdump_loop spin ps
  end.

Definition procdump (spin : nat) : M C unit :=
  kprintf spin [NEWLINE] [];; ps ← gets (fun s => procs (ck s)); procdump_loop spin ps.

(** The loop of [^U]; the edited part is shorter than the buffer. *)
Fixpoint kill_line (fuel : nat) (spin : nat) : M C unit :=
  match fuel with
  | O => diverge
  | S fuel =>
      s ← gets (fun s => s);
      if negb (ce s =? cw s) && negb (cbuf s !!! Z.to_nat (u32 (ce s - 1) mod INPUT_BUF_SIZE) =? NEWLINE) then
        modify (fun s => set_cons (cbuf s) (cr s) (cw s) (u32 (ce s - 1)) s);;
        consputc spin BACKSPACE;;
        kill_line fuel spin
      else mret tt
  end.

(** [me] is the process the interrupt found running, if any. *)
Definition consoleintr (spin : nat) (me : option nat) (c : Z) : M C unit :=
  if c =? CTRL_P then procdump spin
  else if c =? CTRL_U then kill_line (S (Z.to_nat INPUT_BUF_SIZE)) spin
  else if (c =? CTRL_H) || (c =? DELETE) then
    s ← gets (fun s => s);
    if negb (ce s =? cw s) then
      modify (fun s => set_cons (cbuf s) (cr s) (cw s) (u32 (ce s - 1)) s);;
      consputc spin BACKSPACE
    else mret tt
  else
    s ← gets (fun s => s);
    if negb (c =? 0) && (u32 (ce s - cr s) <? INPUT_BUF_SIZE) then
      let c := if c =? RETURN then NEWLINE else c in
      consputc spin c;;
      modify (fun s => set_cons (<[Z.to_nat (ce s mod INPUT_BUF_SIZE) := c mod 256]> (cbuf s)) (cr s) (cw s) (u32 (ce s + 1)) s);;
      s ← gets (fun s => s);
      if (c =? NEWLINE) || (c =? CTRL_D) || (u32 (ce s - cr s) =? INPUT_BUF_SIZE) then
        modify (fun s => set_cons (cbuf s) (cr s) (ce s) (ce s) s);;
        on_ck (wakeup me ChCons)
      else mret tt
    else mret tt.

(** How a turn of [consoleread]'s loop ends. *)
Inductive cread := CSleep | CKilled | CBreak (n : Z) | CNext (n : Z).

(** One turn, with [n] bytes still wanted of [target]. *)
Definition consoleread_iter (me : nat) (dst : dest) (target n : Z) : M C cread :=
  s ← gets (fun s => s);
  if cr s =? cw s then
    k ← on_ck (killed me);
    if (k : bool) then mret CKilled else on_ck (sleep me ChCons);; mret CSleep
  else
    let c := cbuf s !!! Z.to_nat (cr s mod INPUT_BUF_SIZE) in
    modify (fun s => set_cons (cbuf s) (u32 (cr s + 1)) (cw s) (ce s) s);;
    if c =? CTRL_D then
      (if n <? target then modify (fun s => set_cons (cbuf s) (u32 (cr s - 1)) (cw s) (ce s) s) else mret tt);;
      mret (CBreak n)
    else
      '(r, _) ← on_ck (on_mem_k (either_copyout dst [c]));
      if r =? -1 then mret (CBreak n)
      else if c =? NEWLINE then mret (CBreak (n - 1)) else mret (CNext (n - 1)).

(** [Some] result, or asleep with so much still wanted. *)
Fixpoint consoleread_from (fuel : nat) (me : nat) (dst : dest) (target n : Z) : M C (Z + Z) :=
  match fuel with
  | O => diverge
  | S fuel =>
      if 0 <? n then
        r ← consoleread_iter me dst target n;
        match r with
        | CSleep => mret (inl n)
        | CKilled => mret (inr (-1))
        | CBreak n => mret (inr (target - n))
        | CNext n => consoleread_from fuel me (dest_add dst 1) target n
        end
      else mret (inr (target - n))
  end.

Definition consoleread_pass (me : nat) (dst : dest) (target n : Z) : M C (Z + Z) := consoleread_from (S (Z.to_nat n)) me dst target n.

(** [consolewrite] up to the end, or up to where it has to sleep ([inl]). *)
Fixpoint consolewrite_from (fuel : nat) (me : nat) (src : source) (n i : Z) : M C (Z + Z) :=
  match fuel with
  | O => diverge
  | S fuel =>
      if i <? n then
        '(r, b) ← on_ck (on_mem_k (either_copyin src 1));
        if r =? -1 then mret (inr i)
        else
          ok ← uartputc_pass me (b !!! 0%nat);
          if (ok : bool) then consolewrite_from fuel me (source_add src 1) n (i + 1) else mret (inl i)
      else mret (inr i)
  end.

Definition consolewrite_pass (me : nat) (src : source) (n i : Z) : M C (Z + Z) := consolewrite_from (S (Z.to_nat (n - i))) me src n i.

(** The entries of [devsw] that it fills in are [devread] and [devwrite] of
    Sched.v; the open-file layer has the table as an argument. *)
Definition consoleinit : M C unit := uartinit.

(** [uartintr]: as many bytes as the device has, then the transmit buffer. *)
Fixpoint uart_rx (fuel spin : nat) (me : option nat) : M C unit :=
  match fuel with
  | O => diverge
  | S fuel => c ← uartgetc; if c =? -1 then mret tt else consoleintr spin me c;; uart_rx fuel spin me
  end.

Definition uartintr (fuel spin : nat) (me : option nat) : M C unit := uart_rx fuel spin me;; uartstart me.
End console.
