(* ===== verification/ConsoleThms.v ===== *)
(** * Line editing and output of the console (kernel/console.c, kernel/uart.c)

    The input buffer is a queue of complete lines followed by the line being
    typed; the transmit buffer is a queue between writers and the device. *)

From S2P Require Import Prelude Riscv Mem Kstring Kalloc Vm VmPt VmUser VmCopy VmProc Store Fs Kernel Proc Pipe Ring Printf Console VmThms PipeThms ProcThms FileThms Isolation.

Abbreviation icount := (rcount 32).
Abbreviation tcount := (rcount 64).

Section spec.
Context {St D : Type}.
Abbreviation C := (cst St D).
Implicit Types s : C.

(** ** Abstract views *)

(** What [consoleread] can take, and the line being edited. *)
Definition committed s : list Z := rcontents 32 128 (cbuf s) (cr s) (cw s).
Definition editing s : list Z := rcontents 32 128 (cbuf s) (cw s) (ce s).

(** Bytes accepted for output and not sent; bytes sent from the buffer. *)
Definition pending s : list Z := rcontents 64 32 (tbuf s) (tr s) (tw s).
Definition sent s : list Z := omap (fun t => match t with Buffered c => Some c | Sync _ => None end) (cout s).

(** Typing [c] at a console with the lines [l] and the unfinished line [e]. *)
Definition type_char (c : Z) (v : list Z * list Z) : list Z * list Z :=
  let '(l, e) := v in
  if c =? CTRL_P then (l, e)
  else if c =? CTRL_U then (l, [])
  else if (c =? CTRL_H) || (c =? DELETE) then (l, removelast e)
  else if negb (c =? 0) && (length (l ++ e) <? 128)%nat then
    let c := if c =? RETURN then NEWLINE else c in
    if (c =? NEWLINE) || (c =? CTRL_D) || (length (l ++ e ++ [c]) =? 128)%nat then (l ++ e ++ [c], []) else (l, e ++ [c])
  else (l, e).

Record cons_inv s : Prop := {
  co_buf : length (cbuf s) = Z.to_nat 128;
  co_r : in_range 32 (cr s);
  co_w : in_range 32 (cw s);
  co_e : in_range 32 (ce s);
  co_sum : icount (cr s) (cw s) + icount (cw s) (ce s) = icount (cr s) (ce s);
  co_max : icount (cr s) (ce s) <= 128;
  co_edit : NEWLINE ∉ editing s;
  co_wait t : sleeping (ck s) t ChCons -> committed s = [];
}.

Record uart_inv s : Prop := {
  uo_buf : length (tbuf s) = Z.to_nat 32;
  uo_r : in_range 64 (tr s);
  uo_w : in_range 64 (tw s);
  uo_max : tcount (tr s) (tw s) <= 32;
  uo_wait t : sleeping (ck s) t ChUart -> length (pending s) = 32%nat;
}.

Lemma length_input s : cons_inv s -> Z.of_nat (length (committed s ++ editing s)) = icount (cr s) (ce s).
Proof. intros Hi. rewrite length_app, Nat2Z.inj_add. unfold committed, editing. rewrite !length_rcontents by lia. apply (co_sum _ Hi). Qed.
End spec.

Section ops.
Context {St D : Type} `{Uart D}.
Abbreviation C := (cst St D).
Implicit Types s : C.

(** ** Echoing touches only the device *)

Fixpoint polls (n : nat) (d : D) : bool :=
  match n with O => false | S n => let '(v, d) := ReadReg LSR d in if Z.land (v mod 256) LSR_TX_IDLE =? 0 then polls n d else true end.

Context (spin : nat) (Hready : forall d, polls spin d = true).

(** Only the device and its record of output differ, by bytes not from the buffer. *)
Definition echoed s s' : Prop := exists d o, s' = set_dev d (cout s ++ (Sync <$> o)) s.

Lemma echoed_trans s1 s2 s3 : echoed s1 s2 -> echoed s2 s3 -> echoed s1 s3.
Proof. intros (d & o & ->) (d' & o' & ->). exists d', (o ++ o'). unfold set_dev. simpl. by rewrite fmap_app, app_assoc. Qed.

Lemma echoed_refl s : echoed s s.
Proof. exists (cdev s), []. simpl. rewrite app_nil_r. by destruct s. Qed.

Lemma tx_wait_spec n s : polls n (cdev s) = true -> exists d, tx_wait n s = Ret tt (set_dev d (cout s) s).
Proof.
  revert s. induction n as [|n IH]; intros s; cbn [polls tx_wait]; [done|]. destruct (ReadReg LSR (cdev s)) as [v d] eqn:E. intros Hp.
  assert (readreg LSR s = Ret (v mod 256) (set_dev d (cout s) s)) as Er by (unfold readreg; by rewrite E). rewrite (bind_ret_eq _ _ _ _ _ Er).
  destruct (Z.land (v mod 256) LSR_TX_IDLE =? 0); [|by exists d]. destruct (IH (set_dev d (cout s) s) Hp) as [d' E']. exists d'. by rewrite E'.
Qed.

Lemma putc_sync_spec c s : panicked s = false -> wp (uartputc_sync spin c s) (fun _ s' => echoed s s').
Proof.
  intros Hp. unfold uartputc_sync. apply wp_gets. rewrite Hp. destruct (tx_wait_spec spin s (Hready _)) as [d E].
  rewrite (bind_ret_eq _ _ _ _ _ E). by exists (WriteReg THR (c mod 256) d), [c].
Qed.

Lemma echoed_panicked s s' : echoed s s' -> panicked s' = panicked s.
Proof. by intros (d & o & ->). Qed.

Lemma consputc_spec c s : panicked s = false -> wp (consputc spin c s) (fun _ s' => echoed s s').
Proof.
  intros Hp. unfold consputc. destruct (c =? BACKSPACE); [|by apply putc_sync_spec].
  wp_step (putc_sync_spec 8 s Hp). intros [] s1 E1. wp_step (putc_sync_spec 32 s1); [by rewrite (echoed_panicked _ _ E1)|]. intros [] s2 E2.
  pose proof (echoed_trans _ _ _ E1 E2) as E12. eapply wp_mono; [apply (putc_sync_spec 8 s2); by rewrite (echoed_panicked _ _ E12)|].
  intros [] s3 E3. by eapply echoed_trans.
Qed.

Lemma consputs_spec l s : panicked s = false -> wp (consputs spin l s) (fun _ s' => echoed s s').
Proof.
  revert s. induction l as [|c l IH]; intros s Hp; cbn [consputs]; [apply wp_ret, echoed_refl|].
  wp_step (consputc_spec c s Hp). intros [] s1 E1. eapply wp_mono; [apply IH; by rewrite (echoed_panicked _ _ E1)|]. intros [] s2 E2. by eapply echoed_trans.
Qed.

Lemma procdump_loop_spec ps s : panicked s = false -> wp (procdump_loop spin ps s) (fun _ s' => echoed s s').
Proof.
  revert s. induction ps as [|p ps IH]; intros s Hp; cbn [procdump_loop]; [apply wp_ret, echoed_refl|]. apply wp_bind.
  destruct (decide _); [by apply wp_ret, IH|]. unfold kprintf at 1. cbn [printf dump_fmt PERCENT kconv].
  wp_step (consputs_spec _ s Hp). intros [] s1 E1. assert (panicked s1 = false) as Hp1 by (by rewrite (echoed_panicked _ _ E1)). unfold kprintf. cbn [printf].
  eapply wp_mono; [by apply consputs_spec|]. intros [] s2 E2. pose proof (echoed_trans _ _ _ E1 E2) as E12.
  eapply wp_mono; [apply IH; by rewrite (echoed_panicked _ _ E12)|]. intros [] s3 E3. by eapply echoed_trans.
Qed.

Lemma procdump_spec s : panicked s = false -> wp (procdump spin s) (fun _ s' => echoed s s').
Proof.
  intros Hp. unfold procdump, kprintf. cbn [printf]. wp_step (consputs_spec _ s Hp). intros [] s1 E1. apply wp_gets.
  eapply wp_mono; [apply procdump_loop_spec; by rewrite (echoed_panicked _ _ E1)|]. intros [] s2 E2. by eapply echoed_trans.
Qed.

Lemma echoed_cons s s' : echoed s s' -> cons_inv s -> cons_inv s' /\ committed s' = committed s /\ editing s' = editing s.
Proof. intros (d & o & ->) [A1 A2 A3 A4 A5 A6 A7 A8]. split; [by split|done]. Qed.

Lemma echoed_uart s s' : echoed s s' -> uart_inv s -> uart_inv s' /\ sent s' = sent s /\ pending s' = pending s.
Proof.
  intros (d & o & ->) [A1 A2 A3 A4 A5]. split; [by split|]. split; [|done]. unfold sent. simpl. rewrite omap_app.
  assert (omap (fun t => match t with Buffered c => Some c | Sync _ => None end) (Sync <$> o) = []) as -> by (induction o; [done|]; by simpl).
  by rewrite app_nil_r.
Qed.

(** The transmit side is as before. *)
Definition uart_kept s s' : Prop := uart_inv s -> uart_inv s' /\ sent s' = sent s /\ pending s' = pending s.

Lemma uart_kept_trans s1 s2 s3 : uart_kept s1 s2 -> uart_kept s2 s3 -> uart_kept s1 s3.
Proof. intros H1 H2 Hu. destruct (H1 Hu) as (Hu2 & E1 & E2). destruct (H2 Hu2) as (Hu3 & E3 & E4). split_and!; congruence. Qed.

Lemma uart_kept_cons s b r w e : uart_kept s (set_cons b r w e s).
Proof. intros [A1 A2 A3 A4 A5]. by split; [split|]. Qed.

(** ** Editing *)

Lemma div32 : 2 ^ 32 mod 128 = 0.
Proof. done. Qed.

Lemma edit_empty s : cons_inv s -> editing s = [] <-> ce s = cw s.
Proof. intros Hi. apply rcontents_nil; [lia|lia|apply (co_w _ Hi)|apply (co_e _ Hi)]. Qed.

Lemma committed_empty s : cons_inv s -> committed s = [] <-> cw s = cr s.
Proof. intros Hi. apply rcontents_nil; [lia|lia|apply (co_r _ Hi)|apply (co_w _ Hi)]. Qed.

Lemma erase_spec s : cons_inv s -> ce s <> cw s -> let s' := set_cons (cbuf s) (cr s) (cw s) (u32 (ce s - 1)) s in
  cons_inv s' /\ committed s' = committed s /\ editing s = editing s' ++ [cbuf s !!! Z.to_nat ((ce s - 1) mod 128)].
Proof.
  intros Hi Hne s'. pose proof Hi as [A1 A2 A3 A4 A5 A6 A7 A8].
  assert (0 < icount (cw s) (ce s)) as Hc.
  { pose proof (rcount_range 32 ltac:(lia) (cw s) (ce s)) as Hr. destruct (decide (icount (cw s) (ce s) = 0)) as [E|]; [|lia].
    destruct Hne. exact (proj1 (rcount_zero 32 128 ltac:(lia) ltac:(lia) _ _ A3 A4) E). }
  pose proof (rcount_range 32 ltac:(lia) (cr s) (cw s)) as Hrw.
  assert (editing s = editing s' ++ [cbuf s !!! Z.to_nat ((ce s - 1) mod 128)]) as Ee by (apply rcontents_pop; [lia|lia|done|lia]).
  split; [|done]. split; simpl; try done; [apply wrap_range; lia| | |].
  - rewrite !rcount_pred by lia. lia.
  - rewrite rcount_pred by lia. lia.
  - intros Hin. apply A7. rewrite Ee. set_solver.
Qed.

Lemma set_cons_echo s s' b r w e : echoed s s' -> echoed (set_cons b r w e s) (set_cons b r w e s').
Proof. intros (d & o & ->). by exists d, o. Qed.

Lemma kill_line_spec fuel s : cons_inv s -> panicked s = false -> (length (editing s) < fuel)%nat ->
  wp (kill_line fuel spin s) (fun _ s' => cons_inv s' /\ committed s' = committed s /\ editing s' = [] /\ ck s' = ck s /\ panicked s' = false /\
    uart_kept s s').
Proof.
  revert s. induction fuel as [|fuel IH]; intros s Hi Hp Hf; [lia|]. cbn [kill_line]. apply wp_gets.
  destruct (Z.eqb_spec (ce s) (cw s)) as [E|N]; cbn [negb andb]; [apply wp_ret; split_and!; try done; by apply edit_empty|].
  destruct (erase_spec s Hi N) as (Hi1 & Ec & Ee). rewrite wrap_mod by (done || lia). set (c := cbuf s !!! _) in *. set (s1 := set_cons _ _ _ _ s) in *.
  assert (c <> NEWLINE) as Hc by (intros E; apply (co_edit _ Hi); rewrite Ee, E; set_solver). rewrite (proj2 (Z.eqb_neq _ _) Hc). cbn [negb andb].
  apply wp_modify. fold s1. wp_step (consputc_spec BACKSPACE s1 Hp). intros [] s2 E2. destruct (echoed_cons _ _ E2 Hi1) as (Hi2 & Ec2 & Ee2).
  eapply wp_mono; [apply (IH s2 Hi2)|].
  - by rewrite (echoed_panicked _ _ E2).
  - rewrite Ee2. rewrite Ee, length_app in Hf. simpl in Hf. lia.
  - intros [] s3 (K1 & K2 & K3 & K4 & K5 & K6). split_and!; [done|congruence|done| |done|].
    + rewrite K4. by destruct E2 as (d & o & ->).
    + eapply uart_kept_trans; [apply uart_kept_cons|]. eapply uart_kept_trans; [exact (echoed_uart s1 s2 E2)|exact K6].
Qed.

(** A byte is added to the line. *)
Lemma push_spec s c : cons_inv s -> icount (cr s) (ce s) < 128 ->
  let s' := set_cons (<[Z.to_nat (ce s mod 128) := c]> (cbuf s)) (cr s) (cw s) (u32 (ce s + 1)) s in
  icount (cr s) (cw s) + icount (cw s) (ce s') = icount (cr s) (ce s') /\ icount (cr s) (ce s') = icount (cr s) (ce s) + 1 /\
  committed s' = committed s /\ editing s' = editing s ++ [c].
Proof.
  intros Hi Hlt s'. pose proof Hi as [A1 A2 A3 A4 A5 A6 A7 A8]. pose proof (rcount_range 32 ltac:(lia) (cr s) (cw s)) as Hrw.
  pose proof (rcount_range 32 ltac:(lia) (cw s) (ce s)) as Hwe.
  assert (icount (cr s) (ce s') = icount (cr s) (ce s) + 1) as E1 by (apply rcount_succ; lia).
  assert (icount (cw s) (ce s') = icount (cw s) (ce s) + 1) as E2 by (apply rcount_succ; lia).
  assert (editing s' = editing s ++ [c]) as Ee.
  { change (editing s') with (rcontents 32 128 (cbuf s') (cw s) (ce s')). apply rcontents_push; (done || lia). }
  split; [lia|]. split; [done|]. split; [|done].
  assert (committed s' ++ editing s' = committed s ++ editing s ++ [c]) as Ea.
  { assert (committed s ++ editing s = rcontents 32 128 (cbuf s) (cr s) (ce s)) as E0 by (symmetry; by apply rcontents_split).
    assert (committed s' ++ editing s' = rcontents 32 128 (cbuf s') (cr s) (ce s')) as E3.
    { change (committed s') with (rcontents 32 128 (cbuf s') (cr s) (cw s)). change (editing s') with (rcontents 32 128 (cbuf s') (cw s) (ce s')). symmetry. apply rcontents_split; (done || lia). }
    rewrite E3, app_assoc, E0. by apply rcontents_push. }
  rewrite Ee in Ea. by apply app_inv_tail in Ea.
Qed.

Lemma line_done_spec s me : length (cbuf s) = Z.to_nat 128 -> in_range 32 (cr s) -> in_range 32 (ce s) -> icount (cr s) (cw s) + icount (cw s) (ce s) = icount (cr s) (ce s) ->
  icount (cr s) (ce s) <= 128 -> cur_ok me (ck s) ->
  let s' := set_ck (woken me ChCons (ck s)) (set_cons (cbuf s) (cr s) (ce s) (ce s) s) in
  cons_inv s' /\ committed s' = committed s ++ editing s /\ editing s' = [].
Proof.
  intros A1 A2 A4 A5 A6 Hc s'. assert (editing s' = []) as Ee by apply rcontents_empty.
  assert (committed s' = committed s ++ editing s) as Ec by (apply rcontents_split; try done; lia). split; [|done].
  split; simpl; try done; [rewrite rcount_same; lia|rewrite Ee; set_solver|]. intros t Hs. apply sleeping_cur in Hs as [_ ?]; done.
Qed.

Definition view s : list Z * list Z := (committed s, editing s).

Lemma uart_kept_woken s me : cur_ok me (ck s) -> uart_kept s (set_ck (woken me ChCons (ck s)) s).
Proof. intros Hc [A1 A2 A3 A4 A5]. split; [|done]. split; try done. intros t Hs. apply sleeping_cur in Hs as [Hs _]; [|done]. by eapply A5. Qed.

(** An ordinary byte [c], once echoed. *)
Lemma store_char_spec me c s : in_range 8 c -> cons_inv s -> panicked s = false -> cur_ok me (ck s) -> icount (cr s) (ce s) < 128 ->
  wp ((modify (fun s => set_cons (<[Z.to_nat (ce s mod INPUT_BUF_SIZE) := c mod 256]> (cbuf s)) (cr s) (cw s) (u32 (ce s + 1)) s);;
       s ← gets (fun s => s);
       if (c =? NEWLINE) || (c =? CTRL_D) || (u32 (ce s - cr s) =? INPUT_BUF_SIZE) then
         modify (fun s => set_cons (cbuf s) (cr s) (ce s) (ce s) s);; on_ck (wakeup me ChCons)
       else mret tt) s) (fun _ s' => cons_inv s' /\ panicked s' = false /\ uart_kept s s' /\
    view s' = if (c =? NEWLINE) || (c =? CTRL_D) || (length (committed s ++ editing s ++ [c]) =? 128)%nat then (committed s ++ editing s ++ [c], [])
              else (committed s, editing s ++ [c])).
Proof.
  intros Hb Hi Hp Hc Hlt. apply wp_modify. unfold INPUT_BUF_SIZE. rewrite (Z.mod_small c 256) by exact Hb. destruct (push_spec s c Hi Hlt) as (Hs & Hn & Ec & Ee).
  set (s1 := set_cons _ _ _ _ s) in *. apply wp_gets. fold (icount (cr s1) (ce s1)). change (cr s1) with (cr s).
  pose proof (length_input s Hi) as Hl. replace (length (committed s ++ editing s ++ [c]) =? 128)%nat with (icount (cr s) (ce s1) =? 128).
  2:{ rewrite app_assoc, length_app. change (length [c]) with 1%nat. destruct (Z.eqb_spec (icount (cr s) (ce s1)) 128), (Nat.eqb_spec (length (committed s ++ editing s) + 1) 128); (lia || done). }
  pose proof Hi as [A1 A2 A3 A4 A5 A6 A7 A8]. assert (length (cbuf s1) = Z.to_nat 128) as B1 by (simpl; by rewrite length_insert).
  assert (in_range 32 (ce s1)) as B4 by (apply wrap_range; lia).
  destruct ((c =? NEWLINE) || (c =? CTRL_D) || (icount (cr s) (ce s1) =? 128)) eqn:Eb.
  - apply wp_modify. cbn [wp on_ck zoom wakeup modify]. assert (icount (cr s) (ce s1) <= 128) as B6 by lia. destruct (line_done_spec s1 me B1 A2 B4 Hs B6 Hc) as (Hi2 & Ec2 & Ee2).
    split; [exact Hi2|]. split; [done|]. split.
    + eapply uart_kept_trans; [apply uart_kept_cons|]. eapply uart_kept_trans; [apply uart_kept_cons|]. by apply (uart_kept_woken (set_cons (cbuf s1) (cr s1) (ce s1) (ce s1) s1)).
    + etransitivity; [|by rewrite <- Ec, <- Ee]. by rewrite <- Ec2, <- Ee2.
  - apply wp_ret. split; [|split; [done|split; [apply uart_kept_cons|unfold view; by rewrite Ec, Ee]]].
    split; try done; [change (cr s1) with (cr s); lia|rewrite Ee; intros Hin|intros t Ht; rewrite Ec; by eapply A8]. apply elem_of_app in Hin as [Hin|Hin%list_elem_of_singleton]; [done|]. by rewrite <- Hin, Z.eqb_refl in Eb.
Qed.

Lemma consoleintr_spec me c s : in_range 8 c -> cons_inv s -> panicked s = false -> cur_ok me (ck s) ->
  wp (consoleintr spin me c s) (fun _ s' => cons_inv s' /\ view s' = type_char c (view s) /\ panicked s' = false /\ uart_kept s s').
Proof.
  intros Hb Hi Hp Hc. unfold consoleintr, view, type_char. destruct (c =? CTRL_P).
  { eapply wp_mono; [by apply procdump_spec|]. intros [] s' E. destruct (echoed_cons _ _ E Hi) as (Hi' & E1 & E2). rewrite E1, E2.
    split_and!; [done|done|by rewrite (echoed_panicked _ _ E)|by intros Hu; apply (echoed_uart _ _ E)]. }
  destruct (c =? CTRL_U).
  { eapply wp_mono; [apply kill_line_spec; [done|done|]|].
    - pose proof (length_input s Hi) as Hl. pose proof (co_max _ Hi). rewrite length_app in Hl. change (S (Z.to_nat INPUT_BUF_SIZE)) with 129%nat. lia.
    - intros [] s' (Hi' & E1 & E2 & _ & Hp' & Hu). by rewrite E1, E2. }
  destruct ((c =? CTRL_H) || (c =? DELETE)).
  { apply wp_gets. destruct (Z.eqb_spec (ce s) (cw s)) as [E|N]; cbn [negb].
    { apply wp_ret. rewrite (proj2 (edit_empty s Hi) E). by split_and!. }
    destruct (erase_spec s Hi N) as (Hi1 & Ec & Ee). apply wp_modify. set (s1 := set_cons _ _ _ _ s) in *.
    eapply wp_mono; [by apply (consputc_spec BACKSPACE s1)|]. intros [] s2 E2. destruct (echoed_cons _ _ E2 Hi1) as (Hi2 & Ec2 & Ee2).
    rewrite Ec2, Ee2, Ec, Ee, removelast_last. split_and!; [done|done|by rewrite (echoed_panicked _ _ E2)|].
    eapply uart_kept_trans; [apply uart_kept_cons|exact (echoed_uart s1 s2 E2)]. }
  apply wp_gets. pose proof (length_input s Hi) as Hl. fold (icount (cr s) (ce s)).
  replace (length (committed s ++ editing s) <? 128)%nat with (icount (cr s) (ce s) <? INPUT_BUF_SIZE)
    by (unfold INPUT_BUF_SIZE; destruct (Z.ltb_spec (icount (cr s) (ce s)) 128), (Nat.ltb_spec (length (committed s ++ editing s)) 128); (lia || done)).
  destruct (negb (c =? 0)); cbn [andb]; [|apply wp_ret; by split_and!].
  destruct (Z.ltb_spec (icount (cr s) (ce s)) INPUT_BUF_SIZE) as [Hlt|]; [|apply wp_ret; by split_and!].
  set (c' := if c =? RETURN then NEWLINE else c). wp_step (consputc_spec c' s Hp). intros [] s1 E1. destruct (echoed_cons _ _ E1 Hi) as (Hi1 & Ec1 & Ee1).
  assert (cur_ok me (ck s1) /\ icount (cr s1) (ce s1) < 128) as [Hc1 Hlt1] by (by destruct E1 as (d & o & ->)).
  eapply wp_mono; [apply (store_char_spec me c' s1 ltac:(unfold c'; by destruct (c =? RETURN)) Hi1); [by rewrite (echoed_panicked _ _ E1)|done|done]|].
  intros [] s2 (Hi2 & Hp2 & Hu2 & Ev). split_and!; [done| |done|eapply uart_kept_trans; [exact (echoed_uart s s1 E1)|done]].
  unfold view in Ev. by rewrite Ev, Ec1, Ee1.
Qed.
End ops.

(** ** Reading *)

Section reading.
Context `{Linker} `{Symbols} {St D : Type} {ST : Store St} `{Uart D}.
Abbreviation C := (cst St D).
Implicit Types s : C.

(** The memory a read can write to. *)
Record out_buf (m : memory) (root : Z) (T : tables) (F : list Z) (va : Z) (n : nat) : Prop := {
  ob_as : as_inv m root T F;
  ob_high : high_private m root;
  ob_va : 0 <= va;
  ob_end : va + n < 2 ^ 64;
  ob_w j : 0 <= j < n -> writable m root (va + j) = true;
}.

Lemma out_buf_step m m' root T F va n : out_buf m root T F va (S n) -> same_except (list_to_set F) m m' -> out_buf m' root T F (va + 1) n.
Proof.
  intros [A1 A2 A3 A4 A5] Hs. pose proof (as_disj _ _ _ _ A1) as Hd. pose proof (fun x => readable_frame _ _ _ root T x (as_pt _ _ _ _ A1) Hs Hd) as Hf.
  split; [by eapply as_inv_frame|intros x Hx; rewrite (proj1 (Hf x ltac:(plia))); by apply A2|lia|lia|].
  intros j Hj. replace (va + 1 + j) with (va + (j + 1)) by lia. rewrite (proj2 (Hf (va + (j + 1)) ltac:(lia))). apply A5. lia.
Qed.

(** What a read of [n] bytes gives, what it leaves, and whether it is done;
    [first] says that nothing was delivered yet. *)
Fixpoint read_ref (first : bool) (n : nat) (l : list Z) : list Z * list Z * bool :=
  match n, l with
  | O, _ => ([], l, true)
  | S n, [] => ([], [], false)
  | S n, c :: l' =>
      if c =? CTRL_D then ([], if first then l' else l, true)
      else if c =? NEWLINE then ([c], l', true)
      else let '(d, r, f) := read_ref false n l' in (c :: d, r, f)
  end.

Lemma read_char_spec s : cons_inv s -> cr s <> cw s -> let c := cbuf s !!! Z.to_nat (cr s mod 128) in
  let s' := set_cons (cbuf s) (u32 (cr s + 1)) (cw s) (ce s) s in
  cons_inv s' /\ committed s = c :: committed s' /\ editing s' = editing s.
Proof.
  intros Hi Hne c s'. pose proof Hi as [A1 A2 A3 A4 A5 A6 A7 A8].
  assert (0 < icount (cr s) (cw s)) as Hc.
  { pose proof (rcount_range 32 ltac:(lia) (cr s) (cw s)) as Hr. destruct (decide (icount (cr s) (cw s) = 0)) as [E|]; [|lia].
    destruct Hne. symmetry. exact (proj1 (rcount_zero 32 128 ltac:(lia) ltac:(lia) _ _ A2 A3) E). }
  pose proof (rcount_range 32 ltac:(lia) (cw s) (ce s)) as Hwe.
  assert (committed s = c :: committed s') as Ec by (apply rcontents_cons; (done || lia)). split; [|done].
  split; simpl; try done; [apply wrap_range; lia| | |].
  - rewrite !rcount_take by lia. lia.
  - rewrite rcount_take by lia. lia.
  - intros t Ht. rewrite (A8 t Ht) in Ec. done.
Qed.

Lemma unread_spec s : cons_inv s -> u32 (u32 (cr s + 1) - 1) = cr s.
Proof.
  intros Hi. unfold wrap. rewrite Zminus_mod_idemp_l. replace (cr s + 1 - 1) with (cr s) by lia. apply Z.mod_small. apply (co_r _ Hi).
Qed.

Lemma copyout_one s root T F va n c : out_buf (mem (ph (ck s))) root T F va (S n) ->
  wp (on_ck (on_mem_k (either_copyout (UDst root va) [c])) s) (fun a s' => a.1 = 0 /\ exists x, s' = set_ck (set_ph x (ck s)) s /\
    uwritten F (mem (ph (ck s))) (mem x) va [c] /\ same_except (list_to_set F) (mem (ph (ck s))) (mem x)).
Proof.
  intros [A1 A2 A3 A4 A5]. unfold on_ck, zoom.
  assert (wp (on_mem_k (either_copyout (UDst root va) [c]) (ck s)) (fun a k' => a.1 = 0 /\ exists x, k' = set_ph x (ck s) /\
    uwritten F (mem (ph (ck s))) (mem x) va [c] /\ same_except (list_to_set F) (mem (ph (ck s))) (mem x))) as Hw.
  { apply wp_on_mem. unfold either_copyout. wp_step (copyout_loop_spec 2 (ph (ck s)) root T F va [c] A1 A2); [lia|simpl; lia|].
    intros r x (k & (Hk & Hall & Hend) & -> & Hu & Hs & _). apply wp_ret. assert (k = 1) as ->.
    { simpl in *. destruct (decide (k = 1)); [done|]. assert (k = 0) as -> by lia. specialize (Hend ltac:(lia)). by rewrite A5 in Hend by lia. }
    split; [done|]. exists x. done. }
  apply wp_inv in Hw as (a & k' & -> & Ha & x & -> & Hu & Hs). split; [done|]. by exists x.
Qed.

(** A process that goes to sleep for input, or whose memory changes. *)
Lemma uart_kept_slept me s : (me < length (procs (ck s)))%nat -> uart_kept s (set_ck (slept me ChCons (ck s)) s).
Proof.
  intros Hm [A1 A2 A3 A4 A5]. split; [|done]. split; try done. intros t Ht. apply sleeping_slept in Ht as [[_ ?]|[_ Ht]]; [done|by eapply A5|done].
Qed.

Lemma uart_kept_ph x s : uart_kept s (set_ck (set_ph x (ck s)) s).
Proof. intros [A1 A2 A3 A4 A5]. by split; [split|]. Qed.

Lemma consoleread_spec fuel me root T F va target (n : nat) s :
  cons_inv s -> running (ck s) me -> pkilled (procs (ck s) !!! me) = false -> out_buf (mem (ph (ck s))) root T F va n -> (n < fuel)%nat -> n <= target ->
  wp (consoleread_from fuel me (UDst root va) target n s) (fun r s' => let '(d, rest, fin) := read_ref (negb (n <? target)) n (committed s) in
    cons_inv s' /\ committed s' = rest /\ editing s' = editing s /\ uwritten F (mem (ph (ck s))) (mem (ph (ck s'))) va d /\
    r = (if fin : bool then inr (target - n + length d) else inl (n - length d)) /\ (fin = false -> sleeping (ck s') me ChCons) /\
    panicked s' = panicked s /\ uart_kept s s').
Proof.
  revert va n s. induction fuel as [|fuel IH]; intros va n s Hi Hr Hk Ho Hf Ht; [lia|]. cbn [consoleread_from].
  destruct n as [|n]; [apply wp_ret; cbn [read_ref]; split_and!; try done; [apply uwritten_nil|f_equal; simpl; lia]|].
  rewrite (proj2 (Z.ltb_lt 0 (Z.of_nat (S n)))) by lia. apply wp_bind. unfold consoleread_iter. apply wp_gets. unfold INPUT_BUF_SIZE.
  destruct (Z.eqb_spec (cr s) (cw s)) as [E|N].
  - assert (committed s = []) as Ec by (by apply committed_empty). rewrite Ec. cbn [read_ref].
    unfold on_ck, killed, get_proc, sleep. msimpl. rewrite Hk. cbn [wp]. unfold upd_proc, modify. cbn [wp].
    fold (slept me ChCons (ck s)). destruct Hr as [Hl _]. split_and!; try done; try apply uwritten_nil; try (f_equal; simpl; lia).
    + destruct Hi as [A1 A2 A3 A4 A5 A6 A7 A8]. by split.
    + intros _. apply sleeping_slept; [done|]. by left.
    + exact (uart_kept_slept me s Hl).
  - destruct (read_char_spec s Hi N) as (Hi1 & Ec & Ee). rewrite Ec. set (c := cbuf s !!! _) in *. set (s1 := set_cons _ _ _ _ s) in *. apply wp_modify. fold s1.
    assert (uart_kept s s1) as Hu1 by apply uart_kept_cons.
    cbn [read_ref]. destruct (c =? CTRL_D).
    + destruct (S n <? target) eqn:Elt; cbn [negb].
      * apply wp_modify, wp_ret. cbn [wp]. set (s2 := set_cons _ _ _ _ s1).
        assert (s2 = s) as -> by (unfold s2, s1; simpl; rewrite unread_spec by done; by destruct s).
        split_and!; try done; try apply uwritten_nil; f_equal; simpl; lia.
      * apply wp_bind, wp_ret, wp_ret. split_and!; try done; try apply uwritten_nil; f_equal; simpl; lia.
    + wp_step (copyout_one s1 root T F va n c Ho). intros [a ?] s2 (Ea & x & -> & Hu & Hse). cbn [fst] in Ea. subst a. cbn [Z.eqb].
      set (s2 := set_ck _ s1). assert (cons_inv s2) as Hi2 by (by destruct Hi1 as [A1 A2 A3 A4 A5 A6 A7 A8]; split).
      assert (running (ck s2) me /\ pkilled (procs (ck s2) !!! me) = false) as [Hr2 Hk2] by done.
      assert (uart_kept s s2) as Hu2 by (eapply uart_kept_trans; [exact Hu1|apply uart_kept_ph]). destruct (c =? NEWLINE).
      * apply wp_ret. cbn [wp]. split_and!; try done. f_equal. simpl. lia.
      * apply wp_ret. cbn [wp dest_add]. rewrite wrap_id by (destruct Ho as [_ _ ? ? _]; unfold in_range; lia).
        replace (Z.of_nat (S n) - 1) with (Z.of_nat n) by lia. eapply wp_mono; [apply (IH (va + 1) n s2 Hi2 Hr2 Hk2)|]; [by eapply out_buf_step|lia|lia|].
        rewrite (proj2 (Z.ltb_lt n target)) by lia. cbn [negb]. change (committed s2) with (committed s1). intros r s3.
        destruct (read_ref false n (committed s1)) as [[d rest] fin]. intros (K1 & K2 & K3 & K4 & K5 & K6 & K7 & K8). split_and!; try done.
        -- change (c :: d) with ([c] ++ d). eapply uwritten_app; [exact Hu|exact K4].
        -- rewrite K5. destruct fin; f_equal; simpl; lia.
        -- by eapply uart_kept_trans.
Qed.
End reading.

(** ** Sending *)

Section sending.
Context {St D : Type} `{Uart D}.
Abbreviation C := (cst St D).
Implicit Types s : C.

(** The input side is as before. *)
Definition cons_kept s s' : Prop := panicked s' = panicked s /\ (cons_inv s -> cons_inv s' /\ view s' = view s).

Lemma cons_kept_trans s1 s2 s3 : cons_kept s1 s2 -> cons_kept s2 s3 -> cons_kept s1 s3.
Proof. intros [E1 H1] [E2 H2]. split; [congruence|]. intros Hi. destruct (H1 Hi) as [Hi2 V1]. destruct (H2 Hi2) as [Hi3 V2]. split; [done|congruence]. Qed.

Lemma cons_kept_dev d o s : cons_kept s (set_dev d o s).
Proof. split; [done|]. intros [B1 B2 B3 B4 B5 B6 B7 B8]. by split; [split|]. Qed.

(** The oldest byte goes to the device, writers are woken. *)
Definition drained me (d : D) s : C :=
  let c := tbuf s !!! Z.to_nat (tr s mod UART_TX_BUF_SIZE) in
  let s1 := set_ck (woken me ChUart (ck s)) (set_tx (tbuf s) (tw s) (u64 (tr s + 1)) s) in
  set_dev (WriteReg THR (c mod 256) d) (cout s ++ [Buffered c]) s1.

Lemma drained_spec me d s : uart_inv s -> tw s <> tr s -> cur_ok me (ck s) ->
  let s' := drained me d s in
  uart_inv s' /\ sent s' ++ pending s' = sent s ++ pending s /\ length (pending s) = S (length (pending s')) /\ cur_ok me (ck s') /\ cons_kept s s'.
Proof.
  intros [A1 A2 A3 A4 A5] Hne Hc s'.
  assert (0 < tcount (tr s) (tw s)) as Hp.
  { pose proof (rcount_range 64 ltac:(lia) (tr s) (tw s)) as Hr. destruct (decide (tcount (tr s) (tw s) = 0)) as [E|]; [|lia].
    destruct Hne. exact (proj1 (rcount_zero 64 32 ltac:(lia) ltac:(lia) _ _ A2 A3) E). }
  assert (pending s = tbuf s !!! Z.to_nat (tr s mod 32) :: pending s') as Ep by (apply rcontents_cons; (done || lia)).
  split_and!.
  - split; simpl; try done; [apply wrap_range; lia|rewrite rcount_take by lia; lia|]. intros t Ht. apply sleeping_cur in Ht as [_ ?]; done.
  - rewrite Ep. unfold sent at 1. simpl. rewrite omap_app. simpl. by rewrite <- app_assoc.
  - by rewrite Ep.
  - intros t ->. simpl. specialize (Hc t eq_refl). destruct Hc as [Hl Hs]. split; [by rewrite length_woken|]. rewrite proc_woken by done. unfold wakes.
    rewrite bool_decide_eq_false_2; [done|]. intros E. by apply E.
  - split; [done|]. intros [B1 B2 B3 B4 B5 B6 B7 B8]. split; [|done]. split; try done. intros t Ht. apply sleeping_cur in Ht as [Ht _]; [|done]. by eapply B8.
Qed.

(** Why [uartstart] stopped. *)
Definition drain_end s : Prop := pending s = [] \/ exists d, Z.land ((ReadReg LSR d).1 mod 256) LSR_TX_IDLE = 0 /\ cdev s = (ReadReg LSR d).2.

Lemma uartstart_spec fuel me s : uart_inv s -> cur_ok me (ck s) -> (length (pending s) < fuel)%nat ->
  wp (uartstart_loop fuel me s) (fun _ s' => uart_inv s' /\ sent s' ++ pending s' = sent s ++ pending s /\ drain_end s' /\ cur_ok me (ck s') /\ cons_kept s s').
Proof.
  revert s. induction fuel as [|fuel IH]; intros s Hi Hc Hf; [lia|]. cbn [uartstart_loop]. apply wp_gets. destruct (Z.eqb_spec (tw s) (tr s)) as [E|N].
  { apply wp_ret. split_and!; try done. left. apply rcontents_nil; [lia|lia|apply (uo_r _ Hi)|apply (uo_w _ Hi)|done]. }
  apply wp_bind. unfold readreg. destruct (ReadReg LSR (cdev s)) as [v d] eqn:E. cbn [wp]. set (s1 := set_dev d (cout s) s).
  assert (uart_inv s1) as Hi1 by (by destruct Hi; split). destruct (Z.eqb_spec (Z.land (v mod 256) LSR_TX_IDLE) 0) as [E0|_].
  { apply wp_ret. split_and!; try done; [right; exists (cdev s); by rewrite E|apply cons_kept_dev]. }
  apply wp_modify, wp_bind. cbn [wp on_ck zoom wakeup modify]. apply wp_modify.
  destruct (drained_spec me d s1 Hi1 N Hc) as (Hi2 & E2 & El & Hc2 & Hk). eapply wp_mono; [apply (IH (drained me d s1) Hi2 Hc2)|].
  - change (pending s) with (pending s1) in Hf. lia.
  - intros [] s3 (K1 & K2 & K3 & K4 & K5). split_and!; try done; [by rewrite K2, E2|]. eapply cons_kept_trans; [|exact K5].
    eapply cons_kept_trans; [apply cons_kept_dev|exact Hk].
Qed.

Lemma accept_spec c s : uart_inv s -> tw s <> u64 (tr s + 32) ->
  let s' := set_tx (<[Z.to_nat (tw s mod 32) := c]> (tbuf s)) (u64 (tw s + 1)) (tr s) s in
  uart_inv s' /\ pending s' = pending s ++ [c] /\ cons_kept s s'.
Proof.
  intros [A1 A2 A3 A4 A5] Hne s'.
  assert (tcount (tr s) (tw s) < 32) as Hlt.
  { destruct (decide (tcount (tr s) (tw s) = 32)) as [E|]; [|lia]. destruct Hne. exact (proj1 (rcount_full 64 32 ltac:(lia) _ _ A3) E). }
  assert (pending s' = pending s ++ [c]) as Ep by (apply rcontents_push; (done || lia)). split_and!; [|done|].
  - split; simpl; try done; [by rewrite length_insert|apply wrap_range; lia|rewrite rcount_succ by lia; lia|]. intros t Ht. exfalso.
    specialize (A5 t Ht). pose proof (length_rcontents 64 32 ltac:(lia) (tbuf s) (tr s) (tw s)) as El. unfold pending in A5. lia.
  - split; [done|]. intros [B1 B2 B3 B4 B5 B6 B7 B8]. by split; [split|].
Qed.

Lemma length_pending s : uart_inv s -> Z.of_nat (length (pending s)) <= 32.
Proof. intros Hi. unfold pending. rewrite length_rcontents by lia. apply (uo_max _ Hi). Qed.

Lemma uartputc_spec me c s : uart_inv s -> running (ck s) me -> panicked s = false ->
  wp (uartputc_pass me c s) (fun took s' => uart_inv s' /\ cons_kept s s' /\
    if took : bool then sent s' ++ pending s' = sent s ++ pending s ++ [c mod 256] /\ drain_end s' /\ running (ck s') me
    else sent s' = sent s /\ pending s' = pending s /\ length (pending s) = 32%nat /\ sleeping (ck s') me ChUart).
Proof.
  intros Hi Hr Hp. unfold uartputc_pass, UART_TX_BUF_SIZE. apply wp_gets. rewrite Hp. destruct (Z.eqb_spec (tw s) (u64 (tr s + 32))) as [E|N].
  - cbn [wp mbind M_bind mret M_ret on_ck zoom]. unfold sleep, upd_proc, modify. cbn [wp]. fold (slept me ChUart (ck s)).
    assert (length (pending s) = 32%nat) as El.
    { pose proof (length_rcontents 64 32 ltac:(lia) (tbuf s) (tr s) (tw s)) as El. destruct Hi as [A1 A2 A3 A4 A5].
      rewrite (proj2 (rcount_full 64 32 ltac:(lia) _ _ A3) E) in El. unfold pending. lia. }
    destruct Hr as [Hl Hs]. split_and!; try done.
    + by destruct Hi; split.
    + split; [done|]. intros [B1 B2 B3 B4 B5 B6 B7 B8]. split; [|done]. split; try done. intros t Ht.
      apply sleeping_slept in Ht as [[_ ?]|[_ Ht]]; [done|by eapply B8|done].
    + apply sleeping_slept; [done|]. by left.
  - apply wp_modify. destruct (accept_spec (c mod 256) s Hi N) as (Hi1 & Ep & Hk). set (s1 := set_tx _ _ _ s) in *. unfold uartstart.
    wp_step (uartstart_spec (S (Z.to_nat UART_TX_BUF_SIZE)) (Some me) s1 Hi1).
    + intros t [= <-]. done.
    + pose proof (length_pending s1 Hi1). unfold UART_TX_BUF_SIZE. lia.
    + intros [] s2 (K1 & K2 & K3 & K4 & K5). apply wp_ret. split_and!; try done; [by eapply cons_kept_trans| |by apply K4].
      rewrite K2, Ep. done.
Qed.
End sending.

(** ** The abstract console *)

(** Complete lines, the line being typed, and all bytes accepted for output. *)
Record acons := mk_acons { alines : list Z; aedit : list Z; aout : list Z }.

Inductive cop :=
| OType (me : option nat) (c : Z)
| ORead (me : nat) (root va : Z) (target : Z) (n : nat)
| OPut (me : nat) (c : Z)
| OStart (me : option nat).

Inductive cres := RDone | RTook (b : bool) | RRead (r : Z + Z).

Definition aspec (o : cop) (a : acons) : cres -> acons -> Prop :=
  fun r a' => match o with
  | OType _ c => r = RDone /\ a' = let '(l, e) := type_char c (alines a, aedit a) in mk_acons l e (aout a)
  | ORead _ _ _ target n =>
      let '(d, rest, fin) := read_ref (negb (n <? target)) n (alines a) in
      r = RRead (if fin then inr (target - n + length d) else inl (n - length d)) /\ a' = mk_acons rest (aedit a) (aout a)
  | OPut _ c => (r = RTook true /\ a' = mk_acons (alines a) (aedit a) (aout a ++ [c mod 256])) \/ (r = RTook false /\ a' = a)
  | OStart _ => r = RDone /\ a' = a
  end.

Section refinement.
Context `{Linker} `{Symbols} {St D : Type} {ST : Store St} `{Uart D}.
Abbreviation C := (cst St D).
Implicit Types s : C.

Definition cexec (spin : nat) (o : cop) : M C cres :=
  match o with
  | OType me c => consoleintr spin me c;; mret RDone
  | ORead me root va target n => r ← consoleread_pass me (UDst root va) target n; mret (RRead r)
  | OPut me c => b ← uartputc_pass me c; mret (RTook b)
  | OStart me => uartstart me;; mret RDone
  end.

(** What an operation needs of the rest of the kernel. *)
Definition cguard (o : cop) s : Prop :=
  match o with
  | OType me c => in_range 8 c /\ cur_ok me (ck s)
  | ORead me root va target n => running (ck s) me /\ pkilled (procs (ck s) !!! me) = false /\ n <= target /\
      exists T F, out_buf (mem (ph (ck s))) root T F va n
  | OPut me _ => running (ck s) me
  | OStart me => cur_ok me (ck s)
  end.

Definition acons_of s : acons := mk_acons (committed s) (editing s) (sent s ++ pending s).

Record console_ok s : Prop := { ck_cons : cons_inv s; ck_uart : uart_inv s; ck_live : panicked s = false }.

(** C26: The console implements its line discipline over an abstract state of
    complete lines, the line being typed and the bytes accepted for output:
    typing, reading, writing a byte and draining the transmit buffer all end
    without a panic, keep the ring buffers' invariants (no index ever passes
    another, a reader sleeps only when no line is complete, a writer only when
    the transmit buffer is full), and act on the abstract state as specified.
    In particular no byte accepted for output is lost, duplicated or reordered. *)
Theorem console_refines spin o s : (forall d, polls spin d = true) -> console_ok s -> cguard o s ->
  wp (cexec spin o s) (fun r s' => console_ok s' /\ aspec o (acons_of s) r (acons_of s')).
Proof.
  intros Hready [Hi Hu Hl] Hg. destruct o as [me c|me root va target n|me c|me]; cbn [cexec cguard aspec] in *.
  - destruct Hg as [Hb Hc]. wp_step (consoleintr_spec spin Hready me c s Hb Hi Hl Hc). intros [] s' (Hi' & Ev & Hl' & Hk). destruct (Hk Hu) as (Hu' & E1 & E2).
    apply wp_ret. split; [by split|]. split; [done|].
    change (alines (acons_of s), aedit (acons_of s)) with (view s). rewrite <- Ev. unfold acons_of. by rewrite E1, E2.
  - destruct Hg as (Hr & Hk & Ht & T & F & Ho). unfold consoleread_pass.
    wp_step (consoleread_spec (S (Z.to_nat n)) me root T F va target n s Hi Hr Hk Ho ltac:(lia) Ht). intros r s'. simpl.
    destruct (read_ref (negb (n <? target)) n (committed s)) as [[d rest] fin]. intros (Hi' & E1 & E2 & _ & -> & _ & Hp & Hk'). destruct (Hk' Hu) as (Hu' & E3 & E4).
    split; [split; [done|done|congruence]|]. split; [done|]. unfold acons_of. by rewrite E1, E2, E3, E4.
  - wp_step (uartputc_spec me c s Hu Hg Hl). intros took s' (Hu' & [Hp Hk] & Ht). destruct (Hk Hi) as [Hi' [= E1 E2]]. apply wp_ret.
    split; [split; [done|done|congruence]|]. unfold acons_of. simpl. rewrite E1, E2. destruct took; [left|right].
    + destruct Ht as (E & _). rewrite E. by rewrite app_assoc.
    + destruct Ht as (E3 & E4 & _). by rewrite E3, E4.
  - unfold uartstart. wp_step (uartstart_spec (S (Z.to_nat UART_TX_BUF_SIZE)) me s Hu Hg).
    { pose proof (length_pending s Hu). unfold UART_TX_BUF_SIZE. lia. }
    intros [] s' (Hu' & E & _ & _ & Hp & Hk). destruct (Hk Hi) as [Hi' [= E1 E2]]. apply wp_ret.
    split; [split; [done|done|congruence]|]. split; [done|]. unfold acons_of. by rewrite E1, E2, E.
Qed.

(** C27: A read from the console returns at most one line: it puts into the
    caller's memory the bytes up to and including the first newline, up to a
    [^D], or as many as asked for, and no other user byte changes; a [^D] ends
    the read, and stays for the next read when bytes were delivered; if the
    lines end first the reader sleeps. *)
Theorem consoleread_correct me root T F va target (n : nat) s :
  cons_inv s -> running (ck s) me -> pkilled (procs (ck s) !!! me) = false -> out_buf (mem (ph (ck s))) root T F va n -> n <= target ->
  wp (consoleread_pass me (UDst root va) target n s) (fun r s' => let '(d, rest, fin) := read_ref (negb (n <? target)) n (committed s) in
    uwritten F (mem (ph (ck s))) (mem (ph (ck s'))) va d /\ committed s' = rest /\ editing s' = editing s /\
    r = (if fin : bool then inr (target - n + length d) else inl (n - length d)) /\ (fin = false -> sleeping (ck s') me ChCons)).
Proof.
  intros Hi Hr Hk Ho Ht. unfold consoleread_pass. eapply wp_mono; [apply (consoleread_spec (S (Z.to_nat n)) me root T F va target n s Hi Hr Hk Ho ltac:(lia) Ht)|].
  intros r s'. simpl. destruct (read_ref _ _ _) as [[d rest] fin]. naive_solver.
Qed.

(** With a device that is ready for another byte whenever it is asked,
    [uartstart] terminates within a turn per buffered byte, having handed all of
    them to the device in order, and leaves no writer asleep. *)
Theorem uartstart_drains me s : (forall d, Z.land ((ReadReg LSR d).1 mod 256) LSR_TX_IDLE <> 0) -> uart_inv s -> cur_ok me (ck s) ->
  wp (uartstart me s) (fun _ s' => sent s' = sent s ++ pending s /\ pending s' = [] /\ forall t, ~ sleeping (ck s') t ChUart).
Proof.
  intros Hidle Hu Hc. eapply wp_mono; [apply (uartstart_spec (S (Z.to_nat UART_TX_BUF_SIZE)) me s Hu Hc)|].
  { pose proof (length_pending s Hu). unfold UART_TX_BUF_SIZE. lia. }
  intros [] s' (Hu' & E & [Ep|(d & Hd & _)] & _); [|by destruct (Hidle d)]. rewrite Ep, app_nil_r in E. split_and!; [done|done|].
  intros t Ht. pose proof (uo_wait _ Hu' t Ht) as Hl. by rewrite Ep in Hl.
Qed.
End refinement.

(** ** The properties at work *)

#[local] Existing Instance demo_linker.
#[local] Existing Instance demo_symbols.

(** A device that is always ready and has no input. *)
Definition demo_uart : Uart unit := {| ReadReg := fun r d => (if r =? LSR then LSR_TX_IDLE else 0, d); WriteReg := fun _ _ d => d |}.
#[local] Existing Instance demo_uart.

(** "ab" and a newline were typed, then "c"; the bytes 104 and 105 wait for the device. *)
Definition demo_console (p : phys) : cst ram unit :=
  mk_cst (set_ph p demo_k) tt [] false ([97; 98; 10; 99] ++ replicate 124 0) 0 3 4 ([104; 105] ++ replicate 30 0) 2 0.

Lemma demo_awake p t ch : ~ sleeping (ck (demo_console p)) t ch.
Proof. intros [Ht Hs]. destruct t as [|[|t]]; [by destruct Hs|by destruct Hs|simpl in Ht; lia]. Qed.

Lemma demo_console_ok p : console_ok (demo_console p).
Proof.
  split; [| |done]; split; try done; try (by intros t Ht; apply demo_awake in Ht).
  intros Hin. apply list_elem_of_In in Hin. vm_compute in Hin. naive_solver.
Qed.

Lemma demo_ready (d : unit) : polls 1 d = true.
Proof. done. Qed.

Lemma demo_idle (d : unit) : Z.land ((ReadReg LSR d).1 mod 256) LSR_TX_IDLE <> 0.
Proof. by vm_compute. Qed.

Lemma demo_running p : running (ck (demo_console p)) 0.
Proof. split; [simpl; lia|done]. Qed.

Lemma demo_out_buf : exists p root T F, out_buf (mem (ph (ck (demo_console p)))) root T F 4090 20.
Proof.
  destruct demo_user as (p & tf & root & T & F & tf2 & root2 & T2 & L & Hd & Hw). exists p, root, T, F.
  split; [apply Hd|by eapply demo_private|lia|lia|exact Hw].
Qed.

Lemma console_refines_witness : exists p root, exists s' : cst ram unit, aspec (ORead 0 root 4090 20 20) (acons_of (demo_console p)) (RRead (inr 3)) (acons_of s').
Proof.
  destruct demo_out_buf as (p & root & T & F & Ho). exists p, root.
  destruct (wp_inv _ _ (console_refines 1 (ORead 0 root 4090 20 20) (demo_console p) demo_ready (demo_console_ok p)
    (conj (demo_running p) (conj eq_refl (conj (Z.le_refl 20) (ex_intro _ T (ex_intro _ F Ho))))))) as (r & s' & _ & _ & Hs).
  exists s'. cbn in Hs |- *. destruct Hs as [-> Hs]. split; [done|]. exact Hs.
Defined.

Lemma consoleread_correct_witness : exists p root F s', uwritten F (mem p) (mem (ph (ck s'))) 4090 [97; 98; 10] /\
  consoleread_pass 0 (UDst root 4090) 20 20 (demo_console p) = Ret (inr 3) s'.
Proof.
  destruct demo_out_buf as (p & root & T & F & Ho). exists p, root, F.
  destruct (wp_inv _ _ (consoleread_correct 0 root T F 4090 20 20 (demo_console p) (ck_cons _ (demo_console_ok p)) (demo_running p) eq_refl Ho
    (Z.le_refl 20))) as (r & s' & E & Hs).
  exists s'. cbn in Hs. destruct Hs as (Hu & _ & _ & -> & _). split; [exact Hu|exact E].
Defined.

Lemma uartstart_drains_witness : exists s', uartstart None (demo_console (mk_phys ∅ 0)) = Ret tt s' /\ sent s' = [104; 105] /\ pending s' = [].
Proof.
  destruct (wp_inv _ _ (uartstart_drains None (demo_console (mk_phys ∅ 0)) demo_idle (ck_uart _ (demo_console_ok _)) (fun t E => match E with end))) as ([] & s' & E & H1 & H2 & _).
  exists s'. split; [exact E|]. split; [exact H1|exact H2].
Defined.
