(* ===== verification/Virtio.v ===== *)
(** * The disk driver (kernel/virtio_disk.c, kernel/virtio.h)

    The queue shared with the device: descriptors, the available ring and the
    used ring.  A DMA address is what it points to.  The registers are an
    argument, as for the UART.  [virtio_disk_rw] is its two loops: a pass that
    gets descriptors and submits the request or sleeps, and a pass that waits for
    the request to finish. *)

From S2P Require Import Prelude Riscv Mem Kstring Kalloc Vm Block Bio Store Fs Kernel Proc.

Class Mmio (D : Type) := { mread : Z -> D -> Z * D; mwrite : Z -> Z -> D -> D }.

Definition VIRTIO_MMIO_MAGIC_VALUE : Z := 0x000.
Definition VIRTIO_MMIO_VERSION : Z := 0x004.
Definition VIRTIO_MMIO_DEVICE_ID : Z := 0x008.
Definition VIRTIO_MMIO_VENDOR_ID : Z := 0x00c.
Definition VIRTIO_MMIO_DEVICE_FEATURES : Z := 0x010.
Definition VIRTIO_MMIO_DRIVER_FEATURES : Z := 0x020.
Definition VIRTIO_MMIO_QUEUE_SEL : Z := 0x030.
Definition VIRTIO_MMIO_QUEUE_NUM_MAX : Z := 0x034.
Definition VIRTIO_MMIO_QUEUE_NUM : Z := 0x038.
Definition VIRTIO_MMIO_QUEUE_READY : Z := 0x044.
Definition VIRTIO_MMIO_QUEUE_NOTIFY : Z := 0x050.
Definition VIRTIO_MMIO_INTERRUPT_STATUS : Z := 0x060.
Definition VIRTIO_MMIO_INTERRUPT_ACK : Z := 0x064.
Definition VIRTIO_MMIO_STATUS : Z := 0x070.
Definition VIRTIO_MMIO_QUEUE_DESC_LOW : Z := 0x080.
Definition VIRTIO_MMIO_QUEUE_DESC_HIGH : Z := 0x084.
Definition VIRTIO_MMIO_DRIVER_DESC_LOW : Z := 0x090.
Definition VIRTIO_MMIO_DRIVER_DESC_HIGH : Z := 0x094.
Definition VIRTIO_MMIO_DEVICE_DESC_LOW : Z := 0x0a0.
Definition VIRTIO_MMIO_DEVICE_DESC_HIGH : Z := 0x0a4.
Definition VIRTIO_CONFIG_S_ACKNOWLEDGE : Z := 1.
Definition VIRTIO_CONFIG_S_DRIVER : Z := 2.
Definition VIRTIO_CONFIG_S_DRIVER_OK : Z := 4.
Definition VIRTIO_CONFIG_S_FEATURES_OK : Z := 8.
Definition VIRTIO_BLK_F_RO : Z := 5.
Definition VIRTIO_BLK_F_SCSI : Z := 7.
Definition VIRTIO_BLK_F_CONFIG_WCE : Z := 11.
Definition VIRTIO_BLK_F_MQ : Z := 12.
Definition VIRTIO_F_ANY_LAYOUT : Z := 27.
Definition VIRTIO_RING_F_INDIRECT_DESC : Z := 28.
Definition VIRTIO_RING_F_EVENT_IDX : Z := 29.
Definition NUM : Z := 8.
Definition NUMn : nat := 8.
Definition VRING_DESC_F_NEXT : Z := 1.
Definition VRING_DESC_F_WRITE : Z := 2.
Definition VIRTIO_BLK_T_IN : Z := 0.
Definition VIRTIO_BLK_T_OUT : Z := 1.

(** [&disk.ops[i]], [b->data] and [&disk.info[i].status]. *)
Inductive dma := ANull | AOp (i : nat) | AData (b : nat) | AStatus (i : nat).

Record virtq_desc := mk_desc { addr : dma; len : Z; flags : Z; next : nat }.
Record virtio_blk_req := mk_req { rtype : Z; reserved : Z; sector : Z }.
(** [disk.info[i]] *)
Record vinfo := mk_vinfo { ib : option nat; status : Z }.
(** The fields of [struct buf] that the driver and the device use. *)
Record dbuf := mk_dbuf { dblockno : Z; ddisk : bool; ddata : list Z }.

Record vst (St D : Type) := mk_vst {
  vk : kst St; vdev : D; qpages : Z * Z * Z;
  desc : nat -> virtq_desc; avail : list Z; avail_idx : Z; used : list Z; used_dev_idx : Z;
  vfree : nat -> bool; used_idx : Z; info : nat -> vinfo; ops : nat -> virtio_blk_req; dbufs : nat -> dbuf }.
Arguments mk_vst {_ _}.
Arguments vk {_ _}.
Arguments vdev {_ _}.
Arguments qpages {_ _}.
Arguments desc {_ _}.
Arguments avail {_ _}.
Arguments avail_idx {_ _}.
Arguments used {_ _}.
Arguments used_dev_idx {_ _}.
Arguments vfree {_ _}.
Arguments used_idx {_ _}.
Arguments info {_ _}.
Arguments ops {_ _}.
Arguments dbufs {_ _}.

Section virtio.
Context `{Linker} {St D : Type} `{Mmio D}.
Abbreviation V := (vst St D).
Implicit Types (s : V) (i b me : nat).

Definition set_vk k s : V := mk_vst k (vdev s) (qpages s) (desc s) (avail s) (avail_idx s) (used s) (used_dev_idx s) (vfree s) (used_idx s) (info s) (ops s) (dbufs s).
Definition set_vdev d s : V := mk_vst (vk s) d (qpages s) (desc s) (avail s) (avail_idx s) (used s) (used_dev_idx s) (vfree s) (used_idx s) (info s) (ops s) (dbufs s).
Definition set_queue p d a ai u ui s : V := mk_vst (vk s) (vdev s) p d a ai u ui (vfree s) (used_idx s) (info s) (ops s) (dbufs s).
Definition set_desc d s : V := set_queue (qpages s) d (avail s) (avail_idx s) (used s) (used_dev_idx s) s.
Definition set_avail a ai s : V := set_queue (qpages s) (desc s) a ai (used s) (used_dev_idx s) s.
Definition set_used u ui s : V := set_queue (qpages s) (desc s) (avail s) (avail_idx s) u ui s.
Definition set_vfree f s : V := mk_vst (vk s) (vdev s) (qpages s) (desc s) (avail s) (avail_idx s) (used s) (used_dev_idx s) f (used_idx s) (info s) (ops s) (dbufs s).
Definition set_used_idx n s : V := mk_vst (vk s) (vdev s) (qpages s) (desc s) (avail s) (avail_idx s) (used s) (used_dev_idx s) (vfree s) n (info s) (ops s) (dbufs s).
Definition set_info x s : V := mk_vst (vk s) (vdev s) (qpages s) (desc s) (avail s) (avail_idx s) (used s) (used_dev_idx s) (vfree s) (used_idx s) x (ops s) (dbufs s).
Definition set_ops x s : V := mk_vst (vk s) (vdev s) (qpages s) (desc s) (avail s) (avail_idx s) (used s) (used_dev_idx s) (vfree s) (used_idx s) (info s) x (dbufs s).
Definition set_dbufs x s : V := mk_vst (vk s) (vdev s) (qpages s) (desc s) (avail s) (avail_idx s) (used s) (used_dev_idx s) (vfree s) (used_idx s) (info s) (ops s) x.

Definition on_vk {A} (c : M (kst St) A) : M V A := zoom vk set_vk c.
Definition rreg (r : Z) : M V Z := fun s => let '(v, d) := mread r (vdev s) in Ret (u32 v) (set_vdev d s).
Definition wreg (r v : Z) : M V unit := modify (fun s => set_vdev (mwrite r (u32 v) (vdev s)) s).
Definition put_desc i (d : virtq_desc) : M V unit := modify (fun s => set_desc (<[i := d]> (desc s)) s).
Definition put_dbuf b (x : dbuf) : M V unit := modify (fun s => set_dbufs (<[b := x]> (dbufs s)) s).
Definition zero_desc : virtq_desc := mk_desc ANull 0 0 0.

(** [features &= ~(1 << bit)] *)
Definition clear_feature (bit f : Z) : Z := Z.land f (Z.lnot (Z.shiftl 1 bit)).

Definition virtio_disk_init : M V unit :=
  magic ← rreg VIRTIO_MMIO_MAGIC_VALUE;
  version ← rreg VIRTIO_MMIO_VERSION;
  device ← rreg VIRTIO_MMIO_DEVICE_ID;
  vendor ← rreg VIRTIO_MMIO_VENDOR_ID;
  if negb (magic =? 0x74726976) || negb (version =? 2) || negb (device =? 2) || negb (vendor =? 0x554d4551) then panic "could not find virtio disk"
  else
    wreg VIRTIO_MMIO_STATUS 0;;
    let status := VIRTIO_CONFIG_S_ACKNOWLEDGE in
    wreg VIRTIO_MMIO_STATUS status;;
    let status := Z.lor status VIRTIO_CONFIG_S_DRIVER in
    wreg VIRTIO_MMIO_STATUS status;;
    features ← rreg VIRTIO_MMIO_DEVICE_FEATURES;
    wreg VIRTIO_MMIO_DRIVER_FEATURES
      (clear_feature VIRTIO_RING_F_INDIRECT_DESC (clear_feature VIRTIO_RING_F_EVENT_IDX (clear_feature VIRTIO_F_ANY_LAYOUT
        (clear_feature VIRTIO_BLK_F_MQ (clear_feature VIRTIO_BLK_F_CONFIG_WCE (clear_feature VIRTIO_BLK_F_SCSI (clear_feature VIRTIO_BLK_F_RO features)))))));;
    wreg VIRTIO_MMIO_STATUS (Z.lor status VIRTIO_CONFIG_S_FEATURES_OK);;
    status ← rreg VIRTIO_MMIO_STATUS;
    if Z.land status VIRTIO_CONFIG_S_FEATURES_OK =? 0 then panic "virtio disk FEATURES_OK unset"
    else
      wreg VIRTIO_MMIO_QUEUE_SEL 0;;
      ready ← rreg VIRTIO_MMIO_QUEUE_READY;
      if negb (ready =? 0) then panic "virtio disk should not be ready"
      else
        max ← rreg VIRTIO_MMIO_QUEUE_NUM_MAX;
        if max =? 0 then panic "virtio disk has no queue 0"
        else if max <? NUM then panic "virtio disk max queue too short"
        else
          d ← on_vk (on_mem_k kalloc);
          a ← on_vk (on_mem_k kalloc);
          u ← on_vk (on_mem_k kalloc);
          if (d =? 0) || (a =? 0) || (u =? 0) then panic "virtio disk kalloc"
          else
            on_vk (on_mem_k (do_memset d 0 PGSIZE));;
            on_vk (on_mem_k (do_memset a 0 PGSIZE));;
            on_vk (on_mem_k (do_memset u 0 PGSIZE));;
            modify (set_queue (d, a, u) (fun _ => zero_desc) (replicate NUMn 0) 0 (replicate NUMn 0) 0);;
            wreg VIRTIO_MMIO_QUEUE_NUM NUM;;
            wreg VIRTIO_MMIO_QUEUE_DESC_LOW d;;
            wreg VIRTIO_MMIO_QUEUE_DESC_HIGH (Z.shiftr d 32);;
            wreg VIRTIO_MMIO_DRIVER_DESC_LOW a;;
            wreg VIRTIO_MMIO_DRIVER_DESC_HIGH (Z.shiftr a 32);;
            wreg VIRTIO_MMIO_DEVICE_DESC_LOW u;;
            wreg VIRTIO_MMIO_DEVICE_DESC_HIGH (Z.shiftr u 32);;
            wreg VIRTIO_MMIO_QUEUE_READY 1;;
            modify (fun s => set_vfree (fun i => if (i <? NUMn)%nat then true else vfree s i) s);;
            wreg VIRTIO_MMIO_STATUS (Z.lor status VIRTIO_CONFIG_S_DRIVER_OK).

Fixpoint find_desc (k i : nat) (f : nat -> bool) : option nat :=
  match k with O => None | S k => if f i then Some i else find_desc k (S i) f end.

Definition alloc_desc : M V (option nat) :=
  f ← gets vfree;
  match find_desc NUMn 0 f with
  | Some i => modify (set_vfree (<[i := false]> f));; mret (Some i)
  | None => mret None
  end.

Definition free_desc me i : M V unit :=
  if (NUMn <=? i)%nat then panic "free_desc 1"
  else
    f ← gets (fun s => vfree s i);
    if (f : bool) then panic "free_desc 2"
    else
      put_desc i zero_desc;;
      modify (fun s => set_vfree (<[i := true]> (vfree s)) s);;
      on_vk (wakeup (Some me) ChDisk).

(** A chain has no more descriptors than there are. *)
Fixpoint free_chain (fuel : nat) me i : M V unit :=
  match fuel with
  | O => diverge
  | S fuel =>
      d ← gets (fun s => desc s i);
      free_desc me i;;
      if negb (Z.land (flags d) VRING_DESC_F_NEXT =? 0) then free_chain fuel me (next d) else mret tt
  end.

Definition alloc3_desc me : M V (option (nat * nat * nat)) :=
  a ← alloc_desc;
  match a with
  | None => mret None
  | Some i0 =>
      a ← alloc_desc;
      match a with
      | None => free_desc me i0;; mret None
      | Some i1 =>
          a ← alloc_desc;
          match a with
          | None => free_desc me i0;; free_desc me i1;; mret None
          | Some i2 => mret (Some (i0, i1, i2))
          end
      end
  end.

(** [BSIZE / 512] *)
Definition SECTORS : Z := BSIZE / 512.

(** Format the descriptors and tell the device. *)
Definition rw_submit b (write : bool) (i0 i1 i2 : nat) : M V unit :=
  x ← gets (fun s => dbufs s b);
  modify (fun s => set_ops (<[i0 := mk_req (if write then VIRTIO_BLK_T_OUT else VIRTIO_BLK_T_IN) 0 (u32 (dblockno x * SECTORS))]> (ops s)) s);;
  put_desc i0 (mk_desc (AOp i0) 16 VRING_DESC_F_NEXT i1);;
  put_desc i1 (mk_desc (AData b) BSIZE (Z.lor (if write then 0 else VRING_DESC_F_WRITE) VRING_DESC_F_NEXT) i2);;
  modify (fun s => set_info (<[i0 := mk_vinfo (ib (info s i0)) 0xff]> (info s)) s);;
  put_desc i2 (mk_desc (AStatus i0) 1 VRING_DESC_F_WRITE 0);;
  put_dbuf b (mk_dbuf (dblockno x) true (ddata x));;
  modify (fun s => set_info (<[i0 := mk_vinfo (Some b) (status (info s i0))]> (info s)) s);;
  modify (fun s => set_avail (<[Z.to_nat (avail_idx s mod NUM) := Z.of_nat i0]> (avail s)) (u16 (avail_idx s + 1)) s);;
  wreg VIRTIO_MMIO_QUEUE_NOTIFY 0.

(** A pass of the first loop of [virtio_disk_rw]. *)
Definition rw_start me b (write : bool) : M V (option (nat * nat * nat)) :=
  a ← alloc3_desc me;
  match a with
  | None => on_vk (sleep me ChDisk);; mret None
  | Some (i0, i1, i2) => rw_submit b write i0 i1 i2;; mret (Some (i0, i1, i2))
  end.

(** A pass of the second loop, and what follows it. *)
Definition rw_wait me b (i0 : nat) : M V bool :=
  x ← gets (fun s => dbufs s b);
  if ddisk x then on_vk (sleep me (ChBuf b));; mret false
  else
    modify (fun s => set_info (<[i0 := mk_vinfo None (status (info s i0))]> (info s)) s);;
    free_chain NUMn me i0;;
    mret true.

(** [me] is the process that the interrupt found running, if any. *)
Fixpoint intr_loop (fuel : nat) (me : option nat) : M V unit :=
  match fuel with
  | O => diverge
  | S fuel =>
      s ← gets (fun s => s);
      if used_idx s =? used_dev_idx s then mret tt
      else
        let id := Z.to_nat (used s !!! Z.to_nat (used_idx s mod NUM)) in
        if negb (status (info s id) =? 0) then panic "virtio_disk_intr status"
        else
          match ib (info s id) with
          | None => panic "kerneltrap"
          | Some b =>
              x ← gets (fun s => dbufs s b);
              put_dbuf b (mk_dbuf (dblockno x) false (ddata x));;
              on_vk (wakeup me (ChBuf b));;
              modify (fun s => set_used_idx (u16 (used_idx s + 1)) s);;
              intr_loop fuel me
          end
  end.

Definition virtio_disk_intr (me : option nat) : M V unit :=
  v ← rreg VIRTIO_MMIO_INTERRUPT_STATUS;
  wreg VIRTIO_MMIO_INTERRUPT_ACK (Z.land v 3);;
  intr_loop (S NUMn) me.
End virtio.
