(* ===== verification/VirtioThms.v ===== *)
(** * The disk driver and the device together

    Processes that read and write blocks, interrupts, and a device that takes
    requests from the available ring and completes them in any order.  A request
    that has finished has moved its block; the driver never panics, loses no
    descriptor and no wakeup. *)

From S2P Require Import Prelude Riscv Mem Kstring Kalloc Vm Block Bio Store Fs Kernel Proc Pipe Ring VmThms PipeThms Isolation Virtio.

(** Where a process is in [virtio_disk_rw]: getting descriptors, or waiting for
    the request that starts at the first one.  [d] is the block's new content. *)
Inductive vphase :=
| PAlloc (b : nat) (w : bool) (d : list Z)
| PWait (b : nat) (w : bool) (d : list Z) (i0 i1 i2 : nat).

Definition phase_buf (p : vphase) : nat := match p with PAlloc b _ _ | PWait b _ _ _ _ _ => b end.

Section system.
Context `{Linker} {St D : Type} `{Mmio D}.
Abbreviation V := (vst St D).

(** The driver; the disk's blocks; the device: how far it has looked at the
    available ring, and the requests it has taken. *)
Record vsys := mk_vsys { vs : V; vdisk : Z -> list Z; dav : Z; dtaken : list Z; phases : gmap nat vphase }.

(** The three descriptors of a request, as the device expects them: it reads
    the header and the data to write, and writes the data read and the status. *)
Definition chain_ok (r : virtio_blk_req) (d0 d1 d2 : virtq_desc) : bool :=
  (flags d0 =? VRING_DESC_F_NEXT) && (len d0 =? 16) &&
  (flags d1 =? Z.lor (if rtype r =? VIRTIO_BLK_T_OUT then 0 else VRING_DESC_F_WRITE) VRING_DESC_F_NEXT) && (len d1 =? BSIZE) &&
  (flags d2 =? VRING_DESC_F_WRITE) && (len d2 =? 1).

(** The device completes the request that starts at descriptor [h], if it
    is well formed. *)
Definition device_io (h : Z) (s : V) (dk : Z -> list Z) : option (V * (Z -> list Z)) :=
  let d0 := desc s (Z.to_nat h) in
  let d1 := desc s (next d0) in
  let d2 := desc s (next d1) in
  match addr d0, addr d1, addr d2 with
  | AOp i, AData b, AStatus j =>
      let r := ops s i in
      let blk := sector r / SECTORS in
      let x := dbufs s b in
      let '(s1, dk1) :=
        if rtype r =? VIRTIO_BLK_T_OUT then (s, <[blk := ddata x]> dk)
        else (set_dbufs (<[b := mk_dbuf (dblockno x) (ddisk x) (dk blk)]> (dbufs s)) s, dk) in
      let s2 := set_info (<[j := mk_vinfo (ib (info s1 j)) 0]> (info s1)) s1 in
      if chain_ok r d0 d1 d2 then
        Some (set_used (<[Z.to_nat (used_dev_idx s2 mod NUM) := h]> (used s2)) (u16 (used_dev_idx s2 + 1)) s2, dk1)
      else None
  | _, _, _ => None
  end.

(** Other code may reschedule and kill processes, but puts none to sleep on the driver's channels. *)
Definition driver_chan (c : channel) : bool := match c with ChDisk | ChBuf _ => true | _ => false end.
Definition others_only (k k' : kst St) : Prop :=
  length (procs k') = length (procs k) /\ forall t c, driver_chan c = true -> sleeping k' t c -> sleeping k t c.

(** The device looks at the next available request, or completes one of
    those it has taken, in any order. *)
Inductive dstep : vsys -> vsys -> Prop :=
| d_take s dk da tk m : da <> avail_idx s ->
    dstep (mk_vsys s dk da tk m) (mk_vsys s dk (u16 (da + 1)) (tk ++ [avail s !!! Z.to_nat (da mod NUM)]) m)
| d_io s dk da tk1 h tk2 m s' dk' : device_io h s dk = Some (s', dk') -> dstep (mk_vsys s dk da (tk1 ++ h :: tk2) m) (mk_vsys s' dk' da (tk1 ++ tk2) m).

(** It has nothing left to do. *)
Definition device_idle (x : vsys) : Prop := dav x = avail_idx (vs x) /\ dtaken x = [].

(** A call of [virtio_disk_rw] finds its buffer, which its caller has locked,
    and its block in no other call. *)
Inductive vstep : vsys -> vsys -> Prop :=
| v_call s dk da tk m t b w : running (vk s) t -> m !! t = None -> 0 <= dblockno (dbufs s b) < 2 ^ 31 ->
    (forall t' p, m !! t' = Some p -> phase_buf p <> b /\ dblockno (dbufs s (phase_buf p)) <> dblockno (dbufs s b)) ->
    vstep (mk_vsys s dk da tk m) (mk_vsys s dk da tk (<[t := PAlloc b w (if w : bool then ddata (dbufs s b) else dk (dblockno (dbufs s b)))]> m))
| v_start s dk da tk m t b w d r s' : running (vk s) t -> m !! t = Some (PAlloc b w d) -> rw_start t b w s = Ret r s' ->
    vstep (mk_vsys s dk da tk m) (mk_vsys s' dk da tk (match r with Some (i0, i1, i2) => <[t := PWait b w d i0 i1 i2]> m | None => m end))
| v_wait s dk da tk m t b w d i0 i1 i2 r s' : running (vk s) t -> m !! t = Some (PWait b w d i0 i1 i2) -> rw_wait t b i0 s = Ret r s' ->
    vstep (mk_vsys s dk da tk m) (mk_vsys s' dk da tk (if r : bool then delete t m else m))
| v_edit s dk da tk m b d : (forall t p, m !! t = Some p -> phase_buf p <> b) ->
    vstep (mk_vsys s dk da tk m) (mk_vsys (set_dbufs (<[b := mk_dbuf (dblockno (dbufs s b)) (ddisk (dbufs s b)) d]> (dbufs s)) s) dk da tk m)
| v_device x x' : dstep x x' -> vstep x x'
| v_intr s dk da tk m me s' : cur_ok me (vk s) -> virtio_disk_intr me s = Ret tt s' ->
    vstep (mk_vsys s dk da tk m) (mk_vsys s' dk da tk m)
| v_other s dk da tk m k' : others_only (vk s) k' -> vstep (mk_vsys s dk da tk m) (mk_vsys (set_vk k' s) dk da tk m).

(** ** The invariant *)

Definition qavail (x : vsys) : list Z := rcontents 16 8 (avail (vs x)) (dav x) (avail_idx (vs x)).
Definition qused (x : vsys) : list Z := rcontents 16 8 (used (vs x)) (used_idx (vs x)) (used_dev_idx (vs x)).
Definition queue (x : vsys) : list Z := qavail x ++ dtaken x ++ qused x.

(** Fewer than three descriptors are free. *)
Definition few (f : nat -> bool) : Prop := forall i j k, (i < NUMn)%nat -> (j < NUMn)%nat -> (k < NUMn)%nat -> i <> j -> i <> k -> j <> k ->
  f i = true -> f j = true -> f k = true -> False.

(** What a request needs to be right when it is done, and what is so then. *)
Definition to_do (s : V) (dk : Z -> list Z) (b : nat) (w : bool) (d : list Z) : Prop :=
  if w then ddata (dbufs s b) = d else dk (dblockno (dbufs s b)) = d.
Definition is_done (s : V) (dk : Z -> list Z) (b : nat) (d : list Z) : Prop := ddata (dbufs s b) = d /\ dk (dblockno (dbufs s b)) = d.

Record formatted (s : V) (b : nat) (w : bool) (i0 i1 i2 : nat) : Prop := {
  fm_range : (i0 < NUMn /\ i1 < NUMn /\ i2 < NUMn)%nat /\ i0 <> i1 /\ i0 <> i2 /\ i1 <> i2;
  fm_d0 : desc s i0 = mk_desc (AOp i0) 16 VRING_DESC_F_NEXT i1;
  fm_d1 : desc s i1 = mk_desc (AData b) BSIZE (Z.lor (if w then 0 else VRING_DESC_F_WRITE) VRING_DESC_F_NEXT) i2;
  fm_d2 : desc s i2 = mk_desc (AStatus i0) 1 VRING_DESC_F_WRITE 0;
  fm_op : ops s i0 = mk_req (if w then VIRTIO_BLK_T_OUT else VIRTIO_BLK_T_IN) 0 (u32 (dblockno (dbufs s b) * SECTORS));
  fm_b : ib (info s i0) = Some b;
  fm_free : vfree s i0 = false /\ vfree s i1 = false /\ vfree s i2 = false;
}.

Definition owns (p : vphase) (i : nat) : Prop := match p with PWait _ _ _ i0 i1 i2 => i = i0 \/ i = i1 \/ i = i2 | PAlloc _ _ _ => False end.

Record vinv (x : vsys) : Prop := {
  iv_rings : length (avail (vs x)) = Z.to_nat 8 /\ length (used (vs x)) = Z.to_nat 8;
  iv_idx : in_range 16 (dav x) /\ in_range 16 (avail_idx (vs x)) /\ in_range 16 (used_idx (vs x)) /\ in_range 16 (used_dev_idx (vs x));
  (* each call has a buffer and a block of its own *)
  iv_bufs t t' p p' : phases x !! t = Some p -> phases x !! t' = Some p' -> t <> t' ->
    phase_buf p <> phase_buf p' /\ dblockno (dbufs (vs x) (phase_buf p)) <> dblockno (dbufs (vs x) (phase_buf p'));
  iv_block t p : phases x !! t = Some p -> 0 <= dblockno (dbufs (vs x) (phase_buf p)) < 2 ^ 31;
  (* descriptors are free or belong to one request *)
  iv_owner i : (i < NUMn)%nat -> vfree (vs x) i = false -> exists t p, phases x !! t = Some p /\ owns p i;
  iv_excl t t' p p' i : phases x !! t = Some p -> phases x !! t' = Some p' -> owns p i -> owns p' i -> t = t';
  iv_form t b w d i0 i1 i2 : phases x !! t = Some (PWait b w d i0 i1 i2) -> formatted (vs x) b w i0 i1 i2;
  (* requests in the queue, each once *)
  iv_nodup : NoDup (queue x);
  iv_queue h : h ∈ queue x -> exists t b w d i0 i1 i2, h = Z.of_nat i0 /\ phases x !! t = Some (PWait b w d i0 i1 i2) /\ ddisk (dbufs (vs x) b) = true;
  iv_busy t b w d i0 i1 i2 : phases x !! t = Some (PWait b w d i0 i1 i2) -> ddisk (dbufs (vs x) b) = true -> Z.of_nat i0 ∈ queue x;
  iv_idle b : ddisk (dbufs (vs x) b) = true -> exists t w d i0 i1 i2, phases x !! t = Some (PWait b w d i0 i1 i2);
  (* their data *)
  iv_alloc t b w d : phases x !! t = Some (PAlloc b w d) -> to_do (vs x) (vdisk x) b w d;
  iv_todo t b w d i0 i1 i2 : phases x !! t = Some (PWait b w d i0 i1 i2) -> to_do (vs x) (vdisk x) b w d;
  iv_done t b w d i0 i1 i2 : phases x !! t = Some (PWait b w d i0 i1 i2) -> Z.of_nat i0 ∉ qavail x ++ dtaken x ->
    is_done (vs x) (vdisk x) b d /\ status (info (vs x) i0) = 0;
  (* sleepers *)
  iv_sleep_buf t b : sleeping (vk (vs x)) t (ChBuf b) -> ddisk (dbufs (vs x) b) = true;
  iv_sleep_free t : sleeping (vk (vs x)) t ChDisk -> few (vfree (vs x));
}.

(** ** Descriptors *)

Implicit Types s : V.

Lemma find_desc_spec k i f : match find_desc k i f with
  | Some j => (i <= j < i + k)%nat /\ f j = true
  | None => forall j, (i <= j < i + k)%nat -> f j = false end.
Proof.
  revert i. induction k as [|k IH]; intros i; cbn [find_desc]; [lia|]. destruct (f i) eqn:E; [split; [lia|done]|]. specialize (IH (S i)).
  destruct (find_desc k (S i) f); [split; [lia|apply IH]|]. intros j Hj. destruct (decide (j = i)) as [->|]; [done|]. apply IH. lia.
Qed.

(** [free_desc] of a descriptor in use. *)
Definition freed (me i : nat) (s : V) : V :=
  set_vk (woken (Some me) ChDisk (vk s)) (set_vfree (<[i := true]> (vfree s)) (set_desc (<[i := zero_desc]> (desc s)) s)).

Lemma free_desc_eq me i s : (i < NUMn)%nat -> vfree s i = false -> free_desc me i s = Ret tt (freed me i s).
Proof. intros Hi Hf. unfold free_desc. rewrite (proj2 (Nat.leb_gt NUMn i) Hi). msimpl. by rewrite Hf. Qed.

Lemma alloc_desc_eq s : match find_desc NUMn 0 (vfree s) with
  | Some i => alloc_desc s = Ret (Some i) (set_vfree (<[i := false]> (vfree s)) s)
  | None => alloc_desc s = Ret None s end.
Proof. unfold alloc_desc. msimpl. by destruct (find_desc NUMn 0 (vfree s)). Qed.

(** A process table in which fewer processes sleep. *)
Definition fewer_sleep (k k' : kst St) : Prop := length (procs k') = length (procs k) /\ (forall t, running k t -> running k' t) /\ forall t c, sleeping k' t c -> sleeping k t c.

Lemma fewer_sleep_refl k : fewer_sleep k k.
Proof. done. Qed.

Lemma fewer_sleep_trans k1 k2 k3 : fewer_sleep k1 k2 -> fewer_sleep k2 k3 -> fewer_sleep k1 k3.
Proof. intros (A1 & A2 & A3) (B1 & B2 & B3). split_and!; [congruence|auto|auto]. Qed.

Lemma fewer_sleep_woken me ch k : cur_ok me k -> fewer_sleep k (woken me ch k).
Proof. intros Hc. split_and!; [apply length_woken|intros; by apply running_woken|intros t c Hs; by apply sleeping_cur in Hs as [? _]]. Qed.

(** The queue, the requests and the buffers are the same. *)
Definition rest_same s s' : Prop :=
  avail s' = avail s /\ avail_idx s' = avail_idx s /\ used s' = used s /\ used_dev_idx s' = used_dev_idx s /\ used_idx s' = used_idx s /\
  info s' = info s /\ ops s' = ops s /\ dbufs s' = dbufs s.

(** Descriptors that were free may have been cleared, and sleepers woken. *)
Record retried (s s' : V) : Prop := {
  rt_vk : fewer_sleep (vk s) (vk s');
  rt_desc j : vfree s j = false -> desc s' j = desc s j;
  rt_free j : vfree s' j = vfree s j;
  rt_rest : rest_same s s';
}.

(** All of the state but [vfree], which lacks the descriptors [l]. *)
Record lacking (l : list nat) (s s' : V) : Prop := {
  lk_vk : fewer_sleep (vk s) (vk s');
  lk_desc j : vfree s j = false -> desc s' j = desc s j;
  lk_free j : vfree s' j = if decide (j ∈ l) then false else vfree s j;
  lk_all : Forall (fun i => (i < NUMn)%nat /\ vfree s i = true) l /\ NoDup l;
  lk_rest : rest_same s s';
}.

Lemma lacking_nil s s' : lacking [] s s' -> retried s s'.
Proof. intros [A1 A2 A3 A4 A5]. split; try done. Qed.

Lemma alloc_spec l s s' : lacking l s s' -> wp (alloc_desc s') (fun r s2 =>
  match r with
  | Some i => lacking (i :: l) s s2 /\ vk s2 = vk s' /\ desc s2 = desc s'
  | None => s2 = s' /\ forall j, (j < NUMn)%nat -> vfree s j = true -> j ∈ l
  end).
Proof.
  intros [A1 A2 A3 [A4 A4'] A5]. pose proof (alloc_desc_eq s') as E. pose proof (find_desc_spec NUMn 0 (vfree s')) as Hf. destruct (find_desc NUMn 0 (vfree s')) as [i|]; rewrite E; cbn [wp].
  - destruct Hf as [Hi Hv]. rewrite A3 in Hv. destruct (decide (i ∈ l)); [done|]. split; [|done]. split; try done.
    + intros j. simpl. destruct (decide (j = i)) as [->|Hne]; [rewrite fn_lookup_insert, decide_True by set_solver; done|]. rewrite fn_lookup_insert_ne by done. rewrite A3.
      do 2 case_decide; set_solver.
    + split; [constructor; [split; [lia|done]|done]|by constructor].
  - split; [done|]. intros j Hj Hv. specialize (Hf j ltac:(lia)). rewrite A3 in Hf. destruct (decide (j ∈ l)); [done|congruence].
Qed.

Lemma free_lacking me i l s s' : lacking (i :: l) s s' -> running (vk s') me -> wp (free_desc me i s') (fun _ s2 => lacking l s s2 /\ running (vk s2) me).
Proof.
  intros [A1 A2 A3 [A4 A4'] A5] Hr. apply Forall_cons in A4 as [[Hi Hv] A4]. apply NoDup_cons in A4' as [Hn A4']. rewrite free_desc_eq; [|done|by rewrite A3, decide_True by set_solver].
  cbn [wp]. assert (cur_ok (Some me) (vk s')) as Hc by (intros u [= <-]; done). split; [|by apply running_woken]. split; try done.
  - eapply fewer_sleep_trans; [exact A1|by apply fewer_sleep_woken].
  - intros j Hj. simpl. rewrite fn_lookup_insert_ne by congruence. by apply A2.
  - intros j. simpl. destruct (decide (j = i)) as [->|Hne]; [by rewrite fn_lookup_insert, decide_False|]. rewrite fn_lookup_insert_ne by done. rewrite A3. do 2 case_decide; set_solver.
Qed.

Lemma lacking_refl s : lacking [] s s.
Proof. split; try done. split; [done|constructor]. Qed.

(** A third free descriptor was not found. *)
Lemma few_of f l : (length l < 3)%nat -> (forall j, (j < NUMn)%nat -> f j = true -> j ∈ l) -> few f.
Proof.
  intros Hl Hin i j k Hi Hj Hk Hij Hik Hjk Fi Fj Fk. assert (length [i; j; k] <= length l)%nat as Hle; [|simpl in Hle; lia].
  apply submseteq_length, NoDup_submseteq; [repeat constructor; set_solver|]. intros x Hx. apply list_elem_of_In in Hx. simpl in Hx.
  destruct Hx as [<-|[<-|[<-|[]]]]; by apply Hin.
Qed.

Lemma alloc3_spec me s : running (vk s) me -> wp (alloc3_desc me s) (fun r s' => running (vk s') me /\
  match r with
  | Some (i0, i1, i2) => lacking [i2; i1; i0] s s'
  | None => retried s s' /\ few (vfree s)
  end).
Proof.
  intros Hr. unfold alloc3_desc. wp_step (alloc_spec [] s s (lacking_refl s)). intros [i0|] s1.
  2:{ intros [-> Hno]. apply wp_ret. split_and!; [done|apply lacking_nil, lacking_refl|]. by apply (few_of _ []); [simpl; lia|]. }
  intros (L1 & E1 & _). assert (running (vk s1) me) as Hr1 by by rewrite E1. wp_step (alloc_spec [i0] s s1 L1). intros [i1|] s2.
  2:{ intros [-> Hno]. wp_step (free_lacking me i0 [] s s1 L1 Hr1). intros [] s3 [L3 Hr3]. apply wp_ret. split_and!; [done|by apply lacking_nil|]. by apply (few_of _ [i0]); [simpl; lia|]. }
  intros (L2 & E2 & _). assert (running (vk s2) me) as Hr2 by by rewrite E2. wp_step (alloc_spec [i1; i0] s s2 L2). intros [i2|] s3.
  2:{ intros [-> Hno]. assert (lacking [i0; i1] s s2) as L2'.
      { destruct L2 as [A1 A2 A3 [A4 A4'] A5]. split; try done; [intros j; rewrite A3; do 2 case_decide; set_solver|].
        apply Forall_cons in A4 as [H1 A4]. apply Forall_cons in A4 as [H2 _]. split; [by apply Forall_cons; split; [|apply Forall_cons; split; [|constructor]]|].
        apply NoDup_cons in A4' as [Hni _]. apply NoDup_cons. split; [set_solver|apply NoDup_singleton]. }
      wp_step (free_lacking me i0 [i1] s s2 L2' Hr2). intros [] s4 [L4 Hr4]. wp_step (free_lacking me i1 [] s s4 L4 Hr4). intros [] s5 [L5 Hr5].
      apply wp_ret. split_and!; [done|by apply lacking_nil|]. by apply (few_of _ [i1; i0]); [simpl; lia|]. }
  intros (L3 & E3 & _). apply wp_ret. split; [by rewrite E3|done].
Qed.

(** ** Steps that change neither the requests nor their data *)

Implicit Types (dk : Z -> list Z) (da : Z) (tk : list Z) (m : gmap nat vphase).

Lemma formatted_frame s s' b w i0 i1 i2 : rest_same s s' -> (forall j, vfree s' j = vfree s j) -> (forall j, vfree s j = false -> desc s' j = desc s j) ->
  formatted s b w i0 i1 i2 -> formatted s' b w i0 i1 i2.
Proof.
  intros (_ & _ & _ & _ & _ & Ei & Eo & Eb) Hf Hd [F1 F2 F3 F4 F5 F6 (G0 & G1 & G2)]. split; [done|by rewrite Hd|by rewrite Hd|by rewrite Hd|by rewrite Eo, Eb|by rewrite Ei|by rewrite !Hf].
Qed.

Lemma vinv_frame s s' dk da tk m : vinv (mk_vsys s dk da tk m) -> rest_same s s' -> (forall j, vfree s' j = vfree s j) -> (forall j, vfree s j = false -> desc s' j = desc s j) ->
  (forall t b, sleeping (vk s') t (ChBuf b) -> ddisk (dbufs s b) = true) -> (forall t, sleeping (vk s') t ChDisk -> few (vfree s)) -> vinv (mk_vsys s' dk da tk m).
Proof.
  intros Hi Hr Hf Hd Hs1 Hs2. pose proof Hr as (E1 & E2 & E3 & E4 & E5 & E6 & E7 & E8). destruct Hi as [A1 A2 A3 A4 A5 A6 A7 A8 A9 A10 A11 A12 A13 A14 A15 A16].
  split; unfold queue, qavail, qused, to_do, is_done in *; cbn [vs vdisk dav dtaken phases] in *; rewrite ?E1, ?E2, ?E3, ?E4, ?E5, ?E6, ?E7, ?E8; try done.
  - intros i Hi. rewrite Hf. by apply A5.
  - intros t b w d i0 i1 i2 Hm. eapply formatted_frame; [done|done|done|by eapply A7].
  - intros t Ht i j k. rewrite !Hf. by apply (Hs2 t).
Qed.

Lemma vinv_retried s s' dk da tk m : vinv (mk_vsys s dk da tk m) -> retried s s' -> vinv (mk_vsys s' dk da tk m).
Proof.
  intros Hi [(R1 & R2 & R3) R4 R5 R6]. eapply vinv_frame; try done; intros; [by eapply (iv_sleep_buf _ Hi), R3|by eapply (iv_sleep_free _ Hi), R3].
Qed.

(** Going to sleep for a reason the invariant allows. *)
Lemma vinv_slept s dk da tk m me c : vinv (mk_vsys s dk da tk m) -> running (vk s) me ->
  match c with ChDisk => few (vfree s) | ChBuf b => ddisk (dbufs s b) = true | _ => True end ->
  vinv (mk_vsys (set_vk (slept me c (vk s)) s) dk da tk m).
Proof.
  intros Hi [Hl _] Hc. apply (vinv_frame s); try done.
  - intros t b Hs. apply sleeping_slept in Hs as [[_ <-]|[_ Hs]]; [done|by eapply (iv_sleep_buf _ Hi)|done].
  - intros t Hs. apply sleeping_slept in Hs as [[_ <-]|[_ Hs]]; [done|by eapply (iv_sleep_free _ Hi)|done].
Qed.

Lemma vinv_other s dk da tk m k' : vinv (mk_vsys s dk da tk m) -> others_only (vk s) k' -> vinv (mk_vsys (set_vk k' s) dk da tk m).
Proof. intros Hi [_ Ho]. apply (vinv_frame s); try done; intros; [by eapply (iv_sleep_buf _ Hi), Ho|by eapply (iv_sleep_free _ Hi), Ho]. Qed.

(** A new call. *)
Lemma vinv_call s dk da tk m t b (w : bool) d : vinv (mk_vsys s dk da tk m) -> m !! t = None -> 0 <= dblockno (dbufs s b) < 2 ^ 31 ->
  (forall t' p, m !! t' = Some p -> phase_buf p <> b /\ dblockno (dbufs s (phase_buf p)) <> dblockno (dbufs s b)) -> to_do s dk b w d ->
  vinv (mk_vsys s dk da tk (<[t := PAlloc b w d]> m)).
Proof.
  intros Hi Hn Hb Hd Ht. assert (forall t' p, <[t := PAlloc b w d]> m !! t' = Some p -> (t' = t /\ p = PAlloc b w d) \/ m !! t' = Some p) as Hl.
  { intros t' p [[-> <-]|[_ ?]]%lookup_insert_Some; [by left|by right]. }
  destruct Hi as [A1 A2 A3 A4 A5 A6 A7 A8 A9 A10 A11 A12 A13 A14 A15 A16]. split; unfold queue, qavail, qused in *; cbn [vs vdisk dav dtaken phases] in *; try done.
  - intros t1 t2 p1 p2 [[-> ->]|H1]%Hl [[-> ->]|H2]%Hl Hne; [done|destruct (Hd _ _ H2); simpl; auto|by apply (Hd t1)|by eapply A3].
  - intros t1 p1 [[-> ->]|H1]%Hl; [done|by eapply A4].
  - intros i Hi Hf. destruct (A5 i Hi Hf) as (t1 & p1 & H1 & Ho). exists t1, p1. split; [|done]. rewrite lookup_insert_ne; [done|]. congruence.
  - intros t1 t2 p1 p2 i [[-> ->]|H1]%Hl [[-> ->]|H2]%Hl O1 O2; try done. by eapply A6.
  - intros t1 b1 w1 d1 i0 i1 i2 [[_ [=]]|H1]%Hl. by eapply A7.
  - intros h Hh. destruct (A9 h Hh) as (t1 & b1 & w1 & d1 & i0 & i1 & i2 & E1 & E2 & E3). exists t1, b1, w1, d1, i0, i1, i2. split_and!; [done| |done]. rewrite lookup_insert_ne; [done|]. congruence.
  - intros t1 b1 w1 d1 i0 i1 i2 [[_ [=]]|H1]%Hl. by eapply A10.
  - intros b1 Hb1. destruct (A11 b1 Hb1) as (t1 & w1 & d1 & i0 & i1 & i2 & E2). exists t1, w1, d1, i0, i1, i2. rewrite lookup_insert_ne; [done|]. congruence.
  - intros t1 b1 w1 d1 [[_ [= -> -> ->]]|H1]%Hl; [done|by eapply A12].
  - intros t1 b1 w1 d1 i0 i1 i2 [[_ [=]]|H1]%Hl. by eapply A13.
  - intros t1 b1 w1 d1 i0 i1 i2 [[_ [=]]|H1]%Hl. by eapply A14.
Qed.

(** A buffer that no call uses. *)
Lemma vinv_edit s dk da tk m b d : vinv (mk_vsys s dk da tk m) -> (forall t p, m !! t = Some p -> phase_buf p <> b) ->
  vinv (mk_vsys (set_dbufs (<[b := mk_dbuf (dblockno (dbufs s b)) (ddisk (dbufs s b)) d]> (dbufs s)) s) dk da tk m).
Proof.
  intros Hi Hn. set (s' := set_dbufs _ s). assert (forall t p, m !! t = Some p -> dbufs s' (phase_buf p) = dbufs s (phase_buf p)) as He.
  { intros t p Hm. simpl. rewrite fn_lookup_insert_ne; [done|]. apply not_eq_sym. by eapply Hn. }
  assert (forall b', ddisk (dbufs s' b') = ddisk (dbufs s b')) as Hk.
  { intros b'. simpl. destruct (decide (b' = b)) as [->|]; [by rewrite fn_lookup_insert|by rewrite fn_lookup_insert_ne]. }
  destruct Hi as [A1 A2 A3 A4 A5 A6 A7 A8 A9 A10 A11 A12 A13 A14 A15 A16]. split; unfold queue, qavail, qused, to_do, is_done in *; cbn [vs vdisk dav dtaken phases] in *; try done.
  - intros t1 t2 p1 p2 H1 H2. rewrite (He _ _ H1), (He _ _ H2). by eapply A3.
  - intros t1 p1 H1. rewrite (He _ _ H1). by eapply A4.
  - intros t1 b1 w1 d1 i0 i1 i2 H1. destruct (A7 _ _ _ _ _ _ _ H1) as [F1 F2 F3 F4 F5 F6 F7]. split; try done. pose proof (He _ _ H1) as E. cbn [phase_buf] in E. by rewrite E.
  - intros h Hh. destruct (A9 h Hh) as (t1 & b1 & w1 & d1 & i0 & i1 & i2 & E1 & E2 & E3). exists t1, b1, w1, d1, i0, i1, i2. by rewrite Hk.
  - intros t1 b1 w1 d1 i0 i1 i2 H1. rewrite Hk. by eapply A10.
  - intros b1. rewrite Hk. apply A11.
  - intros t1 b1 w1 d1 H1. pose proof (He _ _ H1) as E. cbn [phase_buf] in E. rewrite E. by eapply A12.
  - intros t1 b1 w1 d1 i0 i1 i2 H1. pose proof (He _ _ H1) as E. cbn [phase_buf] in E. rewrite E. by eapply A13.
  - intros t1 b1 w1 d1 i0 i1 i2 H1. pose proof (He _ _ H1) as E. cbn [phase_buf] in E. rewrite E. by eapply A14.
  - intros t1 b1. rewrite Hk. apply A15.
Qed.

(** The device takes the next request. *)
Lemma vinv_take s dk da tk m : vinv (mk_vsys s dk da tk m) -> da <> avail_idx s ->
  vinv (mk_vsys s dk (u16 (da + 1)) (tk ++ [avail s !!! Z.to_nat (da mod NUM)]) m).
Proof.
  intros Hi Hne. set (x := mk_vsys s dk da tk m) in *. set (x' := mk_vsys _ _ _ _ _). pose proof Hi as [A1 A2 A3 A4 A5 A6 A7 A8 A9 A10 A11 A12 A13 A14 A15 A16].
  destruct A2 as (I1 & I2 & I3 & I4). assert (0 < rcount 16 da (avail_idx s)) as Hc.
  { pose proof (rcount_range 16 ltac:(lia) da (avail_idx s)). destruct (decide (rcount 16 da (avail_idx s) = 0)) as [E|]; [|lia].
    destruct Hne. symmetry. exact (proj1 (rcount_zero 16 8 ltac:(lia) ltac:(lia) _ _ I1 I2) E). }
  assert (qavail x ++ dtaken x ≡ₚ qavail x' ++ dtaken x') as HP.
  { assert (qavail x = avail s !!! Z.to_nat (da mod 8) :: qavail x') as -> by (apply rcontents_cons; (done || lia)). cbn [dtaken x x']. simpl. unfold NUM. solve_Permutation. }
  assert (queue x ≡ₚ queue x') as HQ by (unfold queue; rewrite !app_assoc; by rewrite HP).
  split; cbn [vs vdisk dav dtaken phases] in *; try done.
  - split_and!; [|done|done|done]. apply wrap_range. lia.
  - change (NoDup (queue x')). by rewrite <- HQ.
  - intros h. change (h ∈ queue x' -> exists t b w d i0 i1 i2, h = Z.of_nat i0 /\ m !! t = Some (PWait b w d i0 i1 i2) /\ ddisk (dbufs s b) = true). rewrite <- HQ. apply A9.
  - intros t b w d i0 i1 i2 H1 H2. change (Z.of_nat i0 ∈ queue x'). rewrite <- HQ. by eapply A10.
  - intros t b w d i0 i1 i2 H1. change (Z.of_nat i0 ∉ qavail x' ++ dtaken x' -> is_done s dk b d /\ status (info s i0) = 0). rewrite <- HP. by eapply A14.
Qed.

(** ** The device completes a request *)

(** The heads of queued requests are different descriptors. *)
Lemma heads_short (l : list Z) : NoDup l -> (forall h, h ∈ l -> 0 <= h < 8) -> (length l <= 8)%nat.
Proof.
  intros Hn Hh. assert (length l <= length (seqZ 0 8))%nat as Hl; [|by rewrite length_seqZ in Hl]. apply submseteq_length, NoDup_submseteq; [done|].
  intros x Hx. apply elem_of_seqZ. specialize (Hh x Hx). lia.
Qed.

Lemma queue_heads x h : vinv x -> h ∈ queue x -> 0 <= h < 8.
Proof. intros Hi Hh. destruct (iv_queue _ Hi h Hh) as (t & b & w & d & i0 & i1 & i2 & -> & Hm & _). destruct (iv_form _ Hi _ _ _ _ _ _ _ Hm) as [[(? & _) _] _ _ _ _ _ _]. unfold NUMn in *. lia. Qed.

Lemma sector_block n : 0 <= n < 2 ^ 31 -> u32 (n * SECTORS) / SECTORS = n.
Proof. intros Hn. change SECTORS with 2. rewrite wrap_id by (unfold in_range; lia). apply Z.div_mul. lia. Qed.

(** Two calls with the same first descriptor, or the same buffer, are one. *)
Lemma same_head x t b w d i0 i1 i2 t' b' w' d' i1' i2' : vinv x -> phases x !! t = Some (PWait b w d i0 i1 i2) -> phases x !! t' = Some (PWait b' w' d' i0 i1' i2') ->
  t = t' /\ b = b' /\ w = w' /\ d = d' /\ i1 = i1' /\ i2 = i2'.
Proof. intros Hi H1 H2. assert (t = t') as <- by (eapply (iv_excl _ Hi); [exact H1|exact H2|by left|by left]). rewrite H1 in H2. by injection H2. Qed.

Lemma same_buf x t t' p p' : vinv x -> phases x !! t = Some p -> phases x !! t' = Some p' -> phase_buf p = phase_buf p' -> t = t'.
Proof. intros Hi H1 H2 E. destruct (decide (t = t')); [done|]. by destruct (iv_bufs _ Hi _ _ _ _ H1 H2 n). Qed.

(** The state after the device moved the data of a request. *)
Definition moved s dk (b : nat) (w : bool) : V * (Z -> list Z) :=
  let x := dbufs s b in
  if w then (s, <[dblockno x := ddata x]> dk) else (set_dbufs (<[b := mk_dbuf (dblockno x) (ddisk x) (dk (dblockno x))]> (dbufs s)) s, dk).

Lemma device_io_eq s dk b w i0 i1 i2 : formatted s b w i0 i1 i2 -> 0 <= dblockno (dbufs s b) < 2 ^ 31 ->
  device_io (Z.of_nat i0) s dk = let '(s1, dk1) := moved s dk b w in
    let s2 := set_info (<[i0 := mk_vinfo (ib (info s i0)) 0]> (info s)) s1 in
    Some (set_used (<[Z.to_nat (used_dev_idx s mod NUM) := Z.of_nat i0]> (used s)) (u16 (used_dev_idx s + 1)) s2, dk1).
Proof.
  intros [_ F2 F3 F4 F5 _ _] Hb. unfold device_io. rewrite Nat2Z.id, F2. cbn [addr next]. rewrite F3. cbn [addr next]. rewrite F4. cbn [addr]. rewrite F5. cbn [sector rtype].
  rewrite sector_block by done. unfold moved, chain_ok. by destruct w.
Qed.

Lemma vinv_io s dk da tk1 h tk2 m s' dk' : vinv (mk_vsys s dk da (tk1 ++ h :: tk2) m) -> device_io h s dk = Some (s', dk') -> vinv (mk_vsys s' dk' da (tk1 ++ tk2) m).
Proof.
  intros Hi Hio. set (x := mk_vsys s dk da (tk1 ++ h :: tk2) m) in *. pose proof Hi as [A1 A2 A3 A4 A5 A6 A7 A8 A9 A10 A11 A12 A13 A14 A15 A16].
  assert (h ∈ queue x) as Hq by (unfold queue, x; cbn [dtaken]; rewrite !elem_of_app, elem_of_cons; by right; left; right; left). destruct (A9 h Hq) as (t & b & w & d & i0 & i1 & i2 & -> & Hm & Hdisk).
  pose proof (A7 _ _ _ _ _ _ _ Hm) as Hf. pose proof (A4 _ _ Hm) as Hb. pose proof (A13 _ _ _ _ _ _ _ Hm) as Htd. cbn [vs vdisk phases x phase_buf] in *.
  rewrite (device_io_eq s dk b w i0 i1 i2 Hf Hb) in Hio. destruct (moved s dk b w) as [s1 dk1] eqn:Emv. cbv zeta in Hio. injection Hio as <- <-.
  (* what the device changed *)
  assert (forall b', dblockno (dbufs s1 b') = dblockno (dbufs s b') /\ ddisk (dbufs s1 b') = ddisk (dbufs s b') /\ (b' <> b -> dbufs s1 b' = dbufs s b')) as Hbuf.
  { intros b'. destruct w; injection Emv as <- <-; [done|]. simpl. destruct (decide (b' = b)) as [->|]; [by rewrite fn_lookup_insert|by rewrite fn_lookup_insert_ne]. }
  assert (is_done s1 dk1 b d /\ forall n, n <> dblockno (dbufs s b) -> dk1 n = dk n) as [Hdone Hdk].
  { unfold is_done. rewrite (proj1 (Hbuf b)). destruct w; injection Emv as <- <-; unfold to_do in Htd; [rewrite fn_lookup_insert; split; [done|intros; by rewrite fn_lookup_insert_ne]|].
    simpl. rewrite fn_lookup_insert. done. }
  assert (vk s1 = vk s /\ desc s1 = desc s /\ avail s1 = avail s /\ avail_idx s1 = avail_idx s /\ vfree s1 = vfree s /\ used_idx s1 = used_idx s /\ ops s1 = ops s) as (K1 & K2 & K3 & K4 & K5 & K6 & K7)
    by (destruct w; injection Emv as <- <-; done).
  set (s' := set_used _ _ _). set (x' := mk_vsys s' dk1 da (tk1 ++ tk2) m).
  assert (qused x' = qused x ++ [Z.of_nat i0]) as Equ.
  { unfold qused. cbn [vs x x' used used_idx used_dev_idx s' set_used set_queue set_info]. rewrite K6. destruct A1 as [_ A1]. destruct A2 as (_ & _ & I3 & I4). apply rcontents_push; [lia|lia|done|done|].
    rewrite <- (length_rcontents 16 8 ltac:(lia) (used s)). assert (length (Z.of_nat i0 :: qused x) <= 8)%nat as Hlen; [|unfold qused, x in Hlen; simpl in Hlen; lia]. apply heads_short.
    - assert (queue x ≡ₚ (qavail x ++ tk1 ++ tk2) ++ Z.of_nat i0 :: qused x) as HP by (unfold queue, x; cbn [dtaken]; solve_Permutation). rewrite HP in A8. by apply NoDup_app in A8 as (_ & _ & A8).
    - intros h Hh. apply (queue_heads x); [done|]. apply elem_of_cons in Hh as [->|Hh]; [done|]. unfold queue. rewrite !elem_of_app. by right; right. }
  assert (qavail x' = qavail x) as Eqa by (unfold qavail; cbn [vs x x' avail avail_idx s' set_used set_queue set_info dav]; by rewrite K3, K4).
  assert (queue x ≡ₚ queue x') as HQ by (unfold queue; rewrite Equ, Eqa; cbn [dtaken x x']; solve_Permutation).
  assert (forall t' b' w' d' j0 j1 j2, m !! t' = Some (PWait b' w' d' j0 j1 j2) -> Z.of_nat j0 ∉ qavail x' ++ dtaken x' -> t' <> t -> Z.of_nat j0 ∉ qavail x ++ dtaken x) as Hstill.
  { intros t' b' w' d' j0 j1 j2 Hm' Hno Hne Hin. apply Hno. rewrite Eqa. cbn [dtaken x x'] in *. rewrite !elem_of_app in *. destruct Hin as [|[|Hin]]; [by left|by right; left|].
    apply elem_of_cons in Hin as [E|]; [|by right; right]. apply Nat2Z.inj in E as ->. destruct (same_head x _ _ _ _ _ _ _ _ _ _ _ _ _ Hi Hm' Hm) as [? _]. done. }
  split; cbn [vs vdisk dav dtaken phases x'].
  - destruct A1 as [B1 B2]. split; cbn [s' avail used set_used set_queue set_info]; [by rewrite K3|by rewrite length_insert].
  - destruct A2 as (I1 & I2 & I3 & I4). cbn [s' avail_idx used_idx used_dev_idx set_used set_queue set_info]. rewrite K4, K6. split_and!; try done. apply wrap_range. lia.
  - intros t1 t2 p1 p2 H1 H2 Hne. cbn [s' dbufs set_used set_queue set_info]. rewrite !(proj1 (Hbuf _)). by eapply A3.
  - intros t1 p1 H1. cbn [s' dbufs set_used set_queue set_info]. rewrite !(proj1 (Hbuf _)). by eapply A4.
  - cbn [s' vfree set_used set_queue set_info]. by rewrite K5.
  - done.
  - intros t1 b1 w1 d1 j0 j1 j2 H1. destruct (A7 _ _ _ _ _ _ _ H1) as [F1 F2 F3 F4 F5 F6 F7]. split; cbn [s' desc ops vfree dbufs info set_used set_queue set_info];
      rewrite ?K2, ?K5, ?K7, ?(proj1 (Hbuf _)); try done. destruct (decide (j0 = i0)) as [->|]; [by rewrite fn_lookup_insert|by rewrite fn_lookup_insert_ne].
  - change (NoDup (queue x')). by rewrite <- HQ.
  - intros h' Hh'. change (h' ∈ queue x') in Hh'. rewrite <- HQ in Hh'. destruct (A9 h' Hh') as (t1 & b1 & w1 & d1 & j0 & j1 & j2 & E1 & E2 & E3).
    exists t1, b1, w1, d1, j0, j1, j2. cbn [s' dbufs set_used set_queue set_info]. by rewrite (proj1 (proj2 (Hbuf _))).
  - intros t1 b1 w1 d1 j0 j1 j2 H1. cbn [s' dbufs set_used set_queue set_info]. rewrite (proj1 (proj2 (Hbuf _))). intros H2. change (Z.of_nat j0 ∈ queue x'). rewrite <- HQ. by eapply A10.
  - intros b1. cbn [s' dbufs set_used set_queue set_info]. rewrite (proj1 (proj2 (Hbuf _))). apply A11.
  - intros t1 b1 w1 d1 H1. assert (t1 <> t) as Hne by (intros ->; congruence). destruct (A3 _ _ _ _ H1 Hm Hne) as [N1 N2]. cbn [phase_buf] in *. unfold to_do. cbn [s' dbufs set_used set_queue set_info].
    rewrite (proj2 (proj2 (Hbuf b1)) N1), (Hdk _ N2). by eapply A12.
  - intros t1 b1 w1 d1 j0 j1 j2 H1. unfold to_do. cbn [s' dbufs set_used set_queue set_info]. destruct (decide (t1 = t)) as [->|Hne].
    + rewrite Hm in H1. injection H1 as <- <- <- <- <- <-. destruct Hdone as [D1 D2]. by destruct w.
    + destruct (A3 _ _ _ _ H1 Hm Hne) as [N1 N2]. cbn [phase_buf] in *. rewrite (proj2 (proj2 (Hbuf b1)) N1), (Hdk _ N2). by eapply A13.
  - intros t1 b1 w1 d1 j0 j1 j2 H1 Hno. unfold is_done. cbn [s' dbufs info set_used set_queue set_info]. destruct (decide (t1 = t)) as [->|Hne].
    + rewrite Hm in H1. injection H1 as <- <- <- <- <- <-. rewrite fn_lookup_insert. done.
    + destruct (A3 _ _ _ _ H1 Hm Hne) as [N1 N2]. cbn [phase_buf] in *. rewrite (proj2 (proj2 (Hbuf b1)) N1), (Hdk _ N2).
      rewrite fn_lookup_insert_ne; [eapply A14; [done|by eapply Hstill]|]. intros ->. destruct (same_head x _ _ _ _ _ _ _ _ _ _ _ _ _ Hi H1 Hm) as [? _]. done.
  - intros t1 b1. cbn [s' vk dbufs set_used set_queue set_info]. rewrite K1, (proj1 (proj2 (Hbuf _))). apply A15.
  - intros t1. cbn [s' vk vfree set_used set_queue set_info]. rewrite K1, K5. apply A16.
Qed.

(** ** The interrupt *)

(** One completed request is seen. *)
Definition seen (me : option nat) (b : nat) s : V :=
  let y := dbufs s b in
  set_used_idx (u16 (used_idx s + 1)) (set_vk (woken me (ChBuf b) (vk s)) (set_dbufs (<[b := mk_dbuf (dblockno y) false (ddata y)]> (dbufs s)) s)).

Lemma used_first s dk da tk m : vinv (mk_vsys s dk da tk m) -> used_idx s <> used_dev_idx s ->
  qused (mk_vsys s dk da tk m) = used s !!! Z.to_nat (used_idx s mod 8) :: rcontents 16 8 (used s) (u16 (used_idx s + 1)) (used_dev_idx s).
Proof.
  intros Hi Hne. destruct (iv_idx _ Hi) as (_ & _ & I3 & I4). cbn [vs] in *. apply rcontents_cons; [lia|lia|done|].
  pose proof (rcount_range 16 ltac:(lia) (used_idx s) (used_dev_idx s)). destruct (decide (rcount 16 (used_idx s) (used_dev_idx s) = 0)) as [E|]; [|lia].
  destruct Hne. symmetry. exact (proj1 (rcount_zero 16 8 ltac:(lia) ltac:(lia) _ _ I3 I4) E).
Qed.

Lemma vinv_seen me s dk da tk m t b w d i0 i1 i2 : vinv (mk_vsys s dk da tk m) -> cur_ok me (vk s) -> used_idx s <> used_dev_idx s ->
  m !! t = Some (PWait b w d i0 i1 i2) -> used s !!! Z.to_nat (used_idx s mod 8) = Z.of_nat i0 -> vinv (mk_vsys (seen me b s) dk da tk m).
Proof.
  intros Hi Hc Hne Hm Hh. set (x := mk_vsys s dk da tk m) in *. set (x' := mk_vsys _ _ _ _ _). pose proof (used_first _ _ _ _ _ Hi Hne) as Equ. fold x in Equ. rewrite Hh in Equ.
  change (rcontents 16 8 (used s) (u16 (used_idx s + 1)) (used_dev_idx s)) with (qused x') in Equ. change (qavail x) with (qavail x') in *.
  pose proof Hi as [A1 A2 A3 A4 A5 A6 A7 A8 A9 A10 A11 A12 A13 A14 A15 A16].
  assert (queue x ≡ₚ Z.of_nat i0 :: queue x') as HQ by (unfold queue; rewrite Equ; change (qavail x) with (qavail x'); cbn [dtaken x x']; solve_Permutation).
  assert (Z.of_nat i0 ∉ queue x') as Hni by (rewrite HQ in A8; by apply NoDup_cons in A8 as [? _]).
  assert (forall b', dblockno (dbufs (seen me b s) b') = dblockno (dbufs s b') /\ ddata (dbufs (seen me b s) b') = ddata (dbufs s b') /\
    ddisk (dbufs (seen me b s) b') = if decide (b' = b) then false else ddisk (dbufs s b')) as Hbuf.
  { intros b'. simpl. destruct (decide (b' = b)) as [->|]; [by rewrite fn_lookup_insert|by rewrite fn_lookup_insert_ne]. }
  split; cbn [vs vdisk dav dtaken phases x']; try done.
  - destruct A2 as (I1 & I2 & I3 & I4). split_and!; try done. apply wrap_range. lia.
  - intros t1 t2 p1 p2 H1 H2 Hn. rewrite !(proj1 (Hbuf _)). by eapply A3.
  - intros t1 p1 H1. rewrite (proj1 (Hbuf _)). by eapply A4.
  - intros t1 b1 w1 d1 j0 j1 j2 H1. destruct (A7 _ _ _ _ _ _ _ H1) as [F1 F2 F3 F4 F5 F6 F7]. split; try done. rewrite (proj1 (Hbuf _)). done.
  - change (NoDup (queue x')). rewrite HQ in A8. by apply NoDup_cons in A8 as [_ ?].
  - intros h Hq. change (h ∈ queue x') in Hq. destruct (A9 h) as (t1 & b1 & w1 & d1 & j0 & j1 & j2 & E1 & E2 & E3); [rewrite HQ; by apply elem_of_cons; right|].
    exists t1, b1, w1, d1, j0, j1, j2. split_and!; [done|done|]. rewrite (proj2 (proj2 (Hbuf _))). case_decide as Eb; [|done]. subst b1 h. exfalso.
    assert (t1 = t) as -> by (eapply (same_buf x); [done|exact E2|exact Hm|done]). cbn [phases x] in *. rewrite Hm in E2. by injection E2 as <- <- <- <- <-.
  - intros t1 b1 w1 d1 j0 j1 j2 H1. rewrite (proj2 (proj2 (Hbuf _))). case_decide as Eb; [done|]. intros H2. specialize (A10 _ _ _ _ _ _ _ H1 H2). change (Z.of_nat j0 ∈ queue x').
    rewrite HQ in A10. apply elem_of_cons in A10 as [E|]; [|done]. apply Nat2Z.inj in E as ->. destruct (same_head x _ _ _ _ _ _ _ _ _ _ _ _ _ Hi H1 Hm) as (_ & ? & _). done.
  - intros b1. rewrite (proj2 (proj2 (Hbuf _))). case_decide; [done|]. apply A11.
  - intros t1 b1 w1 d1 H1. unfold to_do. rewrite (proj1 (Hbuf _)), (proj1 (proj2 (Hbuf _))). by eapply A12.
  - intros t1 b1 w1 d1 j0 j1 j2 H1. unfold to_do. rewrite (proj1 (Hbuf _)), (proj1 (proj2 (Hbuf _))). by eapply A13.
  - intros t1 b1 w1 d1 j0 j1 j2 H1 Hno. unfold is_done. rewrite (proj1 (Hbuf _)), (proj1 (proj2 (Hbuf _))). by eapply A14.
  - intros t1 b1 Hs. cbn [seen vk set_used_idx set_vk] in Hs. apply sleeping_cur in Hs as [Hs Hb]; [|done]. rewrite (proj2 (proj2 (Hbuf _))), decide_False by congruence. by eapply A15.
  - intros t1 Hs. cbn [seen vk set_used_idx set_vk] in Hs. apply sleeping_cur in Hs as [Hs Hb]; [|done]. by eapply A16.
Qed.

Lemma cur_ok_woken me ch (k : kst St) : cur_ok me k -> cur_ok me (woken me ch k).
Proof. intros Hc t E. apply running_woken. by apply Hc. Qed.

Lemma intr_loop_spec fuel me s dk da tk m : vinv (mk_vsys s dk da tk m) -> cur_ok me (vk s) -> (length (qused (mk_vsys s dk da tk m)) < fuel)%nat ->
  wp (intr_loop fuel me s) (fun _ s' => vinv (mk_vsys s' dk da tk m) /\ used_idx s' = used_dev_idx s' /\ avail s' = avail s /\ avail_idx s' = avail_idx s).
Proof.
  revert s. induction fuel as [|fuel IH]; intros s Hi Hc Hf; [lia|]. cbn [intr_loop]. apply wp_gets. destruct (Z.eqb_spec (used_idx s) (used_dev_idx s)) as [|Hne]; [by apply wp_ret|].
  pose proof (used_first _ _ _ _ _ Hi Hne) as Equ. unfold NUM. set (h := used s !!! _) in *.
  assert (h ∈ queue (mk_vsys s dk da tk m)) as Hq by (unfold queue; rewrite Equ, !elem_of_app, elem_of_cons; by right; right; left).
  destruct (iv_queue _ Hi h Hq) as (t & b & w & d & i0 & i1 & i2 & Eh & Hm & Hdisk). cbn [phases vs] in *. pose proof (iv_nodup _ Hi) as Hnd.
  destruct (iv_done _ Hi _ _ _ _ _ _ _ Hm) as [_ Hst].
  { rewrite <- Eh. unfold queue in Hnd. rewrite Equ, app_assoc in Hnd. apply NoDup_app in Hnd as (_ & Hnd & _). intros Hin. apply (Hnd _ Hin). apply elem_of_cons. by left. }
  rewrite Eh, Nat2Z.id. cbn [vs] in Hst. rewrite Hst. cbn [Z.eqb negb]. pose proof (fm_b _ _ _ _ _ _ (iv_form _ Hi _ _ _ _ _ _ _ Hm)) as Hb. cbn [vs] in Hb. rewrite Hb.
  apply wp_gets, wp_modify, wp_bind. cbn [on_vk zoom wakeup modify wp]. apply wp_modify. fold (woken me (ChBuf b) (vk s)).
  pose proof (vinv_seen me s dk da tk m t b w d i0 i1 i2 Hi Hc Hne Hm Eh) as Hi'. apply (IH (seen me b s)); [done|by apply cur_ok_woken|].
  rewrite Equ in Hf. cbn [length] in Hf. unfold qused in *. cbn [vs seen used used_idx used_dev_idx set_used_idx set_vk set_dbufs]. lia.
Qed.

Lemma intr_spec me s dk da tk m : vinv (mk_vsys s dk da tk m) -> cur_ok me (vk s) ->
  wp (virtio_disk_intr me s) (fun _ s' => vinv (mk_vsys s' dk da tk m) /\ used_idx s' = used_dev_idx s' /\ avail s' = avail s /\ avail_idx s' = avail_idx s).
Proof.
  intros Hi Hc. unfold virtio_disk_intr. apply wp_bind. unfold rreg. destruct (mread _ (vdev s)) as [v d]. cbn [wp]. apply wp_modify. set (s1 := set_vdev _ _).
  assert (vinv (mk_vsys s1 dk da tk m)) as Hi1 by (apply (vinv_frame s); [done|done|done|done|exact (iv_sleep_buf _ Hi)|exact (iv_sleep_free _ Hi)]).
  apply (intr_loop_spec _ me s1); [done|done|]. pose proof (iv_nodup _ Hi1) as Hnd. assert (length (qused (mk_vsys s1 dk da tk m)) <= 8)%nat; [|unfold NUMn; lia].
  apply heads_short.
  - unfold queue in Hnd. rewrite app_assoc in Hnd. by apply NoDup_app in Hnd as (_ & _ & ?).
  - intros h Hh. apply (queue_heads _ h Hi1). unfold queue. rewrite !elem_of_app. by right; right.
Qed.

(** ** A request is submitted *)

Record submitted (b : nat) (w : bool) (i0 i1 i2 : nat) (s s' : V) : Prop := {
  su_vk : fewer_sleep (vk s) (vk s');
  su_form : formatted s' b w i0 i1 i2;
  su_old j : j <> i0 -> j <> i1 -> j <> i2 -> vfree s' j = vfree s j;
  su_new : vfree s i0 = true /\ vfree s i1 = true /\ vfree s i2 = true;
  su_desc j : vfree s j = false -> desc s' j = desc s j;
  su_avail : avail s' = <[Z.to_nat (avail_idx s mod 8) := Z.of_nat i0]> (avail s) /\ avail_idx s' = u16 (avail_idx s + 1);
  su_used : used s' = used s /\ used_dev_idx s' = used_dev_idx s /\ used_idx s' = used_idx s;
  su_info j : j <> i0 -> info s' j = info s j /\ ops s' j = ops s j;
  su_bufs b' : dblockno (dbufs s' b') = dblockno (dbufs s b') /\ ddata (dbufs s' b') = ddata (dbufs s b') /\
    ddisk (dbufs s' b') = if decide (b' = b) then true else ddisk (dbufs s b');
}.

Lemma submit_spec b w i0 i1 i2 s s1 : lacking [i2; i1; i0] s s1 -> wp (rw_submit b w i0 i1 i2 s1) (fun _ s' => submitted b w i0 i1 i2 s s').
Proof.
  intros [L1 L2 L3 [L4 L5] (E1 & E2 & E3 & E4 & E5 & E6 & E7 & E8)]. rewrite !Forall_cons in L4. destruct L4 as ((R2 & V2) & (R1 & V1) & (R0 & V0) & _).
  rewrite !NoDup_cons, !not_elem_of_cons in L5. destruct L5 as ((N21 & N20 & _) & (N10 & _) & _).
  unfold rw_submit, put_desc, put_dbuf, wreg, modify, gets, mbind. cbn -[u16 u32 Z.land Z.lor BSIZE NUMn]. split; cbn -[u16 u32 Z.land Z.lor BSIZE NUMn].
  - done.
  - split; cbn -[u16 u32 Z.land Z.lor BSIZE NUMn].
    + split_and!; (done || congruence).
    + rewrite !fn_lookup_insert_ne by congruence. by rewrite fn_lookup_insert.
    + rewrite fn_lookup_insert_ne by congruence. by rewrite fn_lookup_insert.
    + by rewrite fn_lookup_insert.
    + by rewrite !fn_lookup_insert.
    + by rewrite fn_lookup_insert.
    + rewrite !L3, !decide_True by (rewrite !elem_of_cons; tauto). done.
  - intros j J0 J1 J2. rewrite L3, decide_False; [done|]. rewrite !elem_of_cons, elem_of_nil. tauto.
  - done.
  - intros j Hj. rewrite !fn_lookup_insert_ne by congruence. by apply L2.
  - by rewrite E1, E2.
  - done.
  - intros j Hj. rewrite !fn_lookup_insert_ne by congruence. by rewrite E6, E7.
  - intros b'. rewrite <- E8. case_decide as Eb; [subst b'; by rewrite fn_lookup_insert|by rewrite fn_lookup_insert_ne].
Qed.

Lemma vinv_submit s dk da tk m t b w d i0 i1 i2 s' : vinv (mk_vsys s dk da tk m) -> m !! t = Some (PAlloc b w d) -> submitted b w i0 i1 i2 s s' ->
  vinv (mk_vsys s' dk da tk (<[t := PWait b w d i0 i1 i2]> m)).
Proof.
  intros Hi Hm [(_ & _ & S1) S2 S3 (F0 & F1 & F2) S5 (Sa & Sb) (Sc & Sd & Se) S8 S9]. set (x := mk_vsys s dk da tk m) in *. set (x' := mk_vsys _ _ _ _ _).
  pose proof Hi as [A1 A2 A3 A4 A5 A6 A7 A8 A9 A10 A11 A12 A13 A14 A15 A16].
  assert (forall t' p, <[t := PWait b w d i0 i1 i2]> m !! t' = Some p -> (t' = t /\ p = PWait b w d i0 i1 i2) \/ (t' <> t /\ m !! t' = Some p)) as Hl.
  { intros t' p [[-> <-]|[? ?]]%lookup_insert_Some; [by left|by right]. }
  (* descriptors in use are not the new ones *)
  assert (forall t' p i, m !! t' = Some p -> owns p i -> vfree s i = false) as Hown.
  { intros t' [|b' w' d' j0 j1 j2] i H1 Ho; [done|]. destruct (A7 _ _ _ _ _ _ _ H1) as [_ _ _ _ _ _ (? & ? & ?)]. by destruct Ho as [->|[->| ->]]. }
  assert (forall t' p i, m !! t' = Some p -> owns p i -> i <> i0 /\ i <> i1 /\ i <> i2) as Hnew.
  { intros t' p i H1 Ho. pose proof (Hown _ _ _ H1 Ho). split_and!; congruence. }
  assert (Z.of_nat i0 ∉ queue x) as Hni.
  { intros Hq. destruct (A9 _ Hq) as (t1 & b1 & w1 & d1 & j0 & j1 & j2 & E & H1 & _). apply Nat2Z.inj in E as <-. destruct (Hnew _ _ i0 H1) as [? _]; [by left|done]. }
  assert (qavail x' = qavail x ++ [Z.of_nat i0]) as Eqa.
  { unfold qavail. cbn [vs x x' dav]. rewrite Sa, Sb. destruct A1 as [A1 _]. destruct A2 as (I1 & I2 & _ & _). apply rcontents_push; [lia|lia|done|done|].
    rewrite <- (length_rcontents 16 8 ltac:(lia) (avail s)). assert (length (Z.of_nat i0 :: qavail x) <= 8)%nat as Hlen; [|unfold qavail, x in Hlen; simpl in Hlen; lia]. apply heads_short.
    - apply NoDup_cons. split; [intros Hin; apply Hni; unfold queue; rewrite elem_of_app; by left|]. unfold queue in A8. by apply NoDup_app in A8 as (? & _).
    - intros h [->|Hh]%elem_of_cons; [destruct (fm_range _ _ _ _ _ _ S2) as [(? & _) _]; unfold NUMn in *; lia|]. apply (queue_heads x); [done|]. unfold queue. rewrite elem_of_app. by left. }
  assert (qused x' = qused x) as Equ by (unfold qused; cbn [vs x x']; by rewrite Sc, Sd, Se).
  assert (queue x' ≡ₚ Z.of_nat i0 :: queue x) as HQ by (unfold queue; rewrite Eqa, Equ; cbn [dtaken x x']; solve_Permutation).
  split; cbn [vs vdisk dav dtaken phases x x'] in *.
  - rewrite Sa, Sc, length_insert. done.
  - rewrite Sb, Sd, Se. destruct A2 as (I1 & I2 & I3 & I4). split_and!; try done. apply wrap_range. lia.
  - intros t1 t2 p1 p2 [[-> ->]|[_ H1]]%Hl [[-> ->]|[_ H2]]%Hl Hne; rewrite !(proj1 (S9 _)); [done|exact (A3 _ _ _ _ Hm H2 Hne)|exact (A3 _ _ _ _ H1 Hm Hne)|exact (A3 _ _ _ _ H1 H2 Hne)].
  - intros t1 p1 [[-> ->]|[_ H1]]%Hl; rewrite (proj1 (S9 _)); [exact (A4 _ _ Hm)|exact (A4 _ _ H1)].
  - intros i Hin Hf. destruct (decide (i = i0 \/ i = i1 \/ i = i2)) as [Ho|Hno]; [exists t, (PWait b w d i0 i1 i2); by rewrite lookup_insert_eq|].
    rewrite S3 in Hf by tauto. destruct (A5 i Hin Hf) as (t1 & p1 & H1 & Ho). exists t1, p1. split; [|done]. rewrite lookup_insert_ne; [done|]. intros <-. rewrite Hm in H1. by injection H1 as <-.
  - intros t1 t2 p1 p2 i [[-> ->]|[_ H1]]%Hl [[-> ->]|[_ H2]]%Hl O1 O2; [done| | |by eapply A6].
    + destruct (Hnew _ _ _ H2 O2) as (? & ? & ?). by destruct O1 as [|[|]].
    + destruct (Hnew _ _ _ H1 O1) as (? & ? & ?). by destruct O2 as [|[|]].
  - intros t1 b1 w1 d1 j0 j1 j2 [[-> [= -> -> -> -> -> ->]]|[_ H1]]%Hl; [done|]. destruct (A7 _ _ _ _ _ _ _ H1) as [G1 G2 G3 G4 G5 G6 (G7 & G8 & G9)].
    destruct (Hnew _ _ j0 H1) as (? & ? & ?); [by left|]. destruct (Hnew _ _ j1 H1) as (? & ? & ?); [by right; left|]. destruct (Hnew _ _ j2 H1) as (? & ? & ?); [by right; right|].
    destruct (S8 j0) as [Y1 Y2]; [done|]. split; rewrite ?Y1, ?Y2, ?S5, ?S3, ?(proj1 (S9 _)) by done; done.
  - rewrite HQ. by constructor.
  - intros h Hh. rewrite HQ in Hh. apply elem_of_cons in Hh as [->|Hh].
    + exists t, b, w, d, i0, i1, i2. rewrite lookup_insert_eq, (proj2 (proj2 (S9 _))), decide_True; done.
    + destruct (A9 h Hh) as (t1 & b1 & w1 & d1 & j0 & j1 & j2 & E1 & E2 & E3). exists t1, b1, w1, d1, j0, j1, j2. rewrite lookup_insert_ne by congruence.
      rewrite (proj2 (proj2 (S9 _))). split_and!; [done|done|]. by case_decide.
  - intros t1 b1 w1 d1 j0 j1 j2 H1 H2. rewrite HQ. apply elem_of_cons. destruct (Hl _ _ H1) as [[-> [= -> -> -> -> -> ->]]|[Hne H3]]; [by left|]. right.
    eapply A10; [done|]. rewrite (proj2 (proj2 (S9 _))) in H2. case_decide as Eb; [|done]. subst b1. destruct Hne. by eapply (same_buf x); [done|exact H3|exact Hm|].
  - intros b1 Hb1. rewrite (proj2 (proj2 (S9 _))) in Hb1. case_decide as Eb; [subst b1; exists t, w, d, i0, i1, i2; by rewrite lookup_insert_eq|].
    destruct (A11 b1 Hb1) as (t1 & w1 & d1 & j0 & j1 & j2 & E2). exists t1, w1, d1, j0, j1, j2. rewrite lookup_insert_ne; [done|]. congruence.
  - intros t1 b1 w1 d1 [[_ [=]]|[_ H1]]%Hl. unfold to_do. rewrite (proj1 (S9 _)), (proj1 (proj2 (S9 _))). by eapply A12.
  - intros t1 b1 w1 d1 j0 j1 j2 [[-> [= -> -> -> -> -> ->]]|[_ H1]]%Hl; unfold to_do; rewrite (proj1 (S9 _)), (proj1 (proj2 (S9 _))); [by eapply A12|by eapply A13].
  - intros t1 b1 w1 d1 j0 j1 j2 H1 Hno. rewrite Eqa in Hno. destruct (Hl _ _ H1) as [[-> [= -> -> -> -> -> ->]]|[Hne H3]].
    + destruct Hno. rewrite !elem_of_app, list_elem_of_singleton. by left; right.
    + unfold is_done. rewrite (proj1 (S9 _)), (proj1 (proj2 (S9 _))). destruct (Hnew _ _ j0 H3) as (? & _); [by left|]. destruct (S8 j0) as [-> _]; [done|]. eapply A14; [done|].
      intros Hin. apply Hno. rewrite !elem_of_app in *. tauto.
  - intros t1 b1 Hs. rewrite (proj2 (proj2 (S9 _))). case_decide; [done|]. by eapply A15, S1.
  - intros t1 Hs i j k Hi1 Hj1 Hk1 Hij Hik Hjk. assert (forall y, vfree s' y = true -> vfree s y = true) as Hmono.
    { intros y Hy. destruct (decide (y = i0)) as [->|]; [done|]. destruct (decide (y = i1)) as [->|]; [done|]. destruct (decide (y = i2)) as [->|]; [done|]. by rewrite <- S3. }
    intros Y1 Y2 Y3. by eapply (A16 t1 (S1 _ _ Hs) i j k); try done; apply Hmono.
Qed.

Lemma rw_start_spec t s dk da tk m b w d : vinv (mk_vsys s dk da tk m) -> running (vk s) t -> m !! t = Some (PAlloc b w d) ->
  wp (rw_start t b w s) (fun r s' => vinv (mk_vsys s' dk da tk (match r with Some (i0, i1, i2) => <[t := PWait b w d i0 i1 i2]> m | None => m end))).
Proof.
  intros Hi Hr Hm. unfold rw_start. wp_step (alloc3_spec t s Hr). intros [[[i0 i1] i2]|] s1 [Hr1 Hs].
  - wp_step (submit_spec b w i0 i1 i2 s s1 Hs). intros [] s2 H2. apply wp_ret. by eapply vinv_submit.
  - destruct Hs as [Hret Hf]. apply wp_bind. cbn [on_vk zoom wp]. unfold sleep. apply wp_ret. apply (vinv_slept s1 dk da tk m t ChDisk); [by eapply vinv_retried|done|].
    intros i j k. rewrite !(rt_free _ _ Hret). apply Hf.
Qed.

(** ** A request is finished with *)

Lemma chain_eq t s b w i0 i1 i2 : formatted s b w i0 i1 i2 ->
  let s1 := set_info (<[i0 := mk_vinfo None (status (info s i0))]> (info s)) s in
  free_chain NUMn t i0 s1 = Ret tt (freed t i2 (freed t i1 (freed t i0 s1))).
Proof.
  intros [(R & N1 & N2 & N3) F2 F3 F4 F5 F6 (G0 & G1 & G2)] s1. destruct R as (R0 & R1 & R2). unfold NUMn. cbn [free_chain]. msimpl.
  change (desc s1 i0) with (desc s i0). rewrite F2, (free_desc_eq t i0 s1 R0 G0). cbn [flags next]. change (negb (Z.land VRING_DESC_F_NEXT VRING_DESC_F_NEXT =? 0)) with true. cbv match.
  assert (desc (freed t i0 s1) i1 = desc s i1 /\ vfree (freed t i0 s1) i1 = false) as [D1 V1] by (cbn [freed desc vfree set_vk set_vfree set_desc set_queue]; rewrite !fn_lookup_insert_ne by done; done).
  rewrite D1, F3, (free_desc_eq t i1 _ R1 V1). cbn [flags next].
  assert (negb (Z.land (Z.lor (if w then 0 else VRING_DESC_F_WRITE) VRING_DESC_F_NEXT) VRING_DESC_F_NEXT =? 0) = true) as -> by by destruct w. cbv match.
  set (s2 := freed t i1 _). assert (desc s2 i2 = desc s i2 /\ vfree s2 i2 = false) as [D2 V2] by (cbn [s2 freed desc vfree set_vk set_vfree set_desc set_queue]; rewrite !fn_lookup_insert_ne by done; done).
  rewrite D2, F4, (free_desc_eq t i2 _ R2 V2). done.
Qed.

Lemma vinv_finish s dk da tk m t b w d i0 i1 i2 s' : vinv (mk_vsys s dk da tk m) -> running (vk s) t -> m !! t = Some (PWait b w d i0 i1 i2) -> ddisk (dbufs s b) = false ->
  s' = freed t i2 (freed t i1 (freed t i0 (set_info (<[i0 := mk_vinfo None (status (info s i0))]> (info s)) s))) -> vinv (mk_vsys s' dk da tk (delete t m)).
Proof.
  intros Hi Hr Hm Hd Es. pose proof Hi as [A1 A2 A3 A4 A5 A6 A7 A8 A9 A10 A11 A12 A13 A14 A15 A16]. cbn [vs vdisk dav dtaken phases] in *.
  assert (forall t' p, delete t m !! t' = Some p -> t' <> t /\ m !! t' = Some p) as Hl by (intros t' p [? ?]%lookup_delete_Some; done).
  assert (forall j, j <> i0 -> j <> i1 -> j <> i2 -> desc s' j = desc s j /\ vfree s' j = vfree s j) as Hrest.
  { intros j J0 J1 J2. rewrite Es. cbn [freed desc vfree set_vk set_vfree set_desc set_queue set_info]. rewrite !fn_lookup_insert_ne by done. done. }
  destruct (fm_range _ _ _ _ _ _ (A7 _ _ _ _ _ _ _ Hm)) as (_ & N1 & N2 & N3).
  assert (forall j, vfree s' j = false -> j <> i0 /\ j <> i1 /\ j <> i2) as Hused.
  { intros j. rewrite Es. cbn [freed vfree set_vk set_vfree set_desc set_queue set_info]. intros Hj. split_and!; intros ->; revert Hj; repeat first [rewrite fn_lookup_insert; done|rewrite fn_lookup_insert_ne by congruence]. }
  assert (forall j, j <> i0 -> info s' j = info s j) as Hinfo by (intros j Hj; rewrite Es; cbn [freed info set_vk set_vfree set_desc set_queue set_info]; by rewrite fn_lookup_insert_ne).
  assert (avail s' = avail s /\ avail_idx s' = avail_idx s /\ used s' = used s /\ used_dev_idx s' = used_dev_idx s /\ used_idx s' = used_idx s /\ ops s' = ops s /\ dbufs s' = dbufs s)
    as (E1 & E2 & E3 & E4 & E5 & E6 & E7) by by rewrite Es.
  assert (forall t' p j, delete t m !! t' = Some p -> owns p j -> j <> i0 /\ j <> i1 /\ j <> i2) as Hother.
  { intros t' p j [Hne H1]%Hl Ho. split_and!; intros ->; apply Hne; eapply A6; try exact H1; try exact Hm; try exact Ho; simpl; tauto. }
  assert (forall t' c, sleeping (vk s') t' c -> sleeping (vk s) t' c /\ c <> ChDisk) as Hsl.
  { assert (forall k : kst St, running k t -> cur_ok (Some t) k) as Hcur by (intros k Hk u [= <-]; done). intros t' c Hs. rewrite Es in Hs. cbn [freed vk set_vk set_info set_desc set_vfree set_queue] in Hs.
    pose proof (running_woken (Some t) ChDisk _ _ Hr) as Hr1. pose proof (running_woken (Some t) ChDisk _ _ Hr1) as Hr2.
    apply sleeping_cur in Hs as [Hs Hc]; [|by apply Hcur]. apply sleeping_cur in Hs as [Hs _]; [|by apply Hcur]. by apply sleeping_cur in Hs as [Hs _]; [|by apply Hcur]. }
  split; unfold queue, qavail, qused, to_do, is_done in *; cbn [vs vdisk dav dtaken phases] in *; rewrite ?E1, ?E2, ?E3, ?E4, ?E5, ?E6, ?E7; try done.
  - intros t1 t2 p1 p2 [_ H1]%Hl [_ H2]%Hl. by eapply A3.
  - intros t1 p1 [_ H1]%Hl. by eapply A4.
  - intros i Hin Hf. destruct (Hused _ Hf) as (J0 & J1 & J2). rewrite (proj2 (Hrest i J0 J1 J2)) in Hf. destruct (A5 i Hin Hf) as (t1 & p1 & H1 & Ho). exists t1, p1. split; [|done].
    rewrite lookup_delete_ne; [done|]. intros <-. rewrite Hm in H1. injection H1 as <-. by destruct Ho as [|[|]].
  - intros t1 t2 p1 p2 i [_ H1]%Hl [_ H2]%Hl. by eapply A6.
  - intros t1 b1 w1 d1 j0 j1 j2 H1. destruct (Hother _ _ j0 H1) as (? & ? & ?); [by left|]. destruct (Hother _ _ j1 H1) as (? & ? & ?); [by right; left|]. destruct (Hother _ _ j2 H1) as (? & ? & ?); [by right; right|].
    apply Hl in H1 as [_ H1]. destruct (A7 _ _ _ _ _ _ _ H1) as [G1 G2 G3 G4 G5 G6 G7]. destruct (Hrest j0) as [X0 Y0]; [done..|]. destruct (Hrest j1) as [X1 Y1]; [done..|]. destruct (Hrest j2) as [X2 Y2]; [done..|].
    split; rewrite ?X0, ?X1, ?X2, ?Y0, ?Y1, ?Y2, ?E6, ?E7, ?Hinfo by done; done.
  - intros h Hh. destruct (A9 h Hh) as (t1 & b1 & w1 & d1 & j0 & j1 & j2 & B1 & B2 & B3). exists t1, b1, w1, d1, j0, j1, j2. split_and!; [done| |done]. rewrite lookup_delete_ne; [done|]. intros <-.
    rewrite Hm in B2. injection B2 as <- <- <- <- <- <-. congruence.
  - intros t1 b1 w1 d1 j0 j1 j2 [_ H1]%Hl. by eapply A10.
  - intros b1 Hb1. destruct (A11 b1 Hb1) as (t1 & w1 & d1 & j0 & j1 & j2 & B2). exists t1, w1, d1, j0, j1, j2. rewrite lookup_delete_ne; [done|]. intros <-. rewrite Hm in B2. injection B2 as <- <- <- <- <- <-. congruence.
  - intros t1 b1 w1 d1 [_ H1]%Hl. by eapply A12.
  - intros t1 b1 w1 d1 j0 j1 j2 [_ H1]%Hl. by eapply A13.
  - intros t1 b1 w1 d1 j0 j1 j2 H1. destruct (Hother _ _ j0 H1) as (? & _); [by left|]. rewrite Hinfo by done. apply Hl in H1 as [_ H1]. by eapply A14.
  - intros t1 b1 [Hs _]%Hsl. by eapply A15.
  - intros t1 [_ ?]%Hsl. done.
Qed.

Lemma rw_wait_spec t s dk da tk m b w d i0 i1 i2 : vinv (mk_vsys s dk da tk m) -> running (vk s) t -> m !! t = Some (PWait b w d i0 i1 i2) ->
  wp (rw_wait t b i0 s) (fun r s' => vinv (mk_vsys s' dk da tk (if r then delete t m else m)) /\ (r = true -> is_done s' dk b d)).
Proof.
  intros Hi Hr Hm. unfold rw_wait. apply wp_gets. destruct (ddisk (dbufs s b)) eqn:Ed.
  - apply wp_bind. cbn [on_vk zoom wp]. unfold sleep. apply wp_ret. split; [|done]. by apply (vinv_slept s dk da tk m t (ChBuf b)).
  - apply wp_modify, wp_bind. pose proof (chain_eq t s b w i0 i1 i2 (iv_form _ Hi _ _ _ _ _ _ _ Hm)) as Ec. cbv zeta in Ec. rewrite Ec. cbn [wp]. apply wp_ret. split; [by eapply vinv_finish|]. intros _.
    destruct (iv_done _ Hi _ _ _ _ _ _ _ Hm) as [Hdn _]; [|done]. intros Hin. destruct (iv_queue _ Hi (Z.of_nat i0)) as (t1 & b1 & w1 & d1 & j0 & j1 & j2 & E1 & E2 & E3).
    { unfold queue. rewrite app_assoc, elem_of_app. by left. }
    apply Nat2Z.inj in E1 as <-. destruct (same_head _ _ _ _ _ _ _ _ _ _ _ _ _ _ Hi E2 Hm) as (_ & -> & _). cbn [vs] in E3. congruence.
Qed.

(** ** Reachable states *)

(** What [virtio_disk_init] leaves. *)
Record vready (s : V) : Prop := {
  rd_rings : length (avail s) = NUMn /\ length (used s) = NUMn;
  rd_idx : avail_idx s = 0 /\ used_dev_idx s = 0 /\ used_idx s = 0;
  rd_free i : (i < NUMn)%nat -> vfree s i = true;
  rd_bufs b : ddisk (dbufs s b) = false;
  rd_sleep t c : driver_chan c = true -> ~ sleeping (vk s) t c;
}.

(** Before it, no buffer is the disk's and no process waits for the disk. *)
Record unused (s : V) : Prop := {
  un_idx : used_idx s = 0;
  un_bufs b : ddisk (dbufs s b) = false;
  un_sleep t c : driver_chan c = true -> ~ sleeping (vk s) t c;
}.

Definition rets {A} (o : outcome V A) (Q : A -> V -> Prop) : Prop := match o with Ret a s => Q a s | _ => True end.

Lemma rets_bind {A B} (c : M V A) (k : A -> M V B) s Q : rets (c s) (fun a s' => rets (k a s') Q) -> rets ((c ≫= k) s) Q.
Proof. unfold mbind, M_bind. by destruct (c s). Qed.

Lemma rets_rreg {B} r (k : Z -> M V B) s Q : unused s -> (forall v s', unused s' -> rets (k v s') Q) -> rets ((rreg r ≫= k) s) Q.
Proof. intros [U1 U2 U3] Hk. apply rets_bind. unfold rreg. destruct (mread r (vdev s)) as [v d]. cbn [rets]. by apply Hk. Qed.

Lemma rets_wreg {B} r v (k : unit -> M V B) s Q : unused s -> (forall s', unused s' -> rets (k tt s') Q) -> rets ((wreg r v ≫= k) s) Q.
Proof. intros [U1 U2 U3] Hk. by apply Hk. Qed.

Lemma rets_mem {A B} (c : M phys A) (k : A -> M V B) s Q : unused s -> (forall v s', unused s' -> rets (k v s') Q) -> rets ((on_vk (on_mem_k c) ≫= k) s) Q.
Proof.
  intros [U1 U2 U3] Hk. apply rets_bind. unfold on_vk, on_mem_k, on_fs, on_km, zoom. destruct (c _) as [a p| |]; [|done..]. cbn [rets]. apply Hk. by split.
Qed.

Lemma init_ready s : unused s -> rets (virtio_disk_init s) (fun _ s' => vready s').
Proof.
  intros Hu. unfold virtio_disk_init. repeat first
    [ apply rets_rreg; [done|]; clear s Hu; intros ? s Hu | apply rets_wreg; [done|]; clear s Hu; intros s Hu
    | apply rets_mem; [done|]; clear s Hu; intros ? s Hu | case_match; [done|] ].
  apply rets_bind. cbn [modify rets]. destruct Hu as [U1 U2 U3].
  do 8 (apply rets_bind; unfold wreg at 1; cbn [modify rets]). apply rets_bind. cbn [modify rets]. unfold wreg, modify. cbn [rets].
  split; try done. intros i Hi. cbn [vfree set_vdev set_vfree]. by rewrite (proj2 (Nat.ltb_lt i NUMn) Hi).
Qed.

Definition vboot s dk : vsys := mk_vsys s dk 0 [] ∅.

Lemma vinv_boot s dk : vready s -> vinv (vboot s dk).
Proof.
  intros [[R1 R2] (I1 & I2 & I3) Rf Rb Rs]. assert (queue (vboot s dk) = []) as Eq.
  { unfold queue, qavail, qused. cbn [vs vboot dav dtaken]. by rewrite I1, I2, I3, !(rcontents_empty 16 8) by lia. }
  split; cbn [vs vdisk dav dtaken phases vboot]; try (intros; rewrite lookup_empty in *; done).
  - by rewrite R1, R2.
  - rewrite I1, I2, I3. split_and!; split; lia.
  - intros i Hi Hf. rewrite Rf in Hf; done.
  - change (NoDup (queue (vboot s dk))). rewrite Eq. constructor.
  - intros h Hh. change (h ∈ queue (vboot s dk)) in Hh. rewrite Eq in Hh. by apply elem_of_nil in Hh.
  - intros b Hb. by rewrite Rb in Hb.
  - intros t b Hs. by destruct (Rs t (ChBuf b) eq_refl).
  - intros t Hs. by destruct (Rs t ChDisk eq_refl).
Qed.

Lemma dstep_inv x x' : dstep x x' -> vinv x -> vinv x'.
Proof. intros [] Hi; [by apply vinv_take|by eapply vinv_io]. Qed.

Lemma vstep_inv x x' : vstep x x' -> vinv x -> vinv x'.
Proof.
  intros Hst Hi. destruct Hst as [s dk da tk m t b w|s dk da tk m t b w d r s' Hr Hm E|s dk da tk m t b w d i0 i1 i2 r s' Hr Hm E| |x x' Hd|s dk da tk m me s' Hc E|].
  - apply vinv_call; try done. by destruct w.
  - pose proof (rw_start_spec t s dk da tk m b w d Hi Hr Hm) as Hw. by rewrite E in Hw.
  - pose proof (rw_wait_spec t s dk da tk m b w d i0 i1 i2 Hi Hr Hm) as Hw. rewrite E in Hw. apply Hw.
  - by apply vinv_edit.
  - by eapply dstep_inv.
  - pose proof (intr_spec me s dk da tk m Hi Hc) as Hw. rewrite E in Hw. apply Hw.
  - by apply vinv_other.
Qed.

Lemma reach_inv s0 dk0 x : vready s0 -> rtc vstep (vboot s0 dk0) x -> vinv x.
Proof. intros Hrd Hr. eapply (rtc_ind_r vinv); [by apply vinv_boot| |exact Hr]. intros; by eapply vstep_inv. Qed.

Lemma booted_inv s s0 dk0 x : unused s -> virtio_disk_init s = Ret tt s0 -> rtc vstep (vboot s0 dk0) x -> vinv x.
Proof. intros Hu E. apply reach_inv. pose proof (init_ready s Hu) as Hrd. by rewrite E in Hrd. Qed.

(** ** Properties *)

(** C6: In every state the processes, the device and interrupts can reach after
    [virtio_disk_init], no pass of [virtio_disk_rw] and no [virtio_disk_intr]
    panics or runs for ever; a call that returns finds its buffer and its
    block on the disk equal to what was to be written, or to what the block held
    when the call began; the interrupt leaves no completed request unseen; and a
    process sleeps on a buffer only while the disk has it, and for descriptors
    only while fewer than three are free. *)
Theorem virtio_disk_correct s s0 dk0 x : unused s -> virtio_disk_init s = Ret tt s0 -> rtc vstep (vboot s0 dk0) x ->
  (forall t b w d, running (vk (vs x)) t -> phases x !! t = Some (PAlloc b w d) -> wp (rw_start t b w (vs x)) (fun _ _ => True)) /\
  (forall t b w d i0 i1 i2, running (vk (vs x)) t -> phases x !! t = Some (PWait b w d i0 i1 i2) ->
    wp (rw_wait t b i0 (vs x)) (fun r s' => r = true -> ddata (dbufs s' b) = d /\ vdisk x (dblockno (dbufs s' b)) = d)) /\
  (forall me, cur_ok me (vk (vs x)) -> wp (virtio_disk_intr me (vs x)) (fun _ s' => used_idx s' = used_dev_idx s')) /\
  (forall t b, sleeping (vk (vs x)) t (ChBuf b) -> ddisk (dbufs (vs x) b) = true) /\
  (forall t, sleeping (vk (vs x)) t ChDisk -> few (vfree (vs x))).
Proof.
  intros Hu E0 Hr. pose proof (booted_inv _ _ _ _ Hu E0 Hr) as Hi. clear Hu E0. destruct x as [s' dk da tk m]. clear s. rename s' into s. cbn [vs vdisk phases] in *. split_and!.
  - intros t b w d Hrun Hm. eapply wp_mono; [by eapply rw_start_spec|done].
  - intros t b w d i0 i1 i2 Hrun Hm. eapply wp_mono; [by eapply rw_wait_spec|]. intros r s' [_ Hd]. exact Hd.
  - intros me Hc. eapply wp_mono; [by eapply intr_spec|]. by intros ? s' (_ & ? & _).
  - exact (iv_sleep_buf _ Hi).
  - exact (iv_sleep_free _ Hi).
Qed.

(** The device takes, then completes, all that is queued. *)
Lemma take_all n s dk da tk m : vinv (mk_vsys s dk da tk m) -> length (qavail (mk_vsys s dk da tk m)) = n ->
  exists da' tk', rtc dstep (mk_vsys s dk da tk m) (mk_vsys s dk da' tk' m) /\ vinv (mk_vsys s dk da' tk' m) /\ da' = avail_idx s.
Proof.
  revert da tk. induction n as [|n IH]; intros da tk Hi Hn; [exists da, tk; split_and!; [constructor|done|]|].
  { pose proof (length_rcontents 16 8 ltac:(lia) (avail s) da (avail_idx s)) as L1. unfold qavail in Hn. cbn [vs dav] in Hn. destruct (iv_idx _ Hi) as (I1 & I2 & _).
    cbn [vs dav] in I1, I2. symmetry. apply (proj1 (rcount_zero 16 8 ltac:(lia) ltac:(lia) da (avail_idx s) I1 I2)). lia. }
  assert (da <> avail_idx s) as Hne by (intros ->; unfold qavail in Hn; cbn [vs dav] in Hn; by rewrite (rcontents_empty 16 8) in Hn by lia).
  pose proof (vinv_take _ _ _ _ _ Hi Hne) as Hi'. destruct (IH _ _ Hi') as (da' & tk' & Hr & Hi2 & Hq); [|exists da', tk'; split_and!; [|done|done]; eapply rtc_l; [by apply d_take|exact Hr]].
  pose proof (length_rcontents 16 8 ltac:(lia) (avail s) da (avail_idx s)) as L1. pose proof (length_rcontents 16 8 ltac:(lia) (avail s) (u16 (da + 1)) (avail_idx s)) as L2.
  unfold qavail in *. cbn [vs dav] in *. pose proof (rcount_take 16 ltac:(lia) da (avail_idx s) ltac:(lia)). unfold u16 in *. lia.
Qed.

Lemma io_all tk s dk da m : vinv (mk_vsys s dk da tk m) -> exists s' dk', rtc dstep (mk_vsys s dk da tk m) (mk_vsys s' dk' da [] m) /\ vinv (mk_vsys s' dk' da [] m) /\
  avail s' = avail s /\ avail_idx s' = avail_idx s.
Proof.
  revert s dk. induction tk as [|h tk IH]; intros s dk Hi; [exists s, dk; split_and!; [constructor|done..]|].
  assert (h ∈ queue (mk_vsys s dk da (h :: tk) m)) as Hq by (unfold queue; cbn [dtaken]; rewrite !elem_of_app, elem_of_cons; by right; left; left).
  destruct (iv_queue _ Hi h Hq) as (t & b & w & d & i0 & i1 & i2 & -> & Hm & _). cbn [phases] in Hm.
  pose proof (device_io_eq s dk b w i0 i1 i2 (iv_form _ Hi _ _ _ _ _ _ _ Hm) (iv_block _ Hi _ _ Hm)) as Eio.
  destruct (moved s dk b w) as [s1 dk1] eqn:Em. cbv zeta in Eio. set (s2 := set_used _ _ _) in Eio. assert (avail s2 = avail s /\ avail_idx s2 = avail_idx s) as [<- <-].
  { unfold moved in Em. destruct w; by injection Em as <- <-. }
  destruct (IH s2 dk1) as (s' & dk' & Hr & Hi' & Ha); [by eapply (vinv_io s dk da [])|]. exists s', dk'. split_and!; [|done|apply Ha..].
  eapply rtc_l; [by apply (d_io s dk da [])|exact Hr].
Qed.

(** A request that no queue has is done; with the queues empty, all are. *)
Lemma drained_done s dk da m : vinv (mk_vsys s dk da [] m) -> qavail (mk_vsys s dk da [] m) = [] -> used_idx s = used_dev_idx s ->
  (forall b, ddisk (dbufs s b) = false) /\ (forall t b, ~ sleeping (vk s) t (ChBuf b)) /\
  (forall t b w d i0 i1 i2, m !! t = Some (PWait b w d i0 i1 i2) -> is_done s dk b d).
Proof.
  intros I3 Qa Eu. assert (queue (mk_vsys s dk da [] m) = []) as Hq.
  { unfold queue. rewrite Qa. unfold qused. cbn [vs dtaken]. by rewrite Eu, (rcontents_empty 16 8) by lia. }
  assert (forall b, ddisk (dbufs s b) = false) as Hd.
  { intros b. destruct (ddisk (dbufs s b)) eqn:Ed; [|done]. destruct (iv_idle _ I3 b Ed) as (t & w & d & i0 & i1 & i2 & Hm). pose proof (iv_busy _ I3 _ _ _ _ _ _ _ Hm Ed) as Hin.
    rewrite Hq in Hin. by apply elem_of_nil in Hin. }
  split_and!; [done| |].
  - intros t b Hs. pose proof (iv_sleep_buf _ I3 t b Hs) as Hb. cbn [vs] in Hb. by rewrite Hd in Hb.
  - intros t b w d i0 i1 i2 Hm. destruct (iv_done _ I3 _ _ _ _ _ _ _ Hm) as [Hdn _]; [|done]. intros Hin. assert (Z.of_nat i0 ∈ queue (mk_vsys s dk da [] m)) as Hin2 by (unfold queue; rewrite app_assoc, elem_of_app; by left).
    rewrite Hq in Hin2. by apply elem_of_nil in Hin2.
Qed.

Lemma dstep_phases x x' : rtc dstep x x' -> phases x' = phases x.
Proof. induction 1 as [|x y z Hd _ IH]; [done|]. rewrite IH. by destruct Hd. Qed.

(** C32: From every reachable state the device can work until it has nothing left to
    do, by steps of its own; and whenever it has, in whatever order
    it took and completed the requests, one run of [virtio_disk_intr] leaves every
    request that was waited for done and seen: no buffer belongs to the disk, no
    process sleeps for one any more, and each call finds its buffer and its block on the
    disk equal to what was to be written, or to what the block held. *)
Theorem virtio_requests_complete s s0 dk0 x : unused s -> virtio_disk_init s = Ret tt s0 -> rtc vstep (vboot s0 dk0) x ->
  (exists y, rtc dstep x y /\ device_idle y) /\
  forall y me, rtc dstep x y -> device_idle y -> cur_ok me (vk (vs y)) -> wp (virtio_disk_intr me (vs y)) (fun _ s' =>
    (forall b, ddisk (dbufs s' b) = false) /\ (forall t b, ~ sleeping (vk s') t (ChBuf b)) /\
    (forall t b w d i0 i1 i2, phases x !! t = Some (PWait b w d i0 i1 i2) -> is_done s' (vdisk y) b d)).
Proof.
  intros Hu E0 Hr. pose proof (booted_inv _ _ _ _ Hu E0 Hr) as Hi. clear Hu E0 Hr. split.
  - destruct x as [s' dk da tk m]. destruct (take_all _ _ _ _ _ _ Hi eq_refl) as (da' & tk' & R1 & I1 & Q1).
    destruct (io_all _ _ _ _ _ I1) as (s2 & dk' & R2 & I2 & Ea & Eb). eexists. split; [etrans; [exact R1|exact R2]|]. split; [cbn; congruence|done].
  - intros y me Hd [Ei Et] Hc. rewrite <- (dstep_phases x y Hd). assert (vinv y) as Hy by (clear -Hi Hd; induction Hd; [done|]; eauto using dstep_inv).
    destruct y as [s' dk da tk m]. cbn [vs dav dtaken vdisk phases] in *. subst tk. eapply wp_mono; [by eapply intr_spec|].
    intros [] s2 (I3 & Eu & Ea & Eb). apply (drained_done s2 dk da m I3); [|done]. unfold qavail. cbn [vs dav]. by rewrite Ei, Eb, (rcontents_empty 16 8) by lia.
Qed.
End system.

(** ** The properties at work *)

#[local] Existing Instance demo_linker.
#[local] Existing Instance demo_symbols.

(** A disk with a queue of eight that accepts all features offered. *)
Definition demo_disk : Mmio unit := {|
  mread := fun r d => (if r =? VIRTIO_MMIO_MAGIC_VALUE then 0x74726976 else if r =? VIRTIO_MMIO_VERSION then 2 else if r =? VIRTIO_MMIO_DEVICE_ID then 2
    else if r =? VIRTIO_MMIO_VENDOR_ID then 0x554d4551 else if r =? VIRTIO_MMIO_STATUS then 11 else if r =? VIRTIO_MMIO_QUEUE_NUM_MAX then 8 else 0, d);
  mwrite := fun _ _ d => d |}.
#[local] Existing Instance demo_disk.

Definition demo_heap : phys := final kinit demo0.
Definition demo_off : vst ram unit :=
  mk_vst (set_ph demo_heap demo_k) tt (0, 0, 0) (fun _ => zero_desc) [] 0 [] 0 (fun _ => false) 0 (fun _ => mk_vinfo None 0) (fun _ => mk_req 0 0 0) (fun b => mk_dbuf b false [Z.of_nat b]).

Lemma demo_off_unused : unused demo_off.
Proof. split; [done|done|]. intros t c _ [Ht Hs]. destruct t as [|[|t]]; [by destruct Hs|by destruct Hs|simpl in Ht; lia]. Qed.

Lemma demo_on : exists s0, virtio_disk_init demo_off = Ret tt s0 /\ running (vk s0) 0 /\ dbufs s0 1%nat = mk_dbuf 1 false [1].
Proof.
  assert (match virtio_disk_init demo_off with
    | Ret _ s0 => (0 <? length (procs (vk s0)))%nat && bool_decide (pstate (procs (vk s0) !!! 0%nat) = RUNNING) &&
        let x := dbufs s0 1%nat in (dblockno x =? 1) && negb (ddisk x) && bool_decide (ddata x = [1])
    | _ => false end = true) as Hc by (vm_compute; reflexivity).
  destruct (virtio_disk_init demo_off) as [[] s0| |]; [|done..]. exists s0. split; [reflexivity|]. cbv zeta in Hc. rewrite !andb_true_iff, Nat.ltb_lt, !bool_decide_eq_true, negb_true_iff, Z.eqb_eq in Hc.
  destruct Hc as [[H1 H2] [[H3 H4] H5]]. split; [done|]. destruct (dbufs s0 1%nat). simpl in *. congruence.
Qed.

(** Process 0 writes the block of buffer 1. *)
Definition demo_write (s0 : vst ram unit) : vsys := mk_vsys s0 (fun _ => []) 0 [] {[0%nat := PAlloc 1 true [1]]}.

Lemma demo_call s0 : running (vk s0) 0 -> dbufs s0 1%nat = mk_dbuf 1 false [1] -> rtc vstep (vboot s0 (fun _ => [])) (demo_write s0).
Proof.
  intros Hr Hb. apply rtc_once. pose proof (v_call s0 (fun _ => []) 0 [] ∅ 0 1 true Hr) as Hc. rewrite Hb in Hc. apply Hc; [done|cbn; lia|]. intros t p Hp. by rewrite lookup_empty in Hp.
Qed.

Lemma virtio_disk_correct_witness : exists s0 r s', virtio_disk_init demo_off = Ret tt s0 /\ rw_start 0 1 true s0 = Ret r s'.
Proof.
  destruct demo_on as (s0 & E & Hr & Hb). destruct (virtio_disk_correct demo_off s0 (fun _ => []) (demo_write s0) demo_off_unused E (demo_call s0 Hr Hb)) as [Hs _].
  destruct (wp_inv _ _ (Hs 0%nat 1%nat true [1] Hr (lookup_singleton_eq _ _))) as (r & s' & E' & _). exists s0, r, s'. exact (conj E E').
Defined.

Lemma demo_started : exists s0 s1, virtio_disk_init demo_off = Ret tt s0 /\ running (vk s0) 0 /\ dbufs s0 1%nat = mk_dbuf 1 false [1] /\ rw_start 0 1 true s0 = Ret (Some (0, 1, 2)%nat) s1.
Proof.
  destruct demo_on as (s0 & E & Hr & Hb).
  assert (match virtio_disk_init demo_off with
    | Ret _ s0 => match rw_start 0 1 true s0 with Ret r _ => bool_decide (r = Some (0, 1, 2)%nat) | _ => false end
    | _ => false end = true) as Hc by (vm_compute; reflexivity).
  rewrite E in Hc. destruct (rw_start 0 1 true s0) as [r s1| |] eqn:Es; [|discriminate..]. apply bool_decide_eq_true in Hc as ->. exists s0, s1. exact (conj E (conj Hr (conj Hb Es))).
Qed.

(** The block that the call was to write is on the disk when the device is done. *)
Lemma virtio_requests_complete_witness : exists s0 s1 y s', virtio_disk_init demo_off = Ret tt s0 /\ rw_start 0 1 true s0 = Ret (Some (0, 1, 2)%nat) s1 /\
  rtc dstep (mk_vsys s1 (fun _ => []) 0 [] {[0%nat := PWait 1 true [1] 0 1 2]}) y /\ virtio_disk_intr None (vs y) = Ret tt s' /\
  ddisk (dbufs s' 1) = false /\ vdisk y (dblockno (dbufs s' 1)) = [1].
Proof.
  destruct demo_started as (s0 & s1 & E & Hr & Hb & Es). set (x1 := mk_vsys s1 (fun _ => []) 0 [] {[0%nat := PWait 1 true [1] 0 1 2]}).
  assert (rtc vstep (vboot s0 (fun _ => [])) x1) as R1.
  { eapply rtc_r; [exact (demo_call s0 Hr Hb)|]. unfold x1. rewrite <- (insert_singleton_eq (M := gmap nat) 0%nat (PWait 1 true [1] 0 1 2) (PAlloc 1 true [1])).
    exact (v_start s0 (fun _ => []) 0 [] {[0%nat := PAlloc 1 true [1]]} 0 1 true [1] (Some (0, 1, 2)%nat) s1 Hr (lookup_singleton_eq _ _) Es). }
  destruct (virtio_requests_complete demo_off s0 (fun _ => []) x1 demo_off_unused E R1) as [(y & Hy & Hidle) Hall].
  destruct (wp_inv _ _ (Hall y None Hy Hidle ltac:(done))) as ([] & s' & Ei & Hd & _ & Hx). exists s0, s1, y, s'.
  split; [exact E|]. split; [exact Es|]. split; [exact Hy|]. split; [exact Ei|]. split; [apply Hd|].
  apply (Hx 0%nat 1%nat true [1] 0%nat 1%nat 2%nat). apply lookup_singleton_eq.
Defined.
