(* ===== verification/Sched.v ===== *)
(** * Scheduling (kernel/proc.c, [scheduler])

    The scheduler's loop runs every process that is ready.  What a process does between being switched to and calling
    [sched] is an argument [run]. *)

From S2P Require Import Prelude Riscv Mem Kstring Kalloc Vm VmProc Block Bio Spinlock Store Fs Kernel Proc Pipe File Fork Syscall Sysfile Exec Trap PipeThms FileThms ProcThms VmThms Sleeplock Printf Console ConsoleThms Virtio VirtioThms.

(** ** The scheduler *)

Section scheduler.
Context `{Linker} `{Symbols} {St : Type} {ST : Store St}.

(** One pass of the inner [for]: the processes that were run, in order. *)
Fixpoint sched_scan (run : nat -> M (tst St) unit) (k i : nat) : M (tst St) (list nat) :=
  match k with
  | O => mret []
  | S k =>
      p ← on_k (get_proc i);
      l ← (if decide (pstate p = RUNNABLE) then
             on_k (upd_proc i (with_pstate RUNNING));; run i;; mret [i]
           else mret []);
      r ← sched_scan run k (S i);
      mret (l ++ r)
  end.

Definition scheduler_round (run : nat -> M (tst St) unit) : M (tst St) (list nat) :=
  on_h intr_on;; sched_scan run NPROCn 0.

(** *** Processes that stay ready *)

Definition ready (j : nat) (s : kst St) : Prop := (j < length (procs s))%nat /\ pstate (procs s !!! j) = RUNNABLE.

Definition stays (j : nat) {A} (c : M (kst St) A) : Prop := forall s a s', c s = Ret a s' -> ready j s -> ready j s'.

Context (j : nat).

Lemma stays_ret {A} (a : A) : stays j (mret a).
Proof. by intros s a' s' [= <- <-]. Qed.

Lemma stays_panic {A} m : stays j (A := A) (panic m).
Proof. done. Qed.

Lemma stays_diverge {A} : stays j (A := A) diverge.
Proof. done. Qed.

Lemma stays_gets {A} (f : kst St -> A) : stays j (gets f).
Proof. by intros s a s' [= <- <-]. Qed.

Lemma stays_bind {A B} (c : M (kst St) A) (k : A -> M (kst St) B) : stays j c -> (forall a, stays j (k a)) -> stays j (c ≫= k).
Proof. intros Hc Hk s b s' (a & s1 & E1 & E2)%bind_inv Hr. eapply Hk; [done|]. by eapply Hc. Qed.

Lemma stays_on_fs {A} (c : M (fsst St) A) : stays j (on_fs c).
Proof. intros s a s'. unfold on_fs, zoom. destruct (c _); [|done|done]. by intros [= <- <-]. Qed.

Lemma stays_modify f : (forall s, procs (f s) = procs s) -> stays j (modify f).
Proof. intros Hf s [] s' [= <-]. unfold ready. by rewrite Hf. Qed.

Lemma stays_upd i f : i <> j \/ (forall p, pstate (f p) = pstate p) -> stays j (upd_proc i f).
Proof.
  intros Hf s [] s' [= <-] [Hl Hs]. unfold ready. simpl. rewrite length_insert. split; [done|]. rewrite procs_upd by done.
  destruct (decide (j = i)) as [->|]; [|done]. destruct Hf as [?|Ef]; [done|rewrite Ef]; done.
Qed.

Lemma stays_runnable i : stays j (upd_proc i (with_pstate RUNNABLE)).
Proof.
  intros s [] s' [= <-] [Hl Hs]. unfold ready. simpl. rewrite length_insert. split; [done|]. rewrite procs_upd by done.
  by destruct (decide (j = i)).
Qed.

Lemma stays_upd_file f g : stays j (upd_file f g).
Proof. by apply stays_modify. Qed.

Lemma stays_wakeup me ch : stays j (wakeup me ch).
Proof.
  intros s [] s' [= <-] [Hl Hs]. fold (woken me ch s). split; [by rewrite length_woken|]. rewrite proc_woken by done.
  by destruct (wakes _ _ _ _).
Qed.
End scheduler.

Create HintDb stays.
#[export] Hint Resolve stays_ret stays_panic stays_diverge stays_gets stays_on_fs stays_upd_file stays_wakeup stays_runnable : stays.

(** Walk through a command that leaves the ready ones ready. *)
Ltac stay := repeat first
  [ solve [eauto with stays]
  | apply stays_bind; [|intros]
  | apply stays_modify; done
  | apply stays_upd; solve [eauto]
  | case_match
  | progress unfold get_proc, get_file, get_pipe, set_pipe, on_mem_k, tf_load, tf_store, begin_op_k, end_op_k ].

Section turns.
Context `{Linker} `{Symbols} {St : Type} {ST : Store St}.
Context (devread devwrite : Z -> option (Z -> Z -> M (kst St) Z)) (pad : list Z) (uartintr virtio_disk_intr : M (kst St) unit).
Context (me j : nat) (Hj : me <> j).
Context (Hread : forall d f a n, devread d = Some f -> stays j (f a n)) (Hwrite : forall d f a n, devwrite d = Some f -> stays j (f a n)).
Context (Huart : stays j uartintr) (Hdisk : stays j virtio_disk_intr).

Lemma stays_arg n : stays (St := St) j (argint me n).
Proof. unfold argint, argraw. stay. Qed.
Lemma stays_argaddr n : stays (St := St) j (argaddr me n).
Proof. unfold argaddr, argraw. stay. Qed.
Lemma stays_fetchstr a n : stays (St := St) j (fetchstr me a n).
Proof. unfold fetchstr. stay. Qed.
Hint Resolve stays_arg stays_argaddr stays_fetchstr : stays.
Lemma stays_argstr n m : stays (St := St) j (argstr me n m).
Proof. unfold argstr. stay. Qed.
Lemma stays_argfd n : stays (St := St) j (argfd me n).
Proof. unfold argfd. stay. Qed.
Lemma stays_fdalloc f : stays (St := St) j (fdalloc me f).
Proof. unfold fdalloc. stay. Qed.
Lemma stays_pid_cwd : stays (St := St) j (pid_cwd me).
Proof. unfold pid_cwd. stay. Qed.
Lemma stays_killed : stays (St := St) j (killed me).
Proof. unfold killed. stay. Qed.
Lemma stays_sleep ch : stays (St := St) j (sleep me ch).
Proof. unfold sleep. stay. Qed.
Hint Resolve stays_argstr stays_argfd stays_fdalloc stays_pid_cwd stays_killed stays_sleep : stays.

(** **** Pipes and files *)

Lemma stays_pipeclose pi w : stays (St := St) j (pipeclose me pi w).
Proof. unfold pipeclose. stay. Qed.
Hint Resolve stays_pipeclose : stays.

Lemma stays_fileclose f : stays (St := St) j (fileclose me f).
Proof. unfold fileclose. stay. Qed.
Lemma stays_filealloc : stays (St := St) j filealloc.
Proof. unfold filealloc. stay. Qed.
Lemma stays_filedup f : stays (St := St) j (filedup f).
Proof. unfold filedup. stay. Qed.
Hint Resolve stays_fileclose stays_filealloc stays_filedup : stays.

Lemma stays_pipewrite_from k pi a n i : stays (St := St) j (pipewrite_from k me pi a n i).
Proof. revert i. induction k as [|k IH]; intros i; cbn [pipewrite_from]; unfold pipewrite_iter; stay. Qed.
Hint Resolve stays_pipewrite_from : stays.
Lemma stays_pipewrite pi a n : stays (St := St) j (pipewrite me pi a n).
Proof. unfold pipewrite. stay. Qed.

Lemma stays_piperead_loop k pi a n i : stays (St := St) j (piperead_loop k me pi a n i).
Proof. revert i. induction k as [|k IH]; intros i; cbn [piperead_loop]; unfold piperead_iter; stay. Qed.
Hint Resolve stays_piperead_loop stays_pipewrite : stays.
Lemma stays_piperead_from pi a n : stays (St := St) j (piperead_from me pi a n).
Proof. unfold piperead_from, piperead_wait. stay. Qed.
Hint Resolve stays_piperead_from : stays.
Lemma stays_piperead pi a n : stays (St := St) j (piperead me pi a n).
Proof. unfold piperead. stay. Qed.
Hint Resolve stays_piperead : stays.

Lemma stays_filewrite_loop k f a n i : stays (St := St) j (filewrite_loop k me f a n i).
Proof. revert i. induction k as [|k IH]; intros i; cbn [filewrite_loop]; unfold filewrite_chunk; stay. Qed.
Hint Resolve stays_filewrite_loop : stays.
Lemma stays_filewrite f a n : stays j (filewrite devwrite me f a n).
Proof. unfold filewrite. stay. Qed.
Lemma stays_fileread f a n : stays j (fileread devread me f a n).
Proof. unfold fileread. stay. Qed.
Lemma stays_pipealloc_bad f0 f1 : stays (St := St) j (pipealloc_bad me f0 f1).
Proof. unfold pipealloc_bad. stay. Qed.
Hint Resolve stays_filewrite stays_fileread stays_pipealloc_bad : stays.
Lemma stays_pipealloc : stays (St := St) j (pipealloc me).
Proof. unfold pipealloc. stay. Qed.
Hint Resolve stays_pipealloc : stays.

(** **** Processes *)

Lemma stays_freeproc i : i <> j -> stays (St := St) j (freeproc i).
Proof. intros Hi. unfold freeproc. stay. Qed.
Hint Resolve stays_freeproc : stays.

(** The entry [allocproc] takes was not ready. *)
Lemma allocproc_ready s r s' : allocproc s = Ret r s' -> ready (St := St) j s -> ready j s' /\ r <> Some j.
Proof.
  unfold allocproc. intros (ps & s1 & [= <- <-] & E)%bind_inv Hr. destruct (find_unused _ _ _) as [np|] eqn:Ef; [|by injection E as <- <-].
  assert (np <> j) as Hne by (intros ->; apply find_unused_spec in Ef as [_ Eu]; destruct Hr; congruence).
  clear Ef. split.
  - match type of E with ?c _ = _ => assert (stays (St := St) j c) as Hs; [unfold allocpid; stay|exact (Hs _ _ _ E Hr)] end.
  - intros ->. repeat (case_match || (apply bind_inv in E as (? & ? & _ & E))); first [discriminate E|by injection E].
Qed.

Lemma stays_fork_files np k i : np <> j -> stays (St := St) j (fork_files k i me np).
Proof. intros Hn. revert i. induction k as [|k IH]; intros i; cbn [fork_files]; stay. Qed.
Hint Resolve stays_fork_files : stays.

Lemma stays_fork : stays (St := St) j (fork me).
Proof.
  intros s a s'. unfold fork. generalize NOFILEn. intros nf (r & s1 & E1 & E)%bind_inv Hr. apply allocproc_ready in E1 as [Hr1 Hne]; [|done].
  destruct r as [np|]; [|by injection E as <- <-]. assert (np <> j) as Hn by congruence.
  match type of E with ?c _ = _ => assert (stays (St := St) j c) as Hs; [stay|exact (Hs _ _ _ E Hr1)] end.
Qed.

Lemma stays_reparent k i : stays (St := St) j (reparent_loop k i me).
Proof. revert i. induction k as [|k IH]; intros i; cbn [reparent_loop]; stay. Qed.
Lemma stays_exit_files k i : stays (St := St) j (exit_files k i me).
Proof. revert i. induction k as [|k IH]; intros i; cbn [exit_files]; stay. Qed.
Hint Resolve stays_fork stays_reparent stays_exit_files : stays.

Lemma stays_exit st : stays (St := St) j (exit me st).
Proof. unfold exit, exit_locked, reparent. stay. Qed.

Lemma stays_kill_loop k i pid : stays (St := St) j (kill_loop k i pid).
Proof. revert i. induction k as [|k IH]; intros i; cbn [kill_loop]; stay. Qed.
Lemma stays_kill pid : stays (St := St) j (kill pid).
Proof. apply stays_kill_loop. Qed.

(** Only a zombie is released. *)
Lemma stays_wait_scan k i a hk : stays (St := St) j (wait_scan k i me a hk).
Proof.
  revert i hk. induction k as [|k IH]; intros i hk; cbn [wait_scan]; [stay|].
  intros s r s' (p & s1 & [= <- <-] & E)%bind_inv Hr. destruct (decide (parent _ = _)); [|by eapply IH].
  destruct (decide (pstate _ = ZOMBIE)) as [Ez|]; [|by eapply IH].
  assert (i <> j) as Hi by (intros ->; destruct Hr; congruence).
  match type of E with ?c _ = _ => assert (stays (St := St) j c) as Hs; [stay|exact (Hs _ _ _ E Hr)] end.
Qed.
Hint Resolve stays_exit stays_kill stays_wait_scan : stays.

Lemma stays_wait_pass a : stays (St := St) j (wait_pass me a).
Proof. unfold wait_pass. stay. Qed.
Lemma stays_sleep_pass t n : stays (St := St) j (sleep_pass me t n).
Proof. unfold sleep_pass. stay. Qed.
Lemma stays_clockintr o : stays (St := St) j (clockintr o).
Proof. unfold clockintr. stay. Qed.
Hint Resolve stays_wait_pass stays_sleep_pass stays_clockintr : stays.

(** **** [exec] *)

Lemma stays_loadseg k pt va ip off sz i : stays (St := St) j (loadseg_loop k pt va ip off sz i).
Proof. revert i. induction k as [|k IH]; intros i; cbn [loadseg_loop]; stay. Qed.
Hint Resolve stays_loadseg : stays.
Lemma stays_load_segments k pt ip off sz : stays (St := St) j (load_segments k pt ip off sz).
Proof. revert off sz. induction k as [|k IH]; intros off sz; cbn [load_segments]; unfold loadseg; stay. Qed.
Lemma stays_push_args l pt top base us : stays (St := St) j (push_args l pt top base us).
Proof. revert top us. induction l as [|b l IH]; intros top us; cbn [push_args]; stay. Qed.
Lemma stays_free_args l : stays (St := St) j (free_args l).
Proof. induction l; cbn [free_args]; stay. Qed.
Lemma stays_fetch_args k u i ps l : stays (St := St) j (fetch_args k me u i ps l).
Proof. revert i ps l. induction k as [|k IH]; intros i ps l; cbn [fetch_args]; unfold fetchaddr; stay. Qed.
Hint Resolve stays_load_segments stays_push_args stays_free_args stays_fetch_args : stays.
Lemma stays_exec path l : stays (St := St) j (exec me path l).
Proof. unfold exec, exec_bad_ip, exec_stack, exec_bad, exec_commit. stay. Qed.
Hint Resolve stays_exec : stays.

(** **** The whole of a trap *)

Lemma stays_returns c : stays j c -> stays (St := St) j (returns c).
Proof. intros Hc. unfold returns. stay. Qed.

Lemma stays_unlink pid dp ip off : stays (St := St) j (unlink_found pid dp ip off).
Proof. unfold unlink_found, unlink_bad. stay. Qed.
Lemma stays_open_inode pid d path om : stays (St := St) j (open_inode pid d path om).
Proof. unfold open_inode. stay. Qed.
Lemma stays_open_file pid ip f om : stays (St := St) j (open_file pid ip f om).
Proof. unfold open_file. stay. Qed.
Lemma stays_make_node path t a b : stays (St := St) j (make_node me path t a b).
Proof. unfold make_node. stay. Qed.
Lemma stays_pipe_undo a b c d : stays (St := St) j (pipe_undo me a b c d).
Proof. unfold pipe_undo, clear_fd. stay. Qed.
Lemma stays_growproc n : stays (St := St) j (growproc me n).
Proof. unfold growproc. stay. Qed.
Hint Resolve stays_unlink stays_open_inode stays_open_file stays_make_node stays_pipe_undo stays_growproc : stays.

Lemma stays_syscalls num c : syscalls devread devwrite pad me num = Some c -> stays j c.
Proof.
  unfold syscalls. intros E. repeat (case_match; try discriminate); apply Some_inj in E as <-;
    try match goal with |- stays _ (returns _) => apply stays_returns end;
    unfold sys_fork, sys_exit, sys_wait, sys_pipe, sys_read, sys_kill, sys_exec, sys_fstat, filestat, sys_chdir, sys_dup, sys_getpid,
      sys_sbrk, sys_sleep, sys_uptime, sys_open, open_fail, sys_write, sys_mknod, sys_unlink, unlink_bad, sys_link, link_bad, sys_mkdir,
      sys_close, clear_fd; stay.
Qed.
Hint Resolve stays_syscalls : stays.

Lemma stays_syscall : stays j (syscall devread devwrite pad me).
Proof. unfold syscall. stay. Qed.
Hint Resolve stays_syscall : stays.

(** The same of a computation with the CPU's registers. *)
Definition tstays {A} (c : M (tst St) A) : Prop := forall s a s', c s = Ret a s' -> ready j (tk s) -> ready j (tk s').

Lemma tstays_ret {A} (a : A) : tstays (mret a).
Proof. by intros s a' s' [= <- <-]. Qed.
Lemma tstays_panic {A} m : tstays (A := A) (panic m).
Proof. done. Qed.
Lemma tstays_bind {A B} (c : M (tst St) A) (k : A -> M (tst St) B) : tstays c -> (forall a, tstays (k a)) -> tstays (c ≫= k).
Proof. intros Hc Hk s b s' (a & s1 & E1 & E2)%bind_inv Hr. eapply Hk; [done|]. by eapply Hc. Qed.
Lemma tstays_k {A} (c : M (kst St) A) : stays j c -> tstays (on_k c).
Proof. intros Hc s a s'. unfold on_k, zoom. destruct (c (tk s)) eqn:E; [|done|done]. intros [= <- <-] Hr. by eapply Hc. Qed.
Lemma tstays_h {A} (c : M hart A) : tstays (on_h c).
Proof. intros s a s'. unfold on_h, zoom. destruct (c _); [|done|done]. by intros [= <- <-]. Qed.

Ltac tstay := repeat (intros; lazymatch goal with
  | |- tstays (mret _) => apply tstays_ret
  | |- tstays (panic _) => apply tstays_panic
  | |- tstays (on_h _) => apply tstays_h
  | |- tstays (on_k _) => apply tstays_k; unfold killed, setkilled, yield; solve [stay]
  | |- tstays (_ ≫= _) => apply tstays_bind
  | |- tstays (match _ with _ => _ end) => case_match
  | K : tstays ?c |- tstays ?c => exact K
  | K : forall d, tstays (?f d) |- tstays (?f _) => apply K
  end).

Lemma tstays_devintr cpu cur irq : tstays (devintr uartintr virtio_disk_intr cpu cur irq).
Proof. unfold devintr. tstay. Qed.
Lemma tstays_usertrapret : tstays (usertrapret (St := St) me).
Proof. unfold usertrapret. tstay. Qed.
Lemma tstays_tail d : tstays (usertrap_tail (St := St) me d).
Proof. pose proof tstays_usertrapret. unfold usertrap_tail. tstay. Qed.

Lemma tstays_usertrap cpu irq : tstays (usertrap devread devwrite pad uartintr virtio_disk_intr cpu irq me).
Proof. pose proof tstays_tail. pose proof (tstays_devintr cpu (Some me) irq). unfold usertrap. tstay. Qed.

Lemma tstays_kerneltrap cpu irq : tstays (kerneltrap uartintr virtio_disk_intr cpu irq (Some me)).
Proof. pose proof (tstays_devintr cpu (Some me) irq). unfold kerneltrap. tstay. Qed.
End turns.

(** *** Drivers and sleep locks *)

(** The code of a component with a state of its own around the kernel's,
    run when that state is [x]. *)
Definition within {St S A} (get : S -> kst St) (put : kst St -> S -> S) (x : S) (c : M S A) : M (kst St) A :=
  fun k => match c (put k x) with Ret a s => Ret a (get s) | Panic m => Panic m | Diverge => Diverge end.

Section drivers.
Context `{Linker} {St : Type} {S : Type} (get : S -> kst St) (put : kst St -> S -> S) (j : nat).
Context (get_put : forall k x, get (put k x) = k).

Definition xstays {A} (c : M S A) : Prop := forall s a s', c s = Ret a s' -> ready j (get s) -> ready j (get s').

Lemma xstays_ret {A} (a : A) : xstays (mret a).
Proof. by intros s a' s' [= <- <-]. Qed.
Lemma xstays_panic {A} m : xstays (A := A) (panic m).
Proof. done. Qed.
Lemma xstays_diverge {A} : xstays (A := A) diverge.
Proof. done. Qed.
Lemma xstays_gets {A} (f : S -> A) : xstays (gets f).
Proof. by intros s a s' [= <- <-]. Qed.
Lemma xstays_modify f : (forall s, get (f s) = get s) -> xstays (modify f).
Proof. intros Hf s [] s' [= <-]. by rewrite Hf. Qed.
Lemma xstays_bind {A B} (c : M S A) (k : A -> M S B) : xstays c -> (forall a, xstays (k a)) -> xstays (c ≫= k).
Proof. intros Hc Hk s b s' (a & s1 & E1 & E2)%bind_inv Hr. eapply Hk; [done|]. by eapply Hc. Qed.
Lemma xstays_zoom {A} (c : M (kst St) A) : stays j c -> xstays (zoom get put c).
Proof. intros Hc s a s'. unfold zoom. destruct (c (get s)) eqn:E; [|done|done]. intros [= <- <-] Hr. rewrite get_put. by eapply Hc. Qed.

Lemma stays_within {A} x (c : M S A) : xstays c -> stays j (within get put x c).
Proof. intros Hc k a k'. unfold within. destruct (c _) eqn:E; [|done|done]. intros [= <- <-] Hr. eapply Hc; [done|]. by rewrite get_put. Qed.
End drivers.

Create HintDb xstays.
#[export] Hint Resolve xstays_ret xstays_panic xstays_diverge xstays_gets : xstays.

Ltac xstay := repeat first
  [ solve [eauto with xstays]
  | apply xstays_bind; [|intros]
  | apply xstays_modify; done
  | apply xstays_zoom; [done|]; unfold killed, sleep; solve [stay]
  | case_match ].

Section console.
Context `{Linker} {St D : Type} `{Uart D} (me j : nat) (Hj : me <> j).
Abbreviation cstays := (xstays (St := St) (S := cst St D) ck j).

Lemma cstays_read r : cstays (readreg r).
Proof. intros s a s'. unfold readreg. destruct (ReadReg _ _). by intros [= <- <-]. Qed.
Hint Resolve cstays_read : xstays.
Lemma cstays_uartstart o : cstays (uartstart o).
Proof. unfold uartstart. generalize (S (Z.to_nat UART_TX_BUF_SIZE)). intros k. induction k as [|k IH]; cbn [uartstart_loop]; unfold writethr, on_ck; xstay. Qed.
Hint Resolve cstays_uartstart : xstays.
Lemma cstays_uartputc c : cstays (uartputc_pass me c).
Proof. unfold uartputc_pass, on_ck. xstay. Qed.
Lemma cstays_tx_wait k : cstays (tx_wait k).
Proof. induction k as [|k IH]; cbn [tx_wait]; xstay. Qed.
Hint Resolve cstays_uartputc cstays_tx_wait : xstays.
Lemma cstays_consputc k c : cstays (consputc k c).
Proof. unfold consputc, uartputc_sync, writethr. xstay. Qed.
Hint Resolve cstays_consputc : xstays.
Lemma cstays_consputs k l : cstays (consputs k l).
Proof. induction l as [|c l IH]; cbn [consputs]; xstay. Qed.
Hint Resolve cstays_consputs : xstays.
Lemma cstays_procdump k : cstays (procdump k).
Proof.
  assert (forall ps, cstays (procdump_loop k ps)) as Hl by (induction ps as [|p ps IH]; cbn [procdump_loop]; unfold kprintf; xstay).
  unfold procdump, kprintf. xstay.
Qed.
Lemma cstays_kill_line f k : cstays (kill_line f k).
Proof. induction f as [|f IH]; cbn [kill_line]; xstay. Qed.
Hint Resolve cstays_procdump cstays_kill_line : xstays.
Lemma cstays_uartintr f k o : cstays (uartintr f k o).
Proof. unfold uartintr. apply xstays_bind; [|intros; xstay]. induction f as [|f IH]; cbn [uart_rx]; unfold uartgetc, consoleintr, on_ck; xstay. Qed.
Lemma cstays_consoleread dst target n : cstays (consoleread_pass me dst target n).
Proof.
  unfold consoleread_pass. generalize (S (Z.to_nat n)). intros f. revert dst n. induction f as [|f IH]; intros dst n; cbn [consoleread_from];
    unfold consoleread_iter, on_ck; xstay.
Qed.
Lemma cstays_consolewrite src n i : cstays (consolewrite_pass me src n i).
Proof.
  unfold consolewrite_pass. generalize (S (Z.to_nat (n - i))). intros f. revert src i. induction f as [|f IH]; intros src i; cbn [consolewrite_from];
    unfold on_ck; xstay.
Qed.
End console.

Section disk.
Context `{Linker} {St D : Type} `{Mmio D} (me j : nat) (Hj : me <> j).
Abbreviation vstays := (xstays (St := St) (S := vst St D) vk j).

Lemma vstays_read r : vstays (rreg r).
Proof. intros s a s'. unfold rreg. destruct (mread _ _). by intros [= <- <-]. Qed.
Lemma vstays_free_desc i : vstays (free_desc me i).
Proof. unfold free_desc, put_desc, on_vk. xstay. Qed.
Hint Resolve vstays_read vstays_free_desc : xstays.
Lemma vstays_rw_start b w : vstays (rw_start me b w).
Proof. unfold rw_start, alloc3_desc, alloc_desc, rw_submit, put_desc, put_dbuf, wreg, on_vk. xstay. Qed.
Lemma vstays_rw_wait b i : vstays (rw_wait me b i).
Proof.
  assert (forall k i, vstays (free_chain k me i)) as Hf by (induction k as [|k IH]; intros i'; cbn [free_chain]; xstay).
  unfold rw_wait, on_vk. xstay.
Qed.
Lemma vstays_intr o : vstays (virtio_disk_intr o).
Proof.
  assert (forall k, vstays (intr_loop k o)) as Hl by (induction k as [|k IH]; cbn [intr_loop]; unfold put_dbuf, on_vk; xstay).
  unfold virtio_disk_intr, wreg. xstay.
Qed.
End disk.

Section locks.
Context `{Linker} {St : Type} (me j : nat) (Hj : me <> j).
Abbreviation lstays := (xstays (St := St) (S := slst St) slk j).

Lemma lstays_acquiresleep lk : lstays (acquiresleep_pass me lk).
Proof. unfold acquiresleep_pass, set_slock, sl_k, get_proc. xstay. Qed.
Lemma lstays_releasesleep lk : lstays (releasesleep me lk).
Proof. unfold releasesleep, set_slock, sl_k. xstay. Qed.
End locks.

(** *** One round *)

Section fair.
Context `{Linker} `{Symbols} {St : Type} {ST : Store St} {D Dk : Type} `{Uart D} `{Mmio Dk} (pad : list Z).

(** The drivers' code at a state of the console, of the disk driver, and
    of the sleep locks. *)
Definition console_at {A} (x : cst St D) (c : M (cst St D) A) : M (kst St) A := within ck set_ck x c.
Definition disk_at {A} (v : vst St Dk) (c : M (vst St Dk) A) : M (kst St) A := within vk set_vk v c.
Definition locks_at {A} (l : nat -> sleeplock) (c : M (slst St) A) : M (kst St) A :=
  fun k => within slk (fun k s => mk_slst k (slocks s)) (mk_slst k l) c k.

(** [devsw[CONSOLE].read] and [.write], which [consoleinit] sets: the call
    up to its end; one that has to sleep is cut into passes below. *)
Definition ended (c : M (kst St) (Z + Z)) : M (kst St) Z := r ← c; match r with inl _ => diverge | inr n => mret n end.
Definition devread (x : cst St D) (me : nat) (d : Z) : option (Z -> Z -> M (kst St) Z) :=
  if d =? 1 then Some (fun a n => p ← get_proc me; ended (console_at x (consoleread_pass me (UDst (pagetable p) a) n n))) else None.
Definition devwrite (x : cst St D) (me : nat) (d : Z) : option (Z -> Z -> M (kst St) Z) :=
  if d =? 1 then Some (fun a n => p ← get_proc me; ended (console_at x (consolewrite_pass me (USrc (pagetable p) a) n 0))) else None.

(** What happens while process [me] has the CPU.  Computations that leave
    the process table alone (user mode, the file system); changes to its own
    entry; traps, with whole system calls and interrupts; and the passes of
    calls that sleep: [wait], [sleep], pipes, the console, the disk, sleep locks, and the
    log, for which [ts_block] and [ts_wake] allow every channel.  The states
    [x], [v] and [l] of the drivers and of the locks are any at each step. *)
Inductive tstep (me : nat) : tst St -> tst St -> Prop :=
| ts_user s s' : procs (tk s') = procs (tk s) -> tstep me s s'
| ts_self f s r s' : on_k (upd_proc me f) s = Ret r s' -> tstep me s s'
| ts_trap x v f k cpu irq s r s' :
    usertrap (devread x me) (devwrite x me) pad (console_at x (uartintr f k (Some me))) (disk_at v (virtio_disk_intr (Some me))) cpu irq me s = Ret r s' -> tstep me s s'
| ts_ktrap x v f k cpu irq s r s' :
    kerneltrap (console_at x (uartintr f k (Some me))) (disk_at v (virtio_disk_intr (Some me))) cpu irq (Some me) s = Ret r s' -> tstep me s s'
| ts_wait a s r s' : on_k (wait_pass me a) s = Ret r s' -> tstep me s s'
| ts_sleep t n s r s' : on_k (sleep_pass me t n) s = Ret r s' -> tstep me s s'
| ts_pipewrite k pi a n i s r s' : on_k (pipewrite_from k me pi a n i) s = Ret r s' -> tstep me s s'
| ts_piperead pi a n s r s' : on_k (piperead_from me pi a n) s = Ret r s' -> tstep me s s'
| ts_consoleread x dst t n s r s' : on_k (console_at x (consoleread_pass me dst t n)) s = Ret r s' -> tstep me s s'
| ts_consolewrite x src n i s r s' : on_k (console_at x (consolewrite_pass me src n i)) s = Ret r s' -> tstep me s s'
| ts_rw_start v b w s r s' : on_k (disk_at v (rw_start me b w)) s = Ret r s' -> tstep me s s'
| ts_rw_wait v b i s r s' : on_k (disk_at v (rw_wait me b i)) s = Ret r s' -> tstep me s s'
| ts_acquiresleep l lk s r s' : on_k (locks_at l (acquiresleep_pass me lk)) s = Ret r s' -> tstep me s s'
| ts_releasesleep l lk s r s' : on_k (locks_at l (releasesleep me lk)) s = Ret r s' -> tstep me s s'
| ts_block ch s r s' : on_k (sleep me ch) s = Ret r s' -> tstep me s s'
| ts_wake ch s r s' : on_k (wakeup (Some me) ch) s = Ret r s' -> tstep me s s'.

Lemma stays_console {A} j x (c : M (cst St D) A) : xstays ck j c -> stays j (console_at x c).
Proof. by apply stays_within. Qed.
Lemma stays_disk {A} j v (c : M (vst St Dk) A) : xstays vk j c -> stays j (disk_at v c).
Proof. by apply stays_within. Qed.
Lemma stays_locks {A} j l (c : M (slst St) A) : xstays slk j c -> stays j (locks_at l c).
Proof. intros Hc k a k'. unfold locks_at. by eapply (stays_within slk). Qed.

Lemma stays_ended j c : stays j c -> stays j (ended c).
Proof. intros Hc. unfold ended. stay. Qed.

Lemma stays_devread me j x d f a n : me <> j -> devread x me d = Some f -> stays j (f a n).
Proof. intros Hj. unfold devread. case_match; [|done]. intros [= <-]. apply stays_bind; [unfold get_proc; stay|intros p]. by apply stays_ended, stays_console, cstays_consoleread. Qed.
Lemma stays_devwrite me j x d f a n : me <> j -> devwrite x me d = Some f -> stays j (f a n).
Proof. intros Hj. unfold devwrite. case_match; [|done]. intros [= <-]. apply stays_bind; [unfold get_proc; stay|intros p]. by apply stays_ended, stays_console, cstays_consolewrite. Qed.

Lemma tstep_stays me j s s' : me <> j -> tstep me s s' -> ready j (tk s) -> ready j (tk s').
Proof.
  intros Hj Hs. pose proof (fun x f k => stays_console j x _ (cstays_uartintr j f k (Some me))) as Hu.
  pose proof (fun v => stays_disk j v _ (vstays_intr j (Some me))) as Hd.
  assert (forall A (c : M (kst St) A) s r s', stays j c -> on_k c s = Ret r s' -> ready j (tk s) -> ready j (tk s')) as Hk.
  { intros A c s0 r0 s0' Hc Er. by eapply (tstays_k j c Hc). }
  destruct Hs; try (eapply Hk; [|eassumption]).
  - unfold ready. by rewrite H3.
  - apply stays_upd. by left.
  - eapply (tstays_usertrap _ _ pad _ _ me j Hj); [intros; by eapply stays_devread|intros; by eapply stays_devwrite|apply Hu|apply Hd|eassumption].
  - eapply (tstays_kerneltrap _ _ me j); [apply Hu|apply Hd|eassumption].
  - by apply stays_wait_pass.
  - by apply stays_sleep_pass.
  - by apply stays_pipewrite_from.
  - by apply stays_piperead_from.
  - by apply stays_console, cstays_consoleread.
  - by apply stays_console, cstays_consolewrite.
  - by apply stays_disk, vstays_rw_start.
  - by apply stays_disk, vstays_rw_wait.
  - by apply stays_locks, lstays_acquiresleep.
  - by apply stays_locks, lstays_releasesleep.
  - by apply stays_sleep.
  - apply stays_wakeup.
Qed.

Lemma tstep_ready me j s s' : me <> j -> rtc (tstep me) s s' -> ready j (tk s) -> ready j (tk s').
Proof. intros Hj Hr. induction Hr as [|s s1 s2 Hs _ IH]; [done|]. intros Hrd. apply IH. by eapply tstep_stays. Qed.

Context (run : nat -> M (tst St) unit).
Context (Hrun : forall i s, pstate (procs (tk s) !!! i) = RUNNING -> exists s', run i s = Ret tt s' /\ rtc (tstep i) s s').

Lemma sched_scan_spec k i s :
  wp (sched_scan run k i s) (fun l _ => Forall (fun j => (i <= j)%nat) l /\ NoDup l /\
    forall j, (i <= j < i + k)%nat -> ready j (tk s) -> j ∈ l).
Proof.
  revert i s. induction k as [|k IH]; intros i s; cbn [sched_scan].
  { apply wp_ret. split; [done|]. split; [constructor|]. intros j Hj. lia. }
  apply wp_bind. set (p := procs (tk s) !!! i).
  assert (on_k (get_proc i) s = Ret p s) as -> by (by destruct s). simpl. apply wp_bind.
  destruct (decide (pstate p = RUNNABLE)) as [Ep|Ep].
  - set (s1 := mk_tst (set_procs (<[i := with_pstate RUNNING p]> (procs (tk s))) (tk s)) (th s)).
    assert (on_k (upd_proc i (with_pstate RUNNING)) s = Ret tt s1) as E1 by done.
    assert (i < length (procs (tk s)))%nat as Hlt.
    { destruct (decide (i < length (procs (tk s)))%nat); [done|]. unfold p in Ep. rewrite list_lookup_total_alt, lookup_ge_None_2 in Ep by lia. done. }
    destruct (Hrun i s1) as (s2 & E2 & Hr); [simpl; by rewrite list_lookup_total_insert_eq|].
    rewrite (bind_ret_eq _ _ _ _ _ E1), (bind_ret_eq _ _ _ _ _ E2). apply wp_ret, wp_bind. eapply wp_mono; [apply (IH (S i) s2)|].
    intros l s3 (Hge & Hso & Hin). apply wp_ret. simpl. split; [constructor; [done|]; eapply Forall_impl; [done|simpl; lia]|].
    split; [constructor; [|done]; intros Hi; rewrite Forall_forall in Hge; specialize (Hge i Hi); lia|]. intros j Hj Hrj. destruct (decide (j = i)) as [->|Hne]; [by left|].
    right. apply Hin; [lia|]. eapply tstep_ready; [by apply not_eq_sym|done|]. destruct Hrj as [Hl Hs]. unfold ready. simpl.
    rewrite length_insert, procs_upd, decide_False by done. done.
  - apply wp_ret, wp_bind. eapply wp_mono; [apply (IH (S i) s)|]. intros l s3 (Hge & Hso & Hin). apply wp_ret. simpl.
    split; [eapply Forall_impl; [done|simpl; lia]|]. split; [done|]. intros j Hj Hrj. apply Hin; [|done].
    destruct (decide (j = i)) as [->|]; [by destruct Hrj|lia].
Qed.

(** C12: a round of the scheduler on one CPU ends, provided that every process
    that is switched to gives the CPU back after finitely many steps (in user mode,
    in traps, and in passes of calls that sleep), and it runs every process that was ready when the round began: no trap, system call,
    interrupt of the UART or of the disk, or pass of a call that sleeps takes
    the readiness of another process away.  No process runs twice in a round. *)
Theorem scheduler_serves_all s :
  length (procs (tk s)) = NPROCn ->
  wp (scheduler_round run s) (fun l _ => NoDup l /\ forall j, ready j (tk s) -> j ∈ l).
Proof.
  intros Hl. unfold scheduler_round. assert (exists h, on_h (St := St) intr_on s = Ret tt (mk_tst (tk s) h)) as [h E] by (by eexists).
  rewrite (bind_ret_eq _ _ _ _ _ E). eapply wp_mono; [apply sched_scan_spec|]. intros l s' (_ & Hso & Hin). split; [done|].
  intros j Hj. apply Hin; [|done]. destruct Hj as [Hj _]. simpl. lia.
Qed.
End fair.

(** ** At work *)

#[local] Existing Instance demo_linker.
#[local] Existing Instance demo_symbols.
#[local] Existing Instance demo_uart.
#[local] Existing Instance demo_disk.

(** Every process that runs asks to sleep for a tick. *)
Definition demo_turn (i : nat) : M (tst ram) unit := on_k (sleep_pass i 0 1);; mret tt.

Lemma scheduler_serves_all_witness : exists l s', scheduler_round demo_turn (mk_tst demo_family (fun _ => 0)) = Ret l s' /\ 1%nat ∈ l.
Proof.
  assert (forall i s, pstate (procs (tk s) !!! i) = RUNNING -> exists s', demo_turn i s = Ret tt s' /\
    rtc (tstep (D := unit) (Dk := unit) [] i) s s') as Hrun.
  { intros i s _. assert (exists r s', on_k (sleep_pass i 0 1) s = Ret r s') as (r & s' & E).
    { unfold on_k, zoom, sleep_pass, killed, sleep, mbind, M_bind. cbn. repeat case_match; simplify_eq; by do 2 eexists. }
    exists s'. split; [unfold demo_turn; by rewrite (bind_ret_eq _ _ _ _ _ E)|]. apply rtc_once. eapply ts_sleep. exact E. }
  destruct (wp_inv _ _ (scheduler_serves_all [] demo_turn Hrun (mk_tst demo_family (fun _ => 0)) eq_refl)) as (l & s' & E & _ & Hin).
  exists l, s'. split; [exact E|]. apply Hin. split; [change (1 < 64)%nat; lia|reflexivity].
Defined.
