(* ===== verification/Sh.v ===== *)
(** * The shell's parser (user/sh.c)

    The line is its bytes before the NUL; [char *] positions are indices, and
    the byte at the end of the line is the NUL.  [*ps] is the state, [panic] is
    the shell's (it ends the child that parses), and a counted string of the
    source ([q], [eq]) is a pair of indices. *)

From S2P Require Import Prelude Sysfile.

Definition MAXARGS : nat := 10.

Definition tok : Type := nat * nat.

(** [struct cmd] and its variants, over the type of the strings in them; an
    [execcmd] holds the entries of [argv] and [eargv] before the null ones. *)
Inductive cmd (T : Type) :=
| EXEC (argv : list T)
| REDIR (c : cmd T) (file : T) (mode fd : Z)
| PIPE (left right : cmd T)
| LIST (left right : cmd T)
| BACK (c : cmd T).
Arguments EXEC {_}.
Arguments REDIR {_}.
Arguments PIPE {_}.
Arguments LIST {_}.
Arguments BACK {_}.

Definition execcmd : cmd tok := EXEC [].
Definition redircmd (subcmd : cmd tok) (file : tok) (mode fd : Z) : cmd tok := REDIR subcmd file mode fd.
Definition pipecmd (left right : cmd tok) : cmd tok := PIPE left right.
Definition listcmd (left right : cmd tok) : cmd tok := LIST left right.
Definition backcmd (subcmd : cmd tok) : cmd tok := BACK subcmd.

(** [strchr] of ulib.c on a string given by its bytes. *)
Fixpoint strchr (l : list Z) (c : Z) : bool :=
  match l with [] => false | x :: l => if x =? c then true else strchr l c end.

Definition GT : Z := 62.
Definition LT : Z := 60.
Definition whitespace : list Z := [32; 9; 13; 10; 11].
Definition symbols : list Z := [60; 124; 62; 38; 59; 40; 41].

(** [cmd->argv[argc] = q] for the command under the redirections of [ret]. *)
Fixpoint add_arg (t : tok) (ret : cmd tok) : cmd tok :=
  match ret with
  | EXEC argv => EXEC (argv ++ [t])
  | REDIR c f m fd => REDIR (add_arg t c) f m fd
  | c => c
  end.

Section parser.
Context (b : list Z).

Definition es : nat := length b.
(** [*s] *)
Definition deref (s : nat) : Z := default 0 (b !! s).

Fixpoint skip_ws (n s : nat) : nat :=
  match n with O => s | S n => if (s <? es)%nat && strchr whitespace (deref s) then skip_ws n (S s) else s end.
Definition skip (s : nat) : nat := skip_ws (es - s) s.

Fixpoint skip_word (n s : nat) : nat :=
  match n with
  | O => s
  | S n => if (s <? es)%nat && negb (strchr whitespace (deref s)) && negb (strchr symbols (deref s)) then skip_word n (S s) else s
  end.

(** The token, and its [q] and [eq]. *)
Definition gettoken : M nat (Z * nat * nat) :=
  s0 ← gets (fun s => s);
  let q := skip s0 in
  let c := deref q in
  let '(ret, eq) :=
    if c =? 0 then (c, q)
    else if strchr [124; 40; 41; 59; 38; LT] c then (c, S q)
    else if c =? GT then if deref (S q) =? GT then (43, S (S q)) else (c, S q)
    else (97, skip_word (es - q) q) in
  modify (fun _ => skip eq);;
  mret (ret, q, eq).

Definition peek (toks : list Z) : M nat bool :=
  modify skip;;
  s ← gets (fun s => s);
  mret (negb (deref s =? 0) && strchr toks (deref s)).

Fixpoint parseredirs (n : nat) (c : cmd tok) : M nat (cmd tok) :=
  match n with
  | O => diverge
  | S n =>
      more ← peek [LT; GT];
      if (more : bool) then
        '(t, _, _) ← gettoken;
        '(t2, q, eq) ← gettoken;
        if negb (t2 =? 97) then panic "missing file for redirection"
        else
          parseredirs n
            (if t =? LT then redircmd c (q, eq) O_RDONLY 0
             else if t =? GT then redircmd c (q, eq) (Z.lor (Z.lor O_WRONLY O_CREATE) O_TRUNC) 1
             else if t =? 43 then redircmd c (q, eq) (Z.lor O_WRONLY O_CREATE) 1
             else c)
      else mret c
  end.

(** The loop of [parseexec]. *)
Fixpoint parseargs (n : nat) (argc : nat) (ret : cmd tok) : M nat (cmd tok) :=
  match n with
  | O => diverge
  | S n =>
      stop ← peek [124; 41; 38; 59];
      if (stop : bool) then mret ret
      else
        '(t, q, eq) ← gettoken;
        if t =? 0 then mret ret
        else if negb (t =? 97) then panic "syntax"
        else
          let ret := add_arg (q, eq) ret in
          if (MAXARGS <=? S argc)%nat then panic "too many args"
          else
            ret ← parseredirs (S es) ret;
            parseargs n (S argc) ret
  end.

(** The loop of [parseline]. *)
Fixpoint parseback (n : nat) (c : cmd tok) : M nat (cmd tok) :=
  match n with
  | O => diverge
  | S n => more ← peek [38]; if (more : bool) then gettoken;; parseback n (backcmd c) else mret c
  end.

Fixpoint parseline (n : nat) : M nat (cmd tok) :=
  match n with
  | O => diverge
  | S n =>
      c ← parsepipe n;
      c ← parseback (S es) c;
      more ← peek [59];
      if (more : bool) then gettoken;; c2 ← parseline n; mret (listcmd c c2) else mret c
  end
with parsepipe (n : nat) : M nat (cmd tok) :=
  match n with
  | O => diverge
  | S n =>
      c ← parseexec n;
      more ← peek [124];
      if (more : bool) then gettoken;; c2 ← parsepipe n; mret (pipecmd c c2) else mret c
  end
with parseexec (n : nat) : M nat (cmd tok) :=
  match n with
  | O => diverge
  | S n =>
      block ← peek [40];
      if (block : bool) then parseblock n
      else
        ret ← parseredirs (S es) execcmd;
        parseargs (S es) 0 ret
  end
with parseblock (n : nat) : M nat (cmd tok) :=
  match n with
  | O => diverge
  | S n =>
      open ← peek [40];
      if negb open then panic "parseblock"
      else
        gettoken;;
        c ← parseline n;
        close ← peek [41];
        if negb close then panic "syntax - missing )"
        else gettoken;; parseredirs (S es) c
  end.

(** Calls nest at most four deep between two bytes of the line. *)
Definition parse_fuel : nat := 4 * es + 4.

(** [*eq = 0] for every counted string; the line is followed by its NUL. *)
Fixpoint nulterminate (c : cmd tok) (l : list Z) : list Z :=
  match c with
  | EXEC argv => fold_left (fun l (t : tok) => <[snd t := 0]> l) argv l
  | REDIR c f _ _ => <[snd f := 0]> (nulterminate c l)
  | PIPE c1 c2 | LIST c1 c2 => nulterminate c2 (nulterminate c1 l)
  | BACK c => nulterminate c l
  end.

(** The command and the line with its strings terminated. *)
Definition parsecmd : outcome nat (cmd tok * list Z) :=
  (c ← parseline parse_fuel;
   peek [];;
   s ← gets (fun s => s);
   if negb (s =? es)%nat then panic "syntax"
   else mret (c, nulterminate c (b ++ [0]))) 0%nat.
End parser.

(** ** Running commands *)

(** What a user program does, as its system calls; [Execv] continues when the
    call fails, [Print] is [fprintf(2, ...)]. *)
Inductive prog :=
| Exit (status : Z)
| Execv (path : list Z) (argv : list (list Z)) (k : prog)
| Open (path : list Z) (mode : Z) (k : Z -> prog)
| Close (fd : Z) (k : prog)
| Dup (fd : Z) (k : Z -> prog)
| Pipe (k : option (Z * Z) -> prog)
| Fork (k : Z -> prog)
| Wait (k : prog)
| Chdir (path : list Z) (k : Z -> prog)
| Print (msg : string) (arg : list Z) (k : prog).

(** [panic] of the shell. *)
Definition sh_panic (s : string) : prog := Print s [] (Exit 1).

Definition fork1 (k : Z -> prog) : prog := Fork (fun pid => if pid =? -1 then sh_panic "fork" else k pid).

(** The string that starts at [q]. *)
Fixpoint until_nul (l : list Z) : list Z :=
  match l with [] => [] | c :: l => if c =? 0 then [] else c :: until_nul l end.
Definition cstr (l : list Z) (q : nat) : list Z := until_nul (drop q l).

(** [l] is the line after [nulterminate]. *)
Fixpoint runcmd (l : list Z) (c : cmd tok) : prog :=
  match c with
  | EXEC argv =>
      match argv with
      | [] => Exit 1
      | a :: _ => Execv (cstr l a.1) ((fun t : tok => cstr l t.1) <$> argv) (Print "exec %s failed" (cstr l a.1) (Exit 0))
      end
  | REDIR c file mode fd =>
      Close fd (Open (cstr l file.1) mode (fun r => if r <? 0 then Print "open %s failed" (cstr l file.1) (Exit 1) else runcmd l c))
  | LIST c1 c2 => fork1 (fun pid => if pid =? 0 then runcmd l c1 else Wait (runcmd l c2))
  | PIPE c1 c2 =>
      Pipe (fun p => match p with
        | None => sh_panic "pipe"
        | Some (p0, p1) =>
            fork1 (fun pid =>
              if pid =? 0 then Close 1 (Dup p1 (fun _ => Close p0 (Close p1 (runcmd l c1))))
              else fork1 (fun pid =>
                if pid =? 0 then Close 0 (Dup p0 (fun _ => Close p0 (Close p1 (runcmd l c2))))
                else Close p0 (Close p1 (Wait (Wait (Exit 0))))))
        end)
  | BACK c => fork1 (fun pid => if pid =? 0 then runcmd l c else Exit 0)
  end.

(** The body of [main]'s loop on the line [buf] ([getcmd] fills it and fails on
    an empty one), and what follows it. *)
Definition main_line (buf : list Z) (next : prog) : prog :=
  if (deref buf 0 =? 99) && (deref buf 1 =? 100) && (deref buf 2 =? 32) then
    let path := cstr (removelast buf) 3 in
    Chdir path (fun r => if r <? 0 then Print "cannot cd %s" path next else next)
  else
    fork1 (fun pid =>
      if pid =? 0 then
        match parsecmd buf with
        | Ret (c, l) _ => runcmd l c
        | Panic msg => sh_panic msg
        | Diverge => Exit 1
        end
      else Wait next).
