(* ===== verification/ShThms.v ===== *)
(** * The shell: parsing terminates, inverts printing, and running wires pipes

    Every position the parser reads is inside the line, every string of its
    result is a whole word of the line, and the commands it builds run with the
    file descriptors their text asks for. *)

From S2P Require Import Prelude Fork Sysfile Sh.

(** The computation ends; if it returns, [Q] holds. *)
Definition ends {S A} (o : outcome S A) (Q : A -> S -> Prop) : Prop :=
  match o with Ret a s => Q a s | Panic _ => True | Diverge => False end.

Lemma ends_bind {S A B} (c : M S A) (k : A -> M S B) s (Q : B -> S -> Prop) : ends (c s) (fun a s' => ends (k a s') Q) -> ends ((c ≫= k) s) Q.
Proof. unfold mbind, M_bind. by destruct (c s). Qed.

Lemma ends_mono {S A} (o : outcome S A) (P Q : A -> S -> Prop) : ends o P -> (forall a s, P a s -> Q a s) -> ends o Q.
Proof. destruct o; naive_solver. Qed.

Tactic Notation "ends_step" uconstr(H) := apply ends_bind; eapply ends_mono; [eapply H|].

Definition word_char (c : Z) : bool := negb (strchr whitespace c) && negb (strchr symbols c).

(** ** Scanning *)

Section scan.
Context (b : list Z).
Abbreviation es := (es b).
Abbreviation deref := (deref b).
Abbreviation skip := (skip b).
Implicit Types s : nat.

(** A whole word of the line. *)
Definition word (t : tok) : Prop :=
  (t.1 < t.2 <= es)%nat /\ (forall i, (t.1 <= i < t.2)%nat -> word_char (deref i) = true) /\ ((t.2 < es)%nat -> word_char (deref t.2) = false).

Lemma deref_out s : (es <= s)%nat -> deref s = 0.
Proof. intros Hs. unfold Sh.deref. by rewrite lookup_ge_None_2 by exact Hs. Qed.

Lemma skip_ws_spec n s : (s <= es)%nat -> (es - s <= n)%nat ->
  let s' := skip_ws b n s in (s <= s' <= es)%nat /\ (forall i, (s <= i < s')%nat -> strchr whitespace (deref i) = true) /\
  ((s' < es)%nat -> strchr whitespace (deref s') = false).
Proof.
  revert s. induction n as [|n IH]; intros s Hs Hn; cbn [skip_ws]; cbv zeta; [split_and!; intros; lia|].
  destruct (Nat.ltb_spec s es) as [Hlt|]; cbn [andb]; [|split_and!; intros; lia].
  destruct (strchr whitespace (deref s)) eqn:E; [|split_and!; [lia|lia|intros; lia|done]].
  destruct (IH (S s)) as (H1 & H2 & H3); [lia|lia|]. split_and!; [lia|lia| |done]. intros i Hi.
  destruct (decide (i = s)) as [->|]; [done|]. apply H2. lia.
Qed.

Lemma skip_spec s : (s <= es)%nat -> (s <= skip s <= es)%nat /\ ((skip s < es)%nat -> strchr whitespace (deref (skip s)) = false).
Proof. intros Hs. destruct (skip_ws_spec (es - s) s Hs ltac:(lia)) as (H1 & _ & H2). done. Qed.

Lemma skip_stop s : strchr whitespace (deref s) = false -> skip s = s.
Proof. intros E. unfold Sh.skip. destruct (es - s)%nat; cbn [skip_ws]; [done|]. by rewrite E, andb_false_r. Qed.

Lemma skip_one s : (s < es)%nat -> strchr whitespace (deref s) = true -> strchr whitespace (deref (S s)) = false -> skip s = S s.
Proof.
  intros Hs E1 E2. unfold Sh.skip. destruct (es - s)%nat as [|k] eqn:Ek; [lia|]. cbn [skip_ws]. rewrite (proj2 (Nat.ltb_lt _ _) Hs), E1. cbn [andb].
  destruct k; cbn [skip_ws]; [done|]. by rewrite E2, andb_false_r.
Qed.

Lemma skip_word_spec n s : (s <= es)%nat -> (es - s <= n)%nat ->
  let e := skip_word b n s in (s <= e <= es)%nat /\ (forall i, (s <= i < e)%nat -> word_char (deref i) = true) /\
  ((e < es)%nat -> word_char (deref e) = false) /\ (word_char (deref s) = true -> (s < es)%nat -> (s < e)%nat).
Proof.
  unfold word_char. revert s. induction n as [|n IH]; intros s Hs Hn; cbn [skip_word]; cbv zeta; [split_and!; intros; lia|].
  destruct (Nat.ltb_spec s es) as [Hlt|]; cbn [andb]; [|split_and!; intros; lia].
  destruct (negb (strchr whitespace (deref s)) && negb (strchr symbols (deref s))) eqn:E; [|split_and!; [lia|lia|intros; lia|done|done]].
  destruct (IH (S s)) as (H1 & H2 & H3 & _); [lia|lia|]. split_and!; [lia|lia| |done|intros; lia]. intros i Hi.
  destruct (decide (i = s)) as [->|]; [done|]. apply H2. lia.
Qed.

Lemma peek_eq toks s : peek b toks s = Ret (negb (deref (skip s) =? 0) && strchr toks (deref (skip s))) (skip s).
Proof. done. Qed.

Lemma peek_bind {A} toks (k : bool -> M nat A) s :
  (peek b toks ≫= k) s = k (negb (deref (skip s) =? 0) && strchr toks (deref (skip s))) (skip s).
Proof. done. Qed.

(** The next token: it is inside the line, and only the end gives none. *)
Definition tok_post s (r : Z * nat * nat) s' : Prop :=
  let '(t, q, eq) := r in q = skip s /\ (q <= eq <= s')%nat /\ (s' <= es)%nat /\ s' = skip eq /\ (deref q <> 0 -> t <> 0 /\ (q < eq)%nat) /\
  (deref q = 0 -> t = 0) /\ (t = 97 -> word (q, eq)).

Lemma gettoken_spec s : (s <= es)%nat -> ends (gettoken b s) (tok_post s).
Proof.
  intros Hs. unfold gettoken. apply ends_bind. cbn [ends gets]. destruct (skip_spec s Hs) as [Hq Hw]. set (q := skip s) in *.
  assert (deref q <> 0 -> (q < es)%nat) as Hin by (intros E; destruct (decide (q < es)%nat); [done|]; destruct E; apply deref_out; lia).
  assert (forall t eq, (q <= eq <= es)%nat -> (deref q <> 0 -> t <> 0 /\ (q < eq)%nat) -> (deref q = 0 -> t = 0) -> (t = 97 -> word (q, eq)) ->
    ends ((modify (fun _ => skip eq);; mret (t, q, eq)) s) (tok_post s)) as Hfin.
  { intros t eq He Hp Hz Hword. cbn. destruct (skip_spec eq) as [He' _]; [lia|]. split_and!; try done; lia. }
  destruct (Z.eqb_spec (deref q) 0) as [E0|N0]; [apply Hfin; [lia|done|done|by rewrite E0]|]. specialize (Hin N0).
  destruct (strchr [124; 40; 41; 59; 38; LT] (deref q)) eqn:Es.
  { apply Hfin; [lia|by split; [|lia]|done|]. intros E. by rewrite E in Es. }
  destruct (Z.eqb_spec (deref q) GT) as [Eg|Ng].
  { destruct (Z.eqb_spec (deref (S q)) GT) as [Eg2|]; apply Hfin; try done; try lia.
    - assert (S q < es)%nat; [|lia]. destruct (decide (S q < es)%nat); [done|]. by rewrite deref_out in Eg2 by lia.
    - rewrite Eg. done. }
  destruct (skip_word_spec (es - q) q) as (H1 & H2 & H3 & H4); [lia|lia|].
  assert (word_char (deref q) = true) as Hwc.
  { unfold word_char. rewrite Hw by done. cbn [negb andb]. apply negb_true_iff. unfold GT, LT, symbols in *. cbn [strchr].
    repeat match goal with |- context [?x =? deref q] => destruct (Z.eqb_spec x (deref q)) as [Ex|]; [exfalso; rewrite <- Ex in Es, Ng; (discriminate Es || by apply Ng)|] end. done. }
  apply Hfin; [lia|intros _; split; [done|by apply H4]|done|]. intros _. split; [split; [by apply H4|apply H1]|split; [exact H2|exact H3]].
Qed.

(** ** Results *)

Fixpoint toks (c : cmd tok) : list tok :=
  match c with
  | EXEC argv => argv
  | REDIR c f _ _ => toks c ++ [f]
  | PIPE c1 c2 | LIST c1 c2 => toks c1 ++ toks c2
  | BACK c => toks c
  end.

(** Few enough arguments, and one of the three kinds of redirection. *)
Definition redir_ok (mode fd : Z) : Prop :=
  (mode, fd) ∈ [(O_RDONLY, 0); (Z.lor (Z.lor O_WRONLY O_CREATE) O_TRUNC, 1); (Z.lor O_WRONLY O_CREATE, 1)].

Fixpoint cmd_ok {T} (c : cmd T) : Prop :=
  match c with
  | EXEC argv => (length argv < MAXARGS)%nat
  | REDIR c _ mode fd => cmd_ok c /\ redir_ok mode fd
  | PIPE c1 c2 | LIST c1 c2 => cmd_ok c1 /\ cmd_ok c2
  | BACK c => cmd_ok c
  end.

(** The number of arguments of the simple command under redirections. *)
Fixpoint nargs (c : cmd tok) : option nat :=
  match c with EXEC argv => Some (length argv) | REDIR c _ _ _ => nargs c | _ => None end.

Definition good (c : cmd tok) : Prop := cmd_ok c /\ Forall word (toks c).

Lemma add_arg_spec t c k : good c -> word t -> nargs c = Some k -> (S k < MAXARGS)%nat -> good (add_arg t c) /\ nargs (add_arg t c) = Some (S k).
Proof.
  intros [Hc Ht] Hw Hn Hk. assert (cmd_ok (add_arg t c) /\ (forall x, x ∈ toks (add_arg t c) -> x ∈ toks c \/ x = t) /\ nargs (add_arg t c) = Some (S k)) as (H1 & H2 & H3).
  { clear Ht. induction c as [argv|c IH f m fd| | |]; simpl in *; try done.
    - injection Hn as Hn. rewrite length_app. simpl. split_and!; [lia| |f_equal; lia]. set_solver.
    - destruct Hc as [Hc Hr]. destruct (IH Hc Hn) as (I1 & I2 & I3). split_and!; [done|done| |done]. set_solver. }
  split; [|done]. split; [done|]. rewrite Forall_forall in Ht |- *. intros x Hx. destruct (H2 x Hx) as [Ho| ->]; auto.
Qed.

(** Both continue inside the line with a good command. *)
Definition parsed s (c : cmd tok) s' : Prop := (s <= s' <= es)%nat /\ good c.

Lemma peek_true toks s : negb (deref (skip s) =? 0) && strchr toks (deref (skip s)) = true -> (s <= es)%nat -> deref (skip s) <> 0 /\ (skip s < es)%nat.
Proof.
  intros [H1 H2]%andb_true_iff Hs. apply negb_true_iff, Z.eqb_neq in H1. split; [done|]. destruct (decide (skip s < es)%nat); [done|].
  destruct H1. apply deref_out. lia.
Qed.

Lemma skip_skip s : (s <= es)%nat -> skip (skip s) = skip s.
Proof.
  intros Hs. destruct (skip_spec s Hs) as [H1 H2]. destruct (decide (skip s < es)%nat) as [Hlt|]; [by apply skip_stop, H2|].
  apply skip_stop. rewrite deref_out by lia. done.
Qed.

(** A token where [peek] saw a byte. *)
Lemma gettoken_peek s : (s <= es)%nat -> deref (skip s) <> 0 -> ends (gettoken b (skip s)) (fun r s' => tok_post (skip s) r s' /\ (s < s' <= es)%nat).
Proof.
  intros Hs Hne. destruct (skip_spec s Hs) as [H1 _]. eapply ends_mono; [apply gettoken_spec; lia|]. intros [[t q] eq] s' Hp. split; [done|].
  destruct Hp as (Eq & H2 & H3 & _ & H4 & _). rewrite skip_skip in Eq by done. subst q. destruct (H4 Hne). lia.
Qed.

Lemma parseredirs_spec n c s : (s <= es)%nat -> (es - s < n)%nat -> good c ->
  ends (parseredirs b n c s) (fun c' s' => parsed s c' s' /\ nargs c' = nargs c).
Proof.
  revert c s. induction n as [|n IH]; intros c s Hs Hn Hc; [lia|]. cbn [parseredirs]. rewrite peek_bind. destruct (skip_spec s Hs) as [H1 _].
  destruct (negb (deref (skip s) =? 0) && strchr [LT; GT] (deref (skip s))) eqn:Ep; [|split; [split; [lia|done]|done]].
  destruct (peek_true _ s Ep Hs) as [Hne _]. ends_step (gettoken_peek s Hs Hne). intros [[t q1] eq1] s1 [_ Hs1].
  ends_step (gettoken_spec s1); [lia|]. intros [[t2 q] eq] s2 (E1 & E2 & E3 & _ & _ & _ & Hw). destruct (Z.eqb_spec t2 97) as [->|]; cbn [negb]; [|done].
  destruct (skip_spec s1) as [H2 _]; [lia|]. specialize (Hw eq_refl).
  assert (forall m fd, redir_ok m fd -> good (REDIR c (q, eq) m fd)) as Hg.
  { intros m fd Hr. destruct Hc. split; [done|]. simpl. rewrite Forall_app, Forall_singleton. done. }
  eapply ends_mono; [apply IH; [lia|lia|]|].
  - repeat case_match; try apply Hg; unfold redir_ok; try done; set_solver.
  - intros c' s3 [[H3 H4] H5]. split; [split; [lia|done]|]. rewrite H5. by repeat case_match.
Qed.

Lemma parseargs_spec n argc ret s : (s <= es)%nat -> (es - s < n)%nat -> good ret -> nargs ret = Some argc ->
  ends (parseargs b n argc ret s) (parsed s).
Proof.
  revert argc ret s. induction n as [|n IH]; intros argc ret s Hs Hn Hc Ha; [lia|]. cbn [parseargs]. rewrite peek_bind. destruct (skip_spec s Hs) as [H1 _].
  case_match; [by split; [lia|]|]. ends_step (gettoken_spec (skip s)); [lia|]. intros [[t q] eq] s1 (E1 & E2 & E3 & _ & Hp & Hz & Hw).
  rewrite skip_skip in E1 by done. destruct (Z.eqb_spec t 0) as [->|Ht]; [by split; [lia|]|]. destruct (Z.eqb_spec t 97) as [->|]; cbn [negb]; [|done].
  destruct (Nat.leb_spec MAXARGS (S argc)) as [|Hlt]; [done|]. assert (deref q <> 0) as Hne by (intros E; by specialize (Hz E)). destruct (Hp Hne) as [_ Hlt2].
  destruct (add_arg_spec (q, eq) ret argc Hc (Hw eq_refl) Ha Hlt) as [Hg Hk].
  ends_step (parseredirs_spec (S es) (add_arg (q, eq) ret) s1); [lia|lia|done|]. intros ret' s2 [[H2 H3] H4].
  eapply ends_mono; [apply IH; [lia|lia|done|congruence]|]. intros c' s3 [H5 H6]. split; [lia|done].
Qed.

Lemma parseback_spec n c s : (s <= es)%nat -> (es - s < n)%nat -> good c -> ends (parseback b n c s) (parsed s).
Proof.
  revert c s. induction n as [|n IH]; intros c s Hs Hn Hc; [lia|]. cbn [parseback]. rewrite peek_bind. destruct (skip_spec s Hs) as [H1 _].
  case_match eqn:Ep; [|by split; [lia|]]. destruct (peek_true _ s Ep Hs) as [Hne _]. ends_step (gettoken_peek s Hs Hne). intros _ s1 [_ Hs1].
  eapply ends_mono; [apply IH; [lia|lia|done]|]. intros c' s2 [H2 H3]. split; [lia|done].
Qed.

Lemma good_two k c1 c2 : (k = PIPE \/ k = LIST) -> good c1 -> good c2 -> good (k c1 c2).
Proof. intros Hk [A1 A2] [B1 B2]. destruct Hk as [-> | ->]; (split; [done|simpl; by apply Forall_app]). Qed.

(** The fuel for a call at [s]. *)
Definition room (r n s : nat) : Prop := (s <= es /\ 4 * (es - s) + r <= n)%nat.

(** The four mutually recursive routines. *)
Lemma parse_spec n :
  (forall s, room 4 n s -> ends (parseline b n s) (parsed s)) /\ (forall s, room 3 n s -> ends (parsepipe b n s) (parsed s)) /\
  (forall s, room 2 n s -> ends (parseexec b n s) (parsed s)) /\ (forall s, room 1 n s -> ends (parseblock b n s) (parsed s)).
Proof.
  unfold room. induction n as [|n (IHl & IHp & IHe & IHb)]; [split_and!; intros; lia|]. split_and!; intros s [Hs Hn].
  - cbn [parseline]. ends_step (IHp s); [lia|]. intros c s1 [H1 Hc]. ends_step (parseback_spec (S es) c s1); [lia|lia|done|]. intros c' s2 [H2 Hc'].
    rewrite peek_bind. destruct (skip_spec s2) as [H3 _]; [lia|]. case_match eqn:Ep; [|by split; [lia|]]. destruct (peek_true _ s2 Ep) as [Hne _]; [lia|].
    ends_step (gettoken_peek s2); [lia|done|]. intros _ s3 [_ H4]. ends_step (IHl s3); [lia|]. intros c2 s4 [H5 Hc2]. split; [lia|]. apply good_two; auto.
  - cbn [parsepipe]. ends_step (IHe s); [lia|]. intros c s1 [H1 Hc].
    rewrite peek_bind. destruct (skip_spec s1) as [H3 _]; [lia|]. case_match eqn:Ep; [|by split; [lia|]]. destruct (peek_true _ s1 Ep) as [Hne _]; [lia|].
    ends_step (gettoken_peek s1); [lia|done|]. intros _ s3 [_ H4]. ends_step (IHp s3); [lia|]. intros c2 s4 [H5 Hc2]. split; [lia|]. apply good_two; auto.
  - cbn [parseexec]. rewrite peek_bind. destruct (skip_spec s) as [H1 _]; [lia|]. case_match.
    + eapply ends_mono; [apply IHb; lia|]. intros c s1 [H2 Hc]. split; [lia|done].
    + ends_step (parseredirs_spec (S es) (EXEC []) (skip s)); [lia|lia|split; [simpl; unfold MAXARGS; lia|constructor]|].
      intros ret s1 [[H2 H3] H4]. eapply ends_mono; [apply parseargs_spec; [lia|lia|done|by rewrite H4]|]. intros c s2 [H5 H6]. split; [lia|done].
  - cbn [parseblock]. rewrite peek_bind. destruct (skip_spec s) as [H1 _]; [lia|]. case_match eqn:Ep; [done|]. apply negb_false_iff in Ep.
    destruct (peek_true _ s Ep) as [Hne _]; [lia|]. ends_step (gettoken_peek s); [lia|done|]. intros _ s1 [_ H2]. ends_step (IHl s1); [lia|]. intros c s2 [H3 Hc].
    rewrite peek_bind. destruct (skip_spec s2) as [H4 _]; [lia|]. case_match eqn:Ep2; [done|]. apply negb_false_iff in Ep2. destruct (peek_true _ s2 Ep2) as [Hne2 _]; [lia|].
    ends_step (gettoken_peek s2); [lia|done|]. intros _ s3 [_ H5]. eapply ends_mono; [apply parseredirs_spec; [lia|lia|done]|].
    intros c' s4 [[H6 H7] _]. split; [lia|done].
Qed.
End scan.

(** ** Terminating the strings *)

Definition slice (b : list Z) (t : tok) : list Z := take (t.2 - t.1) (drop t.1 b).

Lemma nulterminate_fold c l : nulterminate c l = fold_left (fun l (t : tok) => <[t.2 := 0]> l) (toks c) l.
Proof.
  revert l. induction c as [argv|c IH f m fd|c1 IH1 c2 IH2|c1 IH1 c2 IH2|c IH]; intros l; simpl; try done.
  - by rewrite fold_left_app, IH.
  - by rewrite fold_left_app, IH1, IH2.
  - by rewrite fold_left_app, IH1, IH2.
Qed.

Lemma nul_lookup (ts : list tok) (l : list Z) (i : nat) : fold_left (fun l (t : tok) => <[t.2 := 0]> l) ts l !! i = (if decide (i ∈ (snd <$> ts)) then (fun _ => 0) <$> l !! i else l !! i).
Proof.
  revert l. induction ts as [|t ts IH]; intros l; [done|]. cbn [fold_left fmap list_fmap]. rewrite IH.
  destruct (decide (i = t.2)) as [->|Hne].
  - rewrite (decide_True (P := t.2 ∈ t.2 :: (snd <$> ts))) by set_solver. destruct (decide (t.2 < length l)%nat) as [Hlt|].
    + rewrite list_lookup_insert_eq by done. destruct (lookup_lt_is_Some_2 l t.2 Hlt) as [x ->]. by case_decide.
    + rewrite list_insert_ge by lia. rewrite (lookup_ge_None_2 l) by lia. by case_decide.
  - rewrite list_lookup_insert_ne by done. do 2 case_decide; set_solver.
Qed.

Lemma until_nul_app w r : 0 ∉ w -> until_nul (w ++ 0 :: r) = w.
Proof.
  induction w as [|c w IH]; intros Hw; [done|]. cbn. destruct (Z.eqb_spec c 0) as [->|]; [set_solver|]. f_equal. apply IH. set_solver.
Qed.

Lemma elem_of_slice b t x : x ∈ slice b t -> x ∈ b.
Proof. intros Hx. eapply elem_of_submseteq; [exact Hx|]. unfold slice. apply sublist_submseteq. etrans; [apply sublist_take|apply sublist_drop]. Qed.

(** The string at a word's start is the word. *)
Lemma nulterminate_spec b c t : 0 ∉ b -> Forall (word b) (toks c) -> t ∈ toks c -> cstr (nulterminate c (b ++ [0])) t.1 = slice b t.
Proof.
  intros Hz Hall Ht. destruct (proj1 (Forall_forall _ _) Hall t Ht) as (Hr & Hw & _). unfold es in Hr. set (l := nulterminate c (b ++ [0])).
  assert (forall i, l !! i = if decide (i ∈ (snd <$> toks c)) then (fun _ => 0) <$> (b ++ [0]) !! i else (b ++ [0]) !! i) as Hl
    by (intros i; unfold l; by rewrite nulterminate_fold, nul_lookup).
  assert (l !! t.2 = Some 0) as He.
  { rewrite Hl, decide_True by (by apply list_elem_of_fmap_2). destruct (lookup_lt_is_Some_2 (b ++ [0]) t.2) as [x ->]; [rewrite length_app; simpl; lia|done]. }
  assert (drop t.1 l = slice b t ++ 0 :: drop (S t.2) l) as Ed.
  { rewrite <- (take_drop (t.2 - t.1) (drop t.1 l)), drop_drop. replace (t.1 + (t.2 - t.1))%nat with t.2 by lia.
    rewrite (drop_S l 0 t.2 He). f_equal. unfold slice. apply list_eq. intros i. rewrite !lookup_take. case_decide; [|done].
    rewrite !lookup_drop, Hl. rewrite lookup_app_l by lia. rewrite decide_False; [done|]. intros Hin. apply list_elem_of_fmap in Hin as (t' & Et & Ht').
    destruct (proj1 (Forall_forall _ _) Hall t' Ht') as (Hr' & _ & Hstop). unfold es in *. specialize (Hw (t.1 + i)%nat ltac:(lia)). rewrite Et in Hw.
    rewrite Hstop in Hw; [done|lia]. }
  unfold cstr. rewrite Ed. apply until_nul_app. intros Hin. by apply Hz, (elem_of_slice b t).
Qed.

(** ** Printing and parsing back *)

Definition print_op (mode : Z) : list Z := if mode =? O_RDONLY then [LT] else if Z.land mode O_TRUNC =? 0 then [GT; GT] else [GT].

Fixpoint join (ws : list (list Z)) : list Z :=
  match ws with [] => [] | [w] => w | w :: ws => w ++ 32 :: join ws end.

(** A command's text, with every part in parentheses. *)
Fixpoint print (c : cmd (list Z)) : list Z :=
  match c with
  | EXEC argv => join argv
  | REDIR c f mode _ => 40 :: print c ++ 41 :: print_op mode ++ f
  | PIPE c1 c2 => 40 :: print c1 ++ 41 :: 124 :: 40 :: print c2 ++ [41]
  | LIST c1 c2 => 40 :: print c1 ++ 41 :: 59 :: 40 :: print c2 ++ [41]
  | BACK c => 40 :: print c ++ [41; 38]
  end.

Fixpoint cmd_map {T U} (f : T -> U) (c : cmd T) : cmd U :=
  match c with
  | EXEC argv => EXEC (f <$> argv)
  | REDIR c x mode fd => REDIR (cmd_map f c) (f x) mode fd
  | PIPE c1 c2 => PIPE (cmd_map f c1) (cmd_map f c2)
  | LIST c1 c2 => LIST (cmd_map f c1) (cmd_map f c2)
  | BACK c => BACK (cmd_map f c)
  end.

Definition wordlike (w : list Z) : Prop := w <> [] /\ forall c, c ∈ w -> word_char c = true /\ c <> 0.

Fixpoint words_ok (c : cmd (list Z)) : Prop :=
  match c with
  | EXEC argv => Forall wordlike argv
  | REDIR c f _ _ => words_ok c /\ wordlike f
  | PIPE c1 c2 | LIST c1 c2 => words_ok c1 /\ words_ok c2
  | BACK c => words_ok c
  end.

Definition hd (l : list Z) : Z := default 0 (head l).

(** The parser stays at [l] and [peek toks] is false there. *)
Definition quiet (toks l : list Z) : Prop := strchr whitespace (hd l) = false /\ negb (hd l =? 0) && strchr toks (hd l) = false.

(** The end of a block, or of the line, which may have its newline. *)
Definition closer (l : list Z) : Prop := l = [] \/ l = [10] \/ hd l = 41.

(** What is left of a text once blanks are skipped: nothing of a newline. *)
Definition trim (l : list Z) : list Z := if decide (l = [10]) then [] else l.

Lemma quiet_closed toks l : closer l -> strchr whitespace (hd l) = false -> strchr toks 41 = false -> quiet toks l.
Proof. intros [-> | [-> | E]] Hw H; try done. split; [done|]. by rewrite E, H. Qed.

Lemma trim_closer l : closer l -> closer (trim l) /\ strchr whitespace (hd (trim l)) = false.
Proof. unfold trim, closer. case_decide; [by split; [left|]|]. intros [-> | [-> | E]]; [by split; [left|]|done|]. rewrite E. auto. Qed.

Lemma quiet_closer toks l : closer l -> strchr toks 41 = false -> quiet toks (trim l).
Proof. intros Hl. destruct (trim_closer l Hl). by apply quiet_closed. Qed.

Lemma strchr_elem l c : strchr l c = true <-> c ∈ l.
Proof. induction l as [|x l IH]; simpl; [set_solver|]. destruct (Z.eqb_spec x c) as [->|]; set_solver. Qed.

Lemma word_quiet toks c : word_char c = true -> (forall x, x ∈ toks -> x ∈ symbols) -> strchr whitespace c = false /\ strchr toks c = false.
Proof.
  intros [H1 H2]%andb_true_iff Hs. split; [by apply negb_true_iff|]. destruct (strchr toks c) eqn:E; [|done].
  apply strchr_elem, Hs, strchr_elem in E. by rewrite E in H2.
Qed.

Section roundtrip.
Context (b : list Z).
Abbreviation es := (es b).
Abbreviation deref := (deref b).
Implicit Types s n : nat.

(** The rest of the line at [s]. *)
Definition suf s (l : list Z) : Prop := (s <= es)%nat /\ drop s b = l.

Lemma suf_deref s l : suf s l -> deref s = hd l.
Proof. intros [_ <-]. unfold Sh.deref, hd. by rewrite head_lookup, lookup_drop, Nat.add_0_r. Qed.

Lemma suf_app s l1 l2 : suf s (l1 ++ l2) -> suf (s + length l1) l2.
Proof.
  intros [Hs E]. pose proof (f_equal length E) as El. rewrite length_drop, length_app in El. unfold Sh.es in *.
  split; [unfold Sh.es; lia|]. by rewrite <- drop_drop, E, drop_app_length.
Qed.

Lemma suf_cons s c l : suf s (c :: l) -> (s < es)%nat /\ suf (S s) l.
Proof.
  intros H. pose proof (suf_app s [c] l H) as H'. simpl in H'. rewrite Nat.add_1_r in H'. split; [|done]. destruct H' as [? _]. lia.
Qed.

Lemma suf_len s l : suf s l -> (length l = es - s)%nat.
Proof. intros [_ <-]. by rewrite length_drop. Qed.

Lemma suf_slice s w l : suf s (w ++ l) -> slice b (s, (s + length w)%nat) = w.
Proof. intros [_ E]. unfold slice. simpl. rewrite E. replace (s + length w - s)%nat with (length w) by lia. apply take_app_length. Qed.

Lemma skip_quiet toks s l : suf s l -> quiet toks l -> skip b s = s.
Proof. intros Hs [Hq _]. apply skip_stop. by rewrite (suf_deref _ _ Hs). Qed.

Lemma peek_quiet {A} toks (k : bool -> M nat A) s l : suf s l -> quiet toks l -> (peek b toks ≫= k) s = k false s.
Proof. intros Hs Hq. rewrite peek_bind, (skip_quiet toks s l Hs Hq), (suf_deref _ _ Hs). by destruct Hq as [_ ->]. Qed.

(** At a symbol. *)
Lemma peek_sym {A} toks (k : bool -> M nat A) s c l : suf s (c :: l) -> strchr whitespace c = false -> c <> 0 -> strchr toks c = true ->
  (peek b toks ≫= k) s = k true s.
Proof.
  intros Hs Hw Hc Ht. assert (deref s = c) as E by by rewrite (suf_deref _ _ Hs). rewrite peek_bind, skip_stop by by rewrite E.
  rewrite E, Ht. by rewrite (proj2 (Z.eqb_neq c 0) Hc).
Qed.

Lemma gettoken_sym {A} (k : Z * nat * nat -> M nat A) s c l : suf s (c :: l) -> strchr [124; 40; 41; 59; 38; LT] c = true ->
  (gettoken b ≫= k) s = k (c, s, S s) (skip b (S s)).
Proof.
  intros Hs Hc. assert (deref s = c) as E by by rewrite (suf_deref _ _ Hs).
  assert (strchr whitespace c = false /\ c <> 0) as [Hcw Hc0].
  { clear - Hc. apply strchr_elem, list_elem_of_In in Hc. cbn [In] in Hc. repeat (destruct Hc as [<-|Hc]; [done|]). done. }
  unfold gettoken. msimpl. rewrite skip_stop by by rewrite E. by rewrite E, Hc, (proj2 (Z.eqb_neq c 0) Hc0).
Qed.

(** Skipping blanks before [l] leaves [l']. *)
Definition follow (l l' : list Z) : Prop := (strchr whitespace (hd l) = false /\ l' = l) \/ (l = [10] /\ l' = []).

Lemma follow_trim l : closer l -> follow l (trim l).
Proof. intros Hl. unfold trim. case_decide; [by right|left]. destruct Hl as [-> | [-> | ->]]; done. Qed.

Lemma follow_suf s l l' : suf s l -> follow l l' -> suf (skip b s) l'.
Proof.
  intros Hs [[Hw ->]|[-> ->]]; [rewrite skip_stop; [done|by rewrite (suf_deref _ _ Hs)]|]. destruct (suf_cons _ _ _ Hs) as [Hlt Hs'].
  rewrite skip_one; [done|done|by rewrite (suf_deref _ _ Hs)|by rewrite (suf_deref _ _ Hs')].
Qed.

Lemma skip_at s l : suf s l -> strchr whitespace (hd l) = false -> skip b s = s.
Proof. intros Hs Hw. apply skip_stop. by rewrite (suf_deref _ _ Hs). Qed.

Lemma gettoken_gt {A} (k : Z * nat * nat -> M nat A) s l : suf s (GT :: l) -> hd l <> GT -> strchr whitespace (hd l) = false ->
  (gettoken b ≫= k) s = k (GT, s, S s) (S s).
Proof.
  intros Hs Hc Hw. destruct (suf_cons _ _ _ Hs) as [_ Hs']. unfold gettoken. msimpl.
  assert (deref s = GT) as E by by rewrite (suf_deref _ _ Hs). rewrite (skip_stop b s) by by rewrite E. rewrite E, (suf_deref _ _ Hs').
  rewrite (proj2 (Z.eqb_neq _ _) Hc). cbn. rewrite (skip_stop b (S s)); [done|]. by rewrite (suf_deref _ _ Hs').
Qed.

Lemma gettoken_gtgt {A} (k : Z * nat * nat -> M nat A) s l : suf s (GT :: GT :: l) -> strchr whitespace (hd l) = false ->
  (gettoken b ≫= k) s = k (43, s, S (S s)) (S (S s)).
Proof.
  intros Hs Hw. destruct (suf_cons _ _ _ Hs) as [_ Hs']. destruct (suf_cons _ _ _ Hs') as [_ Hs2]. unfold gettoken. msimpl.
  assert (deref s = GT) as E by by rewrite (suf_deref _ _ Hs). rewrite (skip_stop b s) by by rewrite E. rewrite E, (suf_deref _ _ Hs').
  cbn. rewrite (skip_stop b (S (S s))); [done|]. by rewrite (suf_deref _ _ Hs2).
Qed.

(** What can follow a word. *)
Definition ends_word (l : list Z) : Prop := l = [] \/ word_char (hd l) = false.

Lemma skip_word_eq n s w l : suf s (w ++ l) -> (forall c, c ∈ w -> word_char c = true) -> ends_word l -> (length w <= n)%nat ->
  skip_word b n s = (s + length w)%nat.
Proof.
  revert s n. induction w as [|c w IH]; intros s n Hs Hw Hl Hn.
  - simpl in *. rewrite Nat.add_0_r. destruct n as [|n]; [done|]. cbn [skip_word]. destruct (Nat.ltb_spec s es) as [Hlt|]; [|done].
    destruct Hl as [-> | Hl]; [pose proof (suf_len _ _ Hs); simpl in *; lia|]. rewrite (suf_deref _ _ Hs). cbn [andb]. fold (word_char (hd l)). by rewrite Hl.
  - destruct n as [|n]; simpl in Hn; [lia|]. destruct (suf_cons s c (w ++ l) Hs) as [Hlt Hs']. cbn [skip_word]. rewrite (proj2 (Nat.ltb_lt _ _) Hlt).
    rewrite (suf_deref _ _ Hs). cbn [andb]. assert (word_char (hd ((c :: w) ++ l)) = true) as Hc by (apply Hw; set_solver).
    unfold word_char in Hc. rewrite Hc.
    rewrite (IH (S s) n Hs'); [simpl; lia|set_solver|done|lia].
Qed.

Lemma word_head c : word_char c = true -> c <> 0 -> (strchr [124; 40; 41; 59; 38; LT] c = false /\ c <> GT).
Proof.
  intros Hc H0. split; [|by intros ->]. apply (word_quiet [124; 40; 41; 59; 38; LT] c Hc). intros x Hx.
  apply strchr_elem. apply list_elem_of_In in Hx. cbn [In] in Hx. repeat (destruct Hx as [<-|Hx]; [done|]). done.
Qed.

Lemma gettoken_word {A} (k : Z * nat * nat -> M nat A) s w l : suf s (w ++ l) -> wordlike w -> ends_word l ->
  (gettoken b ≫= k) s = k (97, s, (s + length w)%nat) (skip b (s + length w)).
Proof.
  intros Hs [Hne Hw] Hl. destruct w as [|c w]; [done|]. destruct (Hw c ltac:(set_solver)) as [Hc H0].
  assert (deref s = c) as E by by rewrite (suf_deref _ _ Hs). destruct (word_head c Hc H0) as [H1 H2].
  assert (strchr whitespace c = false) as H3 by (by apply (word_quiet [] c Hc); set_solver).
  unfold gettoken. msimpl. rewrite (skip_stop b s) by by rewrite E. rewrite E, H1, (proj2 (Z.eqb_neq _ _) H0), (proj2 (Z.eqb_neq _ _) H2).
  pose proof (suf_len _ _ Hs) as Hlen. rewrite length_app in Hlen. rewrite (skip_word_eq (es - s) s (c :: w) l Hs); [done|apply Hw|done|lia].
Qed.

Lemma redirs_quiet n c s l : suf s l -> quiet [LT; GT] l -> parseredirs b (S n) c s = Ret c s.
Proof. intros Hs Hq. cbn [parseredirs]. by rewrite (peek_quiet _ _ s l). Qed.

(** [l] starts with a word, or ends a command. *)
Lemma quiet_word toks w l : wordlike w -> (forall x, x ∈ toks -> x ∈ symbols) -> quiet toks (w ++ l).
Proof.
  intros [Hne Hw] Ht. destruct w as [|c w]; [done|]. destruct (Hw c ltac:(set_solver)) as [Hc _]. destruct (word_quiet toks c Hc Ht) as [H1 H2].
  split; [done|]. change (hd ((c :: w) ++ l)) with c. by rewrite H2, andb_false_r.
Qed.

Lemma quiet_join toks ws l : Forall wordlike ws -> closer l -> strchr whitespace (hd (join ws ++ l)) = false ->
  strchr toks 41 = false -> (forall x, x ∈ toks -> x ∈ symbols) -> quiet toks (join ws ++ l).
Proof.
  intros Hws Hl Hb H41 Ht. destruct ws as [|w ws]; [by apply quiet_closed|]. apply Forall_cons in Hws as [Hw _].
  destruct ws as [|w' ws]; cbn [join]; [|rewrite <- app_assoc]; by apply quiet_word.
Qed.

Lemma closer_ends_word l : closer l -> ends_word l.
Proof. intros [-> | [-> | E]]; [by left|by right|right]. by rewrite E. Qed.

Lemma in_syms (P : list Z) : forallb (fun x => strchr symbols x) P = true -> forall x, x ∈ P -> x ∈ symbols.
Proof. intros Hf x Hx. apply strchr_elem. apply (proj1 (forallb_forall _ _) Hf). by apply list_elem_of_In. Qed.

Lemma join_head w ws l : Forall wordlike (w :: ws) -> strchr whitespace (hd (join (w :: ws) ++ l)) = false.
Proof.
  intros [Hw _]%Forall_cons. destruct ws as [|w' ws]; cbn [join]; [|rewrite <- app_assoc]; by apply (quiet_word [] w); [|set_solver].
Qed.

(** Blanks before a list of words and the end of the command. *)
Lemma settle_join s ws l : suf s (join ws ++ l) -> Forall wordlike ws -> closer l ->
  exists l1, suf (skip b s) (join ws ++ l1) /\ closer l1 /\ strchr whitespace (hd (join ws ++ l1)) = false /\
    skip b (skip b s + length (join ws)) = skip b (s + length (join ws)).
Proof.
  intros Hs Hws Hl. destruct ws as [|w ws].
  - exists (trim l). destruct (trim_closer l Hl) as [H1 H2]. cbn [join app length] in *. rewrite !Nat.add_0_r.
    split_and!; [by apply follow_suf with l, follow_trim|done|done|]. apply skip_skip. apply Hs.
  - exists l. pose proof (join_head w ws l Hws) as Hw. rewrite (skip_at s _ Hs Hw). done.
Qed.

(** After a word of an argument list: the next word, or what follows. *)
Lemma after_word s w ws l : suf s (join (w :: ws) ++ l) -> Forall wordlike ws -> closer l ->
  exists l' l1, join (w :: ws) ++ l = w ++ l' /\ ends_word l' /\ suf (skip b (s + length w)) (join ws ++ l1) /\ closer l1 /\
    strchr whitespace (hd (join ws ++ l1)) = false /\ skip b (skip b (s + length w) + length (join ws)) = skip b (s + length (join (w :: ws))).
Proof.
  intros Hs Hws Hl. destruct ws as [|w' ws].
  - pose proof (suf_app _ _ _ Hs) as Hs'. destruct (settle_join (s + length w)%nat [] l Hs' Hws Hl) as (l1 & H1 & H2 & H3 & H4).
    exists l, l1. split_and!; try done; [by apply closer_ends_word|]. rewrite H4. cbn [join length]. by rewrite Nat.add_0_r.
  - assert (join (w :: w' :: ws) ++ l = w ++ 32 :: join (w' :: ws) ++ l) as E by (cbn [join]; by rewrite <- app_assoc). exists (32 :: join (w' :: ws) ++ l), l.
    rewrite E in Hs |- *. pose proof (suf_app _ _ _ Hs) as Hs1. destruct (suf_cons _ _ _ Hs1) as [Hlt Hs2].
    pose proof (join_head w' ws l Hws) as Hq.
    rewrite (skip_one b (s + length w)); [|done|by rewrite (suf_deref _ _ Hs1)|by rewrite (suf_deref _ _ Hs2)].
    split_and!; try done; [by right|]. change (join (w :: w' :: ws)) with (w ++ 32 :: join (w' :: ws)). rewrite length_app. f_equal. simpl. lia.
Qed.

Lemma args_parse ws n k ret s l : suf s (join ws ++ l) -> closer l -> strchr whitespace (hd (join ws ++ l)) = false -> Forall wordlike ws ->
  (k + length ws < MAXARGS)%nat -> (length ws < n)%nat ->
  exists ts, parseargs b n k ret s = Ret (fold_left (fun c t => add_arg t c) ts ret) (skip b (s + length (join ws))) /\ slice b <$> ts = ws.
Proof.
  revert n k ret s l. induction ws as [|w ws IH]; intros n k ret s l Hs Hl Hb Hws Hk Hn; destruct n as [|n]; try (simpl in Hn; lia); cbn [parseargs].
  - exists []. cbn [join app length] in *. rewrite Nat.add_0_r, (skip_at s l Hs Hb). split; [|done]. destruct Hl as [-> | [-> | Hl]]; [|done|].
    + rewrite (peek_quiet _ _ s []) by done. unfold gettoken. msimpl. rewrite (skip_at s [] Hs) by done. rewrite (suf_deref _ _ Hs). cbn.
      by rewrite (skip_at s [] Hs).
    + destruct l as [|c l]; [done|]. unfold hd in Hl. simpl in Hl. subst c. by rewrite (peek_sym _ _ s 41 l).
  - apply Forall_cons in Hws as [Hw Hws]. destruct (after_word s w ws l Hs Hws Hl) as (l' & l1 & E & He & Hs' & Hl1 & Hb1 & Hlen). rewrite E in Hs.
    rewrite (peek_quiet _ _ s _ Hs) by (apply quiet_word; [done|by apply in_syms]). rewrite (gettoken_word _ s w l' Hs Hw He).
    change (97 =? 0) with false. change (97 =? 97) with true. cbn [negb]. simpl in Hk. destruct (Nat.leb_spec MAXARGS (S k)) as [|Hlt]; [lia|].
    set (s' := skip b (s + length w)) in *.
    rewrite (bind_ret_eq _ _ _ _ _ (redirs_quiet es (add_arg (s, (s + length w)%nat) ret) s' _ Hs' (quiet_join [LT; GT] ws l1 Hws Hl1 Hb1 eq_refl ltac:(by apply in_syms)))).
    destruct (IH n (S k) (add_arg (s, (s + length w)%nat) ret) s' l1 Hs' Hl1 Hb1 Hws ltac:(lia) ltac:(simpl in Hn; lia)) as (ts & Ep & Et).
    exists ((s, (s + length w)%nat) :: ts). rewrite Ep, Hlen. split; [done|]. cbn [fmap list_fmap]. by rewrite (suf_slice s w l' Hs), Et.
Qed.

Lemma add_args ts ts0 : fold_left (fun c t => add_arg t c) ts (EXEC ts0) = EXEC (ts0 ++ ts).
Proof. revert ts0. induction ts as [|t ts IH]; intros ts0; cbn; [by rewrite app_nil_r|]. by rewrite IH, <- app_assoc. Qed.

(** ** The grammar's levels *)

(** A command read at [s] as [c], up to [s']. *)
Definition reads (c : cmd (list Z)) (o : outcome nat (cmd tok)) s' : Prop := exists c', o = Ret c' s' /\ cmd_map (slice b) c' = c.

Lemma pipe_end n s c s' l : reads c (parseexec b n s) s' -> suf s' l -> quiet [124] l -> reads c (parsepipe b (S n) s) s'.
Proof. intros (c' & E & Hc) Hs Hq. exists c'. split; [|done]. cbn [parsepipe]. by rewrite (bind_ret_eq _ _ _ _ _ E), (peek_quiet _ _ s' l). Qed.

Lemma line_end n s c s' l : reads c (parsepipe b n s) s' -> suf s' l -> quiet [38] l -> quiet [59] l -> reads c (parseline b (S n) s) s'.
Proof.
  intros (c' & E & Hc) Hs H1 H2. exists c'. split; [|done]. cbn [parseline]. rewrite (bind_ret_eq _ _ _ _ _ E).
  assert (parseback b (S es) c' s' = Ret c' s') as Eb by (cbn [parseback]; by rewrite (peek_quiet _ _ s' l)). by rewrite (bind_ret_eq _ _ _ _ _ Eb), (peek_quiet _ _ s' l).
Qed.

(** [parseline] reads the text of [c] where a block or the line ends. *)
Definition readable_line (c : cmd (list Z)) : Prop :=
  forall s n l, suf s (print c ++ l) -> closer l -> room b 4 n s -> reads c (parseline b n s) (skip b (s + length (print c))).

(** No text starts with a blank. *)
Lemma print_head c l : words_ok c -> strchr whitespace (hd (print c ++ 41 :: l)) = false.
Proof. intros Hw. destruct c as [[|w ws]| | | |]; try done. by apply join_head. Qed.

Lemma block_parse c s n l l' : readable_line c -> words_ok c -> suf s (40 :: print c ++ 41 :: l) -> follow l l' -> room b 2 n s ->
  let p := skip b (s + length (print c) + 2) in
  exists c', parseexec b n s = parseredirs b (S es) c' p /\ cmd_map (slice b) c' = c /\ suf p l'.
Proof.
  intros IH Hw Hs Hf [Hr1 Hr2] p. destruct n as [|[|n]]; [lia|lia|]. destruct (suf_cons _ _ _ Hs) as [Hlt Hs1]. pose proof (print_head c l Hw) as Hh.
  destruct (IH (S s) n (41 :: l) Hs1) as (c' & E & Hc); [by right; right|split; lia|]. exists c'.
  pose proof (suf_app _ _ _ Hs1) as Hs2. destruct (suf_cons _ _ _ Hs2) as [_ Hs3]. rewrite (skip_at _ _ Hs2) in E by done.
  replace p with (skip b (S (S s + length (print c)))) by (unfold p; f_equal; lia). split; [|split; [done|by apply follow_suf with l]].
  cbn [parseexec]. rewrite (peek_sym _ _ s 40 _ Hs) by done. cbn [parseblock]. rewrite (peek_sym _ _ s 40 _ Hs) by done. cbn [negb].
  rewrite (gettoken_sym _ s 40 _ Hs) by done. rewrite (skip_at _ _ Hs1 Hh), (bind_ret_eq _ _ _ _ _ E).
  rewrite (peek_sym _ _ _ 41 _ Hs2) by done. cbn [negb]. by rewrite (gettoken_sym _ _ 41 _ Hs2).
Qed.

(** A block that is a command of its own, up to the rest of its pipeline. *)
Lemma block_plain c s n l l' : readable_line c -> words_ok c -> suf s (40 :: print c ++ 41 :: l) -> follow l l' -> quiet [LT; GT] l' -> room b 2 n s ->
  let p := skip b (s + length (print c) + 2) in reads c (parseexec b n s) p /\ suf p l'.
Proof.
  intros IH Hw Hs Hf Hq Hr p. destruct (block_parse c s n l l' IH Hw Hs Hf Hr) as (c' & E & Hc & Hs'). split; [|done].
  exists c'. split; [|done]. by rewrite E, (redirs_quiet es c' _ l').
Qed.

Lemma block_pipe c s n l l' : readable_line c -> words_ok c -> suf s (40 :: print c ++ 41 :: l) -> follow l l' -> quiet [LT; GT] l' -> quiet [124] l' -> room b 3 n s ->
  let p := skip b (s + length (print c) + 2) in reads c (parsepipe b n s) p /\ suf p l'.
Proof.
  intros IH Hw Hs Hf H1 H2 [Hr1 Hr2] p. destruct n as [|n]; [lia|]. destruct (block_plain c s n l l' IH Hw Hs Hf H1 ltac:(split; lia)) as [Hr Hs'].
  split; [|done]. by apply (pipe_end n s c _ l').
Qed.

Lemma block_line c s n l : readable_line c -> words_ok c -> suf s (40 :: print c ++ 41 :: l) -> closer l -> room b 4 n s ->
  reads c (parseline b n s) (skip b (s + length (print c) + 2)).
Proof.
  intros IH Hw Hs Hl [Hr1 Hr2]. destruct n as [|n]; [lia|].
  destruct (block_pipe c s n l (trim l) IH Hw Hs (follow_trim l Hl) ltac:(by apply quiet_closer) ltac:(by apply quiet_closer) ltac:(split; lia)) as [Hr Hs'].
  apply (line_end n s c _ (trim l)); try done; by apply quiet_closer.
Qed.

Lemma exec_parse argv s n l : suf s (join argv ++ l) -> closer l -> Forall wordlike argv -> (length argv < MAXARGS)%nat -> room b 2 n s ->
  reads (EXEC argv) (parseexec b n s) (skip b (s + length (join argv))).
Proof.
  intros Hs Hl Hw Ha [Hr1 Hr2]. destruct n as [|n]; [lia|]. cbn [parseexec]. destruct (settle_join s argv l Hs Hw Hl) as (l1 & Hs1 & Hl1 & Hb & Hp).
  assert (forall toks, strchr toks 41 = false -> (forall x, x ∈ toks -> x ∈ symbols) -> quiet toks (join argv ++ l1)) as Hq by (intros; by apply quiet_join).
  destruct (Hq [40] eq_refl ltac:(by apply in_syms)) as [_ Hq40]. rewrite peek_bind, (suf_deref _ _ Hs1), Hq40.
  rewrite (bind_ret_eq _ _ _ _ _ (redirs_quiet es (EXEC []) (skip b s) _ Hs1 (Hq [LT; GT] eq_refl ltac:(by apply in_syms)))).
  assert (length argv < S es)%nat as Hf.
  { pose proof (suf_len _ _ Hs) as Hlen. rewrite length_app in Hlen. assert (length argv <= length (join argv))%nat; [|lia]. clear - Hw.
    induction Hw as [|w ws [Hne _] Hws IH]; [done|]. destruct w as [|x w]; [done|]. destruct ws as [|w' ws]; cbn [join]; [simpl; lia|].
    rewrite length_app. simpl in *. lia. }
  destruct (args_parse argv (S es) 0 (EXEC []) (skip b s) l1 Hs1 Hl1 Hb Hw Ha Hf) as (ts & E & Et).
  exists (EXEC ts). rewrite E, add_args, Hp. split; [done|]. simpl. by rewrite Et.
Qed.

Lemma wordlike_hd f l : wordlike f -> strchr whitespace (hd (f ++ l)) = false /\ hd (f ++ l) <> GT.
Proof.
  intros Hf. destruct (quiet_word [] f l Hf ltac:(set_solver)) as [H1 _]. split; [done|]. destruct Hf as [Hne Hf]. destruct f as [|c f]; [done|].
  destruct (Hf c ltac:(set_solver)) as [Hc H0]. apply (word_head c Hc H0).
Qed.

(** The file of a redirection, and the end of the loop. *)
Lemma redir_file (t : nat -> nat -> cmd tok) f s l : suf s (f ++ l) -> wordlike f -> closer l ->
  (('(t2, q, eq) ← gettoken b; if negb (t2 =? 97) then panic "missing file for redirection" else parseredirs b es (t q eq)) s) =
  Ret (t s (s + length f)%nat) (skip b (s + length f)).
Proof.
  intros Hs Hf Hl. pose proof (suf_app _ _ _ Hs) as Hs2. pose proof (follow_suf _ _ _ Hs2 (follow_trim l Hl)) as Hs3.
  rewrite (gettoken_word _ _ f l Hs Hf (closer_ends_word _ Hl)). change (97 =? 97) with true. cbn [negb].
  assert (exists k, es = S k) as [k ->].
  { destruct es as [|k] eqn:E; [|by exists k]. pose proof (suf_len _ _ Hs) as Hlen. rewrite E, length_app in Hlen. destruct Hf as [Hne _]. destruct f; [done|]. simpl in Hlen. lia. }
  by rewrite (redirs_quiet k _ _ _ Hs3) by by apply quiet_closer.
Qed.

Lemma redir_parse c mode fd f s l : suf s (print_op mode ++ f ++ l) -> redir_ok mode fd -> wordlike f -> closer l ->
  exists t, parseredirs b (S es) c s = Ret (REDIR c t mode fd) (skip b (s + length (print_op mode ++ f))) /\ slice b t = f.
Proof.
  intros Hs Hm Hf Hl. destruct (wordlike_hd f l Hf) as [Hw Hg]. pose proof (suf_app _ _ _ Hs) as Hs1.
  exists ((s + length (print_op mode))%nat, (s + length (print_op mode) + length f)%nat). split; [|by apply suf_slice with l].
  rewrite length_app, Nat.add_assoc. apply list_elem_of_In in Hm. cbn [In] in Hm. cbn [parseredirs].
  destruct Hm as [[= <- <-]|[[= <- <-]|[[= <- <-]|[]]]]; change (print_op _) with [LT] in * || change (print_op _) with [GT; GT] in * || change (print_op _) with [GT] in *;
    cbn [app length] in *; rewrite ?Nat.add_1_r in *.
  - rewrite (peek_sym _ _ s LT (f ++ l) Hs) by done. rewrite (gettoken_sym _ s LT (f ++ l) Hs), (skip_at _ _ Hs1 Hw) by done.
    exact (redir_file (fun q eq => REDIR c (q, eq) O_RDONLY 0) f _ l Hs1 Hf Hl).
  - rewrite (peek_sym _ _ s GT (f ++ l) Hs) by done. rewrite (gettoken_gt _ s (f ++ l) Hs) by done.
    exact (redir_file (fun q eq => REDIR c (q, eq) (Z.lor (Z.lor O_WRONLY O_CREATE) O_TRUNC) 1) f _ l Hs1 Hf Hl).
  - rewrite (peek_sym _ _ s GT (GT :: f ++ l) Hs) by done. rewrite (gettoken_gtgt _ s (f ++ l) Hs) by done. replace (s + 2)%nat with (S (S s)) in * by lia.
    exact (redir_file (fun q eq => REDIR c (q, eq) (Z.lor O_WRONLY O_CREATE) 1) f _ l Hs1 Hf Hl).
Qed.

(** Texts in the shape the lemmas above expect. *)
Lemma print_two k (c1 c2 : list Z) l : (40 :: c1 ++ 41 :: k :: 40 :: c2 ++ [41]) ++ l = 40 :: c1 ++ 41 :: k :: 40 :: c2 ++ 41 :: l.
Proof. simpl. rewrite <- !app_assoc. simpl. by rewrite <- app_assoc. Qed.

Lemma print_two_len s k (c1 c2 : list Z) : (s + length (40%Z :: c1 ++ 41%Z :: k :: 40%Z :: c2 ++ [41%Z]) = S (s + length c1 + 2) + length c2 + 2)%nat.
Proof. simpl. rewrite length_app. simpl. rewrite length_app. simpl. lia. Qed.

Lemma after_block s (c : list Z) k l : suf s (40 :: c ++ 41 :: k :: l) -> strchr whitespace k = false -> skip b (s + length c + 2) = (s + length c + 2)%nat.
Proof.
  intros Hs Hk. apply suf_cons in Hs as [_ Hs]. apply suf_app, suf_cons in Hs as [_ Hs]. replace (s + length c + 2)%nat with (S (S s + length c)) by lia.
  by apply skip_at with (k :: l).
Qed.

Lemma pipe_readable c1 c2 : readable_line c1 -> readable_line c2 -> words_ok c1 -> words_ok c2 -> readable_line (PIPE c1 c2).
Proof.
  intros I1 I2 W1 W2 s n l Hs Hl [Hr1 Hr2]. destruct n as [|[|n]]; [lia|lia|]. cbn [print] in *. rewrite print_two in Hs. rewrite print_two_len.
  destruct (block_plain c1 s n _ _ I1 W1 Hs ltac:(by left) ltac:(done) ltac:(split; lia)) as [(c1' & E1 & Hc1) Hs1].
  rewrite (after_block _ _ _ _ Hs) in E1, Hs1 by done. destruct (suf_cons _ _ _ Hs1) as [Hlt Hs2].
  destruct (block_pipe c2 _ n l (trim l) I2 W2 Hs2 (follow_trim l Hl) ltac:(by apply quiet_closer) ltac:(by apply quiet_closer) ltac:(split; lia)) as [(c2' & E2 & Hc2) Hs3].
  apply (line_end (S n) s _ _ (trim l)); [|done|by apply quiet_closer..]. exists (PIPE c1' c2'). split; [|simpl; congruence]. cbn [parsepipe].
  rewrite (bind_ret_eq _ _ _ _ _ E1), (peek_sym _ _ _ 124 _ Hs1) by done. rewrite (gettoken_sym _ _ 124 _ Hs1), (skip_at _ _ Hs2) by done. by rewrite (bind_ret_eq _ _ _ _ _ E2).
Qed.

Lemma list_readable c1 c2 : readable_line c1 -> readable_line c2 -> words_ok c1 -> words_ok c2 -> readable_line (LIST c1 c2).
Proof.
  intros I1 I2 W1 W2 s n l Hs Hl [Hr1 Hr2]. destruct n as [|n]; [lia|]. cbn [print] in *. rewrite print_two in Hs. rewrite print_two_len.
  destruct (block_pipe c1 s n _ _ I1 W1 Hs ltac:(by left) ltac:(done) ltac:(done) ltac:(split; lia)) as [(c1' & E1 & Hc1) Hs1].
  rewrite (after_block _ _ _ _ Hs) in E1, Hs1 by done. destruct (suf_cons _ _ _ Hs1) as [Hlt Hs2].
  destruct (block_line c2 _ n l I2 W2 Hs2 Hl ltac:(split; lia)) as (c2' & E2 & Hc2).
  exists (LIST c1' c2'). split; [|simpl; congruence]. cbn [parseline]. rewrite (bind_ret_eq _ _ _ _ _ E1).
  assert (parseback b (S es) c1' (s + length (print c1) + 2)%nat = Ret c1' (s + length (print c1) + 2)%nat) as Eb by (cbn [parseback]; by rewrite (peek_quiet _ _ _ _ Hs1)).
  rewrite (bind_ret_eq _ _ _ _ _ Eb), (peek_sym _ _ _ 59 _ Hs1) by done. rewrite (gettoken_sym _ _ 59 _ Hs1), (skip_at _ _ Hs2) by done.
  by rewrite (bind_ret_eq _ _ _ _ _ E2).
Qed.

Lemma back_readable c : readable_line c -> words_ok c -> readable_line (BACK c).
Proof.
  intros I W s n l Hs Hl [Hr1 Hr2]. destruct n as [|n]; [lia|]. cbn [print] in *.
  assert ((40 :: print c ++ [41; 38]) ++ l = 40 :: print c ++ 41 :: 38 :: l) as E0 by (simpl; by rewrite <- app_assoc). rewrite E0 in Hs.
  destruct (block_pipe c s n _ _ I W Hs ltac:(by left) ltac:(done) ltac:(done) ltac:(split; lia)) as [(c' & E1 & Hc1) Hs1].
  rewrite (after_block _ _ _ _ Hs) in E1, Hs1 by done. destruct (suf_cons _ _ _ Hs1) as [Hlt Hs2]. pose proof (follow_suf _ _ _ Hs2 (follow_trim l Hl)) as Hs3.
  replace (s + length (40%Z :: print c ++ [41%Z; 38%Z]))%nat with (S (s + length (print c) + 2))%nat by (simpl; rewrite length_app; simpl; lia).
  exists (BACK c'). split; [|simpl; congruence]. cbn [parseline]. rewrite (bind_ret_eq _ _ _ _ _ E1). destruct es as [|k] eqn:Ek; [lia|].
  assert (parseback b (S (S k)) c' (s + length (print c) + 2)%nat = Ret (BACK c') (skip b (S (s + length (print c) + 2)))) as Eb.
  { cbn [parseback]. rewrite (peek_sym _ _ _ 38 _ Hs1) by done. rewrite (gettoken_sym _ _ 38 _ Hs1) by done.
    by rewrite (peek_quiet _ _ _ _ Hs3) by by apply quiet_closer. }
  rewrite (bind_ret_eq _ _ _ _ _ Eb). by rewrite (peek_quiet _ _ _ _ Hs3) by by apply quiet_closer.
Qed.

Lemma redir_readable c f mode fd : readable_line c -> words_ok c -> wordlike f -> redir_ok mode fd -> readable_line (REDIR c f mode fd).
Proof.
  intros I W Wf Hm s n l Hs Hl [Hr1 Hr2]. destruct n as [|[|n]]; [lia|lia|]. cbn [print] in *.
  assert ((40 :: print c ++ 41 :: print_op mode ++ f) ++ l = 40 :: print c ++ 41 :: (print_op mode ++ f ++ l)) as E0 by (simpl; rewrite <- app_assoc; simpl; by rewrite <- app_assoc).
  rewrite E0 in Hs. assert (strchr whitespace (hd (print_op mode ++ f ++ l)) = false) as Hop by (unfold print_op; by repeat case_match).
  destruct (block_parse c s n _ _ I W Hs ltac:(by left) ltac:(split; lia)) as (c' & E1 & Hc1 & Hs1).
  assert (skip b (s + length (print c) + 2) = s + length (print c) + 2)%nat as Ep.
  { unfold print_op in Hs. repeat case_match; apply (after_block _ _ _ _ Hs); done. }
  rewrite Ep in E1, Hs1. destruct (redir_parse c' mode fd f _ l Hs1 Hm Wf Hl) as (t & E2 & Ht).
  pose proof Hs1 as Hs2. rewrite app_assoc in Hs2. apply suf_app in Hs2. pose proof (follow_suf _ _ _ Hs2 (follow_trim l Hl)) as Hs3.
  replace (s + length (40%Z :: print c ++ 41%Z :: print_op mode ++ f))%nat with (s + length (print c) + 2 + length (print_op mode ++ f))%nat
    by (simpl; rewrite (length_app (print c)); simpl; lia).
  apply (line_end (S n) s _ _ (trim l)); [|done|by apply quiet_closer..]. apply (pipe_end n s _ _ (trim l)); [|done|by apply quiet_closer].
  exists (REDIR c' t mode fd). split; [by rewrite E1|]. simpl. congruence.
Qed.

Lemma print_readable c : cmd_ok c -> words_ok c -> readable_line c.
Proof.
  induction c as [argv|c IH f m fd|c1 IH1 c2 IH2|c1 IH1 c2 IH2|c IH]; cbn [cmd_ok words_ok]; intros Hc Hw.
  - intros s n l Hs Hl [Hr1 Hr2]. destruct n as [|[|n]]; [lia|lia|]. pose proof (follow_suf _ _ _ (suf_app _ _ _ Hs) (follow_trim l Hl)) as Hs'. cbn [print] in *.
    apply (line_end (S n) s _ _ (trim l)); [|done|by apply quiet_closer..]. apply (pipe_end n s _ _ (trim l)); [|done|by apply quiet_closer].
    apply (exec_parse argv s n l); [done..|split; lia].
  - destruct Hc, Hw. apply redir_readable; auto.
  - destruct Hc, Hw. apply pipe_readable; auto.
  - destruct Hc, Hw. apply list_readable; auto.
  - apply back_readable; auto.
Qed.
End roundtrip.

(** ** What a line runs *)

(** What a descriptor refers to. *)
Inductive obj := OFile (path : list Z) (mode : Z) | OPipeR (n : nat) | OPipeW (n : nat) | OOther (n : nat).
Abbreviation fds := (list (option obj)).

(** The lowest free descriptor, as [fdalloc] finds it. *)
Definition lowest (f : fds) : option nat := find_fd NOFILEn 0 ((fun o : option obj => (fun _ => O) <$> o) <$> f).

(** What a process does, as far as others see it: the children it forks,
    the waits, with the descriptors that it keeps open meanwhile, and the program it
    becomes, with its arguments and descriptors, or its exit. *)
Inductive act :=
| AFork (child : list act)
| AWait (f : fds)
| AExec (path : list Z) (argv : list (list Z)) (f : fds)
| AExit (status : Z).

(** A process run with descriptors [f], when the calls that find a free
    descriptor succeed; [n] numbers the pipes. *)
Fixpoint launch (p : prog) (f : fds) (n : nat) : list act * nat :=
  match p with
  | Exit st => ([AExit st], n)
  | Execv path argv _ => ([AExec path argv f], n)
  | Open path mode k =>
      match lowest f with Some fd => launch (k fd) (<[fd := Some (OFile path mode)]> f) n | None => launch (k (-1)) f n end
  | Close fd k => launch k (<[Z.to_nat fd := None]> f) n
  | Dup fd k =>
      match f !!! Z.to_nat fd, lowest f with Some o, Some fd' => launch (k fd') (<[fd' := Some o]> f) n | _, _ => launch (k (-1)) f n end
  | Pipe k =>
      match lowest f with
      | None => launch (k None) f n
      | Some r =>
          let f := <[r := Some (OPipeR n)]> f in
          match lowest f with
          | None => launch (k None) f n
          | Some w => launch (k (Some (Z.of_nat r, Z.of_nat w))) (<[w := Some (OPipeW n)]> f) (S n)
          end
      end
  | Fork k => let '(l1, n1) := launch (k 0) f n in let '(l2, n2) := launch (k 1) f n1 in (AFork l1 :: l2, n2)
  | Wait k => let '(l, n) := launch k f n in (AWait f :: l, n)
  | Chdir _ k => launch (k 0) f n
  | Print _ _ k => launch k f n
  end.

(** The descriptors of a process with only the three standard ones. *)
Definition std (i o e : obj) : fds := [Some i; Some o; Some e] ++ replicate 13 None.

(** What the text of a command asks of the process that runs it. *)
Fixpoint wiring (c : cmd (list Z)) (i o e : obj) (n : nat) : list act * nat :=
  match c with
  | EXEC [] => ([AExit 1], n)
  | EXEC (a :: args) => ([AExec a (a :: args) (std i o e)], n)
  | REDIR c f mode fd => if fd =? 0 then wiring c (OFile f mode) o e n else wiring c i (OFile f mode) e n
  | PIPE c1 c2 =>
      let '(l1, n1) := wiring c1 i (OPipeW n) e (S n) in
      let '(l2, n2) := wiring c2 (OPipeR n) o e n1 in
      ([AFork l1; AFork l2; AWait (std i o e); AWait (std i o e); AExit 0], n2)
  | LIST c1 c2 =>
      let '(l1, n1) := wiring c1 i o e n in
      let '(l2, n2) := wiring c2 i o e n1 in
      (AFork l1 :: AWait (std i o e) :: l2, n2)
  | BACK c => let '(l, n) := wiring c i o e n in ([AFork l; AExit 0], n)
  end.

Lemma runcmd_wiring l c i o e n : cmd_ok c -> launch (runcmd l c) (std i o e) n = wiring (cmd_map (fun t : tok => cstr l t.1) c) i o e n.
Proof.
  revert i o e n. induction c as [argv|c IH f m fd|c1 IH1 c2 IH2|c1 IH1 c2 IH2|c IH]; intros i o e n Hc.
  - by destruct argv.
  - destruct Hc as [Hc Hm]. assert (fd = 0 \/ fd = 1) as [-> | ->] by (apply list_elem_of_In in Hm; cbn [In] in Hm; naive_solver).
    + apply (IH (OFile (cstr l f.1) m) o e n Hc).
    + apply (IH i (OFile (cstr l f.1) m) e n Hc).
  - destruct Hc as [H1 H2]. cbn [cmd_map wiring]. rewrite <- IH1 by done.
    transitivity (let '(l1, n1) := launch (runcmd l c1) (std i (OPipeW n) e) (S n) in
      let '(l2, n2) := (let '(l2, n2) := launch (runcmd l c2) (std (OPipeR n) o e) n1 in (AFork l2 :: [AWait (std i o e); AWait (std i o e); AExit 0], n2)) in
      (AFork l1 :: l2, n2)); [reflexivity|].
    destruct (launch (runcmd l c1) _ (S n)) as [l1 n1]. rewrite IH2 by done. by destruct (wiring _ _ _ _ n1) as [l2 n2].
  - destruct Hc as [H1 H2]. cbn [cmd_map wiring runcmd fork1 launch]. rewrite <- IH1 by done. cbn [Z.eqb].
    destruct (launch (runcmd l c1) _ n) as [l1 n1]. cbn [launch]. rewrite IH2 by done. by destruct (wiring _ _ _ _ n1).
  - cbn [cmd_map wiring runcmd fork1 launch Z.eqb]. rewrite IH by done. by destruct (wiring _ _ _ _ n) as [l1 n1].
Qed.

Lemma cmd_map_ext {U} (f g : tok -> U) c : (forall t, t ∈ toks c -> f t = g t) -> cmd_map f c = cmd_map g c.
Proof.
  induction c as [argv|c IH x m fd|c1 IH1 c2 IH2|c1 IH1 c2 IH2|c IH]; cbn [toks cmd_map]; intros Hf; f_equal; try (apply IH1 || apply IH2 || apply IH); try (intros; apply Hf; set_solver).
  apply list_fmap_ext. intros i t Ht. apply Hf. by eapply list_elem_of_lookup_2.
Qed.

Lemma print_no_nul c : words_ok c -> 0 ∉ print c.
Proof.
  assert (forall w, wordlike w -> 0 ∉ w) as Hwl by (intros w [_ Hw] Hin; by destruct (Hw 0 Hin)).
  induction c as [argv|c IH f m fd|c1 IH1 c2 IH2|c1 IH1 c2 IH2|c IH]; cbn [words_ok print]; intros Hw.
  - induction Hw as [|w ws Hw Hws IH]; [set_solver|]. specialize (Hwl w Hw). destruct ws as [|w' ws]; [done|]. cbn [join] in *. set_solver.
  - destruct Hw as [Hw Hf]. specialize (Hwl f Hf). specialize (IH Hw). assert (0 ∉ print_op m) as Hop by (unfold print_op, LT, GT; repeat case_match; set_solver). set_solver.
  - destruct Hw. set_solver.
  - destruct Hw. set_solver.
  - set_solver.
Qed.

Lemma parseline_all b : ends (parseline b (parse_fuel b) 0%nat) (parsed b 0).
Proof. apply parse_spec. split; [lia|]. unfold parse_fuel. lia. Qed.

(** What a printed line parses to, before its strings are terminated. *)
Lemma parsecmd_print c nl : cmd_ok c -> words_ok c -> nl = [] \/ nl = [10] ->
  let b := print c ++ nl in exists c', parsecmd b = Ret (c', nulterminate c' (b ++ [0])) (length b) /\ good b c' /\
    cmd_map (fun t : tok => cstr (nulterminate c' (b ++ [0])) t.1) c' = c.
Proof.
  intros Hc Hw Hnl b. assert (suf b 0%nat (print c ++ nl)) as Hs by (split; [lia|done]). assert (closer nl) as Hcl by (destruct Hnl as [-> | ->]; [by left|by right; left]).
  assert (0 ∉ b) as Hz by (unfold b; pose proof (print_no_nul c Hw); destruct Hnl as [-> | ->]; set_solver).
  destruct (print_readable b c Hc Hw 0%nat (parse_fuel b) nl Hs Hcl) as (c' & E & Hm); [split; [lia|unfold parse_fuel; lia]|]. cbn [Nat.add] in E.
  pose proof (follow_suf _ _ _ _ (suf_app _ _ _ _ Hs) (follow_trim nl Hcl)) as Hs'. assert (trim nl = []) as Et by (destruct Hnl as [-> | ->]; done). rewrite Et in Hs'. cbn [Nat.add] in Hs'.
  assert (skip b (length (print c)) = es b) as Ep by (pose proof (suf_len _ _ _ Hs') as Hlen; destruct Hs' as [? _]; simpl in Hlen; lia).
  pose proof (parseline_all b) as Hg. rewrite E in Hg. destruct Hg as [_ Hg]. exists c'. split_and!; [|done|].
  - unfold parsecmd. rewrite (bind_ret_eq _ _ _ _ _ E), peek_bind, Ep. rewrite skip_stop by by rewrite deref_out. msimpl. by rewrite Nat.eqb_refl.
  - rewrite <- Hm. apply cmd_map_ext. intros t Ht. apply nulterminate_spec; [done|apply Hg|done].
Qed.

(** C21: Parsing a line ends, with a command or a syntax error.  The fuel given
    to the mutually recursive routines is always enough; a command has at most
    nine arguments, so the null that ends [argv] is inside the array; each string
    of it is a whole word of the line, and once the strings are terminated each
    reads as exactly that word, so no terminator falls inside another string. *)
Theorem parsecmd_terminates b : 0 ∉ b ->
  ends (parsecmd b) (fun r _ => cmd_ok r.1 /\ length r.2 = S (length b) /\ forall t, t ∈ toks r.1 -> word b t /\ cstr r.2 t.1 = slice b t).
Proof.
  intros Hz. unfold parsecmd. apply ends_bind. eapply ends_mono; [apply parseline_all|]. intros c s [_ [Hc Ht]]. rewrite peek_bind. msimpl.
  destruct (skip b s =? es b)%nat; [|done]. cbn. split_and!; [done| |].
  - rewrite nulterminate_fold. assert (forall l, length (fold_left (fun l (t : tok) => <[t.2 := 0]> l) (toks c) l) = length l) as ->.
    { clear. induction (toks c) as [|t ts IH]; intros l; [done|]. cbn. by rewrite IH, length_insert. }
    rewrite length_app. simpl. lia.
  - intros t Hin. split; [by apply (proj1 (Forall_forall _ _) Ht)|by apply nulterminate_spec].
Qed.

(** C22: The parser inverts printing: the text of any command (at most nine
    words in each simple command, the three kinds of redirection, pipes, lists
    and background commands nested with parentheses to any depth), with or
    without its newline, parses to that command. *)
Theorem parse_print c nl : cmd_ok c -> words_ok c -> nl = [] \/ nl = [10] ->
  exists c' l s, parsecmd (print c ++ nl) = Ret (c', l) s /\ cmd_map (fun t : tok => cstr l t.1) c' = c.
Proof. intros Hc Hw Hn. destruct (parsecmd_print c nl Hc Hw Hn) as (c' & E & _ & Hm). eauto. Qed.

(** C23: A line that is the text of a command, when the calls succeed, makes the
    shell fork a process and wait for it; that process does exactly what the command asks.
    It starts the programs named, with the descriptors asked for: a redirection
    replaces standard input or output, the two sides of a pipe share a new
    pipe.  The programs, and the shells that wait for them, keep no other descriptor
    open (a shell that runs a pipe has closed both its ends before it waits for
    both sides, one that runs a list waits between the commands, one that starts a
    background command does not wait): only the processes on its two sides have the
    ends of a pipe open. *)
Theorem shell_line_wiring c i o e n : cmd_ok c -> words_ok c -> take 3 (print c) <> [99; 100; 32] ->
  launch (main_line (print c ++ [10]) (Exit 0)) (std i o e) n = let '(l, n') := wiring c i o e n in ([AFork l; AWait (std i o e); AExit 0], n').
Proof.
  intros Hc Hw Hcd. destruct (parsecmd_print c [10] Hc Hw ltac:(by right)) as (c' & E & [Hg _] & Hm). unfold main_line.
  assert ((deref (print c ++ [10]) 0 =? 99) && (deref (print c ++ [10]) 1 =? 100) && (deref (print c ++ [10]) 2 =? 32) = false) as ->.
  { apply not_true_iff_false. intros [[H1 H2]%andb_true_iff H3]%andb_true_iff. apply Z.eqb_eq in H1, H2, H3. destruct Hcd.
    destruct (print c) as [|x [|y [|z p]]]; unfold deref in *; cbn in *; (lia || by subst). }
  cbn [fork1 launch Z.eqb]. rewrite E. rewrite runcmd_wiring, Hm by done. by destruct (wiring c i o e n) as [l1 n1].
Qed.

(** "ls > f" and "cat f | wc" *)
Definition demo_cmd : cmd (list Z) :=
  LIST (REDIR (EXEC [[108; 115]]) [102] (Z.lor (Z.lor O_WRONLY O_CREATE) O_TRUNC) 1) (PIPE (EXEC [[99; 97; 116]; [102]]) (EXEC [[119; 99]])).

Lemma demo_cmd_ok : cmd_ok demo_cmd /\ words_ok demo_cmd.
Proof.
  assert (forall w, w <> [] -> forallb (fun c => word_char c && negb (c =? 0)) w = true -> wordlike w) as Hwl.
  { intros w Hne Hf. split; [done|]. intros c Hc. apply list_elem_of_In in Hc. pose proof (proj1 (forallb_forall _ _) Hf c Hc) as [H1 H2]%andb_true_iff.
    split; [done|]. by apply negb_true_iff, Z.eqb_neq in H2. }
  split; cbn [demo_cmd cmd_ok words_ok].
  - unfold MAXARGS, redir_ok. simpl. split_and!; try lia. set_solver.
  - split_and!; try constructor; try (by apply Hwl); constructor; try constructor; by apply Hwl.
Qed.

Lemma parsecmd_terminates_witness : ends (parsecmd [108; 115; 32; 124]) (fun r _ => cmd_ok r.1).
Proof.
  eapply ends_mono; [apply (parsecmd_terminates [108; 115; 32; 124])|]; [|by intros r s (Hc & _)].
  intros Hin. apply list_elem_of_In in Hin. simpl in Hin. lia.
Defined.

Lemma parse_print_witness : exists c' l s, parsecmd (print demo_cmd ++ [10]) = Ret (c', l) s /\ cmd_map (fun t : tok => cstr l t.1) c' = demo_cmd.
Proof. exact (parse_print demo_cmd [10] (proj1 demo_cmd_ok) (proj2 demo_cmd_ok) (or_intror eq_refl)). Defined.

Lemma shell_line_wiring_witness : let f := std (OOther 0) (OOther 1) (OOther 2) in launch (main_line (print demo_cmd ++ [10]) (Exit 0)) f 0 =
  ([AFork [AFork [AExec [108; 115] [[108; 115]] (std (OOther 0) (OFile [102] 1537) (OOther 2))]; AWait f;
           AFork [AExec [99; 97; 116] [[99; 97; 116]; [102]] (std (OOther 0) (OPipeW 0) (OOther 2))];
           AFork [AExec [119; 99] [[119; 99]] (std (OPipeR 0) (OOther 1) (OOther 2))]; AWait f; AWait f; AExit 0];
    AWait f; AExit 0], 1%nat).
Proof. exact (shell_line_wiring demo_cmd (OOther 0) (OOther 1) (OOther 2) 0 (proj1 demo_cmd_ok) (proj2 demo_cmd_ok) ltac:(done)). Defined.
