(* ===== verification/Umalloc.v ===== *)
(** * The user allocator (user/umalloc.c)

    A heap of blocks, each with a 16-byte header: the free ones form a circular
    list in address order that starts at the static header [base].  [grows]
    says whether the kernel gives more memory to a process whose break is at
    the first argument. *)

From S2P Require Import Prelude Riscv Mem.

Definition ld32 (m : memory) (a : Z) : Z := le_val (ld_bytes m a 4).
Definition st32 (m : memory) (a v : Z) : memory := st_bytes m a (le_bytes 4 v).

(** [sizeof(Header)] *)
Definition HSIZE : Z := 16.

(** The process: its memory, [freep], and the end of its memory. *)
Record ust := mk_ust { umem : memory; freep : Z; brk : Z }.

Definition set_umem (m : memory) (s : ust) : ust := mk_ust m (freep s) (brk s).
Definition set_freep (p : Z) (s : ust) : ust := mk_ust (umem s) p (brk s).
Definition set_brk (b : Z) (s : ust) : ust := mk_ust (umem s) (freep s) b.

(** The fields of the header at [p]: [s.ptr] and [s.size]. *)
Definition hptr (m : memory) (p : Z) : Z := ld64 m p.
Definition hsize (m : memory) (p : Z) : Z := ld32 m (p + 8).
Definition getptr (p : Z) : M ust Z := gets (fun s => hptr (umem s) p).
Definition getsize (p : Z) : M ust Z := gets (fun s => hsize (umem s) p).
Definition putptr (p v : Z) : M ust unit := modify (fun s => set_umem (st64 (umem s) p v) s).
Definition putsize (p v : Z) : M ust unit := modify (fun s => set_umem (st32 (umem s) (p + 8) v) s).

(** The loop of [free]: where the block [bp] belongs. *)
Fixpoint free_find (fuel : nat) (bp p : Z) : M ust Z :=
  match fuel with
  | O => diverge
  | S fuel =>
      q ← getptr p;
      if (p <? bp) && (bp <? q) then mret p
      else if (q <=? p) && ((p <? bp) || (bp <? q)) then mret p
      else free_find fuel bp q
  end.

(** Join [bp] to the free block after it, or to the list. *)
Definition free_next (bp p : Z) : M ust unit :=
  q ← getptr p;
  n ← getsize bp;
  if bp + n * HSIZE =? q then
    qn ← getsize q;
    putsize bp (u32 (n + qn));;
    qp ← getptr q;
    putptr bp qp
  else putptr bp q.

(** Join the free block before [bp] to it. *)
Definition free_prev (bp p : Z) : M ust unit :=
  n ← getsize p;
  if p + n * HSIZE =? bp then
    bn ← getsize bp;
    putsize p (u32 (n + bn));;
    q ← getptr bp;
    putptr p q
  else putptr p bp.

Definition free (fuel : nat) (ap : Z) : M ust unit :=
  let bp := ap - HSIZE in
  f ← gets freep;
  p ← free_find fuel bp f;
  free_next bp p;;
  free_prev bp p;;
  modify (set_freep p).

Section umalloc.
(** The address of the static header. *)
Context (base : Z).
Context (grows : Z -> Z -> bool).

(** The system call takes an [int]; it returns the old end, or -1. *)
Definition sbrk (n : Z) : M ust Z :=
  b ← gets brk;
  let n := to_int n in
  if grows b n then modify (set_brk (b + n));; mret b else mret (2 ^ 64 - 1).

Definition morecore (fuel : nat) (nu : Z) : M ust Z :=
  let nu := if nu <? 4096 then 4096 else nu in
  p ← sbrk (nu * HSIZE);
  if p =? 2 ^ 64 - 1 then mret 0
  else
    putsize p nu;;
    free fuel (p + HSIZE);;
    gets freep.

(** Take [nunits] from the free block [p], which has [n]. *)
Definition malloc_take (nunits prevp p n : Z) : M ust Z :=
  p ← (if n =? nunits then q ← getptr p; putptr prevp q;; mret p
       else
         putsize p (u32 (n - nunits));;
         let p' := p + u32 (n - nunits) * HSIZE in
         putsize p' nunits;;
         mret p');
  modify (set_freep prevp);;
  mret (p + HSIZE).

Fixpoint malloc_loop (fuel : nat) (nunits prevp p : Z) : M ust Z :=
  match fuel with
  | O => diverge
  | S fuel =>
      n ← getsize p;
      if nunits <=? n then malloc_take nunits prevp p n
      else
        f ← gets freep;
        if p =? f then
          p ← morecore fuel nunits;
          if p =? 0 then mret 0 else q ← getptr p; malloc_loop fuel nunits p q
        else q ← getptr p; malloc_loop fuel nunits p q
  end.

Definition malloc (fuel : nat) (nbytes : Z) : M ust Z :=
  let nunits := u32 ((nbytes + HSIZE - 1) / HSIZE + 1) in
  prevp ← gets freep;
  prevp ← (if prevp =? 0 then modify (set_freep base);; putptr base base;; putsize base 0;; mret base else mret prevp);
  p ← getptr prevp;
  malloc_loop fuel nunits prevp p.
End umalloc.
