(* ===== verification/UmallocThms.v ===== *)
(** * The user allocator keeps its blocks apart

    The heap is tiled by blocks, free ones never adjacent; [malloc] and [free]
    only change which tiles are in use, and never a byte of another one. *)

From Stdlib Require Import Sorting.Sorted.
From S2P Require Import Prelude Riscv Mem Umalloc.

(** ** Header fields *)

Lemma ld32_range m a : 0 <= ld32 m a < 2 ^ 32.
Proof. pose proof (le_val_range (ld_bytes m a 4)) as Hr. rewrite length_ld_bytes in Hr. exact Hr. Qed.

Lemma lookup_st32_out m a v x : x < a \/ a + 4 <= x -> st32 m a v !!! x = m !!! x.
Proof. intros. apply lookup_st_bytes_out. rewrite length_le_bytes. lia. Qed.

Lemma ld32_ext m m' a : (forall x, a <= x < a + 4 -> m !!! x = m' !!! x) -> ld32 m a = ld32 m' a.
Proof. intros Hm. unfold ld32. f_equal. by apply ld_bytes_ext. Qed.

Lemma ld32_st32_eq m a v : 0 <= v < 2 ^ 32 -> ld32 (st32 m a v) a = v.
Proof.
  intros Hv. unfold ld32, st32. rewrite <- (length_le_bytes 4 v) at 2. rewrite ld_st_bytes.
  rewrite <- (le_val_ext (le_bytes 4 v)), le_val_bytes by (rewrite map_map; apply map_ext; intros; by rewrite Z.mod_mod).
  change (256 ^ Z.of_nat 4) with (2 ^ 32). by apply Z.mod_small.
Qed.

(** Headers that do not overlap. *)
Definition apart (a b : Z) : Prop := a + HSIZE <= b \/ b + HSIZE <= a.

Section fields.
Implicit Types (m : memory) (a b v : Z).

Lemma hptr_ptr_eq m a v : 0 <= v < 2 ^ 64 -> hptr (st64 m a v) a = v.
Proof. apply ld64_st64_eq. Qed.
Lemma hptr_ptr_ne m a b v : apart a b -> hptr (st64 m a v) b = hptr m b.
Proof. unfold apart, HSIZE. intros. apply ld64_st64_ne. lia. Qed.
Lemma hptr_size m a b v : a = b \/ apart a b -> hptr (st32 m (a + 8) v) b = hptr m b.
Proof. unfold apart, HSIZE. intros. apply ld64_ext. intros. apply lookup_st32_out. lia. Qed.
Lemma hsize_size_eq m a v : 0 <= v < 2 ^ 32 -> hsize (st32 m (a + 8) v) a = v.
Proof. apply ld32_st32_eq. Qed.
Lemma hsize_size_ne m a b v : apart a b -> hsize (st32 m (a + 8) v) b = hsize m b.
Proof. unfold apart, HSIZE. intros. apply ld32_ext. intros. apply lookup_st32_out. lia. Qed.
Lemma hsize_ptr m a b v : a = b \/ apart a b -> hsize (st64 m a v) b = hsize m b.
Proof. unfold apart, HSIZE. intros. apply ld32_ext. intros. apply lookup_st64_out. lia. Qed.
End fields.

(** ** Tiles *)

(** Blocks from the start of the heap on: units, and whether in use. *)
Abbreviation tiles := (list (Z * bool)).

Fixpoint tend (a : Z) (T : tiles) : Z := match T with [] => a | (n, _) :: T => tend (a + n * HSIZE) T end.

Fixpoint frees (a : Z) (T : tiles) : list Z :=
  match T with [] => [] | (n, u) :: T => (if u : bool then [] else [a]) ++ frees (a + n * HSIZE) T end.

Fixpoint useds (a : Z) (T : tiles) : list (Z * Z) :=
  match T with [] => [] | (n, u) :: T => (if u : bool then [(a, n)] else []) ++ useds (a + n * HSIZE) T end.

Fixpoint tiled (m : memory) (a : Z) (T : tiles) : Prop :=
  match T with [] => True | (n, _) :: T => 1 <= n /\ hsize m a = n /\ tiled m (a + n * HSIZE) T end.

Definition starts_free (T : tiles) : bool := match T with (_, false) :: _ => true | _ => false end.

(** No two free blocks touch. *)
Fixpoint coalesced (T : tiles) : bool :=
  match T with [] => true | (_, u) :: T => (u || negb (starts_free T)) && coalesced T end.

Fixpoint positive (T : tiles) : Prop := match T with [] => True | (n, _) :: T => 1 <= n /\ positive T end.

Lemma tend_app a X Y : tend a (X ++ Y) = tend (tend a X) Y.
Proof. revert a. induction X as [|[n u] X IH]; intros a; simpl; auto. Qed.

Lemma frees_app a X Y : frees a (X ++ Y) = frees a X ++ frees (tend a X) Y.
Proof. revert a. induction X as [|[n u] X IH]; intros a; simpl; [done|]. by rewrite IH, app_assoc. Qed.

Lemma useds_app a X Y : useds a (X ++ Y) = useds a X ++ useds (tend a X) Y.
Proof. revert a. induction X as [|[n u] X IH]; intros a; simpl; [done|]. by rewrite IH, app_assoc. Qed.

Lemma tiled_app m a X Y : tiled m a (X ++ Y) <-> tiled m a X /\ tiled m (tend a X) Y.
Proof. revert a. induction X as [|[n u] X IH]; intros a; simpl; [tauto|]. rewrite IH. tauto. Qed.

Lemma tiled_positive m a T : tiled m a T -> positive T.
Proof. revert a. induction T as [|[n u] T IH]; intros a; simpl; [done|]. intros (? & _ & ?). eauto. Qed.

Lemma tend_ge a T : positive T -> a <= tend a T.
Proof. revert a. induction T as [|[n u] T IH]; intros a; simpl; [lia|]. intros [Hn Hp]. pose proof (IH (a + n * HSIZE) Hp). unfold HSIZE in *. lia. Qed.

(** Blocks lie between the ends. *)
Lemma frees_in a T x : positive T -> x ∈ frees a T -> a <= x /\ x + HSIZE <= tend a T.
Proof.
  revert a. induction T as [|[n u] T IH]; intros a; simpl; [set_solver|]. intros [Hn Hp] Hx. pose proof (tend_ge (a + n * HSIZE) T Hp).
  apply elem_of_app in Hx as [Hx|Hx].
  - destruct u; [set_solver|]. apply list_elem_of_singleton in Hx as ->. unfold HSIZE in *. lia.
  - destruct (IH _ Hp Hx). unfold HSIZE in *. lia.
Qed.

Lemma useds_in a T x n : positive T -> (x, n) ∈ useds a T -> a <= x /\ 1 <= n /\ x + n * HSIZE <= tend a T.
Proof.
  revert a. induction T as [|[k u] T IH]; intros a; simpl; [set_solver|]. intros [Hn Hp] Hx. pose proof (tend_ge (a + k * HSIZE) T Hp).
  apply elem_of_app in Hx as [Hx|Hx].
  - destruct u; [|set_solver]. apply list_elem_of_singleton in Hx as [= -> ->]. unfold HSIZE in *. lia.
  - destruct (IH _ Hp Hx) as (? & ? & ?). unfold HSIZE in *. lia.
Qed.

(** A free block's place in the list of blocks. *)
Lemma frees_split a T x : x ∈ frees a T -> exists X n Y, T = X ++ (n, false) :: Y /\ x = tend a X.
Proof.
  revert a. induction T as [|[n u] T IH]; intros a; simpl; [set_solver|]. intros [Hx|Hx]%elem_of_app.
  - destruct u; [set_solver|]. apply list_elem_of_singleton in Hx as ->. by exists [], n, T.
  - destruct (IH _ Hx) as (X & k & Y & -> & ->). by exists ((n, u) :: X), k, Y.
Qed.

Lemma useds_split a T x n : (x, n) ∈ useds a T -> exists X Y, T = X ++ (n, true) :: Y /\ x = tend a X.
Proof.
  revert a. induction T as [|[k u] T IH]; intros a; simpl; [set_solver|]. intros [Hx|Hx]%elem_of_app.
  - destruct u; [|set_solver]. apply list_elem_of_singleton in Hx as [= -> ->]. by exists [], T.
  - destruct (IH _ Hx) as (X & Y & -> & ->). by exists ((k, u) :: X), Y.
Qed.

(** Only the sizes of the blocks matter. *)
Fixpoint heads (a : Z) (T : tiles) : list Z := match T with [] => [] | (n, _) :: T => a :: heads (a + n * HSIZE) T end.

Lemma tiled_frame m m' a T : (forall x, x ∈ heads a T -> hsize m' x = hsize m x) -> tiled m a T -> tiled m' a T.
Proof.
  revert a. induction T as [|[n u] T IH]; intros a Hx; simpl in *; [done|]. intros (H1 & H2 & H3). split_and!; [done|rewrite Hx; [done|set_solver]|].
  apply IH; [|done]. intros x Hin. apply Hx. set_solver.
Qed.

Lemma heads_in a T x : positive T -> x ∈ heads a T -> a <= x /\ x + HSIZE <= tend a T.
Proof.
  revert a. induction T as [|[n u] T IH]; intros a; simpl; [set_solver|]. intros [Hn Hp] Hx. pose proof (tend_ge (a + n * HSIZE) T Hp).
  apply elem_of_cons in Hx as [->|Hx]; [unfold HSIZE in *; lia|]. destruct (IH _ Hp Hx). unfold HSIZE in *. lia.
Qed.

Lemma heads_apart a T x y : positive T -> x ∈ heads a T -> y ∈ heads a T -> x = y \/ apart x y.
Proof.
  revert a. induction T as [|[n u] T IH]; intros a; simpl; [set_solver|]. intros [Hn Hp] Hx Hy.
  apply elem_of_cons in Hx as [->|Hx], Hy as [->|Hy]; [by left| | |by apply (IH (a + n * HSIZE))]; right; unfold apart.
  - destruct (heads_in _ _ _ Hp Hy). unfold HSIZE in *. lia.
  - destruct (heads_in _ _ _ Hp Hx). unfold HSIZE in *. lia.
Qed.

Lemma frees_heads a T x : x ∈ frees a T -> x ∈ heads a T.
Proof. revert a. induction T as [|[n []] T IH]; intros a; simpl; set_solver. Qed.

(** Headers of the list are those of blocks, or apart from them. *)
Lemma list_heads_apart base lo T p x : base + HSIZE <= lo -> positive T -> p ∈ base :: frees lo T -> x ∈ base :: heads lo T -> p = x \/ apart p x.
Proof.
  intros Hb Hp Hl Hx. assert (p ∈ base :: heads lo T) as Hl' by (apply elem_of_cons in Hl as [->|Hl]; [set_solver|apply frees_heads in Hl; set_solver]).
  apply elem_of_cons in Hl' as [->|Hl'], Hx as [->|Hx]; [by left| | |by apply (heads_apart lo T)]; right; unfold apart.
  - destruct (heads_in _ _ _ Hp Hx). lia.
  - destruct (heads_in _ _ _ Hp Hl'). lia.
Qed.

Lemma coalesced_app X Y : coalesced (X ++ Y) = true -> coalesced X = true /\ coalesced Y = true.
Proof.
  induction X as [|[n u] X IH]; simpl; [done|]. intros [H1 H2]%andb_true_iff. destruct (IH H2) as [-> ->]. split; [|done]. rewrite andb_true_r.
  destruct u; simpl in *; [done|]. destruct X as [|[k []] X]; done.
Qed.

(** ** The circular list *)

Definition first (e : Z) (l : list Z) : Z := match l with [] => e | a :: _ => a end.

(** The blocks [l] are linked in order, the last one to [e]. *)
Fixpoint lseg (m : memory) (l : list Z) (e : Z) : Prop :=
  match l with [] => True | a :: l => hptr m a = first e l /\ lseg m l e end.

Lemma lseg_app m l1 l2 e : lseg m (l1 ++ l2) e <-> lseg m l1 (first e l2) /\ lseg m l2 e.
Proof. induction l1 as [|a l1 IH]; simpl; [tauto|]. rewrite IH. destruct l1; simpl; tauto. Qed.

Lemma lseg_frame m m' l e : (forall x, x ∈ l -> hptr m' x = hptr m x) -> lseg m l e -> lseg m' l e.
Proof.
  induction l as [|a l IH]; simpl; [done|]. intros Hx [H1 H2]. split; [rewrite Hx; [done|set_solver]|]. apply IH; [|done]. intros x Hin. apply Hx. set_solver.
Qed.

Lemma lseg_next m l1 a l2 e : lseg m (l1 ++ a :: l2) e -> hptr m a = first e l2.
Proof. intros [_ [H _]]%lseg_app. done. Qed.

Lemma StronglySorted_app (l1 l2 : list Z) : StronglySorted Z.lt l1 -> StronglySorted Z.lt l2 -> (forall x y, x ∈ l1 -> y ∈ l2 -> x < y) ->
  StronglySorted Z.lt (l1 ++ l2).
Proof.
  intros H1 H2 H12. induction H1 as [|a l1 H1 IH Ha]; simpl; [done|]. constructor; [apply IH; intros; apply H12; set_solver|].
  apply Forall_app. split; [done|]. apply Forall_forall. intros y Hy. apply H12; set_solver.
Qed.

Lemma frees_sorted a T : positive T -> StronglySorted Z.lt (frees a T).
Proof.
  revert a. induction T as [|[n u] T IH]; intros a; simpl; [constructor|]. intros [Hn Hp]. apply StronglySorted_app; [destruct u; repeat constructor|by apply IH|].
  intros x y Hx Hy. destruct (frees_in _ _ _ Hp Hy). destruct u; [set_solver|]. apply list_elem_of_singleton in Hx as ->. unfold HSIZE in *. lia.
Qed.

Lemma sorted_split (l1 : list Z) a l2 : StronglySorted Z.lt (l1 ++ a :: l2) -> forall x, x ∈ l2 -> a < x.
Proof.
  induction l1 as [|y l1 IH]; simpl; intros Hs; inversion Hs as [|? ? Hs' Hf]; subst; [|by apply IH]. intros x Hx. by apply (proj1 (Forall_forall _ _) Hf).
Qed.

Lemma free_find_S fuel bp p s : free_find (S fuel) bp p s =
  let q := hptr (umem s) p in
  if (p <? bp) && (bp <? q) then Ret p s else if (q <=? p) && ((p <? bp) || (bp <? q)) then Ret p s else free_find fuel bp q s.
Proof. cbn [free_find]. unfold getptr. msimpl. by repeat case_match. Qed.

Section find.
Context (s : ust) (base bp : Z) (P Q : list Z).
Hypothesis Hseg : lseg (umem s) (P ++ Q) base.
Hypothesis Hsort : StronglySorted Z.lt (P ++ Q).
Hypothesis Hlow : forall x, x ∈ P -> x < bp.
Hypothesis Hhigh : forall x, x ∈ Q -> bp < x.
Hypothesis Hbase : exists P', P = base :: P'.

Lemma base_low : base < bp.
Proof. destruct Hbase as [P' ->]. apply Hlow. set_solver. Qed.

(** From a block above [bp] the search comes back to [base]. *)
Lemma find_high Q1 p Q2 fuel : Q = Q1 ++ p :: Q2 -> free_find (S (length Q2) + fuel) bp p s = free_find fuel bp base s.
Proof.
  revert Q1 p. induction Q2 as [|q Q2 IH]; intros Q1 p EQ; pose proof base_low; assert (bp < p) by (apply Hhigh; rewrite EQ; set_solver).
  - assert (hptr (umem s) p = base) as Ep by (rewrite EQ, app_assoc in Hseg; by apply (lseg_next _ _ _ _ _ Hseg)).
    cbn [Nat.add length]. rewrite free_find_S. cbv zeta. rewrite Ep. replace (p <? bp) with false by lia. replace (bp <? base) with false by lia. cbn [andb orb].
    by rewrite andb_false_r.
  - assert (hptr (umem s) p = q) as Ep by (rewrite EQ, app_assoc in Hseg; by apply (lseg_next _ _ _ _ _ Hseg)).
    assert (p < q) as Hpq by (rewrite EQ, app_assoc in Hsort; apply (sorted_split _ _ _ Hsort); set_solver).
    cbn [Nat.add length]. rewrite free_find_S. cbv zeta. rewrite Ep. replace (p <? bp) with false by lia. replace (q <=? p) with false by lia. cbn [andb].
    rewrite <- (IH (Q1 ++ [p]) q) by (rewrite EQ; by rewrite <- app_assoc). done.
Qed.

Lemma find_low P1 p P2 fuel : P = P1 ++ p :: P2 -> (length P2 < fuel)%nat -> free_find fuel bp p s = Ret (List.last (p :: P2) base) s.
Proof.
  revert P1 p fuel. induction P2 as [|q P2 IH]; intros P1 p fuel EP Hf; (destruct fuel as [|fuel]; [lia|]); pose proof base_low;
    assert (p < bp) by (apply Hlow; rewrite EP; set_solver); rewrite free_find_S; cbv zeta.
  - assert (hptr (umem s) p = first base Q) as -> by (rewrite EP, <- app_assoc in Hseg; by apply (lseg_next _ _ _ _ _ Hseg)).
    replace (p <? bp) with true by lia. cbn [andb orb]. destruct Q as [|q Q']; simpl.
    + assert (base <= p) as Hbp.
      { destruct Hbase as [P' E]. rewrite EP in E. destruct P1 as [|x P1]; injection E as E1 E2; [lia|]. subst x.
        rewrite EP in Hsort. simpl in Hsort. pose proof (sorted_split [] base _ Hsort p ltac:(set_solver)). lia. }
      replace (bp <? base) with false by lia. by replace (base <=? p) with true by lia.
    + assert (bp < q) by (apply Hhigh; set_solver). by replace (bp <? q) with true by lia.
  - assert (hptr (umem s) p = q) as -> by (rewrite EP, <- app_assoc in Hseg; by apply (lseg_next _ _ _ _ _ Hseg)).
    assert (q < bp) by (apply Hlow; rewrite EP; set_solver).
    assert (p < q) as Hpq by (rewrite EP, <- app_assoc in Hsort; apply (sorted_split _ _ _ Hsort); set_solver).
    replace (bp <? q) with false by lia. rewrite andb_false_r. replace (q <=? p) with false by lia. cbn [andb].
    rewrite (IH (P1 ++ [p]) q) by ((rewrite EP; by rewrite <- app_assoc) || (simpl in Hf; lia)). done.
Qed.

Lemma free_find_spec fuel f : f ∈ P ++ Q -> (length P + length Q < fuel)%nat -> free_find fuel bp f s = Ret (List.last P base) s.
Proof.
  intros [Hf|Hf]%elem_of_app Hn.
  - apply list_elem_of_split in Hf as (P1 & P2 & EP). rewrite (find_low P1 f P2) by (done || (rewrite EP in Hn; rewrite length_app in Hn; simpl in Hn; lia)).
    rewrite EP. f_equal. clear. induction P1 as [|x P1 IH]; [done|]. simpl. rewrite <- IH. by destruct P1.
  - apply list_elem_of_split in Hf as (Q1 & Q2 & EQ). destruct Hbase as [P' EP].
    assert (exists k, fuel = S (length Q2) + k /\ length P' < k)%nat as (k & -> & Hk).
    { exists (fuel - S (length Q2))%nat. rewrite EQ, EP in Hn. rewrite length_app in Hn. simpl in Hn. lia. }
    rewrite (find_high Q1 f Q2 k EQ), (find_low [] base P' k EP Hk). by rewrite EP.
Qed.
End find.

(** ** Coalescing *)

Definition ends_free (T : tiles) : bool := match last T with Some (_, false) => true | _ => false end.

Lemma coalesced_mid X n u Y :
  coalesced (X ++ (n, u) :: Y) = coalesced X && (u || negb (ends_free X)) && (u || negb (starts_free Y)) && coalesced Y.
Proof.
  induction X as [|[k v] X IH]; [by rewrite orb_true_r|]. cbn [app coalesced]. rewrite IH.
  destruct X as [|[k' v'] X]; cbn [app starts_free coalesced]; [unfold ends_free; simpl; destruct u, v; simpl; try done; by rewrite ?andb_true_r|].
  assert (ends_free ((k, v) :: (k', v') :: X) = ends_free ((k', v') :: X)) as -> by done. by rewrite !andb_assoc.
Qed.

Lemma ends_free_snoc X n u : ends_free (X ++ [(n, u)]) = negb u.
Proof. unfold ends_free. by rewrite last_snoc. Qed.

(** Blocks other than the first of [Y] are past it. *)
Lemma first_frees base a Y : positive Y -> base < a -> (first base (frees a Y) = a) <-> starts_free Y = true.
Proof.
  intros Hp Hb. destruct Y as [|[k []] Y]; simpl; [split; [lia|done]| |done]. destruct Hp as [Hk Hp]. split; [|done].
  destruct (frees (a + k * HSIZE) Y) as [|x l] eqn:E; simpl; [lia|]. intros ->.
  destruct (frees_in (a + k * HSIZE) Y a Hp) as [H _]; [rewrite E; set_solver|]. unfold HSIZE in *. lia.
Qed.

Lemma free_end m a T x : tiled m a T -> x ∈ frees a T -> x + hsize m x * HSIZE <= tend a T.
Proof.
  intros Ht Hx. destruct (frees_split a T x Hx) as (X & n & Y & -> & ->). apply tiled_app in Ht as [_ (H1 & -> & H3)]. rewrite tend_app. simpl.
  by apply tend_ge, (tiled_positive m (tend a X + n * HSIZE)).
Qed.

(** The bytes that a routine may change: the headers [C]. *)
Definition only_headers (C : list Z) (m m' : memory) : Prop := forall y, (forall h, h ∈ C -> y < h \/ h + HSIZE <= y) -> m' !!! y = m !!! y.

Lemma only_headers_hptr C m m' a : only_headers C m m' -> (forall h, h ∈ C -> apart h a) -> hptr m' a = hptr m a.
Proof. intros Ho Ha. apply ld64_ext. intros x Hx. apply Ho. intros h Hh. specialize (Ha h Hh). unfold apart, HSIZE in *. lia. Qed.

Lemma only_headers_hsize C m m' a : only_headers C m m' -> (forall h, h ∈ C -> apart h a) -> hsize m' a = hsize m a.
Proof. intros Ho Ha. apply ld32_ext. intros x Hx. apply Ho. intros h Hh. specialize (Ha h Hh). unfold apart, HSIZE in *. lia. Qed.

Lemma only_headers_ptr m a v : only_headers [a] m (st64 m a v).
Proof. intros y Hy. specialize (Hy a ltac:(set_solver)). apply lookup_st64_out. unfold HSIZE in *. lia. Qed.

Lemma only_headers_size m a v : only_headers [a] m (st32 m (a + 8) v).
Proof. intros y Hy. specialize (Hy a ltac:(set_solver)). apply lookup_st32_out. unfold HSIZE in *. lia. Qed.

Lemma only_headers_trans C1 C2 m1 m2 m3 : only_headers C1 m1 m2 -> only_headers C2 m2 m3 -> only_headers (C1 ++ C2) m1 m3.
Proof. intros H1 H2 y Hy. rewrite H2, H1; [done|..]; intros h Hh; apply Hy; set_solver. Qed.

Lemma only_headers_mono C C' m m' : (forall h, h ∈ C -> h ∈ C') -> only_headers C m m' -> only_headers C' m m'.
Proof. intros Hc Ho y Hy. apply Ho. intros h Hh. by apply Hy, Hc. Qed.

(** Blocks away from the changed headers. *)
Lemma tiled_only C m m' a T : only_headers C m m' -> positive T -> (forall h, h ∈ C -> h + HSIZE <= a \/ tend a T <= h) -> tiled m a T -> tiled m' a T.
Proof.
  intros Ho Hp Hc. apply tiled_frame. intros x Hx. destruct (heads_in a T x Hp Hx). apply (only_headers_hsize C); [done|].
  intros h Hh. destruct (Hc h Hh); unfold apart; lia.
Qed.

Lemma lseg_only C m m' l e : only_headers C m m' -> (forall h x, h ∈ C -> x ∈ l -> apart h x) -> lseg m l e -> lseg m' l e.
Proof. intros Ho Hc. apply lseg_frame. intros x Hx. apply (only_headers_hptr C); [done|]. intros h Hh. by apply Hc. Qed.

(** ** Freeing *)

Definition merge_right (n : Z) (Y : tiles) : Z * tiles := match Y with (k, false) :: Y => (n + k, Y) | _ => (n, Y) end.

Section free.
Context (base : Z).

(** What [free_next] leaves: the block [bp] with [n] units, linked to the rest. *)
Record linked_at (m : memory) (bp n : Z) (Y : tiles) : Prop := {
  la_tiled : tiled m bp ((n, true) :: Y);
  la_ptr : hptr m bp = first base (frees (bp + n * HSIZE) Y);
  la_rest : lseg m (frees (bp + n * HSIZE) Y) base;
  la_coal : coalesced Y = true /\ starts_free Y = false;
}.

Lemma free_next_spec bp p n Y s : 0 < base -> base + HSIZE <= bp -> apart p bp -> tend bp ((n, true) :: Y) <= 2 ^ 36 ->
  tiled (umem s) bp ((n, true) :: Y) -> hptr (umem s) p = first base (frees (bp + n * HSIZE) Y) ->
  lseg (umem s) (frees (bp + n * HSIZE) Y) base -> coalesced Y = true ->
  wp (free_next bp p s) (fun _ s' => let '(n1, Y1) := merge_right n Y in
    linked_at (umem s') bp n1 Y1 /\ only_headers [bp] (umem s) (umem s') /\ freep s' = freep s /\ brk s' = brk s).
Proof.
  intros Hb Hbp Hap Hmax Ht Hp Hl Hc. pose proof Ht as (Hn & Hsz & HtY). assert (HSIZE = 16) as EH by done. pose proof (tiled_positive _ _ _ HtY) as HpY.
  pose proof (tend_ge (bp + n * HSIZE) Y HpY) as Hte. simpl in Hmax.
  assert (bp + n * HSIZE = first base (frees (bp + n * HSIZE) Y) <-> starts_free Y = true) as Hiff by (rewrite <- (first_frees base (bp + n * HSIZE) Y); [split; done|done|lia]).
  unfold free_next, getptr, getsize. apply wp_gets. rewrite Hp. apply wp_gets. rewrite Hsz. destruct (Z.eqb_spec (bp + n * HSIZE) (first base (frees (bp + n * HSIZE) Y))) as [E|N].
  - apply Hiff in E. destruct Y as [|[k []] Y]; try done. destruct HtY as (Hk & Hsk & HtY). destruct HpY as [_ HpY]. cbn [merge_right frees app first] in *.
    pose proof (tend_ge (bp + n * HSIZE + k * HSIZE) Y HpY). simpl in Hmax.
    apply wp_gets. rewrite Hsk. rewrite wrap_id by (unfold in_range; lia). apply wp_modify. apply wp_gets. apply wp_ret. cbn [umem set_umem freep brk].
    set (m1 := st32 (umem s) (bp + 8) (n + k)). assert (only_headers [bp] (umem s) m1) as O1 by apply only_headers_size.
    set (m2 := st64 m1 bp _). assert (only_headers [bp] (umem s) m2) as O2.
    { eapply only_headers_mono; [|eapply only_headers_trans; [exact O1|apply only_headers_ptr]]. set_solver. }
    split_and!; try done. replace ((n + k) * HSIZE) with (n * HSIZE + k * HSIZE) by lia. split; rewrite ?Z.add_assoc.
    + cbn [tiled]. replace ((n + k) * HSIZE) with (n * HSIZE + k * HSIZE) by lia. rewrite Z.add_assoc. split_and!; [lia| |].
      * unfold m2. rewrite hsize_ptr by by left. apply hsize_size_eq. lia.
      * eapply tiled_only; [exact O2|done| |exact HtY]. intros h ->%list_elem_of_singleton. left. lia.
    + replace ((n + k) * HSIZE) with (n * HSIZE + k * HSIZE) by lia. rewrite Z.add_assoc. destruct Hl as [Hl1 Hl2]. unfold m2.
      assert (hptr m1 (bp + n * HSIZE) = hptr (umem s) (bp + n * HSIZE)) as -> by (apply (only_headers_hptr [bp]); [done|]; intros h ->%list_elem_of_singleton; unfold apart; lia).
      rewrite hptr_ptr_eq; [done|]. apply ld64_range.
    + replace ((n + k) * HSIZE) with (n * HSIZE + k * HSIZE) by lia. rewrite Z.add_assoc. destruct Hl as [Hl1 Hl2].
      eapply lseg_only; [exact O2| |exact Hl2]. intros h x ->%list_elem_of_singleton Hx. destruct (frees_in _ _ _ HpY Hx). unfold apart. lia.
    + simpl in Hc. apply andb_true_iff in Hc as [Hc1 Hc2]. split; [done|]. by apply negb_true_iff.
  - assert (starts_free Y = false) as Hsf by (apply not_true_is_false; intros E; by apply N, Hiff). replace (merge_right n Y) with (n, Y) by (by destruct Y as [|[k []] Y]).
    apply wp_ret. cbn [umem set_umem freep brk]. set (m1 := st64 (umem s) bp _). assert (only_headers [bp] (umem s) m1) as O1 by apply only_headers_ptr. split_and!; try done. split.
    + cbn [tiled]. split_and!; [done|unfold m1; by rewrite hsize_ptr by by left|]. eapply tiled_only; [exact O1|done| |exact HtY]. intros h ->%list_elem_of_singleton. left. lia.
    + unfold m1. apply hptr_ptr_eq. destruct (frees (bp + n * HSIZE) Y) as [|x l] eqn:E; simpl; [lia|]. destruct (frees_in (bp + n * HSIZE) Y x HpY) as [? ?]; [rewrite E; set_solver|]. lia.
    + eapply lseg_only; [exact O1| |exact Hl]. intros h x ->%list_elem_of_singleton Hx. destruct (frees_in _ _ _ HpY Hx). unfold apart. lia.
    + done.
Qed.

Context (lo : Z).

Record heap (s : ust) (T : tiles) : Prop := {
  h_base : 0 < base /\ base + HSIZE <= lo;
  h_tiled : tiled (umem s) lo T;
  h_end : tend lo T = brk s;
  h_max : brk s <= 2 ^ 36;
  h_ring : lseg (umem s) (base :: frees lo T) base;
  h_zero : hsize (umem s) base = 0;
  h_coal : coalesced T = true;
  h_freep : freep s ∈ base :: frees lo T;
}.

(** The list up to [bp], whose last link is still to be set. *)
Record before (m : memory) (X : tiles) (P : list Z) (p : Z) : Prop := {
  be_tiled : tiled m lo X;
  be_list : base :: frees lo X = P ++ [p];
  be_seg : lseg m P p;
  be_zero : hsize m base = 0;
  be_coal : coalesced X = true;
}.

(** The tiles once [bp] is free. *)
Definition merge_left (X : tiles) (n : Z) (Y : tiles) : tiles :=
  match last X with Some (k, false) => removelast X ++ (k + n, false) :: Y | _ => X ++ (n, false) :: Y end.

Lemma merge_left_snoc X k n Y : merge_left (X ++ [(k, false)]) n Y = X ++ (k + n, false) :: Y.
Proof. unfold merge_left. by rewrite last_snoc, removelast_last. Qed.

Lemma merge_left_other X n Y : ends_free X = false -> merge_left X n Y = X ++ (n, false) :: Y.
Proof. unfold merge_left, ends_free. by destruct (last X) as [[k []]|]. Qed.

Lemma ends_free_inv X : ends_free X = true -> exists X' k, X = X' ++ [(k, false)].
Proof.
  destruct X as [|[k u] X' _] using rev_ind; [done|]. rewrite ends_free_snoc. destruct u; [done|]. eauto.
Qed.

(** The free block before [bp] touches it exactly when it is the tile before. *)
Lemma prev_end m X P p : before m X P p -> base + HSIZE <= lo -> ends_free X = false -> p + hsize m p * HSIZE <> tend lo X.
Proof.
  intros [Ht Hl _ Hz _] Hb He. assert (p ∈ base :: frees lo X) as Hp by (rewrite Hl; set_solver). pose proof (tiled_positive _ _ _ Ht) as Hpos.
  assert (HSIZE = 16) as EH by done. apply elem_of_cons in Hp as [->|Hp]; [rewrite Hz; pose proof (tend_ge lo X Hpos); lia|].
  destruct X as [|[k u] X _] using rev_ind; [set_solver|]. rewrite ends_free_snoc in He. destruct u; [|done].
  rewrite frees_app in Hp. simpl in Hp. rewrite app_nil_r in Hp. apply tiled_app in Ht as [Ht (Hk & _)]. pose proof (free_end _ _ _ _ Ht Hp). rewrite tend_app. simpl. lia.
Qed.

(** Headers of the list before [bp] are apart from those at and after it. *)
Lemma before_apart m X P p x : before m X P p -> base + HSIZE <= lo -> x ∈ P ++ [p] -> x + HSIZE <= tend lo X.
Proof.
  intros [Ht Hl _ _ _] Hb Hx. rewrite <- Hl in Hx. pose proof (tiled_positive _ _ _ Ht) as Hpos. pose proof (tend_ge lo X Hpos).
  apply elem_of_cons in Hx as [->|Hx]; [lia|]. by apply (frees_in lo X).
Qed.

Lemma before_sorted m X P p : before m X P p -> base + HSIZE <= lo -> forall x, x ∈ P -> x + HSIZE <= p.
Proof.
  intros [Ht Hl _ _ _] Hb x Hx. pose proof (tiled_positive _ _ _ Ht) as Hpos. assert (HSIZE = 16) as EH by done. destruct P as [|y P]; [set_solver|]. injection Hl as <- Hl.
  assert (p ∈ frees lo X) as Hp by (rewrite Hl; set_solver). destruct (frees_in _ _ _ Hpos Hp).
  apply elem_of_cons in Hx as [->|Hx]; [lia|]. destruct (frees_split lo X p Hp) as (X1 & k & X2 & -> & ->).
  rewrite frees_app in Hl. simpl in Hl. apply tiled_app in Ht as [Ht1 (Hk & _ & Ht2)]. pose proof (tiled_positive _ _ _ Ht2) as Hp2.
  assert (x ∈ frees lo X1) as Hx1; [|by apply (frees_in lo X1 x (tiled_positive _ _ _ Ht1))].
  destruct (frees (tend lo X1 + k * HSIZE) X2) as [|z l _] eqn:E using rev_ind.
  - apply app_inj_tail in Hl as [-> _]. done.
  - rewrite app_comm_cons, app_assoc in Hl. apply app_inj_tail in Hl as [_ ->]. destruct (frees_in (tend lo X1 + k * HSIZE) X2 (tend lo X1) Hp2) as [Hle _]; [rewrite E; set_solver|]. lia.
Qed.

(** A heap up to where [freep] points. *)
Record ringed (m : memory) (T : tiles) (p : Z) : Prop := {
  rg_tiled : tiled m lo T;
  rg_ring : lseg m (base :: frees lo T) base;
  rg_zero : hsize m base = 0;
  rg_coal : coalesced T = true;
  rg_in : p ∈ base :: frees lo T;
}.

(** The list once the block before [bp] is linked to what follows it. *)
Lemma join_prev m' X P p F e : base :: frees lo X = P ++ [p] -> lseg m' P p -> hptr m' p = first e F -> lseg m' F e -> lseg m' (base :: frees lo X ++ F) e.
Proof.
  intros Hl HP Hp HF. rewrite app_comm_cons, Hl, <- app_assoc. apply lseg_app. split; [done|]. apply (lseg_app m' [p] F). split; [by split|done].
Qed.

Lemma free_prev_link m X P p n Y : base + HSIZE <= lo -> 0 < base -> tend lo (X ++ (n, true) :: Y) <= 2 ^ 36 -> before m X P p -> linked_at m (tend lo X) n Y ->
  ends_free X = false -> let m' := st64 m p (tend lo X) in ringed m' (X ++ (n, false) :: Y) p.
Proof.
  intros Hb H0 Hmax Hbe Hla He m'. pose proof Hbe as [B1 B2 B3 B4 B5]. pose proof Hla as [L1 L2 L3 [L4 L5]]. set (bp := tend lo X) in *. assert (HSIZE = 16) as EH by done.
  assert (only_headers [p] m m') as Ho by apply only_headers_ptr. pose proof (before_apart m X P p p Hbe Hb ltac:(set_solver)) as Hpb. fold bp in Hpb.
  destruct L1 as (Hn & Hs & Ht). pose proof (tiled_positive _ _ _ Ht) as HpY. pose proof (tend_ge (bp + n * HSIZE) Y HpY) as Hte. pose proof (tend_ge lo X (tiled_positive _ _ _ B1)) as Hlo. fold bp in Hlo.
  rewrite tend_app in Hmax. simpl in Hmax. fold bp in Hmax.
  assert (forall x, x ∈ base :: heads lo X -> hsize m' x = hsize m x) as Hsz.
  { intros x Hx. apply hsize_ptr. apply (list_heads_apart base lo X); [done|by eapply tiled_positive|rewrite B2; set_solver|done]. }
  split.
  - apply tiled_app. fold bp. split.
    + eapply tiled_frame; [|exact B1]. intros x Hx. apply Hsz. set_solver.
    + cbn [tiled]. split_and!; [done|unfold m'; rewrite hsize_ptr; [done|right; unfold apart; lia]|]. eapply tiled_only; [exact Ho|done| |exact Ht]. intros h ->%list_elem_of_singleton. lia.
  - rewrite frees_app. fold bp. cbn [frees]. apply (join_prev m' X P p); [done| | |].
    + eapply lseg_only; [exact Ho| |exact B3]. intros h x ->%list_elem_of_singleton Hx. pose proof (before_sorted m X P p Hbe Hb x Hx). unfold apart. lia.
    + unfold m'. simpl. rewrite hptr_ptr_eq; [done|lia].
    + eapply lseg_only; [exact Ho| |]; [|by split; [exact L2|exact L3]]. intros h x ->%list_elem_of_singleton Hx. unfold apart.
      apply elem_of_cons in Hx as [->|Hx]; [lia|]. destruct (frees_in _ _ _ HpY Hx). lia.
  - rewrite Hsz by set_solver. done.
  - rewrite coalesced_mid, B5, He, L5, L4. done.
  - rewrite frees_app, app_comm_cons, B2. set_solver.
Qed.

Lemma free_prev_merge m X k P p n Y : base + HSIZE <= lo -> 0 < base -> tend lo (X ++ [(k, false)] ++ (n, true) :: Y) <= 2 ^ 36 ->
  before m (X ++ [(k, false)]) P p -> let bp := tend lo (X ++ [(k, false)]) in linked_at m bp n Y ->
  let m' := st64 (st32 m (p + 8) (k + n)) p (hptr m bp) in p = tend lo X /\ hsize m p = k /\ p + k * HSIZE = bp /\ hsize m bp = n /\ 1 <= k /\ 1 <= n /\
    k + n < 2 ^ 32 /\ ringed m' (X ++ (k + n, false) :: Y) p.
Proof.
  intros Hb H0 Hmax Hbe bp Hla m'. pose proof Hbe as [B1 B2 B3 B4 B5]. pose proof Hla as [(Hn & Hs & Ht) L2 L3 [L4 L5]]. assert (HSIZE = 16) as EH by done.
  apply tiled_app in B1 as [B1 (Hk & Hsk & _)]. assert (bp = tend lo X + k * HSIZE) as Ebp by (unfold bp; by rewrite tend_app). rewrite frees_app in B2. simpl in B2.
  rewrite app_comm_cons in B2. apply app_inj_tail in B2 as [<- <-]. pose proof (tiled_positive _ _ _ B1) as HpX. pose proof (tend_ge lo X HpX) as Hlo. set (p := tend lo X) in *.
  pose proof (tiled_positive _ _ _ Ht) as HpY. pose proof (tend_ge (bp + n * HSIZE) Y HpY) as Hte.
  rewrite app_assoc, tend_app in Hmax. fold bp in Hmax. simpl in Hmax.
  assert (only_headers [p] m m') as Ho.
  { eapply only_headers_mono; [|eapply only_headers_trans; [apply only_headers_size|apply only_headers_ptr]]. set_solver. }
  assert (forall x, x ∈ base :: frees lo X -> x + HSIZE <= p) as Hlow.
  { intros x Hx. apply elem_of_cons in Hx as [->|Hx]; [lia|]. by apply (frees_in lo X). }
  split_and!; try done; [lia|]. rewrite coalesced_mid in B5. apply andb_true_iff in B5 as [[[B5 B6]%andb_true_iff _]%andb_true_iff _]. split.
  - apply tiled_app. fold p. split; [eapply tiled_only; [exact Ho|done| |exact B1]; intros h ->%list_elem_of_singleton; fold p; lia|]. cbn [tiled].
    split_and!; [lia| |].
    + unfold m'. rewrite hsize_ptr by by left. apply hsize_size_eq. lia.
    + replace (p + (k + n) * HSIZE) with (bp + n * HSIZE) by lia. eapply tiled_only; [exact Ho|done| |exact Ht]. intros h ->%list_elem_of_singleton. lia.
  - rewrite frees_app. fold p. cbn [frees app]. replace (p + (k + n) * HSIZE) with (bp + n * HSIZE) by lia. rewrite app_comm_cons. apply lseg_app. split; [|split].
    + simpl. eapply (lseg_only [p] m m' (base :: frees lo X)); [exact Ho| |exact B3]. intros h x ->%list_elem_of_singleton Hx. specialize (Hlow x Hx). unfold apart. lia.
    + unfold m'. rewrite hptr_ptr_eq by apply ld64_range. exact L2.
    + eapply lseg_only; [exact Ho| |exact L3]. intros h x ->%list_elem_of_singleton Hx. destruct (frees_in _ _ _ HpY Hx). unfold apart. lia.
  - rewrite (only_headers_hsize [p] m m' base Ho); [done|]. intros h ->%list_elem_of_singleton. unfold apart. lia.
  - rewrite coalesced_mid, B5, L4, L5. simpl in B6 |- *. by rewrite B6.
  - rewrite frees_app. fold p. simpl. set_solver.
Qed.

(** A free block of at least [n] units. *)
Definition has_room (m : memory) (T : tiles) (n : Z) : Prop := exists x, x ∈ frees lo T /\ n <= hsize m x.

Lemma free_prev_spec s X P p n Y : base + HSIZE <= lo -> 0 < base -> tend lo (X ++ (n, true) :: Y) <= 2 ^ 36 -> before (umem s) X P p ->
  linked_at (umem s) (tend lo X) n Y ->
  wp (free_prev (tend lo X) p s) (fun _ s' => ringed (umem s') (merge_left X n Y) p /\ has_room (umem s') (merge_left X n Y) n /\
    only_headers [p] (umem s) (umem s') /\ brk s' = brk s).
Proof.
  intros Hb H0 Hmax Hbe Hla. unfold free_prev, getsize, getptr. apply wp_gets. assert (HSIZE = 16) as EH by done.
  destruct (ends_free X) eqn:Ee.
  - destruct (ends_free_inv X Ee) as (X' & k & ->). rewrite <- app_assoc in Hmax. destruct (free_prev_merge _ _ _ _ _ _ _ Hb H0 Hmax Hbe Hla) as (Ep & Ek & Ebp & En & Hk & Hn & Hkn & Hr).
    rewrite Ek, (proj2 (Z.eqb_eq _ _) Ebp). apply wp_gets. rewrite En, wrap_id by (unfold in_range; lia). apply wp_modify, wp_gets, wp_ret. cbn [umem set_umem brk].
    rewrite hptr_size by (right; unfold apart; lia). rewrite merge_left_snoc. split_and!; [done| |eapply only_headers_mono; [|eapply only_headers_trans; [apply only_headers_size|apply only_headers_ptr]]; set_solver|done].
    exists (tend lo X'). split; [rewrite frees_app; simpl; set_solver|]. destruct Hr as [Ht _ _ _ _]. apply tiled_app in Ht as [_ (_ & -> & _)]. lia.
  - rewrite (proj2 (Z.eqb_neq _ _) (prev_end _ _ _ _ Hbe Hb Ee)). apply wp_ret. cbn [umem set_umem brk]. rewrite merge_left_other by done.
    pose proof (free_prev_link _ _ _ _ _ _ Hb H0 Hmax Hbe Hla Ee) as Hr. split_and!; [done| |apply only_headers_ptr|done].
    exists (tend lo X). split; [rewrite frees_app; simpl; set_solver|]. destruct Hr as [Ht _ _ _ _]. apply tiled_app in Ht as [_ (_ & -> & _)]. lia.
Qed.

Lemma before_frame m m' X P p h : only_headers [h] m m' -> tend lo X <= h -> base + HSIZE <= lo -> before m X P p -> before m' X P p.
Proof.
  intros Ho Hh Hb Hbe. pose proof Hbe as [B1 B2 B3 B4 B5]. split; try done.
  - eapply tiled_only; [exact Ho|by eapply tiled_positive| |exact B1]. intros x ->%list_elem_of_singleton. by right.
  - eapply lseg_only; [exact Ho| |exact B3]. intros y x ->%list_elem_of_singleton Hx. pose proof (before_apart _ _ _ _ x Hbe Hb ltac:(set_solver)). unfold apart. lia.
  - rewrite (only_headers_hsize [h] m); [done|done|]. intros x ->%list_elem_of_singleton. pose proof (tend_ge lo X (tiled_positive _ _ _ B1)). unfold apart. lia.
Qed.

Lemma merge_right_spec a n Y : positive Y -> let '(n1, Y1) := merge_right n Y in
  useds (a + n1 * HSIZE) Y1 = useds (a + n * HSIZE) Y /\ tend (a + n1 * HSIZE) Y1 = tend (a + n * HSIZE) Y /\ n <= n1 /\ (length Y1 <= length Y)%nat.
Proof.
  intros Hp. destruct Y as [|[k []] Y]; try (by split_and!). destruct Hp as [Hk _]. cbn. replace (a + (n + k) * HSIZE) with (a + n * HSIZE + k * HSIZE) by lia.
  split_and!; (done || lia).
Qed.

Lemma merge_left_spec X n Y : useds lo (merge_left X n Y) = useds lo X ++ useds (tend lo X + n * HSIZE) Y /\
  tend lo (merge_left X n Y) = tend lo (X ++ (n, true) :: Y) /\ (length (merge_left X n Y) <= length X + length Y + 1)%nat.
Proof.
  destruct (ends_free X) eqn:Ee.
  - destruct (ends_free_inv X Ee) as (X' & k & ->). rewrite merge_left_snoc, !useds_app, !tend_app, !length_app in *. cbn [useds tend app] in *.
    rewrite app_nil_r. replace (tend lo X' + (k + n) * HSIZE) with (tend lo X' + k * HSIZE + n * HSIZE) by lia. split_and!; [done|done|]. simpl. lia.
  - rewrite merge_left_other by done. rewrite useds_app, !tend_app, length_app. split_and!; [done|done|]. simpl. lia.
Qed.

Lemma length_frees a T : (length (frees a T) <= length T)%nat.
Proof. revert a. induction T as [|[n []] T IH]; intros a; simpl; [lia| |]; pose proof (IH (a + n * HSIZE)); lia. Qed.

Lemma free_spec fuel s X n Y : heap s (X ++ (n, true) :: Y) -> (length X + length Y + 1 < fuel)%nat ->
  wp (free fuel (tend lo X + HSIZE) s) (fun _ s' => exists T', heap s' T' /\ useds lo T' = useds lo X ++ useds (tend lo X + n * HSIZE) Y /\
    (length T' <= length X + length Y + 1)%nat /\ has_room (umem s') T' n /\ brk s' = brk s /\
    only_headers (tend lo X :: base :: frees lo X) (umem s) (umem s')).
Proof.
  intros [[H0 Hb] Ht He Hm Hr Hz Hc Hf] Hfu. set (bp := tend lo X). assert (HSIZE = 16) as EH by done. rewrite frees_app in Hr, Hf. cbn [frees app] in Hr, Hf. fold bp in Hr, Hf.
  apply tiled_app in Ht as [HtX Ht]. fold bp in Ht. pose proof Ht as (Hn & _ & HtY). pose proof (tiled_positive _ _ _ HtX) as HpX. pose proof (tiled_positive _ _ _ HtY) as HpY.
  pose proof (tend_ge lo X HpX) as Hlo. fold bp in Hlo. rewrite coalesced_mid in Hc. apply andb_true_iff in Hc as [[[HcX _]%andb_true_iff _]%andb_true_iff HcY].
  rewrite app_comm_cons in Hr, Hf. set (P := base :: frees lo X) in *. set (Q := frees (bp + n * HSIZE) Y) in *.
  assert (forall x, x ∈ P -> x + HSIZE <= bp) as Hlow by (intros x [->|Hx]%elem_of_cons; [lia|by apply (frees_in lo X)]).
  assert (forall x, x ∈ Q -> bp + HSIZE <= x) as Hhigh by (intros x Hx; destruct (frees_in _ _ _ HpY Hx); lia).
  assert (StronglySorted Z.lt (P ++ Q)) as Hsort.
  { apply StronglySorted_app; [|by apply frees_sorted|intros x y Hx Hy; specialize (Hlow x Hx); specialize (Hhigh y Hy); lia].
    constructor; [by apply frees_sorted|]. apply Forall_forall. intros x Hx. destruct (frees_in _ _ _ HpX Hx). lia. }
  set (p := List.last P base). assert (P = removelast P ++ [p]) as EP by (by apply app_removelast_last). 
  assert (before (umem s) X (removelast P) p) as Hbe.
  { split; [done|done| |done|done]. rewrite EP, <- app_assoc in Hr. apply lseg_app in Hr as [Hr _]. done. }
  assert (free_find fuel bp (freep s) s = Ret p s) as Efind.
  { apply (free_find_spec s base bp P Q Hr Hsort); [| |by exists (frees lo X)|done|].
    - intros x Hx. specialize (Hlow x Hx). lia.
    - intros x Hx. specialize (Hhigh x Hx). lia.
    - unfold P, Q. cbn [length]. pose proof (length_frees lo X). pose proof (length_frees (bp + n * HSIZE) Y). lia. }
  assert (apart p bp) as Hap by (left; apply Hlow; rewrite EP; set_solver).
  assert (hptr (umem s) p = first base Q) as Hpq by (rewrite EP, <- app_assoc in Hr; by apply (lseg_next _ _ _ _ _ Hr)).
  assert (tend bp ((n, true) :: Y) <= 2 ^ 36) as Hmax by (rewrite tend_app in He; fold bp in He; by rewrite He).
  apply lseg_app in Hr as [_ HrQ]. unfold free. replace (bp + HSIZE - HSIZE) with bp by lia. apply wp_gets. rewrite (bind_ret_eq _ _ _ _ _ Efind).
  wp_step (free_next_spec bp p n Y s H0 ltac:(lia) Hap Hmax Ht Hpq HrQ HcY). intros [] s1. pose proof (merge_right_spec bp n Y HpY) as Hmr.
  destruct (merge_right n Y) as [n1 Y1]. destruct Hmr as (M1 & M2 & M3 & M4). intros (Hla & Ho1 & Ef & Eb). destruct (merge_left_spec X n1 Y1) as (U1 & U2 & U3).
  assert (tend lo (X ++ (n1, true) :: Y1) = tend lo (X ++ (n, true) :: Y)) as Ete by (rewrite !tend_app; cbn [tend]; fold bp; done).
  wp_step (free_prev_spec s1 X (removelast P) p n1 Y1 Hb H0 ltac:(lia) (before_frame _ _ _ _ _ bp Ho1 (Z.le_refl bp) Hb Hbe) Hla). intros [] s2 (Hrg & (x & Hx & Hxn) & Ho2 & Eb2).
  apply wp_ret. exists (merge_left X n1 Y1). destruct Hrg as [R1 R2 R3 R4 R5]. cbn [set_freep brk freep umem]. split_and!.
  - split; try done; cbn [set_freep brk]; lia.
  - rewrite U1. fold bp. by rewrite M1.
  - lia.
  - exists x. split; [done|]. cbn [set_freep umem]. lia.
  - congruence.
  - eapply only_headers_mono; [|eapply only_headers_trans; [exact Ho1|exact Ho2]]. intros h Hh. fold P. assert (p ∈ P) by (rewrite EP; set_solver). set_solver.
Qed.

(** ** Blocks in use are left alone *)

Definition used_same (T : tiles) (m m' : memory) : Prop :=
  forall a k y, (a, k) ∈ useds lo T -> a <= y < a + k * HSIZE -> m' !!! y = m !!! y.

(** A block in use ends before any other tile or starts after it. *)
Lemma used_apart X n u Y a k : positive (X ++ (n, u) :: Y) -> (a, k) ∈ useds lo X ++ useds (tend lo X + n * HSIZE) Y ->
  a + k * HSIZE <= tend lo X \/ tend lo X + n * HSIZE <= a.
Proof.
  intros Hp Hin. assert (positive X /\ positive Y) as [HX HY] by (clear Hin; induction X as [|[j v] X IH]; simpl in *; [tauto|]; destruct Hp as [? Hp]; destruct (IH Hp); tauto).
  apply elem_of_app in Hin as [Hin|Hin]; [left; by apply (useds_in lo X)|right; by apply (useds_in _ _ _ _ HY Hin)].
Qed.

Lemma used_same_only C T m m' : only_headers C m m' -> (forall h a k, h ∈ C -> (a, k) ∈ useds lo T -> h + HSIZE <= a \/ a + k * HSIZE <= h) -> used_same T m m'.
Proof. intros Ho Hc a k y Hin Hy. apply Ho. intros h Hh. destruct (Hc h a k Hh Hin); lia. Qed.

Lemma list_used_apart T h a k : base + HSIZE <= lo -> positive T -> h ∈ base :: frees lo T -> (a, k) ∈ useds lo T -> h + HSIZE <= a \/ a + k * HSIZE <= h.
Proof.
  intros Hb Hp [->|Hh]%elem_of_cons Hin; [destruct (useds_in _ _ _ _ Hp Hin); left; lia|].
  destruct (frees_split _ _ _ Hh) as (X & n & Y & -> & ->). rewrite useds_app in Hin. simpl in Hin. pose proof (used_apart X n false Y a k Hp Hin).
  assert (1 <= n) by (clear - Hp; induction X as [|[j v] X IH]; simpl in *; tauto). unfold HSIZE in *. lia.
Qed.

(** ** Taking a block *)

(** A block of [n] units at [r - 16] has been taken. *)
Definition taken (s : ust) (T : tiles) (n r : Z) (s' : ust) : Prop :=
  exists T', heap s' T' /\ useds lo T' ≡ₚ (r - HSIZE, n) :: useds lo T /\ used_same T (umem s) (umem s').

Lemma split_unique (x : Z) l1 l2 k1 k2 : l1 ++ x :: l2 = k1 ++ x :: k2 -> x ∉ l1 -> x ∉ k1 -> l1 = k1 /\ l2 = k2.
Proof.
  revert k1. induction l1 as [|a l1 IH]; intros [|b k1] E; simpl in *; intros H1 H2; simplify_eq; [done|set_solver|set_solver|].
  destruct (IH k1) as [-> ->]; set_solver.
Qed.

Lemma heap_sorted s T : heap s T -> StronglySorted Z.lt (base :: frees lo T).
Proof.
  intros [[H0 Hb] Ht _ _ _ _ _ _]. pose proof (tiled_positive _ _ _ Ht) as Hp. constructor; [by apply frees_sorted|]. apply Forall_forall. intros x Hx.
  destruct (frees_in _ _ _ Hp Hx). unfold HSIZE in *. lia.
Qed.

(** The block after [prevp]. *)
Lemma prev_split s X n Y prevp : heap s (X ++ (n, false) :: Y) -> prevp ∈ base :: frees lo (X ++ (n, false) :: Y) -> hptr (umem s) prevp = tend lo X ->
  exists A, base :: frees lo X = A ++ [prevp].
Proof.
  intros Hh Hp Hn. pose proof (heap_sorted _ _ Hh) as Hsort. destruct Hh as [[H0 Hb] Ht _ _ Hr _ _ _]. apply list_elem_of_split in Hp as (A & C & EF).
  rewrite EF in Hr. pose proof (lseg_next _ _ _ _ _ Hr) as Hnx. rewrite Hn in Hnx. rewrite EF in Hsort. apply tiled_app in Ht as [Ht _]. pose proof (tend_ge lo X (tiled_positive _ _ _ Ht)).
  destruct C as [|c C]; simpl in Hnx; [unfold HSIZE in *; lia|]. subst c. rewrite frees_app in EF. simpl in EF. rewrite app_comm_cons in EF.
  replace (A ++ prevp :: tend lo X :: C) with ((A ++ [prevp]) ++ tend lo X :: C) in EF by (by rewrite <- app_assoc). exists A.
  apply split_unique in EF as [-> _]; [done| |].
  - intros [E|Hin]%elem_of_cons; [unfold HSIZE in *; lia|]. destruct (frees_in _ _ _ (tiled_positive _ _ _ Ht) Hin). unfold HSIZE in *. lia.
  - intros Hin. replace (A ++ prevp :: tend lo X :: C) with ((A ++ [prevp]) ++ tend lo X :: C) in Hsort by (by rewrite <- app_assoc).
    apply list_elem_of_split in Hin as (B1 & B2 & EB). rewrite EB, <- app_assoc in Hsort. pose proof (sorted_split _ _ _ Hsort (tend lo X) ltac:(set_solver)). lia.
Qed.

Lemma take_whole s X n Y prevp : heap s (X ++ (n, false) :: Y) -> prevp ∈ base :: frees lo (X ++ (n, false) :: Y) -> hptr (umem s) prevp = tend lo X ->
  taken s (X ++ (n, false) :: Y) n (tend lo X + HSIZE) (set_freep prevp (set_umem (st64 (umem s) prevp (hptr (umem s) (tend lo X))) s)).
Proof.
  intros Hh Hp Hn. destruct (prev_split _ _ _ _ _ Hh Hp Hn) as [A EA]. pose proof Hh as [[H0 Hb] Ht He Hm Hr Hz Hc Hf]. pose proof (tiled_positive _ _ _ Ht) as Hpos.
  set (m' := st64 _ _ _). assert (only_headers [prevp] (umem s) m') as Ho by apply only_headers_ptr.
  assert (forall x, x ∈ base :: heads lo (X ++ (n, false) :: Y) -> hsize m' x = hsize (umem s) x) as Hsz by (intros x Hx; apply hsize_ptr; by apply (list_heads_apart base lo _ prevp x Hb Hpos)).
  assert (forall x, x ∈ base :: frees lo (X ++ (n, false) :: Y) -> prevp = x \/ apart prevp x) as Hfa
    by (intros x [->|Hx]%elem_of_cons; [apply (list_heads_apart base lo _ prevp base Hb Hpos Hp); set_solver|apply (list_heads_apart base lo _ prevp x Hb Hpos Hp); apply frees_heads in Hx; set_solver]).
  assert (tiled m' lo (X ++ (n, false) :: Y)) as Ht' by (eapply tiled_frame; [|exact Ht]; intros x Hx; apply Hsz; set_solver).
  pose proof (heap_sorted _ _ Hh) as Hsort. rewrite frees_app, app_comm_cons, EA in Hr, Hsort. simpl in Hr, Hsort. rewrite <- app_assoc in Hr, Hsort.
  apply lseg_app in Hr as [Hr1 Hr2]. pose proof Hr2 as [_ [Hq Hr3]]. set (F := frees (tend lo X + n * HSIZE) Y) in *.
  assert (lseg m' (base :: frees lo X ++ F) base) as Hring.
  { apply (join_prev m' X A prevp); [done| | |].
    - eapply lseg_frame; [|exact Hr1]. intros x Hx. apply hptr_ptr_ne. destruct (Hfa x) as [->|]; [rewrite frees_app, app_comm_cons, EA; set_solver| |done].
      exfalso. apply list_elem_of_split in Hx as (B1 & B2 & ->). rewrite <- app_assoc in Hsort. pose proof (sorted_split _ _ _ Hsort x ltac:(set_solver)). lia.
    - unfold m'. rewrite hptr_ptr_eq by apply ld64_range. done.
    - eapply lseg_frame; [|exact Hr3]. intros x Hx. apply hptr_ptr_ne. destruct (Hfa x) as [->|]; [rewrite frees_app; simpl; set_solver| |done].
      exfalso. pose proof (sorted_split _ _ _ Hsort x ltac:(set_solver)). lia. }
  exists (X ++ (n, true) :: Y). split_and!.
  - split; cbn [set_freep set_umem umem brk freep]; try done.
    + apply tiled_app in Ht' as [H1 H2]. by apply tiled_app.
    + by rewrite tend_app in *.
    + by rewrite frees_app.
    + rewrite Hsz by set_solver. done.
    + rewrite coalesced_mid in *. apply andb_true_iff in Hc as [[[-> _]%andb_true_iff _]%andb_true_iff ->]. done.
    + rewrite frees_app, app_comm_cons, EA. set_solver.
  - replace (tend lo X + HSIZE - HSIZE) with (tend lo X) by lia. rewrite !useds_app. simpl. by rewrite Permutation_middle.
  - eapply used_same_only; [exact Ho|]. intros h a k ->%list_elem_of_singleton Hin. by apply (list_used_apart (X ++ (n, false) :: Y)).
Qed.

Lemma take_part s X n Y prevp k : heap s (X ++ (n, false) :: Y) -> prevp ∈ base :: frees lo (X ++ (n, false) :: Y) -> 1 <= k < n ->
  let p := tend lo X in let p' := p + (n - k) * HSIZE in
  taken s (X ++ (n, false) :: Y) k (p' + HSIZE) (set_freep prevp (set_umem (st32 (st32 (umem s) (p + 8) (n - k)) (p' + 8) k) s)).
Proof.
  intros Hh Hp Hk p p'. pose proof Hh as [[H0 Hb] Ht He Hm Hr Hz Hc Hf]. pose proof (tiled_positive _ _ _ Ht) as Hpos. assert (HSIZE = 16) as EH by done.
  set (m1 := st32 (umem s) (p + 8) (n - k)). set (m' := st32 m1 (p' + 8) k).
  assert (only_headers [p; p'] (umem s) m') as Ho by (eapply (only_headers_trans [p] [p']); apply only_headers_size).
  apply tiled_app in Ht as [HtX (Hn & Hsn & HtY)]. pose proof (tiled_positive _ _ _ HtX) as HpX. pose proof (tiled_positive _ _ _ HtY) as HpY. fold p in HtY, Hsn.
  pose proof (tend_ge lo X HpX) as Hlo. pose proof (tend_ge (p + n * HSIZE) Y HpY) as Hte. fold p in Hlo. rewrite tend_app in He. simpl in He. fold p in He.
  assert (forall x, hptr m' x = hptr (umem s) x \/ ~ (x = p \/ x + HSIZE <= p \/ p + n * HSIZE <= x)) as Hptr.
  { intros x. destruct (decide (x = p \/ x + HSIZE <= p \/ p + n * HSIZE <= x)) as [Hx|]; [left|by right]. unfold m', m1, p' in *.
    rewrite !hptr_size; [done|unfold apart; lia|unfold apart; lia]. }
  assert (forall x, x ∈ base :: frees lo (X ++ (n, false) :: Y) -> x = p \/ x + HSIZE <= p \/ p + n * HSIZE <= x) as Hpos3.
  { intros x. rewrite frees_app. simpl. fold p. intros [->|[Hx|[->|Hx]%elem_of_cons]%elem_of_app]%elem_of_cons; [lia| |by left|].
    - destruct (frees_in _ _ _ HpX Hx) as [? Hle]. fold p in Hle. lia.
    - destruct (frees_in _ _ _ HpY Hx). lia. }
  exists (X ++ (n - k, false) :: (k, true) :: Y). split_and!.
  - split; cbn [set_freep set_umem umem brk freep]; try done.
    + apply tiled_app. fold p. split; [eapply tiled_only; [exact Ho|done| |exact HtX]; unfold p'; intros h [->| ->%list_elem_of_singleton]%elem_of_cons; fold p; lia|].
      cbn [tiled]. fold p'. replace (p' + k * HSIZE) with (p + n * HSIZE) by (unfold p'; lia). split_and!; [lia| |lia| |].
      * unfold m'. rewrite hsize_size_ne by (unfold apart, p'; lia). apply hsize_size_eq. lia.
      * unfold m'. apply hsize_size_eq. lia.
      * eapply tiled_only; [exact Ho|done| |exact HtY]. unfold p'. intros h [->| ->%list_elem_of_singleton]%elem_of_cons; lia.
    + rewrite tend_app. simpl. fold p. by replace (p + (n - k) * HSIZE + k * HSIZE) with (p + n * HSIZE) by lia.
    + assert (frees lo (X ++ (n - k, false) :: (k, true) :: Y) = frees lo (X ++ (n, false) :: Y)) as ->.
      { rewrite !frees_app. simpl. fold p. by replace (p + (n - k) * HSIZE + k * HSIZE) with (p + n * HSIZE) by lia. }
      eapply lseg_frame; [|exact Hr]. intros x Hx. destruct (Hptr x) as [|Hno]; [done|]. by destruct Hno; apply Hpos3.
    + rewrite (only_headers_hsize [p; p'] (umem s)); [done|done|]. unfold p'. intros h [->| ->%list_elem_of_singleton]%elem_of_cons; unfold apart; lia.
    + rewrite coalesced_mid in *. apply andb_true_iff in Hc as [[[-> ->]%andb_true_iff _]%andb_true_iff Hc]. cbn. by rewrite Hc.
    + rewrite frees_app in Hp |- *. simpl in Hp |- *. fold p in Hp |- *. by replace (p + (n - k) * HSIZE + k * HSIZE) with (p + n * HSIZE) by lia.
  - replace (p' + HSIZE - HSIZE) with p' by lia. rewrite !useds_app. simpl. fold p p'. replace (p' + k * HSIZE) with (p + n * HSIZE) by (unfold p'; lia). by rewrite Permutation_middle.
  - eapply used_same_only; [exact Ho|]. intros h a j Hh' Hin. rewrite useds_app in Hin. simpl in Hin. fold p in Hin.
    destruct (used_apart X n false Y a j Hpos Hin) as [|]; fold p in H; unfold p' in Hh'; apply elem_of_cons in Hh' as [->| ->%list_elem_of_singleton]; lia.
Qed.

Lemma malloc_take_spec s T k prevp p : heap s T -> prevp ∈ base :: frees lo T -> hptr (umem s) prevp = p -> p ∈ base :: frees lo T ->
  1 <= k <= hsize (umem s) p -> wp (malloc_take k prevp p (hsize (umem s) p) s) (taken s T k).
Proof.
  intros Hh Hpv Hn Hp Hk. apply elem_of_cons in Hp as [->|Hp]; [rewrite (h_zero _ _ Hh) in Hk; lia|]. destruct (frees_split _ _ _ Hp) as (X & n & Y & -> & ->).
  pose proof (h_tiled _ _ Hh) as Ht. apply tiled_app in Ht as [_ (_ & Hs & _)]. rewrite Hs in *. unfold malloc_take, getptr. pose proof (ld32_range (umem s) (tend lo X + 8)) as Hr. fold (hsize (umem s) (tend lo X)) in Hr.
  rewrite Hs in Hr. destruct (Z.eqb_spec n k) as [->|Hne].
  - apply wp_bind. apply wp_gets. apply wp_modify, wp_ret. apply wp_modify, wp_ret. by apply take_whole.
  - apply wp_bind. rewrite wrap_id by (unfold in_range; lia). apply wp_modify. apply wp_modify, wp_ret. apply wp_modify, wp_ret.
    exact (take_part s X n Y prevp k Hh Hpv ltac:(lia)).
Qed.

(** ** Searching the list *)

(** Following the links from [a] meets [L]. *)
Fixpoint walk (m : memory) (a : Z) (L : list Z) : Prop := match L with [] => True | b :: L => hptr m a = b /\ walk m b L end.

Lemma lseg_walk m a l e : lseg m (a :: l) e -> walk m a (l ++ [e]).
Proof. revert a. induction l as [|b l IH]; intros a [H1 H2]; [done|]. split; [done|]. by apply IH. Qed.

Lemma walk_app m a L b L' : walk m a (L ++ [b]) -> walk m b L' -> walk m a (L ++ b :: L').
Proof. revert a. induction L as [|c L IH]; intros a; simpl; [intros [H1 _] H2; done|]. intros [H1 H2] H3. split; [done|]. by apply IH. Qed.

(** From [freep], the whole list and back. *)
Lemma ring_walk s T : heap s T -> exists L, walk (umem s) (freep s) (L ++ [freep s]) /\ (L ++ [freep s]) ≡ₚ base :: frees lo T.
Proof.
  intros [_ _ _ _ Hr _ _ Hf]. apply list_elem_of_split in Hf as (A & B & EF). rewrite EF in Hr |- *. apply lseg_app in Hr as [H1 H2]. apply lseg_walk in H2.
  destruct A as [|x A]; injection EF as -> EF.
  - exists B. split; [done|]. simpl. by rewrite Permutation_app_comm.
  - exists (B ++ x :: A). rewrite <- app_assoc. simpl. split; [|solve_Permutation]. apply walk_app; [done|]. by apply lseg_walk.
Qed.

Context (grows : Z -> Z -> bool).

(** What follows a failed search. *)
Definition after_search (fuel : nat) (n : Z) : M ust Z :=
  p ← morecore grows fuel n; if p =? 0 then mret 0 else q ← getptr p; malloc_loop grows fuel n p q.

Lemma loop_walk fuel n prevp L s T (Q : Z -> ust -> Prop) : heap s T -> 1 <= n -> prevp ∈ base :: frees lo T -> walk (umem s) prevp (L ++ [freep s]) ->
  (forall x, x ∈ L ++ [freep s] -> x ∈ base :: frees lo T) -> freep s ∉ L -> (forall r s', taken s T n r s' -> Q r s') ->
  ((forall x, x ∈ L ++ [freep s] -> hsize (umem s) x < n) -> wp (after_search fuel n s) Q) ->
  wp (malloc_loop grows (length L + S fuel) n prevp (hptr (umem s) prevp) s) Q.
Proof.
  intros Hh Hn. revert prevp. induction L as [|p L IH]; intros prevp Hpv Hw Hin Hnf Htk Hmc; destruct Hw as [E Hw]; rewrite E; cbn [Nat.add length malloc_loop];
    unfold getsize; apply wp_gets.
  - destruct (Z.leb_spec n (hsize (umem s) (freep s))) as [Hle|Hlt].
    + eapply wp_mono; [apply (malloc_take_spec s T n prevp (freep s)); [done|done|done|apply Hin; set_solver|lia]|done].
    + apply wp_gets. rewrite Z.eqb_refl. apply Hmc. intros x ->%list_elem_of_singleton. done.
  - destruct (Z.leb_spec n (hsize (umem s) p)) as [Hle|Hlt].
    + eapply wp_mono; [apply (malloc_take_spec s T n prevp p); [done|done|done|apply Hin; set_solver|lia]|done].
    + apply wp_gets. replace (p =? freep s) with false by (symmetry; apply Z.eqb_neq; set_solver). unfold getptr. apply wp_gets.
      apply IH; [apply Hin; set_solver|done|intros x Hx; apply Hin; set_solver|set_solver|done|]. intros Hall. apply Hmc. intros x [->|Hx]%elem_of_cons; [done|by apply Hall].
Qed.

Lemma heap_grow s T n : heap s T -> 1 <= n -> brk s + n * HSIZE <= 2 ^ 36 ->
  let s' := set_umem (st32 (umem s) (brk s + 8) n) (set_brk (brk s + n * HSIZE) s) in heap s' (T ++ [(n, true)]) /\ only_headers [brk s] (umem s) (umem s').
Proof.
  intros [[H0 Hb] Ht He Hm Hr Hz Hc Hf] Hn Hmax s'. assert (only_headers [brk s] (umem s) (umem s')) as Ho by apply only_headers_size. split; [|done].
  pose proof (tiled_positive _ _ _ Ht) as Hp. pose proof (tend_ge lo T Hp) as Hlo. assert (HSIZE = 16) as EH by done.
  assert (frees lo (T ++ [(n, true)]) = frees lo T) as Ef by (rewrite frees_app; simpl; by rewrite app_nil_r). split; try rewrite Ef; try done.
  - apply tiled_app. split; [eapply tiled_only; [exact Ho|done| |exact Ht]; intros h ->%list_elem_of_singleton; lia|]. rewrite He. cbn [tiled]. split_and!; [done| |done].
    apply hsize_size_eq. lia.
  - rewrite tend_app, He. done.
  - eapply lseg_only; [exact Ho| |exact Hr]. intros h x ->%list_elem_of_singleton [->|Hx]%elem_of_cons; [unfold apart; lia|]. destruct (frees_in _ _ _ Hp Hx). unfold apart. lia.
  - rewrite (only_headers_hsize [brk s] (umem s)); [done|done|]. intros h ->%list_elem_of_singleton. unfold apart. lia.
  - rewrite coalesced_mid, Hc. done.
Qed.

(** The kernel gives a process no more than this. *)
Hypothesis Hlimit : forall b n, grows b n = true -> b + n <= 2 ^ 36.

Lemma morecore_spec fuel n s T : heap s T -> 1 <= n -> n * HSIZE < 2 ^ 31 -> (length T + 1 < fuel)%nat ->
  wp (morecore grows fuel n s) (fun p s' => (p = 0 /\ s' = s /\ grows (brk s) (Z.max 4096 n * HSIZE) = false) \/
    (p <> 0 /\ p = freep s' /\ exists T', heap s' T' /\ has_room (umem s') T' n /\ useds lo T' = useds lo T /\ (length T' <= length T + 1)%nat /\ used_same T (umem s) (umem s'))).
Proof.
  intros Hh Hn Hb Hfu. unfold morecore. assert (HSIZE = 16) as EH by done. replace (if n <? 4096 then 4096 else n) with (Z.max 4096 n) by (destruct (Z.ltb_spec n 4096); lia).
  set (nu := Z.max 4096 n). apply wp_bind. unfold sbrk. apply wp_gets. rewrite sint_id by lia. destruct (grows (brk s) (nu * HSIZE)) eqn:Eg.
  2:{ apply wp_ret. rewrite Z.eqb_refl. apply wp_ret. by left. }
  pose proof (Hlimit _ _ Eg) as Hmax. apply wp_modify, wp_ret. pose proof (h_max _ _ Hh). replace (brk s =? 2 ^ 64 - 1) with false by lia.
  destruct (heap_grow s T nu Hh ltac:(lia) Hmax) as [Hg Ho]. apply wp_modify. set (s1 := set_umem _ _) in *. change (umem (set_brk (brk s + nu * HSIZE) s)) with (umem s).
  pose proof (free_spec fuel s1 T nu [] Hg ltac:(simpl; lia)) as Hfs. rewrite (h_end _ _ Hh) in Hfs. wp_step Hfs. intros [] s2 (T' & Hh2 & Hu & Hlen & Hroom & Hbrk & Ho2).
  apply wp_ret. right. pose proof Hh2 as [[H0 Hb2] Ht2 He2 Hm2 Hr2 Hz2 Hc2 Hf2]. split; [|split; [done|]].
  - apply elem_of_cons in Hf2 as [->|Hx]; [lia|]. destruct (frees_in _ _ _ (tiled_positive _ _ _ Ht2) Hx). lia.
  - exists T'. rewrite app_nil_r in Hu. destruct Hroom as (x & Hx & Hxn). split_and!; [done|exists x; split; [done|lia]|done|simpl in Hlen; lia|].
    eapply used_same_only; [eapply (only_headers_trans [brk s]); [exact Ho|exact Ho2]|]. pose proof (h_tiled _ _ Hh) as Ht. pose proof (tiled_positive _ _ _ Ht) as Hp.
    intros h a k [->%list_elem_of_singleton|[->|Hin]%elem_of_cons]%elem_of_app Hu'; [| |by apply (list_used_apart T)];
      right; destruct (useds_in _ _ _ _ Hp Hu') as (_ & _ & Hle); by rewrite (h_end _ _ Hh) in Hle.
Qed.

Lemma sorted_nodup (l : list Z) : StronglySorted Z.lt l -> NoDup l.
Proof. induction 1 as [|a l Hs IH Hf]; constructor; [|done]. intros Hin. pose proof (proj1 (Forall_forall _ _) Hf a Hin). lia. Qed.

(** A search of the whole list, from [freep]. *)
Lemma search_spec fuel n s T (Q : Z -> ust -> Prop) : heap s T -> 1 <= n -> (length T < fuel)%nat -> (forall r s', taken s T n r s' -> Q r s') ->
  (forall fuel', (fuel <= fuel' + length T + 1)%nat -> ~ has_room (umem s) T n -> wp (after_search fuel' n s) Q) ->
  wp (malloc_loop grows fuel n (freep s) (hptr (umem s) (freep s)) s) Q.
Proof.
  intros Hh Hn Hfu Htk Hmc. destruct (ring_walk s T Hh) as (L & Hw & HL). pose proof (Permutation_length HL) as Hlen. rewrite length_app in Hlen. simpl in Hlen. pose proof (length_frees lo T) as Hlf.
  assert (exists fuel', fuel = length L + S fuel')%nat as [fuel' ->] by (exists (fuel - length L - 1)%nat; lia).
  apply (loop_walk fuel' n (freep s) L s T); [done|done|apply (h_freep _ _ Hh)|done|intros x Hx; by rewrite <- HL| |done|].
  - pose proof (sorted_nodup _ (heap_sorted _ _ Hh)) as Hnd. rewrite <- HL in Hnd. apply NoDup_app in Hnd as (_ & Hnd & _). intros Hin. apply (Hnd _ Hin). set_solver.
  - intros Hall. apply Hmc; [lia|]. intros (x & Hx & Hxn). specialize (Hall x). rewrite HL in Hall. specialize (Hall ltac:(set_solver)). lia.
Qed.

Lemma taken_compose s T s1 T1 n r s2 : useds lo T1 = useds lo T -> used_same T (umem s) (umem s1) -> taken s1 T1 n r s2 -> taken s T n r s2.
Proof.
  intros Eu Hs (T2 & Hh & Hp & Hs2). exists T2. rewrite <- Eu. split_and!; [done|done|]. intros a k y Hin Hy. rewrite (Hs2 a k y), (Hs a k y); [done|done|done|by rewrite Eu|done].
Qed.

Definition nunits (nbytes : Z) : Z := (nbytes + HSIZE - 1) / HSIZE + 1.

(** No block could be had: the kernel refused the memory. *)
Definition refused (s : ust) (T : tiles) (n : Z) (s' : ust) : Prop :=
  heap s' T /\ used_same T (umem s) (umem s') /\ grows (brk s) (Z.max 4096 n * HSIZE) = false.

Lemma malloc_heap_spec fuel n s T : heap s T -> 1 <= n -> n * HSIZE < 2 ^ 31 -> (2 * length T + 5 < fuel)%nat ->
  wp (malloc_loop grows fuel n (freep s) (hptr (umem s) (freep s)) s) (fun r s' => (r = 0 /\ refused s T n s') \/ (r <> 0 /\ taken s T n r s')).
Proof.
  intros Hh Hn Hb Hfu.
  assert (forall s T r s', taken s T n r s' -> r <> 0) as Hr0.
  { intros s0 T0 r s' (T' & [[H0 Hb'] Ht _ _ _ _ _ _] & Hp & _) ->. assert ((0 - HSIZE, n) ∈ useds lo T') as Hin by (rewrite Hp; set_solver).
    destruct (useds_in _ _ _ _ (tiled_positive _ _ _ Ht) Hin). unfold HSIZE in *. lia. }
  apply (search_spec fuel n s T); [done|done|lia|intros r s' Ht; right; split; [by eapply Hr0|done]|]. intros fuel1 Hf1 _. unfold after_search.
  wp_step (morecore_spec fuel1 n s T Hh Hn Hb); [lia|]. intros p s1 [(-> & -> & Eg)|(Hp0 & -> & T1 & Hh1 & Hroom & Eu & Hlen & Hsame)].
  - apply wp_ret. left. split; [done|]. by split_and!.
  - rewrite (proj2 (Z.eqb_neq _ _) Hp0). unfold getptr. apply wp_gets. apply (search_spec fuel1 n s1 T1); [done|done|lia| |done].
    intros r s' Ht. right. split; [by eapply Hr0|]. by eapply taken_compose.
Qed.

(** The allocator before its first call, or with a heap. *)
Definition heap_ok (s : ust) (T : tiles) : Prop :=
  heap s T \/ (freep s = 0 /\ T = [] /\ brk s = lo /\ lo <= 2 ^ 36 /\ 0 < base /\ base + HSIZE <= lo).

Lemma heap_init s : brk s = lo -> lo <= 2 ^ 36 -> 0 < base -> base + HSIZE <= lo ->
  let m := st32 (st64 (umem s) base base) (base + 8) 0 in heap (set_umem m (set_freep base s)) [] /\ hptr m base = base.
Proof.
  clear Hlimit grows. intros Hb Hm H0 Hl m. assert (hptr m base = base) as E by (unfold m; rewrite hptr_size by (by left); apply hptr_ptr_eq; unfold HSIZE in *; lia). split; [|done].
  split; cbn [set_umem set_freep umem freep brk frees tend tiled]; try done; [by rewrite Hb|apply hsize_size_eq; lia|set_solver].
Qed.

Lemma malloc_total fuel nbytes s T : heap_ok s T -> 0 <= nbytes < 2 ^ 31 - 31 -> (2 * length T + 5 < fuel)%nat ->
  wp (malloc base grows fuel nbytes s) (fun r s' => exists T', heap_ok s' T' /\ used_same T (umem s) (umem s') /\
    ((r = 0 /\ useds lo T' = useds lo T /\ grows (brk s) (Z.max 4096 (nunits nbytes) * HSIZE) = false) \/
     (r <> 0 /\ nbytes <= (nunits nbytes - 1) * HSIZE /\ useds lo T' ≡ₚ (r - HSIZE, nunits nbytes) :: useds lo T))).
Proof.
  intros Hok Hb Hfu. assert (1 <= nunits nbytes /\ nunits nbytes * HSIZE < 2 ^ 31 /\ nbytes <= (nunits nbytes - 1) * HSIZE) as (Hn & Hn31 & Hfit).
  { unfold nunits, HSIZE in *. pose proof (Z.div_mod (nbytes + 16 - 1) 16 ltac:(lia)). pose proof (Z.mod_pos_bound (nbytes + 16 - 1) 16 ltac:(lia)). lia. }
  unfold malloc. fold (nunits nbytes). rewrite wrap_id by (unfold in_range, HSIZE in *; lia). apply wp_gets.
  assert (forall s1, heap s1 T -> brk s1 = brk s -> used_same T (umem s) (umem s1) ->
    wp (malloc_loop grows fuel (nunits nbytes) (freep s1) (hptr (umem s1) (freep s1)) s1) (fun r s' => exists T', heap_ok s' T' /\ used_same T (umem s) (umem s') /\
    ((r = 0 /\ useds lo T' = useds lo T /\ grows (brk s) (Z.max 4096 (nunits nbytes) * HSIZE) = false) \/
     (r <> 0 /\ nbytes <= (nunits nbytes - 1) * HSIZE /\ useds lo T' ≡ₚ (r - HSIZE, nunits nbytes) :: useds lo T)))) as Hloop.
  { intros s1 Hh Eb Hs. eapply wp_mono; [by apply (malloc_heap_spec fuel (nunits nbytes) s1 T)|]. intros r s' [(-> & Hh' & Hs' & Eg)|(Hr & T' & Hh' & Hp & Hs')].
    - exists T. split_and!; [by left|intros a k y Hin Hy; by rewrite (Hs' a k y), (Hs a k y)|]. left. rewrite Eb in Eg. done.
    - exists T'. split_and!; [by left|intros a k y Hin Hy; by rewrite (Hs' a k y), (Hs a k y)|]. by right. }
  destruct Hok as [Hh|(Hf & -> & Ebrk & Hlo & H0 & Hbl)].
  - assert (freep s <> 0) as Hf0.
    { pose proof Hh as [[H0 Hbl] Ht _ _ _ _ _ Hf]. apply elem_of_cons in Hf as [->|Hx]; [lia|]. destruct (frees_in _ _ _ (tiled_positive _ _ _ Ht) Hx). unfold HSIZE in *. lia. }
    rewrite (proj2 (Z.eqb_neq _ _) Hf0). apply wp_bind, wp_ret. unfold getptr. apply wp_gets. by apply Hloop.
  - rewrite Hf. cbn [Z.eqb]. apply wp_bind. apply wp_modify, wp_modify, wp_modify, wp_ret. unfold getptr. apply wp_gets. destruct (heap_init s Ebrk Hlo H0 Hbl) as [Hh Ep].
    apply (Hloop (set_umem (st32 (st64 (umem s) base base) (base + 8) 0) (set_freep base s)) Hh); [done|]. intros a k y Hin. simpl in Hin. set_solver.
Qed.

Lemma free_total fuel s T a n : heap_ok s T -> (a, n) ∈ useds lo T -> (length T < fuel)%nat ->
  wp (free fuel (a + HSIZE) s) (fun _ s' => exists T', heap_ok s' T' /\ useds lo T ≡ₚ (a, n) :: useds lo T' /\ used_same T' (umem s) (umem s') /\ has_room (umem s') T' n).
Proof.
  clear Hlimit grows. intros [Hh|(_ & -> & _)] Hin Hfu; [|simpl in Hin; set_solver]. destruct (useds_split _ _ _ _ Hin) as (X & Y & -> & ->). rewrite length_app in Hfu. simpl in Hfu.
  eapply wp_mono; [apply (free_spec fuel s X n Y Hh); lia|]. intros [] s' (T' & Hh' & Hu & _ & Hroom & _ & Ho). exists T'. rewrite Hu. split_and!; [by left| | |done].
  - rewrite useds_app. simpl. by rewrite Permutation_middle.
  - pose proof Hh as [[H0 Hb] Ht _ _ _ _ _ _]. pose proof (tiled_positive _ _ _ Ht) as Hp. eapply used_same_only; [exact Ho|]. rewrite Hu. intros h b k Hh2 Hin2.
    assert ((b, k) ∈ useds lo (X ++ (n, true) :: Y)) as Hin3 by (rewrite useds_app; simpl; set_solver).
    apply elem_of_cons in Hh2 as [->|Hh2].
    + destruct (used_apart X n true Y b k Hp Hin2) as [|]; [by right|left]. pose proof (useds_in _ _ _ _ Hp Hin). unfold HSIZE in *. lia.
    + apply (list_used_apart (X ++ (n, true) :: Y)); [done|done| |done]. rewrite frees_app. set_solver.
Qed.

(** ** Programs that use the allocator *)

(** Calls that return, and writes of a program to the blocks it has. *)
Inductive ustep : ust * list (Z * Z) -> ust * list (Z * Z) -> Prop :=
| u_malloc s live nbytes r s' N : 0 <= nbytes < 2 ^ 31 - 31 -> (forall fuel, (N <= fuel)%nat -> malloc base grows fuel nbytes s = Ret r s') ->
    ustep (s, live) (s', if r =? 0 then live else (r - HSIZE, nunits nbytes) :: live)
| u_free s l1 a n l2 s' N : (forall fuel, (N <= fuel)%nat -> free fuel (a + HSIZE) s = Ret tt s') ->
    ustep (s, l1 ++ (a, n) :: l2) (s', l1 ++ l2)
| u_write s live a n y v : (a, n) ∈ live -> a + HSIZE <= y < a + n * HSIZE ->
    ustep (s, live) (set_umem (<[y := v]> (umem s)) s, live).

(** A byte inside a block in use is no part of the allocator's data. *)
Lemma write_heap s T a n y v : heap_ok s T -> (a, n) ∈ useds lo T -> a + HSIZE <= y < a + n * HSIZE -> heap_ok (set_umem (<[y := v]> (umem s)) s) T.
Proof.
  intros [Hh|(_ & -> & _)] Hin Hy; [left|simpl in Hin; set_solver]. destruct (useds_split _ _ _ _ Hin) as (X & Y & -> & ->). pose proof Hh as [[H0 Hb] Ht He Hm Hr Hz Hc Hf].
  pose proof (tiled_positive _ _ _ Ht) as Hp. set (m' := <[y := v]> (umem s)). set (T := X ++ (n, true) :: Y) in *.
  assert (forall x, x ∈ base :: heads lo T -> x + HSIZE <= y \/ y < x) as Hx.
  { intros x [->|Hx]%elem_of_cons; [destruct (useds_in _ _ _ _ Hp Hin); lia|]. unfold T in Hx. apply tiled_app in Ht as [HtX (Hn & _ & HtY)].
    assert (x ∈ heads lo X \/ x ∈ tend lo X :: heads (tend lo X + n * HSIZE) Y) as [Hx'|Hx'].
    { clear - Hx. revert Hx. generalize lo. induction X as [|[k u] X IH]; intros l; simpl; [by right|]. intros [->|Hx]%elem_of_cons; [left; set_solver|]. destruct (IH _ Hx) as [|]; [left; set_solver|by right]. }
    - destruct (heads_in _ _ _ (tiled_positive _ _ _ HtX) Hx'). lia.
    - apply elem_of_cons in Hx' as [->|Hx']; [lia|]. destruct (heads_in _ _ _ (tiled_positive _ _ _ HtY) Hx'). lia. }
  assert (forall x, x ∈ base :: heads lo T -> hptr m' x = hptr (umem s) x /\ hsize m' x = hsize (umem s) x) as Heq.
  { intros x Hin'. specialize (Hx x Hin'). unfold HSIZE in Hx. split; [apply ld64_ext|apply ld32_ext]; intros z Hz'; unfold m'; rewrite lookup_total_insert_ne; (done || lia). }
  split; cbn [set_umem umem brk freep]; try done.
  - eapply tiled_frame; [|exact Ht]. intros x Hx'. apply Heq. set_solver.
  - eapply lseg_frame; [|exact Hr]. intros x Hx'. apply Heq. apply elem_of_cons in Hx' as [->|Hx']; [set_solver|]. apply frees_heads in Hx'. set_solver.
  - destruct (Heq base ltac:(set_solver)) as [_ E]. by rewrite E.
Qed.

Lemma ustep_inv x y : ustep x y -> (exists T, heap_ok x.1 T /\ useds lo T ≡ₚ x.2) -> exists T, heap_ok y.1 T /\ useds lo T ≡ₚ y.2.
Proof.
  intros [s live nbytes r s' N Hb E|s l1 a n l2 s' N E|s live a n y' v Hin Hy] (T & Hok & Hp); cbn [fst snd] in *.
  - destruct (wp_inv _ _ (malloc_total (N + 2 * length T + 6) nbytes s T Hok Hb ltac:(lia))) as (r' & s2 & E' & T' & Hok' & _ & Hr). rewrite E in E' by lia. injection E' as <- <-.
    exists T'. split; [done|]. destruct Hr as [(-> & -> & _)|(Hr & _ & Hp')]; [done|]. rewrite (proj2 (Z.eqb_neq _ _) Hr). by rewrite Hp', Hp.
  - assert ((a, n) ∈ useds lo T) as Hin by (rewrite Hp; set_solver).
    destruct (wp_inv _ _ (free_total (N + length T + 1) s T a n Hok Hin ltac:(lia))) as ([] & s2 & E' & T' & Hok' & Hp' & _). rewrite E in E' by lia. injection E' as <-.
    exists T'. split; [done|]. rewrite Hp', <- Permutation_middle in Hp. by apply Permutation_cons_inv in Hp.
  - exists T. split; [|done]. eapply write_heap; [done|by rewrite Hp|done].
Qed.

Lemma useds_disjoint T l1 a n l2 b k : positive T -> useds lo T ≡ₚ l1 ++ (a, n) :: l2 -> (b, k) ∈ l1 ++ l2 -> a + n * HSIZE <= b \/ b + k * HSIZE <= a.
Proof.
  intros Hp HP Hin. assert ((a, n) ∈ useds lo T) as Ha by (rewrite HP; set_solver). destruct (useds_split _ _ _ _ Ha) as (X & Y & -> & ->).
  assert ((b, k) ∈ useds lo X ++ useds (tend lo X + n * HSIZE) Y) as Hb.
  { rewrite useds_app in HP. simpl in HP. rewrite <- !Permutation_middle in HP. apply Permutation_cons_inv in HP. by rewrite HP. }
  destruct (used_apart X n true Y b k Hp Hb); [by right|by left].
Qed.

(** C24: [malloc] of fewer than 2^31 - 31 bytes returns a block of its own: of at least [nbytes] bytes inside
    the process's memory, apart from every block in use, whose bytes (headers
    included) do not change; it fails only when the kernel refuses to grow the
    process.  It always returns: a search is at most two rounds of the list. *)
Theorem malloc_correct fuel nbytes s T : heap_ok s T -> 0 <= nbytes < 2 ^ 31 - 31 -> (2 * length T + 5 < fuel)%nat ->
  wp (malloc base grows fuel nbytes s) (fun r s' => exists T', heap_ok s' T' /\ used_same T (umem s) (umem s') /\
    ((r = 0 /\ useds lo T' = useds lo T /\ grows (brk s) (Z.max 4096 (nunits nbytes) * HSIZE) = false) \/
     (r <> 0 /\ nbytes <= (nunits nbytes - 1) * HSIZE /\ useds lo T' ≡ₚ (r - HSIZE, nunits nbytes) :: useds lo T))).
Proof. apply malloc_total. Qed.

(** C25: [free] of a block that [malloc] gave returns it to the free list, and
    changes nothing of the other blocks in use; the list stays in address order
    with no two adjacent blocks, which are joined, so the block can be given out
    again together with its free neighbours. *)
Theorem free_correct fuel s T a n : heap_ok s T -> (a, n) ∈ useds lo T -> (length T < fuel)%nat ->
  wp (free fuel (a + HSIZE) s) (fun _ s' => exists T', heap_ok s' T' /\ useds lo T ≡ₚ (a, n) :: useds lo T' /\ used_same T' (umem s) (umem s') /\ has_room (umem s') T' n).
Proof. apply free_total. Qed.

(** However a program allocates, frees and writes to its blocks, the blocks
    it has at any time lie inside its heap and are apart from each other. *)
Theorem heap_blocks_disjoint s0 s live l1 a n l2 : heap_ok s0 [] -> rtc ustep (s0, []) (s, live) -> live = l1 ++ (a, n) :: l2 ->
  lo <= a /\ 1 <= n /\ a + n * HSIZE <= brk s /\ forall b k, (b, k) ∈ l1 ++ l2 -> a + n * HSIZE <= b \/ b + k * HSIZE <= a.
Proof.
  intros H0 Hr ->. assert (exists T, heap_ok s T /\ useds lo T ≡ₚ l1 ++ (a, n) :: l2) as (T & Hok & HP).
  { assert (exists T, heap_ok (s0, @nil (Z * Z)).1 T /\ useds lo T ≡ₚ (s0, @nil (Z * Z)).2) as Hi by (by exists []).
    revert Hi Hr. generalize (s0, @nil (Z * Z)). intros x Hi Hr. change (exists T, heap_ok (s, l1 ++ (a, n) :: l2).1 T /\ useds lo T ≡ₚ (s, l1 ++ (a, n) :: l2).2).
    induction Hr as [|x y z Hxy Hyz IH]; [done|]. apply IH. by eapply ustep_inv. }
  assert ((a, n) ∈ useds lo T) as Ha by (rewrite HP; set_solver). destruct Hok as [[_ Ht He _ _ _ _ _]|(_ & -> & _)]; [|simpl in Ha; set_solver].
  pose proof (tiled_positive _ _ _ Ht) as Hp. destruct (useds_in _ _ _ _ Hp Ha) as (H1 & H2 & H3). rewrite He in H3. split_and!; try done. intros b k. by apply (useds_disjoint T l1 a n l2).
Qed.
End free.

(** A request of 2^27 units or more reaches the kernel as a negative number of
    bytes: the call can succeed without adding any memory. *)
Lemma sbrk_truncates grows nu s : 2 ^ 27 <= nu < 2 ^ 28 -> grows (brk s) (nu * HSIZE - 2 ^ 32) = true ->
  sbrk grows (nu * HSIZE) s = Ret (brk s) (set_brk (brk s + (nu * HSIZE - 2 ^ 32)) s) /\ nu * HSIZE - 2 ^ 32 < 0.
Proof.
  intros Hn Hg. assert (to_int (nu * HSIZE) = nu * HSIZE - 2 ^ 32) as E.
  { unfold sint, HSIZE. replace (nu * 16 + 2 ^ (32 - 1)) with (nu * 16 - 2 ^ 31 + 1 * 2 ^ 32) by lia. rewrite Z.mod_add, Z.mod_small; lia. }
  split; [|unfold HSIZE; lia]. unfold sbrk. msimpl. rewrite E, Hg. done.
Qed.

(** ** The properties at work *)

(** A process that may grow to a megabyte; its data ends at 4096. *)
Definition demo_grows (b n : Z) : bool := b + n <=? 2 ^ 20.
Definition demo_ust : ust := mk_ust ∅ 0 4096.

Lemma demo_grows_limit b n : demo_grows b n = true -> b + n <= 2 ^ 36.
Proof. unfold demo_grows. lia. Qed.

Lemma demo_heap_ok : heap_ok 64 4096 demo_ust [].
Proof. right. by split_and!. Qed.

Definition demo_malloced : ust := final (malloc 64 demo_grows 10 100) demo_ust.

Lemma malloc_correct_witness : exists r s', malloc 64 demo_grows 10 100 demo_ust = Ret r s' /\
  ((r = 0 /\ demo_grows 4096 (Z.max 4096 (nunits 100) * HSIZE) = false) \/ r <> 0).
Proof.
  destruct (wp_inv _ _ (malloc_correct 64 4096 demo_grows demo_grows_limit 10 100 demo_ust [] demo_heap_ok ltac:(lia) ltac:(simpl; lia))) as (r & s' & E & T' & _ & _ & Hr).
  exists r, s'. split; [exact E|]. destruct Hr as [(H1 & _ & H2)|(H1 & _)]; [left; by split|by right].
Defined.

Definition demo_inited : ust := set_umem (st32 (st64 (umem demo_ust) 64 64) (64 + 8) 0) (set_freep 64 demo_ust).

Lemma demo_loop : malloc_loop demo_grows 10 8 64 64 demo_inited = Ret 69520 demo_malloced.
Proof. vm_compute. reflexivity. Qed.

(** The heap after a first call: a free block and the block it gave. *)
Lemma demo_malloced_ok : exists T, heap_ok 64 4096 demo_malloced T /\ (69504, 8) ∈ useds 4096 T.
Proof.
  destruct (heap_init 64 4096 demo_ust) as [Hh Ep]; [done..|]. fold demo_inited in Hh. change (hptr (umem demo_inited) 64 = 64) in Ep.
  pose proof (malloc_heap_spec 64 4096 demo_grows demo_grows_limit 10 8 demo_inited [] Hh ltac:(lia) ltac:(unfold HSIZE; lia) ltac:(simpl; lia)) as Hw.
  change (freep demo_inited) with 64 in Hw. rewrite Ep, demo_loop in Hw. destruct Hw as [[? _]|(_ & T & Hh' & Hp & _)]; [done|]. exists T. split; [by left|]. rewrite Hp. set_solver.
Qed.

Lemma free_correct_witness : exists fuel s', free fuel (69504 + HSIZE) demo_malloced = Ret tt s'.
Proof.
  destruct demo_malloced_ok as (T & Hok & Hin).
  destruct (wp_inv _ _ (free_correct 64 4096 (S (length T)) demo_malloced T 69504 8 Hok Hin (Nat.lt_succ_diag_r _))) as ([] & s' & E & _). eauto.
Defined.

Lemma demo_malloc_runs fuel : (10 <= fuel)%nat -> malloc 64 demo_grows fuel 100 demo_ust = Ret 69520 demo_malloced.
Proof.
  intros Hf. do 10 (destruct fuel as [|fuel]; [lia|]). clear Hf. vm_compute. reflexivity.
Qed.

Lemma heap_blocks_disjoint_witness : 4096 <= 69504 /\ 69504 + 8 * HSIZE <= brk demo_malloced.
Proof.
  destruct (heap_blocks_disjoint 64 4096 demo_grows demo_grows_limit demo_ust demo_malloced [(69504, 8)] [] 69504 8 [] demo_heap_ok
    (rtc_once _ _ (u_malloc 64 demo_grows demo_ust [] 100 69520 demo_malloced 10 ltac:(lia) demo_malloc_runs)) eq_refl) as (H1 & _ & H2 & _).
  by split.
Defined.
