(* ===== verification/Grep.v ===== *)
(** * grep (user/grep.c)

    The matcher on strings given by their bytes before the NUL, and the loop
    that reads a file through a buffer of 1024 bytes.  How many bytes a [read]
    returns is an argument: at least one unless the file or the room is at its
    end. *)

From S2P Require Import Prelude.

Definition STAR : Z := 42.
Definition DOT : Z := 46.
Definition DOLLAR : Z := 36.
Definition CARET : Z := 94.
Definition NL : Z := 10.

(** ** The matcher *)

(** [k] is [matchhere] of the rest of the pattern. *)
Fixpoint matchstar (c : Z) (k : list Z -> bool) (text : list Z) : bool :=
  if k text then true
  else match text with [] => false | t :: text => if (t =? c) || (c =? DOT) then matchstar c k text else false end.

Fixpoint matchhere (re text : list Z) {struct re} : bool :=
  match re with
  | [] => true
  | r0 :: re1 =>
      match re1 with
      | [] =>
          if r0 =? DOLLAR then match text with [] => true | _ => false end
          else match text with [] => false | t :: _ => (r0 =? DOT) || (r0 =? t) end
      | r1 :: re2 =>
          if r1 =? STAR then matchstar r0 (matchhere re2) text
          else match text with
               | [] => false
               | t :: text => if (r0 =? DOT) || (r0 =? t) then matchhere re1 text else false
               end
      end
  end.

(** The loop of [match], which also looks at the empty text. *)
Fixpoint match_from (re text : list Z) : bool :=
  if matchhere re text then true else match text with [] => false | _ :: text => match_from re text end.

Definition match_ (re text : list Z) : bool :=
  match re with
  | r0 :: re1 => if r0 =? CARET then matchhere re1 text else match_from re text
  | [] => match_from re text
  end.

(** ** The loop over the file *)

(** [sizeof(buf)] *)
Definition BUFSZ : nat := 1024.

(** [strchr(p, '\n')] : the bytes before and after it; the string ends at a NUL. *)
Fixpoint find_nl (l : list Z) : option (list Z * list Z) :=
  match l with
  | [] => None
  | c :: l => if c =? 0 then None else if c =? NL then Some ([], l) else '(a, b) ← find_nl l; Some (c :: a, b)
  end.

(** The inner loop: what it writes, and the bytes from [p] on. *)
Fixpoint grep_lines (fuel : nat) (pattern p : list Z) : option (list Z * list Z) :=
  match fuel with
  | O => None
  | S fuel =>
      match find_nl p with
      | None => Some ([], p)
      | Some (line, rest) =>
          '(out, q) ← grep_lines fuel pattern rest;
          Some ((if match_ pattern line then line ++ [NL] else []) ++ out, q)
      end
  end.

(** [size k] is the most that the [k]th read returns, less one. *)
Fixpoint grep_loop (fuel : nat) (size : nat -> nat) (k : nat) (pattern buf input : list Z) : option (list Z) :=
  match fuel with
  | O => None
  | S fuel =>
      let n := Nat.min (S (size k)) (Nat.min (BUFSZ - length buf - 1) (length input)) in
      match n with
      | O => Some []
      | S _ =>
          '(out, rest) ← grep_lines (S BUFSZ) pattern (buf ++ take n input);
          out' ← grep_loop fuel size (S k) pattern rest (drop n input);
          Some (out ++ out')
      end
  end.

Definition grep (size : nat -> nat) (pattern input : list Z) : option (list Z) := grep_loop (S (length input)) size 0 pattern [] input.

(** ** What patterns mean *)

Inductive item := Lit (c : Z) | Star (c : Z) | End.

Fixpoint items (re : list Z) : list item :=
  match re with
  | [] => []
  | c :: re1 =>
      match re1 with
      | [] => if c =? DOLLAR then [End] else [Lit c]
      | d :: re2 => if d =? STAR then Star c :: items re2 else Lit c :: items re1
      end
  end.

Definition matches_char (c t : Z) : Prop := c = DOT \/ c = t.

(** The texts that start with a match. *)
Fixpoint denotes (l : list item) (text : list Z) : Prop :=
  match l with
  | [] => True
  | Lit c :: l => exists t text', text = t :: text' /\ matches_char c t /\ denotes l text'
  | Star c :: l => exists u v, text = u ++ v /\ Forall (matches_char c) u /\ denotes l v
  | End :: l => text = [] /\ denotes l text
  end.

(** A line is selected if it starts with a match, or contains one. *)
Definition selects (re line : list Z) : Prop :=
  match re with
  | r0 :: re1 => if r0 =? CARET then denotes (items re1) line else exists u v, line = u ++ v /\ denotes (items re) v
  | [] => True
  end.

Lemma matches_charb c t : (c =? DOT) || (c =? t) = true <-> matches_char c t.
Proof. unfold matches_char. rewrite orb_true_iff, !Z.eqb_eq. done. Qed.

Lemma matchstar_spec c k (P : list Z -> Prop) text : (forall t, k t = true <-> P t) ->
  matchstar c k text = true <-> exists u v, text = u ++ v /\ Forall (matches_char c) u /\ P v.
Proof.
  intros Hk. induction text as [|t text IH]; cbn [matchstar].
  - destruct (k []) eqn:E; (split; [intros Ht|]); try done.
    + exists [], []. split_and!; [done|constructor|by apply Hk].
    + intros (u & v & Euv & _ & HP). symmetry in Euv. apply app_eq_nil in Euv as [-> ->]. apply Hk in HP. congruence.
  - destruct (k (t :: text)) eqn:E.
    + split; [|done]. intros _. exists [], (t :: text). split_and!; [done|constructor|by apply Hk].
    + assert ((t =? c) || (c =? DOT) = true <-> matches_char c t) as Hc by (unfold matches_char; rewrite orb_true_iff, !Z.eqb_eq; naive_solver).
      assert ((exists u v, t :: text = u ++ v /\ Forall (matches_char c) u /\ P v) <-> matches_char c t /\ exists u v, text = u ++ v /\ Forall (matches_char c) u /\ P v) as ->.
      { split.
        - intros (u & v & Euv & Hu & HP). destruct u as [|x u]; simpl in Euv; [subst v; apply Hk in HP; congruence|]. injection Euv as -> ->.
          apply Forall_cons in Hu as [Hx Hu]. split; [done|]. by exists u, v.
        - intros (Hx & u & v & -> & Hu & HP). exists (t :: u), v. split_and!; [done|by constructor|done]. }
      destruct ((t =? c) || (c =? DOT)); naive_solver.
Qed.

Lemma matchhere_spec re text : matchhere re text = true <-> denotes (items re) text.
Proof.
  revert text. assert (forall n re, (length re <= n)%nat -> forall text, matchhere re text = true <-> denotes (items re) text) as H; [|by apply (H (length re))].
  clear re. induction n as [|n IH]; intros re Hn text; destruct re as [|r0 [|r1 re2]]; simpl in Hn; try lia; try done.
  - cbn [matchhere items]. destruct (r0 =? DOLLAR); cbn [denotes]; [destruct text; naive_solver|]. destruct text as [|t text]; [split; [done|naive_solver]|].
    rewrite matches_charb. split; [intros; by exists t, text|]. by intros (t' & text' & [= -> ->] & ? & _).
  - cbn [matchhere items]. destruct (r1 =? STAR).
    + cbn [denotes]. apply matchstar_spec. intros t. apply IH. lia.
    + cbn [denotes]. change (match re2 with [] => if r1 =? DOLLAR then [End] else [Lit r1] | d :: re3 => if d =? STAR then Star r1 :: items re3 else Lit r1 :: items re2 end) with (items (r1 :: re2)).
      destruct text as [|t text]; [split; [done|naive_solver]|].
      transitivity (matches_char r0 t /\ denotes (items (r1 :: re2)) text); [|split; [intros []; by exists t, text|by intros (t' & text' & [= -> ->] & ? & ?)]].
      rewrite <- matches_charb, <- (IH (r1 :: re2)) by (simpl; lia). destruct ((r0 =? DOT) || (r0 =? t)); [|naive_solver]. split; [|naive_solver]. by intros.
Qed.

Lemma match_from_spec re text : match_from re text = true <-> exists u v, text = u ++ v /\ denotes (items re) v.
Proof.
  induction text as [|t text IH]; cbn [match_from].
  - destruct (matchhere re []) eqn:E; (split; [intros Ht|]); try done.
    + exists [], []. split; [done|]. by apply matchhere_spec.
    + intros (u & v & Euv & HP). symmetry in Euv. apply app_eq_nil in Euv as [-> ->]. apply matchhere_spec in HP. congruence.
  - destruct (matchhere re (t :: text)) eqn:E; [split; [|done]; intros _; exists [], (t :: text); split; [done|by apply matchhere_spec]|]. rewrite IH. split.
    + intros (u & v & -> & HP). by exists (t :: u), v.
    + intros (u & v & Euv & HP). destruct u as [|x u]; simpl in Euv; [subst v; apply matchhere_spec in HP; congruence|]. injection Euv as -> ->. by exists u, v.
Qed.

(** ** Lines *)

(** The complete lines of a text, and what follows the last newline. *)
Fixpoint lines (l : list Z) : list (list Z) * list Z :=
  match l with
  | [] => ([], [])
  | c :: l =>
      let '(ls, r) := lines l in
      if c =? NL then ([] :: ls, r) else match ls with [] => ([], c :: r) | x :: ls => ((c :: x) :: ls, r) end
  end.

Definition picked (pattern : list Z) (ls : list (list Z)) : list Z := mjoin ((fun line => if match_ pattern line then line ++ [NL] else []) <$> ls).

Lemma lines_nl a l : NL ∉ a -> lines (a ++ NL :: l) = (a :: (lines l).1, (lines l).2).
Proof.
  induction a as [|c a IH]; intros Ha.
  - simpl. by destruct (lines l).
  - cbn [app lines]. rewrite IH by set_solver. destruct (Z.eqb_spec c NL) as [->|]; [set_solver|done].
Qed.

Lemma lines_none a : NL ∉ a -> lines a = ([], a).
Proof.
  induction a as [|c a IH]; intros Ha; [done|]. cbn [lines]. rewrite IH by set_solver. destruct (Z.eqb_spec c NL) as [->|]; [set_solver|done].
Qed.

(** The lines of a text whose first part is read earlier. *)
Lemma lines_app a l : lines (a ++ l) = ((lines a).1 ++ (lines ((lines a).2 ++ l)).1, (lines ((lines a).2 ++ l)).2).
Proof.
  induction a as [|c a IH]; [simpl; by destruct (lines l)|]. cbn [app lines]. rewrite IH. destruct (lines a) as [ls r]. cbn [fst snd].
  destruct (Z.eqb_spec c NL) as [->|Hc]; [done|]. destruct ls as [|x ls]; [|done]. cbn [fst snd app lines].
  destruct (lines (r ++ l)) as [ls' r']. cbn [fst snd]. destruct (Z.eqb_spec c NL); [done|]. by destruct ls'.
Qed.

Lemma lines_rest a : (NL ∉ (lines a).2) /\ (length (lines a).2 <= length a)%nat.
Proof.
  induction a as [|c a IH]; [split; [set_solver|done]|]. cbn [lines]. destruct (lines a) as [ls r]. cbn [fst snd] in *. destruct IH as [H1 H2].
  destruct (Z.eqb_spec c NL) as [->|Hc]; [simpl; split; [done|lia]|]. destruct ls; simpl; [split; [set_solver|lia]|split; [done|lia]].
Qed.

Lemma find_nl_spec l : 0 ∉ l -> match find_nl l with Some (a, r) => l = a ++ NL :: r /\ NL ∉ a | None => NL ∉ l end.
Proof.
  induction l as [|c l IH]; intros Hz; cbn [find_nl]; [set_solver|]. destruct (Z.eqb_spec c 0) as [->|]; [set_solver|].
  destruct (Z.eqb_spec c NL) as [->|Hc]; [split; [done|set_solver]|]. specialize (IH ltac:(set_solver)). destruct (find_nl l) as [[a r]|]; cbn; [|set_solver].
  destruct IH as [-> Ha]. split; [done|set_solver].
Qed.

Lemma grep_lines_spec fuel pattern p : 0 ∉ p -> (length p < fuel)%nat -> grep_lines fuel pattern p = Some (picked pattern (lines p).1, (lines p).2).
Proof.
  revert p. induction fuel as [|fuel IH]; intros p Hz Hf; [lia|]. cbn [grep_lines]. pose proof (find_nl_spec p Hz) as Hn. destruct (find_nl p) as [[a r]|].
  - destruct Hn as [-> Ha]. rewrite length_app in Hf. simpl in Hf. rewrite IH; [|set_solver|lia]. cbn. by rewrite lines_nl by done.
  - by rewrite lines_none by done.
Qed.

Lemma picked_app pattern a b : picked pattern (a ++ b) = picked pattern a ++ picked pattern b.
Proof. unfold picked. by rewrite fmap_app, join_app. Qed.

(** No line fills the buffer. *)
Definition short_lines (l : list Z) : Prop := Forall (fun x : list Z => (length x < BUFSZ - 1)%nat) ((lines l).1 ++ [(lines l).2]).

(** The buffer has room while a line is incomplete. *)
Lemma short_room buf input : NL ∉ buf -> short_lines (buf ++ input) -> (length buf < BUFSZ - 1)%nat.
Proof.
  unfold short_lines. intros Hb Hs. destruct (decide (NL ∈ input)) as [Hin|Hin].
  - assert (exists a r, input = a ++ NL :: r /\ NL ∉ a) as (a & r & -> & Ha).
    { clear - Hin. induction input as [|c l IH]; [set_solver|]. destruct (decide (c = NL)) as [->|Hne]; [exists [], l; split; [done|set_solver]|].
      destruct IH as (a & r & -> & Ha); [set_solver|]. exists (c :: a), r. split; [done|set_solver]. }
    rewrite app_assoc, lines_nl in Hs by set_solver. cbn [fst snd app] in Hs. apply Forall_cons in Hs as [Hs _]. rewrite length_app in Hs. lia.
  - rewrite lines_none in Hs by set_solver. cbn [fst snd app] in Hs. apply Forall_cons in Hs as [Hs _]. rewrite length_app in Hs. lia.
Qed.

Lemma lines_rest_elem c l : c ∈ (lines l).2 -> c ∈ l.
Proof. induction l as [|d l IH]; [done|]. cbn [lines]. destruct (lines l) as [ls r]. cbn [fst snd] in *. repeat case_match; simpl; set_solver. Qed.

(** What is left to do after the part [a] has been read. *)
Lemma after_part a l : 0 ∉ a ++ l -> short_lines (a ++ l) -> (0 ∉ (lines a).2 ++ l) /\ (NL ∉ (lines a).2) /\ short_lines ((lines a).2 ++ l).
Proof.
  intros Hz Hs. split; [intros Hin; apply Hz; apply elem_of_app in Hin as [Hin|Hin]; [apply lines_rest_elem in Hin|]; set_solver|]. split; [apply lines_rest|].
  unfold short_lines in *. rewrite lines_app in Hs. cbn [fst snd] in Hs. rewrite <- app_assoc in Hs. by apply Forall_app in Hs as [_ Hs].
Qed.

Lemma grep_loop_spec fuel size k pattern buf input : 0 ∉ buf ++ input -> NL ∉ buf -> short_lines (buf ++ input) -> (length input < fuel)%nat ->
  grep_loop fuel size k pattern buf input = Some (picked pattern (lines (buf ++ input)).1).
Proof.
  revert k buf input. induction fuel as [|fuel IH]; intros k buf input Hz Hb Hs Hf; [lia|]. cbn [grep_loop].
  set (n := Nat.min (S (size k)) (Nat.min (BUFSZ - length buf - 1) (length input))).
  pose proof (short_room buf input Hb Hs) as Hlb.
  assert (n = 0%nat -> input = []) as Hn0 by (unfold n, BUFSZ in *; destruct input; [done|]; cbn [length]; lia).
  assert (n <= length input)%nat as Hni by (unfold n; lia). assert (length buf + n < BUFSZ)%nat as Hnb by (unfold n; lia). clearbody n.
  destruct n as [|n'] eqn:En.
  - rewrite (Hn0 eq_refl). rewrite app_nil_r, lines_none by done. done.
  - rewrite <- En in *. assert (buf ++ input = (buf ++ take n input) ++ drop n input) as Esp by (by rewrite <- app_assoc, take_drop). rewrite Esp in Hz, Hs |- *.
    rewrite grep_lines_spec; [|set_solver|rewrite length_app, length_take; lia]. cbn [mbind option_bind].
    destruct (after_part (buf ++ take n input) (drop n input) Hz Hs) as (Hz' & Hr & Hs'). rewrite (lines_app (buf ++ take n input) (drop n input)). cbn [fst snd].
    rewrite IH; [rewrite picked_app; reflexivity|done|done|done|rewrite length_drop; lia].
Qed.

(** C34: The matcher accepts exactly the lines its pattern selects: [c*] is any
    number of [c], [.] any byte, a final [$] the end of the line, a first [^] its
    beginning, and without it a match anywhere will do. *)
Theorem match_correct re line : match_ re line = true <-> selects re line.
Proof.
  destruct re as [|r0 re1]; cbn [match_ selects].
  - split; [done|]. intros _. apply match_from_spec. by exists [], line.
  - destruct (r0 =? CARET); [apply matchhere_spec|apply match_from_spec].
Qed.

(** C35: On a file without NULs whose lines are shorter than the buffer, [grep]
    ends and prints exactly the complete lines that match, in order, however the
    reads cut the file into pieces. *)
Theorem grep_correct size pattern input : 0 ∉ input -> short_lines input ->
  grep size pattern input = Some (mjoin ((fun line => if match_ pattern line then line ++ [NL] else []) <$> (lines input).1)).
Proof. intros Hz Hs. unfold grep. rewrite (grep_loop_spec _ size 0 pattern [] input); [done|done|set_solver|done|lia]. Qed.

(** "ab", "cd" and "b", read three bytes at a time, for the pattern "b". *)
Lemma grep_correct_witness : grep (fun _ => 2%nat) [98] [97; 98; 10; 99; 100; 10; 98; 10] = Some [97; 98; 10; 98; 10].
Proof.
  rewrite (grep_correct (fun _ => 2%nat) [98] [97; 98; 10; 99; 100; 10; 98; 10]).
  - vm_compute. reflexivity.
  - intros Hin. apply list_elem_of_In in Hin. simpl in Hin. lia.
  - unfold short_lines. simpl. repeat constructor; unfold BUFSZ; simpl; lia.
Defined.

(** A line that fills the buffer ends the search: the rest is not read. *)
Lemma grep_long_line : grep (fun _ => 2000%nat) [98] (replicate 1023 97 ++ [10; 98; 10]) = Some [].
Proof. vm_compute. reflexivity. Qed.
