(* ===== verification/Ulib.v ===== *)
(** * The user library's strings and memory (user/ulib.c)

    The routines on the bytes of a process.  A loop that ends at a NUL takes fuel, one
    for each byte it looks at; [None] is a loop that has not ended.  [char] is
    unsigned on RISC-V.  The loops of [memset], [strlen],
    [memcmp] and [memmove] are those of the kernel. *)

From S2P Require Import Prelude Riscv Mem Kstring.

(** [while(( *s++ = *t++ ) != 0) ;] *)
Fixpoint strcpy (fuel : nat) (m : memory) (s t : Z) : option memory :=
  match fuel with
  | O => None
  | S fuel =>
      let c := ld8 m t in
      let m := <[s := c]> m in
      if c =? 0 then Some m else strcpy fuel m (s + 1) (t + 1)
  end.

(** [while( *p && *p == *q ) p++, q++; return (uchar) *p - (uchar) *q;] *)
Fixpoint strcmp (fuel : nat) (m : memory) (p q : Z) : option Z :=
  match fuel with
  | O => None
  | S fuel => if negb (ld8 m p =? 0) && (ld8 m p =? ld8 m q) then strcmp fuel m (p + 1) (q + 1) else Some (ld8 m p - ld8 m q)
  end.

Definition ustrlen (fuel : nat) (m : memory) (s : Z) : option Z := strlen_loop m s 0 fuel.

Definition umemset (m : memory) (dst c n : Z) : memory := memset_loop m dst c (Z.to_nat n).

(** [Some 0] is the null pointer. *)
Fixpoint ustrchr (fuel : nat) (m : memory) (s c : Z) : option Z :=
  match fuel with
  | O => None
  | S fuel => if ld8 m s =? 0 then Some 0 else if ld8 m s =? c then Some s else ustrchr fuel m (s + 1) c
  end.

Definition umemmove (m : memory) (vdst vsrc n : Z) : memory :=
  if vdst <? vsrc then memmove_fwd m vdst vsrc (Z.to_nat n)
  else memmove_back m (vdst + n) (vsrc + n) (Z.to_nat n).

Definition umemcmp (m : memory) (s1 s2 n : Z) : Z := memcmp_loop m s1 s2 (Z.to_nat n).

Definition umemcpy (m : memory) (dst src n : Z) : memory := umemmove m dst src n.

(** ** Strings *)

(** The string at [p] is [l]. *)
Fixpoint string_at (m : memory) (p : Z) (l : list Z) : Prop :=
  match l with [] => ld8 m p = 0 | c :: l => ld8 m p = c /\ c <> 0 /\ string_at m (p + 1) l end.

Lemma string_at_ext m m' p l : (forall x, p <= x <= p + length l -> ld8 m' x = ld8 m x) -> string_at m p l -> string_at m' p l.
Proof.
  revert p. induction l as [|c l IH]; intros p Hx; cbn [string_at length] in *; [by rewrite Hx by lia|].
  intros (H1 & H2 & H3). split; [by rewrite Hx by lia|]. split; [done|]. apply IH; [intros; apply Hx; lia|done].
Qed.

Lemma ld8_insert m a v x : 0 <= v < 256 -> ld8 (<[a := v]> m) x = if decide (x = a) then v else ld8 m x.
Proof. intros Hv. unfold ld8. destruct (decide (x = a)) as [->|]; [rewrite lookup_total_insert_eq; by apply Z.mod_small|by rewrite lookup_total_insert_ne]. Qed.

Lemma ld8_byte m a : 0 <= ld8 m a < 256.
Proof. apply Z.mod_pos_bound. lia. Qed.

(** [strcpy] copies the string where the copy does not reach into what is still to be read, and changes nothing else. *)
Theorem strcpy_correct l m s t (fuel : nat) : string_at m t l -> s < t \/ t + length l < s -> (length l < fuel)%nat ->
  exists m', strcpy fuel m s t = Some m' /\ string_at m' s l /\ forall x, ~ s <= x <= s + length l -> ld8 m' x = ld8 m x.
Proof.
  revert m s t fuel. induction l as [|c l IH]; intros m s t [|fuel] Hl Hov Hf; cbn [length] in *; try lia; cbn [strcpy string_at] in *.
  - rewrite Hl. cbn [Z.eqb]. eexists. split; [done|]. rewrite ld8_insert by lia. rewrite decide_True by done. split; [done|]. intros x Hx. rewrite ld8_insert by lia. by rewrite decide_False by lia.
  - destruct Hl as (Ec & Hc & Hl). rewrite Ec, (proj2 (Z.eqb_neq c 0)) by done. pose proof (ld8_byte m t) as Hb. rewrite Ec in Hb.
    destruct (IH (<[s := c]> m) (s + 1) (t + 1) fuel) as (m' & E & Hs & Ho); [|lia|lia|].
    + eapply string_at_ext; [|exact Hl]. intros x Hx. rewrite ld8_insert by done. by rewrite decide_False by lia.
    + exists m'. split; [done|]. split; [split; [|done]|].
      * rewrite Ho by lia. rewrite ld8_insert by done. by rewrite decide_True.
      * intros x Hx. rewrite Ho by lia. rewrite ld8_insert by done. by rewrite decide_False by lia.
Qed.

(** The order of strings as unsigned bytes. *)
Fixpoint before (l l' : list Z) : Prop :=
  match l, l' with
  | [], _ :: _ => True
  | a :: l, b :: l' => a < b \/ (a = b /\ before l l')
  | _, [] => False
  end.

(** [strcmp] is zero on equal strings, negative where the first comes before the second, and positive elsewhere. *)
Theorem strcmp_correct l l' m p q (fuel : nat) : string_at m p l -> string_at m q l' -> (length l < fuel)%nat ->
  exists r, strcmp fuel m p q = Some r /\ (r = 0 <-> l = l') /\ (r < 0 <-> before l l').
Proof.
  revert l' p q fuel. induction l as [|c l IH]; intros l' p q [|fuel] Hp Hq Hf; cbn [length] in *; try lia; cbn [strcmp string_at] in *.
  - rewrite Hp. cbn [Z.eqb negb andb]. eexists. split; [done|]. pose proof (ld8_byte m q). destruct l' as [|d l']; cbn [string_at before] in *; [rewrite Hq; split; (split; [done|lia || done])|].
    destruct Hq as (Eq & Hd & _). split; (split; [|]); try done; try lia; intros; try lia.
  - destruct Hp as (Ep & Hc & Hp). rewrite Ep, (proj2 (Z.eqb_neq c 0)) by done. cbn [negb andb]. pose proof (ld8_byte m p). destruct l' as [|d l']; cbn [string_at before] in *.
    + rewrite Hq, (proj2 (Z.eqb_neq c 0)) by done. eexists. split; [done|]. split; (split; [lia|done]).
    + destruct Hq as (Eq & Hd & Hq). rewrite Eq. destruct (Z.eqb_spec c d) as [->|Hne].
      * destruct (IH l' (p + 1) (q + 1) fuel Hp Hq ltac:(lia)) as (r & E & R1 & R2). exists r. split; [done|]. rewrite R1, R2. split; [split; [by intros ->|by intros [=]]|]. split; [tauto|]. intros [|[]]; [lia|done].
      * eexists. split; [done|]. split; [split; [lia|by intros [=]]|]. split; [lia|]. intros [|[]]; [lia|done].
Qed.

(** [strchr] finds the first occurrence of the character. *)
Theorem strchr_correct l m s c (fuel : nat) : string_at m s l -> 0 < s -> (length l < fuel)%nat ->
  ustrchr fuel m s c = Some (match list_find (fun y => y = c) l with Some (k, _) => s + Z.of_nat k | None => 0 end).
Proof.
  revert s fuel. induction l as [|d l IH]; intros s [|fuel] Hl Hs Hf; cbn [length] in *; try lia; cbn [ustrchr string_at] in *.
  - by rewrite Hl.
  - destruct Hl as (Ed & Hd & Hl). rewrite Ed, (proj2 (Z.eqb_neq d 0)) by done. cbn [list_find]. destruct (Z.eqb_spec d c) as [->|Hne].
    + rewrite decide_True by done. f_equal. lia.
    + rewrite decide_False by done. rewrite (IH (s + 1)) by (done || lia). destruct (list_find _ l) as [[k y]|]; [|done]. cbn. f_equal. lia.
Qed.

Lemma memmove_back_same m d (n : nat) x : ld8 (memmove_back m d d n) x = ld8 m x.
Proof. revert m d. induction n as [|n IH]; intros m d; [done|]. cbn [memmove_back]. rewrite IH, ld8_insert by apply ld8_byte. by case_decide; subst. Qed.

(** [memmove] copies, whether the areas overlap or not. *)
Theorem umemmove_correct m vdst vsrc n x : 0 <= n ->
  ld8 (umemmove m vdst vsrc n) x = if decide (vdst <= x < vdst + n) then ld8 m (vsrc + (x - vdst)) else ld8 m x.
Proof.
  intros Hn. unfold umemmove. destruct (Z.ltb_spec vdst vsrc) as [Hlt|Hge].
  - unfold ld8 at 1. rewrite lookup_memmove_fwd by lia. rewrite Z2Nat.id by done. case_decide; [|done]. apply Z.mod_small, ld8_byte.
  - destruct (decide (vdst = vsrc)) as [->|Hne].
    + rewrite memmove_back_same. case_decide; [f_equal; lia|done].
    + unfold ld8 at 1. rewrite lookup_memmove_back by lia. rewrite Z2Nat.id by done. repeat case_decide; try lia; [|done]. rewrite Z.mod_small by apply ld8_byte. f_equal. lia.
Qed.

(** [memcmp] is zero exactly on equal areas. *)
Theorem umemcmp_correct m s1 s2 n : umemcmp m s1 s2 n = 0 <-> forall k, 0 <= k < n -> ld8 m (s1 + k) = ld8 m (s2 + k).
Proof.
  unfold umemcmp. assert (forall (c : nat) s1 s2, memcmp_loop m s1 s2 c = 0 <-> forall k, 0 <= k < c -> ld8 m (s1 + k) = ld8 m (s2 + k)) as H.
  - induction c as [|c IH]; intros p1 p2; cbn [memcmp_loop]; [split; [intros; lia|done]|]. destruct (Z.eqb_spec (ld8 m p1) (ld8 m p2)) as [E|E]; cbn [negb].
    + rewrite IH. split.
      * intros Hk k Hr. destruct (decide (k = 0)) as [->|]; [by rewrite !Z.add_0_r|]. specialize (Hk (k - 1) ltac:(lia)). by replace (p1 + 1 + (k - 1)) with (p1 + k) in Hk by lia; replace (p2 + 1 + (k - 1)) with (p2 + k) in Hk by lia.
      * intros Hk k Hr. specialize (Hk (k + 1) ltac:(lia)). by rewrite <- !Z.add_assoc, (Z.add_comm 1 k).
    + split; [lia|]. intros Hk. destruct E. specialize (Hk 0 ltac:(lia)). by rewrite !Z.add_0_r in Hk.
  - rewrite H. split; intros Hk k Hr; apply Hk; lia.
Qed.
