(* ===== verification/User.v ===== *)
(** * User programs (user/cat.c, wc.c, grep.c, echo.c, ls.c, kill.c, ln.c, mkdir.c, rm.c, init.c; gets and stat of user/ulib.c)

    A program is a function on the state of the system [W], which it changes through
    system calls; [Os] has the calls.  Strings and buffers are their bytes.  A routine
    that calls [exit] gives [Exited].  Loops that a system call ends take fuel. *)

From S2P Require Import Prelude Block Fs Sysfile Printf Grep.

(** A read that fails is [None]; so is [fstat], which otherwise gives type, inode number and size. *)
Class Os (W : Type) := {
  u_read : Z -> Z -> M W (option (list Z));
  u_write : Z -> list Z -> M W Z;
  u_open : list Z -> Z -> M W Z;
  u_close : Z -> M W Z;
  u_fstat : Z -> M W (option (Z * Z * Z));
  u_link : list Z -> list Z -> M W Z;
  u_unlink : list Z -> M W Z;
  u_mkdir : list Z -> M W Z;
  u_mknod : list Z -> Z -> Z -> M W Z;
  u_dup : Z -> M W Z;
  u_kill : Z -> M W Z;
  u_fork : M W Z;
  u_exec : list Z -> list (list Z) -> M W Z;
  u_wait : M W Z;
}.

Inductive res (A : Type) := Done (a : A) | Exited (status : Z).
Arguments Done {A}.
Arguments Exited {A}.

Definition then_ {W A B} (c : M W (res A)) (k : A -> M W (res B)) : M W (res B) :=
  r ← c; match r with Done a => k a | Exited st => mret (Exited st) end.
Notation "'let*' x := c 'in' k" := (then_ c (fun x => k)) (at level 10, x name, k at level 200).

Definition str (s : string) : list Z := (fun a => Z.of_nat (Ascii.nat_of_ascii a)) <$> String.list_ascii_of_string s.
Definition LF : Z := 10.

Section programs.
Context {W : Type} `{Os W}.

Definition exit_ {A} (status : Z) : M W (res A) := mret (Exited status).

(** [putc] writes a byte at a time. *)
Fixpoint putcs (fd : Z) (l : list Z) : M W unit :=
  match l with [] => mret tt | c :: l => u_write fd [c];; putcs fd l end.

Definition fprintf (fd : Z) (fmt : list Z) (ap : list arg) : M W unit :=
  match vprintf fmt ap false with Some out => putcs fd out | None => panic "printf" end.

(** ** ulib.c *)

(** The loop of [gets], with room for [n] more characters. *)
Fixpoint gets_loop (n : nat) (buf : list Z) : M W (list Z) :=
  match n with
  | O => mret buf
  | S n =>
      r ← u_read 0 1;
      match r with
      | Some (c :: _) => if (c =? LF) || (c =? 13) then mret (buf ++ [c]) else gets_loop n (buf ++ [c])
      | _ => mret buf
      end
  end.

Definition ugets (max : Z) : M W (list Z) := gets_loop (Z.to_nat (max - 1)) [].

Definition ustat (n : list Z) : M W (option (Z * Z * Z)) :=
  fd ← u_open n O_RDONLY;
  if fd <? 0 then mret None
  else
    r ← u_fstat fd;
    u_close fd;;
    mret r.

(** ** cat.c *)

Fixpoint cat (fuel : nat) (fd : Z) : M W (res unit) :=
  match fuel with
  | O => diverge
  | S fuel =>
      r ← u_read fd 512;
      match r with
      | None => fprintf 2 (str "cat: read error" ++ [LF]) [];; exit_ 1
      | Some [] => mret (Done tt)
      | Some buf =>
          n ← u_write 1 buf;
          if negb (n =? length buf) then fprintf 2 (str "cat: write error" ++ [LF]) [];; exit_ 1
          else cat fuel fd
      end
  end.

(** The loop of [main], here and in wc.c: where a message goes, the message, and what is done with a file. *)
Fixpoint for_files (efd : Z) (msg : list Z) (body : Z -> list Z -> M W (res unit)) (argv : list (list Z)) : M W (res unit) :=
  match argv with
  | [] => exit_ 0
  | a :: argv =>
      fd ← u_open a O_RDONLY;
      if fd <? 0 then fprintf efd msg [AStr (Some a)];; exit_ 1
      else
        let* _ := body fd a in
        u_close fd;;
        for_files efd msg body argv
  end.

(** [argv] are the arguments after the program's name, here and below. *)
Definition cat_main (fuel : nat) (argv : list (list Z)) : M W (res unit) :=
  match argv with
  | [] => let* _ := cat fuel 0 in exit_ 0
  | _ => for_files 2 (str "cat: cannot open %s" ++ [LF]) (fun fd _ => cat fuel fd) argv
  end.

(** ** wc.c *)

Record counts := mk_counts { wl : Z; ww : Z; wch : Z; inword : bool }.

(** [strchr(" \r\t\n\v", c)] *)
Definition is_space (c : Z) : bool := bool_decide (c ∈ [32; 13; 9; 10; 11]).

(** The body of the inner loop. *)
Definition wc_byte (s : counts) (c : Z) : counts :=
  let ch := to_int (wch s + 1) in
  let l := if c =? LF then to_int (wl s + 1) else wl s in
  if is_space c then mk_counts l (ww s) ch false
  else if negb (inword s) then mk_counts l (to_int (ww s + 1)) ch true
  else mk_counts l (ww s) ch (inword s).

Fixpoint wc_loop (fuel : nat) (fd : Z) (s : counts) : M W (res counts) :=
  match fuel with
  | O => diverge
  | S fuel =>
      r ← u_read fd 512;
      match r with
      | None => fprintf 1 (str "wc: read error" ++ [LF]) [];; exit_ 1
      | Some [] => mret (Done s)
      | Some buf => wc_loop fuel fd (fold_left wc_byte buf s)
      end
  end.

Definition wc (fuel : nat) (fd : Z) (name : list Z) : M W (res unit) :=
  let* s := wc_loop fuel fd (mk_counts 0 0 0 false) in
  fprintf 1 (str "%d %d %d %s" ++ [LF]) [ANum (wl s); ANum (ww s); ANum (wch s); AStr (Some name)];;
  mret (Done tt).

Definition wc_main (fuel : nat) (argv : list (list Z)) : M W (res unit) :=
  match argv with
  | [] => let* _ := wc fuel 0 [] in exit_ 0
  | _ => for_files 1 (str "wc: cannot open %s" ++ [LF]) (wc fuel) argv
  end.

(** ** grep.c *)

(** The lines in the buffer from [p] on; gives what follows the last one. *)
Fixpoint ugrep_lines (fuel : nat) (pattern p : list Z) : M W (list Z) :=
  match fuel with
  | O => diverge
  | S fuel =>
      match find_nl p with
      | None => mret p
      | Some (line, rest) =>
          (if match_ pattern line then u_write 1 (line ++ [NL]);; mret tt else mret tt);;
          ugrep_lines fuel pattern rest
      end
  end.

(** [buf] is what the buffer has of an incomplete line. *)
Fixpoint ugrep (fuel : nat) (pattern : list Z) (fd : Z) (buf : list Z) : M W (res unit) :=
  match fuel with
  | O => diverge
  | S fuel =>
      r ← u_read fd (BUFSZ - length buf - 1);
      match r with
      | Some (c :: l) =>
          rest ← ugrep_lines (S BUFSZ) pattern (buf ++ c :: l);
          ugrep fuel pattern fd rest
      | _ => mret (Done tt)
      end
  end.

Definition grep_main (fuel : nat) (argv : list (list Z)) : M W (res unit) :=
  match argv with
  | [] => fprintf 2 (str "usage: grep pattern [file ...]" ++ [LF]) [];; exit_ 1
  | [pattern] => let* _ := ugrep fuel pattern 0 [] in exit_ 0
  | pattern :: files => for_files 1 (str "grep: cannot open %s" ++ [LF]) (fun fd _ => ugrep fuel pattern fd []) files
  end.

(** ** echo.c *)

Fixpoint echo_main (argv : list (list Z)) : M W (res unit) :=
  match argv with
  | [] => exit_ 0
  | a :: argv =>
      u_write 1 a;;
      u_write 1 (match argv with [] => [LF] | _ => [32] end);;
      echo_main argv
  end.

(** ** kill.c, ln.c, mkdir.c, rm.c *)

Fixpoint kill_args (argv : list (list Z)) : M W (res unit) :=
  match argv with [] => exit_ 0 | a :: argv => u_kill (atoi a);; kill_args argv end.

Definition kill_main (argv : list (list Z)) : M W (res unit) :=
  match argv with [] => fprintf 2 (str "usage: kill pid..." ++ [LF]) [];; exit_ 1 | _ => kill_args argv end.

Definition ln_main (argv : list (list Z)) : M W (res unit) :=
  match argv with
  | [old; new] =>
      r ← u_link old new;
      (if r <? 0 then fprintf 2 (str "link %s %s: failed" ++ [LF]) [AStr (Some old); AStr (Some new)] else mret tt);;
      exit_ 0
  | _ => fprintf 2 (str "Usage: ln old new" ++ [LF]) [];; exit_ 1
  end.

(** [mkdir] and [rm] stop at the first failure. *)
Fixpoint each (call : list Z -> M W Z) (msg : list Z) (argv : list (list Z)) : M W (res unit) :=
  match argv with
  | [] => exit_ 0
  | a :: argv =>
      r ← call a;
      if r <? 0 then fprintf 2 msg [AStr (Some a)];; exit_ 0 else each call msg argv
  end.

Definition mkdir_main (argv : list (list Z)) : M W (res unit) :=
  match argv with
  | [] => fprintf 2 (str "Usage: mkdir files..." ++ [LF]) [];; exit_ 1
  | _ => each u_mkdir (str "mkdir: %s failed to create" ++ [LF]) argv
  end.

Definition rm_main (argv : list (list Z)) : M W (res unit) :=
  match argv with
  | [] => fprintf 2 (str "Usage: rm files..." ++ [LF]) [];; exit_ 1
  | _ => each u_unlink (str "rm: %s failed to delete" ++ [LF]) argv
  end.

(** ** ls.c *)

(** What follows the last slash. *)
Fixpoint after_slash (path p : list Z) : list Z :=
  match path with [] => p | c :: path => after_slash path (if c =? SLASH then path else p) end.

Definition fmtname (path : list Z) : list Z :=
  let p := after_slash path path in
  if DIRSIZ <=? length p then p else p ++ repeat 32 (DIRSIZ - length p).

(** A string in an array. *)
Fixpoint until_nul (l : list Z) : list Z :=
  match l with [] => [] | c :: l => if c =? 0 then [] else c :: until_nul l end.

(** The loop over the entries; [buf] is the path with the slash. *)
Fixpoint ls_entries (fuel : nat) (fd : Z) (buf : list Z) : M W unit :=
  match fuel with
  | O => diverge
  | S fuel =>
      r ← u_read fd 16;
      match r with
      | Some de =>
          if negb (length de =? 16) then mret tt
          else if rd 2 de 0 =? 0 then ls_entries fuel fd buf
          else
            let name := buf ++ until_nul (sub de 2 DIRSIZ) in
            st ← ustat name;
            (match st with
             | None => fprintf 1 (str "ls: cannot stat %s" ++ [LF]) [AStr (Some name)]
             | Some (type, ino, size) => fprintf 1 (str "%s %d %d %d" ++ [LF]) [AStr (Some (fmtname name)); ANum type; ANum ino; ANum size]
             end);;
            ls_entries fuel fd buf
      | None => mret tt
      end
  end.

Definition ls (fuel : nat) (path : list Z) : M W unit :=
  fd ← u_open path O_RDONLY;
  if fd <? 0 then fprintf 2 (str "ls: cannot open %s" ++ [LF]) [AStr (Some path)]
  else
    r ← u_fstat fd;
    match r with
    | None =>
        fprintf 2 (str "ls: cannot stat %s" ++ [LF]) [AStr (Some path)];;
        u_close fd;;
        mret tt
    | Some (type, ino, size) =>
        (if (type =? T_DEVICE) || (type =? T_FILE) then
           fprintf 1 (str "%s %d %d %l" ++ [LF]) [AStr (Some (fmtname path)); ANum type; ANum ino; ANum size]
         else if type =? T_DIR then
           if 512 <? length path + 1 + DIRSIZ + 1 then fprintf 1 (str "ls: path too long" ++ [LF]) []
           else ls_entries fuel fd (path ++ [SLASH])
         else mret tt);;
        u_close fd;;
        mret tt
    end.

Fixpoint ls_args (fuel : nat) (argv : list (list Z)) : M W (res unit) :=
  match argv with [] => exit_ 0 | a :: argv => ls fuel a;; ls_args fuel argv end.

Definition ls_main (fuel : nat) (argv : list (list Z)) : M W (res unit) :=
  match argv with [] => ls fuel [46];; exit_ 0 | _ => ls_args fuel argv end.

(** ** init.c *)

Fixpoint init_wait (fuel : nat) (pid : Z) : M W (res unit) :=
  match fuel with
  | O => diverge
  | S fuel =>
      wpid ← u_wait;
      if wpid =? pid then mret (Done tt)
      else if wpid <? 0 then fprintf 1 (str "init: wait returned an error" ++ [LF]) [];; exit_ 1
      else init_wait fuel pid
  end.

(** The body of the outer loop. *)
Definition init_round (fuel : nat) : M W (res unit) :=
  fprintf 1 (str "init: starting sh" ++ [LF]) [];;
  pid ← u_fork;
  if pid <? 0 then fprintf 1 (str "init: fork failed" ++ [LF]) [];; exit_ 1
  else if pid =? 0 then
    u_exec (str "sh") [str "sh"];;
    fprintf 1 (str "init: exec sh failed" ++ [LF]) [];;
    exit_ 1
  else init_wait fuel pid.

Fixpoint init_loop (rounds fuel : nat) : M W (res unit) :=
  match rounds with O => diverge | S rounds => let* _ := init_round fuel in init_loop rounds fuel end.

Definition CONSOLE : Z := 1.

Definition init_main (rounds fuel : nat) : M W (res unit) :=
  fd ← u_open (str "console") O_RDWR;
  (if fd <? 0 then
     u_mknod (str "console") CONSOLE 0;;
     u_open (str "console") O_RDWR;;
     mret tt
   else mret tt);;
  u_dup 0;;
  u_dup 0;;
  init_loop rounds fuel.
End programs.
