(* ===== verification/UserThms.v ===== *)
(** * What the user programs do

    [OsSpec] says what the programs rely on: descriptors that are read to their end,
    writes that are complete, and files that can be opened.  The results hold
    however a read cuts what it gives into parts. *)

From S2P Require Import Prelude Mem Block Fs Sysfile Printf Grep User.

(** What is left to read at a descriptor, and whether it is a file, whose reads are as long as they can be; what
    was written to it; the contents and the status of the files that can be opened. *)
Class OsSpec (W : Type) `{Os W} := {
  input : W -> Z -> option (list Z * bool);
  output : W -> Z -> list Z;
  file_of : W -> list Z -> option (list Z * (Z * Z * Z));
  about : W -> Z -> option (Z * Z * Z);
  sp_read fd n l b w : input w fd = Some (l, b) -> 0 < n -> wp (u_read fd n w) (fun r w' => exists k : nat, r = Some (take k l) /\ k <= n /\ (l <> [] -> (0 < k)%nat) /\
    (b = true -> k = Nat.min (Z.to_nat n) (length l)) /\ input w' fd = Some (drop k l, b) /\ (forall fd', fd' <> fd -> input w' fd' = input w fd') /\
    (forall fd', output w' fd' = output w fd') /\ (forall p, file_of w' p = file_of w p) /\ forall fd', about w' fd' = about w fd');
  sp_write fd l w : wp (u_write fd l w) (fun r w' => r = length l /\ output w' fd = output w fd ++ l /\ (forall fd', fd' <> fd -> output w' fd' = output w fd') /\
    (forall fd', input w' fd' = input w fd') /\ (forall p, file_of w' p = file_of w p) /\ forall fd', about w' fd' = about w fd');
  sp_open p w : wp (u_open p O_RDONLY w) (fun fd w' => (forall fd', output w' fd' = output w fd') /\ (forall p, file_of w' p = file_of w p) /\
    match file_of w p with
    | None => fd < 0 /\ (forall fd', input w' fd' = input w fd') /\ forall fd', about w' fd' = about w fd'
    | Some (l, st) => 2 < fd /\ input w fd = None /\ input w' fd = Some (l, true) /\ about w' fd = Some st /\
        (forall fd', fd' <> fd -> input w' fd' = input w fd') /\ forall fd', fd' <> fd -> about w' fd' = about w fd'
    end);
  sp_fstat fd w : wp (u_fstat fd w) (fun r w' => r = about w fd /\ w' = w);
  sp_close fd w : wp (u_close fd w) (fun _ w' => input w' fd = None /\ about w' fd = None /\ (forall fd', fd' <> fd -> input w' fd' = input w fd') /\
    (forall fd', fd' <> fd -> about w' fd' = about w fd') /\ (forall fd', output w' fd' = output w fd') /\ forall p, file_of w' p = file_of w p);
}.

(** ** References *)

(** Lines, words and characters. *)
Definition lines_in (l : list Z) : nat := length (filter (fun c => c = LF) l).

(** The maximal runs of characters that are not spaces; [w] is the run so far. *)
Fixpoint runs (w : list Z) (l : list Z) : list (list Z) :=
  match l with
  | [] => if decide (w = []) then [] else [w]
  | c :: l => if is_space c then (if decide (w = []) then runs [] l else w :: runs [] l) else runs (w ++ [c]) l
  end.

Definition wc_line (l name : list Z) : list Z :=
  printint udigits (lines_in l) 10 true ++ [32] ++ printint udigits (length (runs [] l)) 10 true ++ [32] ++ printint udigits (length l) 10 true ++ [32] ++ name ++ [LF].

(** What [echo] writes for the arguments. *)
Fixpoint joined (argv : list (list Z)) : list Z :=
  match argv with [] => [] | a :: argv => a ++ (match argv with [] => [LF] | _ => [32] end) ++ joined argv end.

(** The first line of [l], with its end, or the first [n] characters. *)
Fixpoint line_of (n : nat) (l : list Z) : list Z :=
  match n, l with
  | S n, c :: l => if (c =? LF) || (c =? 13) then [c] else c :: line_of n l
  | _, _ => []
  end.

(** A line of [ls], and the lines for the entries of a directory. *)
Definition ls_line (path : list Z) (st : Z * Z * Z) : list Z :=
  fmtname path ++ [32] ++ printint udigits (to_int st.1.1) 10 true ++ [32] ++ printint udigits (to_int st.1.2) 10 true ++ [32] ++ printint udigits (to_int st.2) 10 true ++ [LF].

Definition ls_entry (files : list Z -> option (list Z * (Z * Z * Z))) (buf de : list Z) : list Z :=
  if rd 2 de 0 =? 0 then []
  else
    let name := buf ++ until_nul (sub de 2 DIRSIZ) in
    match files name with None => str "ls: cannot stat " ++ name ++ [LF] | Some (_, st) => ls_line name st end.

(** Output, messages and status of a program that does something for each of its files. *)
Fixpoint each_file (f : list Z -> list Z -> list Z) (missing : list Z -> list Z * list Z) (files : list Z -> option (list Z)) (argv : list (list Z)) : list Z * list Z * Z :=
  match argv with
  | [] => ([], [], 0)
  | a :: argv =>
      match files a with
      | None => ((missing a).1, (missing a).2, 1)
      | Some l => let '(o, e, st) := each_file f missing files argv in (f l a ++ o, e, st)
      end
  end.

Lemma each_file_ext f missing files files' argv : (forall a, files a = files' a) -> each_file f missing files argv = each_file f missing files' argv.
Proof. intros E. induction argv as [|a argv IH]; [done|]. cbn [each_file]. by rewrite E, IH. Qed.

Section thms.
Context {W : Type} `{OsSpec W}.

(** From [w] to [w'] the program has written [o] and [e]; descriptors have what [i] says, and the rest is as it was. *)
Record ran (w w' : W) (i : Z -> option (list Z * bool)) (o e : list Z) : Prop := {
  rn_in fd : input w' fd = i fd;
  rn_out : output w' 1 = output w 1 ++ o;
  rn_err : output w' 2 = output w 2 ++ e;
  rn_file p : file_of w' p = file_of w p;
}.

Lemma ran_refl w : ran w w (input w) [] [].
Proof. split; [done|by rewrite app_nil_r..|done]. Qed.

Lemma ran_trans w1 w2 w3 i j o1 e1 o2 e2 : ran w1 w2 i o1 e1 -> ran w2 w3 j o2 e2 -> ran w1 w3 j (o1 ++ o2) (e1 ++ e2).
Proof. intros [A1 A2 A3 A4] [B1 B2 B3 B4]. split; [done|by rewrite B2, A2, app_assoc|by rewrite B3, A3, app_assoc|intros; by rewrite B4]. Qed.

Lemma in_insert (i j : Z -> option (list Z * bool)) fd v : i fd = v -> (forall fd', fd' <> fd -> i fd' = j fd') -> forall fd', i fd' = (<[fd := v]> j) fd'.
Proof. intros Hv Ho fd'. destruct (decide (fd' = fd)) as [->|]; [by rewrite fn_lookup_insert|rewrite fn_lookup_insert_ne by done; by apply Ho]. Qed.

Lemma putcs_ran fd l w : fd = 1 \/ fd = 2 -> wp (putcs fd l w) (fun _ w' => ran w w' (input w) (if fd =? 1 then l else []) (if fd =? 1 then [] else l) /\ forall fd, about w' fd = about w fd).
Proof.
  intros Hfd. revert w. induction l as [|c l IH]; intros w; cbn [putcs].
  - apply wp_ret. split; [|done]. assert (forall A, (if fd =? 1 then @nil A else []) = []) as E by (by destruct (fd =? 1)). rewrite !E. apply ran_refl.
  - wp_step (sp_write fd [c] w). intros r w1 (_ & Ho & Hoo & Hi & Hf & Ha). eapply wp_mono; [apply IH|]. intros [] w2 [[R1 R2 R3 R4] Ha2]. split; [|intros; by rewrite Ha2].
    destruct Hfd as [->| ->]; cbn [Z.eqb Pos.eqb] in *; (split; [intros; by rewrite R1|..|intros; by rewrite R4]).
    + by rewrite R2, Ho, <- app_assoc.
    + by rewrite R3, Hoo.
    + by rewrite R2, Hoo.
    + by rewrite R3, Ho, <- app_assoc.
Qed.

Lemma wp_fprintf {A} fd fmt ap out (k : unit -> M W A) w Q : vprintf fmt ap false = Some out -> fd = 1 \/ fd = 2 ->
  (forall w', ran w w' (input w) (if fd =? 1 then out else []) (if fd =? 1 then [] else out) -> wp (k tt w') Q) -> wp ((fprintf fd fmt ap ≫= k) w) Q.
Proof. intros E Hfd Hk. unfold fprintf. rewrite E. wp_step (putcs_ran fd out w Hfd). intros [] w' [Hr _]. by apply Hk. Qed.

(** ** cat *)

Lemma cat_ran (fuel : nat) fd l b w : input w fd = Some (l, b) -> (length l < fuel)%nat ->
  wp (cat fuel fd w) (fun r w' => r = Done tt /\ ran w w' (<[fd := Some ([], b)]> (input w)) l []).
Proof.
  revert l w. induction fuel as [|fuel IH]; intros l w Hi Hf; [lia|]. cbn [cat]. wp_step (sp_read fd 512 l b w Hi ltac:(lia)).
  intros r w1 (k & -> & Hk & Hpos & _ & Hi1 & Ho1 & Hw1 & Hf1 & _). destruct l as [|c l].
  - rewrite take_nil in *. apply wp_ret. split; [done|]. rewrite drop_nil in Hi1. split; [|by rewrite Hw1, app_nil_r..|done]. by apply in_insert.
  - specialize (Hpos ltac:(done)). destruct k as [|k]; [lia|]. change (take (S k) (c :: l)) with (c :: take k l). change (drop (S k) (c :: l)) with (drop k l) in Hi1. set (buf := c :: take k l).
    wp_step (sp_write 1 buf w1). intros n w2 (-> & Ho & Hoo & Hi2 & Hf2 & _). rewrite Z.eqb_refl. cbn [negb].
    eapply wp_mono; [apply (IH (drop k l) w2); [by rewrite Hi2|cbn [length] in Hf; rewrite length_drop; lia]|]. intros r w3 (-> & [R1 R2 R3 R4]). split; [done|]. split.
    + intros fd'. rewrite R1. destruct (decide (fd' = fd)) as [->|]; [by rewrite !fn_lookup_insert|]. rewrite !fn_lookup_insert_ne by done. by rewrite Hi2, Ho1.
    + rewrite R2, Ho, Hw1, <- app_assoc. unfold buf. cbn [app]. by rewrite take_drop.
    + by rewrite R3, Hoo, Hw1.
    + intros p. by rewrite R4, Hf2, Hf1.
Qed.

(** The loop over the files of [cat] and [wc]: what is written is what [each_file] says. *)
Section files.
Context (efd : Z) (msg : list Z) (body : Z -> list Z -> M W (res unit)) (good : list Z -> Prop) (f : list Z -> list Z -> list Z) (said : list Z -> list Z)
  (Hefd : efd = 1 \/ efd = 2) (Hmsg : forall a, vprintf msg [AStr (Some a)] false = Some (said a))
  (Hbody : forall fd a l w, input w fd = Some (l, true) -> good l -> wp (body fd a w) (fun r w' => r = Done tt /\ ran w w' (<[fd := Some ([], true)]> (input w)) (f l a) [])).

Lemma for_files_ran argv w : (forall a l st, a ∈ argv -> file_of w a = Some (l, st) -> good l) ->
  let '(o, e, st) := each_file f (fun a => if efd =? 1 then (said a, []) else ([], said a)) (fun a => fst <$> file_of w a) argv in
  wp (for_files efd msg body argv w) (fun r w' => r = Exited st /\ output w' 1 = output w 1 ++ o /\ output w' 2 = output w 2 ++ e).
Proof.
  revert w. induction argv as [|a argv IH]; intros w Hl; cbn [each_file for_files].
  - apply wp_ret. by rewrite !app_nil_r.
  - pose proof (sp_open a w) as Hopen. destruct (file_of w a) as [[l st]|] eqn:Ef; cbn [fmap option_fmap option_map fst] in *.
    + destruct (each_file _ _ _ argv) as [[o e] s] eqn:Ee. wp_step Hopen. clear Hopen. intros fd w1 (Ho1 & Hf1 & Hfd & Hn & Hi1 & _ & Hi1' & _). rewrite (proj2 (Z.ltb_ge fd 0)) by lia. unfold then_.
      wp_step (Hbody fd a l w1 Hi1 (Hl a l st ltac:(by left) Ef)). intros r w2 (-> & [R1 R2 R3 R4]). wp_step (sp_close fd w2). intros c w3 (_ & _ & _ & _ & Ho3 & Hf3).
      assert (forall p, file_of w3 p = file_of w p) as Hf by (intros p; by rewrite Hf3, R4, Hf1).
      specialize (IH w3). rewrite (each_file_ext _ _ _ (fun a => fst <$> file_of w a)), Ee in IH by (intros a'; by rewrite Hf).
      eapply wp_mono; [apply IH; intros a' l' st' Hin E'; rewrite Hf in E'; eapply Hl; [by right|exact E']|]. intros r w4 (-> & E1 & E2). split; [done|].
      by rewrite E1, E2, !Ho3, R2, R3, !Ho1, app_nil_r, <- app_assoc.
    + wp_step Hopen. clear Hopen. intros fd w1 (Ho1 & Hf1 & Hfd & _). rewrite (proj2 (Z.ltb_lt fd 0)) by lia. apply (wp_fprintf _ _ _ (said a)); [done|done|].
      intros w2 [R1 R2 R3 R4]. apply wp_ret. split; [done|]. rewrite R2, R3, !Ho1. by destruct (efd =? 1).
Qed.
End files.

(** [cat] writes the contents of its files, or of its input, one after the other, and stops with a message and status 1 at a
    file that cannot be opened. *)
Theorem cat_correct (fuel : nat) argv w :
  (forall a l st, a ∈ argv -> file_of w a = Some (l, st) -> (length l < fuel)%nat) -> (forall l b, input w 0 = Some (l, b) -> (length l < fuel)%nat) -> is_Some (input w 0) ->
  let '(o, e, st) := match argv with
    | [] => (default [] (fst <$> input w 0), [], 0)
    | _ => each_file (fun l _ => l) (fun a => ([], str "cat: cannot open " ++ a ++ [LF])) (fun a => fst <$> file_of w a) argv
    end in
  wp (cat_main fuel argv w) (fun r w' => r = Exited st /\ output w' 1 = output w 1 ++ o /\ output w' 2 = output w 2 ++ e).
Proof.
  intros Hl Hi [[l b] E]. destruct argv as [|a argv].
  - unfold cat_main, then_. wp_step (cat_ran fuel 0 l b w E (Hi l b E)). intros r w' (-> & [R1 R2 R3 R4]). apply wp_ret. split; [done|]. by rewrite R2, R3, E.
  - apply (for_files_ran 2 _ (fun fd _ => cat fuel fd) (fun l => length l < fuel)%nat (fun l _ => l) (fun a => str "cat: cannot open " ++ a ++ [LF])); [by right|done| |done]. intros. by apply cat_ran.
Qed.

(** ** wc *)

Lemma to_int_succ z n : 0 <= z <= n -> n + 1 < 2 ^ 31 -> to_int (z + 1) = z + 1.
Proof. intros Hz Hn. apply sint_id; [done|]. change (2 ^ (32 - 1)) with (2 ^ 31). lia. Qed.

Lemma runs_pos w l : w <> [] -> (0 < length (runs w l))%nat.
Proof.
  revert w. induction l as [|c l IH]; intros w Hw; cbn [runs]; [by rewrite decide_False; simpl; [lia|]|].
  destruct (is_space c); [by rewrite decide_False; simpl; [lia|]|]. apply IH. by destruct w.
Qed.

Lemma wc_fold w l s : inword s = bool_decide (w <> []) -> 0 <= wl s <= wch s -> 0 <= ww s <= wch s -> wch s + length l < 2 ^ 31 ->
  let s' := fold_left wc_byte l s in wl s' = wl s + lines_in l /\ ww s' = ww s + length (runs w l) - (if inword s then 1 else 0) /\ wch s' = wch s + length l.
Proof.
  revert w s. induction l as [|c l IH]; intros w s Hw Hl Hww Hlen; cbn [fold_left length] in *.
  - rewrite Hw. unfold lines_in, runs. cbn [length filter]. destruct (decide (w = [])) as [E|E]; [rewrite bool_decide_eq_false_2 by tauto|rewrite bool_decide_eq_true_2 by done]; simpl; lia.
  - assert (Z.of_nat (lines_in (c :: l)) = (if c =? LF then 1 else 0) + lines_in l) as El.
    { unfold lines_in. rewrite filter_cons. destruct (Z.eqb_spec c LF), (decide (c = LF)); cbn [length]; (done || lia). }
    set (s1 := wc_byte s c). assert (wch s1 = wch s + 1 /\ wl s1 = wl s + (if c =? LF then 1 else 0)) as [E1 E2].
    { unfold s1, wc_byte. rewrite (to_int_succ (wch s) (wch s)), (to_int_succ (wl s) (wch s)) by lia. destruct (is_space c), (inword s), (c =? LF); cbn; lia. }
    rewrite El. cbn [runs]. destruct (is_space c) eqn:Es.
    + assert (ww s1 = ww s /\ inword s1 = false) as [E3 E4] by (unfold s1, wc_byte; by rewrite Es).
      destruct (IH [] s1) as (I1 & I2 & I3); [done|destruct (c =? LF); lia|lia|lia|]. rewrite I1, I2, I3, E1, E2, E3, E4, Hw. destruct (c =? LF), (decide (w = [])) as [E|E];
        first [rewrite bool_decide_eq_false_2 by tauto|rewrite bool_decide_eq_true_2 by done]; cbn [length]; lia.
    + assert (ww s1 = ww s + (if inword s then 0 else 1) /\ inword s1 = true) as [E3 E4].
      { unfold s1, wc_byte. rewrite Es. destruct (inword s) eqn:Ei; cbn [negb ww inword]; [split; [lia|done]|]. by rewrite (to_int_succ (ww s) (wch s)) by lia. }
      destruct (IH (w ++ [c]) s1) as (I1 & I2 & I3); [rewrite E4; symmetry; apply bool_decide_eq_true_2; by destruct w|destruct (c =? LF); lia|destruct (inword s); lia|lia|].
      rewrite I1, I2, I3, E1, E2, E3, E4. destruct (c =? LF), (inword s); lia.
Qed.

Lemma wc_loop_ran (fuel : nat) fd l b s w : input w fd = Some (l, b) -> (length l < fuel)%nat ->
  wp (wc_loop fuel fd s w) (fun r w' => r = Done (fold_left wc_byte l s) /\ ran w w' (<[fd := Some ([], b)]> (input w)) [] []).
Proof.
  revert l s w. induction fuel as [|fuel IH]; intros l s w Hi Hf; [lia|]. cbn [wc_loop]. wp_step (sp_read fd 512 l b w Hi ltac:(lia)).
  intros r w1 (k & -> & Hk & Hpos & _ & Hi1 & Ho1 & Hw1 & Hf1 & _). destruct l as [|c l].
  - rewrite take_nil in *. apply wp_ret. split; [done|]. rewrite drop_nil in Hi1. split; [|by rewrite Hw1, app_nil_r..|done]. by apply in_insert.
  - specialize (Hpos ltac:(done)). destruct k as [|k]; [lia|]. change (take (S k) (c :: l)) with (c :: take k l). change (drop (S k) (c :: l)) with (drop k l) in Hi1.
    eapply wp_mono; [apply (IH (drop k l) _ w1 Hi1); cbn [length] in Hf; rewrite length_drop; lia|]. intros r w2 (-> & [R1 R2 R3 R4]). split; [|split].
    + rewrite <- fold_left_app. cbn [app]. by rewrite take_drop.
    + intros fd'. rewrite R1. destruct (decide (fd' = fd)) as [->|]; [by rewrite !fn_lookup_insert|]. rewrite !fn_lookup_insert_ne by done. by apply Ho1.
    + by rewrite R2, Hw1.
    + by rewrite R3, Hw1.
    + intros p. by rewrite R4, Hf1.
Qed.

Lemma runs_le w l : (length (runs w l) <= length l + (if decide (w = []) then 0 else 1))%nat.
Proof.
  revert w. induction l as [|c l IH]; intros w; cbn [runs length]; [by destruct (decide (w = []))|].
  pose proof (IH []) as I1. pose proof (IH (w ++ [c])) as I2. rewrite decide_True in I1 by done. destruct (is_space c), (decide (w = [])) as [->|]; cbn [length]; try lia; destruct (decide (_ = [])); lia.
Qed.

Lemma wc_ran (fuel : nat) fd name l b w : input w fd = Some (l, b) -> (length l < fuel)%nat -> length l < 2 ^ 31 ->
  wp (wc fuel fd name w) (fun r w' => r = Done tt /\ ran w w' (<[fd := Some ([], b)]> (input w)) (wc_line l name) []).
Proof.
  intros Hi Hf Hlen. unfold wc, then_. wp_step (wc_loop_ran fuel fd l b (mk_counts 0 0 0 false) w Hi Hf). intros r w1 (-> & Hr1).
  destruct (wc_fold [] l (mk_counts 0 0 0 false) eq_refl ltac:(done) ltac:(done) Hlen) as (E1 & E2 & E3). cbn [wl ww wch inword] in *. rewrite E1, E2, E3, !Z.add_0_l, Z.sub_0_r.
  assert (lines_in l <= length l)%nat as Hll by (unfold lines_in; apply length_filter). pose proof (runs_le [] l) as Hrl. rewrite decide_True in Hrl by done.
  apply (wp_fprintf _ _ _ (wc_line l name)); [|by left|intros w2 Hr2; apply wp_ret; split; [done|]].
  - transitivity (Some (printint udigits (to_int (lines_in l)) 10 true ++ [32] ++ printint udigits (to_int (length (runs [] l))) 10 true ++ [32] ++ printint udigits (to_int (length l)) 10 true ++ [32] ++ name ++ [LF])); [reflexivity|].
    rewrite !sint_id by (done || (change (2 ^ (32 - 1)) with (2 ^ 31); lia)). done.
  - pose proof (ran_trans _ _ _ _ _ _ _ _ _ Hr1 Hr2) as [R1 R2 R3 R4]. split; [|done..]. intros fd'. rewrite R1. apply Hr1.
Qed.

(** [wc] prints the numbers of lines, words and characters of its files, or of its input, whatever parts it reads them in;
    a word is a longest run of characters that are not spaces. *)
Theorem wc_correct (fuel : nat) argv w : (fuel <= 2 ^ 31) ->
  (forall a l st, a ∈ argv -> file_of w a = Some (l, st) -> (length l < fuel)%nat) -> (forall l b, input w 0 = Some (l, b) -> (length l < fuel)%nat) -> is_Some (input w 0) ->
  let '(o, e, st) := match argv with
    | [] => (wc_line (default [] (fst <$> input w 0)) [], [], 0)
    | _ => each_file wc_line (fun a => (str "wc: cannot open " ++ a ++ [LF], [])) (fun a => fst <$> file_of w a) argv
    end in
  wp (wc_main fuel argv w) (fun r w' => r = Exited st /\ output w' 1 = output w 1 ++ o /\ output w' 2 = output w 2 ++ e).
Proof.
  intros Hmax Hl Hi [[l b] E]. destruct argv as [|a argv].
  - unfold wc_main, then_. pose proof (Hi l b E). wp_step (wc_ran fuel 0 [] l b w E (Hi l b E)); [lia|]. intros r w' (-> & [R1 R2 R3 R4]). apply wp_ret. split; [done|]. by rewrite R2, R3, E.
  - apply (for_files_ran 1 _ (wc fuel) (fun l => length l < fuel)%nat wc_line (fun a => str "wc: cannot open " ++ a ++ [LF])); [by left|done| |done]. intros. apply wc_ran; [done|done|lia].
Qed.

(** ** grep *)

Lemma ugrep_lines_ran (fuel : nat) pattern p w : 0 ∉ p -> (length p < fuel)%nat ->
  wp (ugrep_lines fuel pattern p w) (fun r w' => r = (lines p).2 /\ ran w w' (input w) (picked pattern (lines p).1) []).
Proof.
  revert p w. induction fuel as [|fuel IH]; intros p w Hz Hf; [lia|]. cbn [ugrep_lines]. pose proof (find_nl_spec p Hz) as Hn. destruct (find_nl p) as [[a r]|].
  2:{ rewrite lines_none by done. apply wp_ret. split; [done|apply ran_refl]. }
  destruct Hn as [-> Ha]. rewrite length_app in Hf. cbn [length] in Hf. rewrite lines_nl by done. cbn [fst snd]. apply wp_bind. set (o := if match_ pattern a then a ++ [NL] else []).
  assert (wp ((if match_ pattern a then u_write 1 (a ++ [NL]);; mret tt else mret tt) w) (fun _ w' => ran w w' (input w) o [])) as Hw; [|eapply wp_mono; [exact Hw|]].
  - unfold o. destruct (match_ pattern a); [|apply wp_ret; apply ran_refl]. wp_step (sp_write 1 (a ++ [NL]) w). intros n w1 (_ & E & Eo & Ei & Ef & _). apply wp_ret. split; [done|done|by rewrite Eo, app_nil_r|done].
  - intros [] w1 Hr1. eapply wp_mono; [apply (IH r w1); [set_solver|lia]|]. intros res w2 (-> & Hr2). split; [done|]. pose proof (ran_trans _ _ _ _ _ _ _ _ _ Hr1 Hr2) as [R1 R2 R3 R4].
    split; [intros fd; rewrite R1; apply Hr1|exact R2|done|done].
Qed.

Lemma ugrep_ran (fuel : nat) pattern fd buf l b w : input w fd = Some (l, b) -> 0 ∉ buf ++ l -> NL ∉ buf -> short_lines (buf ++ l) -> (length l < fuel)%nat ->
  wp (ugrep fuel pattern fd buf w) (fun r w' => r = Done tt /\ ran w w' (<[fd := Some ([], b)]> (input w)) (picked pattern (lines (buf ++ l)).1) []).
Proof.
  revert buf l w. induction fuel as [|fuel IH]; intros buf l w Hi Hz Hb Hs Hf; [lia|]. cbn [ugrep]. pose proof (short_room buf l Hb Hs) as Hroom.
  wp_step (sp_read fd (BUFSZ - length buf - 1) l b w Hi ltac:(lia)). intros r w1 (k & -> & Hk & Hpos & _ & Hi1 & Ho1 & Hw1 & Hf1 & _). destruct l as [|c l].
  - rewrite take_nil, app_nil_r, lines_none in * by done. apply wp_ret. split; [done|]. rewrite drop_nil in Hi1. split; [by apply in_insert|by rewrite Hw1, app_nil_r..|done].
  - specialize (Hpos ltac:(done)). set (part := take k (c :: l)) in *. set (rest := drop k (c :: l)) in *. assert (part ++ rest = c :: l) as Epr by apply take_drop.
    assert (length part <= k)%nat as Hlp by (unfold part; rewrite length_take; lia). assert (length rest < length (c :: l))%nat as Hlr by (unfold rest; rewrite length_drop; cbn [length]; lia).
    rewrite <- Epr, app_assoc in Hz, Hs |- *. destruct (after_part (buf ++ part) rest Hz Hs) as (Hz' & Hr & Hs'). rewrite (lines_app (buf ++ part) rest). cbn [fst snd]. rewrite picked_app.
    assert (0 < length part)%nat as Hp by (unfold part; rewrite length_take; cbn [length]; lia). clearbody part rest. destruct part as [|d part]; [cbn [length] in Hp; lia|].
    wp_step (ugrep_lines_ran (S BUFSZ) pattern (buf ++ d :: part) w1); [set_solver|rewrite length_app; lia|]. intros q w2 (-> & [R1 R2 R3 R4]).
    eapply wp_mono; [apply (IH _ rest w2); [by rewrite R1|done|done|done|lia]|]. intros r w3 (-> & [S1 S2 S3 S4]). split; [done|]. split.
    + intros fd'. rewrite S1. destruct (decide (fd' = fd)) as [->|]; [by rewrite !fn_lookup_insert|]. rewrite !fn_lookup_insert_ne by done. by rewrite R1, Ho1.
    + by rewrite S2, R2, Hw1, <- app_assoc.
    + by rewrite S3, R3, Hw1, app_nil_r.
    + intros path. by rewrite S4, R4, Hf1.
Qed.

(** [grep] prints the complete lines of its files, or of its input, that its pattern selects, where no line fills the buffer. *)
Theorem grep_main_correct (fuel : nat) pattern argv w :
  (forall a l st, a ∈ argv -> file_of w a = Some (l, st) -> (0 ∉ l) /\ short_lines l /\ (length l < fuel)%nat) ->
  (forall l b, input w 0 = Some (l, b) -> (0 ∉ l) /\ short_lines l /\ (length l < fuel)%nat) -> is_Some (input w 0) ->
  let '(o, e, st) := match argv with
    | [] => (picked pattern (lines (default [] (fst <$> input w 0))).1, [], 0)
    | _ => each_file (fun l _ => picked pattern (lines l).1) (fun a => (str "grep: cannot open " ++ a ++ [LF], [])) (fun a => fst <$> file_of w a) argv
    end in
  wp (grep_main fuel (pattern :: argv) w) (fun r w' => r = Exited st /\ output w' 1 = output w 1 ++ o /\ output w' 2 = output w 2 ++ e).
Proof.
  intros Hl Hi [[l b] E]. destruct argv as [|a argv].
  - destruct (Hi l b E) as (Hz & Hs & Hf). unfold grep_main, then_. wp_step (ugrep_ran fuel pattern 0 [] l b w E Hz ltac:(set_solver) Hs Hf). intros r w' (-> & [R1 R2 R3 R4]). apply wp_ret. split; [done|]. by rewrite R2, R3, E.
  - apply (for_files_ran 1 _ (fun fd _ => ugrep fuel pattern fd []) (fun l => (0 ∉ l) /\ short_lines l /\ (length l < fuel)%nat) (fun l _ => picked pattern (lines l).1) (fun a => str "grep: cannot open " ++ a ++ [LF]));
      [by left|done| |done]. intros fd a' l' w' Hi' (Hz & Hs & Hf). apply (ugrep_ran fuel pattern fd [] l' true w'); [done|done|set_solver|done|done].
Qed.

(** ** echo, gets *)

(** [echo] writes its arguments with spaces between them and a newline at the end. *)
Theorem echo_correct argv w : wp (echo_main argv w) (fun r w' => r = Exited 0 /\ output w' 1 = output w 1 ++ joined argv).
Proof.
  revert w. induction argv as [|a argv IH]; intros w; cbn [echo_main joined]; [apply wp_ret; by rewrite app_nil_r|].
  wp_step (sp_write 1 a w). intros r1 w1 (_ & E1 & _). wp_step (sp_write 1 (match argv with [] => [LF] | _ => [32] end) w1). intros r2 w2 (_ & E2 & _).
  eapply wp_mono; [apply IH|]. intros r w3 (-> & E3). split; [done|]. by rewrite E3, E2, E1, <- !app_assoc.
Qed.

(** [gets] gives a line, as far as it fits, and leaves the rest of the input. *)
Theorem gets_correct max l b w : 0 < max -> input w 0 = Some (l, b) ->
  wp (ugets max w) (fun r w' => r = line_of (Z.to_nat (max - 1)) l /\ length r < max /\ input w' 0 = Some (drop (length r) l, b)).
Proof.
  intros Hmax Hi. unfold ugets. set (n := Z.to_nat (max - 1)). assert (n < max) as Hn by lia. clearbody n.
  assert (forall (n : nat) buf l w, input w 0 = Some (l, b) -> wp (gets_loop n buf w) (fun r w' => r = buf ++ line_of n l /\ input w' 0 = Some (drop (length (line_of n l)) l, b))) as Hloop.
  { clear. induction n as [|n IH]; intros buf l w Hi; cbn [gets_loop line_of]; [apply wp_ret; by rewrite app_nil_r|].
    wp_step (sp_read 0 1 l b w Hi ltac:(lia)). intros r w1 (k & -> & Hk & Hpos & _ & Hi1 & _). destruct l as [|c l]; [rewrite take_nil, drop_nil in *; apply wp_ret; by rewrite app_nil_r|].
    specialize (Hpos ltac:(done)). assert (k = 1%nat) as -> by lia. cbn [take drop] in *. destruct ((c =? LF) || (c =? 13)); [by apply wp_ret|].
    eapply wp_mono; [apply (IH _ l w1 Hi1)|]. intros r w2 (-> & E). by rewrite <- app_assoc. }
  eapply wp_mono; [apply (Hloop n [] l w Hi)|]. intros r w' (-> & E). cbn [app]. split; [done|]. split; [|done].
  assert (length (line_of n l) <= n)%nat; [|lia]. clear. revert l. induction n as [|n IH]; intros [|c l]; cbn [line_of length]; [lia..|]. destruct (_ || _); cbn [length]; [lia|]. specialize (IH l). lia.
Qed.

(** ** ls *)

Lemma ustat_ran p w : wp (ustat p w) (fun r w' => r = snd <$> file_of w p /\ ran w w' (input w) [] [] /\ forall fd, is_Some (input w fd) -> about w' fd = about w fd).
Proof.
  unfold ustat. wp_step (sp_open p w). intros fd w1 (Ho1 & Hf1 & Hm). destruct (file_of w p) as [[l st]|] eqn:Ef.
  - destruct Hm as (Hfd & Hn & Hi & Ha & Hi' & Ha'). rewrite (proj2 (Z.ltb_ge fd 0)) by lia. wp_step (sp_fstat fd w1). intros r w2 (-> & ->). wp_step (sp_close fd w1).
    intros c w3 (Hc1 & Hc2 & Hc3 & Hc4 & Hc5 & Hc6). apply wp_ret. split; [by rewrite Ha|]. split; [split|].
    + intros fd'. destruct (decide (fd' = fd)) as [->|Hne]; [congruence|]. by rewrite Hc3, Hi'.
    + by rewrite Hc5, Ho1, app_nil_r.
    + by rewrite Hc5, Ho1, app_nil_r.
    + intros p'. by rewrite Hc6, Hf1.
    + intros fd' [v Hv]. assert (fd' <> fd) by congruence. by rewrite Hc4, Ha'.
  - destruct Hm as (Hfd & Hi & Ha). rewrite (proj2 (Z.ltb_lt fd 0)) by lia. apply wp_ret. split; [done|]. split; [split; [done|by rewrite Ho1, app_nil_r..|done]|done].
Qed.

Lemma fprintf_ran fmt ap out w : vprintf fmt ap false = Some out -> wp (fprintf 1 fmt ap w) (fun _ w' => ran w w' (input w) out []).
Proof. intros E. unfold fprintf. rewrite E. eapply wp_mono; [apply (putcs_ran 1 out w (or_introl eq_refl))|]. by intros [] w' [Hr _]. Qed.

Lemma ls_entry_ext files files' buf des : (forall p, files p = files' p) -> concat (ls_entry files buf <$> des) = concat (ls_entry files' buf <$> des).
Proof. intros E. f_equal. apply list_fmap_ext. intros i de _. unfold ls_entry. by rewrite E. Qed.

Lemma ls_entries_ran (fuel : nat) fd buf des w : input w fd = Some (concat des, true) -> Forall (fun de => length de = 16%nat) des -> (length des < fuel)%nat ->
  wp (ls_entries fuel fd buf w) (fun _ w' => ran w w' (<[fd := Some ([], true)]> (input w)) (concat (ls_entry (file_of w) buf <$> des)) []).
Proof.
  revert des w. induction fuel as [|fuel IH]; intros des w Hi Hdes Hf; [lia|]. cbn [ls_entries]. wp_step (sp_read fd 16 (concat des) true w Hi ltac:(lia)).
  intros r w1 (k & -> & _ & _ & Hex & Hi1 & Ho1 & Hw1 & Hf1 & _). rewrite (Hex eq_refl) in *. clear Hex. destruct Hdes as [|de des Hde Hdes]; cbn [concat fmap list_fmap] in *.
  - apply wp_ret. split; [by apply in_insert|by rewrite Hw1, app_nil_r..|done].
  - rewrite length_app, Hde in *. replace (Z.to_nat 16 `min` (16 + length (concat des)))%nat with 16%nat in * by lia. rewrite take_app_le, take_ge in * by lia. rewrite drop_app_ge, Hde, Nat.sub_diag, drop_0 in Hi1 by lia.
    rewrite Hde. change (negb (Z.of_nat 16 =? 16)) with false. cbv iota.
    assert (forall w2 o, ran w1 w2 (input w1) o [] -> wp (ls_entries fuel fd buf w2) (fun _ w' => ran w w' (<[fd := Some ([], true)]> (input w)) (o ++ concat (ls_entry (file_of w) buf <$> des)) [])) as Hnext.
    { intros w2 o [A1 A2 A3 A4]. cbn [length] in Hf. eapply wp_mono; [apply (IH des w2); [by rewrite A1|done|lia]|]. intros [] w3 [R1 R2 R3 R4]. rewrite (ls_entry_ext _ (file_of w)) in R2 by (intros p; by rewrite A4, Hf1). split.
      - intros fd'. rewrite R1. destruct (decide (fd' = fd)) as [->|]; [by rewrite !fn_lookup_insert|]. rewrite !fn_lookup_insert_ne by done. by rewrite A1, Ho1.
      - by rewrite R2, A2, Hw1, <- app_assoc.
      - by rewrite R3, A3, Hw1, app_nil_r.
      - intros p. by rewrite R4, A4, Hf1. }
    unfold ls_entry at 1. destruct (Z.eqb_spec (rd 2 de 0) 0) as [E0|E0]; [by apply (Hnext w1 []), ran_refl|]. cbv zeta. set (name := buf ++ _).
    wp_step (ustat_ran name w1). intros r w2 (-> & Hr2 & _). rewrite Hf1. pose proof (rn_in _ _ _ _ _ Hr2) as Hi2.
    destruct (file_of w name) as [[l [[ty ino] size]]|]; cbn [fmap option_fmap option_map snd].
    + wp_step (fprintf_ran _ _ (ls_line name (ty, ino, size))); [reflexivity|]. intros [] w3 Hr3. apply Hnext. pose proof (ran_trans _ _ _ _ _ _ _ _ _ Hr2 Hr3) as [R1 R2 R3 R4]. split; [intros fd'; by rewrite R1|done..].
    + wp_step (fprintf_ran _ _ (str "ls: cannot stat " ++ name ++ [LF])); [reflexivity|]. intros [] w3 Hr3. apply Hnext. pose proof (ran_trans _ _ _ _ _ _ _ _ _ Hr2 Hr3) as [R1 R2 R3 R4]. split; [intros fd'; by rewrite R1|done..].
Qed.

(** [ls] of a directory prints a line for each of its entries that is in use, in their order, and leaves its descriptor closed;
    of a file or a device it prints one line. *)
Theorem ls_correct (fuel : nat) path l ty ino size w : file_of w path = Some (l, (ty, ino, size)) -> length path + 16 <= 512 ->
  match ty =? T_DIR with
  | true => forall des, l = concat des -> Forall (fun de => length de = 16%nat) des -> (length des < fuel)%nat ->
      wp (ls fuel path w) (fun _ w' => ran w w' (input w) (concat (ls_entry (file_of w) (path ++ [SLASH]) <$> des)) [])
  | false => wp (ls fuel path w) (fun _ w' => ran w w' (input w) (if (ty =? T_DEVICE) || (ty =? T_FILE) then
      fmtname path ++ [32] ++ printint udigits (to_int ty) 10 true ++ [32] ++ printint udigits (to_int ino) 10 true ++ [32] ++ printint udigits (to_int size) 10 false ++ [LF] else []) [])
  end.
Proof.
  intros Ef Hp. pose proof (sp_open path w) as Hopen. rewrite Ef in Hopen.
  assert (forall o, (forall fd w1, 2 < fd -> input w1 fd = Some (l, true) -> (forall p, file_of w1 p = file_of w p) ->
      wp ((if (ty =? T_DEVICE) || (ty =? T_FILE) then fprintf 1 (str "%s %d %d %l" ++ [LF]) [AStr (Some (fmtname path)); ANum ty; ANum ino; ANum size]
           else if ty =? T_DIR then if 512 <? length path + 1 + DIRSIZ + 1 then fprintf 1 (str "ls: path too long" ++ [LF]) [] else ls_entries fuel fd (path ++ [SLASH]) else mret tt) w1)
         (fun _ w' => exists v, ran w1 w' (<[fd := v]> (input w1)) o [])) -> wp (ls fuel path w) (fun _ w' => ran w w' (input w) o [])) as Hls.
  { intros o Hbody. unfold ls. wp_step Hopen. intros fd w1 (Ho1 & Hf1 & Hfd & Hn & Hi & Ha & Hi' & _). rewrite (proj2 (Z.ltb_ge fd 0)) by lia.
    wp_step (sp_fstat fd w1). intros r w2 (-> & ->). rewrite Ha. wp_step (Hbody fd w1 Hfd Hi Hf1). intros [] w2 (v & [R1 R2 R3 R4]). wp_step (sp_close fd w2). intros c w3 (Hc1 & _ & Hc3 & _ & Hc5 & Hc6). apply wp_ret. split.
    - intros fd'. destruct (decide (fd' = fd)) as [->|Hne]; [congruence|]. rewrite Hc3, R1, fn_lookup_insert_ne by done. by apply Hi'.
    - by rewrite Hc5, R2, Ho1.
    - by rewrite Hc5, R3, Ho1.
    - intros p. by rewrite Hc6, R4, Hf1. }
  destruct (Z.eqb_spec ty T_DIR) as [->|Hne].
  - intros des -> Hdes Hfu. apply Hls. intros fd w1 Hfd Hi Hf1. change ((T_DIR =? T_DEVICE) || (T_DIR =? T_FILE)) with false. cbv iota. rewrite (proj2 (Z.ltb_ge 512 _)) by (change (Z.of_nat DIRSIZ) with 14; lia).
    eapply wp_mono; [apply (ls_entries_ran fuel fd (path ++ [SLASH]) des w1 Hi Hdes Hfu)|]. intros [] w2 Hr. exists (Some ([], true)). by rewrite (ls_entry_ext _ (file_of w)) in Hr.
  - apply Hls. intros fd w1 Hfd Hi Hf1. destruct ((ty =? T_DEVICE) || (ty =? T_FILE)).
    + eapply wp_mono; [by apply (fprintf_ran _ _ (fmtname path ++ [32] ++ printint udigits (to_int ty) 10 true ++ [32] ++ printint udigits (to_int ino) 10 true ++ [32] ++ printint udigits (to_int size) 10 false ++ [LF]))|].
      intros [] w2 [R1 R2 R3 R4]. exists (Some (l, true)). split; [|done..]. apply in_insert; [by rewrite R1|intros; by rewrite R1].
    + apply wp_ret. exists (Some (l, true)). pose proof (ran_refl w1) as [R1 R2 R3 R4]. split; [by apply in_insert|done..].
Qed.

(** ** init *)

(** What [wait] returns from now on. *)
Context (waits : W -> list Z) (Hwait : forall p l w, waits w = p :: l -> wp (u_wait w) (fun r w' => r = p /\ waits w' = l)).

(** [init] waits until its shell has exited, whatever orphans exit before. *)
Theorem init_wait_correct (fuel : nat) pid orphans rest w : 0 < pid -> waits w = orphans ++ pid :: rest -> Forall (fun p => 0 < p /\ p <> pid) orphans -> (length orphans < fuel)%nat ->
  wp (init_wait fuel pid w) (fun r w' => r = Done tt /\ waits w' = rest).
Proof.
  intros Hpid. revert orphans w. induction fuel as [|fuel IH]; intros orphans w E Ho Hf; [lia|]. cbn [init_wait]. destruct Ho as [|p orphans [Hp Hne] Ho]; cbn [app] in E; (wp_step (Hwait _ _ _ E); intros r w1 (-> & E1)).
  - rewrite Z.eqb_refl. by apply wp_ret.
  - rewrite (proj2 (Z.eqb_neq p pid)), (proj2 (Z.ltb_ge p 0)) by (done || lia). cbn [length] in Hf. apply (IH orphans w1 E1 Ho). lia.
Qed.
End thms.

(** ** A system *)

(** Descriptors, what was written, and files; input that is not a file comes in parts of at most three bytes. *)
Record dw := mk_dw { d_fds : gmap Z (list Z * bool * (Z * Z * Z)); d_out : Z -> list Z; d_file : list Z -> option (list Z * (Z * Z * Z)) }.

Definition set_fds m w : dw := mk_dw m (d_out w) (d_file w).
Definition new_fd (w : dw) : Z := 3 + Z.of_nat (fresh (set_map (fun z => Z.to_nat (z - 3)) (dom (d_fds w)) : gset nat)).

Lemma new_fd_free w : d_fds w !! new_fd w = None.
Proof.
  apply not_elem_of_dom. intros Hin. unfold new_fd in Hin. set (X := set_map _ _ : gset nat) in Hin. apply (is_fresh X), elem_of_map. eexists. split; [|exact Hin]. lia.
Qed.

#[export, refine] Instance demo_os : Os dw := {|
  u_read fd n w := match d_fds w !! fd with
    | None => Ret None w
    | Some (l, b, st) => let k := Z.to_nat (Z.min (if b : bool then n else 3) n) in Ret (Some (take k l)) (set_fds (<[fd := (drop k l, b, st)]> (d_fds w)) w)
    end;
  u_write fd l w := Ret (Z.of_nat (length l)) (mk_dw (d_fds w) (<[fd := d_out w fd ++ l]> (d_out w)) (d_file w));
  u_open p mode w := match d_file w p with None => Ret (-1) w | Some (l, st) => Ret (new_fd w) (set_fds (<[new_fd w := (l, true, st)]> (d_fds w)) w) end;
  u_close fd w := Ret 0 (set_fds (delete fd (d_fds w)) w);
  u_fstat fd w := Ret (snd <$> d_fds w !! fd) w;
  u_link _ _ := mret (-1); u_unlink _ := mret (-1); u_mkdir _ := mret (-1); u_mknod _ _ _ := mret (-1); u_dup _ := mret (-1); u_kill _ := mret (-1);
  u_fork := mret (-1); u_exec _ _ := mret (-1); u_wait := mret (-1);
|}.
Proof. Defined.

#[export, refine] Instance demo_os_spec : OsSpec dw := {|
  input w fd := fst <$> d_fds w !! fd;
  output := d_out;
  file_of := d_file;
  about w fd := snd <$> d_fds w !! fd;
|}.
Proof.
  - intros fd n l b w E Hn. cbn. destruct (d_fds w !! fd) as [[[l' b'] st]|] eqn:Ef; [|done]. injection E as -> ->. set (k := Z.to_nat _). exists (Nat.min k (length l)). cbn. split_and!.
    + destruct (decide (k <= length l)%nat); [by rewrite Nat.min_l|]. rewrite Nat.min_r by lia. by rewrite !take_ge by lia.
    + unfold k. destruct b; lia.
    + intros Hl. destruct l; [done|]. unfold k. cbn [length]. destruct b; lia.
    + intros ->. unfold k. f_equal. lia.
    + rewrite lookup_insert_eq. cbn. do 2 f_equal. destruct (decide (k <= length l)%nat); [by rewrite Nat.min_l|]. rewrite Nat.min_r by lia. by rewrite !drop_ge by lia.
    + intros fd' Hne. by rewrite lookup_insert_ne.
    + done.
    + done.
    + intros fd'. destruct (decide (fd' = fd)) as [->|]; [by rewrite lookup_insert_eq, Ef|by rewrite lookup_insert_ne].
  - intros fd l w. cbn. split_and!; [done|by rewrite fn_lookup_insert|intros; by rewrite fn_lookup_insert_ne|done|done|done].
  - intros p w. cbn. pose proof (new_fd_free w) as Hn. destruct (d_file w p) as [[l st]|]; cbn; [|by split_and!]. split_and!; [done|done|unfold new_fd; lia|by rewrite Hn|by rewrite lookup_insert_eq..| |]; intros; by rewrite lookup_insert_ne.
  - done.
  - intros fd w. cbn. split_and!; [by rewrite lookup_delete_eq..| | |done|done]; intros; by rewrite lookup_delete_ne.
Defined.

(** Standard input of two lines, a file "a", and a directory "d" with it. *)
Definition demo_dw : dw := mk_dw {[0 := ([104; 105; 10; 121; 111; 10], false, (3, 1, 0))]} (fun _ => [])
  (fun p => if bool_decide (p = [97]) then Some ([120; 32; 121], (2, 5, 3)) else if bool_decide (p = [100]) then Some (le_bytes 2 5 ++ strncpy_l DIRSIZ [97] ++ repeat 0 16, (1, 2, 32))
            else if bool_decide (p = [100; 47; 97]) then Some ([120; 32; 121], (2, 5, 3)) else None).

Example cat_demo : exists w', cat_main 9 [] demo_dw = Ret (Exited 0) w' /\ d_out w' 1 = [104; 105; 10; 121; 111; 10].
Proof.
  destruct (wp_inv _ _ (cat_correct 9 [] demo_dw ltac:(intros a l st Hin; by apply not_elem_of_nil in Hin) ltac:(intros l b E; vm_compute in E; injection E as <- <-; simpl; lia) ltac:(by eexists))) as (r & w' & E & -> & Ho & _). by exists w'.
Qed.

Example wc_demo : exists w', wc_main 9 [[97]] demo_dw = Ret (Exited 0) w' /\ d_out w' 1 = str "0 2 3 a" ++ [LF].
Proof.
  destruct (wp_inv _ _ (wc_correct 9 [[97]] demo_dw ltac:(done) ltac:(intros a l st Hin; apply list_elem_of_singleton in Hin as ->; intros E; vm_compute in E; injection E as <- <-; simpl; lia) ltac:(intros l b E; vm_compute in E; injection E as <- <-; simpl; lia) ltac:(by eexists)))
    as (r & w' & E & -> & Ho & _). by exists w'.
Qed.

Example ls_demo : exists w', ls 9 [100] demo_dw = Ret tt w' /\ d_out w' 1 = str "a              2 5 3" ++ [LF].
Proof.
  set (des := [le_bytes 2 5 ++ strncpy_l DIRSIZ [97]; repeat 0 16]). assert (d_file demo_dw [100] = Some (concat des, (1, 2, 32))) as Ef by (vm_compute; reflexivity).
  assert (Forall (fun de => length de = 16%nat) des) as Hdes by (by repeat constructor).
  pose proof (ls_correct 9 [100] (concat des) 1 2 32 demo_dw) as Hl. destruct (wp_inv _ _ (Hl Ef ltac:(simpl; lia) des eq_refl Hdes ltac:(simpl; lia))) as ([] & w' & E & [_ Ho _ _]).
  exists w'. split; [exact E|]. refine (eq_trans Ho _). by vm_compute.
Qed.
