(* ===== verification/Mkfs.v ===== *)
(** * The file system image builder (mkfs/mkfs.c)

    A program of the host that writes an image: a superblock, an empty log, a root
    directory, and a file for each of its arguments.  The image is a map from
    sectors to their bytes; a sector beyond the end of the image file cannot be read.
    The integers of the structures are in the byte order of the disk, as [xint] and
    [xshort] make them.  A file of the host is what the successive [read]s return;
    [None] is one that cannot be opened.  [die] and a failed [assert] are panics. *)

From S2P Require Import Prelude Riscv Mem Block Bio Fs.

Definition NINODES : Z := 200.
Definition nbitmap : Z := FSSIZE / (BSIZE * 8) + 1.
Definition ninodeblocks : Z := NINODES / IPB + 1.
Definition nmeta : Z := 2 + LOGSIZE + ninodeblocks + nbitmap.

(** [sb] *)
Definition mkfs_sb : superblock :=
  mk_superblock FSMAGIC FSSIZE (FSSIZE - nmeta) NINODES LOGSIZE 2 (2 + LOGSIZE) (2 + LOGSIZE + ninodeblocks).

Definition sb_bytes (x : superblock) : list Z :=
  words [magic x; sb_size x; nblocks x; ninodes x; nlog x; logstart x; inodestart x; bmapstart x].

(** The image and the globals [freeinode] and [freeblock]. *)
Record mkst := mk_mkst { img : gmap Z (list Z); freeinode : Z; freeblock : Z }.

Definition set_img x s : mkst := mk_mkst x (freeinode s) (freeblock s).
Definition set_freeinode x s : mkst := mk_mkst (img s) x (freeblock s).
Definition set_freeblock x s : mkst := mk_mkst (img s) (freeinode s) x.

Definition zeroes : list Z := repeat 0 (Z.to_nat BSIZE).

Definition wsect (sec : Z) (buf : list Z) : M mkst unit := modify (fun s => set_img (<[sec := buf]> (img s)) s).

Definition rsect (sec : Z) : M mkst (list Z) :=
  r ← gets (fun s => img s !! sec); match r with Some buf => mret buf | None => panic "read" end.

Definition winode (inum : Z) (ip : inode) : M mkst unit :=
  let bn := IBLOCK inum mkfs_sb in
  buf ← rsect bn;
  wsect bn (store_dinode ip (dip_off inum) buf).

(** The number is kept beside what the disk has. *)
Definition rinode (inum : Z) : M mkst inode :=
  buf ← rsect (IBLOCK inum mkfs_sb);
  mret (load_dinode buf (dip_off inum) (mk_inode 0 inum 0 0 false 0 0 0 0 0 [])).

Definition mk_ialloc (type : Z) : M mkst Z :=
  inum ← gets freeinode;
  modify (set_freeinode (inum + 1));;
  winode inum (mk_inode 0 inum 0 0 false type 0 0 1 0 (repeat 0 13));;
  mret inum.

(** [for(i = 0; i < used; i++) buf[i/8] = buf[i/8] | (0x1 << (i%8));] *)
Fixpoint bits (used : nat) : list Z :=
  match used with O => zeroes | S i => set_bit (bits i) i end.

Definition mk_balloc (used : Z) : M mkst unit :=
  if negb (used <? BSIZE * 8) then panic "assert"
  else wsect (bmapstart mkfs_sb) (bits (Z.to_nat used)).

(** [freeblock++] *)
Definition take_block : M mkst Z := b ← gets freeblock; modify (set_freeblock (b + 1));; mret b.

(** The sector of block [fbn] of [din], with the entries made on the way. *)
Definition find_block (din : inode) (fbn : Z) : M mkst (Z * inode) :=
  if fbn <? NDIRECT then
    if addrs din !!! Z.to_nat fbn =? 0 then
      b ← take_block; mret (b, with_addr (Z.to_nat fbn) b din)
    else mret (addrs din !!! Z.to_nat fbn, din)
  else
    din ← (if addrs din !!! Z.to_nat NDIRECT =? 0 then b ← take_block; mret (with_addr (Z.to_nat NDIRECT) b din) else mret din);
    let a := addrs din !!! Z.to_nat NDIRECT in
    indirect ← rsect a;
    let o := Z.to_nat (4 * (fbn - NDIRECT)) in
    if rd 4 indirect o =? 0 then
      b ← take_block;
      wsect a (wr 4 indirect o b);;
      mret (b, din)
    else mret (rd 4 indirect o, din).

Fixpoint iappend_loop (fuel : nat) (din : inode) (off : Z) (p : list Z) : M mkst (inode * Z) :=
  match fuel with
  | O => diverge
  | S fuel =>
      if 0 <? length p then
        let fbn := off / BSIZE in
        if negb (fbn <? MAXFILE) then panic "assert"
        else
          '(x, din) ← find_block din fbn;
          let n1 := Z.min (length p) ((fbn + 1) * BSIZE - off) in
          buf ← rsect x;
          wsect x (splice buf (Z.to_nat (off - fbn * BSIZE)) (take (Z.to_nat n1) p));;
          iappend_loop fuel din (off + n1) (drop (Z.to_nat n1) p)
      else mret (din, off)
  end.

Definition iappend (inum : Z) (xp : list Z) : M mkst unit :=
  din ← rinode inum;
  '(din, off) ← iappend_loop (S (length xp)) din (isize din) xp;
  winode inum (with_size off din).

(** ** main *)

Definition mk_dirent_bytes (inum : Z) (name : list Z) : list Z := le_bytes 2 inum ++ strncpy_l DIRSIZ name.

Fixpoint zero_sectors (n : nat) (i : Z) : M mkst unit :=
  match n with O => mret tt | S n => wsect i zeroes;; zero_sectors n (i + 1) end.

(** "user/" *)
Definition USER : list Z := [117; 115; 101; 114; 47].

Definition shortname (arg : list Z) : list Z := if strncmp_l 5 arg USER =? 0 then drop 5 arg else arg.

(** [if(shortname[0] == '_') shortname += 1;] *)
Definition skip_underscore (name : list Z) : list Z := match name with c :: l => if c =? 95 then l else name | [] => name end.

Fixpoint append_reads (inum : Z) (reads : list (list Z)) : M mkst unit :=
  match reads with [] => mret tt | buf :: reads => iappend inum buf;; append_reads inum reads end.

Definition add_file (rootino : Z) (arg : list Z) (fd : option (list (list Z))) : M mkst unit :=
  let name := shortname arg in
  if bool_decide (SLASH ∈ name) then panic "assert"
  else
    match fd with
    | None => panic "open"
    | Some reads =>
        inum ← mk_ialloc T_FILE;
        iappend rootino (mk_dirent_bytes inum (skip_underscore name));;
        append_reads inum reads
    end.

Fixpoint add_files (rootino : Z) (files : list (list Z * option (list (list Z)))) : M mkst unit :=
  match files with [] => mret tt | (arg, fd) :: files => add_file rootino arg fd;; add_files rootino files end.

(** [files] are the arguments after the image's name. *)
Definition mkfs (files : list (list Z * option (list (list Z)))) : M mkst unit :=
  modify (set_freeblock nmeta);;
  zero_sectors (Z.to_nat FSSIZE) 0;;
  wsect 1 (splice zeroes 0 (sb_bytes mkfs_sb));;
  rootino ← mk_ialloc T_DIR;
  if negb (rootino =? ROOTINO) then panic "assert"
  else
    iappend rootino (mk_dirent_bytes rootino [46]);;
    iappend rootino (mk_dirent_bytes rootino [46; 46]);;
    add_files rootino files;;
    din ← rinode rootino;
    winode rootino (with_size ((isize din / BSIZE + 1) * BSIZE) din);;
    b ← gets freeblock;
    mk_balloc b.

(** The program starts with an empty image and [freeinode = 1]. *)
Definition mkfs_start : mkst := mk_mkst ∅ 1 0.
