(* ===== verification/MkfsThms.v ===== *)
(** * The image that mkfs builds

    The image is the disk that the theorems about kernel/fs.c start from: its
    metadata is laid out as they ask, its root directory leads to the files given,
    and these have the contents given.

    The bitmap is written last.  Until then the proof looks at the disk [D] that has
    the bits of the blocks handed out so far; on it, what [iappend] does to a file is
    what the kernel's [writei] does, and the lemmas about that are used. *)

From S2P Require Import Prelude Riscv Mem Kalloc Vm Block Bio Store Fs FsBlock FsInode FsFile FsRead FsWrite FsDir FsPath FsName Mkfs.

#[local] Existing Instance ram_spec.
#[local] Instance mkfs_spec : StoreSpec ram := ram_spec 1 30.

Abbreviation x := mkfs_sb.

Lemma mkfs_layout : layout x.
Proof. by split. Qed.

Lemma mkfs_meta : bmapstart x = 45 /\ datastart x = 46 /\ sb_size x = 2000 /\ ninodes x = 200 /\ nmeta = 46 /\ FSSIZE = 2000.
Proof. done. Qed.

(** ** The bitmap *)

Lemma bits_spec (n : nat) : n <= BPB -> block_ok (bits n) /\ forall b, 0 <= b < BPB -> bit_set (bits n) b = bool_decide (b < n).
Proof.
  induction n as [|n IH]; intros Hn; cbn [bits].
  - split; [apply zeros_ok|]. intros b Hb. rewrite bit_set_testbit, zeros_lookup by (change BPB with 8192 in Hb; change BSIZE with 1024; zdm).
    rewrite bool_decide_eq_false_2 by lia. apply Z.bits_0.
  - destruct IH as [Hok Hb]; [lia|]. assert (0 <= n < BPB) as Hr by lia. split; [by apply set_bit_ok|].
    intros b H0. rewrite bit_set_set, Hb by (done || lia). repeat case_bool_decide; (done || lia).
Qed.

Lemma BBLOCK_45 b : 0 <= b < FSSIZE -> BBLOCK b x = 45 /\ b mod BPB = b.
Proof. intros Hb. unfold BBLOCK. change BPB with 8192. change FSSIZE with 2000 in Hb. change (bmapstart x) with 45. rewrite Z.div_small, Z.mod_small by lia. done. Qed.

(** ** The disk behind the image *)

Record rep (s : mkst) (D : Z -> list Z) : Prop := {
  rp_img b : 0 <= b < FSSIZE -> b <> 45 -> img s !! b = Some (D b);
  rp_bits : D 45 = bits (Z.to_nat (freeblock s));
  rp_free : nmeta <= freeblock s <= FSSIZE;
  rp_zero b : freeblock s <= b < FSSIZE -> D b = zeros;
  rp_disk : fs_disk x D;
}.

Lemma rep_used s D b : rep s D -> 0 <= b < FSSIZE -> used x D b = bool_decide (b < freeblock s).
Proof.
  intros [_ Hb Hf _ _] Hr. unfold used. destruct (BBLOCK_45 b Hr) as [-> ->]. rewrite Hb. change nmeta with 46 in Hf. change FSSIZE with 2000 in *.
  destruct (bits_spec (Z.to_nat (freeblock s))) as [_ Hs]; [change BPB with 8192; lia|]. rewrite Hs by (change BPB with 8192; lia). apply bool_decide_ext. lia.
Qed.

Lemma rep_data s D a : rep s D -> data_ok x D a <-> nmeta <= a < freeblock s.
Proof.
  intros Hr. pose proof (rp_free _ _ Hr). unfold data_ok. change (datastart x) with nmeta. change (sb_size x) with FSSIZE. change nmeta with 46 in *. split.
  - intros [Ha Hu]. rewrite (rep_used s) in Hu by (done || lia). apply bool_decide_eq_true in Hu. lia.
  - intros Ha. split; [lia|]. rewrite (rep_used s) by (done || lia). apply bool_decide_eq_true_2. lia.
Qed.

Lemma wp_rsect {A} b (k : list Z -> M mkst A) s D Q : rep s D -> 0 <= b < FSSIZE -> b <> 45 -> wp (k (D b) s) Q -> wp ((rsect b ≫= k) s) Q.
Proof. intros Hr Hb Hn Hk. unfold rsect. apply wp_bind, wp_gets. by rewrite (rp_img _ _ Hr). Qed.

Lemma rep_write s D sec v : rep s D -> block_ok v -> 0 <= sec < freeblock s -> sec <> 45 -> rep (set_img (<[sec := v]> (img s)) s) (<[sec := v]> D).
Proof.
  intros [A1 A2 A3 A4 A5] Hv Hs Hn. split; [..|].
  - intros b Hb Hne. cbn [img set_img]. destruct (decide (b = sec)) as [->|Hd]; [by rewrite fn_lookup_insert, lookup_insert_eq|].
    rewrite fn_lookup_insert_ne, lookup_insert_ne by done. by apply A1.
  - by rewrite fn_lookup_insert_ne.
  - done.
  - intros b Hb. cbn [freeblock set_img] in Hb. rewrite fn_lookup_insert_ne by lia. by apply A4.
  - apply (fs_disk_upd x mkfs_layout); [done|done|]. change (bmapstart x) with 45. change (datastart x) with 46. lia.
Qed.

(** Taking the next block is what the kernel's [balloc] does. *)
Lemma rep_take s D : rep s D -> freeblock s < FSSIZE -> rep (set_freeblock (freeblock s + 1) s) (balloc_D x D (freeblock s)).
Proof.
  intros Hr Hlt. pose proof Hr as [A1 A2 A3 A4 A5]. set (b := freeblock s) in *. destruct (BBLOCK_45 b) as [Eb Em]; [change nmeta with 46 in A3; lia|].
  assert (forall a, a <> b -> a <> 45 -> balloc_D x D b a = D a) as Eo by (intros a Ha Ha2; unfold balloc_D; by rewrite !fn_lookup_insert_ne by (rewrite ?Eb; done)).
  change nmeta with 46 in A3. split; cbn [img freeblock set_freeblock].
  - intros a Ha Hn. rewrite A1 by done. f_equal. destruct (decide (a = b)) as [->|Hne]; [|by rewrite Eo]. rewrite balloc_D_at. apply A4. lia.
  - unfold balloc_D. rewrite Eb, Em, fn_lookup_insert_ne, fn_lookup_insert by lia. rewrite A2. rewrite Z2Nat.inj_add by lia. change (Z.to_nat 1) with 1%nat. rewrite Nat.add_1_r. cbn [bits]. by rewrite Z2Nat.id by lia.
  - change nmeta with 46. lia.
  - intros a Ha. rewrite Eo by lia. apply A4. lia.
  - apply (balloc_D_ok x mkfs_layout); [done|]. change (datastart x) with 46. change (sb_size x) with FSSIZE. lia.
Qed.

(** ** Blocks of a file that grows *)

(** The blocks of a file of [len] bytes, and its indirect block. *)
Record shape (D : Z -> list Z) (i : inode) (len : Z) : Prop := {
  sp_blk bn : in_file bn -> blk D i bn <> 0 <-> bn * BSIZE < len;
  sp_ind : ind i <> 0 <-> NDIRECT * BSIZE < len;
}.

(** How many blocks a file of [len] bytes has. *)
Definition blocks_of (len : Z) : Z := (len + BSIZE - 1) / BSIZE + (if NDIRECT * BSIZE <? len then 1 else 0).

(** What the byte at [off] needs, in a file of [off] bytes. *)
Definition cost (off : Z) : Z := if off mod BSIZE =? 0 then (if off =? NDIRECT * BSIZE then 2 else 1) else 0.

Lemma blocks_of_step off n : 0 <= off -> 0 < n <= BSIZE - off mod BSIZE -> blocks_of (off + n) = blocks_of off + cost off.
Proof.
  intros H0 Hn. unfold blocks_of, cost. change BSIZE with 1024 in *. change NDIRECT with 12.
  destruct (Z.eqb_spec (off mod 1024) 0), (Z.eqb_spec off (12 * 1024)), (Z.ltb_spec (12 * 1024) (off + n)), (Z.ltb_spec (12 * 1024) off); zdm.
Qed.

Lemma blocks_of_mono a b : 0 <= a <= b -> blocks_of a <= blocks_of b.
Proof. intros Hab. unfold blocks_of. change BSIZE with 1024. change NDIRECT with 12. destruct (Z.ltb_spec (12 * 1024) a), (Z.ltb_spec (12 * 1024) b); zdm. Qed.

Record found (s : mkst) D i (fbn c : Z) (r : Z * inode) (s' : mkst) D' : Prop := {
  fo_rep : rep s' D';
  fo_grown : grown x D i D' r.2;
  fo_addr : r.1 = blk D' r.2 fbn;
  fo_shape len : fbn * BSIZE < len <= (fbn + 1) * BSIZE -> shape D' r.2 len;
  fo_cost : freeblock s' = freeblock s + c;
  fo_ino : freeinode s' = freeinode s;
}.

Lemma wp_take {A} (k : Z -> M mkst A) s Q : wp (k (freeblock s) (set_freeblock (freeblock s + 1) s)) Q -> wp ((take_block ≫= k) s) Q.
Proof. done. Qed.

Lemma shape_there D i off len fbn : shape D i off -> fbn * BSIZE < off <= (fbn + 1) * BSIZE -> fbn * BSIZE < len <= (fbn + 1) * BSIZE -> shape D i len.
Proof.
  intros [A1 A2] Ho Hl. split; [intros bn Hb; rewrite A1 by done|rewrite A2]; change BSIZE with 1024 in *; change NDIRECT with 12 in *; lia.
Qed.

Lemma shape_added D i b D' i' fbn len : b <> 0 -> (forall bn, in_file bn -> blk D i bn <> 0 <-> bn < fbn) -> added x D i b (Some fbn) D' i' -> (ind i <> 0 <-> NDIRECT <= fbn) ->
  fbn * BSIZE < len <= (fbn + 1) * BSIZE -> shape D' i' len.
Proof.
  intros Hb A1 Ha Hi Hl. split; change BSIZE with 1024 in *; change NDIRECT with 12 in *.
  - intros bn Hbn. rewrite (ad_blk _ _ _ _ _ _ _ Ha) by done. case_decide as E; [injection E as ->; split; [lia|done]|]. rewrite A1 by done.
    assert (bn <> fbn) by congruence. lia.
  - rewrite (ad_ind _ _ _ _ _ _ _ Ha), decide_False, Hi by done. lia.
Qed.

Lemma room_b s D b : rep s D -> b = freeblock s -> b < FSSIZE -> datastart x <= b < sb_size x /\ used x D b = false /\ b <> 0.
Proof.
  intros Hr -> Hlt. pose proof (rp_free _ _ Hr) as Hf. change nmeta with 46 in Hf. change (datastart x) with 46. change (sb_size x) with FSSIZE. split; [lia|]. split; [|lia].
  rewrite (rep_used s) by (done || lia). apply bool_decide_eq_false_2. lia.
Qed.

(** The entry in the indirect block. *)
Definition find_entry (din : inode) (fbn : Z) : M mkst (Z * inode) :=
  let a := addrs din !!! Z.to_nat NDIRECT in
  indirect ← rsect a;
  let o := Z.to_nat (4 * (fbn - NDIRECT)) in
  if rd 4 indirect o =? 0 then
    b ← take_block;
    wsect a (wr 4 indirect o b);;
    mret (b, din)
  else mret (rd 4 indirect o, din).

Lemma find_entry_spec s D i off (fbn := off / BSIZE) :
  rep s D -> file_ok x D i -> (forall bn, in_file bn -> blk D i bn <> 0 <-> bn * BSIZE < off) -> ind i <> 0 -> 0 <= off -> NDIRECT <= fbn < MAXFILE ->
  let c := if off mod BSIZE =? 0 then 1 else 0 in
  freeblock s + c <= FSSIZE -> wp (find_entry i fbn s) (fun r s' => exists D', found s D i fbn c r s' D').
Proof.
  intros Hr Hf Hsh Hi H0 Hfbn c Hroom. pose proof (rp_disk _ _ Hr) as Hd. unfold find_entry. change (Z.to_nat NDIRECT) with 12%nat. fold (ind i).
  destruct (proj1 (rep_data s D (ind i) Hr) (fk_ind _ _ _ Hf Hi)) as [Hi1 Hi2]. change nmeta with 46 in Hi1. pose proof (rp_free _ _ Hr) as Hfree.
  assert (in_file fbn) as Hin by (unfold in_file; change NDIRECT with 12 in *; lia). eapply wp_rsect; [exact Hr|lia|lia|]. change NDIRECT with 12 in *.
  rewrite <- (blk_indirect D i fbn) by lia. assert (off = fbn * BSIZE + off mod BSIZE /\ 0 <= off mod BSIZE < BSIZE) as [Eo Em] by (unfold fbn; change BSIZE with 1024; zdm).
  destruct (Z.eqb_spec (blk D i fbn) 0) as [E0|E0].
  - assert (off mod BSIZE = 0) as E by (destruct (decide (off mod BSIZE = 0)); [done|]; destruct (proj2 (Hsh fbn Hin)); [lia|done]).
    unfold c in *. rewrite E in *. cbn [Z.eqb] in *. destruct (room_b s D _ Hr eq_refl ltac:(lia)) as (Hb & Hu & Hb0).
    apply wp_take. apply wp_modify, wp_ret. set (b := freeblock s) in *. pose proof (added_entry x mkfs_layout D Hd i Hf b Hb fbn ltac:(lia) Hi) as Ha.
    pose proof (rep_take s D Hr ltac:(lia)) as Hr1. eexists. split.
    + apply rep_write; [exact Hr1| |cbn [freeblock set_freeblock]; fold b; lia|lia].
      destruct (fd_blk _ _ Hd (ind i)) as [Hl Hby]; [change (sb_size x) with FSSIZE; lia|]. split; [rewrite length_wr; [done|rewrite Hl]|apply Forall_splice; [done|apply le_bytes_range]].
      change (Z.to_nat BSIZE) with 1024%nat. change MAXFILE with 268 in *. lia.
    + cbn [snd]. eapply (added_grown x mkfs_layout); [done|done|exact Hb|done|exact Ha|done].
    + cbn [fst snd]. rewrite (ad_blk _ _ _ _ _ _ _ Ha) by done. by rewrite decide_True.
    + intros len Hl. cbn [snd]. eapply shape_added; [exact Hb0| |exact Ha|change NDIRECT with 12; lia|exact Hl].
      intros bn Hbn. rewrite Hsh by done. change BSIZE with 1024 in *. lia.
    + done.
    + done.
  - apply wp_ret. assert (0 < off mod BSIZE) as Hpos by (apply Hsh in E0; [lia|done]).
    exists D. unfold c. rewrite (proj2 (Z.eqb_neq (off mod BSIZE) 0)) by lia. split; [done|by apply (grown_refl x)|done| |by rewrite Z.add_0_r|done].
    intros len Hl. cbn [snd]. apply (shape_there D i off len fbn); [|lia|done]. split; [done|]. split; [|done]. intros _. change NDIRECT with 12. change BSIZE with 1024 in *. lia.
Qed.

Lemma found_after s D i fbn c0 c s1 D1 i1 r s' D' :
  grown x D i D1 i1 -> freeblock s1 = freeblock s + c0 -> freeinode s1 = freeinode s -> found s1 D1 i1 fbn c r s' D' -> found s D i fbn (c0 + c) r s' D'.
Proof. intros Hg Hf1 Hi1 [A1 A2 A3 A4 A5 A6]. split; [done|by eapply (grown_trans x)|done|done|lia|congruence]. Qed.

Lemma find_block_spec s D i off (fbn := off / BSIZE) :
  rep s D -> file_ok x D i -> shape D i off -> 0 <= off -> in_file fbn -> freeblock s + cost off <= FSSIZE ->
  wp (find_block i fbn s) (fun r s' => exists D', found s D i fbn (cost off) r s' D').
Proof.
  intros Hr Hf Hsh H0 Hin Hroom. pose proof (rp_disk _ _ Hr) as Hd. pose proof Hsh as [Hsb Hsi]. unfold find_block.
  assert (off = fbn * BSIZE + off mod BSIZE /\ 0 <= off mod BSIZE < BSIZE) as [Eo Em] by (unfold fbn; change BSIZE with 1024; zdm).
  change NDIRECT with 12 in *. unfold cost in *. change NDIRECT with 12 in *. change (Z.to_nat 12) with 12%nat. unfold in_file in Hin. destruct (Z.ltb_spec fbn 12) as [Hlt|Hge].
  - rewrite <- (blk_direct D) by done. destruct (Z.eqb_spec (blk D i fbn) 0) as [E0|E0].
    + assert (off mod BSIZE = 0) as E by (destruct (decide (off mod BSIZE = 0)); [done|]; destruct (proj2 (Hsb fbn Hin)); [lia|done]). rewrite E in *. cbn [Z.eqb] in *.
      rewrite (proj2 (Z.eqb_neq off (12 * BSIZE))) in * by (change BSIZE with 1024 in *; lia). destruct (room_b s D _ Hr eq_refl ltac:(lia)) as (Hb & Hu & Hb0).
      apply wp_take, wp_ret. set (b := freeblock s) in *. pose proof (added_direct x mkfs_layout D Hd i Hf b Hb Hu fbn ltac:(lia)) as Ha.
      exists (balloc_D x D b). split; cbn [fst snd]; [by apply rep_take; [|lia]|eapply (added_grown x mkfs_layout); [done|done|exact Hb|done|exact Ha|done]| | |done|done].
      * rewrite (ad_blk _ _ _ _ _ _ _ Ha) by done. by rewrite decide_True.
      * intros len Hl. eapply shape_added; [exact Hb0| |exact Ha| |exact Hl]; [|rewrite Hsi; change NDIRECT with 12; change BSIZE with 1024 in *; lia].
        intros bn Hbn. rewrite Hsb by done. change BSIZE with 1024 in *. lia.
    + apply wp_ret. assert (0 < off mod BSIZE) as Hpos by (apply Hsb in E0; [lia|done]). rewrite (proj2 (Z.eqb_neq (off mod BSIZE) 0)) by lia.
      exists D. split; [done|by apply (grown_refl x)|done| |by rewrite Z.add_0_r|done]. intros len Hl. cbn [snd]. apply (shape_there D i off len fbn); [done|lia|done].
  - fold (ind i). change MAXFILE with 268 in *. destruct (Z.eqb_spec (ind i) 0) as [E0|E0].
    + assert (off = 12 * BSIZE) as E.
      { destruct (decide (12 * BSIZE < off)) as [Hx|Hx]; [by apply Hsi in Hx|]. change BSIZE with 1024 in *. lia. }
      assert (off mod BSIZE = 0) as Em0 by (rewrite E; by apply Z.mod_mul). rewrite Em0, E in Hroom. rewrite Em0. cbn [Z.eqb] in *. rewrite (proj2 (Z.eqb_eq off _) E). rewrite Z.eqb_refl in Hroom.
      destruct (room_b s D _ Hr eq_refl ltac:(lia)) as (Hb & Hu & Hb0). apply wp_bind, wp_take, wp_ret. set (b := freeblock s) in *.
      pose proof (added_ind x mkfs_layout D Hd i Hf b Hb E0) as Ha. pose proof (rep_take s D Hr ltac:(lia)) as Hr1. fold b in Hr1.
      pose proof (added_grown x mkfs_layout D i b None _ _ Hd Hf Hb Hu Ha E0) as Hg.
      assert (ind (with_addr 12 b i) = b) as Ei by (rewrite (ad_ind _ _ _ _ _ _ _ Ha); by rewrite decide_True).
      eapply wp_mono; [apply (find_entry_spec _ _ (with_addr 12 b i) off Hr1)|].
      * apply Hg.
      * intros bn Hbn. rewrite (ad_blk _ _ _ _ _ _ _ Ha) by done. by rewrite decide_False, Hsb by done.
      * by rewrite Ei.
      * done.
      * fold fbn. change NDIRECT with 12. change MAXFILE with 268. lia.
      * rewrite Em0. cbn [Z.eqb freeblock set_freeblock]. lia.
      * rewrite Em0. cbn [Z.eqb]. intros r s' (D' & Hfo). exists D'. exact (found_after s D i fbn 1 1 (set_freeblock (b + 1) s) _ _ r s' D' Hg eq_refl eq_refl Hfo).
    + assert (12 * BSIZE < off) as E by (by apply Hsi). rewrite (proj2 (Z.eqb_neq off (12 * BSIZE))) in * by lia. apply wp_bind, wp_ret.
      eapply wp_mono; [apply (find_entry_spec s D i off Hr Hf Hsb E0 H0); [fold fbn; change NDIRECT with 12; change MAXFILE with 268; lia|exact Hroom]|]. done.
Qed.

(** ** [iappend] *)

Lemma wp_winode ino i s D Q : rep s D -> inum i = ino -> 0 <= ino < NINODES -> inode_fits i ->
  (forall s', rep s' (iupdate_D x D i) -> freeblock s' = freeblock s -> freeinode s' = freeinode s -> Q tt s') -> wp (winode ino i s) Q.
Proof.
  intros Hr Hi Hn Hfit HQ. pose proof (IBLOCK_range x mkfs_layout ino Hn) as Hib. change (inodestart x) with 32 in Hib. change (bmapstart x) with 45 in Hib.
  pose proof (rp_free _ _ Hr) as Hf. change nmeta with 46 in Hf. unfold winode. eapply wp_rsect; [exact Hr|lia|lia|]. unfold wsect, modify. cbn [wp].
  apply HQ; [|done|done]. subst ino. apply rep_write; [done| |lia|lia]. apply store_dinode_ok; [apply Hfit|]. apply (iblock_ok x mkfs_layout D (inum i) (rp_disk _ _ Hr) Hn).
Qed.

(** A state of the kernel's file system that has [i] locked, for the lemmas about [writei]. *)
Definition holder (i : inode) : fsst ram := mk_fsst (fun _ => []) (mk_phys ∅ 0) [i] x.

Section append.
Context (i0 : inode) (D0 : Z -> list Z) (off0 : Z) (w : list Z) (Hoff : 0 <= off0) (Hmax : off0 + length w <= MAXFILE * BSIZE) (Hw : Forall (fun b => 0 <= b < 256) w).

Lemma append_step D i tot D1 i1 m : written_ x i0 D0 off0 w D i tot -> grown x D i D1 i1 -> 0 <= tot < length w ->
  let off := off0 + tot in let a := blk D1 i1 (off / BSIZE) in m = Z.min (length w - tot) (BSIZE - off mod BSIZE) -> a <> 0 ->
  written_ x i0 D0 off0 w (<[a := splice (D1 a) (Z.to_nat (off mod BSIZE)) (take (Z.to_nat m) (drop (Z.to_nat tot) w))]> D1) i1 (tot + m).
Proof.
  intros Hwr Hg Ht off a Hm Ha. exact (written_block (holder i0) mkfs_layout 0 ltac:(simpl; lia) D0 off0 (length w) w Hoff ltac:(lia) Hmax ltac:(lia) Hw D i tot D1 i1 m Hwr Hg Ht Hm Ha).
Qed.

Lemma iappend_loop_spec (fuel : nat) s D i tot :
  written_ x i0 D0 off0 w D i tot -> rep s D -> shape D i (off0 + tot) -> 0 <= tot <= length w -> length w - tot < fuel ->
  freeblock s + blocks_of (off0 + length w) - blocks_of (off0 + tot) <= FSSIZE ->
  wp (iappend_loop fuel i (off0 + tot) (drop (Z.to_nat tot) w) s) (fun r s' => exists D', r.2 = off0 + length w /\ written_ x i0 D0 off0 w D' r.1 (length w) /\ rep s' D' /\
    shape D' r.1 (off0 + length w) /\ freeblock s' = freeblock s + blocks_of (off0 + length w) - blocks_of (off0 + tot) /\ freeinode s' = freeinode s).
Proof.
  revert s D i tot. induction fuel as [|fuel IH]; intros s D i tot Hwr Hr Hsh Ht Hfu Hroom; [lia|]. cbn [iappend_loop]. rewrite length_drop.
  set (off := off0 + tot) in *. assert (0 <= off) as Hoff' by (unfold off; lia).
  assert (off = off / BSIZE * BSIZE + off mod BSIZE /\ 0 <= off mod BSIZE < BSIZE) as [Eo Em] by (change BSIZE with 1024; zdm).
  destruct (Z.ltb_spec 0 (length w - Z.to_nat tot)%nat) as [Hlt|Hge].
  2:{ assert (tot = length w) as E by lia. apply wp_ret. exists D. cbn [fst snd]. rewrite <- E. split_and!; [done|done|done|done|unfold off; lia|done]. }
  assert (in_file (off / BSIZE)) as Hin by (unfold in_file; change MAXFILE with 268 in *; change BSIZE with 1024 in *; zdm).
  rewrite (proj2 (Z.ltb_lt (off / BSIZE) MAXFILE)) by apply Hin. cbn [negb]. set (m := Z.min (length w - tot) (BSIZE - off mod BSIZE)).
  assert (0 < m <= BSIZE - off mod BSIZE /\ m <= length w - tot) as [Hm1 Hm2] by (unfold m; lia).
  pose proof (blocks_of_step off m Hoff' Hm1) as Hbo. pose proof (blocks_of_mono (off + m) (off0 + length w) ltac:(unfold off in *; lia)) as Hmo.
  wp_step (find_block_spec s D i off Hr (fs_file _ _ _ _ _ (wr_step _ _ _ _ _ _ _ _ Hwr)) Hsh Hoff' Hin ltac:(lia)). intros [a i1] s1 (D1 & [F1 F2 F3 F4 F5 F6]). cbn [fst snd] in *.
  assert (a <> 0) as Ha0 by (rewrite F3; apply (sp_blk _ _ _ (F4 ((off / BSIZE + 1) * BSIZE) ltac:(change BSIZE with 1024; lia))); [done|change BSIZE with 1024; lia]).
  pose proof (fs_file _ _ _ _ _ (gr_step _ _ _ _ _ F2)) as Hf1. assert (data_ok x D1 a) as Hda by (rewrite F3; apply (fk_blk _ _ _ Hf1); [done|by rewrite <- F3]).
  apply (rep_data s1) in Hda; [|done]. change nmeta with 46 in Hda. pose proof (rp_free _ _ F1) as Hfr1.
  eapply wp_rsect; [exact F1|lia|lia|]. apply wp_modify. cbv beta.
  assert (Z.min (length w - Z.to_nat tot)%nat ((off / BSIZE + 1) * BSIZE - off) = m) as -> by (unfold m; lia). assert (off - off / BSIZE * BSIZE = off mod BSIZE) as -> by lia.
  pose proof (append_step D i tot D1 i1 m Hwr F2 ltac:(lia) eq_refl) as Hwr'. cbv zeta in Hwr'. fold off in Hwr'. rewrite <- F3 in Hwr'. specialize (Hwr' Ha0).
  set (v := splice _ _ _) in *. destruct (fd_blk _ _ (rp_disk _ _ F1) a) as [Hl Hb]; [change (sb_size x) with FSSIZE; lia|].
  assert (block_ok v) as Hv.
  { split; [|apply Forall_splice; [done|by apply Forall_take, Forall_drop]]. unfold v. rewrite length_splice; [done|]. rewrite length_take, length_drop, Hl. lia. }
  assert (shape (<[a := v]> D1) i1 (off + m)) as Hsh'.
  { destruct (F4 (off + m) ltac:(lia)) as [G1 G2]. split; [|done]. intros bn Hbn. rewrite F3, (write_blk x); [by apply G1|done|done|done]. }
  replace (off + m) with (off0 + (tot + m)) in * by (unfold off; lia). rewrite drop_drop. replace (Z.to_nat tot + Z.to_nat m)%nat with (Z.to_nat (tot + m)) by lia.
  eapply wp_mono; [apply (IH _ (<[a := v]> D1) i1 (tot + m)); [exact Hwr'|apply rep_write; [done|done|lia|lia]|done|lia|lia|cbn [freeblock set_img]; lia]|].
  intros r s' (D' & R1 & R2 & R3 & R4 & R5 & R6). exists D'. cbn [freeblock freeinode set_img] in R5, R6. split_and!; [done|done|done|done|lia|congruence].
Qed.
End append.

(** ** All files *)

Definition din (D : Z -> list Z) (ino : Z) : inode := disk_inode x D ino (mk_inode 0 ino 0 0 false 0 0 0 0 0 []).

(** Inode [ino] is a file of type [ty] with contents [c], zero after their end. *)
Record file_at (D : Z -> list Z) (ino ty : Z) (c : list Z) : Prop := {
  fa_meta : itype (din D ino) = ty /\ nlink (din D ino) = 1 /\ isize (din D ino) = length c;
  fa_fits : inode_fits (din D ino);
  fa_ok : file_ok x D (din D ino);
  fa_shape : shape D (din D ino) (length c);
  fa_byte pos : 0 <= pos -> in_file (pos / BSIZE) -> fbyte D (din D ino) pos = if decide (pos < length c) then c !!! Z.to_nat pos else 0;
  fa_max : length c <= MAXFILE * BSIZE;
}.

Lemma fa_full D ino ty c : file_at D ino ty c -> file_full D (din D ino).
Proof.
  intros [(_ & _ & Es) _ _ [Hs _] _ Hm]. split; rewrite Es; [lia|]. intros bn H0 Hlt. apply Hs; [|done]. unfold in_file. change MAXFILE with 268 in *. change BSIZE with 1024 in *. lia.
Qed.

(** A change of inode [ino] and of its file: [i'] is the new inode. *)
Record changed (D : Z -> list Z) (ino : Z) (D' : Z -> list Z) (i' : inode) : Prop := {
  ch_foreign no : foreign x D (din D ino) no -> no <> IBLOCK ino x -> D' no = D no /\ foreign x D' i' no;
  ch_inode ino' j : 0 <= ino' < NINODES -> disk_inode x D' ino' j = if decide (ino' = ino) then on_mem i' j else disk_inode x D ino' j;
}.

Lemma foreign_other D ino ino' a : 0 <= ino < NINODES -> file_ok x D (din D ino') -> owns D (din D ino') a -> ~ owns D (din D ino) a -> foreign x D (din D ino) a /\ a <> IBLOCK ino x.
Proof.
  intros Hi Hf Ho Hn. pose proof (owns_data x _ _ _ Hf Ho) as Hda. split; [split; [by right|done]|]. destruct Hda as [Hda _]. change (datastart x) with 46 in Hda.
  pose proof (IBLOCK_range x mkfs_layout ino Hi) as Hib. change (bmapstart x) with 45 in Hib. lia.
Qed.

Lemma file_frame D ino D' i' ino' ty c : changed D ino D' i' -> 0 <= ino < NINODES -> 0 <= ino' < NINODES -> ino' <> ino -> file_at D ino' ty c ->
  (forall a, owns D (din D ino') a -> ~ owns D (din D ino) a) ->
  file_at D' ino' ty c /\ forall a, owns D' (din D' ino') a -> owns D (din D ino') a /\ ~ owns D' i' a.
Proof.
  intros [Hfo Hin] Hi Hi' Hne [A1 A2 A3 A4 A5 A6] Hap. assert (din D' ino' = din D ino') as E by (unfold din; by rewrite Hin, decide_False). set (j := din D ino') in *.
  assert (forall a, owns D j a -> D' a = D a /\ data_ok x D' a /\ ~ owns D' i' a) as Hkeep.
  { intros a Ha. pose proof (owns_data x _ _ _ A3 Ha) as [Hda _]. destruct (foreign_other D ino ino' a Hi A3 Ha (Hap a Ha)) as [Hf Hib]. destruct (Hfo a Hf Hib) as [Ea [Hd Hn]].
    split; [done|]. split; [|done]. destruct Hd as [Hd|]; [|done]. change (bmapstart x) with 45 in Hd. change (datastart x) with 46 in Hda. lia. }
  assert (forall bn, blk D' j bn = blk D j bn) as Eb by (intros bn; apply blk_ext; intros Hi0; apply Hkeep; split; [done|by left]).
  assert (forall bn, in_file bn -> blk D j bn <> 0 -> owns D j (blk D j bn)) as Hob by (intros bn Hb H0; split; [done|right; by exists bn]).
  split; [split; rewrite ?E; try done|].
  - split; [apply A3|..].
    + intros bn Hb. rewrite Eb. intros H0. by apply Hkeep, Hob.
    + intros H0. apply Hkeep. split; [done|by left].
    + intros b1 b2. rewrite !Eb. apply (fk_inj _ _ _ A3).
    + intros bn. rewrite Eb. apply (fk_ind_ne _ _ _ A3).
  - destruct A4 as [S1 S2]. split; [|done]. intros bn. rewrite Eb. apply S1.
  - intros pos H0 Hp. rewrite <- A5 by done. unfold fbyte. rewrite Eb. destruct (Z.eqb_spec (blk D j (pos / BSIZE)) 0) as [|Hb0]; [done|]. by rewrite (proj1 (Hkeep _ (Hob _ Hp Hb0))).
  - intros a Ha. rewrite E in Ha. assert (owns D j a) as Ha'; [|split; [done|by apply Hkeep]].
    destruct Ha as (H0 & [Ei|(bn & Hb & Ei)]); (split; [done|]); [by left|right; exists bn; by rewrite <- Eb].
Qed.

Fixpoint total (C : list (Z * list Z)) : Z := match C with [] => 0 | (_, c) :: C => blocks_of (length c) + total C end.

Lemma total_insert C k ty c c' : C !! k = Some (ty, c) -> total (<[k := (ty, c')]> C) = total C + blocks_of (length c') - blocks_of (length c).
Proof. revert k. induction C as [|[ty0 c0] C IH]; intros [|k] E; simplify_eq/=; [lia|]. rewrite (IH k E). lia. Qed.

Lemma total_app C C' : total (C ++ C') = total C + total C'.
Proof. induction C as [|[ty c] C IH]; [done|]. simpl. rewrite IH. lia. Qed.

(** The files so far, by inode number. *)
Record whole (s : mkst) (D : Z -> list Z) (C : list (Z * list Z)) : Prop := {
  wh_rep : rep s D;
  wh_num : freeinode s = length C + 1 /\ length C + 1 <= NINODES;
  wh_file (k : nat) ty c : C !! k = Some (ty, c) -> file_at D (k + 1) ty c;
  wh_apart (k k' : nat) a : (k < length C)%nat -> (k' < length C)%nat -> k <> k' -> owns D (din D (k + 1)) a -> ~ owns D (din D (k' + 1)) a;
  wh_blocks : freeblock s = nmeta + total C;
  wh_none ino : length C < ino < NINODES -> itype (din D ino) = 0 /\ addrs (din D ino) = repeat 0 13;
  wh_meta : D 1 = splice zeroes 0 (sb_bytes x) /\ D 2 = zeros;
}.

Lemma whole_file s D C (k : nat) : whole s D C -> (k < length C)%nat -> exists ty c, C !! k = Some (ty, c) /\ file_at D (k + 1) ty c.
Proof. intros Hw Hk. destruct (lookup_lt_is_Some_2 C k Hk) as [[ty c] E]. exists ty, c. split; [done|]. by apply (wh_file _ _ _ Hw). Qed.

Lemma owns_same D i j a : addrs i = addrs j -> owns D i a -> owns D j a.
Proof. intros E (H0 & [Ha|(bn & Hb & Ha)]); (split; [done|]); [left; rewrite Ha; unfold ind; by rewrite E|right; exists bn; split; [done|]; by rewrite Ha, (blk_same D i j)]. Qed.

Lemma meta_foreign D ino ty c no : file_at D ino ty c -> 0 <= no < 32 -> 0 <= ino < NINODES -> foreign x D (din D ino) no /\ no <> IBLOCK ino x.
Proof.
  intros Hf Hno Hi. pose proof (IBLOCK_range x mkfs_layout ino Hi) as Hib. change (inodestart x) with 32 in Hib. split; [|lia].
  split; [left; change (bmapstart x) with 45; lia|]. intros Ho. destruct (owns_data x _ _ _ (fa_ok _ _ _ _ Hf) Ho) as [Hd _]. change (datastart x) with 46 in Hd. lia.
Qed.

Lemma whole_change s D C (k : nat) ty c s' D' i' c' :
  whole s D C -> C !! k = Some (ty, c) -> changed D (k + 1) D' i' -> file_at D' (k + 1) ty c' -> rep s' D' -> freeinode s' = freeinode s ->
  freeblock s' = freeblock s + blocks_of (length c') - blocks_of (length c) -> whole s' D' (<[k := (ty, c')]> C).
Proof.
  intros [W1 W2 W3 W4 W5 W6 W7] Ek Hch Hf' Hr' Hi' Hb'. pose proof (lookup_lt_Some _ _ _ Ek) as Hk. pose proof (W3 _ _ _ Ek) as Hfk.
  assert (forall n : nat, (n < length C)%nat -> 0 <= n + 1 < NINODES) as Hn by lia. pose proof Hch as [Hfo Hin].
  assert (addrs (din D' (k + 1)) = addrs i') as Ea by (unfold din; rewrite Hin, decide_True by (done || (apply Hn; lia)); done).
  assert (forall n : nat, (n < length C)%nat -> n <> k -> exists ty c, C !! n = Some (ty, c) /\ file_at D' (n + 1) ty c /\
    forall a, owns D' (din D' (n + 1)) a -> owns D (din D (n + 1)) a /\ ~ owns D' i' a) as Hoth.
  { intros n Hlt Hne. destruct (lookup_lt_is_Some_2 C n Hlt) as [[ty' c0] E]. exists ty', c0. split; [done|].
    apply (file_frame D (k + 1) D' i'); [done|apply Hn; lia|apply Hn; lia|lia|by apply W3|]. intros a Ho. by apply (W4 n k). }
  split; rewrite ?length_insert.
  - done.
  - lia.
  - intros n ty' c0. destruct (decide (n = k)) as [->|Hne].
    + rewrite list_lookup_insert_eq by done. intros [= <- <-]. done.
    + rewrite list_lookup_insert_ne by done. intros E. destruct (Hoth n (lookup_lt_Some _ _ _ E) Hne) as (ty2 & c2 & E2 & Hf2 & _). congruence.
  - intros n n' a H1 H2 Hne Ho Ho'. destruct (decide (n = k)) as [->|Hnk].
    + destruct (Hoth n' H2 ltac:(done)) as (_ & _ & _ & _ & Hx). destruct (Hx a Ho') as [_ Hno]. apply Hno. by eapply owns_same; [|exact Ho].
    + destruct (Hoth n H1 Hnk) as (_ & _ & _ & _ & Hx). destruct (Hx a Ho) as [Ho1 Hno]. destruct (decide (n' = k)) as [->|Hnk'].
      * apply Hno. by eapply owns_same; [|exact Ho'].
      * destruct (Hoth n' H2 Hnk') as (_ & _ & _ & _ & Hx'). destruct (Hx' a Ho') as [Ho1' _]. by apply (W4 n n' a).
  - rewrite (total_insert C k ty c c' Ek). lia.
  - intros ino Hino. unfold din. rewrite Hin, decide_False by lia. by apply W6.
  - destruct (meta_foreign D (k + 1) ty c 1 Hfk ltac:(lia) ltac:(lia)) as [M1 M2], (meta_foreign D (k + 1) ty c 2 Hfk ltac:(lia) ltac:(lia)) as [M3 M4].
    rewrite (proj1 (Hfo 1 M1 M2)), (proj1 (Hfo 2 M3 M4)). done.
Qed.

(** What appending does to the file, in terms of the loop's result. *)
Section appended.
Context (D : Z -> list Z) (ino ty : Z) (c p : list Z) (Hino : 0 <= ino < NINODES) (Hf : file_at D ino ty c) (Hp : Forall (fun b => 0 <= b < 256) p) (Hmax : length c + length p <= MAXFILE * BSIZE)
  (D1 : Z -> list Z) (i1 : inode) (Hwr : written_ x (din D ino) D (length c) p D1 i1 (length p)) (Hsh : shape D1 i1 (length c + length p)).

Abbreviation i' := (with_size (length c + length p) i1).
Abbreviation D' := (iupdate_D x D1 i').

Lemma appended_fits : inode_fits i'.
Proof. destruct (wr_step _ _ _ _ _ _ _ _ Hwr) as [_ Hf1 Hrest _]. apply (fits_with_size x mkfs_layout D1 i1 (din D ino)); [apply Hf|done|done|lia]. Qed.

Lemma appended_inum : inum i' = ino.
Proof. cbn [inum with_size]. by rewrite (fs_rest _ _ _ _ _ (wr_step _ _ _ _ _ _ _ _ Hwr)). Qed.

Lemma appended_done : writei_done_ x (din D ino) D (length c) (length p) p D' i' (length p).
Proof.
  pose proof (fa_full _ _ _ _ Hf) as Hfull. destruct Hf as [(_ & _ & Es) A2 A3 A4 A5 A6]. assert (Z.max (isize (din D ino)) (length c + length p) = length c + length p) as Em by lia. rewrite <- Em.
  apply (writei_done_intro (holder (din D ino)) mkfs_layout 0 ltac:(simpl; lia) D (length c) (length p) p); [lia|done|lia|exact Hino|done|exact Hfull|cbn [itable holder]; change ([din D ino] !!! 0%nat) with (din D ino); lia|done|lia|done|lia].
Qed.

Lemma appended_din : din D' ino = on_mem i' (mk_inode 0 ino 0 0 false 0 0 0 0 0 []).
Proof. unfold din. rewrite (wd_inode _ _ _ _ _ _ _ _ _ appended_done) by done. by rewrite decide_True. Qed.

Lemma appended_changed : changed D ino D' i'.
Proof. split; [apply (wd_foreign _ _ _ _ _ _ _ _ _ appended_done)|apply (wd_inode _ _ _ _ _ _ _ _ _ appended_done)]. Qed.

Lemma appended_blk bn : blk D' (din D' ino) bn = blk D1 i1 bn.
Proof.
  rewrite appended_din. transitivity (blk D' i1 bn); [by apply blk_same|]. apply blk_ext. intros Hi. apply iupdate_D_other. rewrite appended_inum.
  destruct (fk_ind _ _ _ (fs_file _ _ _ _ _ (wr_step _ _ _ _ _ _ _ _ Hwr)) Hi) as [Hd _]. change (datastart x) with 46 in Hd.
  pose proof (IBLOCK_range x mkfs_layout ino Hino) as Hib. change (bmapstart x) with 45 in Hib. lia.
Qed.

Lemma appended_file : file_at D' ino ty (c ++ p).
Proof.
  pose proof (wr_step _ _ _ _ _ _ _ _ Hwr) as [Hd1 Hf1 Hrest _]. destruct Hf as [(Et & En & Es) A2 A3 A4 A5 A6]. pose proof appended_done as [_ _ Hok' _ _ _ _ _ _].
  split; rewrite ?length_app, ?Nat2Z.inj_add.
  - rewrite appended_din. cbn [itype nlink isize on_mem with_size]. by rewrite Hrest.
  - rewrite appended_din. destruct appended_fits. by split.
  - rewrite appended_din. destruct Hok' as [K1 K2 K3 K4 K5]. by split.
  - destruct Hsh as [S1 S2]. split; [intros bn; rewrite appended_blk; apply S1|]. rewrite appended_din. exact S2.
  - intros pos H0 Hin. transitivity (fbyte D1 i1 pos).
    + unfold fbyte. rewrite appended_blk. destruct (Z.eqb_spec (blk D1 i1 (pos / BSIZE)) 0) as [|Hb0]; [done|]. f_equal. apply iupdate_D_other. rewrite appended_inum.
      destruct (fk_blk _ _ _ Hf1 _ Hin Hb0) as [Hd _]. change (datastart x) with 46 in Hd. pose proof (IBLOCK_range x mkfs_layout ino Hino) as Hib. change (bmapstart x) with 45 in Hib. lia.
    + rewrite (wr_byte _ _ _ _ _ _ _ _ Hwr) by done. rewrite A5 by done. destruct (decide (pos < length c)) as [Hl|Hl].
      * rewrite decide_False, decide_True by lia. by rewrite lookup_total_app_l by lia.
      * destruct (decide (pos < length c + length p)) as [Hl2|Hl2]; [|by rewrite !decide_False by lia]. rewrite !decide_True by lia.
        rewrite lookup_total_app_r by lia. f_equal. lia.
  - done.
Qed.
End appended.

Lemma iappend_spec s D C (k : nat) ty c p :
  whole s D C -> C !! k = Some (ty, c) -> Forall (fun b => 0 <= b < 256) p -> length c + length p <= MAXFILE * BSIZE ->
  nmeta + total (<[k := (ty, c ++ p)]> C) <= FSSIZE ->
  wp (iappend (k + 1) p s) (fun _ s' => exists D', whole s' D' (<[k := (ty, c ++ p)]> C)).
Proof.
  intros Hw Ek Hp Hmax Hroom. pose proof Hw as [W1 W2 W3 W4 W5 W6 W7]. pose proof (W3 _ _ _ Ek) as Hf. pose proof (lookup_lt_Some _ _ _ Ek) as Hk.
  assert (0 <= k + 1 < NINODES) as Hino by lia. rewrite (total_insert C k ty c (c ++ p) Ek), length_app, Nat2Z.inj_add in Hroom.
  pose proof (IBLOCK_range x mkfs_layout (k + 1) Hino) as Hib. change (inodestart x) with 32 in Hib. change (bmapstart x) with 45 in Hib.
  unfold iappend, rinode. apply wp_bind. eapply wp_rsect; [exact W1|change FSSIZE with 2000; lia|lia|]. apply wp_ret.
  change (load_dinode (D (IBLOCK (k + 1) x)) (dip_off (k + 1)) (mk_inode 0 (k + 1) 0 0 false 0 0 0 0 0 [])) with (din D (k + 1)).
  rewrite (proj2 (proj2 (fa_meta _ _ _ _ Hf))).
  assert (written_ x (din D (k + 1)) D (length c) p D (din D (k + 1)) 0) as Hw0.
  { split; [apply file_step_refl; [apply W1|apply Hf]| |done|intros; lia]. intros pos _. by rewrite decide_False by lia. }
  pose proof (iappend_loop_spec (din D (k + 1)) D (length c) p ltac:(lia) Hmax Hp (S (length p)) s D (din D (k + 1)) 0 Hw0 W1) as Hl. rewrite !Z.add_0_r in Hl.
  wp_step Hl; [apply Hf|lia|lia|lia|]. clear Hl. intros [i1 off] s1 (D1 & E & Hwr & Hr1 & Hsh & Hb1 & Hi1). cbn [fst snd] in *. subst off.
  eapply (wp_winode _ _ s1 D1); [done|by eapply appended_inum|done|by eapply appended_fits|]. intros s' Hr' Hb' Hi'. eexists. eapply whole_change; [exact Hw|exact Ek|by eapply appended_changed| |exact Hr'|congruence|].
  - by eapply appended_file.
  - rewrite length_app, Nat2Z.inj_add. lia.
Qed.

Lemma lookup_zeros n k : (k < n)%nat -> repeat 0 n !! k = Some 0.
Proof. revert k. induction n as [|n IH]; intros [|k] Hk; [lia|lia|done|]. apply IH. lia. Qed.

Lemma no_blocks D i : addrs i = repeat 0 13 -> ind i = 0 /\ (forall bn, in_file bn -> blk D i bn = 0) /\ forall a, ~ owns D i a.
Proof.
  intros Ea. assert (ind i = 0) as Hi by (unfold ind; by rewrite Ea).
  assert (forall bn, in_file bn -> blk D i bn = 0) as Hb.
  { intros bn Hbn. unfold blk. rewrite Hi. destruct (Z.ltb_spec bn 12) as [Hlt|]; [|done]. unfold in_file in Hbn. rewrite Ea. apply list_lookup_total_correct, lookup_zeros. lia. }
  split; [done|]. split; [done|]. intros a (H0 & [Ha|(bn & Hbn & Ha)]); [by rewrite Hi in Ha|by rewrite Hb in Ha].
Qed.

(** A new inode. *)
Definition new_inode (ino ty : Z) : inode := mk_inode 0 ino 0 0 false ty 0 0 1 0 (repeat 0 13).

Section new.
Context (D : Z -> list Z) (ino ty : Z) (Hty : - 2 ^ 15 <= ty < 2 ^ 15) (Hino : 0 <= ino < NINODES) (Hd : fs_disk x D).

Lemma new_fits : inode_fits (new_inode ino ty).
Proof. split; try done; by repeat constructor. Qed.

Abbreviation D' := (iupdate_D x D (new_inode ino ty)).

Lemma new_din : din D' ino = on_mem (new_inode ino ty) (mk_inode 0 ino 0 0 false 0 0 0 0 0 []).
Proof. unfold din. rewrite (iupdate_D_inode x mkfs_layout); [by rewrite decide_True|done|done|apply new_fits|done]. Qed.

Lemma file_new : file_at D' ino ty [].
Proof.
  destruct (no_blocks D' (din D' ino)) as (Hi & Hb & Ho); [by rewrite new_din|]. split; [rewrite new_din; done|rewrite new_din; destruct new_fits; by split| | | |done].
  - split; [rewrite new_din; done|intros bn Hbn; by rewrite Hb|by rewrite Hi|intros b1 b2 H1 _; by rewrite Hb|by rewrite Hi].
  - split; [intros bn Hbn; rewrite Hb by done; unfold in_file in Hbn; change BSIZE with 1024; simpl; lia|]. rewrite Hi. change NDIRECT with 12. change BSIZE with 1024. simpl. lia.
  - intros pos H0 Hp. rewrite decide_False by (simpl; lia). unfold fbyte. by rewrite Hb.
Qed.

Lemma new_changed : changed D ino D' (new_inode ino ty).
Proof.
  split.
  - intros no [Hno _] Hn. split; [by apply iupdate_D_other|]. split; [|by apply no_blocks]. destruct Hno as [|[Hr Hu]]; [by left|right]. split; [done|].
    rewrite (iupdate_D_used x mkfs_layout); [done|done|]. change (datastart x) with 46 in Hr. lia.
  - intros ino' j Hi. rewrite (iupdate_D_inode x mkfs_layout); [done|done|done|apply new_fits|done].
Qed.
End new.

Lemma ialloc_spec s D C ty : whole s D C -> - 2 ^ 15 <= ty < 2 ^ 15 -> length C + 2 <= NINODES ->
  wp (mk_ialloc ty s) (fun r s' => r = length C + 1 /\ exists D', whole s' D' (C ++ [(ty, [])])).
Proof.
  intros Hw Hty Hroom. pose proof Hw as [W1 W2 W3 W4 W5 W6 W7]. unfold mk_ialloc. apply wp_gets, wp_modify. cbv beta. destruct W2 as [-> _]. set (ino := length C + 1) in *.
  assert (0 <= ino < NINODES) as Hino by (unfold ino; lia). pose proof (rp_disk _ _ W1) as Hd. fold (new_inode ino ty). apply wp_bind.
  assert (rep (set_freeinode (ino + 1) s) D) as W1' by (by destruct W1). eapply (wp_winode _ _ _ D); [exact W1'|done|done|by apply new_fits|].
  intros s' Hr' Hb' Hi'. apply wp_ret. split; [done|]. exists (iupdate_D x D (new_inode ino ty)). set (D' := iupdate_D _ _ _) in *.
  pose proof (new_changed D ino ty Hty Hino Hd) as Hch. pose proof (file_new D ino ty Hty Hino Hd) as Hfn. fold D' in Hch, Hfn. destruct (W6 ino) as [_ Ea]; [unfold ino; lia|].
  assert (forall a, ~ owns D' (din D' ino) a) as Hno by (apply no_blocks; unfold D'; by rewrite new_din).
  assert (forall n : nat, (n < length C)%nat -> exists ty c, C !! n = Some (ty, c) /\ file_at D' (n + 1) ty c /\ forall a, owns D' (din D' (n + 1)) a -> owns D (din D (n + 1)) a) as Hoth.
  { intros n Hn. destruct (whole_file _ _ _ n Hw Hn) as (ty' & c' & E & Hf). exists ty', c'. split; [done|].
    destruct (file_frame D ino D' _ (n + 1) ty' c' Hch Hino ltac:(lia) ltac:(lia) Hf) as [Hf' Ho]; [intros a _; by apply no_blocks|]. split; [done|]. intros a Ha. by apply Ho. }
  split; rewrite ?length_app; cbn [length].
  - done.
  - cbn [freeinode set_freeinode] in Hi'. lia.
  - intros n ty' c'. destruct (decide (n < length C)%nat) as [Hn|Hn].
    + rewrite lookup_app_l by done. intros E. destruct (Hoth n Hn) as (ty2 & c2 & E2 & Hf2 & _). congruence.
    + intros E. pose proof (lookup_lt_Some _ _ _ E) as Hl. rewrite length_app in Hl. simpl in Hl. assert (n = length C) as -> by lia. rewrite list_lookup_middle in E by done. injection E as <- <-. exact Hfn.
  - intros n n' a H1 H2 Hne Ho Ho'. destruct (decide (n = length C)) as [->|Hn]; [by apply (Hno a)|]. destruct (decide (n' = length C)) as [->|Hn']; [by apply (Hno a)|].
    destruct (Hoth n ltac:(lia)) as (_ & _ & _ & _ & Hx), (Hoth n' ltac:(lia)) as (_ & _ & _ & _ & Hx'). apply (W4 n n' a); [lia|lia|done|by apply Hx|by apply Hx'].
  - rewrite total_app. cbn [total length]. change (blocks_of (Z.of_nat 0)) with 0. cbn [freeblock set_freeinode] in Hb'. lia.
  - intros ino' Hino'. unfold din. rewrite (ch_inode _ _ _ _ Hch), decide_False by (unfold ino; lia). apply W6. lia.
  - destruct W7 as [M1 M2]. pose proof (IBLOCK_range x mkfs_layout ino Hino) as Hib. change (inodestart x) with 32 in Hib. unfold D'. rewrite !iupdate_D_other by (cbn [inum new_inode]; lia). done.
Qed.

(** ** The program *)

Lemma zero_sectors_spec n i s : wp (zero_sectors n i s) (fun _ s' => (forall b, img s' !! b = if decide (i <= b < i + Z.of_nat n) then Some zeroes else img s !! b) /\
  freeinode s' = freeinode s /\ freeblock s' = freeblock s).
Proof.
  revert i s. induction n as [|n IH]; intros i s; cbn [zero_sectors].
  - apply wp_ret. split; [|done]. intros b. by rewrite decide_False by lia.
  - apply wp_modify. cbv beta. eapply wp_mono; [apply IH|]. intros [] s' (E & E2 & E3). split; [|done]. intros b. rewrite E. cbn [img set_img]. destruct (decide (b = i)) as [->|Hne].
    + rewrite decide_False, decide_True by lia. by rewrite lookup_insert_eq.
    + rewrite lookup_insert_ne by done. repeat case_decide; (done || lia).
Qed.

(** The disk when the superblock has been written. *)
Definition disk0 : Z -> list Z := <[45 := bits 46]> (<[1 := splice zeroes 0 (sb_bytes x)]> (fun _ => zeros)).

Lemma disk0_at b : b <> 45 -> b <> 1 -> disk0 b = zeros.
Proof. intros H1 H2. unfold disk0. by rewrite !fn_lookup_insert_ne. Qed.

Lemma disk0_ok : fs_disk x disk0.
Proof.
  destruct (bits_spec 46 ltac:(done)) as [Hb Hs]. split.
  - intros b _. unfold disk0. destruct (decide (b = 45)) as [->|H1]; [by rewrite fn_lookup_insert|rewrite fn_lookup_insert_ne by done].
    destruct (decide (b = 1)) as [->|H2]; [rewrite fn_lookup_insert|rewrite fn_lookup_insert_ne by done; apply zeros_ok].
    split; [rewrite length_splice; [apply zeros_ok|by vm_compute; lia]|]. apply Forall_splice; [apply zeros_ok|apply bytes_words].
  - intros b Hb'. change (datastart x) with 46 in Hb'. unfold used. destruct (BBLOCK_45 b) as [-> ->]; [change FSSIZE with 2000; lia|]. unfold disk0. rewrite fn_lookup_insert.
    rewrite Hs by (change BPB with 8192; lia). apply bool_decide_eq_true_2. lia.
Qed.

Lemma whole_start s : (forall b, 0 <= b < FSSIZE -> img s !! b = Some (if decide (b = 1) then splice zeroes 0 (sb_bytes x) else zeroes)) -> freeinode s = 1 -> freeblock s = nmeta -> whole s disk0 [].
Proof.
  intros Hi Hn Hf. split.
  - split.
    + intros b Hb H45. rewrite Hi by done. f_equal. case_decide as E; [subst; done|]. by rewrite disk0_at.
    + by rewrite Hf.
    + by rewrite Hf.
    + intros b Hb. rewrite Hf in Hb. change nmeta with 46 in Hb. apply disk0_at; lia.
    + apply disk0_ok.
  - by rewrite Hn.
  - done.
  - intros k k' a Hk. simpl in Hk. lia.
  - by rewrite Hf.
  - intros ino Hino. simpl in Hino. pose proof (IBLOCK_range x mkfs_layout ino ltac:(change (ninodes x) with NINODES; lia)) as Hib. change (inodestart x) with 32 in Hib. change (bmapstart x) with 45 in Hib.
    unfold din, disk_inode, load_dinode. rewrite disk0_at by lia. cbn [itype addrs]. rewrite rd_zeros. split; [done|].
    assert (forall l : list nat, (fun k : nat => rd 4 zeros (dip_off ino + 12 + 4 * k)) <$> l = repeat 0 (length l)) as E; [|apply E].
    induction l as [|k l IH]; [done|]. cbn [fmap list_fmap length repeat]. by rewrite IH, rd_zeros.
  - done.
Qed.

(** Files only grow. *)
Fixpoint le_files (C C' : list (Z * list Z)) : Prop :=
  match C, C' with [], _ => True | a :: C, b :: C' => (length a.2 <= length b.2)%nat /\ le_files C C' | _ :: _, [] => False end.

Lemma blocks_of_nonneg n : 0 <= n -> 0 <= blocks_of n.
Proof. intros. unfold blocks_of. change BSIZE with 1024. change NDIRECT with 12. destruct (12 * 1024 <? n); zdm. Qed.

Lemma total_nonneg C : 0 <= total C.
Proof. induction C as [|[ty c] C IH]; [done|]. cbn [total]. pose proof (blocks_of_nonneg (length c)). lia. Qed.

Lemma total_le C C' : le_files C C' -> total C <= total C'.
Proof.
  revert C'. induction C as [|[ty c] C IH]; intros [|[ty' c'] C']; cbn [le_files total]; [done|intros _; apply (total_nonneg ((ty', c') :: C'))|done|].
  intros [Hl Hr]. apply IH in Hr. pose proof (blocks_of_mono (length c) (length c')). cbn [snd] in *. lia.
Qed.

Lemma append_reads_spec s D C (k : nat) ty c reads :
  whole s D C -> C !! k = Some (ty, c) -> Forall (Forall (fun b => 0 <= b < 256)) reads -> length c + length (concat reads) <= MAXFILE * BSIZE ->
  nmeta + total (<[k := (ty, c ++ concat reads)]> C) <= FSSIZE ->
  wp (append_reads (k + 1) reads s) (fun _ s' => exists D', whole s' D' (<[k := (ty, c ++ concat reads)]> C)).
Proof.
  revert s D C c. induction reads as [|p reads IH]; intros s D C c Hw Ek Hb Hmax Hroom; cbn [append_reads concat] in *.
  - apply wp_ret. exists D. by rewrite app_nil_r, list_insert_id.
  - apply Forall_cons in Hb as [Hp Hb]. rewrite length_app in Hmax. pose proof (lookup_lt_Some _ _ _ Ek) as Hk. wp_step (iappend_spec s D C k ty c p Hw Ek Hp ltac:(lia)).
    + rewrite (total_insert C k ty c _ Ek) in Hroom. rewrite (total_insert C k ty c _ Ek). rewrite !length_app in *. pose proof (blocks_of_mono (length c + length p)%nat (length c + (length p + length (concat reads)))%nat ltac:(lia)). lia.
    + intros [] s1 (D1 & Hw1). assert (<[k := (ty, c ++ p)]> C !! k = Some (ty, c ++ p)) as Ek1 by (by apply list_lookup_insert_eq).
      eapply wp_mono; [apply (IH s1 D1 _ (c ++ p) Hw1 Ek1 Hb)|].
      * rewrite length_app. lia.
      * by rewrite list_insert_insert_eq, <- app_assoc.
      * intros [] s2 (D2 & Hw2). exists D2. by rewrite list_insert_insert_eq, <- app_assoc in Hw2.
Qed.

(** Entries of a directory, and its bytes. *)
Definition dir_bytes (es : list (Z * list Z)) : list Z := concat ((fun e => mk_dirent_bytes e.1 e.2) <$> es).

Definition host_file : Type := list Z * option (list (list Z)).
Definition file_name (f : host_file) : list Z := skip_underscore (shortname f.1).
Definition contents (f : host_file) : list Z := concat (default [] f.2).

Fixpoint file_entries (ino : Z) (files : list host_file) : list (Z * list Z) :=
  match files with [] => [] | f :: files => (ino, file_name f) :: file_entries (ino + 1) files end.

(** The files of the image: the root directory, with the given entries before those of [files]. *)
Definition image_files (es : list (Z * list Z)) (F : list (Z * list Z)) (files : list host_file) : list (Z * list Z) :=
  (T_DIR, dir_bytes (es ++ file_entries (length F + 2) files)) :: F ++ ((fun f => (T_FILE, contents f)) <$> files).

(** An argument that mkfs accepts. *)
Record arg_ok (f : host_file) : Prop := {
  ao_open : is_Some f.2;
  ao_name : (SLASH ∉ shortname f.1) /\ Forall (fun b => 0 <= b < 256) f.1;
  ao_bytes : Forall (Forall (fun b => 0 <= b < 256)) (default [] f.2);
  ao_size : length (contents f) <= MAXFILE * BSIZE;
}.

Lemma length_dirent_bytes ino name : length (mk_dirent_bytes ino name) = 16%nat.
Proof. apply length_mk_dirent. Qed.

Lemma dir_bytes_app es e : dir_bytes (es ++ [e]) = dir_bytes es ++ mk_dirent_bytes e.1 e.2.
Proof. unfold dir_bytes. rewrite fmap_app, concat_app. cbn [fmap list_fmap concat]. by rewrite app_nil_r. Qed.

Lemma length_dir_bytes es : length (dir_bytes es) = (16 * length es)%nat.
Proof. unfold dir_bytes. induction es as [|e es IH]; [done|]. cbn [fmap list_fmap concat length]. rewrite length_app, length_dirent_bytes, IH. lia. Qed.

Lemma length_file_entries ino files : length (file_entries ino files) = length files.
Proof. revert ino. induction files as [|f files IH]; intros ino; [done|]. cbn [file_entries length]. by rewrite IH. Qed.

Lemma name_bytes f : Forall (fun b => 0 <= b < 256) f.1 -> Forall (fun b => 0 <= b < 256) (file_name f).
Proof.
  intros Hf. unfold file_name, shortname. assert (Forall (fun b => 0 <= b < 256) (if strncmp_l 5 f.1 USER =? 0 then drop 5 f.1 else f.1)) as Hs by (case_match; [by apply Forall_drop|done]).
  unfold skip_underscore. destruct Hs; [constructor|]. case_match; [done|by constructor].
Qed.

Lemma dirent_range ino name : Forall (fun b => 0 <= b < 256) name -> Forall (fun b => 0 <= b < 256) (mk_dirent_bytes ino name).
Proof. intros Hn. apply Forall_app_2; [apply le_bytes_range|by apply strncpy_bytes]. Qed.

Lemma le_files_refl C : le_files C C.
Proof. induction C; [done|]. by split. Qed.

Lemma le_files_app C C' E : le_files C C' -> le_files C (C' ++ E).
Proof. revert C'. induction C as [|a C IH]; intros [|b C']; cbn [le_files app]; try done. intros [? ?]. auto. Qed.

(** What one file adds. *)
Lemma image_files_step es F f files : image_files (es ++ [(length F + 2, file_name f)]) (F ++ [(T_FILE, contents f)]) files = image_files es F (f :: files).
Proof.
  unfold image_files. rewrite length_app. cbn [length file_entries fmap list_fmap]. rewrite <- !app_assoc. cbn [app]. by replace (Z.of_nat (length F + 1) + 2) with (length F + 2 + 1) by lia.
Qed.

Lemma image_files_le es F files n R : (n <= length (es ++ file_entries (length F + 2) files))%nat -> length R = (16 * n)%nat -> le_files ((T_DIR, R) :: F) (image_files es F files).
Proof. intros Hn HR. split; [cbn [snd]; rewrite length_dir_bytes, HR; lia|]. apply le_files_app, le_files_refl. Qed.

Lemma lookup_root (a : Z * list Z) F : (a :: F) !! 0%nat = Some a.
Proof. done. Qed.

Lemma add_file_spec s D es F f files :
  whole s D ((T_DIR, dir_bytes es) :: F) -> arg_ok f -> length F + 3 <= NINODES -> 16 * (length es + 1) <= MAXFILE * BSIZE -> nmeta + total (image_files es F (f :: files)) <= FSSIZE ->
  wp (add_file 1 f.1 f.2 s) (fun _ s' => exists D', whole s' D' ((T_DIR, dir_bytes (es ++ [(length F + 2, file_name f)])) :: F ++ [(T_FILE, contents f)])).
Proof.
  intros Hw [[reads Er] [Hsl Hnb] Hrb Hsz] HF Hes Hroom. rewrite <- image_files_step in Hroom. unfold add_file. rewrite bool_decide_eq_false_2 by done. rewrite Er. unfold contents in *. rewrite Er in *. cbn [from_option id] in *.
  set (de := (length F + 2, file_name f)) in *. set (c := concat reads) in *.
  pose proof (total_le ((T_DIR, dir_bytes (es ++ [de])) :: F ++ [(T_FILE, c)]) _ (image_files_le (es ++ [de]) (F ++ [(T_FILE, c)]) files (length (es ++ [de])) _ ltac:(rewrite (length_app (es ++ [de])); lia) (length_dir_bytes _))) as Hle.
  wp_step (ialloc_spec s D _ T_FILE Hw ltac:(done) ltac:(cbn [length]; lia)). intros r s1 (-> & D1 & Hw1). cbn [length app] in Hw1.
  assert (Z.of_nat (length ((T_DIR, dir_bytes es) :: F)) + 1 = length F + 2) as -> by (cbn [length]; lia). change (mk_dirent_bytes (length F + 2) (skip_underscore (shortname f.1))) with (mk_dirent_bytes de.1 de.2).
  assert (nmeta + total ((T_DIR, dir_bytes (es ++ [de])) :: F ++ [(T_FILE, [])]) <= FSSIZE) as Hroom1.
  { assert (total ((T_DIR, dir_bytes (es ++ [de])) :: F ++ [(T_FILE, [])]) <= total ((T_DIR, dir_bytes (es ++ [de])) :: F ++ [(T_FILE, c)])); [|lia].
    cbn [total]. rewrite !total_app. cbn [total]. pose proof (blocks_of_mono (length (@nil Z)) (length c) ltac:(simpl; lia)). lia. }
  wp_step (iappend_spec s1 D1 _ 0 T_DIR (dir_bytes es) (mk_dirent_bytes de.1 de.2) Hw1 (lookup_root _ _)).
  - apply dirent_range, name_bytes, Hnb.
  - rewrite length_dir_bytes, length_dirent_bytes. lia.
  - cbn [insert list_insert]. rewrite <- dir_bytes_app. exact Hroom1.
  - intros [] s2 (D2 & Hw2). cbn [insert list_insert] in Hw2. rewrite <- dir_bytes_app in Hw2. replace (length F + 2) with (Z.of_nat (S (length F)) + 1) by lia.
    assert (((T_DIR, dir_bytes (es ++ [de])) :: F ++ [(T_FILE, [])]) !! S (length F) = Some (T_FILE, [])) as Ek by (cbn [lookup list_lookup]; by apply list_lookup_middle).
    assert (<[S (length F) := (T_FILE, c)]> ((T_DIR, dir_bytes (es ++ [de])) :: F ++ [(T_FILE, [])]) = (T_DIR, dir_bytes (es ++ [de])) :: F ++ [(T_FILE, c)]) as Ei
      by (cbn [insert list_insert]; f_equal; rewrite <- (Nat.add_0_r (length F)); apply (insert_app_r F [(T_FILE, [])] 0)).
    eapply wp_mono; [apply (append_reads_spec s2 D2 _ (S (length F)) T_FILE [] reads Hw2 Ek Hrb)|].
    + cbn [length]. exact Hsz.
    + cbn [app]. fold c. rewrite Ei. lia.
    + intros [] s3 (D3 & Hw3). exists D3. cbn [app] in Hw3. fold c in Hw3. by rewrite Ei in Hw3.
Qed.

Lemma add_files_spec s D es F files :
  whole s D ((T_DIR, dir_bytes es) :: F) -> Forall arg_ok files -> length F + length files + 2 <= NINODES -> 16 * (length es + length files) <= MAXFILE * BSIZE ->
  nmeta + total (image_files es F files) <= FSSIZE ->
  wp (add_files 1 files s) (fun _ s' => exists D', whole s' D' (image_files es F files)).
Proof.
  revert s D es F. induction files as [|f files IH]; intros s D es F Hw Ha HF Hes Hroom; cbn [add_files].
  - apply wp_ret. exists D. unfold image_files. cbn [file_entries fmap list_fmap]. by rewrite !app_nil_r.
  - apply Forall_cons in Ha as [Hf Ha]. cbn [length] in *. destruct f as [arg fd]. wp_step (add_file_spec s D es F (arg, fd) files Hw Hf); [lia|lia|done|].
    intros [] s1 (D1 & Hw1). rewrite <- (image_files_step es F (arg, fd) files) in *. apply (IH s1 D1); [done|done|rewrite length_app; cbn [length]; lia|rewrite length_app; cbn [length]; lia|done].
Qed.

(** ** The size of the root directory

    It is rounded up to whole blocks.  The bytes that this adds are zero, and their block
    is there unless the entries ended with a block. *)

Section resized.
Context (D : Z -> list Z) (ino ty : Z) (c : list Z) (Hino : 0 <= ino < NINODES) (Hf : file_at D ino ty c) (Hd : fs_disk x D).

Abbreviation i' := (with_size ((length c / BSIZE + 1) * BSIZE) (din D ino)).
Abbreviation D' := (iupdate_D x D i').

Lemma resized_fits : inode_fits i'.
Proof. pose proof (fa_max _ _ _ _ Hf) as Hm. destruct (fa_fits _ _ _ _ Hf). split; try done. cbn [isize with_size]. change BSIZE with 1024. change MAXFILE with 268 in Hm. change BSIZE with 1024 in Hm. zdm. Qed.

Lemma resized_din : din D' ino = on_mem i' (mk_inode 0 ino 0 0 false 0 0 0 0 0 []).
Proof. unfold din at 1. rewrite (iupdate_D_inode x mkfs_layout); [by rewrite decide_True|done|done|apply resized_fits|done]. Qed.

Lemma resized_other a : data_ok x D a -> D' a = D a /\ data_ok x D' a.
Proof.
  intros [Hr Hu]. pose proof (IBLOCK_range x mkfs_layout ino Hino) as Hib. change (bmapstart x) with 45 in Hib. change (datastart x) with 46 in *. change (sb_size x) with FSSIZE in *.
  split; [apply iupdate_D_other; change (inum i') with ino; lia|]. split; [done|]. rewrite (iupdate_D_used x mkfs_layout); [done|done|]. change (sb_size x) with FSSIZE. lia.
Qed.

Lemma resized_blk bn : blk D' i' bn = blk D (din D ino) bn.
Proof. transitivity (blk D' (din D ino) bn); [by apply blk_same|]. apply blk_ext. intros Hi. apply resized_other, (fk_ind _ _ _ (fa_ok _ _ _ _ Hf) Hi). Qed.

Lemma resized_changed : changed D ino D' i'.
Proof.
  split.
  - intros no [Hno Hn] Hib. split; [by apply iupdate_D_other|]. split.
    + destruct Hno as [|Hno]; [by left|right]. by apply resized_other.
    + intros (H0 & Ho). apply Hn. split; [done|]. destruct Ho as [Ho|(bn & Hbn & Ho)]; [by left|right]. exists bn. by rewrite <- resized_blk.
  - intros ino' j Hi. rewrite (iupdate_D_inode x mkfs_layout); [done|done|done|apply resized_fits|done].
Qed.

Lemma resized_file (pad : nat) : length c mod BSIZE <> 0 -> length c + pad = (length c / BSIZE + 1) * BSIZE -> file_at D' ino ty (c ++ repeat 0 pad).
Proof.
  intros Hpart Hpad. assert (length c < (length c / BSIZE + 1) * BSIZE <= MAXFILE * BSIZE) as Hs by (pose proof (fa_max _ _ _ _ Hf); change BSIZE with 1024 in *; change MAXFILE with 268 in *; zdm). pose proof Hf as [(Et & En & Es) A2 [K1 K2 K3 K4 K5] [S1 S2] A5 A6].
  assert (forall bn, blk D' (din D' ino) bn = blk D (din D ino) bn) as Eb by (intros bn; rewrite <- resized_blk, resized_din; by apply blk_same).
  assert (ind (din D' ino) = ind (din D ino)) as Ei by (by rewrite resized_din).
  split; rewrite ?length_app, ?repeat_length, ?Nat2Z.inj_add, ?Hpad.
  - by rewrite resized_din.
  - rewrite resized_din. destruct resized_fits. by split.
  - split; rewrite ?Ei; [by rewrite resized_din|intros bn Hb; rewrite Eb; intros H0; by apply resized_other, K2|intros H0; by apply resized_other, K3|intros b1 b2; rewrite !Eb; apply K4|intros bn; rewrite Eb; apply K5].
  - split; [intros bn Hbn; rewrite Eb, S1 by done|rewrite Ei, S2]; change BSIZE with 1024 in *; change NDIRECT with 12; zdm.
  - intros pos H0 Hp. transitivity (fbyte D (din D ino) pos).
    + unfold fbyte. rewrite Eb. destruct (Z.eqb_spec (blk D (din D ino) (pos / BSIZE)) 0) as [|Hb0]; [done|]. f_equal. by apply resized_other, K2.
    + rewrite A5 by done. repeat case_decide; [by rewrite lookup_total_app_l by lia|lia| |done]. rewrite lookup_total_app_r by lia. symmetry. apply list_lookup_total_correct, lookup_zeros. lia.
  - apply Hs.
Qed.
End resized.

(** ** The root directory *)

Lemma dir_bytes_at es (k : nat) e (n : nat) : es !! k = Some e -> (n < 16)%nat -> dir_bytes es !! (16 * k + n)%nat = mk_dirent e.1 e.2 !! n.
Proof.
  revert k. induction es as [|e0 es IH]; intros [|k] E Hn; cbn [lookup list_lookup] in E; simplify_eq; change (dir_bytes (?a :: ?l)) with (mk_dirent a.1 a.2 ++ dir_bytes l).
  - by rewrite lookup_app_l by (rewrite length_mk_dirent; lia).
  - rewrite lookup_app_r, length_mk_dirent by (rewrite length_mk_dirent; lia). rewrite <- (IH k) by done. f_equal. lia.
Qed.

Section root.
Context (D : Z -> list Z) (ino : Z) (es : list (Z * list Z)) (pad nd : nat) (Hf : file_at D ino T_DIR (dir_bytes es ++ repeat 0 pad)) (Hnd : (16 * length es + pad = 16 * nd)%nat).

Lemma root_nde : nde (dino x D ino) = nd /\ isize (dino x D ino) = 16 * nd.
Proof.
  destruct (fa_meta _ _ _ _ Hf) as (_ & _ & Es). change (isize (din D ino)) with (isize (dino x D ino)) in Es. rewrite length_app, length_dir_bytes, repeat_length in Es.
  assert (isize (dino x D ino) = 16 * nd) as E by lia. split; [|done]. unfold nde. rewrite E. zdm.
Qed.

Lemma root_dir_ok : dir_ok x D (dino x D ino) nd.
Proof.
  apply (dir_ok_same x D (din D ino)); [apply same_disk_inode|]. destruct root_nde as [_ Es]. split; [apply Hf|exact Es|apply Hf|by eapply fa_full].
Qed.

Lemma root_dirent (k : nat) : (k < nd)%nat -> dirent D (dino x D ino) k = match es !! k with Some e => mk_dirent e.1 e.2 | None => repeat 0 16 end.
Proof.
  intros Hk. rewrite (dirent_same D _ (din D ino)) by done. pose proof (fa_max _ _ _ _ Hf) as Hmax. rewrite length_app, length_dir_bytes, repeat_length in Hmax. apply list_eq. intros n.
  assert (length (match es !! k with Some e => mk_dirent e.1 e.2 | None => repeat 0 16 end) = 16%nat) as El by (case_match; [apply length_mk_dirent|done]).
  destruct (decide (n < 16)%nat) as [Hn|Hn]; [|rewrite !lookup_ge_None_2; [done| |]; [rewrite El|unfold dirent; rewrite length_file_bytes]; lia].
  unfold dirent. rewrite lookup_file_bytes by done. rewrite (fa_byte _ _ _ _ Hf), decide_True.
  - rewrite <- list_lookup_lookup_total_lt by (rewrite length_app, length_dir_bytes, repeat_length; lia). replace (Z.to_nat (16 * k + n)) with (16 * k + n)%nat by lia. destruct (es !! k) as [e|] eqn:E.
    + pose proof (lookup_lt_Some _ _ _ E). rewrite lookup_app_l by (rewrite length_dir_bytes; lia). by apply dir_bytes_at.
    + apply lookup_ge_None in E. rewrite lookup_app_r, length_dir_bytes by (rewrite length_dir_bytes; lia). rewrite !lookup_zeros by lia. done.
  - rewrite length_app, length_dir_bytes, repeat_length. lia.
  - lia.
  - unfold in_file. change BSIZE with 1024 in *. change MAXFILE with 268 in *. zdm.
Qed.

(** The first entry with the name is found. *)
Lemma root_find (k : nat) e name : es !! k = Some e -> 0 < e.1 < 2 ^ 16 -> cstr DIRSIZ name = cstr DIRSIZ e.2 ->
  (forall k' e', (k' < k)%nat -> es !! k' = Some e' -> cstr DIRSIZ e'.2 <> cstr DIRSIZ e.2) -> dir_find D (dino x D ino) name = Some e.1.
Proof.
  intros Ek He Hn Hfirst. pose proof (lookup_lt_Some _ _ _ Ek) as Hk. unfold dir_find. rewrite (proj1 root_nde).
  assert (forall k e, es !! k = Some e -> cstr DIRSIZ (de_name (dirent D (dino x D ino) k)) = cstr DIRSIZ e.2) as Hname.
  { intros k' e' E'. pose proof (lookup_lt_Some _ _ _ E'). by rewrite root_dirent, E', de_name_mk, cstr_strncpy by lia. }
  assert (de_inum (dirent D (dino x D ino) k) = e.1) as Ei by (rewrite root_dirent, Ek, de_inum_mk by lia; done).
  assert (list_find (fun k => binds D (dino x D ino) name k) (seq 0 nd) = Some (k, k)) as ->; [|cbn [mbind option_bind]; by rewrite Ei].
  apply list_find_Some. split; [apply lookup_seq; lia|]. split; [split; [lia|by rewrite (Hname k e)]|].
  intros k' y Hy Hlt [_ Hb]. apply lookup_seq in Hy as [-> Hy]. destruct (lookup_lt_is_Some_2 es (0 + k')%nat ltac:(lia)) as [e' E']. rewrite (Hname _ e') in Hb by done.
  apply (Hfirst _ _ Hlt E'). congruence.
Qed.
End root.

(** ** The finished image *)

Definition dots : list (Z * list Z) := [(1, [46]); (1, [46; 46])].
Definition root_entries (files : list host_file) : list (Z * list Z) := dots ++ file_entries 2 files.

(** What a directory entry keeps of a name. *)
Definition entry_name (f : host_file) : list Z := cstr DIRSIZ (file_name f).

(** Arguments that fit: there are inodes and blocks for them, and their names differ. *)
Record args_ok (files : list host_file) : Prop := {
  ar_files : Forall arg_ok files;
  ar_inodes : length files + 2 <= NINODES;
  ar_blocks : nmeta + total (image_files dots [] files) <= FSSIZE;
  ar_names : NoDup ([46] :: [46; 46] :: (entry_name <$> files));
}.

(** The entries of the root directory end with a block. *)
Definition root_full (files : list host_file) : Prop := (16 * length (root_entries files)) mod BSIZE = 0.

(** A disk that the kernel takes and finds [files] on. *)
Record image_ok (D : Z -> list Z) (files : list host_file) : Prop := {
  im_fs : fs_disk x D /\ tree_ok x D /\ linked_ino x D ROOTINO;
  im_sb (k : phys) (t : list inode) (y : superblock) : fsinit ROOTDEV (mk_fsst (D : ram) k t y) = Ret tt (mk_fsst (D : ram) k t x);
  im_log : rd 4 (D (logstart x)) 0 = 0;
  im_file (j : nat) f : files !! j = Some f -> let i := dino x D (j + 2) in
    itype i = T_FILE /\ nlink i = 1 /\ file_ok x D i /\ file_full D i /\ isize i = length (contents f) /\ file_bytes D i 0 (length (contents f)) = contents f;
  im_name (j : nat) f name : files !! j = Some f -> cstr DIRSIZ name = entry_name f -> resolve x D ROOTINO [name] = Some (j + 2);
  im_apart (j j' : nat) a : (j < length files)%nat -> (j' < length files)%nat -> j <> j' -> owns D (dino x D (j + 2)) a -> ~ owns D (dino x D (j' + 2)) a;
}.

Lemma file_entries_at ino files (j : nat) : file_entries ino files !! j = (fun f => (ino + j, file_name f)) <$> files !! j.
Proof.
  revert ino j. induction files as [|f files IH]; intros ino [|j]; cbn [file_entries lookup list_lookup fmap option_fmap option_map]; [done..|by rewrite Z.add_0_r|].
  rewrite IH. destruct (files !! j); [|done]. cbn. do 2 f_equal. lia.
Qed.

Lemma root_entries_at files (j : nat) f : files !! j = Some f -> root_entries files !! S (S j) = Some (j + 2, file_name f).
Proof. intros E. change (file_entries 2 files !! j = Some (j + 2, file_name f)). rewrite file_entries_at, E. cbn. do 2 f_equal. lia. Qed.

Lemma root_entries_inv files (k : nat) e : root_entries files !! k = Some e -> 1 <= e.1 <= length files + 1.
Proof.
  destruct k as [|[|k]]; [intros [= <-]; simpl; lia..|]. cbn [root_entries dots app lookup list_lookup]. rewrite file_entries_at. destruct (files !! k) as [f|] eqn:E; [|done].
  apply lookup_lt_Some in E. intros [= <-]. cbn [fst]. lia.
Qed.

(** The names in the directory are the names of the arguments. *)
Lemma root_entries_names files : (fun e => cstr DIRSIZ e.2) <$> root_entries files = [46] :: [46; 46] :: (entry_name <$> files).
Proof.
  cbn [root_entries dots app fmap list_fmap]. change (cstr DIRSIZ [46]) with [46]. change (cstr DIRSIZ [46; 46]) with [46; 46]. do 2 f_equal.
  generalize 2. induction files as [|f files IH]; intros ino; [done|]. cbn [file_entries fmap list_fmap]. by rewrite IH.
Qed.

(** The superblock that [readsb] takes from its block. *)
Definition sb_of (d : list Z) : superblock := mk_superblock (rd 4 d 0) (rd 4 d 4) (rd 4 d 8) (rd 4 d 12) (rd 4 d 16) (rd 4 d 20) (rd 4 d 24) (rd 4 d 28).

Lemma sb_of_bytes : sb_of (splice zeroes 0 (sb_bytes x)) = x.
Proof. by vm_compute. Qed.

Section image.
Context (s : mkst) (D : Z -> list Z) (files : list host_file) (pad nd : nat) (Ha : args_ok files)
  (Hw : whole s D ((T_DIR, dir_bytes (root_entries files) ++ repeat 0 pad) :: ((fun f => (T_FILE, contents f)) <$> files)))
  (Hnd : (16 * length (root_entries files) + pad = 16 * nd)%nat).

Lemma image_root : file_at D 1 T_DIR (dir_bytes (root_entries files) ++ repeat 0 pad).
Proof. exact (wh_file _ _ _ Hw 0 _ _ eq_refl). Qed.

Lemma image_file (j : nat) f : files !! j = Some f -> file_at D (j + 2) T_FILE (contents f).
Proof. intros E. replace (j + 2) with (Z.of_nat (S j) + 1) by lia. apply (wh_file _ _ _ Hw). change (((fun f => (T_FILE, contents f)) <$> files) !! j = Some (T_FILE, contents f)). by rewrite list_lookup_fmap, E. Qed.

Lemma image_linked ino : 1 <= ino <= length files + 1 -> linked_ino x D ino.
Proof.
  intros Hi. pose proof (ar_inodes _ Ha). split; [change (ninodes x) with NINODES; lia|]. destruct (decide (ino = 1)) as [->|Hne].
  - destruct (fa_meta _ _ _ _ image_root) as (Et & En & _). change (din D 1) with (disk_inode x D 1 (mk_inode 0 1 0 0 false 0 0 0 0 0 [])) in *. unfold dino. split; [by replace (itype _) with T_DIR|by replace (nlink _) with 1].
  - destruct (lookup_lt_is_Some_2 files (Z.to_nat (ino - 2)) ltac:(lia)) as [f E]. destruct (fa_meta _ _ _ _ (image_file _ _ E)) as (Et & En & _). replace (Z.to_nat (ino - 2) + 2) with ino in * by lia.
    split; [change (itype (din D ino) <> 0); by rewrite Et|change (nlink (din D ino) <> 0); by rewrite En].
Qed.

Lemma image_tree : tree_ok x D.
Proof.
  intros ino Hino Hty. change (ninodes x) with NINODES in Hino. assert (ino = 1) as ->.
  { destruct (decide (ino = 1)) as [|Hne]; [done|]. change (itype (din D ino) = T_DIR) in Hty. destruct (decide (ino <= length files + 1)) as [Hl|Hl].
    - destruct (lookup_lt_is_Some_2 files (Z.to_nat (ino - 2)) ltac:(lia)) as [f E]. destruct (fa_meta _ _ _ _ (image_file _ _ E)) as (Et & _). replace (Z.to_nat (ino - 2) + 2) with ino in * by lia. by rewrite Et in Hty.
    - destruct (wh_none _ _ _ Hw ino) as [E _]; [cbn [length]; rewrite length_fmap; lia|]. by rewrite E in Hty. }
  rewrite (proj1 (root_nde D 1 _ pad nd image_root Hnd)). split; [by eapply root_dir_ok, Hnd; apply image_root|].
  intros k Hk. rewrite (root_dirent D 1 _ pad nd image_root Hnd k Hk). destruct (root_entries files !! k) as [e|] eqn:E; [|done].
  pose proof (root_entries_inv _ _ _ E). pose proof (ar_inodes _ Ha). change NINODES with 200 in *. rewrite de_inum_mk by lia. intros _. by apply image_linked.
Qed.

Lemma image_name (j : nat) f name : files !! j = Some f -> cstr DIRSIZ name = entry_name f -> resolve x D ROOTINO [name] = Some (j + 2).
Proof.
  intros E Hn. cbn [resolve]. change ROOTINO with 1. destruct (fa_meta _ _ _ _ image_root) as (Et & _). change (itype (dino x D 1)) with (itype (din D 1)). rewrite Et. change (T_DIR =? T_DIR) with true. cbv iota.
  pose proof (root_entries_at _ _ _ E) as E'. pose proof (root_entries_inv _ _ _ E') as Hr. pose proof (ar_inodes _ Ha). change NINODES with 200 in *. cbn [fst] in Hr.
  rewrite (root_find D 1 _ pad nd image_root Hnd (S (S j)) _ name E'); [done|cbn [fst]; lia|exact Hn|].
  intros k' e' Hlt Ek' Heq. pose proof (ar_names _ Ha) as Hnodup. rewrite <- root_entries_names in Hnodup.
  assert (k' = S (S j)); [|lia]. eapply (NoDup_lookup _ _ _ _ Hnodup); rewrite list_lookup_fmap; [rewrite Ek'|rewrite E']; cbn [fmap option_fmap option_map]; [done|by rewrite Heq].
Qed.

Lemma image_bytes (j : nat) f : files !! j = Some f -> file_bytes D (dino x D (j + 2)) 0 (length (contents f)) = contents f.
Proof.
  intros E. pose proof (image_file _ _ E) as Hf. pose proof (fa_max _ _ _ _ Hf) as Hm. apply list_eq. intros n. destruct (decide (n < length (contents f))%nat) as [Hn|Hn]; [|by rewrite !lookup_ge_None_2 by (rewrite ?length_file_bytes; lia)].
  rewrite lookup_file_bytes by done. change (fbyte D (dino x D (j + 2)) (0 + n)) with (fbyte D (din D (j + 2)) (0 + n)). rewrite (fa_byte _ _ _ _ Hf), decide_True; [|lia..|].
  - rewrite Z.add_0_l, Nat2Z.id. symmetry. by apply list_lookup_lookup_total_lt.
  - unfold in_file. change BSIZE with 1024 in *. change MAXFILE with 268 in *. zdm.
Qed.

Lemma image_sound : image_ok D files.
Proof.
  destruct (wh_meta _ _ _ Hw) as [M1 M2]. split.
  - split; [apply Hw|]. split; [apply image_tree|]. apply image_linked. change ROOTINO with 1. lia.
  - intros k t y. change (fsinit ROOTDEV (mk_fsst (D : ram) k t y)) with ((modify (set_sb (sb_of (D 1)));; if negb (magic (sb_of (D 1)) =? FSMAGIC) then panic "invalid file system" else on_store (mret tt)) (mk_fsst (D : ram) k t y)).
    by rewrite M1, sb_of_bytes.
  - change (logstart x) with 2. by rewrite M2.
  - intros j f E. pose proof (image_file _ _ E) as Hf. pose proof (fa_full _ _ _ _ Hf) as [F1 F2]. destruct Hf as [(Et & En & Es) _ [K1 K2 K3 K4 K5] _ _ _]. cbv zeta. split_and!; [exact Et|exact En|by split|by split|exact Es|by apply image_bytes].
  - intros. by eapply image_name.
  - intros j j' a Hj Hj' Hne Ho Ho'. apply (wh_apart _ _ _ Hw (S j) (S j') a); cbn [length]; rewrite ?length_fmap; [lia|lia|lia|replace (Z.of_nat (S j) + 1) with (j + 2) by lia; exact Ho|replace (Z.of_nat (S j') + 1) with (j' + 2) by lia; exact Ho'].
Qed.
End image.

(** ** [main] *)

Lemma wp_rinode {A} ino (k : inode -> M mkst A) s D Q : rep s D -> 0 <= ino < NINODES -> wp (k (din D ino) s) Q -> wp ((rinode ino ≫= k) s) Q.
Proof.
  intros Hr Hi Hk. pose proof (IBLOCK_range x mkfs_layout ino Hi) as Hib. change (inodestart x) with 32 in Hib. change (bmapstart x) with 45 in Hib.
  unfold rinode. apply wp_bind. eapply wp_rsect; [exact Hr|change FSSIZE with 2000; lia|lia|]. by apply wp_ret.
Qed.

(** What comes before the files: an image with the superblock and an empty root directory. *)
Lemma wp_prologue {A} (f : Z -> M mkst A) Q : (forall s D, whole s D [(T_DIR, [])] -> wp (f 1 s) Q) ->
  wp ((modify (set_freeblock nmeta);; zero_sectors (Z.to_nat FSSIZE) 0;; wsect 1 (splice zeroes 0 (sb_bytes mkfs_sb));; rootino ← mk_ialloc T_DIR; f rootino) mkfs_start) Q.
Proof.
  intros Hf. apply wp_modify. wp_step (zero_sectors_spec (Z.to_nat FSSIZE) 0 (set_freeblock nmeta mkfs_start)). intros [] s1 (Hi & Hn & Hb). apply wp_modify. cbv beta. set (s2 := set_img _ s1).
  wp_step (ialloc_spec s2 disk0 [] T_DIR); [|done|done|intros r s3 (-> & D & Hw); by apply (Hf s3 D)]. apply whole_start; [|done|done]. intros b Hbr. cbn [s2 img set_img].
  case_decide as E; [subst; by rewrite lookup_insert_eq|]. rewrite lookup_insert_ne, Hi by done. rewrite decide_True; [done|]. change (Z.of_nat (Z.to_nat FSSIZE)) with FSSIZE. lia.
Qed.

Lemma append_dot s D es name : whole s D [(T_DIR, dir_bytes es)] -> (length es < 2)%nat -> Forall (fun b => 0 <= b < 256) name ->
  wp (iappend 1 (mk_dirent_bytes 1 name) s) (fun _ s' => exists D', whole s' D' [(T_DIR, dir_bytes (es ++ [(1, name)]))]).
Proof.
  intros Hw He Hn. rewrite dir_bytes_app. eapply (iappend_spec s D _ 0 T_DIR (dir_bytes es) _ Hw eq_refl).
  - by apply dirent_range.
  - rewrite length_dir_bytes, length_dirent_bytes. change BSIZE with 1024. change MAXFILE with 268. lia.
  - cbn [insert list_insert total]. rewrite length_app, length_dir_bytes, length_dirent_bytes. unfold blocks_of. change BSIZE with 1024. change NDIRECT with 12. change nmeta with 46. change FSSIZE with 2000.
    destruct (Z.ltb_spec (12 * 1024) (16 * length es + 16)%nat); zdm.
Qed.

(** What comes after the files. *)
Definition mkfs_epilogue : M mkst unit :=
  din ← rinode 1;
  winode 1 (with_size ((isize din / BSIZE + 1) * BSIZE) din);;
  b ← gets freeblock;
  mk_balloc b.

Lemma epilogue_wp s D C c (D' := iupdate_D x D (with_size ((length c / BSIZE + 1) * BSIZE) (din D 1))) : whole s D C -> file_at D 1 T_DIR c ->
  wp (mkfs_epilogue s) (fun _ s' => (forall b, 0 <= b < FSSIZE -> img s' !! b = Some (D' b)) /\ exists s1, rep s1 D' /\ freeblock s1 = freeblock s /\ freeinode s1 = freeinode s).
Proof.
  intros Hw Hf. pose proof (wh_rep _ _ _ Hw) as W1. pose proof (rp_disk _ _ W1) as Hd. unfold mkfs_epilogue. eapply wp_rinode; [exact W1|done|]. rewrite (proj2 (proj2 (fa_meta _ _ _ _ Hf))).
  apply wp_bind. eapply (wp_winode 1 _ s D); [done|done|done|exact (resized_fits D 1 T_DIR c ltac:(done) Hf)|]. intros s1 Hr1 Hb1 Hi1. fold D' in Hr1.
  apply wp_gets. unfold mk_balloc. pose proof (rp_free _ _ Hr1) as Hfr. change FSSIZE with 2000 in Hfr. rewrite (proj2 (Z.ltb_lt (freeblock s1) (BSIZE * 8))) by (change BSIZE with 1024; lia). cbn [negb].
  split; [|by exists s1]. intros b Hb. change (bmapstart x) with 45. cbn [img set_img]. destruct (decide (b = 45)) as [->|Hne]; [by rewrite lookup_insert_eq, (rp_bits _ _ Hr1)|].
  rewrite lookup_insert_ne by done. by apply (rp_img _ _ Hr1).
Qed.

(** The image before the epilogue. *)
Lemma mkfs_wp files Q : args_ok files -> (forall s D, whole s D (image_files dots [] files) -> wp (mkfs_epilogue s) Q) -> wp (mkfs files mkfs_start) Q.
Proof.
  intros [A1 A2 A3 A4] HQ. unfold mkfs. apply wp_prologue. intros s1 D1 Hw1. change (negb (1 =? ROOTINO)) with false. cbv iota.
  wp_step (append_dot s1 D1 [] [46] Hw1); [simpl; lia|by repeat constructor|]. intros [] s2 (D2 & Hw2).
  wp_step (append_dot s2 D2 [(1, [46])] [46; 46] Hw2); [simpl; lia|by repeat constructor|]. intros [] s3 (D3 & Hw3).
  wp_step (add_files_spec s3 D3 dots [] files Hw3 A1); [simpl; lia| |done|].
  - change BSIZE with 1024. change MAXFILE with 268. change NINODES with 200 in A2. change (length dots) with 2%nat. lia.
  - intros [] s4 (D4 & Hw4). exact (HQ s4 D4 Hw4).
Qed.

Lemma epilogue_image s D s1 files (L := length (dir_bytes (root_entries files))) (D' := iupdate_D x D (with_size ((L / BSIZE + 1) * BSIZE) (din D 1))) :
  args_ok files -> ~ root_full files -> whole s D (image_files dots [] files) -> rep s1 D' -> freeblock s1 = freeblock s -> freeinode s1 = freeinode s -> image_ok D' files.
Proof.
  intros Ha Hpart Hw Hr1 Hb1 Hi1. set (es := root_entries files) in *. pose proof (wh_file _ _ _ Hw 0%nat T_DIR (dir_bytes es) eq_refl) as Hf. change (Z.of_nat 0 + 1) with 1 in Hf.
  pose proof (rp_disk _ _ (wh_rep _ _ _ Hw)) as Hd. assert (Z.of_nat L = 16 * length es) as EL by (unfold L; rewrite length_dir_bytes; lia).
  unfold root_full in Hpart. fold es in Hpart. rewrite <- EL in Hpart. set (pad := Z.to_nat ((L / BSIZE + 1) * BSIZE - L)).
  assert (L + pad = (L / BSIZE + 1) * BSIZE) as Hpad by (unfold pad; change BSIZE with 1024; zdm).
  pose proof (resized_file D 1 T_DIR (dir_bytes es) ltac:(done) Hf Hd pad Hpart Hpad) as Hf1. pose proof (resized_changed D 1 T_DIR (dir_bytes es) ltac:(done) Hf Hd) as Hch.
  assert (whole s1 D' ((T_DIR, dir_bytes es ++ repeat 0 pad) :: ((fun f => (T_FILE, contents f)) <$> files))) as Hw1.
  { eapply (whole_change s D _ 0 T_DIR (dir_bytes es) s1 D' _ _ Hw eq_refl Hch Hf1 Hr1 Hi1). rewrite length_app, repeat_length, Nat2Z.inj_add. fold L. rewrite Hpad, Hb1. unfold blocks_of.
    pose proof (fa_max _ _ _ _ Hf) as Hm. fold L in Hm. change BSIZE with 1024 in *. change NDIRECT with 12. destruct (Z.ltb_spec (12 * 1024) ((L / 1024 + 1) * 1024)), (Z.ltb_spec (12 * 1024) L); zdm. }
  apply (image_sound s1 D' files pad (Z.to_nat ((L / BSIZE + 1) * 64))); [done|done|]. fold es. change BSIZE with 1024 in *. lia.
Qed.

(** C20: mkfs run on arguments that fit makes an image of [FSSIZE] blocks that the kernel takes: [fsinit] accepts the
    superblock, the log is empty, the directory tree is well formed and starts at the root.  Each argument is a file of the
    root directory under its name, without "user/" and a leading underscore; the file is complete, has the
    contents given, one link, and blocks that are marked as used and belong to no other file.  The entries of the
    root directory must not end with a block. *)
Theorem mkfs_correct files : args_ok files -> ~ root_full files ->
  wp (mkfs files mkfs_start) (fun _ s' => exists D, (forall b, 0 <= b < FSSIZE -> img s' !! b = Some (D b)) /\ image_ok D files).
Proof.
  intros Ha Hp. apply mkfs_wp; [done|]. intros s D Hw. eapply wp_mono; [by eapply epilogue_wp, (wh_file _ _ _ Hw 0%nat)|].
  intros [] s' (Hi & s1 & Hr1 & Hb1 & Hi1). eexists. split; [exact Hi|by apply (epilogue_image s D s1)].
Qed.

(** Where they do, the size that mkfs gives the root directory goes one block beyond the directory's blocks. *)
Theorem mkfs_root_hole files : args_ok files -> root_full files ->
  wp (mkfs files mkfs_start) (fun _ s' => exists D, (forall b, 0 <= b < FSSIZE -> img s' !! b = Some (D b)) /\ ~ file_full D (dino x D ROOTINO)).
Proof.
  intros Ha Hp. apply mkfs_wp; [done|]. intros s D Hw. pose proof (wh_file _ _ _ Hw 0%nat T_DIR _ eq_refl) as Hf. change (Z.of_nat 0 + 1) with 1 in Hf. rewrite Z.add_0_l in Hf.
  fold (root_entries files) in Hf. pose proof (rp_disk _ _ (wh_rep _ _ _ Hw)) as Hd.
  eapply wp_mono; [by eapply epilogue_wp|]. intros [] s' (Hi & _). eexists. split; [exact Hi|]. intros [_ Hb]. set (c := dir_bytes _) in *. set (D' := iupdate_D _ _ _) in *.
  assert (same_disk (dino x D' ROOTINO) (with_size ((length c / BSIZE + 1) * BSIZE) (din D 1))) as (_ & _ & Es & Ea).
  { pose proof (resized_din D 1 T_DIR c ltac:(done) Hf Hd) as E. fold D' in E. pose proof (same_disk_inode x D' 1 inhabitant (mk_inode 0 1 0 0 false 0 0 0 0 0 [])) as Hs. fold (din D' 1) in Hs. rewrite E in Hs. exact Hs. }
  apply (Hb (length c / BSIZE)); [change BSIZE with 1024; zdm|rewrite Es; cbn [isize with_size]; change BSIZE with 1024; lia|].
  rewrite (blk_same D' _ _ _ Ea). unfold D'. rewrite (resized_blk D 1 T_DIR c ltac:(done) Hf).
  assert (length c mod BSIZE = 0) as Hm by (unfold c, root_full in *; rewrite length_dir_bytes, Nat2Z.inj_mul; exact Hp).
  destruct (decide (blk D (din D 1) (length c / BSIZE) = 0)) as [|Hne]; [done|]. pose proof (fa_max _ _ _ _ Hf) as Hmax. 
  apply (sp_blk _ _ _ (fa_shape _ _ _ _ Hf)) in Hne; change BSIZE with 1024 in *; [zdm|]. unfold in_file. change MAXFILE with 268 in *. unfold c in *. rewrite length_dir_bytes in *.
  pose proof (ar_inodes _ Ha) as Hn. change NINODES with 200 in Hn. unfold root_entries in *. rewrite length_app, length_file_entries in *. change (length dots) with 2%nat in *. zdm.
Qed.

(** ** The kernel on the image *)

Lemma path_names_root name : name <> [] -> Forall (fun c => c <> SLASH) name -> path_names (SLASH :: name) = [take DIRSIZ name].
Proof.
  intros Hn Hs. unfold path_names. rewrite components_slash. destruct (split_on_app name [] Hs I) as (t & E & Ht). rewrite app_nil_r in E. unfold components in *. rewrite E, filter_cons_True by done. by rewrite <- Ht.
Qed.

Lemma cstr_nul_free n l : Forall (fun c => c <> 0) l -> cstr n l = take n l.
Proof. revert l. induction n as [|n IH]; intros l Hl; [done|]. destruct Hl as [|c l Hc Hl]; [done|]. cbn [cstr hd drop take]. rewrite (proj2 (Z.eqb_neq c 0)) by done. by rewrite drop_0, IH. Qed.

Section opens.
Context `{Linker}.
(** The kernel finds a file of the image under its name. *)
Theorem image_opens D files (j : nat) f (s : fsst ram) pid cwd cino nm :
  image_ok D files -> files !! j = Some f -> file_name f <> [] -> Forall (fun c => c <> 0 /\ c <> SLASH) (file_name f) -> length nm = DIRSIZ ->
  sb s = x -> (forall no, Fs.store s no = D no) -> table_ok x D (itable s) -> unlocked (itable s) -> start_ok (itable s) -> in_use (itable s) cwd 1 cino -> linked_ino x D cino ->
  wp (namex pid cwd (SLASH :: file_name f) false nm s) (fun r s' => exists ip, r.1 = Some ip /\ in_use (itable s') ip 1 (j + 2)).
Proof.
  intros [[Hd [Ht Hr]] _ _ _ Hname _] E Hne Hch Hnm Esb Hst Htab Hul Hso Hcwd Hlc.
  assert (Forall (fun c => c <> 0) (file_name f) /\ Forall (fun c => c <> SLASH) (file_name f)) as [Hz Hs] by (split; (eapply Forall_impl; [exact Hch|]); by intros c []).
  eapply wp_mono; [apply (namex_spec pid x mkfs_layout D Hd Ht s ∅ cwd cino (SLASH :: file_name f) false nm); try done|].
  - by constructor.
  - intros r s' (st & t' & -> & _ & Hm). rewrite path_names_root in Hm by done. change (start_ino cino (SLASH :: file_name f)) with ROOTINO in Hm. change (target x D false ROOTINO [take DIRSIZ (file_name f)]) with (resolve x D ROOTINO [take DIRSIZ (file_name f)]) in Hm.
    rewrite (Hname j f) in Hm; [|done|]. 
    + destruct Hm as (ip & E1 & _ & Hu & _). by exists ip.
    + unfold entry_name. rewrite <- (cstr_nul_free DIRSIZ (file_name f)) by done. apply cstr_idem.
Qed.
End opens.

(** ** An image at work *)

(** user/_cat, of three bytes read in two parts *)
Definition demo_args : list host_file := [([117; 115; 101; 114; 47; 95; 99; 97; 116], Some [[1; 2]; [3]])].

Lemma demo_args_ok : args_ok demo_args /\ ~ root_full demo_args.
Proof.
  split; [split|].
  - constructor; [|constructor]. split; [by eexists| |by repeat constructor|by vm_compute]. split; [apply (bool_decide_eq_true_1 _); vm_compute; reflexivity|by repeat constructor].
  - done.
  - by vm_compute.
  - apply (bool_decide_eq_true_1 _). vm_compute. reflexivity.
  - by vm_compute.
Qed.

Lemma mkfs_correct_witness : exists s D, mkfs demo_args mkfs_start = Ret tt s /\ (forall b, 0 <= b < FSSIZE -> img s !! b = Some (D b)) /\
  resolve x D ROOTINO [[99; 97; 116]] = Some 2 /\ file_bytes D (dino x D 2) 0 3 = [1; 2; 3].
Proof.
  destruct demo_args_ok as [Ha Hp]. destruct (wp_inv _ _ (mkfs_correct demo_args Ha Hp)) as ([] & s & E & D & Hi & [_ _ _ Hf Hn _]). exists s, D. split; [exact E|]. split; [exact Hi|]. split.
  - apply (Hn 0%nat _ [99; 97; 116] eq_refl). reflexivity.
  - apply (Hf 0%nat _ eq_refl).
Defined.
