(* ===== verification/Boot.v ===== *)
(** * Boot (kernel/start.c, main.c, plic.c; forkret of kernel/proc.c)

    The machine-mode set-up of a hart, the interrupt controller, and the order in
    which the first hart initialises the kernel. *)

From S2P Require Import Prelude Riscv Mem Kstring Kalloc Vm Block Bio Store Fs Kernel Asm Proc File Fork Syscall Sysfile Exec Trap Printf Console Virtio.

(** ** kernel/start.c *)

(** A hart in machine mode: what the code does to its control registers, to memory, and to [tp]. *)
Definition on_ctl {A} (k : M hart A) : M cpu A := zoom ctl (fun h c => mk_cpu (regs c) h (cmem c) (pc c) (prv c)) k.
Definition mload (a : Z) : M cpu Z := gets (fun c => ld64 (cmem c) a).
Definition mstore (a v : Z) : M cpu unit := modify (fun c => set_cmem (st64 (cmem c) a (u64 v)) c).

(** [timer_scratch] and [timervec] are addresses of the image. *)
Definition timerinit (timer_scratch timervec_addr : Z) : M cpu unit :=
  id ← on_ctl r_mhartid;
  let id := to_int id in
  let interval := 1000000 in
  t ← mload CLINT_MTIME;
  mstore (CLINT_MTIMECMP id) (t + interval);;
  let scratch := timer_scratch + id * 40 in
  mstore (scratch + 24) (CLINT_MTIMECMP id);;
  mstore (scratch + 32) interval;;
  on_ctl (w_mscratch scratch);;
  on_ctl (w_mtvec timervec_addr);;
  x ← on_ctl r_mstatus;
  on_ctl (w_mstatus (Z.lor x MSTATUS_MIE));;
  x ← on_ctl r_mie;
  on_ctl (w_mie (Z.lor x MIE_MTIE)).

Definition start (timer_scratch timervec_addr main_addr : Z) : M cpu unit :=
  x ← on_ctl r_mstatus;
  let x := Z.land x (Z.lnot MSTATUS_MPP_MASK) in
  let x := Z.lor x MSTATUS_MPP_S in
  on_ctl (w_mstatus x);;
  on_ctl (w_mepc main_addr);;
  on_ctl (w_satp 0);;
  on_ctl (w_medeleg 0xffff);;
  on_ctl (w_mideleg 0xffff);;
  x ← on_ctl r_sie;
  on_ctl (w_sie (Z.lor (Z.lor (Z.lor x SIE_SEIE) SIE_STIE) SIE_SSIE));;
  on_ctl (w_pmpaddr0 0x3fffffffffffff);;
  on_ctl (w_pmpcfg0 0xf);;
  timerinit timer_scratch timervec_addr;;
  id ← on_ctl r_mhartid;
  modify (set_reg TP (u64 (to_int id)));;
  modify mret_.

(** ** kernel/plic.c *)

Section plic.
Context {D : Type} `{Mmio D}.

Definition w32 (a v : Z) : M D unit := modify (mwrite a (u32 v)).
Definition r32 (a : Z) : M D Z := fun d => let '(v, d') := mread a d in Ret (u32 v) d'.

Definition plicinit : M D unit :=
  w32 (PLIC + UART0_IRQ * 4) 1;;
  w32 (PLIC + VIRTIO0_IRQ * 4) 1.

(** [hart] is [cpuid()]. *)
Definition plicinithart (hart : Z) : M D unit :=
  w32 (PLIC_SENABLE hart) (Z.lor (Z.shiftl 1 UART0_IRQ) (Z.shiftl 1 VIRTIO0_IRQ));;
  w32 (PLIC_SPRIORITY hart) 0.

Definition plic_claim (hart : Z) : M D Z :=
  irq ← r32 (PLIC_SCLAIM hart); mret (to_int irq).

Definition plic_complete (hart irq : Z) : M D unit := w32 (PLIC_SCLAIM hart) irq.
End plic.

(** ** kernel/main.c *)

(** The kernel with its devices: [bcon] holds the kernel's state, which the disk
    driver shares; [bkpt] is [kernel_pagetable]. *)
Record bst (St DU DV DP : Type) := mk_bst { bcon : cst St DU; bvirt : vst St DV; bplic : DP; bhart : hart; bkpt : Z; started : bool }.
Arguments mk_bst {_ _ _ _}.
Arguments bcon {_ _ _ _}.
Arguments bvirt {_ _ _ _}.
Arguments bplic {_ _ _ _}.
Arguments bhart {_ _ _ _}.
Arguments bkpt {_ _ _ _}.
Arguments started {_ _ _ _}.

Section main.
Context `{Linker} `{Symbols} {St : Type} {ST : Store St} {DU DV DP : Type} `{Uart DU} `{!Mmio DV} `{!Mmio DP}.
Abbreviation B := (bst St DU DV DP).

Definition b_con {A} (c : M (cst St DU) A) : M B A := zoom bcon (fun x s => mk_bst x (bvirt s) (bplic s) (bhart s) (bkpt s) (started s)) c.
Definition b_k {A} (c : M (kst St) A) : M B A := b_con (on_ck c).
Definition b_hart {A} (c : M hart A) : M B A := zoom bhart (fun x s => mk_bst (bcon s) (bvirt s) (bplic s) x (bkpt s) (started s)) c.
Definition b_plic {A} (c : M DP A) : M B A := zoom bplic (fun x s => mk_bst (bcon s) (bvirt s) x (bhart s) (bkpt s) (started s)) c.
Definition b_virt {A} (c : M (vst St DV) A) : M B A :=
  zoom (fun s => set_vk (ck (bcon s)) (bvirt s)) (fun x s => mk_bst (set_ck (vk x) (bcon s)) x (bplic s) (bhart s) (bkpt s) (started s)) c.

Definition kvminit : M B unit :=
  r ← b_k (on_mem_k kvmmake); modify (fun s => mk_bst (bcon s) (bvirt s) (bplic s) (bhart s) r (started s)).

Definition trapinithart : M hart unit := w_stvec kernelvec_addr.

(** "xv6 kernel is booting" and a newline *)
Definition booting : list Z :=
  [120; 118; 54; 32; 107; 101; 114; 110; 101; 108; 32; 105; 115; 32; 98; 111; 111; 116; 105; 110; 103; 10].

(** What the first hart does before [scheduler]; [binit] is that of the store
    behind the file system, and [spin] bounds the polls of the serial port. *)
Definition main_first (spin : nat) (binit : M St unit) : M B unit :=
  b_con consoleinit;;
  b_con (kprintf spin [NEWLINE] []);;
  b_con (kprintf spin booting []);;
  b_con (kprintf spin [NEWLINE] []);;
  b_k (on_mem_k kinit);;
  kvminit;;
  kpt ← gets bkpt;
  b_hart (kvminithart kpt);;
  b_k procinit;;
  b_hart trapinithart;;
  b_plic plicinit;;
  b_plic (plicinithart 0);;
  b_k (on_fs (on_store binit));;
  b_k (on_fs iinit);;
  b_virt virtio_disk_init;;
  b_k userinit;;
  modify (fun s => mk_bst (bcon s) (bvirt s) (bplic s) (bhart s) (bkpt s) true).

(** "hart %d starting" and a newline *)
Definition starting : list Z :=
  [104; 97; 114; 116; 32; 37; 100; 32; 115; 116; 97; 114; 116; 105; 110; 103; 10].

(** A pass of another hart's wait, and what it does when the first one is ready. *)
Definition main_other (spin : nat) (hart : Z) : M B bool :=
  r ← gets started;
  if negb r then mret false
  else
    b_con (kprintf spin starting [ANum hart]);;
    kpt ← gets bkpt;
    b_hart (kvminithart kpt);;
    b_hart trapinithart;;
    b_plic (plicinithart hart);;
    mret true.

(** A new process's first steps in the kernel; [first] is the function's static
    variable, which the first process clears. *)
Definition forkret (first : bool) (me : nat) : M (tst St) Z :=
  (if first then on_k (on_fs (fsinit ROOTDEV)) else mret tt);;
  usertrapret me.
End main.
