(* ===== verification/BootThms.v ===== *)
(** * What boot establishes

    The state a hart is in when it enters [main], and the state of the kernel when the
    first hart enters the scheduler: the one that the theorems about processes,
    memory, files and the disk start from. *)

From S2P Require Import Prelude Riscv Mem Kstring Kalloc Vm VmPt VmWalk VmMap VmUser VmAlloc VmFree VmCopy VmProc VmThms VmKern Block Bio Store Fs FsInode Kernel Asm AsmThms Proc Pipe File Fork Syscall Sysfile Exec Trap PipeThms FileThms ProcThms Isolation ForkThms IsolationThms Printf Console ConsoleThms Virtio VirtioThms Boot.

(** ** [_entry] and [start] *)

Lemma mpp_of x : Z.land (Z.lor (Z.lor (Z.land x (Z.lnot MSTATUS_MPP_MASK)) MSTATUS_MPP_S) MSTATUS_MIE) MSTATUS_MPP_MASK = MSTATUS_MPP_S.
Proof.
  rewrite !Z.land_lor_distr_l, <- Z.land_assoc, (Z.land_comm (Z.lnot _)), Z.land_lnot_diag, Z.land_0_r. done.
Qed.

Lemma wp_read {A} r (k : Z -> M cpu A) c Q : wp (k (ctl c r) c) Q -> wp ((on_ctl (csrr r) ≫= k) c) Q.
Proof. by destruct c. Qed.

Lemma wp_write {A} r v (k : unit -> M cpu A) c Q : wp (k tt (set_ctl r v c)) Q -> wp ((on_ctl (csrw r v) ≫= k) c) Q.
Proof. done. Qed.

(** The timer is armed for hart [h]. *)
Record timer_set (m m' : memory) (ts h : Z) : Prop := {
  tm_addr : ld64 m' (ts + h * 40 + 24) = CLINT_MTIMECMP h;
  tm_ival : ld64 m' (ts + h * 40 + 32) = 1000000;
  tm_due : ld64 m' (CLINT_MTIMECMP h) = u64 (ld64 m CLINT_MTIME + 1000000);
}.

Lemma timer_set_stores m ts h : 0 <= h < 8 -> KERNBASE <= ts -> ts mod 8 = 0 ->
  timer_set m (st64 (st64 (st64 m (CLINT_MTIMECMP h) (u64 (ld64 m CLINT_MTIME + 1000000))) (ts + h * 40 + 24) (u64 (CLINT_MTIMECMP h))) (ts + h * 40 + 32) (u64 1000000)) ts h.
Proof.
  intros Hh Hts H8. split; unfold CLINT_MTIMECMP, CLINT.
  - rewrite ld64_st64_ne, ld64_st64_eq by first [apply wrap_range; lia|plia]. apply wrap_id. unfold CLINT_MTIMECMP, CLINT, in_range. plia.
  - rewrite ld64_st64_eq by (apply wrap_range; lia). done.
  - rewrite !ld64_st64_ne by plia. apply ld64_st64_eq, wrap_range. lia.
Qed.

Lemma start_spec c ts tv main_addr h : prv c = MMode -> ctl c mhartid = h -> 0 <= h < 8 -> KERNBASE <= ts -> ts mod 8 = 0 ->
  wp (start ts tv main_addr c) (fun _ c2 => prv c2 = SMode /\ Asm.pc c2 = main_addr /\ ctl c2 satp = 0 /\ regs c2 = <[TP := h]> (regs c) /\
    ctl c2 medeleg = 0xffff /\ ctl c2 mideleg = 0xffff /\ has (ctl c2 sie) SIE_SEIE = true /\ has (ctl c2 sie) SIE_SSIE = true /\
    has (ctl c2 mie) MIE_MTIE = true /\ ctl c2 mtvec = tv /\ ctl c2 mscratch = ts + h * 40 /\ timer_set (cmem c) (cmem c2) ts h).
Proof.
  intros Hp Hh Hn Hts H8. assert (to_int h = h) as Hi by (apply sint_id; lia). assert (u64 h = h) as Hu by (apply wrap_id; split; plia).
  unfold start, timerinit, mload, mstore. apply wp_read. cbv zeta. do 5 apply wp_write. apply wp_read. do 3 apply wp_write. apply wp_bind, wp_read. cbv zeta. apply wp_gets, wp_modify, wp_modify, wp_modify.
  do 2 apply wp_write. apply wp_read, wp_write, wp_read. cbn [wp on_ctl zoom csrw w_mie modify]. apply wp_read, wp_modify. cbn [wp modify].
  split_and!; try reflexivity.
  - unfold mret_. cbn [set_pc prv]. set (x := ctl _ mstatus). assert (Z.land x MSTATUS_MPP_MASK = MSTATUS_MPP_S) as -> by (unfold x; apply mpp_of). done.
  - change (regs (mret_ _)) with (<[TP := u64 (to_int (ctl c mhartid))]> (regs c)). by rewrite Hh, Hi, Hu.
  - change (has (Z.lor (Z.lor (Z.lor (ctl c sie) SIE_SEIE) SIE_STIE) SIE_SSIE) SIE_SEIE = true). rewrite !has_lor. change (has SIE_SEIE SIE_SEIE) with true. by rewrite orb_true_r.
  - change (has (Z.lor (Z.lor (Z.lor (ctl c sie) SIE_SEIE) SIE_STIE) SIE_SSIE) SIE_SSIE = true). rewrite !has_lor. change (has SIE_SSIE SIE_SSIE) with true. by rewrite !orb_true_r.
  - change (has (Z.lor (ctl c mie) MIE_MTIE) MIE_MTIE = true). rewrite !has_lor. change (has MIE_MTIE MIE_MTIE) with true. by rewrite orb_true_r.
  - change (ts + to_int (ctl c mhartid) * 40 = ts + h * 40). by rewrite Hh, Hi.
  - set (id := to_int (ctl c mhartid)).
    change (timer_set (cmem c) (st64 (st64 (st64 (cmem c) (CLINT_MTIMECMP id) (u64 (ld64 (cmem c) CLINT_MTIME + 1000000))) (ts + id * 40 + 24) (u64 (CLINT_MTIMECMP id))) (ts + id * 40 + 32) (u64 1000000)) ts h).
    unfold id. rewrite Hh, Hi. by apply timer_set_stores.
Qed.

(** C36: A hart that starts at [_entry] comes to [main] in supervisor mode without
    paging, on a stack of its own, with its number in [tp], all traps delegated to
    supervisor mode, and the timer set up: the next interrupt is due one interval
    later, and the scratch area holds what [timervec] expects there. *)
Theorem start_correct c va stack0 start_addr spin ts tv main_addr h :
  prv c = MMode -> ctl c mhartid = h -> 0 <= h < NCPU -> KERNBASE <= ts -> ts mod 8 = 0 -> 0 <= stack0 < 2 ^ 63 ->
  exists c1 c2, run va va (entry stack0 start_addr spin) c = Some c1 /\ Asm.pc c1 = start_addr /\ regs c1 SP = stack0 + 4096 * (h + 1) /\
    start ts tv main_addr c1 = Ret tt c2 /\ prv c2 = SMode /\ Asm.pc c2 = main_addr /\ ctl c2 satp = 0 /\ regs c2 TP = h /\ regs c2 SP = regs c1 SP /\
    ctl c2 medeleg = 0xffff /\ ctl c2 mideleg = 0xffff /\ has (ctl c2 sie) SIE_SEIE = true /\ has (ctl c2 sie) SIE_SSIE = true /\
    has (ctl c2 mie) MIE_MTIE = true /\ ctl c2 mtvec = tv /\
    let scratch := ctl c2 mscratch in
    scratch = ts + h * 40 /\ ld64 (cmem c2) (scratch + 24) = CLINT_MTIMECMP h /\ ld64 (cmem c2) (scratch + 32) = 1000000 /\
    ld64 (cmem c2) (CLINT_MTIMECMP h) = u64 (ld64 (cmem c) CLINT_MTIME + 1000000).
Proof.
  intros Hp Hh Hn Hts H8 Hst. unfold NCPU in Hn. change (2 ^ 63) with 9223372036854775808 in *.
  assert (exists c1, run va va (entry stack0 start_addr spin) c = Some c1 /\ Asm.pc c1 = start_addr /\ prv c1 = MMode /\ ctl c1 = ctl c /\ cmem c1 = cmem c /\
    regs c1 SP = u64 (u64 stack0 + u64 (u64 (1024 * 4) * u64 (h + 1)))) as (c1 & E1 & Hpc & Hp1 & Hctl & Hm & Hsp).
  { unfold entry. do 7 (rewrite run_m by done; cbn [step mbind option_bind]). cbn [run]. eexists. split; [reflexivity|]. split_and!; try done. cbn -[wrap Z.mul]. by rewrite Hh. }
  assert (regs c1 SP = stack0 + 4096 * (h + 1)) as Hsp'.
  { rewrite Hsp. rewrite (wrap_id 64 stack0), (wrap_id 64 (1024 * 4)), (wrap_id 64 (h + 1)) by (split; plia). rewrite (wrap_id 64 (1024 * 4 * (h + 1))), wrap_id by (split; plia). lia. }
  destruct (wp_inv _ _ (start_spec c1 ts tv main_addr h Hp1 ltac:(by rewrite Hctl) ltac:(lia) Hts H8)) as ([] & c2 & E2 & P1 & P2 & P3 & P4 & P5 & P6 & P7 & P8 & P9 & P10 & P11 & [T1 T2 T3]).
  exists c1, c2. rewrite Hm in T3. cbv zeta. rewrite P11, P4, fn_lookup_insert, fn_lookup_insert_ne by discriminate. split_and!; first [assumption|reflexivity].
Qed.

Lemma start_correct_witness :
  let c := {| regs := fun _ => 0; ctl := fun r => if decide (r = mhartid) then 2 else 0; cmem := ∅; Asm.pc := 0; prv := MMode |} in
  exists c2, prv c2 = SMode /\ regs c2 TP = 2 /\ ctl c2 mscratch = 0x80008000 + 80.
Proof.
  intros c.
  destruct (start_correct c 0 0x80009000 0x80000100 0x80000020 0x80008000 0x80005000 0x80000200 2) as (c1 & c2 & _ & _ & _ & _ & E1 & _ & _ & E2 & _ & _ & _ & _ & _ & _ & _ & E3 & _);
    [reflexivity|reflexivity|split; [discriminate|reflexivity]|discriminate|reflexivity|split; [discriminate|reflexivity]|].
  exists c2. exact (conj E1 (conj E2 E3)).
Defined.

(** ** Memory for a process *)

Section enough.
Context `{Linker}.

Lemma wp_both {S A} (o : outcome S A) P Q : wp o P -> wp o Q -> wp o (fun a s => P a s /\ Q a s).
Proof. by destruct o. Qed.

Lemma free_list_unique s L L' : kalloc_inv s L -> kalloc_inv s L' -> L = L'.
Proof.
  intros [H1 P1 _] [H2 P2 _]. revert H1 P1 L' H2 P2. generalize (freelist s). induction L as [|p L IH]; intros h H1 P1 [|q L'] H2 P2; cbn [fl_rep] in *; [done| | |].
  - destruct H2 as [-> _]. apply Forall_cons in P2 as [?%kpage_pos _]. lia.
  - destruct H1 as [-> _]. apply Forall_cons in P1 as [?%kpage_pos _]. lia.
  - destruct H1 as [-> H1], H2 as [<- H2]. apply Forall_cons in P1 as [_ P1]. apply Forall_cons in P2 as [_ P2]. f_equal. by eapply IH.
Qed.

(** One page needs at most two tables. *)
Lemma mappages_one root va pa perm s T L :
  kalloc_inv s L -> pt_inv (mem s) root T -> dom T ## list_to_set L -> aligned va -> 0 <= va -> va + PGSIZE <= MAXVA -> aligned pa -> 0 <= pa -> pa + PGSIZE <= 2 ^ 56 -> 0 <= perm < 1024 ->
  (forall va', va <= va' < va + PGSIZE -> has (leaf (mem s) root va') PTE_V = false) -> (3 <= length L)%nat ->
  wp (mappages root va PGSIZE pa perm s) (fun r s' => r = 0 /\ exists T' L', pt_ext root s s' T T' L L' /\ (length L <= length L' + 2)%nat /\
    forall va', 0 <= va' < MAXVA -> leaf (mem s') root va' = if decide (in_pages va 1 va') then mk_pte pa perm else leaf (mem s) root va').
Proof.
  intros Hk Hpt Hd Hva H0 HM Hpa Hpa0 HpaM Hperm Hf HL. eapply wp_mono; [by apply (mappages_full root va PGSIZE pa perm s T L)|].
  intros r s' (T' & L' & k & Hext & Hleaf & Hnew & Hr). pose proof Hext as [Hpt' _ _ (U & EL & HdT) _]. pose proof (ki_nodup _ _ Hk) as Hnd. rewrite EL in Hnd. apply NoDup_app in Hnd as (HndU & _ & _).
  assert (forall u, u ∈ U -> exists l, T' !! u = Some l /\ T' !!! u = l) as HU.
  { intros u Hu. destruct (proj1 (elem_of_dom T' u) ltac:(rewrite HdT; set_solver)) as (l & Hl). exists l. split; [done|]. by apply lookup_total_correct. }
  assert (length U <= 2)%nat as HU2.
  { assert (length ((fun u => T' !!! u) <$> U) <= length [(0%nat, prefix 0 va); (1%nat, prefix 1 va)])%nat as Hle; [|by rewrite length_fmap in Hle].
    apply submseteq_length, NoDup_submseteq.
    - apply NoDup_fmap_2_strong; [|done]. intros u v Hu Hv E. destruct (HU u Hu) as (l & H1 & E1), (HU v Hv) as (l' & H2 & E2). rewrite E1, E2 in E. subst l'. by eapply (pt_label_inj Hpt').
    - intros l (u & -> & Hu)%list_elem_of_fmap. destruct (HU u Hu) as (l & H1 & ->). apply Hnew in H1 as [H1|(j & va' & Hj & Hr' & ->)].
      + apply elem_of_dom_2 in H1. rewrite EL in Hd. set_solver.
      + assert (prefix j va' = prefix j va) as ->.
        { destruct (prefix_values va) as [E0 E1], (prefix_values va') as [E0' E1']. destruct j as [|[|j]]; [rewrite E0, E0'|rewrite E1, E1'|lia]; unfold aligned in Hva; plia. }
        destruct j as [|[|j]]; [by left|right; by left|lia]. }
  rewrite EL, length_app in HL. destruct Hr as [[-> Ek]|(_ & _ & ->)]; [|simpl in HL; lia]. split; [done|]. exists T', L'. split_and!; [done|rewrite EL, length_app; lia|].
  intros va' Hva'. rewrite Hleaf by done. assert (k = 1%nat) as -> by (revert Ek; plia). change (Z.of_nat 1) with 1. case_decide as Hin; [|done].
  rewrite (pg_in va) by (done || (unfold in_pages in Hin; lia)). by rewrite Z.sub_diag, Z.add_0_r.
Qed.

Lemma proc_pagetable_some tf s L : kalloc_inv s L -> aligned tf -> 0 <= tf < PHYSTOP -> (6 <= length L)%nat ->
  wp (proc_pagetable tf s) (fun r s' => r <> 0 /\ exists L', kalloc_inv s' L' /\ (length L <= length L' + 5)%nat).
Proof.
  intros Hk Htf Htr HL. unfold proc_pagetable. destruct trampoline_pa as [Ht Hrt]. wp_step (uvmcreate_spec s L Hk). intros root s1. destruct L as [|p L]; [simpl in HL; lia|].
  simpl in HL. intros (-> & [Hk1 Has1 HdT1 _] & _ & Hz). destruct (kalloc_inv_app _ [] _ _ Hk) as [Hp _]. pose proof (kpage_pos p Hp). replace (p =? 0) with false by lia.
  change (2 ^ 56) with 72057594037927936 in *.
  wp_step (mappages_one p TRAMPOLINE trampoline (Z.lor PTE_R PTE_X) s1 _ L Hk1 (as_pt _ _ _ _ Has1) HdT1); try (done || plia).
  { intros va _. by rewrite Hz. }
  intros r s2 (-> & T2 & L2 & Hext & HL2 & Hleaf). cbn [Z.ltb Z.compare]. pose proof (pt_ext_disj _ _ _ _ _ _ _ Hext (ki_nodup _ _ Hk1) HdT1) as Hd2.
  wp_step (mappages_one p TRAPFRAME tf (Z.lor PTE_R PTE_W) s2 T2 L2 (pe_kalloc _ _ _ _ _ _ _ Hext) (pe_pt _ _ _ _ _ _ _ Hext) Hd2); try (done || plia).
  { intros va Hva. rewrite Hleaf by plia. rewrite decide_False by (unfold in_pages; plia). by rewrite Hz. }
  intros r s3 (-> & T3 & L3 & Hext3 & HL3 & _). cbn [Z.ltb Z.compare]. apply wp_ret. split; [lia|]. exists L3. split; [apply Hext3|simpl; lia].
Qed.

Lemma same_except_st_bytes m p l : aligned p -> length l <= PGSIZE -> same_except {[p]} m (st_bytes m p l).
Proof. intros Ha Hl x Hx. apply lookup_st_bytes_out. destruct (pg_out p x Ha) as [|]; [intros E; apply Hx; by apply elem_of_singleton|lia|lia]. Qed.

(** The first page of a process. *)
Lemma uvmfirst_spec root src s T L : proc_mem s root T [] L -> length src < PGSIZE -> (4 <= length L)%nat ->
  wp (uvmfirst root src s) (fun _ s' => exists p T' L', proc_mem s' root T' [p] L' /\ all_pages T' [p] L' = all_pages T [] L /\ same_except (all_pages T' [p] L') (mem s) (mem s') /\
    leaf (mem s') root 0 = mk_pte p (Z.lor (Z.lor (Z.lor PTE_W PTE_R) PTE_X) PTE_U) /\ (forall va, PGSIZE <= va < MAXVA -> leaf (mem s') root va = leaf (mem s) root va) /\
    ld_bytes (mem s') p (length src) = (fun b => b mod 256) <$> src).
Proof.
  intros Hpm Hl HL. unfold uvmfirst. rewrite (proj2 (Z.leb_gt _ _)) by lia. wp_step (kalloc_user s root T [] L Hpm). intros p s1. destruct L as [|q L]; [simpl in HL; lia|].
  intros (-> & Hq0 & Hpm1 & Hlo & Hs1). pose proof Hlo as (Hkq & HqT & _ & HqL). pose proof (kpage_aligned q Hkq) as Hqa. destruct (kpage_range q Hkq) as [Hq1 Hq2]. apply wp_modify. cbv beta.
  remember (memset (mem s1) q 0 PGSIZE) as m2 eqn:Em2. assert (same_except {[q]} (mem s1) m2) as Hs2 by (rewrite Em2; by apply same_except_memset_page). clear Em2.
  assert (proc_mem (set_mem m2 s1) root T [] L) as Hpm2 by (eapply proc_mem_frame; [done|done|clear - HqT; set_solver|clear - HqL; set_solver]). pose proof Hpm2 as [Hk2 Has2 HdT2 _].
  set (perm := Z.lor (Z.lor (Z.lor PTE_W PTE_R) PTE_X) PTE_U). assert (0 <= q /\ q + PGSIZE <= 2 ^ 56) as [Q1 Q2] by (clear - Hq1 Hq2; change (2 ^ 56) with 72057594037927936; plia).
  assert (forall va, 0 <= va < 0 + PGSIZE -> has (leaf m2 root va) PTE_V = false) as Hfr by (intros va Hva; apply (as_free _ _ _ _ Has2); clear - Hva; simpl; plia).
  assert (3 <= length L)%nat as HL3 by (simpl in HL; lia).
  pose proof (mappages_user (set_mem m2 s1) root T [] L q perm Hpm2 Hlo ltac:(done) ltac:(done) ltac:(done)) as W1.
  pose proof (mappages_one root 0 q perm (set_mem m2 s1) T L Hk2 (as_pt _ _ _ _ Has2) HdT2 ltac:(done) ltac:(done) ltac:(done) Hqa Q1 Q2 ltac:(done) Hfr HL3) as W2.
  replace (length (@nil Z) * PGSIZE) with 0 in W1 by reflexivity. wp_step (wp_both _ _ _ W1 W2).
  intros r s3 [(T3 & F3 & L3 & Hpm3 & Hsub & Hall & Hs3 & Hleaf & Hr) [-> _]]. destruct Hr as [[_ ->]|[? _]]; [|discriminate]. cbn [app] in Hpm3.
  unfold store_bytes. apply wp_ret. pose proof Hpm3 as [Hk3 Has3 HdT3 HdF3].
  assert (q ∉ dom T3) as HqT3 by (pose proof (as_disj _ _ _ _ Has3) as Hx; clear - Hx; set_solver).
  assert (same_except {[q]} (mem s3) (st_bytes (mem s3) q src)) as Hs4 by (apply same_except_st_bytes; [done|lia]).
  exists q, T3, L3. assert (all_pages T3 [q] L3 = all_pages T [] (q :: L)) as Eall by (clear - Hall; unfold all_pages in *; set_solver).
  assert (({[q]} : gset Z) ## dom T3) as HD3 by (clear - HqT3; set_solver). assert (({[q]} : gset Z) ## dom T) as HD by (clear - HqT; set_solver).
  assert (({[q]} : gset Z) ## list_to_set L3) as HL3' by (clear - HdF3; set_solver). split_and!.
  - eapply proc_mem_frame; [done|done|done|done].
  - done.
  - cbn [mem set_mem]. eapply same_except_mono; [|eapply same_except_trans; [eapply same_except_trans; [exact Hs1|exact Hs2]|eapply same_except_trans; [exact Hs3|exact Hs4]]].
    unfold all_pages. clear. set_solver.
  - cbn [mem set_mem]. rewrite (leaf_frame (as_pt _ _ _ _ Has3) _ _ _ Hs4 HD3) by plia. rewrite Hleaf by plia. rewrite decide_True; [done|]. split; [done|]. unfold in_pages. simpl. plia.
  - intros va Hva. cbn [mem set_mem]. rewrite (leaf_frame (as_pt _ _ _ _ Has3) _ _ _ Hs4 HD3) by plia. rewrite Hleaf by plia.
    rewrite decide_False by (unfold in_pages; simpl; plia). cbn [mem set_mem]. rewrite (leaf_frame (as_pt _ _ _ _ (pm_as _ _ _ _ _ Hpm1)) _ _ _ Hs2 HD) by plia.
    by rewrite (leaf_frame (as_pt _ _ _ _ (pm_as _ _ _ _ _ Hpm)) _ _ _ Hs1 HD) by plia.
  - apply ld_st_bytes.
Qed.
End enough.
