(* ===== verification/Booted.v ===== *)
(** * The kernel after boot (kernel/main.c, [userinit] of kernel/proc.c)

    The state of the kernel when the first hart enters the scheduler is the one that
    the theorems about processes, memory, files and the disk start from. *)

From S2P Require Import Prelude Riscv Mem Kstring Kalloc Vm VmPt VmWalk VmMap VmUser VmAlloc VmFree VmCopy VmProc VmThms VmKern Block Bio Store Fs FsInode Kernel Asm Proc Pipe File Fork Syscall PipeThms FileThms ProcThms Isolation ForkThms IsolationThms Printf Console ConsoleThms Virtio VirtioThms Trap Boot BootThms.

(** ** The first process *)

Section user.
Context `{Linker} `{Symbols} {St : Type} {ST : Store St}.
Implicit Types s : kst St.

(** What [allocproc] makes of a free entry. *)
Definition newborn_of (p : proc) (pid tf pt ra sp : Z) : proc :=
  with_context (ra, sp) (with_pagetable pt (with_trapframe tf (with_pstate USED (with_ppid pid p)))).

(** [allocproc] succeeds where there are an entry and seven pages. *)
Lemma allocproc_some s L i : kalloc_inv (ph s) L -> find_unused NPROCn 0 (procs s) = Some i -> (i < length (procs s))%nat -> (7 <= length L)%nat ->
  wp (allocproc s) (fun r s' => r = Some i /\ (exists L', kalloc_inv (ph s') L' /\ (length L <= length L' + 6)%nat) /\
    exists tf pt ra sp, procs s' !!! i = newborn_of (procs s !!! i) (nextpid s) tf pt ra sp).
Proof.
  intros Hk Hf Hi HL. unfold allocproc. apply wp_gets. rewrite Hf. unfold allocpid. apply wp_bind, wp_gets, wp_modify, wp_ret, wp_modify. cbv beta.
  set (s1 := set_procs _ _). assert (ph s1 = ph s) as Eph by done. apply wp_bind, wp_on_mem. rewrite Eph.
  eapply wp_mono; [by apply kalloc_spec|]. intros tf x Hx. apply wp_modify. cbv beta. set (s2 := set_procs _ _). assert (ph s2 = x) as Ex by done.
  destruct L as [|q L1]; [simpl in HL; lia|]. destruct Hx as (-> & Hk1 & _). destruct (kalloc_inv_app _ [] _ _ Hk) as [Hq _]. pose proof (kpage_pos q Hq).
  replace (q =? 0) with false by lia. apply wp_bind, wp_on_mem. rewrite Ex.
  eapply wp_mono; [apply (proc_pagetable_some q x L1 Hk1)|]; [by apply kpage_aligned|destruct (kpage_range q Hq); plia|simpl in HL; lia|].
  intros pt y (Hpt & L2 & Hk2 & HL2). apply wp_modify. cbv beta. replace (pt =? 0) with false by lia. unfold upd_proc. apply wp_modify, wp_ret. split; [done|]. split.
  - exists L2. split; [exact Hk2|simpl in *; lia].
  - exists q, pt. cbn [procs set_procs set_ph s1 s2 set_fs set_nextpid]. rewrite !list_insert_insert_eq, !list_lookup_total_insert_eq by (rewrite ?length_insert; exact Hi). by eexists _, _.
Qed.

(** The working directory of the first process: the root, in an empty table of inodes. *)
Definition no_inodes (t : list inode) : Prop := length t = NINODEn /\ forall ip, (ip < NINODEn)%nat -> iref (t !!! ip) = 0.

Lemma namei_root (x : fsst St) : no_inodes (itable x) ->
  wp (namei 0 0 [SLASH] x) (fun r x' => exists ip e, r = Some ip /\ x' = set_itable (<[ip := e]> (itable x)) x /\ in_use (itable x') ip ROOTDEV ROOTINO).
Proof.
  intros [Hl Hz]. unfold namei, namex. apply wp_bind. change (SLASH =? SLASH) with true. cbv iota. wp_step (iget_spec x ROOTDEV ROOTINO).
  - split; [done| |]; [intros ip Hip; by rewrite Hz|]. intros ip ip' dev ino (Hip & Hp & _). rewrite Hz in Hp by done. lia.
  - exists 0%nat. assert (0 < NINODEn)%nat by (by apply Nat.ltb_lt). split; [done|]. right. by apply Hz.
  - intros ip Hip. rewrite Hz by done. lia.
  - intros ip x' (e & -> & _ & _ & Hu). apply wp_ret, wp_ret. exists ip, e. split; [done|]. split; [done|]. exact Hu.
Qed.
(** [userinit]'s words of the trapframe. *)
Lemma tf_words m tf : aligned tf -> let m' := st64 (st64 m (tf + tf_epc) 0) (tf + tf_sp) PGSIZE in
  same_except {[tf]} m m' /\ ld64 m' (tf + tf_epc) = 0 /\ ld64 m' (tf + tf_sp) = PGSIZE.
Proof.
  intros Ha m'. unfold m', tf_epc, tf_sp. split_and!.
  - assert (forall m i, 0 <= i -> i + 8 <= PGSIZE -> i mod 8 = 0 -> forall v, same_except {[tf]} m (st64 m (tf + i) v)) as Hs.
    { intros m0 i I0 I1 I8 v. assert (pg (tf + i) = tf) as Epg by (apply pg_in; [done|lia]). pose proof (same_except_st64 m0 (tf + i) v) as Hx. rewrite Epg in Hx. apply Hx. unfold aligned in Ha. plia. }
    eapply same_except_mono; [|eapply same_except_trans; apply Hs; plia]. set_solver.
  - rewrite ld64_st64_ne by lia. by apply ld64_st64_eq.
  - by apply ld64_st64_eq.
Qed.

(** A process that is about to run [initcode]. *)
Record first_proc (m : memory) (p : proc) : Prop := {
  fp_run : pstate p = RUNNABLE;
  fp_epc : ld64 m (trapframe p + tf_epc) = 0;
  fp_sp : ld64 m (trapframe p + tf_sp) = PGSIZE;
  fp_sz : psz p = PGSIZE;
  fp_code : exists q, leaf m (pagetable p) 0 = mk_pte q (Z.lor (Z.lor (Z.lor PTE_W PTE_R) PTE_X) PTE_U) /\ ld_bytes m q (length initcode) = initcode;
}.

(** The memory of the first process, given the tables that [allocproc] made. *)
Lemma first_memory x (p : proc) T L :
  space (mem x) p T [] -> kalloc_inv x L -> (dom T ∪ {[trapframe p]} ## list_to_set L) -> (4 <= length L)%nat ->
  wp (uvmfirst (pagetable p) initcode x) (fun _ y => let m := st64 (st64 (mem y) (trapframe p + tf_epc) 0) (trapframe p + tf_sp) PGSIZE in
    forall p', pagetable p' = pagetable p -> trapframe p' = trapframe p -> psz p' = PGSIZE -> pstate p' = RUNNABLE ->
    exists q T' L', space m p' T' [q] /\ first_proc m p' /\ kalloc_inv (set_mem m y) L' /\ (pages_of p' T' [q] ## list_to_set L') /\
      pages_of p' T' [q] ∪ list_to_set L' = pages_of p T [] ∪ list_to_set L /\ same_except (pages_of p T [] ∪ list_to_set L) (mem x) m).
Proof.
  intros [A1 A2 A3 A4 A5 A6] Hk Hd HL. assert (proc_mem x (pagetable p) T [] L) as Hpm by (split; [done|done|clear - Hd; set_solver|clear; set_solver]).
  eapply wp_mono; [apply (uvmfirst_spec _ initcode x T L Hpm); [done|done]|].
  intros [] y (q & T' & L' & Hpm' & Eall & Hse & Hleaf & Hhi & Hcode) m p' Ep Et Es Er. unfold all_pages in *.
  pose proof (kpage_aligned _ A4) as Hta. destruct (tf_words (mem y) (trapframe p) Hta) as (Hs & W1 & W2). fold m in Hs, W1, W2. clearbody m.
  assert (trapframe p ∉ (dom T' ∪ list_to_set [q] ∪ list_to_set L' : gset Z)) as Hout by (rewrite Eall; clear - A5 Hd; set_solver).
  assert ({[trapframe p]} ## dom T') as HdT by (clear - Hout; set_solver). assert ({[trapframe p]} ## (list_to_set L' : gset Z)) as HdL by (clear - Hout; set_solver).
  pose proof (proc_mem_frame _ m _ _ _ _ _ Hpm' Hs HdT HdL) as [Hk2 Has2 HdT2 HdF2]. pose proof (as_pt _ _ _ _ (pm_as _ _ _ _ _ Hpm')) as Hpt.
  assert (q <> trapframe p) as Hqt by (clear - Hout; set_solver). pose proof (as_pages _ _ _ _ Has2) as Hkq. apply Forall_cons in Hkq as [Hkq _].
  exists q, T', L'. unfold pages_of. rewrite Et. split_and!.
  - split; rewrite ?Ep, ?Et, ?Es; try done; [clear - Hout; set_solver|].
    intros va Hva. rewrite (leaf_frame Hpt _ _ _ Hs HdT) by plia. rewrite Hhi by plia. by apply A6.
  - split; rewrite ?Ep, ?Et; try done. exists q. split; [by rewrite (leaf_frame Hpt _ _ _ Hs HdT) by plia|].
    rewrite (same_except_ld_bytes _ _ _ _ _ Hs); [exact Hcode|]. intros z Hz. rewrite (pg_in q); [clear - Hqt; set_solver|by apply kpage_aligned|]. change (Z.of_nat (length initcode)) with 52 in Hz. clear - Hz. plia.
  - exact Hk2.
  - clear - HdT2 HdF2 HdL. set_solver.
  - transitivity ({[trapframe p]} ∪ (dom T' ∪ list_to_set [q] ∪ list_to_set L') : gset Z); [by rewrite !(assoc_L (∪))|]. rewrite Eall. by rewrite !(assoc_L (∪)).
  - eapply same_except_mono; [|eapply same_except_trans; [exact Hse|exact Hs]]. rewrite Eall. clear. set_solver.
Qed.
Lemma holds_none s O L U i : isolated s O L U -> (i < NPROCn)%nat -> pstate (procs s !!! i) = UNUSED -> O i = ∅.
Proof. intros Hi Hlt Hu. pose proof (is_holds _ _ _ _ Hi i Hlt) as Ho. unfold holds in Ho. rewrite decide_True in Ho by done. apply Ho. Qed.

Lemma wp_tf_store {A} i off v (k : unit -> M (kst St) A) s Q :
  wp (k tt (set_ph (set_mem (st64 (mem (ph s)) (trapframe (procs s !!! i) + off) v) (ph s)) s)) Q -> wp ((tf_store i off v ≫= k) s) Q.
Proof. done. Qed.

Lemma wp_upd_proc {A} i f (k : unit -> M (kst St) A) s Q :
  wp (k tt (set_procs (<[i := f (procs s !!! i)]> (procs s)) s)) Q -> wp ((upd_proc i f ≫= k) s) Q.
Proof. done. Qed.

Lemma upd_same i f (ps : list proc) p : (i < length ps)%nat -> <[i := f (<[i := p]> ps !!! i)]> (<[i := p]> ps) = <[i := f p]> ps.
Proof. intros Hi. by rewrite list_lookup_total_insert_eq, list_insert_insert_eq. Qed.

(** The end of [userinit]: the entry and its trapframe are filled in. *)
Definition initcode_name : list Z := [105; 110; 105; 116; 99; 111; 100; 101].

Lemma userinit_tail s i : (i < length (procs s))%nat -> no_inodes (itable (kfs s)) ->
  let q := procs s !!! i in let m := st64 (st64 (mem (ph s)) (trapframe q + tf_epc) 0) (trapframe q + tf_sp) PGSIZE in
  wp ((upd_proc i (with_psz PGSIZE);; tf_store i tf_epc 0;; tf_store i tf_sp PGSIZE;; upd_proc i (with_pname initcode_name);;
       d ← on_fs (namei 0 0 [SLASH]); upd_proc i (with_cwd d);; upd_proc i (with_pstate RUNNABLE)) s)
    (fun _ s' => exists ip t, in_use t ip ROOTDEV ROOTINO /\
      s' = set_procs (<[i := with_pstate RUNNABLE (with_cwd (Some ip) (with_pname initcode_name (with_psz PGSIZE q)))]> (procs s))
        (set_fs (set_itable t (set_km (set_mem m (ph s)) (kfs s))) s)).
Proof.
  intros Hi Hino q m. apply wp_upd_proc, wp_tf_store, wp_tf_store, wp_upd_proc. cbn [procs set_ph set_fs set_procs]. rewrite upd_same, list_lookup_total_insert_eq by done.
  unfold on_fs at 1. apply wp_bind. set (s1 := set_procs _ _). assert (no_inodes (itable (kfs s1))) as Hino1 by exact Hino. pose proof (namei_root (kfs s1) Hino1) as Hn.
  unfold zoom. destruct (namei 0 0 [SLASH] (kfs s1)) as [r x| |]; [|done..]. destruct Hn as (ip & e & -> & -> & Hu). cbn [wp]. apply wp_upd_proc.
  unfold upd_proc, modify. cbn [wp]. exists ip, (<[ip := e]> (itable (kfs s1))). split; [exact Hu|]. cbn [procs set_fs set_procs]. unfold s1. cbn [procs set_ph set_fs set_procs].
  rewrite !list_insert_insert_eq, !list_lookup_total_insert_eq by (rewrite ?length_insert; exact Hi). reflexivity.
Qed.

(** What [userinit] does to the entry [i]. *)
Record started_user s s' (i : nat) L U : Prop := {
  su_entry : exists p, procs s' = <[i := p]> (procs s) /\ first_proc (mem (ph s')) p /\ parent p = parent (procs s !!! i) /\ ofile p = ofile (procs s !!! i) /\
    exists ip, cwd p = Some ip /\ in_use (itable (kfs s')) ip ROOTDEV ROOTINO;
  su_init : initproc s' = Some i;
  su_files : ftable s' = ftable s;
  su_iso : exists O' L', isolated s' O' L' U;
  su_frame : same_except (list_to_set L) (mem (ph s)) (mem (ph s'));
}.

Lemma userinit_spec s O L U i :
  isolated s O L U -> find_unused NPROCn 0 (procs s) = Some i -> (10 <= length L)%nat -> no_inodes (itable (kfs s)) ->
  wp (userinit s) (fun _ s' => started_user s s' i L U).
Proof.
  intros Hiso Hf HL Hino. pose proof (is_len _ _ _ _ Hiso) as Hlen. destruct (find_unused_spec _ _ _ _ Hf) as [Hi Hu]. assert (i < NPROCn)%nat as Hin by (clear - Hi; lia).
  pose proof (holds_none _ _ _ _ _ Hiso Hin Hu) as HO. pose proof (is_free _ _ _ _ Hiso) as Hk.
  unfold userinit. wp_step (wp_both _ _ _ (allocproc_spec s O L U Hiso) (allocproc_some s L i Hk Hf ltac:(rewrite Hlen; exact Hin) ltac:(lia))).
  intros r s1 [[Hq Hb] (-> & (L1 & Hk1 & HL1) & tf & pt & ra & sp & Enew)]. destruct Hb as [_ _ Bp Bs _ _ Bf (T & L1' & Hsp & Eall & Hiso1)].
  pose proof (free_list_unique _ _ _ Hk1 (is_free _ _ _ _ Hiso1)) as EL. subst L1'. apply wp_modify. cbv beta iota. unfold get_proc. apply wp_bind, wp_gets.
  cbn [procs set_initproc]. set (p1 := procs s1 !!! i) in *. apply wp_bind, wp_on_mem.
  assert (pages_of p1 T [] ## list_to_set L1) as Hd1 by (pose proof (is_apart _ _ _ _ Hiso1 i Hin) as Hx; by rewrite fn_lookup_insert in Hx).
  eapply wp_mono; [apply (first_memory (ph s1) p1 T L1 Hsp Hk1); [unfold pages_of in Hd1; clear - Hd1; set_solver|lia]|].
  intros [] y Hy. cbv zeta in Hy. set (s2 := set_ph y _). assert (procs s2 = procs s1 /\ ph s2 = y) as [E1 E2] by done.
  assert (no_inodes (itable (kfs s2))) as Hino2 by (change (kfs s2) with (set_km y (kfs s1)); rewrite Hq; exact Hino).
  assert (i < length (procs s2))%nat as Hi2 by (rewrite E1, (is_len _ _ _ _ Hiso1); exact Hin).
  eapply wp_mono; [exact (userinit_tail s2 i Hi2 Hino2)|]. rewrite E1, E2. fold p1. intros [] s' (ip & t & Huse & Es').
  set (p' := with_pstate _ _) in Es'. destruct (Hy p' eq_refl eq_refl eq_refl eq_refl) as (q & T' & L' & Hsp' & Hfp & Hk' & Hd' & Eall' & Hse). set (m := st64 _ _ _) in *.
  assert (mem (ph s') = m) as Em by (rewrite Es'; done). assert (procs s' = <[i := p']> (procs s)) as Ep' by (rewrite Es'; cbn [procs set_procs]; rewrite Bp; by rewrite list_insert_insert_eq).
  assert (same_except (list_to_set L) (mem (ph s)) m) as Hsm by (rewrite Eall in Hse; eapply same_except_mono; [|eapply same_except_trans; [exact Bf|exact Hse]]; clear; set_solver).
  split.
  - exists p'. split; [done|]. rewrite Em. split; [done|]. unfold p'. rewrite Enew. split; [done|]. split; [done|]. exists ip. split; [done|]. rewrite Es'. exact Huse.
  - by rewrite Es'.
  - rewrite Es'. change (ftable s1 = ftable s). rewrite Hq. done.
  - exists (<[i := pages_of p' T' [q]]> O), L'. eapply isolated_change; [exact Hiso|exact Hin|exact Ep'|by rewrite Es'| | |exact Hd'|].
    + rewrite HO, Em. eapply same_except_mono; [|exact Hsm]. clear; set_solver.
    + rewrite Em. unfold holds. rewrite decide_False by done. by exists T', [q].
    + rewrite HO, Eall', Eall. clear; set_solver.
  - by rewrite Em.
Qed.
End user.

(** ** The disk driver's initialisation *)

(** A virtio disk that has not been started: what the driver reads from it, as
    the virtio specification promises; [ok] are its states until the queue is ready. *)
Record disk_present {DV} `{!Mmio DV} (ok : DV -> Prop) : Prop := {
  dp_read r d : ok d -> ok (mread r d).2;
  dp_write r v d : r <> VIRTIO_MMIO_QUEUE_READY -> ok d -> ok (mwrite r v d);
  dp_magic d : ok d -> (mread VIRTIO_MMIO_MAGIC_VALUE d).1 = 0x74726976;
  dp_version d : ok d -> (mread VIRTIO_MMIO_VERSION d).1 = 2;
  dp_device d : ok d -> (mread VIRTIO_MMIO_DEVICE_ID d).1 = 2;
  dp_vendor d : ok d -> (mread VIRTIO_MMIO_VENDOR_ID d).1 = 0x554d4551;
  dp_status v d : ok d -> Z.land v VIRTIO_CONFIG_S_FEATURES_OK <> 0 ->
    Z.land (u32 (mread VIRTIO_MMIO_STATUS (mwrite VIRTIO_MMIO_STATUS v d)).1) VIRTIO_CONFIG_S_FEATURES_OK <> 0;
  dp_ready d : ok d -> (mread VIRTIO_MMIO_QUEUE_READY d).1 = 0;
  dp_max d : ok d -> NUM <= u32 (mread VIRTIO_MMIO_QUEUE_NUM_MAX d).1;
}.

Section disk.
Context `{Linker} `{Symbols} {St : Type} {ST : Store St} {DV : Type} `{!Mmio DV} (ok : DV -> Prop) (Hdev : disk_present ok).
Implicit Types s : vst St DV.

Lemma wp_rreg {B} r (k : Z -> M (vst St DV) B) s d Q : ok d ->
  (forall v d', v = u32 (mread r d).1 -> ok d' -> wp (k v (set_vdev d' s)) Q) -> wp ((rreg r ≫= k) (set_vdev d s)) Q.
Proof.
  intros Hd Hk. apply wp_bind. unfold rreg. pose proof (dp_read _ Hdev r d Hd) as Hr. specialize (Hk (u32 (mread r d).1) (mread r d).2 eq_refl Hr).
  cbn [vdev set_vdev]. destruct (mread r d) as [v d']. exact Hk.
Qed.

Lemma wp_wreg {B} r v (k : unit -> M (vst St DV) B) s d Q : ok d -> r <> VIRTIO_MMIO_QUEUE_READY ->
  (forall d', ok d' -> wp (k tt (set_vdev d' s)) Q) -> wp ((wreg r v ≫= k) (set_vdev d s)) Q.
Proof. intros Hd Hr Hk. apply (Hk (mwrite r (u32 v) d)). by apply dp_write. Qed.

Lemma wp_vmem {A B} (c : M phys A) (k : A -> M (vst St DV) B) s Q :
  wp (c (ph (vk s))) (fun a x => wp (k a (set_vk (set_ph x (vk s)) s)) Q) -> wp ((on_vk (on_mem_k c) ≫= k) s) Q.
Proof. intros Hc. apply wp_bind. unfold on_vk, on_mem_k, on_fs, on_km, zoom. unfold ph in Hc. by destruct (c _). Qed.

(** The three pages of the queue leave the free list, and nothing else of memory changes. *)
Definition queue_taken s s' L : Prop := exists x q1 q2 q3 L', L = q1 :: q2 :: q3 :: L' /\ vk s' = set_ph x (vk s) /\ kalloc_inv x L' /\ same_except {[q1; q2; q3]} (mem (ph (vk s))) (mem x).

Lemma kalloc_three {A} s L (k : Z -> Z -> Z -> M (vst St DV) A) Q : kalloc_inv (ph (vk s)) L -> (3 <= length L)%nat ->
  (forall q1 q2 q3 L' y, L = q1 :: q2 :: q3 :: L' -> kpage q1 -> kpage q2 -> kpage q3 -> kalloc_inv y L' -> same_except {[q1; q2; q3]} (mem (ph (vk s))) (mem y) ->
     ({[q1; q2; q3]} : gset Z) ## list_to_set L' -> wp (k q1 q2 q3 (set_vk (set_ph y (vk s)) s)) Q) ->
  wp ((a ← on_vk (on_mem_k kalloc); b ← on_vk (on_mem_k kalloc); c ← on_vk (on_mem_k kalloc); k a b c) s) Q.
Proof.
  intros Hk HL Hq. destruct L as [|q1 [|q2 [|q3 L]]]; simpl in HL; try lia. pose proof (ki_nodup _ _ Hk) as Hnd. pose proof (ki_pages _ _ Hk) as Hpg. rewrite !Forall_cons in Hpg. destruct Hpg as (K1 & K2 & K3 & _).
  apply wp_vmem. eapply wp_mono; [apply (kalloc_spec _ _ Hk)|]. intros a y1 (-> & Hk1 & S1 & _).
  apply wp_vmem. eapply wp_mono; [apply (kalloc_spec _ _ Hk1)|]. intros b y2 (-> & Hk2 & S2 & _).
  apply wp_vmem. eapply wp_mono; [apply (kalloc_spec _ _ Hk2)|]. intros c y3 (-> & Hk3 & S3 & _).
  apply (Hq q1 q2 q3 L y3 eq_refl K1 K2 K3 Hk3).
  - exact (same_except_trans _ _ _ _ _ (same_except_trans _ _ _ _ _ S1 S2) S3).
  - rewrite !NoDup_cons, !elem_of_cons in Hnd. clear - Hnd. set_solver.
Qed.

Lemma wp_clear {A} s q P L y (k : unit -> M (vst St DV) A) m0 Q : kpage q -> q ∈ P -> P ## list_to_set L -> kalloc_inv y L -> same_except P m0 (mem y) ->
  (forall y', kalloc_inv y' L -> same_except P m0 (mem y') -> wp (k tt (set_vk (set_ph y' (vk s)) s)) Q) ->
  wp ((on_vk (on_mem_k (do_memset q 0 PGSIZE)) ≫= k) (set_vk (set_ph y (vk s)) s)) Q.
Proof.
  intros Hq HP Hd Hk Hs Hc. apply wp_vmem. unfold do_memset, modify. cbn [wp]. set (y' := set_mem _ _).
  assert (same_except {[q]} (mem y) (mem y')) as Hs' by (apply same_except_memset_page; by apply kpage_aligned). apply (Hc y').
  - eapply kalloc_inv_frame; [exact Hk|exact Hs'|]. clear - HP Hd. set_solver.
  - eapply same_except_mono; [|eapply same_except_trans; [exact Hs|exact Hs']]. clear - HP. set_solver.
Qed.

Lemma wp_features {B} v (k : Z -> M (vst St DV) B) s d Q : ok d -> Z.land (u32 v) VIRTIO_CONFIG_S_FEATURES_OK <> 0 ->
  (forall st d', Z.land st VIRTIO_CONFIG_S_FEATURES_OK <> 0 -> ok d' -> wp (k st (set_vdev d' s)) Q) ->
  wp ((wreg VIRTIO_MMIO_STATUS v ≫= fun _ => rreg VIRTIO_MMIO_STATUS ≫= k) (set_vdev d s)) Q.
Proof.
  intros Hd Hv Hk. apply wp_modify. cbv beta. change (wp ((rreg VIRTIO_MMIO_STATUS ≫= k) (set_vdev (mwrite VIRTIO_MMIO_STATUS (u32 v) d) s)) Q).
  apply wp_rreg; [by apply dp_write|]. intros st d' -> Hd'. apply Hk; [|done]. by apply (dp_status _ Hdev).
Qed.

(** Steps of the driver that leave the device as it is, as far as [ok] tells. *)
Ltac dev_read := match goal with |- wp ((rreg _ ≫= _) (set_vdev ?d ?s)) _ => apply (wp_rreg _ _ s d); [assumption|] end.
Ltac dev_write d Hd := match goal with |- wp ((wreg _ _ ≫= _) (set_vdev ?d0 ?s)) _ => apply (wp_wreg _ _ _ s d0); [assumption|discriminate|clear dependent d0; intros d Hd] end.

Lemma init_returns s L : ok (vdev s) -> kalloc_inv (ph (vk s)) L -> (3 <= length L)%nat -> wp (virtio_disk_init s) (fun _ s' => queue_taken s s' L).
Proof.
  intros Hok Hk HL. unfold virtio_disk_init. replace s with (set_vdev (vdev s) s) at 1 by (by destruct s). generalize dependent (vdev s). intros d Hd.
  dev_read. intros v1 d1 E1 D1. rewrite (dp_magic _ Hdev) in E1 by done.
  dev_read. intros v2 d2 E2 D2. rewrite (dp_version _ Hdev) in E2 by done.
  dev_read. intros v3 d3 E3 D3. rewrite (dp_device _ Hdev) in E3 by done.
  dev_read. intros v4 d4 E4 D4. rewrite (dp_vendor _ Hdev) in E4 by done. rewrite E1, E2, E3, E4. change (negb _ || _ || _ || _) with false. cbv iota.
  clear d Hd v1 d1 E1 D1 v2 d2 E2 D2 v3 d3 E3 D3 v4 E4. rename d4 into d, D4 into Hd.
  dev_write d1 D1. dev_write d D. dev_write d2 D2. dev_read. intros f d3 _ D3. dev_write d D.
  apply wp_features; [assumption|discriminate|]. clear d D. intros st d Hst D. apply Z.eqb_neq in Hst. rewrite Hst. dev_write d1' D1'.
  dev_read. intros v5 d5 E5 D5. rewrite (dp_ready _ Hdev) in E5 by done. rewrite E5. change (negb _) with false. cbv iota.
  dev_read. intros mx d6 Emx D6. pose proof (dp_max _ Hdev _ D5) as Hmx. rewrite <- Emx in Hmx. unfold NUM in Hmx at 1. rewrite (proj2 (Z.eqb_neq mx 0)) by (clear - Hmx; lia).
  rewrite (proj2 (Z.ltb_ge mx NUM)) by exact Hmx. apply (kalloc_three (set_vdev d6 s) L); [exact Hk|exact HL|].
  intros q1 q2 q3 L' y EL K1 K2 K3 Hky Hse Hdis. pose proof (kpage_pos _ K1). pose proof (kpage_pos _ K2). pose proof (kpage_pos _ K3).
  rewrite !(proj2 (Z.eqb_neq _ 0)) by lia. cbn [orb].
  apply (wp_clear (set_vdev d6 s) q1 {[q1; q2; q3]} L' y _ (mem (ph (vk s)))); [done|clear; set_solver|done|done|done|]. clear y Hky Hse. intros y Hky Hse.
  apply (wp_clear (set_vdev d6 s) q2 {[q1; q2; q3]} L' y _ (mem (ph (vk s)))); [done|clear; set_solver|done|done|done|]. clear y Hky Hse. intros y Hky Hse.
  apply (wp_clear (set_vdev d6 s) q3 {[q1; q2; q3]} L' y _ (mem (ph (vk s)))); [done|clear; set_solver|done|done|done|]. clear y Hky Hse. intros y Hky Hse.
  repeat (apply wp_modify; cbv beta). unfold wreg, modify. cbn [wp]. exists y, q1, q2, q3, L'. split; [exact EL|]. split; [reflexivity|]. split; [exact Hky|exact Hse].
Qed.
End disk.

(** ** [main] on the first hart *)

Section main.
Context `{Linker} `{Symbols} {St : Type} {ST : Store St} {DU DV DP : Type} `{Uart DU} `{!Mmio DV} `{!Mmio DP}.
Abbreviation B := (bst St DU DV DP).
Implicit Types b : B.
Implicit Types k : kst St.

Abbreviation kernel b := (ck (bcon b)).

(** A process entry of a kernel whose data are zeroed. *)
Record blank (p : proc) : Prop := {
  bl_pt : pagetable p = 0;
  bl_tf : trapframe p = 0;
  bl_sz : psz p = 0;
  bl_parent : parent p = None;
  bl_files : ofile p = repeat None NOFILEn;
}.

Record blank_kernel k : Prop := {
  bk_len : length (procs k) = NPROCn;
  bk_procs i : (i < NPROCn)%nat -> blank (procs k !!! i);
  bk_files : length (ftable k) = NFILEn /\ forall f, (f < NFILEn)%nat -> fref (ftable k !!! f) = 0;
  bk_inodes : no_inodes (itable (kfs k));
}.

(** The state at power-on, when the kernel's data are zero. *)
Record cold b : Prop := {
  co_kernel : blank_kernel (kernel b);
  co_free : freelist (ph (kernel b)) = 0;
  co_console : panicked (bcon b) = false;
  co_disk : used_idx (bvirt b) = 0 /\ forall x, ddisk (dbufs (bvirt b) x) = false;
}.

(** The kernel's page table, and processes and memory apart from it. *)
Definition kernel_mapped (m : memory) (root : Z) (U : gset Z) : Prop := exists T S, pt_inv m root T /\ (U ## dom T) /\ (U ## list_to_set S) /\ length S = 64%nat /\
  forall va, 0 <= va < MAXVA -> leaf m root va = kmap (stack_regions S ++ kregions) va.

(** What the other theorems start from. *)
Record booted b : Prop := {
  bd_started : started b = true;
  bd_hart : bhart b satp = MAKE_SATP (bkpt b) /\ bhart b stvec = kernelvec_addr;
  bd_memory : exists U, kernel_mapped (mem (ph (kernel b))) (bkpt b) U /\
    forall k', rtc istep (kernel b) k' -> exists O L, isolated k' O L U;
  bd_init : initproc (kernel b) = Some 0%nat /\ first_proc (mem (ph (kernel b))) (procs (kernel b) !!! 0%nat) /\
    exists ip, cwd (procs (kernel b) !!! 0%nat) = Some ip /\ in_use (itable (kfs (kernel b))) ip ROOTDEV ROOTINO;
  bd_files : accounted none (kernel b);
  bd_wait : wait_inv (kernel b);
  bd_disk : vready (set_vk (kernel b) (bvirt b));
}.

Lemma istep_reach k O L U k' : isolated k O L U -> rtc istep k k' -> exists O' L', isolated k' O' L' U.
Proof. intros Hi Hr. revert O L Hi. induction Hr as [k|k1 k2 k3 Hs _ IH]; intros O L Hi; [eauto|]. destruct (istep_isolated _ _ _ _ _ Hi Hs) as (O' & L' & Hi'). eauto. Qed.

Lemma pages_enough L (N : nat) : (forall p, p ∈ L <-> kpage p) -> kend + (N + 1) * PGSIZE <= PHYSTOP -> (N <= length L)%nat.
Proof.
  intros HL HN. pose proof kend_range as Hr. pose proof etext_kend. pose proof trampoline_range. destruct (PGROUNDUP_bounds kend) as [Hb Ha]; [change (2 ^ 64) with 18446744073709551616; plia|].
  assert (length ((fun i : nat => (PGROUNDUP kend + i * PGSIZE)%Z) <$> seq 0 N) <= length L)%nat as Hle; [|by rewrite length_fmap, length_seq in Hle].
  apply submseteq_length, NoDup_submseteq; [apply NoDup_fmap_2; [intros i j; plia|apply NoDup_seq]|]. intros p (i & -> & Hi%elem_of_seq)%list_elem_of_fmap. apply HL.
  clear - HN Hi Hb Ha. unfold kpage, aligned in *. plia.
Qed.

(** *** One step after another *)

Definition with_kernel k b : B := mk_bst (set_ck k (bcon b)) (bvirt b) (bplic b) (bhart b) (bkpt b) (started b).

Lemma wp_b_k {A C} (c : M (kst St) A) (f : A -> M B C) b Q : wp (c (kernel b)) (fun a k => wp (f a (with_kernel k b)) Q) -> wp ((b_k c ≫= f) b) Q.
Proof. intros Hc. apply wp_bind. unfold b_k, b_con, on_ck, zoom. by destruct (c (kernel b)). Qed.

Definition with_output d o b : B := mk_bst (set_dev d o (bcon b)) (bvirt b) (bplic b) (bhart b) (bkpt b) (started b).

Lemma wp_b_print {C} spin fmt l (f : unit -> M B C) b Q : (forall d, polls spin d = true) -> panicked (bcon b) = false -> printf fmt [] = Some l ->
  (forall d o, wp (f tt (with_output d o b)) Q) -> wp ((b_con (kprintf spin fmt []) ≫= f) b) Q.
Proof.
  intros Hs Hp Hl Hf. apply wp_bind. unfold b_con, zoom, kprintf. rewrite Hl. pose proof (consputs_spec spin Hs l (bcon b) Hp) as Hw.
  destruct (consputs spin l (bcon b)) as [[] c| |]; [|done..]. destruct Hw as (d & o & ->). apply Hf.
Qed.

Lemma wp_console {C} spin (f : unit -> M B C) b Q : (forall d, polls spin d = true) -> panicked (bcon b) = false ->
  (forall d o, wp (f tt (with_output d o b)) Q) ->
  wp ((b_con consoleinit;; b_con (kprintf spin [NEWLINE] []);; b_con (kprintf spin booting []);; b_con (kprintf spin [NEWLINE] []) ≫= f) b) Q.
Proof.
  intros Hs Hp Hf. apply wp_bind. assert (exists d, b_con consoleinit b = Ret tt (with_output d (cout (bcon b)) b)) as [d0 ->] by (by eexists). cbn [wp].
  eapply wp_b_print; [done|done|vm_compute; reflexivity|]. intros d1 o1. eapply wp_b_print; [done|done|vm_compute; reflexivity|]. intros d2 o2.
  eapply wp_b_print; [done|done|vm_compute; reflexivity|]. intros d3 o3. apply Hf.
Qed.

Definition with_table kpt b : B := mk_bst (bcon b) (bvirt b) (bplic b) (bhart b) kpt (started b).

Lemma wp_memory {C} (f : unit -> M B C) b Q : freelist (ph (kernel b)) = 0 -> kend + 200 * PGSIZE <= PHYSTOP ->
  (forall x kpt L, kalloc_inv x L -> (13 <= length L)%nat -> kernel_mapped (mem x) kpt (list_to_set L) -> wp (f tt (with_table kpt (with_kernel (set_ph x (kernel b)) b))) Q) ->
  wp ((b_k (on_mem_k kinit);; kvminit ≫= f) b) Q.
Proof.
  intros Hfree Hroom Hf. apply wp_b_k, wp_on_mem. eapply wp_mono; [by apply kinit_spec|]. intros [] x (L0 & Hk0 & HL0). pose proof (pages_enough L0 199 HL0 ltac:(lia)) as HN.
  apply wp_bind. unfold kvminit. apply wp_b_k, wp_on_mem. eapply wp_mono; [apply (kvmmake_spec _ L0 Hk0); lia|].
  intros kpt y (T & L & S & [Hk Hpt [Hnd Hd] _ Hc _ Hm Hl] & HS). pose proof (tables_few _ _ _ Hpt Hl) as HT. apply (Hf y kpt L Hk); [lia|]. exists T, S. rewrite list_to_set_app_L in Hd.
  apply NoDup_app in Hnd as (_ & Hnd & _). split; [done|]. split; [clear - Hd; set_solver|]. split; [clear - Hnd; set_solver|]. split; [done|exact Hm].
Qed.

(** The process table is empty, and no file or inode is in use. *)
Definition ready k : Prop := blank_kernel k /\ forall i, (i < NPROCn)%nat -> pstate (procs k !!! i) = UNUSED.

Lemma blank_same k k' : procs k' = procs k -> ftable k' = ftable k -> no_inodes (itable (kfs k')) -> blank_kernel k -> blank_kernel k'.
Proof. intros E1 E2 Hn [A1 A2 A3 A4]. by split; rewrite ?E1, ?E2. Qed.

Lemma procinit_ready k : blank_kernel k -> wp (procinit k) (fun _ k' => ready k' /\ ph k' = ph k).
Proof.
  intros [A1 A2 A3 A4]. unfold procinit, modify. cbn [wp]. split; [|done].
  assert (forall i, (i < NPROCn)%nat -> imap (fun i p => with_kstack (KSTACK i) (with_pstate UNUSED p)) (procs k) !!! i = with_kstack (KSTACK i) (with_pstate UNUSED (procs k !!! i))) as E.
  { intros i Hi. apply list_lookup_total_correct. rewrite list_lookup_imap. rewrite (list_lookup_lookup_total_lt (procs k) i) by (rewrite A1; exact Hi). done. }
  split; [split|]; cbn [procs set_procs]; [by rewrite length_imap| |done|done|].
  - intros i Hi. rewrite E by done. by destruct (A2 i Hi).
  - intros i Hi. by rewrite E.
Qed.

Lemma iinit_loop_kept n i (x : fsst St) : wp (iinit_loop n i x) (fun _ x' => Fs.store x' = Fs.store x /\ km x' = km x /\ length (itable x') = length (itable x) /\
  forall j, iref (itable x' !!! j) = iref (itable x !!! j)).
Proof.
  revert i x. induction n as [|n IH]; intros i x; cbn [iinit_loop]; [by apply wp_ret|]. apply wp_modify. cbv beta. eapply wp_mono; [apply IH|].
  intros [] x' (E1 & E2 & E3 & E4). split; [exact E1|]. split; [exact E2|]. split; [rewrite E3; apply length_insert|]. intros j. rewrite E4. cbn [itable set_itable].
  destruct (decide (j = i)) as [->|Hne]; [|by rewrite list_lookup_total_insert_ne]. destruct (decide (i < length (itable x))%nat); [by rewrite list_lookup_total_insert_eq|].
  by rewrite list_insert_ge by lia.
Qed.

Lemma iinit_ready k : ready k -> wp (on_fs iinit k) (fun _ k' => ready k' /\ ph k' = ph k).
Proof.
  intros [Hb Hu]. unfold on_fs, zoom, iinit. pose proof (iinit_loop_kept NINODEn 0 (kfs k)) as Hi. destruct (iinit_loop _ _ _) as [[] x| |]; [|done..]. destruct Hi as (_ & E2 & E3 & E4).
  cbn [wp]. split; [|exact E2]. split; [|exact Hu]. apply (blank_same k); [reflexivity|reflexivity| |exact Hb]. destruct (bk_inodes _ Hb) as [I1 I2]. split; [exact (eq_trans E3 I1)|].
  intros ip Hip. exact (eq_trans (E4 ip) (I2 ip Hip)).
Qed.

Lemma ready_isolated k L : ready k -> kalloc_inv (ph k) L -> isolated k (fun _ => ∅) L (list_to_set L).
Proof.
  intros [[A1 A2 _ _] Hu] Hk. split; [done|done| |clear; set_solver|clear; set_solver|].
  - intros i Hi. destruct (A2 i Hi). apply holds_unused; auto.
  - intros x. rewrite elem_of_list_to_set. split; [by left|]. intros [|(i & _ & Hx)]; [done|]. by apply elem_of_empty in Hx.
Qed.
Lemma rets_wp {A} (o : outcome (vst St DV) A) P Q : rets o P -> wp o Q -> wp o (fun a s => P a s /\ Q a s).
Proof. by destruct o. Qed.

Definition with_disk (v : vst St DV) b : B := mk_bst (set_ck (vk v) (bcon b)) v (bplic b) (bhart b) (bkpt b) (started b).

Lemma wp_disk {C} ok (f : unit -> M B C) b L Q : disk_present ok -> ok (vdev (bvirt b)) -> ready (kernel b) -> used_idx (bvirt b) = 0 -> (forall x, ddisk (dbufs (bvirt b) x) = false) ->
  kalloc_inv (ph (kernel b)) L -> (3 <= length L)%nat ->
  (forall v, vready v -> queue_taken (set_vk (kernel b) (bvirt b)) v L -> wp (f tt (with_disk v b)) Q) -> wp ((b_virt virtio_disk_init ≫= f) b) Q.
Proof.
  intros Hdev Hok [Hb Hu] Hx Hd Hk HL Hf. apply wp_bind. unfold b_virt, zoom. set (v0 := set_vk _ _).
  assert (unused v0) as Hun.
  { split; [exact Hx|exact Hd|]. intros t c _ (Ht & Hs & _). change (vk v0) with (kernel b) in *. rewrite Hu in Hs by (by rewrite <- (bk_len _ Hb)). done. }
  pose proof (rets_wp _ _ _ (init_ready v0 Hun) (init_returns ok Hdev v0 L Hok Hk HL)) as Hw. destruct (virtio_disk_init v0) as [[] v| |]; [|done..]. destruct Hw as [H2 H3]. exact (Hf v H2 H3).
Qed.

Lemma kernel_mapped_frame m m' root U P : kernel_mapped m root U -> same_except P m m' -> P ⊆ U -> kernel_mapped m' root U.
Proof.
  intros (T & S & A1 & A2 & A3 & A4 & A5) Hs HP. assert (P ## dom T) as Hd by (clear - HP A2; set_solver). exists T, S. split; [by eapply pt_inv_frame|]. split_and!; [done..|].
  intros va Hva. rewrite (leaf_frame A1 _ _ _ Hs Hd) by done. by apply A5.
Qed.

Lemma kernel_mapped_sub m root U U' : kernel_mapped m root U -> U' ⊆ U -> kernel_mapped m root U'.
Proof. intros (T & S & A1 & A2 & A3 & A4 & A5) HU. exists T, S. split_and!; [done|clear - HU A2; set_solver|clear - HU A3; set_solver|done..]. Qed.

Lemma find_unused_ready k : ready k -> find_unused NPROCn 0 (procs k) = Some 0%nat.
Proof. intros [_ Hu]. assert (0 < NPROCn)%nat as Hn by (by apply Nat.ltb_lt). change NPROCn with 64%nat. cbn [find_unused]. by rewrite decide_True by (by apply Hu). Qed.

Lemma refs_blank k f : ready k -> refs f (procs k) = 0%nat.
Proof.
  intros [[A1 A2 _ _] _]. assert (Forall (fun p => ofile p = repeat None NOFILEn) (procs k)) as Hf.
  { apply Forall_lookup_2. intros i p Hp. rewrite <- (list_lookup_total_correct _ _ _ Hp). apply (A2 i). rewrite <- A1. by eapply lookup_lt_Some. }
  clear A1 A2. induction Hf as [|p ps Hp _ IH]; [done|]. cbn [refs]. rewrite IH, Hp. done.
Qed.
(** Every entry but the first is still free. *)
Lemma user_table k k' L U i : ready k -> started_user k k' 0 L U -> (i < NPROCn)%nat ->
  ofile (procs k' !!! i) = repeat None NOFILEn /\ parent (procs k' !!! i) = None /\ (pstate (procs k' !!! i) = UNUSED \/ pstate (procs k' !!! i) = RUNNABLE).
Proof.
  intros [[A1 A2 _ _] Hu] [(p & Ep & Hp & Epar & Eof & _) _ _ _ _] Hi. rewrite Ep. destruct (decide (i = 0%nat)) as [->|Hne].
  - rewrite list_lookup_total_insert_eq by (rewrite A1; exact Hi). rewrite Epar, Eof. destruct (A2 0%nat Hi). split_and!; [done|done|]. right. apply (fp_run _ _ Hp).
  - rewrite list_lookup_total_insert_ne by done. destruct (A2 i Hi). split_and!; [done|done|]. left. by apply Hu.
Qed.

Lemma user_len k k' L U : ready k -> started_user k k' 0 L U -> length (procs k') = NPROCn.
Proof. intros [[A1 _ _ _] _] [(p & Ep & _) _ _ _ _]. by rewrite Ep, length_insert. Qed.

Lemma user_accounted k k' L U : ready k -> started_user k k' 0 L U -> accounted none k'.
Proof.
  intros Hr Hs. pose proof (user_len _ _ _ _ Hr Hs) as Hl. destruct (bk_files _ (proj1 Hr)) as [F1 F2]. pose proof (su_files _ _ _ _ _ Hs) as Ef. split; [split|].
  - exact Hl.
  - by rewrite Ef.
  - intros i Hi. by rewrite (proj1 (user_table _ _ _ _ i Hr Hs Hi)).
  - intros i fd f Hi. rewrite (proj1 (user_table _ _ _ _ i Hr Hs Hi)). intros E%list_elem_of_lookup_2%list_elem_of_In%repeat_spec. done.
  - intros i Hi _. apply (user_table _ _ _ _ i Hr Hs Hi).
  - intros f Hf. rewrite Ef, F2 by done. rewrite (refs_same f (procs k') (procs k)), refs_blank; [done|done|by rewrite Hl, (bk_len _ (proj1 Hr))|].
    intros i Hi. rewrite Hl in Hi. rewrite (proj1 (user_table _ _ _ _ i Hr Hs Hi)). symmetry. apply (bk_procs _ (proj1 Hr) i Hi).
Qed.

Lemma user_awake k k' L U i : ready k -> started_user k k' 0 L U -> (i < NPROCn)%nat -> pstate (procs k' !!! i) <> SLEEPING.
Proof. intros Hr Hs Hi. destruct (user_table _ _ _ _ i Hr Hs Hi) as (_ & _ & [->| ->]); done. Qed.

Lemma user_wait k k' L U : ready k -> started_user k k' 0 L U -> wait_inv k'.
Proof.
  intros Hr Hs. split; [by eapply user_len| | |].
  - intros i j Hi [Ha _]. by destruct (user_awake _ _ _ _ i Hr Hs Hi).
  - intros i Hi [Ha _]. by destruct (user_awake _ _ _ _ i Hr Hs Hi).
  - intros c Hc _. apply (user_table _ _ _ _ c Hr Hs Hc).
Qed.

(** The state before the first process is made gives what [booted] asks for. *)
Lemma user_booted k v b L :
  ready k -> vready v -> kernel_mapped (mem (ph k)) (bkpt b) (list_to_set L) -> kalloc_inv (ph k) L -> started b = true ->
  bhart b satp = MAKE_SATP (bkpt b) /\ bhart b stvec = kernelvec_addr -> bvirt b = v -> started_user k (kernel b) 0 L (list_to_set L) -> booted b.
Proof.
  intros Hr [R1 R2 R3 R4 R5] Ht Hk Hst Hh Ev Hs. pose proof (user_len _ _ _ _ Hr Hs) as Hl. split.
  - exact Hst.
  - exact Hh.
  - exists (list_to_set L). split; [eapply kernel_mapped_frame; [exact Ht|exact (su_frame _ _ _ _ _ Hs)|done]|].
    destruct (su_iso _ _ _ _ _ Hs) as (O & L' & Hiso). intros k'. by apply (istep_reach _ O L').
  - destruct (su_entry _ _ _ _ _ Hs) as (p & Ep & Hp & _ & _ & Hc). split; [apply (su_init _ _ _ _ _ Hs)|]. rewrite Ep, list_lookup_total_insert_eq by (rewrite (bk_len _ (proj1 Hr)); by apply Nat.ltb_lt). by split.
  - by eapply user_accounted.
  - by eapply user_wait.
  - subst v. split; [exact R1|exact R2|exact R3|exact R4|]. intros t c _ (Hlt & Ha & _). cbn [vk set_vk] in *. rewrite Hl in Hlt. by destruct (user_awake _ _ _ _ t Hr Hs Hlt).
Qed.
Lemma store_ready k (binit : M St unit) : (forall st, wp (binit st) (fun _ _ => True)) -> ready k -> wp (on_fs (on_store binit) k) (fun _ k' => ready k' /\ ph k' = ph k).
Proof.
  intros Hb Hr. unfold on_fs, on_store, zoom. specialize (Hb (Fs.store (kfs k))). destruct (binit _) as [[] st| |]; [|done..]. cbn [wp]. split; [|done].
  destruct Hr as [Hb1 Hu]. split; [|exact Hu]. apply (blank_same k); [reflexivity|reflexivity|exact (bk_inodes _ Hb1)|exact Hb1].
Qed.

Definition with_hart h b : B := mk_bst (bcon b) (bvirt b) (bplic b) h (bkpt b) (started b).
Definition with_plic p b : B := mk_bst (bcon b) (bvirt b) p (bhart b) (bkpt b) (started b).

Lemma wp_b_csrw {C} r v (f : unit -> M B C) b Q : wp (f tt (with_hart (fun r' => if decide (r' = r) then v else bhart b r') b)) Q -> wp ((b_hart (csrw r v) ≫= f) b) Q.
Proof. done. Qed.

Lemma wp_plic {C} hart (f : unit -> M B C) b Q : (forall p, wp (f tt (with_plic p b)) Q) -> wp ((b_plic plicinit;; b_plic (plicinithart hart) ≫= f) b) Q.
Proof. intros Hf. apply Hf. Qed.

(** The rest of [main], once the page table is there. *)
Lemma main_rest ok (binit : M St unit) b L :
  blank_kernel (kernel b) -> used_idx (bvirt b) = 0 -> (forall x, ddisk (dbufs (bvirt b) x) = false) -> disk_present ok -> ok (vdev (bvirt b)) ->
  (forall st, wp (binit st) (fun _ _ => True)) -> kalloc_inv (ph (kernel b)) L -> (13 <= length L)%nat -> kernel_mapped (mem (ph (kernel b))) (bkpt b) (list_to_set L) -> bhart b satp = MAKE_SATP (bkpt b) ->
  wp ((b_k procinit;; b_hart trapinithart;; b_plic plicinit;; b_plic (plicinithart 0);; b_k (on_fs (on_store binit));; b_k (on_fs iinit);; b_virt virtio_disk_init;; b_k userinit;;
       modify (fun s => mk_bst (bcon s) (bvirt s) (bplic s) (bhart s) (bkpt s) true)) b) (fun _ b' => booted b').
Proof.
  intros Hbk Hx Hd Hdev Hok Hbin Hk HL Ht Hsatp. apply wp_b_k. eapply wp_mono; [by apply procinit_ready|]. intros [] k1 [Hr1 E1].
  apply wp_b_csrw, wp_plic. intros pl. apply wp_b_k. cbn [bcon with_plic with_hart with_kernel ck set_ck]. eapply wp_mono; [by apply store_ready|]. intros [] k2 [Hr2 E2].
  apply wp_b_k. cbn [bcon with_plic with_hart with_kernel ck set_ck]. eapply wp_mono; [by apply iinit_ready|]. intros [] k3 [Hr3 E3].
  assert (ph k3 = ph (kernel b)) as E by congruence. rewrite <- E in *. set (b3 := with_kernel k3 _). assert (kernel b3 = k3) as Ek by done.
  assert (bvirt b3 = bvirt b /\ bkpt b3 = bkpt b /\ bhart b3 satp = MAKE_SATP (bkpt b) /\ bhart b3 stvec = kernelvec_addr) as (Ev & Et & Es & Ev2) by done. clearbody b3. clear E E1 E2 E3 Hr1 k1 Hr2 k2.
  apply (wp_disk ok _ b3 L); rewrite ?Ek, ?Ev; [done|done|done|done|done|done|lia|]. intros v Hv (y & q1 & q2 & q3 & L' & -> & Evk & Hk' & Hse). cbn [vk set_vk] in Evk, Hse.
  simpl in HL. apply wp_b_k. cbn [bcon with_disk ck set_ck]. rewrite Evk. set (k4 := set_ph y k3). assert (ready k4) as Hr4 by (destruct Hr3 as [Hb3 Hu3]; split; [|exact Hu3]; apply (blank_same k3); [reflexivity|reflexivity|exact (bk_inodes _ Hb3)|exact Hb3]).
  assert (ph k4 = y) as E4 by done. clearbody k4. rewrite <- E4 in Hk', Hse.
  assert (kernel_mapped (mem (ph k4)) (bkpt b) (list_to_set L')) as Ht4.
  { eapply kernel_mapped_sub; [eapply kernel_mapped_frame; [exact Ht|exact Hse|]|]; clear; set_solver. }
  eapply wp_mono; [apply (userinit_spec k4 (fun _ => ∅) L' (list_to_set L') 0 (ready_isolated _ _ Hr4 Hk') (find_unused_ready _ Hr4)); [lia|apply (bk_inodes _ (proj1 Hr4))]|].
  intros [] k5 Hu5. unfold modify. cbn [wp]. apply (user_booted k4 v _ L'); [done|done| |done|done| |done|exact Hu5]; cbn [bkpt bhart with_kernel with_disk]; rewrite ?Et; [exact Ht4|by split].
Qed.

(** C19: Boot establishes what the other theorems start from.  On a machine with
    a serial port that accepts bytes, a virtio disk, and two hundred pages of
    memory above the kernel, [main] on the first hart runs to the scheduler: it
    has switched to the kernel's page table, which maps what it should; the first
    process is ready to run [initcode], in memory of its own, with the root as
    its directory; no page is held twice, now or after any steps of the
    processes; the counts of open files and the state of [wait] are right; and
    the disk's queue is set up. *)
Theorem main_boots ok spin (binit : M St unit) b :
  cold b -> kend + 200 * PGSIZE <= PHYSTOP -> (forall d, polls spin d = true) -> disk_present ok -> ok (vdev (bvirt b)) -> (forall st, wp (binit st) (fun _ _ => True)) ->
  wp (main_first spin binit b) (fun _ b' => booted b').
Proof.
  intros [Hbk Hfree Hpan [Hx Hd]] Hroom Huart Hdev Hok Hbin. unfold main_first. apply wp_console; [done|done|]. intros d o.
  apply wp_memory; [done|done|]. intros x kpt L Hk HL Ht. apply wp_gets. unfold kvminithart, w_satp. apply wp_b_csrw. apply (main_rest ok _ _ L); try done.
  apply (blank_same (kernel b)); [done|done|apply (bk_inodes _ Hbk)|exact Hbk].
Qed.
End main.

(** ** At work *)

#[local] Existing Instance big_linker.
#[local] Existing Instance demo_symbols.
#[local] Existing Instance demo_uart.
#[local] Existing Instance demo_disk.

(** A machine just switched on, with the disk and the serial port of the examples. *)
Definition demo_cold : bst ram unit unit unit :=
  mk_bst (mk_cst (set_fs (set_itable (replicate NINODEn inhabitant) (kfs demo_boot)) demo_boot) tt [] false [] 0 0 0 [] 0 0)
    demo_off tt (fun _ => 0) 0 false.

Lemma demo_disk_present : disk_present (fun _ : unit => True).
Proof. split; try done. Qed.

Lemma demo_cold_ok : cold demo_cold.
Proof.
  split; [|done|done|done]. split; [done| |split; [done|]|].
  - intros i Hi. assert (procs (ck (bcon demo_cold)) !!! i = inhabitant) as -> by (apply list_lookup_total_correct, lookup_replicate; split; [done|exact Hi]). done.
  - intros f Hf. assert (ftable (ck (bcon demo_cold)) !!! f = inhabitant) as -> by (apply list_lookup_total_correct, lookup_replicate; split; [done|exact Hf]). done.
  - split; [apply length_replicate|]. intros ip Hip. assert (itable (kfs (ck (bcon demo_cold))) !!! ip = inhabitant) as -> by (apply list_lookup_total_correct, lookup_replicate; split; [done|exact Hip]). done.
Qed.

Lemma main_boots_witness : exists b, main_first 1 (mret tt) demo_cold = Ret tt b /\ initproc (ck (bcon b)) = Some 0%nat /\ accounted none (ck (bcon b)).
Proof.
  assert (kend + 200 * PGSIZE <= PHYSTOP) as Hroom by (cbn [kend big_linker]; plia). assert (forall d : unit, polls 1 d = true) as Huart by (intros []; reflexivity).
  assert (forall st, wp ((mret tt : M ram unit) st) (fun _ _ => True)) as Hbin by (intros st; exact I).
  destruct (wp_inv _ _ (main_boots (fun _ => True) 1 (mret tt) demo_cold demo_cold_ok Hroom Huart demo_disk_present I Hbin)) as ([] & b & E & [_ _ _ [Hi _] Ha _ _]).
  exists b. split; [exact E|]. split; [exact Hi|exact Ha].
Defined.
